(* ===== verification/_CoqProject ===== *)
-Q . S2P
Prelude.v
CStr.v
Base64.v
Json.v
JsonTree.v
Common.v
StringBuf.v
Message.v
MessageBus.v
Fs.v
Logger.v
Session.v
Calendar.v
CronSchedule.v
Cron.v
CronRounds.v
Utils.v
Memory.v
Skills.v
Reminder.v
Mongoose.v
MongooseHttp.v
ToolRegistry.v
ToolExecutor.v
ToolContext.v
ToolValidation.v
ToolPaths.v
ChannelCommon.v
Protobuf.v
FeishuWs.v
DingTalkWs.v
Subagent.v
Tools.v
ContextBuilder.v
Heartbeat.v
Orchestrator.v
AgentCore.v
Config.v
ProviderRegistry.v
Provider.v
ProviderAsync.v
ChannelHttp.v
ProviderStream.v
Anthropic.v
PluginManager.v
BuiltinTools.v
Mcp.v
McpStdio.v
McpHttp.v
McpSse.v
ReminderJson.v
ReminderFlow.v
Acp.v
Commands.v
AgentLoop.v
Console.v
Lifecycle.v
SubagentRun.v
Dispatcher.v
ChatChannels.v
DingTalkChannel.v
WebUiReplies.v
WebUi.v
WebUiControl.v
FeishuChannel.v
Cli.v
Main.v
AgentRefinement.v
