(* ===== verification/Prelude.v ===== *)
(** * Primagen: a verification library for the agent runtime

    Primagen is an agent runtime in C: messages come in from channels (the
    terminal, chat services, HTTP), an agent loop asks a model, runs the tools
    the model calls, keeps conversations in sessions, and sends the answers
    back to the channels. This library models it file by file and proves what
    each part promises to the others. This header says what is modelled where,
    how the state of a file corresponds to that of the code, what the theorems
    show, and what was left out. Names of definitions are those of the source
    wherever one definition stands for one function; a theorem that is a
    property of the program carries its number (C1, C2, ...).

    ** Conventions

    A C string is the list of its bytes before the NUL ([cstr]); a [char*] that
    may be NULL is an [option]. An [int] or [size_t] is a [Z] (or [nat] where
    it counts things in memory) with its wrap-around written out where the code
    can reach it. What the operating system, the network or an allocation
    answers is an argument of the definition. [None] as the result of a whole
    operation is undefined behaviour, and the doc comment says so. A function
    that takes a mutex for its whole body is one step; where several threads
    matter the program is a transition system, and theorems are about every
    schedule. Shared memory is modelled where sharing matters: the contexts of
    requests in flight live in a heap (ProviderAsync.v), tools and channels are
    known by addresses (PluginManager.v), nodes of the cron list by theirs
    (Cron.v).

    ** The files, bottom up

    Prelude.v, this file: notations, tactics ([inv_match], [split_matches],
    [list_len]), the hint databases, buffers ([truncate_to]) and lemmas on
    lists. CStr.v: what the code uses of <string.h>, <ctype.h>, [strtol] and
    [snprintf]. Fs.v: files by path. Calendar.v: [localtime_r] and [mktime] at
    a fixed offset from UTC.

    Json.v, JsonTree.v: src/vendor/cJSON/cJSON.c, its tree, parser, printer and
    deep copy. Common.v, StringBuf.v, Utils.v: src/common/common.c, utils.c.
    Logger.v: src/common/logger.c. Message.v: src/common/message.c.

    MessageBus.v: src/bus/message_bus.c; [Module Fifo] is the specification,
    the ring buffer its implementation, and the files above it use the FIFO.
    Session.v: src/session/session.c. Memory.v, Skills.v, ContextBuilder.v: what
    goes into the prompt (src/memory, src/skills, src/context). CronSchedule.v,
    Cron.v, CronRounds.v: src/cron/cron.c and the callback of src/main.c.
    Reminder.v, ReminderJson.v, ReminderFlow.v: reminders from the request in
    the text to their delivery. Heartbeat.v: src/heartbeat/heartbeat.c.
    Config.v: src/config/config.c.

    ToolRegistry.v, ToolExecutor.v, ToolContext.v, ToolValidation.v,
    ToolPaths.v, Tools.v, BuiltinTools.v: src/tools: the table of tools, the
    thread pool with the synchronous call, the routes, the check of arguments,
    the policy on paths and commands, the ten built-in tools, and the tables
    they are registered from. Subagent.v, SubagentRun.v: src/subagent.

    ProviderRegistry.v, Provider.v, ProviderAsync.v, ProviderStream.v:
    src/providers; Anthropic.v: the plugin for the other API. The manager of
    requests is written once, for the class [ChatApi], with an instance for
    each API.

    Orchestrator.v, AgentCore.v, AgentLoop.v, Commands.v: src/agent: tasks,
    handlers, inbound messages, slash commands. AgentRefinement.v proves that
    the agent refines an abstract machine with one phase per conversation; the
    class [AgentEnv] (AgentCore.v) states what the agent needs of the tools'
    world, and [tool_world_env] (ReminderFlow.v) discharges it. Lifecycle.v: the
    threads of the loop as schedules, from start to stop.

    PluginManager.v: src/plugin/plugin_manager.c over an idealised [dlopen].
    Mcp.v: the MCP plugin; McpStdio.v, McpHttp.v, McpSse.v: its transports (a
    child process; HTTP with answers as JSON or events; an event stream, and
    the web socket). Mongoose.v, MongooseHttp.v: what the program relies on of
    the vendored HTTP library, to take requests and URLs apart, and the
    connection of an HTTP client, from arriving bytes to events. Base64.v: its
    encoding of attachments.

    Dispatcher.v: src/include/channel.h and the outbound thread of src/main.c;
    the class [Selective] is what every channel promises the dispatcher, with
    an instance per channel. Cli.v, Main.v: src/cli/commands.c and the rest of
    src/main.c.

    The channels. Console.v: the terminal. ChannelCommon.v: what the plugins
    share (attachments, memory chunks); ChannelHttp.v: the wait for the answer
    of an HTTP request, and the configuration of a channel. ChatChannels.v:
    telegram, slack, discord, email and stdout. Protobuf.v, FeishuWs.v,
    DingTalkWs.v: the event sockets of Feishu and DingTalk, down to the bytes of
    a frame; FeishuChannel.v, DingTalkChannel.v: these channels, with their
    tokens, attachments and ways to send. WebUiReplies.v: the reply queues of
    the web page and the requests that wait on them; WebUi.v: its messages and
    images; WebUiControl.v: its HTTP handler, with the uploads, skills and
    configuration. Acp.v: the HTTP interface for other agents. The network is a
    parameter in all of them: what each connection gives, event by event.


    ** What the theorems show

    Conversations: while ids are not repeated and no skill command goes to a
    busy conversation ([inbound_ok]), the agent refines one phase per
    conversation (no answer is lost, awaited twice or counted for the wrong
    conversation) and its turns are bounded (C1, C9); inbound messages are
    processed in order (C25); the loop stops under every schedule once it was
    running (C22); a reminder is delivered once, at its time, while nothing else
    touches its job (C3); each slash command is answered by the stage its name
    stands for (C19).

    Queues, pool and threads: the ring buffer is the FIFO (C2); the pool runs
    each request once (C7); the synchronous call with a time-out touches no
    freed memory under any interleaving (C8); outbound messages are given in
    order to the channels that want them and drained at the end (C18); starting
    and ending the program is in order under the conditions [Main.in_order],
    and three lemmas show what happens without them (C29); subagents end (C34)
    and have only their own tools.

    Storage: sessions (C4, C6), cron tables (C16, C26), memories (C23) and
    configurations (C36) are loaded as they were saved, with the exceptions the
    theorems name; a log loses only its oldest lines; onboarding overwrites
    nothing.

    Tools: an accepted path is inside the workspace, and the file tools stay
    inside, but that a file to be written can be a symbolic link (C5); an
    accepted command has only harmless characters (C21); arguments that pass
    conform to the schema (C13); a replacement is made only where the text is
    unique (C20).

    Models and protocols: truncation keeps tool calls with their results (C12),
    answers are read as they were sent, streams as far as the handler gets to
    see them (C11), each request is answered once (C10, C31); frames, message
    parts that come within five seconds, JSON-RPC messages, the events that come
    with the head of a stream, polled answers and replies survive the way (C27,
    C28, C30, C32, C37 to C40), and where the code loses or repeats one, an error
    lemma says when.

    ** Bounds and fuel

    Every recursion that is not structural has fuel, and a theorem or the call
    shows it is enough: the search for the next cron minute looks at
    [search_fuel] = 527042 minutes, as the code does; buffers that double are
    given [grow_fuel] = 64 doublings, more than a [size_t] has bits; a number
    has at most 10 varint bytes and 64 decimal digits; loops over a text have
    its length and one more; the scans of the plugin directories have the
    bytes of a path; a pattern of a request path has (length + 2) squared; a
    request of the HTTP transport of MCP is tried three times.

    ** Assumptions

    JSON numbers are decimals of at most 15 digits, which a [double] holds
    exactly; the time zone has a fixed offset; the ids
    drawn for tasks do not repeat and no skill command is sent to a busy
    conversation ([inbound_ok]); [realpath] behaves as its manual says,
    and the paths it gives have no links ([ts_opens] is the file a path leads
    to);
    the digest of DingTalk's signature is a parameter; the agent's tools see
    the files through their own copy of the store ([tw_fs]), the sessions
    through another ([al_fs]), since they touch different files. Each theorem
    with such a hypothesis has a witness at concrete values.

    ** What is not modelled

    The MQTT channel, the web search tools and the sample plugins; the sockets,
    TLS and other protocols of mongoose, whose work is the network parameter;
    the functions of cJSON the program does not call; the text of the web page;
    daylight saving and the rounding of doubles; an error of the file system in
    the middle of a write; races between accesses without a lock, but for those
    the steps of a transition system show; the threads a plugin starts itself,
    in the end of the program (Main.v); and code that nothing calls, such as the
    search for a post address of the event stream. *)
From stdpp Require Export base tactics numbers list strings gmap.
From Stdlib Require Export Ascii String ZArith Lia.
From stdpp Require Export list.

#[global] Open Scope nat_scope.
Declare Scope primagen_scope.
Delimit Scope primagen_scope with primagen.
#[global] Open Scope primagen_scope.

(** A C string is the list of its bytes before the terminating NUL. *)
Abbreviation cstr := (list ascii).

(** [$"text"] is the C string literal. *)
Notation "$ s" := (list_ascii_of_string s%string)
  (at level 1, s at level 0, format "$ s") : primagen_scope.

(** Rewriting and solving databases of the development. *)
Create HintDb primagen discriminated.
Create Rewrite HintDb primagen.

(** [inv_match H] splits every [match] and [if] of the hypothesis [H]. *)
Ltac inv_match H :=
  repeat match type of H with
  | context [match ?x with _ => _ end] => let E := fresh "E" in destruct x eqn:E
  end; simplify_eq/=.

(** [split_matches] splits every [match], [if] and [decide] of the goal. *)
Ltac split_matches :=
  repeat (case_match || case_decide || case_bool_decide); simplify_eq/=.

(** Solves list goals by the length of the pieces. *)
Ltac list_len := rewrite ?length_app, ?length_take, ?length_drop, ?length_replicate, ?length_insert; simpl; lia.

(** The bytes of a string that a [size]-byte buffer keeps: [snprintf], and
    [strncpy] followed by the explicit terminator (used with [size >= 1]). *)
Definition truncate_to (size : nat) (s : cstr) : cstr := take (size - 1) s.
#[global] Arguments truncate_to : simpl never.

Lemma truncate_to_id size s : length s < size -> truncate_to size s = s.
Proof. intros. unfold truncate_to. apply take_ge. lia. Qed.

Lemma truncate_to_length size s : length (truncate_to size s) = min (size - 1) (length s).
Proof. unfold truncate_to. by rewrite length_take. Qed.

Lemma truncate_to_idemp size s : truncate_to size (truncate_to size s) = truncate_to size s.
Proof. unfold truncate_to. rewrite take_take. f_equal. lia. Qed.

#[export] Hint Rewrite truncate_to_idemp : primagen.

(** Decoding every element of an encoded list. *)
Lemma omap_fmap_id {A B} (f : B -> option A) (g : A -> B) (l : list A) :
  (forall x, f (g x) = Some x) -> omap f (g <$> l) = l.
Proof. intros H. induction l as [|x l IH]; [done|]. cbn. rewrite H. by f_equal. Qed.

(** Sublists of lists with a property. *)
Lemma sublist_omap {A B} (f : A -> option B) (l1 l2 : list A) : sublist l1 l2 -> sublist (omap f l1) (omap f l2).
Proof.
  induction 1 as [|x l1 l2 _ IH|x l1 l2 _ IH]; cbn; [done|destruct (f x); [by apply sublist_skip|done]|].
  destruct (f x); [by apply sublist_cons|done].
Qed.

Lemma sublist_Forall {A} (P : A -> Prop) (l1 l2 : list A) : sublist l1 l2 -> Forall P l2 -> Forall P l1.
Proof. induction 1 as [|x l1 l2 _ IH|x l1 l2 _ IH]; intros H; [done|inversion H; constructor; auto|inversion H; auto]. Qed.

(** Machine integers: the value a [w]-bit unsigned, or signed, variable holds. *)
Definition wrap_u (w : Z) (z : Z) : Z := (z mod 2 ^ w)%Z.
Definition wrap_s (w : Z) (z : Z) : Z := ((z + 2 ^ (w - 1)) mod 2 ^ w - 2 ^ (w - 1))%Z.

Lemma wrap_u_range w z : (0 <= w)%Z -> (0 <= wrap_u w z < 2 ^ w)%Z.
Proof. intros. unfold wrap_u. apply Z.mod_pos_bound. by apply Z.pow_pos_nonneg. Qed.

Lemma wrap_u_id w z : (0 <= z < 2 ^ w)%Z -> wrap_u w z = z.
Proof. intros. unfold wrap_u. by apply Z.mod_small. Qed.

Lemma wrap_s_id w z : (0 < w)%Z -> (- 2 ^ (w - 1) <= z < 2 ^ (w - 1))%Z -> wrap_s w z = z.
Proof.
  intros Hw Hz. unfold wrap_s. rewrite Z.mod_small; [lia|].
  assert (2 ^ w = 2 * 2 ^ (w - 1))%Z as ->; [|lia].
  rewrite <- Z.pow_succ_r by lia. f_equal. lia.
Qed.

(** Finite step sequences of a transition relation. *)
Section Reach.
Context {A : Type} (R : A -> A -> Prop).

(** An invariant of the initial states that every step preserves holds in
    every reachable state. *)
Lemma rtc_invariant (I : A -> Prop) x y :
  (forall a b, I a -> R a b -> I b) -> I x -> rtc R x y -> I y.
Proof. intros Hstep Hx Hr. induction Hr; eauto. Qed.

(** The same for a relation between the first and the current state. *)
Lemma rtc_relation (P : A -> A -> Prop) x y :
  (forall a, P a a) -> (forall a b c, P a b -> R b c -> P a c) -> rtc R x y -> P x y.
Proof.
  intros Hrefl Hstep Hr. assert (P x x) as Hx by done. revert Hx.
  generalize x at 1 3. intros x0 Hx. induction Hr; eauto.
Qed.
End Reach.
