(* ===== verification/CStr.v ===== *)
(** The part of the C library the program uses on strings and integers:
    [strstr], [strchr], [strrchr], [strncmp] against a literal, [strcasecmp],
    [strtok_r], the [ctype.h] tests, [strtol]/[atoi] and the [%d], [%ld],
    [%zu], [%x] conversions of [snprintf]. Strings are the bytes before the
    NUL; a pointer into a string is the suffix it points to. *)
From S2P Require Import Prelude.

Definition code (c : ascii) : N := N_of_ascii c.
Definition in_range (lo hi : N) (c : ascii) : bool := (lo <=? code c)%N && (code c <=? hi)%N.

Definition isspace (c : ascii) : bool := in_range 9 13 c || (code c =? 32)%N.
Definition isdigit (c : ascii) : bool := in_range 48 57 c.
Definition isalpha (c : ascii) : bool := in_range 65 90 c || in_range 97 122 c.
Definition isalnum (c : ascii) : bool := isalpha c || isdigit c.
Definition tolower (c : ascii) : ascii :=
  if in_range 65 90 c then ascii_of_N (code c + 32) else c.

(** The double quote, newline, carriage return, tab and backslash bytes. *)
Definition ch_quote : ascii := "034"%char.
Definition ch_nl : ascii := "010"%char.
Definition ch_cr : ascii := "013"%char.
Definition ch_tab : ascii := "009"%char.
Definition ch_bs : ascii := "092"%char.

Definition str_eq (s t : cstr) : bool := bool_decide (s = t).

(** [strncmp(s, p, strlen(p)) == 0]. *)
Fixpoint starts_with (p s : cstr) : bool :=
  match p, s with
  | [], _ => true
  | a :: p', b :: s' => bool_decide (a = b) && starts_with p' s'
  | _ :: _, [] => false
  end.

(** [strstr]: the offset of the first occurrence. *)
Fixpoint strstr (s p : cstr) : option nat :=
  if starts_with p s then Some 0
  else match s with
       | [] => None
       | _ :: s' => S <$> strstr s' p
       end.

(** [strchr] and [strrchr] for a byte other than NUL. *)
Fixpoint strchr (s : cstr) (c : ascii) : option nat :=
  match s with
  | [] => None
  | a :: s' => if bool_decide (a = c) then Some 0 else S <$> strchr s' c
  end.

Fixpoint strrchr (s : cstr) (c : ascii) : option nat :=
  match s with
  | [] => None
  | a :: s' =>
      match strrchr s' c with
      | Some i => Some (S i)
      | None => if bool_decide (a = c) then Some 0 else None
      end
  end.

Definition strcasecmp_eq (s t : cstr) : bool := bool_decide (tolower <$> s = tolower <$> t).

(** The suffix after the leading bytes that satisfy [p]. *)
Fixpoint drop_while (p : ascii -> bool) (s : cstr) : cstr :=
  match s with
  | [] => []
  | a :: s' => if p a then drop_while p s' else s
  end.

Fixpoint take_while (p : ascii -> bool) (s : cstr) : cstr :=
  match s with
  | [] => []
  | a :: s' => if p a then a :: take_while p s' else []
  end.

(** The string without the trailing bytes that satisfy [p]. *)
Definition drop_tail (p : ascii -> bool) (s : cstr) : cstr := rev (drop_while p (rev s)).

(** All tokens of [strtok_r(s, d, ..)]: the non-empty runs between bytes of [d]. *)
Fixpoint strtok_aux (d : ascii -> bool) (cur : cstr) (s : cstr) : list cstr :=
  match s with
  | [] => if cur is [] then [] else [rev cur]
  | a :: s' =>
      if d a then (if cur is [] then [] else [rev cur]) ++ strtok_aux d [] s'
      else strtok_aux d (a :: cur) s'
  end.
Definition strtok (d : ascii -> bool) (s : cstr) : list cstr := strtok_aux d [] s.

(** ** Decimal input *)

Fixpoint digits_value (acc : Z) (s : cstr) : Z * cstr :=
  match s with
  | a :: s' =>
      if isdigit a then digits_value (acc * 10 + (Z.of_N (code a) - 48))%Z s' else (acc, s)
  | [] => (acc, [])
  end.

Definition LONG_MAX : Z := (2 ^ 63 - 1)%Z.
Definition LONG_MIN : Z := (- 2 ^ 63)%Z.
Definition INT_MAX : Z := (2 ^ 31 - 1)%Z.
Definition SIZE_MAX : Z := (2 ^ 64 - 1)%Z.

(** [strtol(s, &end, 10)]: the value, clamped to [long], and the suffix [end]
    (the whole string when there is no number). *)
Definition strtol (s : cstr) : Z * cstr :=
  let t := drop_while isspace s in
  let '(neg, u) :=
    match t with
    | "-"%char :: u => (true, u)
    | "+"%char :: u => (false, u)
    | _ => (false, t)
    end in
  match u with
  | a :: _ =>
      if isdigit a then
        let '(v, rest) := digits_value 0 u in
        ((if neg then Z.max LONG_MIN (- v) else Z.min LONG_MAX v)%Z, rest)
      else (0%Z, s)
  | [] => (0%Z, s)
  end.

Definition atol (s : cstr) : Z := fst (strtol s).
(** glibc's [atoi] is [(int) strtol(s, NULL, 10)]. *)
Definition atoi (s : cstr) : Z := wrap_s 32 (atol s).

(** ** Decimal and hexadecimal output *)

Definition digit_char (upper : bool) (d : N) : ascii :=
  ascii_of_N (if (d <? 10)%N then 48 + d else (if upper then 55 else 87) + d).

Fixpoint print_base (base : N) (fuel : nat) (n : N) (acc : cstr) : cstr :=
  match fuel with
  | 0 => acc
  | S f =>
      let acc' := digit_char false (n mod base) :: acc in
      if (n <? base)%N then acc' else print_base base f (n / base)%N acc'
  end.

(** [%lu] and [%x]: [N.size_nat n + 1] digits are always enough. *)
Definition fmt_u (n : N) : cstr := print_base 10 (S (N.size_nat n)) n [].
Definition fmt_x (n : N) : cstr := print_base 16 (S (N.size_nat n)) n [].

(** [%d], [%ld]. *)
Definition fmt_d (z : Z) : cstr :=
  if (z <? 0)%Z then "-"%char :: fmt_u (Z.to_N (- z)) else fmt_u (Z.to_N z).

Definition fmt_zu (n : nat) : cstr := fmt_u (N.of_nat n).

(** [%0<w>llx]: padded with zeros on the left to width [w]. *)
Definition pad_left (w : nat) (c : ascii) (s : cstr) : cstr := replicate (w - length s) c ++ s.

(** ** Facts about searching *)

Lemma starts_with_app p s : starts_with p (p ++ s) = true.
Proof. induction p as [|a p IH]; [done|]. cbn. by rewrite bool_decide_true, IH. Qed.

Lemma starts_with_refl p : starts_with p p = true.
Proof. rewrite <-(app_nil_r p) at 2. apply starts_with_app. Qed.

Lemma starts_with_true p s : starts_with p s = true <-> exists r, s = p ++ r.
Proof.
  split; [|intros [r ->]; apply starts_with_app].
  revert s. induction p as [|a p IH]; intros s; [by exists s|].
  destruct s as [|b s]; cbn; [done|]. intros [->%bool_decide_eq_true [r ->]%IH]%andb_prop.
  by exists r.
Qed.

Lemma strstr_Some s p i :
  strstr s p = Some i ->
  s = take i s ++ p ++ drop (i + length p) s /\ i + length p <= length s.
Proof.
  revert i. induction s as [|a s IH]; intros i.
  - cbn. destruct (starts_with p []) eqn:E; [|done]. intros [= <-].
    apply starts_with_true in E as [r E]. destruct p; [done|discriminate].
  - cbn [strstr]. destruct (starts_with p (a :: s)) eqn:E.
    + intros [= <-]. apply starts_with_true in E as [r E]. rewrite E.
      cbn. rewrite drop_app_length. split; [done|]. rewrite length_app. lia.
    + destruct (strstr s p) as [j|] eqn:Ej; [|done]. intros [= <-].
      destruct (IH j eq_refl) as [H1 H2]. cbn. split; [by rewrite <-H1|lia].
Qed.

(** A string that contains [p] has an occurrence of [p]. *)
Lemma strstr_mid s p r : is_Some (strstr (s ++ p ++ r) p).
Proof.
  induction s as [|a s IH].
  - assert (starts_with p (p ++ r) = true) as H by apply starts_with_app.
    cbn [app]. destruct (p ++ r) eqn:E; cbn [strstr]; rewrite H; by eexists.
  - cbn [app strstr]. case_match; [by eexists|]. destruct IH as [i ->]. by eexists.
Qed.

Lemma strstr_None_app s p r : strstr (s ++ r) p = None -> strstr s p = None.
Proof.
  induction s as [|a s IH].
  - destruct p; cbn; [|done]. by destruct r.
  - cbn [app strstr]. case_match eqn:E; [done|].
    destruct (strstr (s ++ r) p) eqn:E2; [done|]. intros _. rewrite (IH eq_refl).
    case_match eqn:E3; [|done]. apply starts_with_true in E3 as [q Hq].
    rewrite app_comm_cons, Hq, <-app_assoc, starts_with_app in E. done.
Qed.

(** [p] stands at offset [i] of [s]. *)
Definition occurs_at (s p : cstr) (i : nat) : Prop := i <= length s /\ starts_with p (drop i s) = true.

(** [strstr] finds the first occurrence. *)
Lemma strstr_first s p :
  match strstr s p with
  | Some i => occurs_at s p i /\ forall j, occurs_at s p j -> i <= j
  | None => forall j, ~ occurs_at s p j
  end.
Proof.
  assert (forall c r j, occurs_at (c :: r) p (S j) <-> occurs_at r p j) as Hs.
  { intros c r j. unfold occurs_at. cbn [length drop]. split; intros [? ?]; (split; [lia|done]). }
  induction s as [|c r IH].
  - cbn [strstr]. destruct (starts_with p []) eqn:E.
    + split; [split; [done|exact E]|lia].
    + intros j [Hj H]. cbn in Hj. assert (j = 0) as -> by lia. rewrite drop_0 in H. congruence.
  - cbn [strstr]. destruct (starts_with p (c :: r)) eqn:E; [split; [split; [cbn; lia|exact E]|lia]|].
    assert (~ occurs_at (c :: r) p 0) as H0 by (intros [_ H]; rewrite drop_0 in H; congruence).
    destruct (strstr r p) as [i|]; cbn.
    + destruct IH as [H1 H2]. split; [by apply Hs|]. intros [|j] Hj; [done|]. apply Hs, H2 in Hj. lia.
    + intros [|j] Hj; [done|]. by apply Hs, IH in Hj.
Qed.

Lemma strchr_Some s c i : strchr s c = Some i ->
  s = take i s ++ c :: drop (S i) s /\ i < length s /\ c ∉ take i s.
Proof.
  revert i. induction s as [|a s IH]; intros i; cbn; [done|].
  case_bool_decide as Ha; subst; [intros [= <-]; cbn; split_and!; [done|lia|apply not_elem_of_nil]|].
  destruct (strchr s c) as [j|]; [|done]. intros [= <-].
  destruct (IH j eq_refl) as (H1 & H2 & H3). cbn. split_and!; [by rewrite <-H1|lia|].
  apply not_elem_of_cons. by split.
Qed.

Lemma strchr_None s c : strchr s c = None <-> c ∉ s.
Proof.
  induction s as [|a s IH]; cbn; [split; [intros _; apply not_elem_of_nil|done]|].
  rewrite not_elem_of_cons, <-IH. case_bool_decide as Ha; [intuition congruence|].
  destruct (strchr s c); cbn; intuition congruence.
Qed.

Lemma strchr_app s c r : c ∉ s -> strchr (s ++ c :: r) c = Some (length s).
Proof.
  induction s as [|a s IH]; cbn; [by rewrite bool_decide_true|].
  intros [Hne Hs]%not_elem_of_cons. rewrite bool_decide_false by done. by rewrite IH.
Qed.

(** ** Facts about trimming *)

Lemma drop_while_suffix p s : exists l, s = l ++ drop_while p s /\ Forall (fun c => p c = true) l.
Proof.
  induction s as [|a s [l [IH1 IH2]]]; [by exists []|]. cbn. destruct (p a) eqn:E.
  - exists (a :: l). split; [cbn; by f_equal|by constructor].
  - by exists [].
Qed.

Lemma drop_while_head p s a r : drop_while p s = a :: r -> p a = false.
Proof. induction s as [|b s IH]; cbn; [done|]. destruct (p b) eqn:E; naive_solver. Qed.

Lemma drop_while_idemp p s : drop_while p (drop_while p s) = drop_while p s.
Proof.
  destruct (drop_while p s) as [|a r] eqn:E; [done|]. cbn.
  by rewrite (drop_while_head _ _ _ _ E).
Qed.

Lemma drop_while_id p a s : p a = false -> drop_while p (a :: s) = a :: s.
Proof. cbn. by intros ->. Qed.

Lemma drop_while_length p s : length (drop_while p s) <= length s.
Proof. induction s as [|a s IH]; cbn; [lia|]. case_match; cbn; lia. Qed.

Lemma drop_tail_prefix p s : exists l, s = drop_tail p s ++ l /\ Forall (fun c => p c = true) l.
Proof.
  unfold drop_tail. destruct (drop_while_suffix p (rev s)) as [l [H1 H2]].
  exists (rev l). split.
  - rewrite <-rev_app_distr, <-H1. by rewrite rev_involutive.
  - by apply Forall_rev.
Qed.

Lemma drop_tail_last p s a r : drop_tail p s = r ++ [a] -> p a = false.
Proof.
  unfold drop_tail. intros H. apply (f_equal (@rev _)) in H.
  rewrite rev_involutive, rev_app_distr in H. by apply drop_while_head in H.
Qed.

(** ** Facts about decimal numbers *)

Lemma code_ascii_of_N n : (n < 256)%N -> code (ascii_of_N n) = n.
Proof. apply N_ascii_embedding. Qed.

Lemma code_digit_char up d : (d < 10)%N -> code (digit_char up d) = (48 + d)%N.
Proof.
  intros H. unfold digit_char. rewrite (proj2 (N.ltb_lt d 10)) by done.
  apply code_ascii_of_N. lia.
Qed.

Lemma isdigit_digit_char up d : (d < 10)%N -> isdigit (digit_char up d) = true.
Proof.
  intros H. unfold isdigit, in_range. rewrite code_digit_char by done.
  apply andb_true_intro. split; apply N.leb_le; lia.
Qed.

Lemma print_base_digits fuel n t :
  Forall (fun c => isdigit c = true) t ->
  Forall (fun c => isdigit c = true) (print_base 10 fuel n t).
Proof.
  revert n t. induction fuel as [|f IH]; intros n t Ht; [done|]. cbn [print_base].
  assert (isdigit (digit_char false (n mod 10)) = true) by
    (apply isdigit_digit_char; apply N.mod_lt; done).
  case_match; [by constructor|]. apply IH. by constructor.
Qed.

Lemma fmt_u_digits n : Forall (fun c => isdigit c = true) (fmt_u n).
Proof. by apply print_base_digits. Qed.

Lemma print_base_value fuel n t a :
  (n < 10 ^ N.of_nat (S fuel))%N ->
  exists k, (0 <= k)%Z /\
  digits_value a (print_base 10 (S fuel) n t) = digits_value (a * 10 ^ k + Z.of_N n) t.
Proof.
  revert n t a. induction fuel as [|f IH]; intros n t a Hn.
  - cbn [print_base]. exists 1%Z. split; [lia|].
    assert (n < 10)%N as Hlt by (cbn in Hn; lia).
    rewrite (proj2 (N.ltb_lt _ _) Hlt). cbn [digits_value].
    rewrite N.mod_small by done. rewrite isdigit_digit_char, code_digit_char by done. f_equal. lia.
  - cbn [print_base]. destruct (n <? 10)%N eqn:E.
    + apply N.ltb_lt in E. exists 1%Z. split; [lia|]. cbn [digits_value].
      rewrite N.mod_small by done. rewrite isdigit_digit_char, code_digit_char by done.
      f_equal. lia.
    + apply N.ltb_ge in E.
      destruct (IH (n / 10)%N (digit_char false (n mod 10) :: t) a) as [k [Hk Hv]].
      { apply N.Div0.div_lt_upper_bound. rewrite Nat2N.inj_succ, N.pow_succ_r' in Hn. exact Hn. }
      exists (k + 1)%Z. split; [lia|].
      change (digits_value a (print_base 10 (S f) (n / 10) (digit_char false (n mod 10) :: t)) =
              digits_value (a * 10 ^ (k + 1) + Z.of_N n) t).
      rewrite Hv. cbn [digits_value].
      assert (n mod 10 < 10)%N by (by apply N.mod_lt).
      rewrite isdigit_digit_char, code_digit_char by done. f_equal.
      rewrite Z.pow_add_r by lia. pose proof (N.Div0.div_mod n 10). lia.
Qed.

Lemma size_nat_lt n : (n < 2 ^ N.of_nat (N.size_nat n))%N.
Proof.
  pose proof (N.size_gt n) as Hs.
  assert (forall p, N.of_nat (Pos.size_nat p) = N.pos (Pos.size p)) as Hp.
  { clear. induction p as [p IH|p IH|]; cbn [Pos.size Pos.size_nat]; [| |done]; by rewrite Nat2N.inj_succ, IH. }
  destruct n as [|p]; [done|]. cbn [N.size_nat]. by rewrite Hp.
Qed.

Lemma size_nat_pow n : (n < 10 ^ N.of_nat (S (N.size_nat n)))%N.
Proof.
  eapply N.lt_le_trans; [apply size_nat_lt|].
  etransitivity; [apply N.pow_le_mono_l with (b := 10%N); lia|].
  apply N.pow_le_mono_r; lia.
Qed.

Lemma fmt_u_value n r : digits_value 0 (fmt_u n ++ r) = digits_value (Z.of_N n) r.
Proof.
  assert (forall fuel m t, print_base 10 fuel m t ++ r = print_base 10 fuel m (t ++ r)) as Happ.
  { induction fuel as [|f IH]; intros m t; [done|]. cbn [print_base]. case_match; [done|].
    by rewrite IH. }
  unfold fmt_u. rewrite Happ. cbn [app].
  destruct (print_base_value (N.size_nat n) n r 0 (size_nat_pow n)) as [k [_ ->]]. f_equal.
Qed.

(** A number followed by something else than a digit is read back exactly. *)
Definition no_digit_head (r : cstr) : Prop := match r with a :: _ => isdigit a = false | [] => True end.

Lemma digits_value_stop a r : no_digit_head r -> digits_value a r = (a, r).
Proof. destruct r as [|b r]; [done|]. cbn. by intros ->. Qed.

Lemma print_base_length base fuel : (2 <= base)%N -> forall n acc k, (n < base ^ N.of_nat (S k))%N ->
  length (print_base base fuel n acc) <= S k + length acc.
Proof.
  intros Hb. induction fuel as [|f IH]; intros n acc k Hn; cbn [print_base]; [lia|].
  destruct (n <? base)%N eqn:E; [cbn; lia|]. apply N.ltb_ge in E. destruct k as [|k].
  - rewrite N.pow_1_r in Hn. lia.
  - etransitivity; [apply (IH _ _ k)|cbn; lia].
    apply N.Div0.div_lt_upper_bound. by rewrite <- N.pow_succ_r', <- Nnat.Nat2N.inj_succ.
Qed.

Lemma fmt_u_length n k : (n < 10 ^ N.of_nat (S k))%N -> length (fmt_u n) <= S k.
Proof. intros Hn. etransitivity; [by apply print_base_length|cbn; lia]. Qed.

Lemma print_base_acc base fuel n t : print_base base fuel n t = print_base base fuel n [] ++ t.
Proof.
  revert n t. induction fuel as [|f IH]; intros n t; [done|]. cbn [print_base].
  destruct (n <? base)%N; [done|]. rewrite (IH _ (_ :: t)), (IH _ [_]). by rewrite <-app_assoc.
Qed.

(** Any fuel beyond the number of binary digits gives the same text. *)
Lemma print_base_fuel base : (2 <= base)%N -> forall f g n t, (n < 2 ^ N.of_nat f)%N -> (n < 2 ^ N.of_nat g)%N ->
  print_base base (S f) n t = print_base base (S g) n t.
Proof.
  intros Hb. induction f as [|f IH]; intros g n t Hf Hg.
  - cbn [print_base]. assert ((n <? base)%N = true) as -> by (apply N.ltb_lt; cbn in Hf; lia). done.
  - cbn [print_base]. destruct (n <? base)%N eqn:E; [done|]. apply N.ltb_ge in E.
    destruct g as [|g]; [cbn in Hg; lia|].
    assert (forall k, (n < 2 ^ N.of_nat (S k))%N -> (n / base < 2 ^ N.of_nat k)%N) as Hd.
    { intros k Hk. apply N.Div0.div_lt_upper_bound. rewrite Nat2N.inj_succ, N.pow_succ_r' in Hk. nia. }
    by apply IH; apply Hd.
Qed.

(** Writing one more digit. *)
Lemma fmt_u_snoc n d : (0 < n)%N -> (d < 10)%N -> fmt_u (n * 10 + d) = fmt_u n ++ [digit_char false d].
Proof.
  intros Hn Hd. unfold fmt_u. set (m := (n * 10 + d)%N).
  assert (m / 10 = n /\ m mod 10 = d)%N as [Hq Hr].
  { unfold m. split; [rewrite N.div_add_l by done; rewrite N.div_small by done; lia|].
    rewrite N.add_comm, N.Div0.mod_add. by apply N.mod_small. }
  cbn [print_base]. assert ((m <? 10)%N = false) as -> by (apply N.ltb_ge; lia). rewrite Hq, Hr.
  pose proof (size_nat_lt m) as Hm.
  assert (N.size_nat m <> 0) as Hz by (intros E; rewrite E in Hm; cbn in Hm; lia).
  destruct (N.size_nat m) as [|k] eqn:Ek; [done|].
  change (print_base 10 (S k) n [digit_char false d] = print_base 10 (S (N.size_nat n)) n [] ++ [digit_char false d]).
  rewrite (print_base_fuel 10 ltac:(done) k (N.size_nat n)); [apply print_base_acc| |apply size_nat_lt].
  rewrite Nat2N.inj_succ, N.pow_succ_r' in Hm. lia.
Qed.

Lemma fmt_u_pow10 n k : (0 < n)%N -> fmt_u (n * 10 ^ N.of_nat k) = fmt_u n ++ replicate k "0"%char.
Proof.
  intros Hn. induction k as [|k IH]; [by rewrite N.mul_1_r, app_nil_r|].
  rewrite Nat2N.inj_succ, N.pow_succ_r'.
  replace (n * (10 * 10 ^ N.of_nat k))%N with (n * 10 ^ N.of_nat k * 10 + 0)%N by lia.
  rewrite fmt_u_snoc by (try done; pose proof (N.pow_nonzero 10 (N.of_nat k)); lia).
  rewrite IH, <-app_assoc. f_equal. clear. induction k as [|k IH]; [done|]. cbn. by rewrite IH.
Qed.

Lemma fmt_u_nonempty n : exists d t, fmt_u n = d :: t /\ isdigit d = true.
Proof.
  pose proof (fmt_u_digits n) as H. destruct (fmt_u n) as [|d t] eqn:E.
  - exfalso. unfold fmt_u in E. cbn [print_base] in E. revert E. case_match; [done|].
    generalize (n / 10)%N (digit_char false (n mod 10)). intros m d E.
    assert (forall f k x xs, print_base 10 f k (x :: xs) <> []) as Hne.
    { induction f as [|f IH]; intros k x xs; cbn [print_base]; [done|]. case_match; [done|]. apply IH. }
    by apply Hne in E.
  - inversion H; subst. eauto.
Qed.

Lemma isdigit_code d : isdigit d = true -> (48 <= code d <= 57)%N.
Proof.
  unfold isdigit, in_range. intros [H1 H2]%andb_prop.
  apply N.leb_le in H1. apply N.leb_le in H2. lia.
Qed.

Lemma isdigit_not_space d : isdigit d = true -> isspace d = false.
Proof.
  intros H%isdigit_code. unfold isspace, in_range.
  apply orb_false_intro; [apply andb_false_intro2; apply N.leb_gt; lia|apply N.eqb_neq; lia].
Qed.

Lemma isdigit_not_sign d : isdigit d = true -> d <> "-"%char /\ d <> "+"%char.
Proof. intros H. split; intros ->; by vm_compute in H. Qed.

Lemma strtol_digits d t v r :
  isdigit d = true -> digits_value 0 (d :: t) = (v, r) -> strtol (d :: t) = (Z.min LONG_MAX v, r).
Proof.
  intros Hd Hv. unfold strtol. rewrite drop_while_id by (by apply isdigit_not_space).
  pose proof (isdigit_not_sign d Hd) as [Hm Hp].
  assert (match d :: t with "-"%char :: u => (true, u) | "+"%char :: u => (false, u)
          | _ => (false, d :: t) end = (false, d :: t)) as ->.
  { destruct d as [[] [] [] [] [] [] [] []]; first [done | by destruct Hm | by destruct Hp]. }
  rewrite Hd, Hv. done.
Qed.

(** An [int] takes at most 11 characters. *)
Lemma fmt_d_int_length z : (- 2 ^ 31 <= z < 2 ^ 31)%Z -> length (fmt_d z) <= 11.
Proof.
  intros Hz. unfold fmt_d. destruct (z <? 0)%Z eqn:E.
  - apply Z.ltb_lt in E. cbn [length]. assert (length (fmt_u (Z.to_N (- z))) <= 10); [|lia].
    apply (fmt_u_length _ 9). change (10 ^ N.of_nat 10)%N with 10000000000%N. lia.
  - apply Z.ltb_ge in E. assert (length (fmt_u (Z.to_N z)) <= 10); [|lia].
    apply (fmt_u_length _ 9). change (10 ^ N.of_nat 10)%N with 10000000000%N. lia.
Qed.

(** [strtol] reads back what [%ld] printed. *)
Theorem strtol_fmt_d z r :
  (LONG_MIN <= z <= LONG_MAX)%Z -> no_digit_head r -> strtol (fmt_d z ++ r) = (z, r).
Proof.
  intros Hz Hr. unfold fmt_d. destruct (z <? 0)%Z eqn:E.
  - apply Z.ltb_lt in E. unfold strtol. cbn [app]. rewrite drop_while_id by done.
    cbn beta iota. pose proof (fmt_u_value (Z.to_N (- z)) r) as Hv.
    destruct (fmt_u_nonempty (Z.to_N (- z))) as (d & t & Hd & Hdd). rewrite Hd in Hv |- *.
    cbn [app] in *. rewrite Hdd, Hv, digits_value_stop by done.
    f_equal. unfold LONG_MIN in *. lia.
  - apply Z.ltb_ge in E. pose proof (fmt_u_value (Z.to_N z) r) as Hv.
    destruct (fmt_u_nonempty (Z.to_N z)) as (d & t & Hd & Hdd). rewrite Hd in Hv |- *.
    cbn [app] in *. rewrite (digits_value_stop _ r Hr) in Hv.
    etransitivity; [exact (strtol_digits _ _ _ _ Hdd Hv)|]. f_equal. unfold LONG_MAX in *. lia.
Qed.

Corollary atol_fmt_d z : (LONG_MIN <= z <= LONG_MAX)%Z -> atol (fmt_d z) = z.
Proof.
  intros Hz. unfold atol. rewrite <-(app_nil_r (fmt_d z)). by rewrite strtol_fmt_d.
Qed.

Corollary atoi_fmt_d z : (- 2 ^ 31 <= z <= INT_MAX)%Z -> atoi (fmt_d z) = z.
Proof.
  intros Hz. unfold atoi, INT_MAX in *. rewrite atol_fmt_d.
  - apply wrap_s_id; lia.
  - unfold LONG_MIN, LONG_MAX. lia.
Qed.
