(* ===== verification/Base64.v ===== *)
(** The base64 functions of [src/vendor/mongoose/mongoose.c], by which the
    plugins carry files in JSON texts and pages. A value of [int] that stands
    for a character is an [N]; the buffer is what was written of it and the
    byte that is being put together. *)
From S2P Require Import Prelude CStr.
Open Scope N_scope.

Definition mg_base64_encode_single (c : N) : ascii :=
  if c <? 26 then ascii_of_N (c + 65)
  else if c <? 52 then ascii_of_N (c - 26 + 97)
  else if c <? 62 then ascii_of_N (c - 52 + 48)
  else if c =? 62 then "+"%char else "/"%char.

(** [None] is -1; 64 is the filler. *)
Definition mg_base64_decode_single (c : ascii) : option N :=
  if in_range 65 90 c then Some (code c - 65)
  else if in_range 97 122 c then Some (code c + 26 - 97)
  else if isdigit c then Some (code c + 52 - 48)
  else if bool_decide (c = "+"%char) then Some 62
  else if bool_decide (c = "/"%char) then Some 63
  else if bool_decide (c = "="%char) then Some 64
  else None.

(** [to] up to [n], and [to[n]]. *)
Record Base64Buf := mkB64 { b64_out : cstr; b64_next : N }.

Definition mg_base64_update (ch : N) (b : Base64Buf) : Base64Buf :=
  let rem := Nat.modulo (Nat.modulo (length (b64_out b)) 4) 3 in
  match rem with
  | 0%nat => mkB64 (b64_out b ++ [mg_base64_encode_single (N.shiftr ch 2)]) (N.shiftl (N.land ch 3) 4)
  | 1%nat => mkB64 (b64_out b ++ [mg_base64_encode_single (N.lor (b64_next b) (N.shiftr ch 4))]) (N.shiftl (N.land ch 15) 2)
  | _ => mkB64 (b64_out b ++ [mg_base64_encode_single (N.lor (b64_next b) (N.shiftr ch 6)); mg_base64_encode_single (N.land ch 63)]) 0
  end.

Definition fill (s : cstr) : cstr := s ++ replicate (Nat.modulo (4 - Nat.modulo (length s) 4) 4) "="%char.

Definition mg_base64_final (b : Base64Buf) : cstr :=
  let saved := Nat.modulo (length (b64_out b)) 4 in
  match saved with
  | 0%nat => b64_out b
  | 2%nat => fill (removelast (b64_out (mg_base64_update 0 b)))
  | _ => fill (b64_out (mg_base64_update 0 b))
  end.

(** [None]: the block is too small. *)
Definition mg_base64_encode (p : cstr) (dl : nat) : option cstr :=
  let n := length p in
  if Nat.ltb dl ((Nat.div n 3 + (if Nat.eqb (Nat.modulo n 3) 0 then 0 else 1)) * 4 + 1) then None
  else Some (mg_base64_final (fold_left (fun b c => mg_base64_update (code c) b) p (mkB64 [] 0))).

Definition byte (z : N) : ascii := ascii_of_N (z mod 256).

(** The loop: what does not make four characters is left. *)
Fixpoint decode_quads (src : cstr) : option cstr :=
  match src with
  | a :: b :: c :: d :: r =>
      match mg_base64_decode_single a, mg_base64_decode_single b, mg_base64_decode_single c, mg_base64_decode_single d with
      | Some x, Some y, Some z, Some w =>
          if (x =? 64) || (y =? 64) then None
          else
            let bytes := byte (N.lor (N.shiftl x 2) (N.shiftr y 4)) ::
              (if bool_decide (c = "="%char) then []
               else byte (N.lor (N.shiftl y 4) (N.shiftr z 2)) :: if bool_decide (d = "="%char) then [] else [byte (N.lor (N.shiftl z 6) w)]) in
            match decode_quads r with Some t => Some (bytes ++ t) | None => None end
      | _, _, _, _ => None
      end
  | _ => Some []
  end.

(** The length 0 stands for a failure too. *)
Definition mg_base64_decode (src : cstr) (dl : nat) : cstr :=
  if Nat.ltb dl (Nat.div (length src) 4 * 3 + 1) then [] else default [] (decode_quads src).

(** ** What was encoded is decoded *)

Definition all_below (n : nat) (p : N -> bool) : bool := forallb (fun k => p (N.of_nat k)) (seq 0 n).
Lemma all_below_each n p k : all_below n p = true -> k < N.of_nat n -> p k = true.
Proof.
  intros H Hk. unfold all_below in H. rewrite forallb_forall in H. rewrite <-(N2Nat.id k). apply H, in_seq. lia.
Qed.

Lemma code_bound c : code c < N.of_nat 256.
Proof. pose proof (N_ascii_bounded c). unfold code. lia. Qed.

Lemma ascii_code c : ascii_of_N (code c) = c.
Proof. apply ascii_N_embedding. Qed.

Lemma single_ok k : k < N.of_nat 64 -> mg_base64_decode_single (mg_base64_encode_single k) = Some k /\ (k =? 64) = false /\ mg_base64_encode_single k <> "="%char.
Proof.
  intros Hk. assert (all_below 64 (fun k => bool_decide (mg_base64_decode_single (mg_base64_encode_single k) = Some k) && negb (bool_decide (mg_base64_encode_single k = "="%char))) = true) as H by (by vm_compute).
  pose proof (all_below_each 64 _ k H Hk) as [H1%bool_decide_eq_true H2%negb_true_iff%bool_decide_eq_false]%andb_prop. split_and!; [done|apply N.eqb_neq; lia|done].
Qed.

(** The four values of three bytes. *)
Definition q1 (x : N) : N := N.shiftr x 2.
Definition q2 (x y : N) : N := N.lor (N.shiftl (N.land x 3) 4) (N.shiftr y 4).
Definition q3 (y z : N) : N := N.lor (N.shiftl (N.land y 15) 2) (N.shiftr z 6).
Definition q4 (z : N) : N := N.land z 63.

Lemma q1_bound x : x < N.of_nat 256 -> q1 x < N.of_nat 64.
Proof. intros H. apply N.ltb_lt. exact (all_below_each 256 (fun x => q1 x <? N.of_nat 64) x ltac:(by vm_compute) H). Qed.
Lemma q4_bound x : x < N.of_nat 256 -> q4 x < N.of_nat 64.
Proof. intros H. apply N.ltb_lt. exact (all_below_each 256 (fun x => q4 x <? N.of_nat 64) x ltac:(by vm_compute) H). Qed.

Lemma high_bound x k : x < N.of_nat 256 -> k = 4 \/ k = 6 -> N.shiftr x k < N.of_nat 16 /\ (k = 6 -> N.shiftr x k < N.of_nat 4).
Proof.
  intros H Hk. assert (all_below 256 (fun x => (N.shiftr x 4 <? 16) && (N.shiftr x 6 <? 4)) = true) as Ha by (by vm_compute).
  pose proof (all_below_each 256 _ x Ha H) as [H1%N.ltb_lt H2%N.ltb_lt]%andb_prop. destruct Hk as [-> | ->]; split; [lia|done|lia|done].
Qed.
Lemma low_bound x : x < N.of_nat 256 -> N.land x 3 < N.of_nat 4 /\ N.land x 15 < N.of_nat 16.
Proof.
  intros H. assert (all_below 256 (fun x => (N.land x 3 <? 4) && (N.land x 15 <? 16)) = true) as Ha by (by vm_compute).
  pose proof (all_below_each 256 _ x Ha H) as [H1%N.ltb_lt H2%N.ltb_lt]%andb_prop. split; lia.
Qed.

Lemma below2 n m (p : N -> N -> bool) x y : all_below n (fun x => all_below m (p x)) = true -> x < N.of_nat n -> y < N.of_nat m -> p x y = true.
Proof. intros H Hx Hy. apply (all_below_each m); [|done]. by apply (all_below_each n (fun x => all_below m (p x))). Qed.

Lemma first_byte x h : x < N.of_nat 256 -> h < N.of_nat 16 -> byte (N.lor (N.shiftl (q1 x) 2) (N.shiftr (N.lor (N.shiftl (N.land x 3) 4) h) 4)) = ascii_of_N x.
Proof.
  intros Hx Hh. apply Ascii.eqb_eq.
  apply (below2 256 16 (fun x h => Ascii.eqb (byte (N.lor (N.shiftl (q1 x) 2) (N.shiftr (N.lor (N.shiftl (N.land x 3) 4) h) 4))) (ascii_of_N x))); [by vm_compute|done..].
Qed.

Lemma second_byte y l h : y < N.of_nat 256 -> l < N.of_nat 4 -> h < N.of_nat 4 ->
  byte (N.lor (N.shiftl (N.lor (N.shiftl l 4) (N.shiftr y 4)) 4) (N.shiftr (N.lor (N.shiftl (N.land y 15) 2) h) 2)) = ascii_of_N y.
Proof.
  intros Hy Hl Hh. apply Ascii.eqb_eq.
  pose proof (fun H => below2 256 4 (fun y l => all_below 4 (fun h => Ascii.eqb (byte (N.lor (N.shiftl (N.lor (N.shiftl l 4) (N.shiftr y 4)) 4) (N.shiftr (N.lor (N.shiftl (N.land y 15) 2) h) 2))) (ascii_of_N y))) y l H Hy Hl) as H3.
  apply (all_below_each 4 _ h (H3 ltac:(by vm_compute)) Hh).
Qed.

Lemma third_byte z l : z < N.of_nat 256 -> l < N.of_nat 16 -> byte (N.lor (N.shiftl (N.lor (N.shiftl l 2) (N.shiftr z 6)) 6) (q4 z)) = ascii_of_N z.
Proof.
  intros Hz Hl. apply Ascii.eqb_eq.
  apply (below2 256 16 (fun z l => Ascii.eqb (byte (N.lor (N.shiftl (N.lor (N.shiftl l 2) (N.shiftr z 6)) 6) (q4 z))) (ascii_of_N z))); [by vm_compute|done..].
Qed.

Lemma q2_bound x y : x < N.of_nat 256 -> y < N.of_nat 256 -> q2 x y < N.of_nat 64.
Proof.
  intros Hx Hy. destruct (high_bound y 4 Hy (or_introl eq_refl)) as [Hh _]. apply N.ltb_lt.
  apply (below2 256 16 (fun x h => N.lor (N.shiftl (N.land x 3) 4) h <? N.of_nat 64)); [by vm_compute|done..].
Qed.
Lemma q3_bound y z : y < N.of_nat 256 -> z < N.of_nat 256 -> q3 y z < N.of_nat 64.
Proof.
  intros Hy Hz. destruct (high_bound z 6 Hz (or_intror eq_refl)) as [Hh _]. apply N.ltb_lt.
  apply (below2 256 16 (fun y h => N.lor (N.shiftl (N.land y 15) 2) h <? N.of_nat 64)); [by vm_compute|done..].
Qed.

(** What RFC 4648 says of a text, three bytes at a time. *)
Fixpoint base64 (p : cstr) : cstr :=
  let e := mg_base64_encode_single in
  match p with
  | a :: b :: c :: r => e (q1 (code a)) :: e (q2 (code a) (code b)) :: e (q3 (code b) (code c)) :: e (q4 (code c)) :: base64 r
  | [a; b] => [e (q1 (code a)); e (q2 (code a) (code b)); e (q3 (code b) 0); "="%char]
  | [a] => [e (q1 (code a)); e (q2 (code a) 0); "="%char; "="%char]
  | [] => []
  end.

Lemma triples (P : cstr -> Prop) : P [] -> (forall a, P [a]) -> (forall a b, P [a; b]) -> (forall a b c r, P r -> P (a :: b :: c :: r)) -> forall p, P p.
Proof. intros H0 H1 H2 H3. fix IH 1. intros [|a [|b [|c r]]]; [exact H0|apply H1|apply H2|apply H3, IH]. Qed.

Lemma update_at ch out nx k : Nat.modulo (length out) 4 = k ->
  mg_base64_update ch (mkB64 out nx) =
    match Nat.modulo k 3 with
    | 0%nat => mkB64 (out ++ [mg_base64_encode_single (N.shiftr ch 2)]) (N.shiftl (N.land ch 3) 4)
    | 1%nat => mkB64 (out ++ [mg_base64_encode_single (N.lor nx (N.shiftr ch 4))]) (N.shiftl (N.land ch 15) 2)
    | _ => mkB64 (out ++ [mg_base64_encode_single (N.lor nx (N.shiftr ch 6)); mg_base64_encode_single (N.land ch 63)]) 0
    end.
Proof. by intros <-. Qed.

Lemma mod4_app out (l : cstr) : Nat.modulo (length out) 4 = 0%nat -> Nat.modulo (length (out ++ l)) 4 = Nat.modulo (length l) 4.
Proof. intros H. rewrite length_app, Nat.Div0.add_mod, H, Nat.add_0_l. apply Nat.Div0.mod_mod. Qed.

Lemma fill_app out l : Nat.modulo (length out) 4 = 0%nat -> fill (out ++ l) = out ++ fill l.
Proof. intros H. unfold fill. by rewrite mod4_app, <-app_assoc by done. Qed.

Lemma encode_loop p : forall out nx, Nat.modulo (length out) 4 = 0%nat ->
  mg_base64_final (fold_left (fun b c => mg_base64_update (code c) b) p (mkB64 out nx)) = out ++ base64 p.
Proof.
  induction p as [|a|a b|a b c r IH] using triples; intros out nx H; simpl fold_left.
  - unfold mg_base64_final. cbn [b64_out]. by rewrite H, app_nil_r.
  - rewrite (update_at _ _ _ 0) by done. cbn [Nat.modulo Nat.divmod snd Nat.sub]. unfold mg_base64_final. cbn [b64_out].
    rewrite mod4_app by done. simpl Nat.modulo. cbv iota. rewrite (update_at _ _ _ 1) by (by rewrite mod4_app).
    cbn [Nat.modulo Nat.divmod snd Nat.sub b64_out]. by rewrite <-app_assoc, fill_app.
  - rewrite (update_at _ _ _ 0) by done. cbn [Nat.modulo Nat.divmod snd Nat.sub]. rewrite (update_at _ _ _ 1) by (by rewrite mod4_app).
    cbn [Nat.modulo Nat.divmod snd Nat.sub]. rewrite <-app_assoc. unfold mg_base64_final. cbn [b64_out].
    rewrite mod4_app by done. simpl Nat.modulo. cbv iota. rewrite (update_at _ _ _ 2) by (by rewrite mod4_app).
    cbn [Nat.modulo Nat.divmod snd Nat.sub b64_out]. rewrite <-app_assoc. rewrite removelast_app by done. by rewrite fill_app.
  - rewrite (update_at _ _ _ 0) by done. cbn [Nat.modulo Nat.divmod snd Nat.sub]. rewrite (update_at _ _ _ 1) by (by rewrite mod4_app).
    cbn [Nat.modulo Nat.divmod snd Nat.sub]. rewrite <-app_assoc. rewrite (update_at _ _ _ 2) by (by rewrite mod4_app).
    cbn [Nat.modulo Nat.divmod snd Nat.sub]. rewrite <-app_assoc, IH by (by rewrite mod4_app). by rewrite <-app_assoc.
Qed.

(** The encoder writes what the RFC says whenever the block is large enough, and
    writes nothing past it. *)
Lemma mg_base64_encode_spec p dl :
  mg_base64_encode p dl = if Nat.ltb dl (length (base64 p) + 1) then None else Some (base64 p).
Proof.
  unfold mg_base64_encode. rewrite (encode_loop p [] 0 eq_refl), app_nil_l.
  assert ((Nat.div (length p) 3 + (if Nat.eqb (Nat.modulo (length p) 3) 0 then 0 else 1)) * 4 = length (base64 p))%nat as ->; [|done].
  induction p as [|a|a b|a b c r IH] using triples; try reflexivity.
  cbn [base64 length]. rewrite <-IH. replace (S (S (S (length r)))) with (length r + 1 * 3)%nat by lia.
  rewrite Nat.div_add, Nat.Div0.mod_add by done. lia.
Qed.

Lemma decode_base64 p : decode_quads (base64 p) = Some p.
Proof.
  assert (0 < N.of_nat 256) as H0 by done.
  induction p as [|a|a b|a b c r IH] using triples; [done|..];
    pose proof (code_bound a) as Ha; pose proof (low_bound _ Ha) as [La _].
  - cbn [base64 decode_quads]. destruct (single_ok _ (q1_bound _ Ha)) as (-> & E1 & _). destruct (single_ok _ (q2_bound _ _ Ha H0)) as (-> & E2 & _).
    change (mg_base64_decode_single "="%char) with (Some 64). rewrite E1, E2. cbn [orb]. rewrite bool_decide_true by done. cbn [app].
    unfold q2. rewrite (first_byte _ (N.shiftr 0 4) Ha) by done. by rewrite ascii_code.
  - pose proof (code_bound b) as Hb. destruct (high_bound _ 4 Hb (or_introl eq_refl)) as [Hb4 _].
    cbn [base64 decode_quads]. destruct (single_ok _ (q1_bound _ Ha)) as (-> & E1 & _). destruct (single_ok _ (q2_bound _ _ Ha Hb)) as (-> & E2 & _).
    destruct (single_ok _ (q3_bound _ _ Hb H0)) as (-> & _ & N3).
    change (mg_base64_decode_single "="%char) with (Some 64). rewrite E1, E2. cbn [orb]. rewrite (bool_decide_false _ N3), bool_decide_true by done. cbn [app].
    unfold q2. rewrite (first_byte _ _ Ha Hb4). unfold q3. rewrite (second_byte _ _ (N.shiftr 0 6) Hb La) by done. by rewrite !ascii_code.
  - pose proof (code_bound b) as Hb. pose proof (code_bound c) as Hc. destruct (high_bound _ 4 Hb (or_introl eq_refl)) as [Hb4 _].
    destruct (high_bound _ 6 Hc (or_intror eq_refl)) as [_ Hc6]. specialize (Hc6 eq_refl). pose proof (low_bound _ Hb) as [_ Lb].
    cbn [base64 decode_quads]. destruct (single_ok _ (q1_bound _ Ha)) as (-> & E1 & _). destruct (single_ok _ (q2_bound _ _ Ha Hb)) as (-> & E2 & _).
    destruct (single_ok _ (q3_bound _ _ Hb Hc)) as (-> & _ & N3). destruct (single_ok _ (q4_bound _ Hc)) as (-> & _ & N4).
    rewrite E1, E2. cbn [orb]. rewrite (bool_decide_false _ N3), (bool_decide_false _ N4), IH. cbn [app].
    unfold q2. rewrite (first_byte _ _ Ha Hb4). unfold q3. rewrite (second_byte _ _ _ Hb La Hc6), (third_byte _ _ Hc Lb). by rewrite !ascii_code.
Qed.

(** What was encoded is decoded, into a block of its size. *)
Lemma base64_roundtrip p dl dl' t : mg_base64_encode p dl = Some t -> (length t / 4 * 3 < dl')%nat -> mg_base64_decode t dl' = p.
Proof.
  rewrite mg_base64_encode_spec. intros H Hl. case_match; simplify_eq. unfold mg_base64_decode.
  destruct (Nat.ltb_spec dl' (length (base64 p) / 4 * 3 + 1)); [lia|]. by rewrite decode_base64.
Qed.

Close Scope N_scope.
