(* ===== verification/Json.v ===== *)
(** [src/vendor/cJSON/cJSON.c], as far as the runtime uses it: the value tree,
    the accessors, the printer (formatted or not) and the parser.

    A number is the decimal it denotes, [mantissa * 10 ^ exponent]: the code
    keeps it as a [double], so the model is exact for numbers of at most 15
    digits, which are printed and read back the same (the times, counters,
    limits and settings the program stores), and does not model the rounding
    of longer ones to binary. *)
From S2P Require Import Prelude CStr.

Record num := mkNum { n_mant : Z; n_exp : Z }.

#[export] Instance num_eq_dec : EqDecision num.
Proof. solve_decision. Defined.

Definition num_of_Z (z : Z) : num := mkNum z 0.

#[warnings="-register-all"]
Inductive json :=
  | JNull
  | JBool (b : bool)
  | JNum (n : num)
  | JStr (s : cstr)
  | JArr (l : list json)
  | JObj (kvs : list (cstr * json)).

(** Induction with the hypothesis on every child. *)
Definition json_ind' (P : json -> Prop) (fnull : P JNull) (fbool : forall b, P (JBool b))
    (fnum : forall n, P (JNum n)) (fstr : forall s, P (JStr s))
    (farr : forall l, Forall P l -> P (JArr l))
    (fobj : forall kvs, Forall (fun kv => P (snd kv)) kvs -> P (JObj kvs)) : forall j, P j :=
  fix F (j : json) : P j :=
    match j with
    | JNull => fnull
    | JBool b => fbool b
    | JNum n => fnum n
    | JStr s => fstr s
    | JArr l => farr l ((fix G l : Forall P l :=
        match l with [] => Forall_nil_2 _ | x :: r => Forall_cons_2 _ _ _ (F x) (G r) end) l)
    | JObj kvs => fobj kvs ((fix G l : Forall (fun kv => P (snd kv)) l :=
        match l with [] => Forall_nil_2 _ | x :: r => Forall_cons_2 _ _ _ (F (snd x)) (G r) end) kvs)
    end.

(** ** Accessors *)

(** [(int)] and [(time_t)] of a number: truncation toward zero. *)
Definition num_trunc (n : num) : Z :=
  if (0 <=? n_exp n)%Z then (n_mant n * 10 ^ n_exp n)%Z else Z.quot (n_mant n) (10 ^ (- n_exp n)).

(** [valueint] saturates at the [int] range. *)
Definition valueint (n : num) : Z := Z.max (- 2 ^ 31) (Z.min INT_MAX (num_trunc n)).

(** [cJSON_GetObjectItem]: the first member whose name matches, ignoring case;
    NULL on a null pointer and on anything but an object. *)
Definition find_member (name : cstr) (kvs : list (cstr * json)) : option json :=
  snd <$> List.find (fun kv => strcasecmp_eq name (fst kv)) kvs.

Definition get_object_item (j : option json) (name : cstr) : option json :=
  match j with
  | Some (JObj kvs) => find_member name kvs
  | _ => None
  end.

Definition is_string (j : option json) : option cstr := match j with Some (JStr s) => Some s | _ => None end.
Definition is_number (j : option json) : option num := match j with Some (JNum n) => Some n | _ => None end.
Definition is_bool (j : option json) : option bool := match j with Some (JBool b) => Some b | _ => None end.
Definition is_array (j : option json) : option (list json) := match j with Some (JArr l) => Some l | _ => None end.
Definition is_object (j : option json) : option (list (cstr * json)) :=
  match j with Some (JObj l) => Some l | _ => None end.

(** The children [cJSON_ArrayForEach] visits, with their names. *)
Definition children (j : json) : list (option cstr * json) :=
  match j with
  | JArr l => (fun x => (None, x)) <$> l
  | JObj kvs => (fun kv => (Some (fst kv), snd kv)) <$> kvs
  | _ => []
  end.

(** ** Printing *)

(** [print_string_ptr]: escapes quotes, backslashes and control bytes. *)
Definition hex4 (n : N) : cstr := pad_left 4 "0"%char (fmt_x n).

Definition escape_char (c : ascii) : cstr :=
  let n := code c in
  if (31 <? n)%N && negb (bool_decide (c = ch_quote)) && negb (bool_decide (c = ch_bs)) then [c]
  else ch_bs ::
    (if bool_decide (c = ch_bs) then [ch_bs]
     else if bool_decide (c = ch_quote) then [ch_quote]
     else if (n =? 8)%N then $"b"
     else if (n =? 12)%N then $"f"
     else if (n =? 10)%N then $"n"
     else if (n =? 13)%N then $"r"
     else if (n =? 9)%N then $"t"
     else $"u" ++ hex4 n).

Definition print_string_ptr (s : cstr) : cstr := ch_quote :: (s ≫= escape_char) ++ [ch_quote].

(** [%.<p>g] of a decimal, with at most [p] significant digits. *)
Fixpoint strip_zeros (fuel : nat) (m e : Z) : Z * Z :=
  match fuel with
  | 0 => (m, e)
  | S f => if (m =? 0)%Z then (0, 0)%Z
           else if (Z.rem m 10 =? 0)%Z then strip_zeros f (Z.quot m 10) (e + 1) else (m, e)
  end.

Definition ndigits (m : Z) : nat := length (fmt_u (Z.to_N (Z.abs m))).

(** Rounds the mantissa to [p] digits, halves to even. *)
Definition round_digits (p : nat) (m e : Z) : Z * Z :=
  let k := (Z.of_nat (ndigits m) - Z.of_nat p)%Z in
  if (k <=? 0)%Z then (m, e)
  else
    let d := (10 ^ k)%Z in
    let q := (Z.abs m / d)%Z in
    let r := (Z.abs m mod d)%Z in
    let q' := if (d <? 2 * r)%Z || ((2 * r =? d)%Z && Z.odd q) then (q + 1)%Z else q in
    ((Z.sgn m * q')%Z, (e + k)%Z).

Definition fmt_g (p : nat) (n : num) : cstr :=
  let '(m0, e0) := strip_zeros (ndigits (n_mant n)) (n_mant n) (n_exp n) in
  let '(m1, e1) := round_digits p m0 e0 in
  let '(m, e) := strip_zeros (ndigits m1) m1 e1 in
  let sign := if (m <? 0)%Z then $"-" else [] in
  let ds := fmt_u (Z.to_N (Z.abs m)) in
  let x := (e + Z.of_nat (length ds) - 1)%Z in
  sign ++
  if (x <? -4)%Z || (Z.of_nat p <=? x)%Z then
    take 1 ds ++ (if Nat.leb (length ds) 1 then [] else $"." ++ drop 1 ds) ++
    $"e" ++ (if (x <? 0)%Z then $"-" else $"+") ++ pad_left 2 "0"%char (fmt_u (Z.to_N (Z.abs x)))
  else if (0 <=? e)%Z then ds ++ replicate (Z.to_nat e) "0"%char
  else if (0 <=? x)%Z then take (Z.to_nat (x + 1)) ds ++ $"." ++ drop (Z.to_nat (x + 1)) ds
  else $"0." ++ replicate (Z.to_nat (- x - 1)) "0"%char ++ ds.

(** [print_number]: [%d] when the value equals [valueint], else [%1.15g], else
    [%1.17g] when 15 digits do not determine the value. *)
Definition print_number (n : num) : cstr :=
  if (0 <=? n_exp n)%Z && (num_trunc n =? valueint n)%Z then fmt_d (valueint n)
  else
    let '(m, e) := strip_zeros (ndigits (n_mant n)) (n_mant n) (n_exp n) in
    if Nat.leb (ndigits m) 15 then fmt_g 15 n else fmt_g 17 n.

Definition CJSON_NESTING_LIMIT : nat := 1000.

Definition tabs (n : nat) : cstr := replicate n ch_tab.

Section Print.
Context (pv : json -> option cstr).

Fixpoint print_elements (fmt : bool) (l : list json) : option cstr :=
  match l with
  | [] => Some []
  | [x] => pv x
  | x :: r => a ← pv x; b ← print_elements fmt r;
              Some (a ++ (if fmt then $", " else $",") ++ b)
  end.

(** [depth] is the depth inside the object. *)
Fixpoint print_members (fmt : bool) (depth : nat) (l : list (cstr * json)) : option cstr :=
  match l with
  | [] => Some []
  | (k, v) :: r =>
      a ← pv v; b ← print_members fmt depth r;
      Some ((if fmt then tabs depth else []) ++ print_string_ptr k ++
            (if fmt then $":" ++ [ch_tab] else $":") ++ a ++
            (if r is [] then [] else $",") ++ (if fmt then [ch_nl] else []) ++ b)
  end.
End Print.

(** [print_value] at nesting [depth]; [None] beyond the nesting limit. *)
Fixpoint print_value (fmt : bool) (depth : nat) (j : json) : option cstr :=
  match j with
  | JNull => Some $"null"
  | JBool false => Some $"false"
  | JBool true => Some $"true"
  | JNum n => Some (print_number n)
  | JStr s => Some (print_string_ptr s)
  | JArr l =>
      if Nat.leb CJSON_NESTING_LIMIT depth then None
      else b ← print_elements (print_value fmt (S depth)) fmt l; Some ($"[" ++ b ++ $"]")
  | JObj kvs =>
      if Nat.leb CJSON_NESTING_LIMIT depth then None
      else b ← print_members (print_value fmt (S depth)) fmt (S depth) kvs;
           Some ((if fmt then $"{" ++ [ch_nl] else $"{") ++ b ++
                 (if fmt then tabs depth else []) ++ $"}")
  end.

Definition cJSON_PrintUnformatted (j : json) : option cstr := print_value false 0 j.
Definition cJSON_Print (j : json) : option cstr := print_value true 0 j.

(** ** Parsing *)

Definition skip_ws (s : cstr) : cstr := drop_while (fun c => (code c <=? 32)%N) s.

(** The body of a string literal up to its closing quote, and the rest. *)
Fixpoint string_span (s : cstr) : option (cstr * cstr) :=
  match s with
  | [] => None
  | c :: s' =>
      if bool_decide (c = ch_quote) then Some ([], s')
      else if bool_decide (c = ch_bs) then
        match s' with
        | [] => None
        | d :: s2 => '(b, r) ← string_span s2; Some (c :: d :: b, r)
        end
      else '(b, r) ← string_span s'; Some (c :: b, r)
  end.

Definition hex_value (c : ascii) : option N :=
  if in_range 48 57 c then Some (code c - 48)%N
  else if in_range 65 70 c then Some (code c - 55)%N
  else if in_range 97 102 c then Some (code c - 87)%N
  else None.

(** [parse_hex4] on four bytes: 0 when one of them is not a hex digit. *)
Definition parse_hex4 (a b c d : ascii) : N :=
  default 0%N (w ← hex_value a; x ← hex_value b; y ← hex_value c; z ← hex_value d;
               Some (((w * 16 + x) * 16 + y) * 16 + z)%N).

(** The UTF-8 bytes of a code point, as the encoding loop writes them. *)
Definition utf8_encode (cp : N) : cstr :=
  let cont n := ascii_of_N (N.land (N.lor n 128) 191) in
  if (cp <? 128)%N then [ascii_of_N (N.land cp 127)]
  else if (cp <? 2048)%N then [ascii_of_N (N.land (N.lor (N.shiftr cp 6) 192) 255); cont (N.land cp 255)]
  else if (cp <? 65536)%N then
    [ascii_of_N (N.land (N.lor (N.shiftr cp 12) 224) 255); cont (N.land (N.shiftr cp 6) 255); cont (N.land cp 255)]
  else [ascii_of_N (N.land (N.lor (N.shiftr cp 18) 240) 255); cont (N.land (N.shiftr cp 12) 255);
        cont (N.land (N.shiftr cp 6) 255); cont (N.land cp 255)].

(** [utf16_literal_to_utf8] on the text after [\u]: the bytes written and the
    remaining text. *)
Definition utf16_literal (s : cstr) : option (cstr * cstr) :=
  match s with
  | a :: b :: c :: d :: r =>
      let first := parse_hex4 a b c d in
      if (56320 <=? first)%N && (first <=? 57343)%N then None
      else if (55296 <=? first)%N && (first <=? 56319)%N then
        match r with
        | x :: y :: a2 :: b2 :: c2 :: d2 :: r2 =>
            if bool_decide (x = ch_bs) && bool_decide (y = "u"%char) then
              let second := parse_hex4 a2 b2 c2 d2 in
              if (56320 <=? second)%N && (second <=? 57343)%N then
                Some (utf8_encode (65536 + N.lor (N.shiftl (N.land first 1023) 10) (N.land second 1023)), r2)
              else None
            else None
        | _ => None
        end
      else Some (utf8_encode first, r)
  | _ => None
  end.

(** The decoding loop; every step consumes at least one byte of [fuel]. *)
Fixpoint unescape (fuel : nat) (s : cstr) : option cstr :=
  match s with
  | [] => Some []
  | c :: s' =>
      match fuel with
      | 0 => None
      | S f =>
          if bool_decide (c = ch_bs) then
            match s' with
            | [] => None
            | d :: s2 =>
                let one x := t ← unescape f s2; Some (x :: t) in
                if bool_decide (d = "b"%char) then one "008"%char
                else if bool_decide (d = "f"%char) then one "012"%char
                else if bool_decide (d = "n"%char) then one ch_nl
                else if bool_decide (d = "r"%char) then one ch_cr
                else if bool_decide (d = "t"%char) then one ch_tab
                else if bool_decide (d = ch_quote) || bool_decide (d = ch_bs) || bool_decide (d = "/"%char) then one d
                else if bool_decide (d = "u"%char) then
                  '(o, r) ← utf16_literal s2; t ← unescape f r; Some (o ++ t)
                else None
            end
          else t ← unescape f s'; Some (c :: t)
      end
  end.

Definition not_nul (c : ascii) : bool := negb (bool_decide (c = "000"%char)).

(** [parse_string]; the C string read back ends at the first NUL. *)
Definition parse_string (s : cstr) : option (cstr * cstr) :=
  match s with
  | c :: s' =>
      if bool_decide (c = ch_quote) then
        '(b, r) ← string_span s'; t ← unescape (length b) b; Some (take_while not_nul t, r)
      else None
  | [] => None
  end.

(** [strtod] on the bytes a JSON number may contain. *)
Definition strtod (s : cstr) : option (num * cstr) :=
  let t := drop_while isspace s in
  let '(neg, u) := match t with
                   | "-"%char :: u => (true, u) | "+"%char :: u => (false, u) | _ => (false, t) end in
  let '(ip, u1) := digits_value 0 u in
  let n1 := length u - length u1 in
  let '(m, u2, nf) :=
    match u1 with
    | "."%char :: v => let '(fp, w) := digits_value ip v in
                       if Nat.eqb n1 0 && Nat.eqb (length v - length w) 0 then (ip, u1, 0)
                       else (fp, w, length v - length w)
    | _ => (ip, u1, 0)
    end in
  if Nat.eqb n1 0 && Nat.eqb nf 0 then None
  else
    let '(e, u3) :=
      match u2 with
      | c :: v =>
          if bool_decide (c = "e"%char) || bool_decide (c = "E"%char) then
            let '(eneg, v1) := match v with
                               | "-"%char :: w => (true, w) | "+"%char :: w => (false, w) | _ => (false, v) end in
            let '(ev, v2) := digits_value 0 v1 in
            if Nat.eqb (length v1 - length v2) 0 then (0%Z, u2)
            else ((if eneg then - ev else ev)%Z, v2)
          else (0%Z, u2)
      | [] => (0%Z, u2)
      end in
    Some (mkNum (if neg then - m else m) (e - Z.of_nat nf), u3).

Definition number_char (c : ascii) : bool :=
  isdigit c || bool_decide (c = "+"%char) || bool_decide (c = "-"%char) ||
  bool_decide (c = "e"%char) || bool_decide (c = "E"%char) || bool_decide (c = "."%char).

Definition parse_number (s : cstr) : option (json * cstr) :=
  let t := take_while number_char s in
  '(n, r) ← strtod t; Some (JNum n, r ++ drop (length t) s).

Section Parse.
Context (pv : cstr -> option (json * cstr)).

(** One round per element: value, then a comma or the closing bracket. *)
Fixpoint parse_elements (fuel : nat) (s : cstr) : option (list json * cstr) :=
  match fuel with
  | 0 => None
  | S f =>
      '(v, r) ← pv (skip_ws s);
      match skip_ws r with
      | ","%char :: r' => '(vs, r2) ← parse_elements f r'; Some (v :: vs, r2)
      | "]"%char :: r' => Some ([v], r')
      | _ => None
      end
  end.

Fixpoint parse_members (fuel : nat) (s : cstr) : option (list (cstr * json) * cstr) :=
  match fuel with
  | 0 => None
  | S f =>
      '(k, r0) ← parse_string (skip_ws s);
      match skip_ws r0 with
      | ":"%char :: r1 =>
          '(v, r) ← pv (skip_ws r1);
          match skip_ws r with
          | ","%char :: r' => '(vs, r2) ← parse_members f r'; Some ((k, v) :: vs, r2)
          | "}"%char :: r' => Some ([(k, v)], r')
          | _ => None
          end
      | _ => None
      end
  end.
End Parse.

(** [parse_value]; [budget] is how many more levels may be opened. *)
Fixpoint parse_value (budget : nat) (s : cstr) : option (json * cstr) :=
  if starts_with $"null" s then Some (JNull, drop 4 s)
  else if starts_with $"false" s then Some (JBool false, drop 5 s)
  else if starts_with $"true" s then Some (JBool true, drop 4 s)
  else
    match s with
    | [] => None
    | c :: s' =>
        if bool_decide (c = ch_quote) then '(t, r) ← parse_string s; Some (JStr t, r)
        else if bool_decide (c = "-"%char) || isdigit c then parse_number s
        else if bool_decide (c = "["%char) then
          match budget with
          | 0 => None
          | S b =>
              match skip_ws s' with
              | "]"%char :: r => Some (JArr [], r)
              | t => '(l, r) ← parse_elements (parse_value b) (S (length t)) t; Some (JArr l, r)
              end
          end
        else if bool_decide (c = "{"%char) then
          match budget with
          | 0 => None
          | S b =>
              match skip_ws s' with
              | "}"%char :: r => Some (JObj [], r)
              | t => '(l, r) ← parse_members (parse_value b) (S (length t)) t; Some (JObj l, r)
              end
          end
        else None
    end.

(** [cJSON_Parse]: text after the value is ignored. *)
Definition utf8_bom : cstr := ["239"%char; "187"%char; "191"%char].
Definition cJSON_Parse (s : cstr) : option json :=
  let s1 := if starts_with utf8_bom s && Nat.ltb 3 (length s) then drop 3 s else s in
  fst <$> parse_value CJSON_NESTING_LIMIT (skip_ws s1).

Lemma num_trunc_Z z : num_trunc (num_of_Z z) = z.
Proof. unfold num_trunc, num_of_Z. cbn. lia. Qed.

(** ** The trees whose text is read back *)

Definition str_ok (s : cstr) : bool := bool_decide ("000"%char ∉ s).
(** An integer of at most 15 digits, or a decimal fraction in lowest terms of
    at most 15 digits that is printed without an exponent. *)
Definition num_ok (n : num) : bool :=
  (n_exp n =? 0)%Z && (Z.abs (n_mant n) <? 10 ^ 15)%Z ||
  (n_exp n <? 0)%Z && (Z.abs (n_mant n) <? 10 ^ 15)%Z && negb (Z.rem (n_mant n) 10 =? 0)%Z &&
  (-3 <=? n_exp n + Z.of_nat (ndigits (n_mant n)))%Z.

Fixpoint json_ok (depth : nat) (j : json) : bool :=
  match j with
  | JNull | JBool _ => true
  | JNum n => num_ok n
  | JStr s => str_ok s
  | JArr l => Nat.ltb depth CJSON_NESTING_LIMIT && forallb (json_ok (S depth)) l
  | JObj kvs => Nat.ltb depth CJSON_NESTING_LIMIT &&
                forallb (fun kv => str_ok (fst kv) && json_ok (S depth) (snd kv)) kvs
  end.

(** ** Strings *)

Ltac eval_escape :=
  match goal with |- context [escape_char ?x] =>
    let e := eval vm_compute in (escape_char x) in change (escape_char x) with e end; cbn.

Lemma string_span_escape c t :
  string_span (escape_char c ++ t) = (fun '(b, r) => (escape_char c ++ b, r)) <$> string_span t.
Proof.
  destruct c as [[] [] [] [] [] [] [] []]; eval_escape; by destruct (string_span t) as [[]|].
Qed.

Lemma string_span_body s r :
  string_span ((s ≫= escape_char) ++ ch_quote :: r) = Some (s ≫= escape_char, r).
Proof.
  induction s as [|c s IH]; cbn; [done|]. rewrite <-app_assoc, string_span_escape, IH. done.
Qed.

Lemma unescape_escape f c t : c <> "000"%char ->
  unescape (S f) (escape_char c ++ t) = (fun u => c :: u) <$> unescape f t.
Proof.
  intros Hc. destruct c as [[] [] [] [] [] [] [] []]; try done;
    eval_escape; by destruct (unescape f t).
Qed.

Lemma unescape_body s f : "000"%char ∉ s -> length s <= f -> unescape f (s ≫= escape_char) = Some s.
Proof.
  revert f. induction s as [|c s IH]; intros f Hs Hf; [by destruct f|].
  apply not_elem_of_cons in Hs as [Hc Hs]. destruct f as [|f]; cbn in Hf; [lia|].
  change ((c :: s) ≫= escape_char) with (escape_char c ++ (s ≫= escape_char)).
  rewrite unescape_escape by congruence. by rewrite IH by (done || lia).
Qed.

Lemma escape_length s : length s <= length (s ≫= escape_char).
Proof.
  induction s as [|c s IH]; [done|].
  change ((c :: s) ≫= escape_char) with (escape_char c ++ (s ≫= escape_char)).
  rewrite length_app. cbn [length].
  assert (1 <= length (escape_char c)); [|lia]. unfold escape_char. case_match; cbn; lia.
Qed.

Lemma take_while_not_nul s : "000"%char ∉ s -> take_while not_nul s = s.
Proof.
  induction s as [|c s IH]; [done|]. intros [Hc Hs]%not_elem_of_cons. cbn.
  assert (not_nul c = true) as -> by (unfold not_nul; by rewrite bool_decide_false by congruence).
  by rewrite IH.
Qed.

Lemma str_ok_spec s : str_ok s = true -> "000"%char ∉ s.
Proof. unfold str_ok. by intros ?%bool_decide_eq_true. Qed.

Lemma parse_print_string s r : str_ok s = true ->
  parse_string (print_string_ptr s ++ r) = Some (s, r).
Proof.
  intros Hs%str_ok_spec. unfold print_string_ptr.
  rewrite <-app_comm_cons, <-app_assoc. cbn [app parse_string].
  rewrite bool_decide_true by done. rewrite string_span_body. cbn.
  rewrite unescape_body by (done || apply escape_length). cbn. by rewrite take_while_not_nul.
Qed.

(** ** Whitespace *)

Definition blank (s : cstr) : Prop := Forall (fun c => (code c <=? 32)%N = true) s.
Definition black (s : cstr) : Prop := match s with c :: _ => (code c <=? 32)%N = false | [] => False end.

Lemma skip_ws_blank w s : blank w -> skip_ws (w ++ s) = skip_ws s.
Proof. unfold skip_ws. induction 1 as [|c w Hc Hw IH]; cbn; [done|]. by rewrite Hc. Qed.

Lemma skip_ws_black s r : black s -> skip_ws (s ++ r) = s ++ r.
Proof. destruct s as [|c s]; [done|]. cbn. intros H. unfold skip_ws. cbn. by rewrite H. Qed.

Lemma skip_ws_cons c s : (code c <=? 32)%N = false -> skip_ws (c :: s) = c :: s.
Proof. intros H. unfold skip_ws. cbn. by rewrite H. Qed.

Lemma skip_ws_idemp s : skip_ws (skip_ws s) = skip_ws s.
Proof. apply drop_while_idemp. Qed.

Lemma blank_tabs n : blank (tabs n).
Proof. apply Forall_replicate. done. Qed.

(** ** Numbers *)

Definition num_stop (r : cstr) : Prop := match r with c :: _ => number_char c = false | [] => True end.

Lemma take_while_all p s r :
  Forall (fun c => p c = true) s -> match r with c :: _ => p c = false | [] => True end ->
  take_while p (s ++ r) = s.
Proof.
  induction 1 as [|c s Hc Hs IH]; intros Hr; cbn.
  - destruct r as [|c r]; cbn; [done|]. by rewrite Hr.
  - rewrite Hc. by rewrite IH.
Qed.

Lemma fmt_d_number_chars z : Forall (fun c => number_char c = true) (fmt_d z).
Proof.
  assert (forall n, Forall (fun c => number_char c = true) (fmt_u n)) as Hu.
  { intros n. eapply Forall_impl; [apply fmt_u_digits|]. intros c Hc. cbn in Hc.
    unfold number_char. by rewrite Hc. }
  unfold fmt_d. case_match; [constructor; [done|]|]; apply Hu.
Qed.

Lemma fmt_d_absent z c : number_char c = false -> c ∉ fmt_d z.
Proof. intros H Hin. pose proof (fmt_d_number_chars z) as Hf. rewrite Forall_forall in Hf. specialize (Hf c Hin). cbn in Hf. congruence. Qed.

Lemma isdigit_sign_split {B} d (a b c : B) : isdigit d = true ->
  match d with "-"%char => a | "+"%char => b | _ => c end = c.
Proof.
  intros H. pose proof (isdigit_not_sign d H) as [Hm Hp].
  destruct d as [[] [] [] [] [] [] [] []]; first [done | by destruct Hm | by destruct Hp].
Qed.

Lemma strtod_fmt_u n :
  strtod (fmt_u n) = Some (mkNum (Z.of_N n) 0, []).
Proof.
  pose proof (fmt_u_value n []) as Hv. rewrite app_nil_r in Hv.
  destruct (fmt_u_nonempty n) as (d & t & Hd & Hdd). rewrite Hd in Hv |- *.
  unfold strtod. rewrite drop_while_id by (by apply isdigit_not_space).
  rewrite isdigit_sign_split by done. rewrite Hv. done.
Qed.

Lemma strtod_fmt_d z : strtod (fmt_d z) = Some (mkNum z 0, []).
Proof.
  unfold fmt_d. destruct (z <? 0)%Z eqn:E.
  - apply Z.ltb_lt in E. pose proof (fmt_u_value (Z.to_N (- z)) []) as Hv.
    rewrite app_nil_r in Hv.
    destruct (fmt_u_nonempty (Z.to_N (- z))) as (d & t & Hd & Hdd). rewrite Hd in Hv |- *.
    unfold strtod. rewrite drop_while_id by done. cbn beta iota. rewrite Hv. cbn.
    do 3 f_equal. rewrite Z2N.id by lia. lia.
  - apply Z.ltb_ge in E. rewrite strtod_fmt_u. do 3 f_equal. lia.
Qed.

Lemma strip_zeros_spec fuel m : (m <> 0)%Z -> forall e, (0 <= e)%Z ->
  let '(m', e') := strip_zeros fuel m e in
  (e <= e')%Z /\ (m * 10 ^ e = m' * 10 ^ e')%Z /\ (m' <> 0)%Z.
Proof.
  revert m. induction fuel as [|f IH]; intros m Hm e He; cbn [strip_zeros]; [lia|].
  rewrite (proj2 (Z.eqb_neq m 0) Hm). destruct (Z.rem m 10 =? 0)%Z eqn:E; [|lia].
  apply Z.eqb_eq in E. pose proof (Z.quot_rem' m 10) as Hq.
  specialize (IH (Z.quot m 10) ltac:(lia) (e + 1)%Z ltac:(lia)).
  destruct (strip_zeros f (Z.quot m 10) (e + 1)) as [m' e']. destruct IH as (H1 & H2 & H3).
  split_and!; [lia| |done]. rewrite <- H2, Z.pow_add_r by lia. lia.
Qed.

(** A number of at most 15 digits printed with 15 significant digits. *)
Lemma fmt_g_15 m : (m <> 0)%Z -> (Z.abs m < 10 ^ 15)%Z -> fmt_g 15 (mkNum m 0) = fmt_d m.
Proof.
  intros Hm Hb. unfold fmt_g. cbn [n_mant n_exp].
  pose proof (strip_zeros_spec (ndigits m) m Hm 0 ltac:(lia)) as H0.
  destruct (strip_zeros (ndigits m) m 0) as [m0 e0]. destruct H0 as (He0 & Hv0 & Hn0).
  assert (forall x k, (0 <= k)%Z -> (x <> 0)%Z -> (m = x * 10 ^ k)%Z -> ndigits x <= 15) as Hnd.
  { intros x k Hk Hx E. unfold ndigits. apply (fmt_u_length _ 14). change (10 ^ N.of_nat 15)%N with (Z.to_N (10 ^ 15)).
    pose proof (Z.pow_pos_nonneg 10 k). rewrite E, Z.abs_mul, (Z.abs_eq (10 ^ k)) in Hb by lia. nia. }
  unfold round_digits. rewrite (proj2 (Z.leb_le _ 0)); [|pose proof (Hnd m0 e0); lia].
  pose proof (strip_zeros_spec (ndigits m0) m0 Hn0 e0 He0) as H1.
  destruct (strip_zeros (ndigits m0) m0 e0) as [m1 e]. destruct H1 as (He & Hv & Hn1).
  assert (m = m1 * 10 ^ e)%Z as E by lia. assert (0 <= e)%Z as Hpos by lia. clear Hv Hv0 Hn0 He0 He.
  assert (fmt_u (Z.to_N (Z.abs m)) = fmt_u (Z.to_N (Z.abs m1)) ++ replicate (Z.to_nat e) "0"%char) as Ht.
  { rewrite <- fmt_u_pow10 by lia. f_equal. rewrite E, Z.abs_mul, (Z.abs_eq (10 ^ e)) by (apply Z.pow_nonneg; lia).
    rewrite Z2N.inj_mul, Z2N.inj_pow by (try apply Z.pow_nonneg; lia). do 2 f_equal. lia. }
  assert (0 < length (fmt_u (Z.to_N (Z.abs m1)))) as Hl.
  { destruct (fmt_u_nonempty (Z.to_N (Z.abs m1))) as (d & t & -> & _). cbn. lia. }
  assert (length (fmt_u (Z.to_N (Z.abs m))) <= 15) as Hl15 by (apply (Hnd m 0%Z); lia).
  rewrite Ht, length_app, length_replicate in Hl15.
  rewrite (proj2 (Z.ltb_ge _ (-4))) by lia. rewrite (proj2 (Z.leb_gt _ _)) by lia. cbn [orb].
  rewrite (proj2 (Z.leb_le 0 e)) by lia. unfold fmt_d. rewrite <- Ht.
  pose proof (Z.pow_pos_nonneg 10 e). destruct (m1 <? 0)%Z eqn:Es; destruct (m <? 0)%Z eqn:Es'; try lia.
  - by rewrite Z.abs_neq by lia.
  - by rewrite Z.abs_eq by lia.
Qed.

Lemma print_number_int m : (Z.abs m < 10 ^ 15)%Z -> print_number (mkNum m 0) = fmt_d m.
Proof.
  intros Hm. unfold print_number.
  cbn [n_exp n_mant]. change (0 <=? 0)%Z with true. cbn [andb].
  assert (num_trunc (mkNum m 0) = m) as -> by (unfold num_trunc; cbn; lia).
  destruct (m =? valueint (mkNum m 0))%Z eqn:Ev; [by apply Z.eqb_eq in Ev as <-|].
  assert (m <> 0)%Z as Hm0 by (intros ->; by vm_compute in Ev).
  pose proof (strip_zeros_spec (ndigits m) m Hm0 0 ltac:(lia)) as H0.
  destruct (strip_zeros (ndigits m) m 0) as [m0 e0]. destruct H0 as (He0 & Hv0 & Hn0).
  rewrite (proj2 (Nat.leb_le _ _)); [by apply fmt_g_15|].
  unfold ndigits. apply (fmt_u_length _ 14). change (10 ^ N.of_nat 15)%N with (Z.to_N (10 ^ 15)).
  pose proof (Z.pow_pos_nonneg 10 e0). rewrite Z.pow_0_r, Z.mul_1_r in Hv0. nia.
Qed.

Lemma digits_value_app l r : Forall (fun c => isdigit c = true) l -> forall a,
  digits_value a (l ++ r) = digits_value (fst (digits_value a l)) r.
Proof. induction 1 as [|c l Hc Hl IH]; intros a; [done|]. cbn [app digits_value]. rewrite Hc. apply IH. Qed.

Lemma digits_value_all l : Forall (fun c => isdigit c = true) l -> forall a, snd (digits_value a l) = [].
Proof. induction 1 as [|c l Hc Hl IH]; intros a; [done|]. cbn [digits_value]. rewrite Hc. apply IH. Qed.

Lemma digits_value_zeros k l : digits_value 0 (replicate k "0"%char ++ l) = digits_value 0 l.
Proof. induction k as [|k IH]; [done|]. exact IH. Qed.

(** Reading digits around a point. *)
Lemma strtod_fraction (neg : bool) ip fp : Forall (fun c => isdigit c = true) ip -> Forall (fun c => isdigit c = true) fp -> ip <> [] ->
  let m := fst (digits_value 0 (ip ++ fp)) in
  strtod ((if neg then $"-" else []) ++ ip ++ $"." ++ fp) = Some (mkNum (if neg then - m else m) (- Z.of_nat (length fp)), []).
Proof.
  intros Hi Hf Hne m. destruct ip as [|d ip]; [done|]. pose proof (Forall_inv Hi) as Hd. cbv beta in Hd.
  assert (digits_value 0 ((d :: ip) ++ $"." ++ fp) = (fst (digits_value 0 (d :: ip)), $"." ++ fp)) as H1.
  { rewrite digits_value_app by done. by apply digits_value_stop. }
  assert (digits_value (fst (digits_value 0 (d :: ip))) fp = (m, [])) as H2.
  { unfold m. rewrite digits_value_app by done. pose proof (digits_value_all fp Hf (fst (digits_value 0 (d :: ip)))) as Hs.
    destruct (digits_value _ fp). by cbn in Hs |- *; subst. }
  assert (forall b, (let '(ip0, u1) := digits_value 0 ((d :: ip) ++ $"." ++ fp) in
    let n1 := length ((d :: ip) ++ $"." ++ fp) - length u1 in
    let '(m0, u2, nf) := match u1 with
      | "."%char :: v => let '(fp0, w) := digits_value ip0 v in
                         if Nat.eqb n1 0 && Nat.eqb (length v - length w) 0 then (ip0, u1, 0) else (fp0, w, length v - length w)
      | _ => (ip0, u1, 0) end in
    if Nat.eqb n1 0 && Nat.eqb nf 0 then None
    else let '(e, u3) := match u2 with
      | c :: v => if bool_decide (c = "e"%char) || bool_decide (c = "E"%char) then
            let '(eneg, v1) := match v with "-"%char :: w => (true, w) | "+"%char :: w => (false, w) | _ => (false, v) end in
            let '(ev, v2) := digits_value 0 v1 in
            if Nat.eqb (length v1 - length v2) 0 then (0%Z, u2) else ((if eneg then - ev else ev)%Z, v2)
          else (0%Z, u2)
      | [] => (0%Z, u2) end in
    Some (mkNum (if b : bool then - m0 else m0)%Z (e - Z.of_nat nf), u3)) =
    Some (mkNum (if b then - m else m)%Z (- Z.of_nat (length fp)), [])) as Hbody.
  { intros b. rewrite H1. cbn [list_ascii_of_string app]. rewrite H2. cbn [length]. rewrite length_app. cbn [length].
    assert (Nat.eqb (S (length ip + S (length fp)) - S (length fp)) 0 = false) as -> by (apply Nat.eqb_neq; lia).
    cbn [andb]. rewrite Nat.sub_0_r. done. }
  unfold strtod. destruct neg.
  - change (drop_while isspace ($"-" ++ (d :: ip) ++ $"." ++ fp)) with ("-"%char :: (d :: ip) ++ $"." ++ fp). cbv beta iota.
    apply (Hbody true).
  - cbn [app]. rewrite drop_while_id by (by apply isdigit_not_space). rewrite isdigit_sign_split by done. apply (Hbody false).
Qed.
Lemma fmt_d_head z : exists d t, fmt_d z = d :: t /\ (d = "-"%char \/ isdigit d = true).
Proof.
  unfold fmt_d. case_match; [eauto|].
  destruct (fmt_u_nonempty (Z.to_N z)) as (d & t & -> & Hd). eauto.
Qed.

(** A decimal fraction in lowest terms, printed with 15 digits. *)
Lemma fmt_g_fraction m e : (e < 0)%Z -> (Z.abs m < 10 ^ 15)%Z -> Z.rem m 10 <> 0%Z -> (-3 <= e + Z.of_nat (ndigits m))%Z ->
  exists ip fp, ip <> [] /\ Forall (fun c => isdigit c = true) ip /\ Forall (fun c => isdigit c = true) fp /\
  print_number (mkNum m e) = (if (m <? 0)%Z then $"-" else []) ++ ip ++ $"." ++ fp /\
  fst (digits_value 0 (ip ++ fp)) = Z.abs m /\ Z.of_nat (length fp) = (- e)%Z.
Proof.
  intros He Hm Hrem Hx. set (ds := fmt_u (Z.to_N (Z.abs m))).
  assert (forall f, strip_zeros (S f) m e = (m, e)) as Hstrip.
  { intros f. cbn [strip_zeros]. destruct (Z.eqb_spec m 0) as [->|_]; [done|]. by rewrite (proj2 (Z.eqb_neq _ _) Hrem). }
  assert (1 <= ndigits m <= 15) as Hnd.
  { split; [unfold ndigits; destruct (fmt_u_nonempty (Z.to_N (Z.abs m))) as (d & t & -> & _); cbn; lia|].
    apply (fmt_u_length _ 14). change (10 ^ N.of_nat 15)%N with (Z.to_N (10 ^ 15)). lia. }
  assert (ndigits m = S (ndigits m - 1)) as Hs by lia.
  assert (Forall (fun c => isdigit c = true) ds) as Hds by apply fmt_u_digits.
  assert (digits_value 0 ds = (Z.abs m, [])) as Hv.
  { pose proof (fmt_u_value (Z.to_N (Z.abs m)) []) as H. rewrite app_nil_r in H. unfold ds. rewrite H. cbn. f_equal. lia. }
  assert (length ds = ndigits m) as Hlen by done.
  assert (print_number (mkNum m e) = (if (m <? 0)%Z then $"-" else []) ++
    if (0 <=? e + Z.of_nat (length ds) - 1)%Z
    then take (Z.to_nat (e + Z.of_nat (length ds) - 1 + 1)) ds ++ $"." ++ drop (Z.to_nat (e + Z.of_nat (length ds) - 1 + 1)) ds
    else $"0." ++ replicate (Z.to_nat (- (e + Z.of_nat (length ds) - 1) - 1)) "0"%char ++ ds) as Hp.
  { unfold print_number, fmt_g. cbn [n_exp n_mant]. rewrite (proj2 (Z.leb_gt 0 e)) by done. cbn [andb]. rewrite Hs, Hstrip.
    rewrite (proj2 (Nat.leb_le _ _)) by lia. unfold round_digits. rewrite (proj2 (Z.leb_le _ 0)) by lia. rewrite Hs, Hstrip.
    fold ds. rewrite Hlen. rewrite (proj2 (Z.ltb_ge _ (-4))) by lia. rewrite (proj2 (Z.leb_gt 15 _)) by lia. cbn [orb].
    by rewrite (proj2 (Z.leb_gt 0 e)) by done. }
  rewrite Hp. destruct (Z.leb_spec 0 (e + Z.of_nat (length ds) - 1)) as [Hpos|Hneg].
  - set (k := Z.to_nat (e + Z.of_nat (length ds) - 1 + 1)). exists (take k ds), (drop k ds). split_and!; try done.
    + intros Hnil. apply (f_equal length) in Hnil. rewrite length_take in Hnil. change (length (@nil ascii)) with 0 in Hnil. lia.
    + by apply Forall_take.
    + by apply Forall_drop.
    + rewrite take_drop, Hv. done.
    + rewrite length_drop. lia.
  - exists $"0", (replicate (Z.to_nat (- (e + Z.of_nat (length ds) - 1) - 1)) "0"%char ++ ds). split_and!; try done.
    + by repeat constructor.
    + apply Forall_app. split; [by apply Forall_replicate|done].
    + change ($"0" ++ replicate ?k "0"%char ++ ds) with (replicate (S k) "0"%char ++ ds). rewrite digits_value_zeros, Hv. done.
    + rewrite length_app, length_replicate. lia.
Qed.

(** The text of a number in range and how it is read. *)
Lemma number_text n : num_ok n = true ->
  exists d t, print_number n = d :: t /\ (d = "-"%char \/ isdigit d = true) /\
  Forall (fun c => number_char c = true) (d :: t) /\ strtod (d :: t) = Some (n, []).
Proof.
  unfold num_ok. intros [[He Hm]%andb_prop|[[[He Hm]%andb_prop Hr]%andb_prop Hx]%andb_prop]%orb_prop; destruct n as [m e]; cbn [n_mant n_exp] in *.
  - apply Z.eqb_eq in He as ->. apply Z.ltb_lt in Hm. rewrite print_number_int by done.
    pose proof (fmt_d_number_chars m) as Hc. pose proof (strtod_fmt_d m) as Hs.
    destruct (fmt_d_head m) as (d & t & Hd & Hdd). rewrite Hd in *. by exists d, t.
  - apply Z.ltb_lt in He, Hm. apply negb_true_iff, Z.eqb_neq in Hr. apply Z.leb_le in Hx.
    destruct (fmt_g_fraction m e He Hm Hr Hx) as (ip & fp & Hne & Hi & Hf & -> & Hval & Hlen).
    pose proof (strtod_fraction (m <? 0)%Z ip fp Hi Hf Hne) as Hs. cbv zeta in Hs. rewrite Hval, Hlen in Hs.
    assert (Forall (fun c => number_char c = true) ((if (m <? 0)%Z then $"-" else []) ++ ip ++ $"." ++ fp)) as Hc.
    { assert (forall l, Forall (fun c => isdigit c = true) l -> Forall (fun c => number_char c = true) l) as Hdig.
      { intros l Hl. eapply Forall_impl; [exact Hl|]. intros c Hc. cbv beta in Hc |- *. unfold number_char. by rewrite Hc. }
      repeat (apply Forall_app; split); [destruct (m <? 0)%Z; by repeat constructor|by apply Hdig|by repeat constructor|by apply Hdig]. }
    assert ((if (m <? 0)%Z then - Z.abs m else Z.abs m)%Z = m) as Hsign by (destruct (Z.ltb_spec m 0); lia).
    rewrite Hsign, Z.opp_involutive in Hs.
    destruct ip as [|c ip]; [done|]. pose proof (Forall_inv Hi) as Hcd. cbv beta in Hcd.
    destruct (m <? 0)%Z; cbn [app list_ascii_of_string] in Hs, Hc |- *; eexists _, _; split_and!; try done; [by left|by right].
Qed.

Lemma number_head_black d t : d = "-"%char \/ isdigit d = true -> black (d :: t).
Proof.
  intros [-> |H]; [done|]. apply isdigit_code in H. cbn. apply N.leb_gt. lia.
Qed.

Lemma starts_with_letter l p d t : (d = "-"%char \/ isdigit d = true) -> (57 < code l)%N ->
  starts_with (l :: p) (d :: t) = false.
Proof.
  intros Hd Hl. cbn. rewrite bool_decide_false; [done|]. intros ->.
  destruct Hd as [-> |H%isdigit_code]; [by vm_compute in Hl|lia].
Qed.

Lemma parse_value_number b n r : num_ok n = true -> num_stop r ->
  parse_value b (print_number n ++ r) = Some (JNum n, r).
Proof.
  intros Hok Hr. destruct (number_text n Hok) as (d & t & -> & Hd & Hc & Hs).
  assert (parse_number ((d :: t) ++ r) = Some (JNum n, r)) as Hp.
  { unfold parse_number. rewrite take_while_all by done. rewrite Hs. cbn [mbind option_bind]. by rewrite drop_app_length. }
  cbn [app] in *.
  assert (d <> ch_quote) as Hq.
  { intros ->. destruct Hd as [Hd|Hd]; vm_compute in Hd; discriminate. }
  destruct b; cbn [parse_value list_ascii_of_string];
    rewrite !starts_with_letter by (done || (vm_compute; done));
    (rewrite bool_decide_false by done);
    (assert (bool_decide (d = "-"%char) || isdigit d = true) as -> by
      (destruct Hd as [-> | ->]; [done|by rewrite orb_true_r])); done.
Qed.

(** ** Values *)

Lemma cons_ne_nil {A} (x : A) l : x :: l <> [].
Proof. done. Qed.

(** [text_of pv pr j]: [j] prints, and its text reads back to [j] before any
    text that does not continue a number. *)
Definition reads_back (pv : json -> option cstr) (pr : cstr -> option (json * cstr)) (j : json) : Prop :=
  exists s, pv j = Some s /\ black s /\ forall r, num_stop r -> pr (s ++ r) = Some (j, r).

Lemma num_stop_ws c r : (code c <=? 32)%N = true -> num_stop (c :: r).
Proof. destruct c as [[] [] [] [] [] [] [] []]; done. Qed.

Lemma num_stop_app w c r : blank w -> num_stop (c :: r) -> num_stop (w ++ c :: r).
Proof. destruct 1; [done|]. intros _. by apply num_stop_ws. Qed.

Lemma elements_read_back fmt pv pr l :
  l <> [] -> Forall (reads_back pv pr) l ->
  exists b, print_elements pv fmt l = Some b /\ black b /\ length l <= length b /\
  forall fuel r, length l <= fuel -> parse_elements pr fuel (b ++ "]"%char :: r) = Some (l, r).
Proof.
  intros Hne H. induction H as [|x l (s & Hs & Hb & Hr) Hl IH]; [done|].
  assert (1 <= length s) by (destruct s; [done|cbn; lia]).
  destruct l as [|y l].
  - exists s. cbn [print_elements length]. split_and!; [done|done|lia|].
    intros fuel r Hf. destruct fuel as [|fuel]; [lia|]. cbn [parse_elements].
    rewrite skip_ws_black by done. rewrite Hr by done. cbn [mbind option_bind].
    by rewrite skip_ws_cons by done.
  - destruct IH as (b & Hb1 & Hb2 & Hb3 & Hb4); [done|].
    exists (s ++ (if fmt then $", " else $",") ++ b).
    split; [change (print_elements pv fmt (x :: y :: l)) with
      (a ← pv x; b0 ← print_elements pv fmt (y :: l); Some (a ++ (if fmt then $", " else $",") ++ b0));
      by rewrite Hs, Hb1|].
    split; [by destruct s|]. split; [rewrite !length_app; destruct fmt; cbn in *; lia|].
    intros fuel r Hf. destruct fuel as [|fuel]; [cbn in Hf; lia|].
    cbn [length] in Hf. cbn [parse_elements].
    rewrite <-app_assoc, skip_ws_black by done.
    assert (exists w, ((if fmt then $", " else $",") ++ b) ++ "]"%char :: r = ","%char :: w /\
            parse_elements pr fuel w = Some (y :: l, r)) as (w & -> & Hw).
    { destruct fmt; cbn; eexists; (split; [done|]).
      - destruct fuel as [|fuel]; [cbn in Hf; lia|].
        exact (Hb4 (S fuel) r ltac:(cbn in *; lia)).
      - apply Hb4. cbn in *; lia. }
    rewrite Hr by done. cbn [mbind option_bind]. rewrite skip_ws_cons by done. by rewrite Hw.
Qed.

Lemma parse_members_skip pr fuel s : parse_members pr fuel (skip_ws s) = parse_members pr fuel s.
Proof. destruct fuel; cbn [parse_members]; [done|]. by rewrite skip_ws_idemp. Qed.

Lemma members_read_back (fmt : bool) depth pv pr kvs w :
  kvs <> [] -> blank w ->
  Forall (fun kv => str_ok (fst kv) = true /\ reads_back pv pr (snd kv)) kvs ->
  exists b, print_members pv fmt depth kvs = Some b /\ length kvs <= length (skip_ws b) /\
  (exists t, skip_ws b = ch_quote :: t /\ forall x, skip_ws (b ++ x) = ch_quote :: t ++ x) /\
  forall fuel r, length kvs <= fuel ->
    parse_members pr fuel (b ++ w ++ "}"%char :: r) = Some (kvs, r).
Proof.
  intros Hne Hw H. induction H as [|[k v] l [Hk (s & Hs & Hb & Hr)] Hl IH]; [done|].
  cbn [fst snd] in *.
  set (pre := if fmt then tabs depth else []).
  set (sep := if fmt then $":" ++ [ch_tab] else $":").
  assert (Hpre : blank pre) by (unfold pre; destruct fmt; [apply blank_tabs|constructor]).
  assert (exists b', print_members pv fmt depth l = Some b' /\
    let tail := (if l is [] then [] else $",") ++ (if fmt then [ch_nl] else []) ++ b' in
    length l <= length tail /\
    forall fuel r, length l <= fuel -> exists e, (e = ","%char \/ e = "}"%char) /\ exists u v,
      tail ++ w ++ "}"%char :: r = v ++ e :: u /\ blank v /\
      match l with [] => e = "}"%char /\ u = r
      | _ => e = ","%char /\ v = [] /\ parse_members pr fuel u = Some (l, r) end)
    as (b' & Hb' & Hlen & Htail).
  { destruct l as [|kv l].
    - exists []. split; [done|]. split; [cbn; lia|]. intros fuel r _.
      exists "}"%char. split; [by right|]. exists r, ((if fmt then [ch_nl] else []) ++ w).
      cbn [app]. rewrite app_nil_r, <-app_assoc. split_and!; [done| |done..].
      apply Forall_app. split; [|done]. destruct fmt; [|constructor]. by constructor.
    - destruct IH as (b' & H1 & H2 & (t & _ & Ht) & H4); [done|].
      exists b'. split; [done|]. split.
      { rewrite !length_app. pose proof (drop_while_length (fun c => (code c <=? 32)%N) b').
        unfold skip_ws in H2. lia. }
      intros fuel r Hf. exists ","%char. split; [by left|].
      exists (((if fmt then [ch_nl] else []) ++ b') ++ w ++ "}"%char :: r), [].
      split_and!; [by cbn; rewrite <-!app_assoc|constructor|done|done|].
      rewrite <-(H4 fuel r Hf), <-parse_members_skip, <-app_assoc, skip_ws_blank.
      + by rewrite parse_members_skip.
      + destruct fmt; [|constructor]. by constructor. }
  assert (exists q, print_string_ptr k = ch_quote :: q) as [q Hq] by (by eexists).
  assert (forall x, skip_ws ((pre ++ print_string_ptr k ++ sep ++ s ++
      (if l is [] then [] else $",") ++ (if fmt then [ch_nl] else []) ++ b') ++ x) =
      ch_quote :: (q ++ sep ++ s ++ (if l is [] then [] else $",") ++
        (if fmt then [ch_nl] else []) ++ b') ++ x) as Hskip.
  { intros x. rewrite <-app_assoc, skip_ws_blank, Hq by done. cbn [app].
    unfold skip_ws. by rewrite drop_while_id by done. }
  exists (pre ++ print_string_ptr k ++ sep ++ s ++
    (if l is [] then [] else $",") ++ (if fmt then [ch_nl] else []) ++ b').
  split_and!.
  - cbn [print_members]. by rewrite Hs, Hb'.
  - pose proof (Hskip []) as E. rewrite !app_nil_r in E. rewrite E.
    cbn [length]. rewrite !length_app in Hlen. repeat rewrite length_app. lia.
  - eexists. split; [by pose proof (Hskip []) as E; rewrite !app_nil_r in E|exact Hskip].
  - intros fuel r Hf. destruct fuel as [|fuel]; [cbn in Hf; lia|]. cbn [parse_members length] in *.
    destruct (Htail fuel r ltac:(lia)) as (e & He & u & v' & Heq & Hv & Hl').
    rewrite <-!app_assoc in Heq |- *. rewrite skip_ws_blank by done.
    rewrite skip_ws_black by (by rewrite Hq).
    rewrite parse_print_string by done. cbn [mbind option_bind].
    assert (skip_ws (sep ++ s ++ v' ++ e :: u) = ":"%char :: (if fmt then [ch_tab] else []) ++ s ++ v' ++ e :: u) as Hsep
      by (unfold sep; by destruct fmt).
    repeat rewrite <-app_assoc. rewrite Heq, Hsep. rewrite skip_ws_blank, skip_ws_black by (destruct fmt; (by repeat constructor) || done).
    rewrite Hr by (apply num_stop_app; [done|by destruct He as [-> | ->]]).
    cbn [mbind option_bind]. rewrite skip_ws_blank by done.
    destruct l as [|kv l].
    + destruct Hl' as [-> ->]. by rewrite skip_ws_cons by done.
    + destruct Hl' as (-> & -> & Hp). rewrite skip_ws_cons by done. by rewrite Hp.
Qed.

Lemma parse_array_text b t r : skip_ws (t ++ r) = t ++ r -> black t -> starts_with $"]" t = false ->
  parse_value (S b) ("["%char :: t ++ r) =
  ('(l, r') ← parse_elements (parse_value b) (S (length (t ++ r))) (t ++ r); Some (JArr l, r')).
Proof.
  intros Hs Hb Ht. cbn [parse_value]. rewrite Hs. destruct t as [|c t]; [done|]. cbn [app].
  destruct c as [[] [] [] [] [] [] [] []]; done.
Qed.

Lemma parse_empty_object b u r : skip_ws u = "}"%char :: r ->
  parse_value (S b) ("{"%char :: u) = Some (JObj [], r).
Proof. intros H. cbn [parse_value]. rewrite H. done. Qed.

Lemma parse_object_text b u t : skip_ws u = ch_quote :: t ->
  parse_value (S b) ("{"%char :: u) =
  ('(l, r) ← parse_members (parse_value b) (S (length (skip_ws u))) (skip_ws u); Some (JObj l, r)).
Proof. intros H. cbn [parse_value]. rewrite H. done. Qed.

(** The first byte of a value's text is never a closing bracket, nor the first
    byte of a byte order mark. *)
Definition value_head (s : cstr) : Prop :=
  match s with c :: _ => c <> "]"%char /\ c <> "239"%char | [] => False end.

Lemma value_head_brackets s : value_head s -> starts_with $"]" s = false.
Proof. destruct s as [|c s]; [done|]. intros [H _]. cbn. by rewrite bool_decide_false. Qed.

Lemma value_head_bom s r : value_head s -> starts_with utf8_bom (s ++ r) = false.
Proof. destruct s as [|c s]; [done|]. intros [_ H]. cbn. by rewrite bool_decide_false. Qed.

Lemma print_value_head fmt d j s : json_ok d j = true -> print_value fmt d j = Some s -> value_head s.
Proof.
  unfold value_head. destruct j as [|[]|n|t|l|kvs]; cbn [print_value]; try (by intros _ [= <-]).
  - cbn [json_ok]. intros Hn [= <-].
    destruct (number_text n Hn) as (c & t & -> & [-> |H] & _); [done|].
    split; intros ->; by vm_compute in H.
  - intros _. case_match; [done|]. destruct (print_elements _ _ _); by intros [= <-].
  - intros _. case_match; [done|]. destruct (print_members _ _ _ _); [|done].
    by destruct fmt; intros [= <-].
Qed.

Lemma print_elements_head fmt d l b : Forall (fun j => json_ok d j = true) l -> l <> [] ->
  print_elements (print_value fmt d) fmt l = Some b -> black b -> value_head b.
Proof.
  intros Hok Hne. destruct Hok as [|x l Hx Hl]; [done|].
  destruct l as [|y l].
  - cbn [print_elements]. intros H _. by eapply print_value_head.
  - change (print_elements (print_value fmt d) fmt (x :: y :: l)) with
      (a ← print_value fmt d x; b0 ← print_elements (print_value fmt d) fmt (y :: l);
       Some (a ++ (if fmt then $", " else $",") ++ b0)).
    destruct (print_value fmt d x) as [s|] eqn:E; [|done].
    destruct (print_elements _ _ _) as [b0|]; [|done]. intros [= <-] _.
    apply print_value_head in E; [|done]. unfold value_head in *.
    by destruct s.
Qed.

(** Every tree of [json_ok] prints, and its text, formatted or not, parses back
    to it, at any nesting depth and before any text that is not more digits. *)
Lemma value_reads_back fmt j : forall d, d <= CJSON_NESTING_LIMIT -> json_ok d j = true ->
  reads_back (print_value fmt d) (parse_value (CJSON_NESTING_LIMIT - d)) j.
Proof.
  induction j as [|b|n|s|l IH|kvs IH] using json_ind'; intros d Hd Hok; cbn [json_ok] in Hok.
  - exists $"null". split_and!; [done..|]. intros r _. by destruct (CJSON_NESTING_LIMIT - d).
  - exists (if b then $"true" else $"false").
    split_and!; [by destruct b..|]. intros r _. by destruct b; destruct (CJSON_NESTING_LIMIT - d).
  - exists (print_number n). split_and!.
    + done.
    + destruct (number_text n Hok) as (c & t & -> & H & _). by apply (number_head_black c t).
    + intros r Hr. by apply parse_value_number.
  - exists (print_string_ptr s). split_and!; [done..|]. intros r _.
    pose proof (parse_print_string s r Hok) as Hp. unfold print_string_ptr in *.
    destruct (CJSON_NESTING_LIMIT - d); cbn [app] in *; cbn -[parse_string]; by rewrite Hp.
  - apply andb_prop in Hok as [Hlt Hl]. apply Nat.ltb_lt in Hlt.
    assert (Nat.leb CJSON_NESTING_LIMIT d = false) as Hleb by (by apply Nat.leb_gt).
    assert (exists b, CJSON_NESTING_LIMIT - d = S b /\ b = CJSON_NESTING_LIMIT - S d) as (bud & -> & Hbud)
      by (exists (CJSON_NESTING_LIMIT - S d); lia).
    assert (Hall : Forall (fun j => json_ok (S d) j = true) l)
      by (apply Forall_forall; intros x Hx; rewrite forallb_forall in Hl; apply Hl; by apply list_elem_of_In).
    unfold reads_back. cbn [print_value]. rewrite Hleb. destruct l as [|x l].
    + eexists. split_and!; [reflexivity|done|]. done.
    + assert (Forall (reads_back (print_value fmt (S d)) (parse_value bud)) (x :: l)) as Hrb.
      { subst bud. rewrite Forall_forall in IH, Hall |- *. intros y Hy. apply IH; [done|lia|by apply Hall]. }
      destruct (elements_read_back fmt _ _ (x :: l) (cons_ne_nil x l) Hrb) as (b & Hb1 & Hb2 & Hb3 & Hb4).
      eexists. rewrite Hb1. split_and!; [reflexivity|done|]. intros r _.
      cbn [list_ascii_of_string app]. rewrite <-app_assoc. cbn [app].
      pose proof (print_elements_head _ _ _ _ Hall (cons_ne_nil x l) Hb1 Hb2) as Hh.
      rewrite parse_array_text; [|by apply skip_ws_black|done|by apply value_head_brackets].
      rewrite Hb4 by (rewrite length_app; lia). done.
  - apply andb_prop in Hok as [Hlt Hl]. apply Nat.ltb_lt in Hlt.
    assert (Nat.leb CJSON_NESTING_LIMIT d = false) as Hleb by (by apply Nat.leb_gt).
    assert (exists b, CJSON_NESTING_LIMIT - d = S b /\ b = CJSON_NESTING_LIMIT - S d) as (bud & -> & Hbud)
      by (exists (CJSON_NESTING_LIMIT - S d); lia).
    assert (blank ((if fmt then tabs d else []) : cstr)) as Hw by (destruct fmt; [apply blank_tabs|constructor]).
    unfold reads_back. cbn [print_value]. rewrite Hleb. destruct kvs as [|kv kvs].
    + eexists. split_and!; [reflexivity|by destruct fmt|]. intros r _.
      assert (exists u, ((if fmt then $"{" ++ [ch_nl] else $"{") ++ [] ++ (if fmt then tabs d else []) ++ $"}") ++ r
        = "{"%char :: u /\ skip_ws u = "}"%char :: r) as (u & Heq & Hu).
      { exists ((if fmt then [ch_nl] else []) ++ (if fmt then tabs d else []) ++ "}"%char :: r). split.
        - destruct fmt; cbn; by rewrite <-?app_assoc.
        - rewrite skip_ws_blank by (destruct fmt; by repeat constructor).
          rewrite skip_ws_blank by done. by apply skip_ws_cons. }
      cbn [print_members mbind option_bind] in Heq |- *. rewrite Heq.
      by apply parse_empty_object.
    + assert (Forall (fun kv => str_ok (fst kv) = true /\
          reads_back (print_value fmt (S d)) (parse_value bud) (snd kv)) (kv :: kvs)) as Hrb.
      { subst bud. rewrite Forall_forall in IH |- *. intros y Hy. rewrite forallb_forall in Hl.
        assert (str_ok (fst y) && json_ok (S d) (snd y) = true) as [H1 H2]%andb_prop
          by (apply Hl; by apply list_elem_of_In).
        split; [done|]. apply IH; [done|lia|done]. }
      destruct (members_read_back fmt (S d) _ _ (kv :: kvs) _ (cons_ne_nil kv kvs) Hw Hrb) as (b & Hb1 & Hb2 & (t & Ht1 & Ht2) & Hb4).
      eexists. rewrite Hb1. split_and!; [reflexivity|by destruct fmt|]. intros r _.
      assert (exists u, ((if fmt then $"{" ++ [ch_nl] else $"{") ++ b ++ (if fmt then tabs d else []) ++ $"}") ++ r
        = "{"%char :: u /\ skip_ws u = ch_quote :: t ++ (if fmt then tabs d else []) ++ "}"%char :: r) as (u & -> & Hu).
      { exists ((if fmt then [ch_nl] else []) ++ b ++ (if fmt then tabs d else []) ++ "}"%char :: r).
        split; [destruct fmt; cbn; by rewrite <-?app_assoc|].
        rewrite skip_ws_blank by (destruct fmt; by repeat constructor). apply Ht2. }
      rewrite (parse_object_text _ _ _ Hu), Hu, <-Ht2, parse_members_skip, Hb4; [done|].
      rewrite Ht2. rewrite Ht1 in Hb2. cbn [length] in *. rewrite length_app. lia.
Qed.

Lemma print_parse_any fmt j s r : json_ok 0 j = true -> print_value fmt 0 j = Some s ->
  num_stop r -> cJSON_Parse (s ++ r) = Some j.
Proof.
  intros Hok Hs Hr. destruct (value_reads_back fmt j 0 ltac:(unfold CJSON_NESTING_LIMIT; lia) Hok) as (s' & Hs' & Hbl & Hp).
  rewrite Hs in Hs'. injection Hs' as <-. unfold cJSON_Parse.
  rewrite value_head_bom by (by eapply print_value_head).
  cbn [andb]. rewrite skip_ws_black by done. rewrite Nat.sub_0_r in Hp. by rewrite Hp.
Qed.

Lemma json_ok_prints fmt j : json_ok 0 j = true -> is_Some (print_value fmt 0 j).
Proof.
  intros Hok. destruct (value_reads_back fmt j 0 ltac:(unfold CJSON_NESTING_LIMIT; lia) Hok) as (s & Hs & _).
  by exists s.
Qed.

(** ** Unformatted text is one line, without control bytes *)

Definition printable (s : cstr) : Prop := Forall (fun c => (31 <? code c)%N = true) s.

Lemma printable_app s t : printable s -> printable t -> printable (s ++ t).
Proof. intros. by apply Forall_app. Qed.

Lemma printable_not_elem c s : (code c <= 31)%N -> printable s -> c ∉ s.
Proof. unfold printable. rewrite Forall_forall. intros Hc Hs H%Hs. apply N.ltb_lt in H. lia. Qed.

Lemma escape_printable s : printable (s ≫= escape_char).
Proof.
  induction s as [|c s IH]; [constructor|].
  change ((c :: s) ≫= escape_char) with (escape_char c ++ (s ≫= escape_char)).
  apply printable_app; [|done]. destruct c as [[] [] [] [] [] [] [] []]; by repeat constructor.
Qed.

Lemma print_string_printable s : printable (print_string_ptr s).
Proof.
  unfold print_string_ptr. apply (printable_app [ch_quote]); [by repeat constructor|].
  apply printable_app; [apply escape_printable|by repeat constructor].
Qed.

Lemma number_printable n : num_ok n = true -> printable (print_number n).
Proof.
  intros Hok. destruct (number_text n Hok) as (d & t & -> & _ & Hc & _). eapply Forall_impl; [exact Hc|]. intros c.
  by destruct c as [[] [] [] [] [] [] [] []]; vm_compute.
Qed.

(** The bytes of a printed value; formatted text also has tabs and newlines. *)
Definition layout_char (fmt : bool) (c : ascii) : bool :=
  (31 <? code c)%N || (fmt && (bool_decide (c = ch_tab) || bool_decide (c = ch_nl))).
Definition laid_out (fmt : bool) (s : cstr) : Prop := Forall (fun c => layout_char fmt c = true) s.

Lemma laid_out_app fmt s t : laid_out fmt s -> laid_out fmt t -> laid_out fmt (s ++ t).
Proof. intros. by apply Forall_app. Qed.

Lemma laid_out_printable s : laid_out false s -> printable s.
Proof. intros H. eapply Forall_impl; [exact H|]. intros c. unfold layout_char. cbn. by rewrite orb_false_r. Qed.

Lemma printable_laid_out fmt s : printable s -> laid_out fmt s.
Proof. intros H. eapply Forall_impl; [exact H|]. intros c Hc. cbn in Hc. unfold layout_char. by rewrite Hc. Qed.

Lemma laid_out_nul_free fmt s : laid_out fmt s -> "000"%char ∉ s.
Proof.
  unfold laid_out. rewrite Forall_forall. intros H Hin. specialize (H _ Hin). by destruct fmt.
Qed.

Lemma laid_out_literal fmt s : forallb (fun c => (31 <? code c)%N) s = true -> laid_out fmt s.
Proof. rewrite forallb_forall. intros H. apply printable_laid_out, Forall_forall. intros c Hc. apply H. by apply list_elem_of_In. Qed.

Lemma tabs_laid_out n : laid_out true (tabs n).
Proof. apply Forall_forall. intros c Hc. apply elem_of_replicate in Hc as [-> _]. done. Qed.

Lemma print_elements_laid_out fmt pv l b :
  Forall (fun j => forall s, pv j = Some s -> laid_out fmt s) l -> print_elements pv fmt l = Some b -> laid_out fmt b.
Proof.
  intros H. revert b. induction H as [|x l Hx Hl IH]; intros b Hb; [injection Hb as <-; constructor|].
  destruct l as [|y l]; [by apply Hx|].
  change (print_elements pv fmt (x :: y :: l)) with
    (a ← pv x; b0 ← print_elements pv fmt (y :: l); Some (a ++ (if fmt then $", " else $",") ++ b0)) in Hb.
  destruct (pv x) as [a|] eqn:Ea; [|done]. destruct (print_elements pv fmt (y :: l)) as [b0|]; [|done].
  injection Hb as <-. apply laid_out_app; [by apply Hx|].
  apply laid_out_app; [destruct fmt; by apply laid_out_literal|by apply IH].
Qed.

Lemma print_members_laid_out fmt pv d kvs b :
  Forall (fun kv => forall s, pv (snd kv) = Some s -> laid_out fmt s) kvs ->
  print_members pv fmt d kvs = Some b -> laid_out fmt b.
Proof.
  intros H. revert b. induction H as [|[k v] l Hx Hl IH]; intros b Hb; [injection Hb as <-; constructor|].
  cbn [print_members snd] in *. destruct (pv v) as [a|] eqn:Ea; [|done].
  destruct (print_members pv fmt d l) as [b0|]; [|done]. injection Hb as <-.
  apply laid_out_app; [destruct fmt; [apply tabs_laid_out|constructor]|].
  apply (laid_out_app fmt (print_string_ptr k)); [apply printable_laid_out, print_string_printable|].
  apply laid_out_app; [destruct fmt; by repeat constructor|].
  apply laid_out_app; [by apply Hx|]. apply laid_out_app; [destruct l; by repeat constructor|].
  apply laid_out_app; [destruct fmt; by repeat constructor|by apply IH].
Qed.

Lemma print_value_laid_out fmt j : forall d s, json_ok d j = true -> print_value fmt d j = Some s -> laid_out fmt s.
Proof.
  induction j as [|b|n|t|l IH|kvs IH] using json_ind'; intros d s Hok; cbn [print_value json_ok] in *.
  - intros [= <-]. by apply laid_out_literal.
  - destruct b; intros [= <-]; by apply laid_out_literal.
  - intros [= <-]. by apply printable_laid_out, number_printable.
  - intros [= <-]. apply printable_laid_out, print_string_printable.
  - apply andb_prop in Hok as [_ Hl]. case_match; [done|].
    destruct (print_elements _ _ _) as [b|] eqn:E; [|done]. intros [= <-].
    apply (laid_out_app fmt $"["); [by apply laid_out_literal|]. apply laid_out_app; [|by apply laid_out_literal].
    eapply print_elements_laid_out; [|exact E]. rewrite Forall_forall in IH |- *. rewrite forallb_forall in Hl.
    intros x Hx s. apply IH; [done|]. apply Hl. by apply list_elem_of_In.
  - apply andb_prop in Hok as [_ Hl]. case_match; [done|].
    destruct (print_members _ _ _ _) as [b|] eqn:E; [|done]. intros [= <-].
    apply laid_out_app; [destruct fmt; by repeat constructor|]. apply laid_out_app; [|].
    + eapply print_members_laid_out; [|exact E]. rewrite Forall_forall in IH |- *. rewrite forallb_forall in Hl.
      intros x Hx s. apply IH; [done|]. apply list_elem_of_In in Hx.
      specialize (Hl x Hx). by apply andb_prop in Hl as [_ ?].
    + apply laid_out_app; [destruct fmt; [apply tabs_laid_out|constructor]|by apply laid_out_literal].
Qed.

Lemma print_value_printable j d s : json_ok d j = true -> print_value false d j = Some s -> printable s.
Proof. intros H1 H2. by eapply laid_out_printable, print_value_laid_out. Qed.

(** What a reader of a file written with either layout gets. *)
Lemma printed_file fmt j : json_ok 0 j = true ->
  exists c t, print_value fmt 0 j = Some (c :: t) /\ take_while not_nul (c :: t) = c :: t /\
  cJSON_Parse (c :: t) = Some j.
Proof.
  intros Hok. destruct (value_reads_back fmt j 0 ltac:(unfold CJSON_NESTING_LIMIT; lia) Hok) as (t & Ht & Hb & _).
  destruct t as [|c t]; [done|]. exists c, t. split_and!; [done| |].
  - apply take_while_not_nul. eapply laid_out_nul_free, print_value_laid_out; done.
  - rewrite <- (app_nil_r (c :: t)). by eapply print_parse_any.
Qed.

(** What a reader of one unformatted line gets. *)
Lemma unformatted_line j : json_ok 0 j = true ->
  exists t, cJSON_PrintUnformatted j = Some t /\ printable t /\ 1 <= length t /\
  forall r, num_stop r -> cJSON_Parse (t ++ r) = Some j.
Proof.
  intros Hok. destruct (value_reads_back false j 0 ltac:(unfold CJSON_NESTING_LIMIT; lia) Hok) as (t & Ht & Hb & _).
  exists t. split_and!; [done|by eapply (print_value_printable j 0)|destruct t; [done|cbn; lia]|].
  intros r Hr. by eapply print_parse_any.
Qed.

(** A value is printed and parsed back. *)
Lemma print_parse_back j : json_ok 0 j = true -> exists t, cJSON_PrintUnformatted j = Some t /\ cJSON_Parse t = Some j.
Proof.
  intros Hok. destruct (unformatted_line j Hok) as (t & Ht & _ & _ & Hp). exists t. split; [done|].
  rewrite <- (app_nil_r t). by apply Hp.
Qed.

(** ** Evaluating accessors on literal names *)

Lemma find_member_cons name k v kvs :
  find_member name ((k, v) :: kvs) = if strcasecmp_eq name k then Some v else find_member name kvs.
Proof. unfold find_member. cbn. by case_match. Qed.

(** Looks the literal names of the goal up in literal objects. *)
Ltac eval_member :=
  unfold get_object_item; cbn [app];
  repeat (rewrite find_member_cons;
    match goal with |- context [strcasecmp_eq ?a ?b] =>
      let e := eval vm_compute in (strcasecmp_eq a b) in change (strcasecmp_eq a b) with e end;
    cbn beta iota).
