(* ===== verification/JsonTree.v ===== *)
(** [src/vendor/cJSON/cJSON.c], trees: the deep copy, and the nesting of a
    value. What the parser accepts is nested at most as deeply as the printer
    and the copy allow, so both succeed on every parsed value. *)
From S2P Require Import Prelude CStr Json.

Definition CJSON_CIRCULAR_LIMIT : nat := 100 * 100.

Section Duplicate.
Context (dup : json -> option json).

(** The loop over the children of an item at [depth]. *)
Fixpoint duplicate_items (depth : nat) (l : list json) : option (list json) :=
  match l with
  | [] => Some []
  | child :: r =>
      if Nat.leb CJSON_CIRCULAR_LIMIT depth then None
      else c ← dup child; cs ← duplicate_items depth r; Some (c :: cs)
  end.

Fixpoint duplicate_members (depth : nat) (l : list (cstr * json)) : option (list (cstr * json)) :=
  match l with
  | [] => Some []
  | (k, child) :: r =>
      if Nat.leb CJSON_CIRCULAR_LIMIT depth then None
      else c ← dup child; cs ← duplicate_members depth r; Some ((k, c) :: cs)
  end.
End Duplicate.

(** [cJSON_Duplicate_rec] with [recurse] set. *)
Fixpoint cJSON_Duplicate_rec (depth : nat) (item : json) : option json :=
  match item with
  | JArr l => JArr <$> duplicate_items (cJSON_Duplicate_rec (S depth)) depth l
  | JObj kvs => JObj <$> duplicate_members (cJSON_Duplicate_rec (S depth)) depth kvs
  | item => Some item
  end.

Definition cJSON_Duplicate (item : json) : option json := cJSON_Duplicate_rec 0 item.

(** ** Nesting *)

(** At most [b] levels of arrays and objects. *)
Fixpoint nest_ok (b : nat) (j : json) {struct j} : bool :=
  match j with
  | JArr l => match b with 0 => false | S b' => forallb (nest_ok b') l end
  | JObj kvs => match b with 0 => false | S b' => forallb (fun kv => nest_ok b' (snd kv)) kvs end
  | _ => true
  end.

Lemma nest_ok_weaken j : forall b c, b <= c -> nest_ok b j = true -> nest_ok c j = true.
Proof.
  induction j as [|b0|n0|s0|l IH|kvs IH] using json_ind'; intros b c Hbc; try (intros; reflexivity);
    (destruct b as [|b]; [intros [=]|]); (destruct c as [|c]; [lia|]); cbn [nest_ok]; rewrite !forallb_forall;
    intros H x Hx; rewrite Forall_forall in IH; apply (IH x (proj2 (list_elem_of_In _ _) Hx) b c); auto with lia.
Qed.

Section ParseNest.
Context (b : nat) (pv : cstr -> option (json * cstr)).
Context (Hpv : forall s j r, pv s = Some (j, r) -> nest_ok b j = true).

Lemma parse_elements_nest fuel : forall s l r, parse_elements pv fuel s = Some (l, r) -> forallb (nest_ok b) l = true.
Proof using Hpv.
  induction fuel as [|f IH]; intros s l r; cbn; [done|].
  destruct (pv (skip_ws s)) as [[v r1]|] eqn:E; [|done]. cbn. apply Hpv in E.
  destruct (skip_ws r1) as [|c r2]; [done|]. destruct c as [[] [] [] [] [] [] [] []]; try done; cbn.
  - by intros [= <- _]; cbn; rewrite E.
  - destruct (parse_elements pv f r2) as [[vs r3]|] eqn:E2; [|done]. intros [= <- _]. cbn. rewrite E. by eapply IH.
Qed.

Lemma parse_members_nest fuel : forall s l r, parse_members pv fuel s = Some (l, r) ->
  forallb (fun kv => nest_ok b (snd kv)) l = true.
Proof using Hpv.
  induction fuel as [|f IH]; intros s l r; cbn; [done|].
  destruct (parse_string (skip_ws s)) as [[k r0]|]; [|done]. cbn.
  destruct (skip_ws r0) as [|c r1]; [done|]. destruct (bool_decide (c = ":"%char)) eqn:Ec.
  - apply bool_decide_eq_true in Ec as ->.
    destruct (pv (skip_ws r1)) as [[v r2]|] eqn:E; [|done]. cbn. apply Hpv in E.
    destruct (skip_ws r2) as [|c r3]; [done|]. destruct c as [[] [] [] [] [] [] [] []]; try done; cbn.
    + by intros [= <- _]; cbn; rewrite E.
    + destruct (parse_members pv f r3) as [[vs r4]|] eqn:E2; [|done]. intros [= <- _]. cbn. rewrite E. by eapply IH.
  - apply bool_decide_eq_false in Ec. by destruct c as [[] [] [] [] [] [] [] []].
Qed.
End ParseNest.

(** What follows an opening bracket or brace. *)
Lemma after_bracket {A} (t : cstr) (first : ascii) (C : list A -> json) (rest : cstr -> option (list A * cstr)) v :
  match t with
  | c :: r => if bool_decide (c = first) then Some (C [], r) else '(l, r) ← rest t; Some (C l, r)
  | [] => '(l, r) ← rest t; Some (C l, r)
  end = Some v ->
  fst v = C [] \/ exists l r, rest t = Some (l, r) /\ fst v = C l.
Proof.
  destruct t as [|c r]; [|case_bool_decide]; [|by intros [= <-]; left|];
    (destruct (rest _) as [[l r']|] eqn:E; [|done]); intros [= <-]; right; eauto.
Qed.

Lemma parse_value_nest b : forall s j r, parse_value b s = Some (j, r) -> nest_ok b j = true.
Proof.
  induction b as [|b IH]; intros s j r; cbn [parse_value].
  all: do 3 (case_match; [by intros [= <- _]|]); intros Hj.
  all: destruct s as [|c s']; [done|].
  all: destruct (bool_decide (c = ch_quote)); [destruct (parse_string _) as [[]|]; [|done]; by injection Hj as <- _|].
  all: destruct (bool_decide (c = "-"%char) || isdigit c);
    [unfold parse_number in Hj; destruct (strtod _) as [[]|]; [|done]; by injection Hj as <- _|].
  all: destruct (bool_decide (c = "["%char)); [|destruct (bool_decide (c = "{"%char)); [|done]]; try done.
  - destruct (after_bracket (skip_ws s') "]"%char JArr (fun t => parse_elements (parse_value b) (S (length t)) t) (j, r))
      as [Hr|(l & r' & Hr & Hl)]; cbn [fst] in *; [|by subst j|subst j; by eapply (parse_elements_nest b _ IH)].
    rewrite <-Hj. by destruct (skip_ws s') as [|[[] [] [] [] [] [] [] []] t].
  - destruct (after_bracket (skip_ws s') "}"%char JObj (fun t => parse_members (parse_value b) (S (length t)) t) (j, r))
      as [Hr|(l & r' & Hr & Hl)]; cbn [fst] in *; [|by subst j|subst j; by eapply (parse_members_nest b _ IH)].
    rewrite <-Hj. by destruct (skip_ws s') as [|[[] [] [] [] [] [] [] []] t].
Qed.

Lemma cJSON_Parse_nest s j : cJSON_Parse s = Some j -> nest_ok CJSON_NESTING_LIMIT j = true.
Proof.
  unfold cJSON_Parse. generalize CJSON_NESTING_LIMIT. intros b.
  destruct (parse_value b _) as [[v r]|] eqn:E; [|done]. intros [= <-]. by eapply parse_value_nest.
Qed.

(** Every value within the limit is printed. *)
Lemma print_value_nest fmt j : forall b d, b + d <= CJSON_NESTING_LIMIT -> nest_ok b j = true -> is_Some (print_value fmt d j).
Proof.
  induction j as [|[]|n0|s0|l IH|kvs IH] using json_ind'; intros b d Hb; cbn [print_value nest_ok]; try by eexists.
  - destruct b as [|b]; [intros [=]|]. intros Hl. destruct (Nat.leb_spec CJSON_NESTING_LIMIT d); [lia|].
    assert (is_Some (print_elements (print_value fmt (S d)) fmt l)) as [t ->]; [|by eexists].
    induction IH as [|x l Hx Hl' IHl]; [by eexists|]. cbn in Hl. apply andb_prop in Hl as [H1 H2].
    destruct (Hx b (S d) ltac:(lia) H1) as [a Ha]. destruct (IHl H2) as [t Ht].
    cbn [print_elements]. destruct l; [by eexists|]. rewrite Ha, Ht. by eexists.
  - destruct b as [|b]; [intros [=]|]. intros Hl. destruct (Nat.leb_spec CJSON_NESTING_LIMIT d); [lia|].
    assert (is_Some (print_members (print_value fmt (S d)) fmt (S d) kvs)) as [t ->]; [|by eexists].
    induction IH as [|[k x] l Hx Hl' IHl]; [by eexists|]. cbn in Hl. apply andb_prop in Hl as [H1 H2].
    destruct (Hx b (S d) ltac:(lia) H1) as [a Ha]. destruct (IHl H2) as [t Ht].
    cbn [print_members]. cbn [snd] in Ha. rewrite Ha, Ht. by eexists.
Qed.

Lemma cJSON_Print_nest fmt j : nest_ok CJSON_NESTING_LIMIT j = true -> is_Some (print_value fmt 0 j).
Proof. apply print_value_nest. lia. Qed.

(** The copy of a value within the limit is the value. *)
Lemma duplicate_nest j : forall b d, b + d <= CJSON_CIRCULAR_LIMIT -> nest_ok b j = true -> cJSON_Duplicate_rec d j = Some j.
Proof.
  induction j as [|b0|n0|s0|l IH|kvs IH] using json_ind'; intros b d Hb; cbn [cJSON_Duplicate_rec nest_ok]; try done.
  - destruct b as [|b]; [intros [=]|]. intros Hl.
    enough (duplicate_items (cJSON_Duplicate_rec (S d)) d l = Some l) as -> by done.
    induction IH as [|x l Hx Hl' IHl]; [done|]. cbn in Hl. apply andb_prop in Hl as [H1 H2].
    cbn [duplicate_items]. destruct (Nat.leb_spec CJSON_CIRCULAR_LIMIT d); [lia|].
    rewrite (Hx b (S d) ltac:(lia) H1), (IHl H2). done.
  - destruct b as [|b]; [intros [=]|]. intros Hl.
    enough (duplicate_members (cJSON_Duplicate_rec (S d)) d kvs = Some kvs) as -> by done.
    induction IH as [|[k x] l Hx Hl' IHl]; [done|]. cbn in Hl. apply andb_prop in Hl as [H1 H2].
    cbn [duplicate_members]. destruct (Nat.leb_spec CJSON_CIRCULAR_LIMIT d); [lia|].
    cbn [snd] in Hx. rewrite (Hx b (S d) ltac:(lia) H1), (IHl H2). done.
Qed.

Lemma cJSON_Duplicate_nest j : nest_ok CJSON_NESTING_LIMIT j = true -> cJSON_Duplicate j = Some j.
Proof. apply duplicate_nest. apply Nat.leb_le. by vm_compute. Qed.
