(* ===== verification/Common.v ===== *)
(** [src/common/common.c], [src/include/common.h]: error codes and values, and
    the growable arrays. The [String] buffers are in StringBuf.v; elsewhere a
    [String] is the text it holds, which StringBuf.v justifies. *)
From S2P Require Import Prelude CStr.

(** ** Errors *)

Inductive ErrorCode :=
  | ERR_NONE | ERR_MEMORY | ERR_FILE | ERR_NETWORK | ERR_JSON | ERR_TOOL
  | ERR_INVALID_PARAM | ERR_CONTENT_FILTER | ERR_CONNECTION | ERR_TIMEOUT.

#[export] Instance ErrorCode_eq_dec : EqDecision ErrorCode.
Proof. solve_decision. Defined.

Record Error := mkError { err_code : ErrorCode; err_message : cstr }.

#[export] Instance Error_eq_dec : EqDecision Error.
Proof. solve_decision. Defined.

(** [error_new]: at most 255 bytes of the message are kept. *)
Definition error_new (c : ErrorCode) (message : option cstr) : Error :=
  {| err_code := c;
     err_message := match message with Some m => truncate_to 256 m | None => [] end |}.

Definition err_ok : Error := error_new ERR_NONE (Some []).
Definition is_err (e : Error) : bool := negb (bool_decide (err_code e = ERR_NONE)).

Lemma error_new_bound c m : length (err_message (error_new c m)) <= 255.
Proof. destruct m; cbn; [rewrite truncate_to_length|]; lia. Qed.

(** A [String] built from a possibly null [char*]: [string_new]. *)
Definition str_new (s : option cstr) : cstr := default [] s.

(** ** Growable arrays

    [capacity] is kept apart from the elements, as in the code; the element
    type stands for the [item_size] bytes that [memcpy] moves. [item_size] is
    in bytes, and [realloc_ok] says whether a request of that many bytes
    succeeds (by [realloc], or by the [malloc] tried after it). *)
Record DynamicArray (A : Type) := mkDynamicArray {
  da_items : list A;
  da_capacity : Z;
  da_item_size : Z;
}.
Arguments mkDynamicArray {A}.
Arguments da_items {A}.
Arguments da_capacity {A}.
Arguments da_item_size {A}.

Section DynamicArray.
Context {A : Type} (realloc_ok : Z -> bool).
Open Scope Z_scope.

Definition da_count (arr : DynamicArray A) : Z := Z.of_nat (length (da_items arr)).

Definition dynamic_array_new (item_size : Z) : DynamicArray A := mkDynamicArray [] 8 item_size.

Definition dynamic_array_free (arr : DynamicArray A) : DynamicArray A := mkDynamicArray [] 0 0.

Definition dynamic_array_get (arr : DynamicArray A) (index : nat) : option A :=
  if Nat.leb (length (da_items arr)) index then None else da_items arr !! index.

(** The capacity after the growth step, [None] when the item is dropped. *)
Definition grow_capacity (cap item_size : Z) : option Z :=
  if SIZE_MAX / 2 <? cap then None
  else let new_capacity := cap * 2 in
       if (0 <? item_size) && (SIZE_MAX / item_size <? new_capacity) then None
       else if realloc_ok (new_capacity * item_size) then Some new_capacity else None.

Definition dynamic_array_add (arr : DynamicArray A) (item : option A) : DynamicArray A :=
  match item with
  | None => arr
  | Some x =>
      if da_capacity arr <=? da_count arr then
        match grow_capacity (da_capacity arr) (da_item_size arr) with
        | None => arr
        | Some c => mkDynamicArray (da_items arr ++ [x]) c (da_item_size arr)
        end
      else mkDynamicArray (da_items arr ++ [x]) (da_capacity arr) (da_item_size arr)
  end.

(** The block [items] points to has [capacity * item_size] bytes, and every
    element lies inside it. *)
Definition da_wf (arr : DynamicArray A) : Prop :=
  da_count arr <= da_capacity arr <= SIZE_MAX /\ 0 < da_item_size arr /\
  da_capacity arr * da_item_size arr <= SIZE_MAX.

Lemma dynamic_array_new_wf sz : 0 < sz -> 8 * sz <= SIZE_MAX -> da_wf (dynamic_array_new sz).
Proof. unfold da_wf, da_count, SIZE_MAX. cbn. lia. Qed.

(** A growth never overflows, and the block it asks for holds the elements. *)
Lemma grow_capacity_fits cap sz c :
  0 < sz -> 0 < cap -> grow_capacity cap sz = Some c -> c = 2 * cap /\ c * sz <= SIZE_MAX.
Proof.
  intros Hsz Hcap. unfold grow_capacity. case_match eqn:E; [done|].
  rewrite (proj2 (Z.ltb_lt 0 sz)) by done. cbn [andb].
  case_match eqn:E2; [done|]. case_match; [|done]. intros [= <-]. split; [lia|].
  apply Z.ltb_ge in E2. pose proof (Z.mul_div_le SIZE_MAX sz Hsz). nia.
Qed.

(** Adding keeps the array within its block, whatever the allocator answers. *)
Lemma dynamic_array_add_wf arr x : 0 < da_capacity arr -> da_wf arr ->
  da_wf (dynamic_array_add arr x) /\ 0 < da_capacity (dynamic_array_add arr x).
Proof.
  unfold da_wf, da_count. intros Hcap (H1 & H2 & H3). destruct x as [x|]; [|done].
  unfold dynamic_array_add, da_count. case_match eqn:E.
  - apply Z.leb_le in E. case_match eqn:G; [|done].
    apply grow_capacity_fits in G as [-> G2]; [|done..]. cbn.
    rewrite length_app. cbn. repeat split; try lia. nia.
  - apply Z.leb_gt in E. cbn. rewrite length_app. cbn. lia.
Qed.

(** With a working allocator the item is appended. *)
Lemma dynamic_array_add_items arr x :
  (forall n, n <= SIZE_MAX -> realloc_ok n = true) -> da_wf arr ->
  2 * da_capacity arr * da_item_size arr <= SIZE_MAX ->
  da_items (dynamic_array_add arr (Some x)) = da_items arr ++ [x].
Proof.
  intros Hok (H1 & H2 & H3) Hfit. cbn. case_match; [|done].
  unfold grow_capacity.
  assert (da_capacity arr <= SIZE_MAX / 2) by (apply Z.div_le_lower_bound; nia).
  rewrite (proj2 (Z.ltb_ge _ _)) by done.
  assert (da_capacity arr * 2 <= SIZE_MAX / da_item_size arr) by (apply Z.div_le_lower_bound; nia).
  rewrite (proj2 (Z.ltb_ge _ (da_capacity arr * 2))) by done. rewrite andb_false_r.
  rewrite Hok by nia. done.
Qed.
End DynamicArray.

(** [StringArray]: a growable array of strings, 24 bytes each. *)
Definition sizeof_String : Z := 24.
Definition StringArray := DynamicArray cstr.

Section StringArray.
Context (realloc_ok : Z -> bool).

Definition string_array_new : StringArray := dynamic_array_new sizeof_String.
Definition string_array_free (arr : StringArray) : StringArray := mkDynamicArray [] 0 sizeof_String.
Definition string_array_add (arr : StringArray) (str : option cstr) : StringArray :=
  if (da_capacity arr <=? da_count arr)%Z then
    match grow_capacity realloc_ok (da_capacity arr) sizeof_String with
    | None => arr
    | Some c => mkDynamicArray (da_items arr ++ [str_new str]) c sizeof_String
    end
  else mkDynamicArray (da_items arr ++ [str_new str]) (da_capacity arr) sizeof_String.

Lemma string_array_add_is_add arr str : da_item_size arr = sizeof_String ->
  string_array_add arr str = dynamic_array_add realloc_ok arr (Some (str_new str)).
Proof.
  intros Hs. unfold string_array_add, dynamic_array_add. rewrite Hs. done.
Qed.
End StringArray.
