(* ===== verification/StringBuf.v ===== *)
(** [src/common/common.c], the [String] buffers: length, capacity and the
    allocations behind them. Elsewhere a [String] is the text it holds. *)
From S2P Require Import Prelude CStr Common.

(** [data] is NULL or the text; the length is that of the text. *)
Record String := mkString { sb_data : option cstr; sb_capacity : Z }.

Definition sb_text (s : String) : cstr := default [] (sb_data s).
Definition sb_len (s : String) : Z := Z.of_nat (length (sb_text s)).

Section Alloc.
(** Whether [malloc], or [realloc], of so many bytes succeeds. *)
Context (malloc_ok realloc_ok : Z -> bool).
Open Scope Z_scope.

Definition string_new (str : option cstr) : String :=
  match str with
  | None => mkString (if malloc_ok 16 then Some [] else None) 16
  | Some t =>
      let capacity := Z.max 16 (Z.of_nat (length t) + 1) in
      if malloc_ok capacity then mkString (Some t) capacity else mkString None 0
  end.

Definition string_free (s : String) : String :=
  match sb_data s with Some _ => mkString None 0 | None => s end.

Definition string_copy (s : String) : String := string_new (sb_data s).

(** The doubling loop; [None] when the fuel is used up. *)
Fixpoint grow_to (fuel : nat) (new_cap need : Z) : option Z :=
  if new_cap <? need then
    match fuel with
    | O => None
    | S f => let c := wrap_u 64 (new_cap * 2) in grow_to f (if c <? 16 then 16 else c) need
    end
  else Some new_cap.

(** One round per bit of a size. *)
Definition grow_fuel : nat := 64.

(** The buffer after the growth, and whether the old block is lost. *)
Definition grow_string (s : String) (new_cap : Z) : option (String * bool) :=
  match sb_data s with
  | None => if malloc_ok new_cap then Some (mkString (Some []) new_cap, false) else None
  | Some [] => if malloc_ok new_cap then Some (mkString (Some []) new_cap, true) else None
  | Some t => if realloc_ok new_cap || malloc_ok new_cap then Some (mkString (Some t) new_cap, false) else None
  end.

(** The new buffer and whether a block was lost; [None] when the loop does
    not end. *)
Definition string_append (s : String) (str : option cstr) : option (String * bool) :=
  match str with
  | None => Some (s, false)
  | Some str =>
      let str_len := Z.of_nat (length str) in
      if SIZE_MAX - sb_len s - 1 <? str_len then Some (s, false)
      else
        let new_len := sb_len s + str_len in
        if sb_capacity s <? new_len + 1 then
          new_cap ← grow_to grow_fuel (if 0 <? sb_capacity s then sb_capacity s else 16) (new_len + 1);
          match grow_string s new_cap with
          | None => Some (s, false)
          | Some (s', lost) => Some (mkString (Some (sb_text s' ++ str)) (sb_capacity s'), lost)
          end
        else match sb_data s with
             | None => Some (s, false)
             | Some t => Some (mkString (Some (t ++ str)) (sb_capacity s), false)
             end
  end.

Definition string_equals (a b : String) : bool :=
  match sb_data a, sb_data b with
  | None, None => true
  | Some x, Some y => str_eq x y
  | _, _ => false
  end.

(** The text and its terminator fit the block; a buffer without a block has
    no text. *)
Definition sb_wf (s : String) : Prop :=
  match sb_data s with Some t => Z.of_nat (length t) + 1 <= sb_capacity s | None => True end /\ 0 <= sb_capacity s < 2 ^ 64.

Lemma string_new_wf str : Z.of_nat (length (default [] str)) + 1 < 2 ^ 64 -> sb_wf (string_new str).
Proof.
  unfold sb_wf, string_new. destruct str as [t|]; cbn [default from_option id length]; intros H.
  - destruct (malloc_ok _); cbn [sb_data sb_capacity]; lia.
  - destruct (malloc_ok _); cbn [sb_data sb_capacity length]; lia.
Qed.

(** The loop ends within the fuel at the first doubling that is enough. *)
Lemma grow_to_enough fuel : forall cap need, 0 < cap -> need <= 2 ^ 63 -> need <= cap * 2 ^ Z.of_nat fuel ->
  exists c, grow_to fuel cap need = Some c /\ Z.max cap need <= c <= Z.max (Z.max cap 16) (2 * need - 2).
Proof.
  induction fuel as [|f IH]; intros cap need Hcap Hneed Hf; cbn [grow_to].
  - change (2 ^ Z.of_nat 0) with 1 in Hf. rewrite (proj2 (Z.ltb_ge _ _)) by lia. exists cap. split; [done|lia].
  - destruct (Z.ltb_spec cap need) as [Hlt|Hge]; [|exists cap; split; [done|lia]].
    rewrite wrap_u_id by lia. destruct (IH (if cap * 2 <? 16 then 16 else cap * 2) need) as (c & Hc & Hr);
      [case_match; lia|done| |].
    + rewrite Nat2Z.inj_succ, Z.pow_succ_r in Hf by lia. destruct (Z.ltb_spec (cap * 2) 16); [|lia].
      pose proof (Z.pow_pos_nonneg 2 (Z.of_nat f)). nia.
    + exists c. split; [done|]. destruct (Z.ltb_spec (cap * 2) 16); lia.
Qed.

(** Appending ends, keeps the text and its terminator inside the block,
    and either adds the whole text or, when no memory is left, nothing. *)
Theorem string_append_correct s str : sb_wf s -> sb_len s + Z.of_nat (length str) + 1 <= 2 ^ 63 ->
  exists s' lost, string_append s (Some str) = Some (s', lost) /\ sb_wf s' /\
    (sb_text s' = sb_text s ++ str /\ sb_data s' <> None \/ s' = s) /\
    ((forall n, malloc_ok n = true) -> (sb_data s <> None \/ sb_capacity s = 0) -> sb_text s' = sb_text s ++ str) /\
    (lost = true <-> sb_data s = Some [] /\ sb_capacity s < Z.of_nat (length str) + 1 /\ s' <> s).
Proof.
  intros [Hwf Hcap] Hfit. unfold string_append, SIZE_MAX.
  rewrite (proj2 (Z.ltb_ge _ _)) by (unfold sb_len in *; lia).
  destruct (Z.ltb_spec (sb_capacity s) (sb_len s + Z.of_nat (length str) + 1)) as [Hlt|Hge].
  - destruct (grow_to_enough grow_fuel (if 0 <? sb_capacity s then sb_capacity s else 16) (sb_len s + Z.of_nat (length str) + 1))
      as (c & -> & Hc); [destruct (Z.ltb_spec 0 (sb_capacity s)); lia|done| |].
    { change (2 ^ Z.of_nat grow_fuel) with (2 ^ 64). destruct (Z.ltb_spec 0 (sb_capacity s)); lia. }
    cbn [mbind option_bind].
    assert (sb_len s + Z.of_nat (length str) + 1 <= c < 2 ^ 64) as Hc'.
    { destruct (Z.ltb_spec 0 (sb_capacity s)); lia. }
    unfold grow_string, sb_len, sb_text in *. destruct (sb_data s) as [[|a t]|] eqn:Ed; cbn [default from_option id] in *.
    + destruct (malloc_ok c) eqn:Em; eexists _, _; (split; [reflexivity|]); unfold sb_wf; cbn [sb_data sb_capacity from_option id].
      * split_and!; [cbn in *; lia|lia|lia|by left|done|].
        split; [intros _|done]. split_and!; [done|cbn in *; lia|]. intros <-. cbn in *. lia.
      * rewrite Ed. split_and!; [cbn in *; lia|lia|lia|by right|intros Hm; by rewrite Hm in Em|by split; [|intros (_ & _ & [])]].
    + destruct (realloc_ok c || malloc_ok c) eqn:Em; eexists _, _; (split; [reflexivity|]); unfold sb_wf;
        cbn [sb_data sb_capacity from_option id].
      * rewrite length_app. split_and!; [lia|lia|lia|by left|done|by split; [|intros ([=] & _)]].
      * rewrite Ed. split_and!; [lia|lia|lia|by right| |by split; [|intros ([=] & _)]].
        intros Hm. rewrite Hm, orb_true_r in Em. done.
    + destruct (malloc_ok c) eqn:Em; eexists _, _; (split; [reflexivity|]); unfold sb_wf; cbn [sb_data sb_capacity from_option id].
      * split_and!; [cbn in *; lia|lia|lia|by left|done|by split; [|intros ([=] & _)]].
      * rewrite Ed. split_and!; [done|lia|lia|by right|intros Hm; by rewrite Hm in Em|by split; [|intros ([=] & _)]].
  - unfold sb_len, sb_text in *. destruct (sb_data s) as [t|] eqn:Ed; cbn [default from_option id] in *; eexists _, _; (split; [reflexivity|]);
      unfold sb_wf; cbn [sb_data sb_capacity from_option id].
    + rewrite length_app. split_and!; [lia|lia|lia|by left|done|]. split; [done|]. intros ([= ->] & H & _). cbn in *. lia.
    + rewrite Ed. split_and!; [done|lia|lia|by right| |by split; [|intros ([=] & _)]].
      intros _ [H|H]; [done|]. cbn in *. lia.
Qed.
End Alloc.

Lemma string_append_correct_witness :
  exists s' lost, string_append (fun _ => true) (fun _ => true) (mkString (Some $"tea") 4) (Some $" time") = Some (s', lost) /\ sb_wf s'.
Proof.
  destruct (string_append_correct (fun _ => true) (fun _ => true) (mkString (Some $"tea") 4) $" time") as (s' & lost & H & Hw & _);
    [by split|done|]. by exists s', lost.
Defined.
