(* ===== verification/Message.v ===== *)
(** [src/common/message.c], [src/include/message.h]: conversation messages,
    channel messages and the internal events of the agent loop. *)
From S2P Require Import Prelude CStr Common.

Inductive MessageRole := ROLE_USER | ROLE_ASSISTANT | ROLE_TOOL.

#[export] Instance MessageRole_eq_dec : EqDecision MessageRole.
Proof. solve_decision. Defined.

Record ToolCall := mkToolCall { tc_id : cstr; tc_name : cstr; tc_arguments : cstr }.

#[export] Instance ToolCall_eq_dec : EqDecision ToolCall.
Proof. solve_decision. Defined.

Record Message := mkMessage {
  m_role : MessageRole;
  m_content : cstr;
  m_timestamp : cstr;
  m_tool_calls : list ToolCall;
  m_tool_call_id : cstr;
  m_name : cstr;
}.

#[export] Instance Message_eq_dec : EqDecision Message.
Proof. solve_decision. Defined.

Record InboundMessage := mkInbound {
  in_channel : cstr;
  in_chat_id : cstr;
  in_content : cstr;
  in_sender_name : cstr;
  in_attachments : list cstr;
  in_no_session_record : bool;
}.

Record OutboundMessage := mkOutbound {
  out_channel : cstr;
  out_chat_id : cstr;
  out_content : cstr;
  out_attachments : list cstr;
}.

#[export] Instance OutboundMessage_eq_dec : EqDecision OutboundMessage.
Proof. solve_decision. Defined.

(** [InternalEvent]: the C struct is tagged by [type], and each constructor
    reads only its own fields. *)
Inductive InternalEvent :=
  | EVENT_LLM_RESULT (session_key : cstr) (llm_error : Error) (llm_response : cstr)
      (tool_calls : list ToolCall)
  | EVENT_TOOL_RESULT (session_key : cstr) (tool_call_id tool_name tool_result : cstr)
      (tool_error : Error).

Definition ev_session_key (ev : InternalEvent) : cstr :=
  match ev with EVENT_LLM_RESULT k _ _ _ | EVENT_TOOL_RESULT k _ _ _ _ => k end.

Definition message_new (role : MessageRole) (content : option cstr) : Message :=
  {| m_role := role; m_content := str_new content; m_timestamp := []; m_tool_calls := [];
     m_tool_call_id := []; m_name := [] |}.

(** [message_add_tool_call]; [realloc_ok] is the answer of [realloc]. *)
Definition message_add_tool_call (realloc_ok : bool) (msg : Message) (id name args : option cstr) : Message :=
  if realloc_ok then
    {| m_role := m_role msg; m_content := m_content msg; m_timestamp := m_timestamp msg;
       m_tool_calls := m_tool_calls msg ++ [mkToolCall (str_new id) (str_new name) (str_new args)];
       m_tool_call_id := m_tool_call_id msg; m_name := m_name msg |}
  else msg.

Definition inbound_message_new (channel chat_id content sender_name : option cstr) : InboundMessage :=
  {| in_channel := str_new channel; in_chat_id := str_new chat_id; in_content := str_new content;
     in_sender_name := match sender_name with Some s => str_new (Some s) | None => str_new (Some []) end;
     in_attachments := []; in_no_session_record := false |}.

Definition outbound_message_new (channel chat_id content : option cstr) : OutboundMessage :=
  {| out_channel := str_new channel; out_chat_id := str_new chat_id; out_content := str_new content;
     out_attachments := [] |}.

(** [string_copy] of the fields of each call. *)
Definition tool_call_copy (c : ToolCall) : ToolCall :=
  mkToolCall (str_new (Some (tc_id c))) (str_new (Some (tc_name c))) (str_new (Some (tc_arguments c))).

Definition internal_event_new_llm_result (session_key : option cstr) (err : Error)
    (response : option cstr) (calls : option (list ToolCall)) : InternalEvent :=
  EVENT_LLM_RESULT (str_new session_key) err (str_new response)
    (match calls with Some cs => tool_call_copy <$> cs | None => [] end).

Definition internal_event_new_tool_result (session_key tool_call_id tool_name result : option cstr)
    (err : Error) : InternalEvent :=
  EVENT_TOOL_RESULT (str_new session_key) (str_new tool_call_id) (str_new tool_name)
    (str_new result) err.

Lemma tool_call_copy_id c : tool_call_copy c = c.
Proof. by destruct c. Qed.

Lemma tool_calls_copy_id (cs : list ToolCall) : tool_call_copy <$> cs = cs.
Proof. induction cs as [|c cs IH]; cbn; [done|]. by rewrite tool_call_copy_id, IH. Qed.

#[export] Hint Rewrite tool_call_copy_id tool_calls_copy_id : primagen.
