(* ===== verification/MessageBus.v ===== *)
(** [src/bus/message_bus.c]: the growable ring buffer behind each of the three
    queues of the message bus, its blocking operations, and the bus. Every
    operation runs under the queue's mutex, so it is one atomic step; a
    blocking receive re-evaluates its loop condition at each wake-up.

    The queue implements the abstract closable FIFO of [Module Fifo]. *)
From S2P Require Import Prelude Common Message.

(** ** The abstract queue: a list of pending messages and a closed flag *)
Module Fifo.
Section Fifo.
Context {A : Type}.

Record fifo := mkFifo { pending : list A; is_closed : bool }.

Definition empty : fifo := mkFifo [] false.
Definition send (q : fifo) (m : A) : fifo * bool :=
  if is_closed q then (q, false) else (mkFifo (pending q ++ [m]) false, true).
(** [None]: the receiver has to wait. *)
Definition receive (q : fifo) : option (option A * fifo) :=
  match pending q with
  | m :: l => Some (Some m, mkFifo l (is_closed q))
  | [] => if is_closed q then Some (None, q) else None
  end.
Definition close (q : fifo) : fifo := mkFifo (pending q) true.
End Fifo.
Arguments fifo : clear implicits.
End Fifo.

(** ** The ring buffer *)

(** What happened to the message given to [message_queue_send]. *)
Inductive send_outcome := Queued | FreedClosed | FreedNoMem.

#[export] Instance send_outcome_eq_dec : EqDecision send_outcome.
Proof. solve_decision. Defined.

(** One evaluation of the receive loop under the mutex: wait, return NULL, or
    return a message. A freed cell is [None]. *)
Inductive recv_result (A : Type) := RecvWait | RecvNull | RecvMsg (m : A).
Arguments RecvWait {A}.
Arguments RecvNull {A}.
Arguments RecvMsg {A}.

Section Queue.
Context {A : Type}.

(** [items] are the [capacity] cells; a cell never written is [None]. *)
Record MessageQueue := mkQueue {
  items : list (option A);
  front : nat;
  rear : nat;
  capacity : nat;
  closed : bool;
}.

(** [message_queue_init]; [malloc_ok] is the answer of [malloc]. *)
Definition message_queue_init (malloc_ok : bool) : option MessageQueue :=
  if malloc_ok then
    Some {| items := replicate 16 None; front := 0; rear := 0; capacity := 16; closed := false |}
  else None.

Definition cell (its : list (option A)) (i : nat) : option A := mjoin (its !! i).

(** The copy loop of the growth step, from [i] round to [rear]. *)
Fixpoint copy_items (fuel : nat) (its : list (option A)) (cap i rr : nat) : list (option A) :=
  if Nat.eqb i rr then []
  else match fuel with
       | 0 => []
       | S f => cell its i :: copy_items f its cap ((i + 1) mod cap) rr
       end.

Definition message_queue_close (q : MessageQueue) : MessageQueue :=
  {| items := items q; front := front q; rear := rear q; capacity := capacity q; closed := true |}.

(** [q->items[q->rear] = msg; q->rear = next_rear]. *)
Definition store_rear (q : MessageQueue) (msg : A) (next_rear : nat) : MessageQueue :=
  {| items := <[rear q := Some msg]> (items q); front := front q; rear := next_rear;
     capacity := capacity q; closed := closed q |}.

(** The queue after its cells moved to a block twice as large. *)
Definition grow (q : MessageQueue) : MessageQueue :=
  let new_cap := capacity q * 2 in
  let copied := copy_items (capacity q) (items q) (capacity q) (front q) (rear q) in
  let j := length copied in
  {| items := copied ++ replicate (new_cap - j) None; front := 0; rear := j;
     capacity := new_cap; closed := closed q |}.

Definition message_queue_send (malloc_ok : bool) (q : MessageQueue) (msg : A)
    : MessageQueue * send_outcome :=
  if closed q then (q, FreedClosed)
  else
    let next_rear := (rear q + 1) mod capacity q in
    if Nat.eqb next_rear (front q) then
      if malloc_ok then
        let q' := grow q in
        (store_rear q' msg ((rear q' + 1) mod capacity q'), Queued)
      else (q, FreedNoMem)
    else (store_rear q msg next_rear, Queued).

Definition pop_front (q : MessageQueue) : MessageQueue :=
  {| items := items q; front := (front q + 1) mod capacity q; rear := rear q;
     capacity := capacity q; closed := closed q |}.

Definition message_queue_receive (q : MessageQueue) : recv_result A * MessageQueue :=
  if Nat.eqb (front q) (rear q) then
    if closed q then (RecvNull, q) else (RecvWait, q)
  else
    match cell (items q) (front q) with
    | Some m => (RecvMsg m, pop_front q)
    | None => (RecvNull, pop_front q)
    end.

(** [timed_out]: this wait ended with [ETIMEDOUT]. *)
Definition message_queue_receive_timed (timeout_ms : Z) (timed_out : bool) (q : MessageQueue)
    : recv_result A * MessageQueue :=
  if (timeout_ms <=? 0)%Z then (RecvNull, q)
  else
    match message_queue_receive q with
    | (RecvWait, _) => if timed_out then (RecvNull, q) else (RecvWait, q)
    | r => r
    end.

(** The last loop of [message_queue_free], after consumers had their chance
    to drain: the messages it frees, in order. *)
Definition message_queue_free (q : MessageQueue) : list A * MessageQueue :=
  (omap id (copy_items (capacity q) (items q) (capacity q) (front q) (rear q)),
   {| items := []; front := 0; rear := 0; capacity := 0; closed := true |}).

(** *** Representation *)

Definition dist (cap f r : nat) : nat := (r + cap - f) mod cap.
Definition ring_at (its : list (option A)) (cap f n : nat) : list (option A) :=
  (fun k => cell its ((f + k) mod cap)) <$> seq 0 n.
Definition count (q : MessageQueue) : nat := dist (capacity q) (front q) (rear q).
Definition cells (q : MessageQueue) : list (option A) :=
  ring_at (items q) (capacity q) (front q) (count q).
(** The pending messages, oldest first. *)
Definition contents (q : MessageQueue) : list A := omap id (cells q).

Record queue_wf (q : MessageQueue) : Prop := {
  wf_len : length (items q) = capacity q;
  wf_front : front q < capacity q;
  wf_rear : rear q < capacity q;
  wf_cells : Forall is_Some (cells q);
}.

Definition abs (q : MessageQueue) : Fifo.fifo A := Fifo.mkFifo (contents q) (closed q).
End Queue.
Arguments MessageQueue : clear implicits.

Section QueueFacts.
Context {A : Type}.
Implicit Types (q : MessageQueue A) (m : A).

Lemma mod_wrap a cap : a < 2 * cap -> a mod cap = if decide (a < cap) then a else a - cap.
Proof.
  intros H. case_decide; [by apply Nat.mod_small|].
  replace a with ((a - cap) + 1 * cap) at 1 by lia.
  rewrite Nat.Div0.mod_add. apply Nat.mod_small. lia.
Qed.

Ltac mod_lia :=
  repeat (rewrite mod_wrap by (repeat case_decide; lia)); repeat case_decide; lia.

Lemma dist_lt cap f r : 0 < cap -> dist cap f r < cap.
Proof. intros. by apply Nat.mod_upper_bound; lia. Qed.

Lemma dist_0 cap f r : f < cap -> r < cap -> dist cap f r = 0 <-> f = r.
Proof. intros. unfold dist. rewrite mod_wrap by lia. case_decide; lia. Qed.

Lemma ring_at_S its cap f n :
  f < cap -> ring_at its cap f (S n) = cell its f :: @ring_at A its cap ((f + 1) mod cap) n.
Proof.
  intros Hf. unfold ring_at. cbn [seq fmap list_fmap]. f_equal.
  { rewrite Nat.add_0_r. by rewrite Nat.mod_small. }
  rewrite <-fmap_S_seq, <-list_fmap_compose. apply list_fmap_ext. intros i x Hx. cbn.
  f_equal. rewrite Nat.Div0.add_mod_idemp_l. f_equal. lia.
Qed.

Lemma ring_at_snoc its cap f n :
  ring_at its cap f (S n) = ring_at its cap f n ++ [@cell A its ((f + n) mod cap)].
Proof. unfold ring_at. rewrite seq_S, fmap_app. done. Qed.

Lemma copy_items_ring fuel its cap f r :
  f < cap -> r < cap -> dist cap f r <= fuel ->
  copy_items fuel its cap f r = @ring_at A its cap f (dist cap f r).
Proof.
  revert f. induction fuel as [|fuel IH]; intros f Hf Hr Hd; cbn [copy_items].
  - assert (dist cap f r = 0) as -> by lia. by case_match.
  - case_match eqn:E.
    + apply Nat.eqb_eq in E. subst. unfold dist. rewrite mod_wrap by lia.
      rewrite decide_False by lia. by replace (r + cap - r - cap) with 0 by lia.
    + apply Nat.eqb_neq in E.
      assert ((f + 1) mod cap < cap) by (apply Nat.mod_upper_bound; lia).
      assert (dist cap f r = S (dist cap ((f + 1) mod cap) r)) as Hs.
      { unfold dist. rewrite (mod_wrap (f + 1)) by lia. mod_lia. }
      rewrite Hs, ring_at_S by done. f_equal. apply IH; [done..|lia].
Qed.

Lemma copy_items_cells q : queue_wf q ->
  copy_items (capacity q) (items q) (capacity q) (front q) (rear q) = cells q.
Proof.
  intros [_ Hf Hr _]. apply copy_items_ring; [done..|].
  assert (dist (capacity q) (front q) (rear q) < capacity q); [|lia]. apply dist_lt. lia.
Qed.

Lemma cells_length q : length (cells q) = count q.
Proof. unfold cells, ring_at. by rewrite length_fmap, length_seq. Qed.

Lemma omap_id_some (l : list (option A)) : Forall is_Some l -> Some <$> omap id l = l.
Proof. induction 1 as [|x l [y ->] _ IH]; cbn; [done|]. by f_equal. Qed.

Lemma contents_cells q : queue_wf q -> cells q = Some <$> contents q.
Proof. intros [_ _ _ H]. unfold contents. by rewrite omap_id_some. Qed.

Lemma contents_length q : queue_wf q -> length (contents q) = count q.
Proof. intros H. rewrite <-cells_length, contents_cells, length_fmap by done. done. Qed.

(** Writing the cell at [rear] and advancing it appends one message. *)
Lemma store_rear_spec q m nr :
  queue_wf q -> nr = (rear q + 1) mod capacity q -> nr <> front q ->
  queue_wf (store_rear q m nr) /\ contents (store_rear q m nr) = contents q ++ [m].
Proof.
  intros Hwf Hnr Hne. pose proof Hwf as [Hl Hf Hr Hc].
  assert (nr < capacity q) by (subst nr; apply Nat.mod_upper_bound; lia).
  rewrite mod_wrap in Hnr by lia.
  assert (count (store_rear q m nr) = S (count q)) as Hcount.
  { unfold count, dist. cbn. mod_lia. }
  assert ((front q + count q) mod capacity q = rear q) as Hlast.
  { unfold count, dist. rewrite (mod_wrap (_ - _)) by lia. mod_lia. }
  assert (cells (store_rear q m nr) = cells q ++ [Some m]) as Hcells.
  { unfold cells. rewrite Hcount. cbn [items front capacity store_rear].
    rewrite ring_at_snoc, Hlast. unfold cell at 1.
    rewrite list_lookup_insert_eq by lia. f_equal.
    unfold ring_at. apply list_fmap_ext. intros i k Hk. apply lookup_seq in Hk as [-> Hk].
    unfold cell. rewrite list_lookup_insert_ne; [done|].
    unfold count, dist in Hk. rewrite (mod_wrap (_ - _)) in Hk by lia. mod_lia. }
  split.
  - split; cbn [items front rear capacity store_rear]; [by rewrite length_insert|done|done|].
    rewrite Hcells. apply Forall_app; split; [done|]. by repeat constructor.
  - unfold contents. rewrite Hcells. by rewrite omap_app.
Qed.

Lemma grow_spec q : queue_wf q ->
  queue_wf (grow q) /\ contents (grow q) = contents q /\
  (rear (grow q) + 1) mod capacity (grow q) <> front (grow q).
Proof.
  intros Hwf. pose proof Hwf as [Hl Hf Hr Hc].
  assert (Hj : length (cells q) < capacity q) by (rewrite cells_length; apply dist_lt; lia).
  assert (rear (grow q) = length (cells q)) as Hrear by (cbn; by rewrite copy_items_cells).
  assert (count (grow q) = length (cells q)) as Hcount.
  { unfold count, dist. rewrite Hrear. cbn [front capacity grow].
    rewrite Nat.sub_0_r, mod_wrap by lia. case_decide; lia. }
  assert (cells (grow q) = cells q) as Hcells.
  { unfold cells at 1. rewrite Hcount. cbn [items front capacity grow].
    rewrite copy_items_cells by done. apply list_eq. intros i. unfold ring_at.
    rewrite list_lookup_fmap. destruct (decide (i < length (cells q))) as [Hi|Hi].
    - rewrite lookup_seq_lt by done. cbn. rewrite Nat.mod_small by lia. unfold cell.
      rewrite lookup_app_l by done.
      destruct (lookup_lt_is_Some_2 (cells q) i Hi) as [x Hx]. rewrite Hx. done.
    - rewrite lookup_seq_ge by lia. cbn. symmetry. apply lookup_ge_None. lia. }
  split_and!.
  - split.
    + cbn. rewrite copy_items_cells, length_app, length_replicate by done. lia.
    + cbn. lia.
    + rewrite Hrear. cbn. lia.
    + by rewrite Hcells.
  - unfold contents. by rewrite Hcells.
  - rewrite Hrear. cbn [capacity front grow]. rewrite Nat.mod_small; lia.
Qed.

Lemma pop_front_spec q : queue_wf q -> front q <> rear q ->
  exists m, cell (items q) (front q) = Some m /\
  queue_wf (pop_front q) /\ contents q = m :: contents (pop_front q).
Proof.
  intros Hwf Hne. pose proof Hwf as [Hl Hf Hr Hc].
  assert (count q = S (count (pop_front q))) as Hcount.
  { unfold count, dist. cbn. rewrite (mod_wrap (front q + 1)) by lia. mod_lia. }
  assert (cells q = cell (items q) (front q) :: cells (pop_front q)) as Hcells.
  { unfold cells. rewrite Hcount. by rewrite ring_at_S. }
  rewrite Hcells in Hc. apply Forall_cons in Hc as [[m Hm] Hc].
  exists m. split_and!; [done| |].
  - split; cbn; [done|apply Nat.mod_upper_bound; lia|done|done].
  - unfold contents. by rewrite Hcells, Hm.
Qed.

Lemma empty_contents q : queue_wf q -> front q = rear q <-> contents q = [].
Proof.
  intros Hwf. pose proof Hwf as [_ Hf Hr _].
  rewrite <-(dist_0 (capacity q)) by done. fold (count q).
  rewrite <-contents_length by done. split; [apply nil_length_inv|by intros ->].
Qed.

(** *** The four operations *)

Lemma message_queue_init_spec q : message_queue_init true = Some q ->
  queue_wf q /\ abs q = Fifo.empty.
Proof. intros [= <-]. split; [|done]. split; cbn; [done|lia|lia|constructor]. Qed.

Lemma message_queue_send_spec ok q m q' o :
  queue_wf q -> message_queue_send ok q m = (q', o) ->
  queue_wf q' /\
  match o with
  | Queued => closed q = false /\ closed q' = false /\ contents q' = contents q ++ [m]
  | FreedClosed => closed q = true /\ q' = q
  | FreedNoMem => ok = false /\ q' = q
  end.
Proof.
  intros Hwf. unfold message_queue_send. destruct (closed q) eqn:Hcl; [by intros [= <- <-]|].
  case_match eqn:E.
  - destruct ok; [|by intros [= <- <-]]. intros [= <- <-].
    destruct (grow_spec q Hwf) as (G1 & G2 & G3).
    destruct (store_rear_spec (grow q) m _ G1 eq_refl G3) as [S1 S2].
    split; [done|]. split_and!; [reflexivity|exact Hcl|].
    etransitivity; [exact S2|by rewrite G2].
  - apply Nat.eqb_neq in E. intros [= <- <-].
    destruct (store_rear_spec q m _ Hwf eq_refl E) as [S1 S2]. done.
Qed.

Lemma message_queue_receive_spec q r q' :
  queue_wf q -> message_queue_receive q = (r, q') ->
  queue_wf q' /\ closed q' = closed q /\
  match r with
  | RecvWait => contents q = [] /\ closed q = false /\ q' = q
  | RecvNull => contents q = [] /\ closed q = true /\ q' = q
  | RecvMsg m => contents q = m :: contents q'
  end.
Proof.
  intros Hwf. unfold message_queue_receive. case_match eqn:E.
  - apply Nat.eqb_eq in E. apply (proj1 (empty_contents q Hwf)) in E.
    destruct (closed q) eqn:Hcl; by intros [= <- <-].
  - apply Nat.eqb_neq in E. destruct (pop_front_spec q Hwf E) as (m & Hm & Hw & Hc).
    rewrite Hm. by intros [= <- <-].
Qed.

Lemma message_queue_close_spec q : queue_wf q ->
  queue_wf (message_queue_close q) /\ contents (message_queue_close q) = contents q.
Proof. intros [H1 H2 H3 H4]. by split. Qed.

Lemma message_queue_free_spec q : queue_wf q -> fst (message_queue_free q) = contents q.
Proof. intros Hwf. cbn. by rewrite copy_items_cells. Qed.
End QueueFacts.

#[export] Hint Resolve message_queue_close_spec : primagen.

(** ** Refinement: the ring buffer implements the abstract queue *)

(** C2: [message_queue_init] gives a well-formed queue that stands for the
    empty open FIFO, and on every well-formed queue [message_queue_send],
    [message_queue_receive] and [message_queue_close] behave as the abstract
    closable FIFO does, growth and wrap-around included, as long as [malloc]
    answers; a send that finds no memory leaves the queue unchanged, and
    [message_queue_free] frees the messages that are still pending. *)
Theorem message_queue_refines_fifo {A} (q : MessageQueue A) (m : A) :
  (exists q0, @message_queue_init A true = Some q0 /\ queue_wf q0 /\ abs q0 = Fifo.empty) /\
  (queue_wf q ->
  (let '(q', o) := message_queue_send true q m in
   queue_wf q' /\ Fifo.send (abs q) m = (abs q', bool_decide (o = Queued))) /\
  (let '(r, q') := message_queue_receive q in
   queue_wf q' /\
   Fifo.receive (abs q) =
     match r with
     | RecvWait => None
     | RecvNull => Some (None, abs q')
     | RecvMsg x => Some (Some x, abs q')
     end) /\
  (queue_wf (message_queue_close q) /\ abs (message_queue_close q) = Fifo.close (abs q)) /\
  (closed q = false -> fst (message_queue_send false q m) = q \/
     abs (fst (message_queue_send false q m)) = fst (Fifo.send (abs q) m)) /\
  fst (message_queue_free q) = Fifo.pending (abs q)).
Proof.
  split; [eexists; split; [done|by apply message_queue_init_spec]|].
  intros Hwf. split_and!; [| | | | |by apply message_queue_free_spec].
  - destruct (message_queue_send true q m) as [q' o] eqn:E.
    destruct (message_queue_send_spec _ _ _ _ _ Hwf E) as [Hw Ho]. split; [done|].
    unfold abs, Fifo.send. cbn. destruct o.
    + by destruct Ho as (-> & -> & ->).
    + destruct Ho as [Hc ->]. by rewrite Hc.
    + by destruct Ho.
  - destruct (message_queue_receive q) as [r q'] eqn:E.
    destruct (message_queue_receive_spec _ _ _ Hwf E) as (Hw & Hcl & Hr). split; [done|].
    unfold abs, Fifo.receive. cbn. destruct r.
    + destruct Hr as (-> & -> & _). done.
    + destruct Hr as (Hn & Hc & ->). by rewrite Hn, Hc.
    + by rewrite Hr, Hcl.
  - by apply message_queue_close_spec.
  - unfold abs. destruct (message_queue_close_spec q Hwf) as [_ ->]. done.
  - intros Hcl. destruct (message_queue_send false q m) as [q' o] eqn:E.
    destruct (message_queue_send_spec _ _ _ _ _ Hwf E) as [Hw Ho]. cbn.
    destruct o; [|by left; destruct Ho..]. right. destruct Ho as (H1 & H2 & H3).
    unfold abs, Fifo.send. cbn. by rewrite H1, H2, H3.
Qed.

Lemma queue_wf_initial {A} : @queue_wf A (mkQueue (replicate 16 None) 0 0 16 false).
Proof. apply (message_queue_init_spec _ eq_refl). Qed.

Lemma message_queue_refines_fifo_witness :
  (exists q0, @message_queue_init nat true = Some q0 /\ queue_wf q0 /\ abs q0 = Fifo.empty) /\
  @queue_wf nat (mkQueue (replicate 16 None) 0 0 16 false) /\
  Fifo.send (abs (mkQueue (replicate 16 None) 0 0 16 false)) 7 =
    (Fifo.mkFifo [7] false, true).
Proof.
  destruct (message_queue_refines_fifo (mkQueue (replicate 16 None) 0 0 16 false) 7) as [Hi Hq].
  split_and!; [exact Hi|exact queue_wf_initial|].
  exact (proj2 (proj1 (Hq queue_wf_initial))).
Defined.

(** ** Producers and consumers as an interleaving of critical sections *)

Section Trace.
Context {A : Type}.

(** The queue with the history of messages it accepted and delivered. *)
Record history := mkHistory {
  h_queue : MessageQueue A;
  h_accepted : list A;
  h_delivered : list A;
}.

(** One critical section of any thread. *)
Inductive bus_step : history -> history -> Prop :=
  | step_send q acc del m ok q' o :
      message_queue_send ok q m = (q', o) ->
      bus_step (mkHistory q acc del)
        (mkHistory q' (if decide (o = Queued) then acc ++ [m] else acc) del)
  | step_receive q acc del r q' :
      message_queue_receive q = (r, q') ->
      bus_step (mkHistory q acc del)
        (mkHistory q' acc (match r with RecvMsg m => del ++ [m] | _ => del end))
  | step_receive_timed q acc del ms tmo r q' :
      message_queue_receive_timed ms tmo q = (r, q') ->
      bus_step (mkHistory q acc del)
        (mkHistory q' acc (match r with RecvMsg m => del ++ [m] | _ => del end))
  | step_close q acc del :
      bus_step (mkHistory q acc del) (mkHistory (message_queue_close q) acc del).

Definition history_ok (h : history) : Prop :=
  queue_wf (h_queue h) /\ h_accepted h = h_delivered h ++ contents (h_queue h).
End Trace.
Arguments history : clear implicits.

Lemma receive_timed_inv {A} ms tmo (q : MessageQueue A) r q' :
  message_queue_receive_timed ms tmo q = (r, q') ->
  message_queue_receive q = (r, q') \/
  (q' = q /\ (r = RecvNull \/ r = RecvWait)).
Proof.
  unfold message_queue_receive_timed. case_match; [intros [= <- <-]; auto|].
  destruct (message_queue_receive q) as [[| |m] q1] eqn:E; [|by left..].
  case_match; intros [= <- <-]; auto.
Qed.

Lemma bus_step_ok {A} (h h' : history A) : history_ok h -> bus_step h h' -> history_ok h'.
Proof.
  intros [Hwf Hacc] Hstep. inversion Hstep as [q acc del m ok q' o E|q acc del r q' E
    |q acc del ms tmo r q' E|q acc del]; subst; cbn in *.
  - destruct (message_queue_send_spec _ _ _ _ _ Hwf E) as [Hw Ho]. split; [done|]. cbn.
    destruct o; case_decide; try done.
    + destruct Ho as (_ & _ & ->). by rewrite Hacc, app_assoc.
    + destruct Ho as [_ ->]. exact Hacc.
    + destruct Ho as [_ ->]. exact Hacc.
  - destruct (message_queue_receive_spec _ _ _ Hwf E) as (Hw & _ & Hr). split; [done|]. cbn.
    destruct r; [by destruct Hr as (_ & _ & ->)..|]. by rewrite Hacc, Hr, <-app_assoc.
  - apply receive_timed_inv in E as [E|(-> & [-> | ->])]; [|done..].
    destruct (message_queue_receive_spec _ _ _ Hwf E) as (Hw & _ & Hr). split; [done|]. cbn.
    destruct r; [by destruct Hr as (_ & _ & ->)..|]. by rewrite Hacc, Hr, <-app_assoc.
  - destruct (message_queue_close_spec q Hwf) as [H1 H2]. split; [done|]. cbn. by rewrite H2.
Qed.

(** Under every interleaving of senders, receivers (timed or not) and
    closers, the messages delivered are exactly the accepted ones in order of
    acceptance, with the undelivered rest still in the queue: nothing is lost,
    duplicated or reordered. *)
Theorem bus_delivers_in_order {A} (q0 : MessageQueue A) (h : history A) :
  message_queue_init true = Some q0 -> rtc bus_step (mkHistory q0 [] []) h ->
  h_accepted h = h_delivered h ++ contents (h_queue h).
Proof.
  intros Hi Hr. apply (rtc_invariant bus_step history_ok _ _ bus_step_ok) in Hr; [apply Hr|].
  destruct (message_queue_init_spec q0 Hi) as [Hw Ha]. split; [done|].
  injection Ha as Hc _. cbn. by rewrite Hc.
Qed.

(** ** The bus *)

Record MessageBus := mkBus {
  inbound : MessageQueue InboundMessage;
  outbound : MessageQueue OutboundMessage;
  internal : MessageQueue InternalEvent;
}.

(** [message_bus_new]: the allocation of the bus and of each queue may fail. *)
Definition message_bus_new (bus_ok in_ok out_ok int_ok : bool) : option MessageBus :=
  if bus_ok then
    i ← message_queue_init in_ok;
    o ← message_queue_init out_ok;
    n ← message_queue_init int_ok;
    Some {| inbound := i; outbound := o; internal := n |}
  else None.

Definition message_bus_close (bus : option MessageBus) : option MessageBus :=
  b ← bus;
  Some {| inbound := message_queue_close (inbound b); outbound := message_queue_close (outbound b);
          internal := message_queue_close (internal b) |}.

(** What [message_bus_free] frees, queue by queue. *)
Definition message_bus_free (bus : option MessageBus)
    : list InboundMessage * list OutboundMessage * list InternalEvent :=
  match bus with
  | None => ([], [], [])
  | Some b => (fst (message_queue_free (inbound b)), fst (message_queue_free (outbound b)),
               fst (message_queue_free (internal b)))
  end.

Definition set_inbound (b : MessageBus) q := mkBus q (outbound b) (internal b).
Definition set_outbound (b : MessageBus) q := mkBus (inbound b) q (internal b).
Definition set_internal (b : MessageBus) q := mkBus (inbound b) (outbound b) q.

Section BusOps.
Context (malloc_ok : bool).

Definition message_bus_send_inbound (bus : option MessageBus) (msg : InboundMessage) : option MessageBus :=
  b ← bus; Some (set_inbound b (fst (message_queue_send malloc_ok (inbound b) msg))).
Definition message_bus_send_outbound (bus : option MessageBus) (msg : OutboundMessage) : option MessageBus :=
  b ← bus; Some (set_outbound b (fst (message_queue_send malloc_ok (outbound b) msg))).
Definition message_bus_send_internal (bus : option MessageBus) (event : option InternalEvent) : option MessageBus :=
  b ← bus;
  match event with
  | None => Some b
  | Some e => Some (set_internal b (fst (message_queue_send malloc_ok (internal b) e)))
  end.
End BusOps.

Definition message_bus_receive_inbound (bus : option MessageBus) : recv_result InboundMessage * option MessageBus :=
  match bus with
  | None => (RecvNull, None)
  | Some b => let '(r, q) := message_queue_receive (inbound b) in (r, Some (set_inbound b q))
  end.
Definition message_bus_receive_inbound_timed (timeout_ms : Z) (tmo : bool) (bus : option MessageBus)
    : recv_result InboundMessage * option MessageBus :=
  match bus with
  | None => (RecvNull, None)
  | Some b => let '(r, q) := message_queue_receive_timed timeout_ms tmo (inbound b) in (r, Some (set_inbound b q))
  end.
Definition message_bus_receive_outbound (bus : option MessageBus) : recv_result OutboundMessage * option MessageBus :=
  match bus with
  | None => (RecvNull, None)
  | Some b => let '(r, q) := message_queue_receive (outbound b) in (r, Some (set_outbound b q))
  end.
Definition message_bus_receive_outbound_timed (timeout_ms : Z) (tmo : bool) (bus : option MessageBus)
    : recv_result OutboundMessage * option MessageBus :=
  match bus with
  | None => (RecvNull, None)
  | Some b => let '(r, q) := message_queue_receive_timed timeout_ms tmo (outbound b) in (r, Some (set_outbound b q))
  end.
Definition message_bus_receive_internal_timed (timeout_ms : Z) (tmo : bool) (bus : option MessageBus)
    : recv_result InternalEvent * option MessageBus :=
  match bus with
  | None => (RecvNull, None)
  | Some b => let '(r, q) := message_queue_receive_timed timeout_ms tmo (internal b) in (r, Some (set_internal b q))
  end.
Definition message_bus_is_outbound_closed (bus : option MessageBus) : bool :=
  match bus with None => true | Some b => closed (outbound b) end.

(** The absolute deadline of a timed wait: seconds and nanoseconds. *)
Definition timed_deadline (now_sec now_nsec timeout_ms : Z) : Z * Z :=
  let sec := (now_sec + Z.quot timeout_ms 1000)%Z in
  let nsec := (now_nsec + Z.rem timeout_ms 1000 * 1000000)%Z in
  if (1000000000 <=? nsec)%Z then (sec + 1, nsec - 1000000000)%Z else (sec, nsec).

Definition bus_wf (b : MessageBus) : Prop :=
  queue_wf (inbound b) /\ queue_wf (outbound b) /\ queue_wf (internal b).

Lemma message_bus_new_wf b : message_bus_new true true true true = Some b ->
  bus_wf b /\ contents (inbound b) = [] /\ contents (outbound b) = [] /\ contents (internal b) = [].
Proof.
  intros [= <-]. unfold bus_wf. cbn [inbound outbound internal].
  split_and!; [apply queue_wf_initial..|done|done|done].
Qed.

(** The deadline of a timed receive is [timeout_ms] milliseconds after the
    clock reading, normalised to less than a second of nanoseconds. *)
Theorem timed_deadline_correct s n ms :
  (0 <= n < 1000000000)%Z -> (0 < ms)%Z ->
  let '(s', n') := timed_deadline s n ms in
  (s' * 1000000000 + n' = s * 1000000000 + n + ms * 1000000)%Z /\ (0 <= n' < 1000000000)%Z.
Proof.
  intros Hn Hms. unfold timed_deadline.
  rewrite Z.quot_div_nonneg, Z.rem_mod_nonneg by lia.
  pose proof (Z.div_mod ms 1000). pose proof (Z.mod_pos_bound ms 1000).
  destruct (1000000000 <=? _)%Z eqn:E; [apply Z.leb_le in E|apply Z.leb_gt in E]; lia.
Qed.

(** Sending on an open, well-formed outbound queue appends the message. *)
Lemma send_outbound_contents b m : bus_wf b -> closed (outbound b) = false ->
  exists b', message_bus_send_outbound true (Some b) m = Some b' /\ bus_wf b' /\
    contents (outbound b') = contents (outbound b) ++ [m] /\ closed (outbound b') = false /\
    inbound b' = inbound b /\ internal b' = internal b.
Proof.
  intros (Hi & Ho & Hn) Hcl. eexists. split; [reflexivity|]. unfold bus_wf. cbn.
  destruct (message_queue_send true (outbound b) m) as [q' o] eqn:E.
  destruct (message_queue_send_spec _ _ _ _ _ Ho E) as [Hw Hc]. cbn.
  destruct o; destruct Hc as (? & ?); intuition congruence.
Qed.

Lemma send_internal_contents b e : bus_wf b -> closed (internal b) = false ->
  exists b', message_bus_send_internal true (Some b) (Some e) = Some b' /\ bus_wf b' /\
    contents (internal b') = contents (internal b) ++ [e] /\ closed (internal b') = false /\
    inbound b' = inbound b /\ outbound b' = outbound b.
Proof.
  intros (Hi & Ho & Hn) Hcl. eexists. split; [reflexivity|]. unfold bus_wf. cbn.
  destruct (message_queue_send true (internal b) e) as [q' o] eqn:E.
  destruct (message_queue_send_spec _ _ _ _ _ Hn E) as [Hw Hc]. cbn.
  destruct o; destruct Hc as (? & ?); intuition congruence.
Qed.

(** After [message_bus_close], no receiver ever waits again, no send is
    accepted, and every message pending at the close is still delivered, in
    order, before the receivers see NULL. *)
Theorem message_bus_close_drains b b' :
  bus_wf b -> message_bus_close (Some b) = Some b' ->
  bus_wf b' /\ message_bus_is_outbound_closed (Some b') = true /\
  contents (inbound b') = contents (inbound b) /\
  contents (outbound b') = contents (outbound b) /\
  contents (internal b') = contents (internal b) /\
  (forall m, message_bus_send_outbound true (Some b') m = Some b') /\
  (forall r bus, message_bus_receive_outbound (Some b') = (r, bus) ->
     match contents (outbound b') with
     | [] => r = RecvNull
     | m :: rest => r = RecvMsg m /\
         exists b2, bus = Some b2 /\ contents (outbound b2) = rest /\ closed (outbound b2) = true
     end).
Proof.
  intros (Hi & Ho & Hn) [= <-]. unfold bus_wf. cbn [inbound outbound internal].
  destruct (message_queue_close_spec _ Hi) as [Hi1 Hi2].
  destruct (message_queue_close_spec _ Ho) as [Ho1 Ho2].
  destruct (message_queue_close_spec _ Hn) as [Hn1 Hn2].
  split_and!; [done..| |].
  - intros m. cbn. by unfold message_queue_send.
  - intros r bus. cbn.
    destruct (message_queue_receive (message_queue_close (outbound b))) as [r1 q1] eqn:E.
    intros [= <- <-]. destruct (message_queue_receive_spec _ _ _ Ho1 E) as (_ & Hc & Hr).
    destruct r1 as [| |m].
    + by destruct Hr as (_ & [=] & _).
    + by destruct Hr as (-> & _).
    + rewrite Hr. split; [done|]. by eexists.
Qed.

Definition demo_first : MessageQueue nat := default (mkQueue [] 0 0 0 true) (message_queue_init true).
Definition demo_sent : MessageQueue nat := fst (message_queue_send true demo_first 7).
Definition demo_received : MessageQueue nat := snd (message_queue_receive demo_sent).

Lemma bus_delivers_in_order_witness : [7] = [7] ++ contents demo_received.
Proof.
  apply (bus_delivers_in_order demo_first (mkHistory demo_received [7] [7]) eq_refl).
  eapply rtc_l; [apply (step_send demo_first [] [] 7 true demo_sent Queued); by vm_compute|].
  eapply rtc_l; [apply (step_receive demo_sent _ _ (RecvMsg 7) demo_received); by vm_compute|apply rtc_refl].
Defined.

Lemma timed_deadline_correct_witness :
  let '(s', n') := timed_deadline 10 999000000 1500 in
  (s' * 1000000000 + n' = 10 * 1000000000 + 999000000 + 1500 * 1000000)%Z /\ (0 <= n' < 1000000000)%Z.
Proof. apply (timed_deadline_correct 10 999000000 1500); lia. Defined.

Definition demo_bus : MessageBus :=
  default (mkBus (mkQueue [] 0 0 0 true) (mkQueue [] 0 0 0 true) (mkQueue [] 0 0 0 true))
    (message_bus_send_outbound true (message_bus_new true true true true) (outbound_message_new None None None)).

Lemma demo_bus_wf : bus_wf demo_bus.
Proof.
  destruct (message_bus_new_wf _ eq_refl) as (Hw & _).
  destruct (send_outbound_contents _ (outbound_message_new None None None) Hw eq_refl) as (b' & E & Hb & _).
  assert (demo_bus = b') as ->; [|exact Hb]. vm_compute in E. injection E as <-. by vm_compute.
Qed.

Lemma message_bus_close_drains_witness :
  exists b', message_bus_close (Some demo_bus) = Some b' /\ bus_wf b' /\ message_bus_is_outbound_closed (Some b') = true /\
  contents (inbound b') = contents (inbound demo_bus) /\
  contents (outbound b') = contents (outbound demo_bus) /\
  contents (internal b') = contents (internal demo_bus) /\
  (forall m, message_bus_send_outbound true (Some b') m = Some b') /\
  (forall r bus, message_bus_receive_outbound (Some b') = (r, bus) ->
     match contents (outbound b') with
     | [] => r = RecvNull
     | m :: rest => r = RecvMsg m /\
         exists b2, bus = Some b2 /\ contents (outbound b2) = rest /\ closed (outbound b2) = true
     end).
Proof.
  eexists. split; [reflexivity|]. exact (message_bus_close_drains demo_bus _ demo_bus_wf eq_refl).
Defined.
