(* ===== verification/Fs.v ===== *)
(** The file operations of the C library the program relies on: whole-file
    contents by path, [fopen] modes, [rename], [unlink], [fgets]. Whether the
    operating system grants an operation is an oracle of the state. *)
From S2P Require Import Prelude CStr.

Record Fs := mkFs {
  fs_files : gmap cstr cstr;
  fs_writable : cstr -> bool;
  fs_rename_ok : cstr -> cstr -> bool;
}.

Definition fs_set (fs : Fs) (f : gmap cstr cstr) : Fs := mkFs f (fs_writable fs) (fs_rename_ok fs).

(** [fopen(path, "r")] and reading to the end. *)
Definition fs_read (fs : Fs) (path : cstr) : option cstr := fs_files fs !! path.

(** [stat(path) == 0 && S_ISREG]: regular files are the only entries. *)
Definition fs_exists (fs : Fs) (path : cstr) : bool := bool_decide (is_Some (fs_files fs !! path)).

(** [fopen(path, "w")], the text written, [fclose]. *)
Definition fs_write (fs : Fs) (path text : cstr) : option Fs :=
  if fs_writable fs path then Some (fs_set fs (<[path := text]> (fs_files fs))) else None.

(** [fopen(path, "a")], the text appended, [fclose]. *)
Definition fs_append (fs : Fs) (path text : cstr) : option Fs :=
  if fs_writable fs path
  then Some (fs_set fs (<[path := default [] (fs_files fs !! path) ++ text]> (fs_files fs)))
  else None.

Definition fs_unlink (fs : Fs) (path : cstr) : Fs := fs_set fs (delete path (fs_files fs)).

(** [rename(from, to)]: replaces [to]. *)
Definition fs_rename (fs : Fs) (from to : cstr) : option Fs :=
  if fs_rename_ok fs from to
  then t ← fs_files fs !! from; Some (fs_set fs (<[to := t]> (delete from (fs_files fs))))
  else None.

(** The strings successive calls of [fgets(line, size, f)] return: at most
    [size - 1] bytes, ending after a newline. [room] bytes still fit. *)
Fixpoint fgets_from (size room : nat) (cur : cstr) (s : cstr) : list cstr :=
  match s with
  | [] => if cur is [] then [] else [rev cur]
  | c :: s' =>
      if bool_decide (c = ch_nl) || Nat.leb room 1
      then rev (c :: cur) :: fgets_from size (size - 1) [] s'
      else fgets_from size (room - 1) (c :: cur) s'
  end.
Definition fgets_lines (size : nat) (s : cstr) : list cstr := fgets_from size (size - 1) [] s.

Lemma fgets_from_line size room cur l r :
  ch_nl ∉ l -> length l < room ->
  fgets_from size room cur (l ++ ch_nl :: r) = (rev cur ++ l ++ [ch_nl]) :: fgets_lines size r.
Proof.
  revert room cur. induction l as [|c l IH]; intros room cur Hnl Hlen; cbn [app fgets_from].
  - by rewrite bool_decide_true by done.
  - apply not_elem_of_cons in Hnl as [Hc Hl]. cbn [length] in Hlen.
    rewrite bool_decide_false by congruence. cbn [orb].
    destruct (Nat.leb_spec room 1); [lia|]. rewrite IH by (done || lia).
    cbn [rev]. by rewrite <-app_assoc.
Qed.

(** A line that fits the buffer is returned whole. *)
Lemma fgets_lines_line size l r : (ch_nl ∉ l) -> length l + 2 <= size ->
  fgets_lines size (l ++ ch_nl :: r) = (l ++ [ch_nl]) :: fgets_lines size r.
Proof. intros. unfold fgets_lines at 1. rewrite fgets_from_line by (done || lia). done. Qed.

Lemma fgets_lines_lines size ls : Forall (fun l => (ch_nl ∉ l) /\ length l + 2 <= size) ls ->
  fgets_lines size (ls ≫= fun l => l ++ [ch_nl]) = (fun l => l ++ [ch_nl]) <$> ls.
Proof.
  induction 1 as [|l ls [Hl Hs] Hls IH]; [done|]. cbn [mbind list_bind fmap list_fmap].
  rewrite <-app_assoc. cbn [app]. rewrite fgets_lines_line by done. f_equal. exact IH.
Qed.

(** No byte is lost: the pieces put together are the file. *)
Lemma fgets_from_concat size room cur s : concat (fgets_from size room cur s) = rev cur ++ s.
Proof.
  revert room cur. induction s as [|c s IH]; intros room cur; cbn [fgets_from].
  - destruct cur; cbn; by rewrite ?app_nil_r.
  - case_match; [|rewrite IH; cbn [rev]; by rewrite <-app_assoc].
    cbn [concat]. rewrite IH. cbn [rev app]. by rewrite <-app_assoc.
Qed.
