(* ===== verification/Logger.v ===== *)
(** [src/common/logger.c]: the log: levels, the lines of the log file and of
    the terminal, and the rotation of the file. Every call holds [log_mutex],
    so it is one step; the time stamp is an argument, and a message is the
    text [vsnprintf] made of it. *)
From S2P Require Import Prelude CStr Fs.

Inductive LogLevel := LOG_LEVEL_DEBUG | LOG_LEVEL_INFO | LOG_LEVEL_WARN | LOG_LEVEL_ERROR.
Definition level_value (l : LogLevel) : Z :=
  match l with LOG_LEVEL_DEBUG => 0 | LOG_LEVEL_INFO => 1 | LOG_LEVEL_WARN => 2 | LOG_LEVEL_ERROR => 3 end.

(** The static variables; [lo_open]: [log_file] is not NULL. *)
Record Logger := mkLogger {
  lo_open : bool;
  lo_level : LogLevel;
  lo_console : bool;
  lo_path : cstr;
  lo_max_bytes : Z;
  lo_max_files : nat;
}.
Definition logger_initial : Logger := mkLogger false LOG_LEVEL_INFO true [] (10 * 1024 * 1024) 3.
Definition set_open (b : bool) (g : Logger) : Logger := mkLogger b (lo_level g) (lo_console g) (lo_path g) (lo_max_bytes g) (lo_max_files g).

Definition should_keep_channel_info (message : cstr) : bool :=
  existsb (fun p => bool_decide (is_Some (strstr message p)))
    [$"[DingTalk] Message from "; $"[DingTalk] Reply content: "; $"[Feishu] Received from "; $"[Feishu] Reply content: "].

Definition should_demote_channel_info (message : cstr) : bool :=
  existsb (fun p => starts_with p message)
    [$"[DingTalk]"; $"[Feishu]"; $"[DingTalkChannel]"; $"[FeishuChannel]"; $"[Plugin:dingtalk_channel]"; $"[Plugin:feishu_channel]"].

Definition get_level_int (level : cstr) : LogLevel :=
  if str_eq level $"DEBUG" then LOG_LEVEL_DEBUG
  else if str_eq level $"INFO" then LOG_LEVEL_INFO
  else if str_eq level $"WARN" then LOG_LEVEL_WARN
  else if str_eq level $"ERROR" then LOG_LEVEL_ERROR
  else LOG_LEVEL_INFO.

(** ** The file *)

Definition file_size (fs : Fs) (path : cstr) : Z := Z.of_nat (length (default [] (fs_files fs !! path))).

(** [fprintf] on the open file. *)
Definition file_put (fs : Fs) (path text : cstr) : Fs := fs_set fs (<[path := default [] (fs_files fs !! path) ++ text]> (fs_files fs)).

(** [rename] whose result is not looked at. *)
Definition try_rename (from to : cstr) (fs : Fs) : Fs := default fs (fs_rename fs from to).

Definition rotated_name (path : cstr) (i : nat) : cstr := truncate_to 1200 (path ++ $"." ++ fmt_zu i).

(** The loop over [i], from [log_max_files - 1] down to 1. *)
Fixpoint shift_files (path : cstr) (i : nat) (fs : Fs) : Fs :=
  match i with
  | 0 => fs
  | S i' => shift_files path i' (try_rename (rotated_name path i) (rotated_name path (S i)) fs)
  end.

Definition rotate_logs_if_needed_unlocked (g : Logger) (fs : Fs) : Logger * Fs :=
  if negb (lo_open g) || bool_decide (lo_path g = []) then (g, fs)
  else if (file_size fs (lo_path g) <? lo_max_bytes g)%Z then (g, fs)
  else
    let fs1 := try_rename (lo_path g) (rotated_name (lo_path g) 1) (shift_files (lo_path g) (lo_max_files g - 1) fs) in
    match fs_append fs1 (lo_path g) [] with
    | Some fs2 => (g, fs2)
    | None => (set_open false g, fs1)
    end.

(** ** A message *)

(** [__FILE__], [__LINE__] and [__func__] of a call that gives them. *)
Record Location := mkLocation { lc_file : cstr; lc_line : Z; lc_func : option cstr }.

Definition file_name (file : cstr) : cstr := match strrchr file "/"%char with Some i => drop (i + 1) file | None => file end.

Definition log_line (timestamp level : cstr) (loc : option Location) (message : cstr) : cstr :=
  $"[" ++ timestamp ++ $"] [" ++ level ++ $"] " ++
  match loc with
  | Some l => if (0 <? lc_line l)%Z
              then $"[" ++ file_name (lc_file l) ++ $":" ++ fmt_d (lc_line l) ++ $" " ++ default $"?" (lc_func l) ++ $"] " else []
  | None => []
  end ++ message ++ [ch_nl].

(** The trailing newline is cut. *)
Definition strip_newline (message : cstr) : cstr :=
  match last message with Some c => if Ascii.eqb c ch_nl then removelast message else message | None => message end.

Definition effective_level (msg_level : LogLevel) (message : cstr) : LogLevel :=
  match msg_level with
  | LOG_LEVEL_INFO => if should_demote_channel_info message && negb (should_keep_channel_info message) then LOG_LEVEL_DEBUG else LOG_LEVEL_INFO
  | l => l
  end.

(** What goes to the terminal: the text, and whether it is the error stream. *)
Abbreviation console_output := (list (bool * cstr)).

(** The line is written to the file after the rotation without asking again
    whether there is one: [None] is the use of a NULL stream. *)
Definition write_file (line : cstr) (g : Logger) (fs : Fs) : option (Logger * Fs) :=
  if negb (lo_open g) then Some (g, fs)
  else
    let '(g1, fs1) := rotate_logs_if_needed_unlocked g fs in
    if lo_open g1 then Some (g1, file_put fs1 (lo_path g1) line) else None.

(** The level printed is the string of the call, unless it was demoted. [ok]:
    the message could be formatted and allocated. *)
Definition log_v_with_loc (ok : bool) (timestamp level message : cstr) (loc : option Location) (g : Logger) (fs : Fs)
    : option (Logger * Fs * console_output) :=
  if negb ok then Some (g, fs, []) else
  let message := strip_newline message in
  let eff := effective_level (get_level_int level) message in
  let name := match get_level_int level, eff with LOG_LEVEL_INFO, LOG_LEVEL_DEBUG => $"DEBUG" | _, _ => level end in
  if (level_value eff <? level_value (lo_level g))%Z then Some (g, fs, [])
  else
    let line := log_line timestamp name loc message in
    let out := if lo_console g then [((3 <=? level_value eff)%Z, line)] else [] in
    '(g1, fs1) ← write_file line g fs; Some (g1, fs1, out).

Definition log_v (ok : bool) (timestamp level message : cstr) := log_v_with_loc ok timestamp level message None.
Definition log_info (timestamp message : cstr) := log_v true timestamp $"INFO" message.
Definition log_warn (timestamp message : cstr) := log_v true timestamp $"WARN" message.
Definition log_error (timestamp message : cstr) := log_v true timestamp $"ERROR" message.
Definition log_debug (timestamp message : cstr) := log_v true timestamp $"DEBUG" message.

(** [errno] and its text are those of the moment the line is put together. The
    level of the log is not asked, and the file gets no time stamp. *)
Definition log_error_errno (ok : bool) (errno : Z) (errno_msg message : cstr) (g : Logger) (fs : Fs) : option (Logger * Fs * console_output) :=
  if negb ok then Some (g, fs, []) else
  let line := $"[ERROR] " ++ message ++ truncate_to 276 ($" [errno=" ++ fmt_d errno ++ $": " ++ truncate_to 256 errno_msg ++ $"]") ++ [ch_nl] in
  let out := if lo_console g then [(true, line)] else [] in
  '(g1, fs1) ← write_file line g fs; Some (g1, fs1, out).

Definition log_info_loc_impl (timestamp : cstr) (loc : Location) (message : cstr) := log_v_with_loc true timestamp $"INFO" message (Some loc).
Definition log_warn_loc_impl (timestamp : cstr) (loc : Location) (message : cstr) := log_v_with_loc true timestamp $"WARN" message (Some loc).
Definition log_error_loc_impl (timestamp : cstr) (loc : Location) (message : cstr) := log_v_with_loc true timestamp $"ERROR" message (Some loc).
Definition log_debug_loc_impl (timestamp : cstr) (loc : Location) (message : cstr) := log_v_with_loc true timestamp $"DEBUG" message (Some loc).

(** ** Opening, settings, closing *)

Definition logger_init (timestamp : cstr) (log_file_path : option cstr) (g : Logger) (fs : Fs) : option (Logger * Fs * console_output) :=
  if lo_open g then Some (g, fs, [])
  else match log_file_path with
  | None | Some [] => Some (g, fs, [(true, $"Failed to open log file: invalid path" ++ [ch_nl])])
  | Some path =>
      match fs_append fs path [] with
      | None => Some (g, fs, [(true, $"Failed to open log file: " ++ path ++ [ch_nl])])
      | Some fs1 =>
          log_debug timestamp ($"[Logger] Initialized with file: " ++ path)
            (mkLogger true (lo_level g) (lo_console g) (truncate_to 1024 path) (lo_max_bytes g) (lo_max_files g)) fs1
      end
  end.

Definition logger_set_config (timestamp : cstr) (level : option cstr) (console_output : bool) (g : Logger) (fs : Fs) :=
  log_debug timestamp ($"[Logger] Config updated: level=" ++ default $"INFO" level ++ $", console=" ++ (if console_output then $"on" else $"off"))
    (mkLogger (lo_open g) (get_level_int (default $"INFO" level)) console_output (lo_path g) (lo_max_bytes g) (lo_max_files g)) fs.

Definition logger_get_level (g : Logger) : LogLevel := lo_level g.

Definition logger_cleanup (timestamp : cstr) (g : Logger) (fs : Fs) : option (Logger * Fs * console_output) :=
  if lo_open g
  then '(g1, fs1, out) ← log_debug timestamp $"[Logger] Closing log file" g fs; Some (set_open false g1, fs1, out)
  else Some (g, fs, []).

(** ** What the files of the log hold *)

(** One call of the log, and the line it adds to the file, if any. *)
Record LogCall := mkCall { lc_time : cstr; lc_level : cstr; lc_message : cstr; lc_loc : option Location }.

Definition log_call (c : LogCall) : Logger -> Fs -> option (Logger * Fs * console_output) :=
  log_v_with_loc true (lc_time c) (lc_level c) (lc_message c) (lc_loc c).

Definition passes (level : LogLevel) (c : LogCall) : bool :=
  (level_value level <=? level_value (effective_level (get_level_int (lc_level c)) (strip_newline (lc_message c))))%Z.

Definition line_of (c : LogCall) : cstr :=
  let eff := effective_level (get_level_int (lc_level c)) (strip_newline (lc_message c)) in
  log_line (lc_time c) (match get_level_int (lc_level c), eff with LOG_LEVEL_INFO, LOG_LEVEL_DEBUG => $"DEBUG" | _, _ => lc_level c end)
    (lc_loc c) (strip_newline (lc_message c)).

(** The calls in turn; the terminal is left out. *)
Fixpoint log_calls (cs : list LogCall) (g : Logger) (fs : Fs) : option (Logger * Fs) :=
  match cs with
  | [] => Some (g, fs)
  | c :: r => '(g1, fs1, _) ← log_call c g fs; log_calls r g1 fs1
  end.

Lemma try_rename_files from to fs k : from <> to -> fs_rename_ok fs from to = true ->
  fs_files (try_rename from to fs) !! k =
    match fs_files fs !! from with
    | None => fs_files fs !! k
    | Some t => if decide (k = to) then Some t else if decide (k = from) then None else fs_files fs !! k
    end.
Proof.
  intros Hne Hok. unfold try_rename, fs_rename. rewrite Hok. destruct (fs_files fs !! from) as [t|] eqn:E; cbn; [|by rewrite ?E].
  destruct (decide (k = to)) as [->|Hk]; [by rewrite lookup_insert_eq|]. rewrite lookup_insert_ne by done.
  destruct (decide (k = from)) as [->|Hf]; [by rewrite lookup_delete_eq|]. by rewrite lookup_delete_ne.
Qed.

(** The system grants every renaming and the opening of the log. *)
Definition log_fs (path : cstr) (fs : Fs) : Prop := (forall a b, fs_rename_ok fs a b = true) /\ fs_writable fs path = true.

Lemma log_fs_rename path from to fs : log_fs path fs -> log_fs path (try_rename from to fs).
Proof. intros [H1 H2]. unfold try_rename, fs_rename. rewrite H1. destruct (fs_files fs !! from); by split. Qed.

Lemma rotated_name_short path i : length path < 1024 -> i < 10 -> rotated_name path i = path ++ $"." ++ fmt_zu i.
Proof.
  intros Hp Hi. unfold rotated_name. apply truncate_to_id. rewrite !length_app.
  assert (length (fmt_zu i) = 1) as -> by (do 10 (destruct i as [|i]; [done|]); lia). cbn. lia.
Qed.

(** The rotation renames the files in turn. *)
Lemma rotation_files g fs path : lo_open g = true -> lo_path g = path -> path <> [] -> length path < 1024 -> lo_max_files g = 3 ->
  log_fs path fs -> (lo_max_bytes g <= file_size fs path)%Z ->
  (is_Some (fs_files fs !! rotated_name path 2) -> is_Some (fs_files fs !! rotated_name path 1)) -> is_Some (fs_files fs !! path) ->
  exists fs', rotate_logs_if_needed_unlocked g fs = (g, fs') /\ log_fs path fs' /\
    fs_files fs' !! path = Some [] /\ fs_files fs' !! rotated_name path 1 = fs_files fs !! path /\
    fs_files fs' !! rotated_name path 2 = fs_files fs !! rotated_name path 1 /\
    fs_files fs' !! rotated_name path 3 = match fs_files fs !! rotated_name path 2 with Some t => Some t | None => fs_files fs !! rotated_name path 3 end.
Proof.
  intros Ho Hp Hne Hlen Hn Hfs Hbig H21 [t0 H0]. unfold rotate_logs_if_needed_unlocked. rewrite Ho, Hp, Hn, bool_decide_eq_false_2 by done.
  cbn [negb orb]. apply Z.ltb_ge in Hbig. rewrite Hbig. cbn [Nat.sub shift_files].
  rewrite !rotated_name_short in * by lia. set (n1 := path ++ $"." ++ fmt_zu 1) in *. set (n2 := path ++ $"." ++ fmt_zu 2) in *. set (n3 := path ++ $"." ++ fmt_zu 3) in *.
  assert (forall i, path <> path ++ $"." ++ fmt_zu i) as H0i. { intros i E. apply (f_equal length) in E. rewrite !length_app in E. cbn in E. lia. }
  assert (n1 <> n2 /\ n1 <> n3 /\ n2 <> n3) as (D12 & D13 & D23) by (unfold n1, n2, n3; split_and!; intros E; apply app_inv_head in E; by vm_compute in E).
  pose proof (H0i 1) as D01. pose proof (H0i 2) as D02. pose proof (H0i 3) as D03. fold n1 in D01. fold n2 in D02. fold n3 in D03. clear H0i.
  set (fsa := try_rename n2 n3 fs). set (fsb := try_rename n1 n2 fsa). set (fsc := try_rename path n1 fsb).
  assert (log_fs path fsa) as Ha by by apply log_fs_rename. assert (log_fs path fsb) as Hb by by apply log_fs_rename. assert (log_fs path fsc) as Hc by by apply log_fs_rename.
  pose proof (fun k => try_rename_files n2 n3 fs k D23 (proj1 Hfs n2 n3)) as Ka. pose proof (fun k => try_rename_files n1 n2 fsa k D12 (proj1 Ha n1 n2)) as Kb.
  pose proof (fun k => try_rename_files path n1 fsb k D01 (proj1 Hb path n1)) as Kc. fold fsa in Ka. fold fsb in Kb. fold fsc in Kc.
  assert (forall k t, fs_files fs !! k = t -> k <> n2 -> k <> n3 -> fs_files fsa !! k = t) as Sa.
  { intros k t Hk H2 H3. rewrite Ka. destruct (fs_files fs !! n2); [by rewrite !decide_False by done|done]. }
  assert (fs_files fsb !! path = Some t0) as Eb0. { rewrite Kb. assert (fs_files fsa !! path = Some t0) as Ea0 by by apply Sa. destruct (fs_files fsa !! n1); [by rewrite !decide_False by done|done]. }
  unfold fs_append. rewrite (proj2 Hc). eexists. split; [done|]. split; [exact Hc|]. cbn [fs_files fs_set].
  rewrite lookup_insert_eq, !lookup_insert_ne by done. rewrite (Kc path), (Kc n1), (Kc n2), (Kc n3), Eb0.
  rewrite (decide_True (P := n1 = n1)), !(decide_False (P := n2 = n1)), !(decide_False (P := n2 = path)), !(decide_False (P := n3 = n1)), !(decide_False (P := n3 = path)),
    (decide_False (P := path = n1)), (decide_True (P := path = path)) by done.
  assert (fs_files fsa !! n1 = fs_files fs !! n1) as Ea1 by by apply Sa.
  split_and!; [done|by rewrite H0| |].
  - rewrite Kb, Ea1. destruct (fs_files fs !! n1) as [t1|] eqn:E1; [by rewrite decide_True|].
    rewrite Ka. destruct (fs_files fs !! n2) as [t2|] eqn:E2; [|done]. destruct (H21 ltac:(by eexists)). done.
  - rewrite Kb, Ea1. assert (fs_files fsa !! n3 = match fs_files fs !! n2 with Some t => Some t | None => fs_files fs !! n3 end) as E3.
    { rewrite Ka. destruct (fs_files fs !! n2); [by rewrite decide_True|done]. }
    destruct (fs_files fs !! n1); [rewrite !decide_False by done|]; exact E3.
Qed.

(** What is in a file: the lines, if there is a file. *)
Definition holds (fs : Fs) (name : cstr) (o : option (list cstr)) : Prop := fs_files fs !! name = (@concat ascii) <$> o.

(** The four files hold the lines [lines] without the oldest, each file whole
    lines, a rotated one at least [max] bytes of them and none more than a line
    over it. *)
Record rotated (path : cstr) (max : Z) (m : nat) (lines : list cstr) (fs : Fs) : Prop := {
  rotated_groups : exists dropped g3 g2 g1 g0,
    lines = dropped ++ default [] g3 ++ default [] g2 ++ default [] g1 ++ g0 /\
    holds fs path (Some g0) /\ holds fs (rotated_name path 1) g1 /\ holds fs (rotated_name path 2) g2 /\ holds fs (rotated_name path 3) g3 /\
    (g1 = None -> g2 = None) /\ (g2 = None -> g3 = None) /\ (g3 = None -> dropped = []) /\
    (forall g, Some g ∈ [g1; g2; g3] -> (max <= Z.of_nat (length (concat g)) < max + Z.of_nat m)%Z) /\
    (Z.of_nat (length (concat g0)) < max + Z.of_nat m)%Z
}.

Lemma write_rotated g fs path m lines line : lo_open g = true -> lo_path g = path -> path <> [] -> length path < 1024 -> lo_max_files g = 3 ->
  (0 < lo_max_bytes g)%Z -> log_fs path fs -> length line <= m -> rotated path (lo_max_bytes g) m lines fs ->
  exists fs', write_file line g fs = Some (g, fs') /\ log_fs path fs' /\ rotated path (lo_max_bytes g) m (lines ++ [line]) fs'.
Proof.
  intros Ho Hp Hne Hlen Hn Hmax Hfs Hl [(dropped & g3 & g2 & g1 & g0 & -> & H0 & H1 & H2 & H3 & N1 & N2 & N3 & Hs & Hs0)].
  assert (forall i, i < 10 -> rotated_name path i <> path) as Hnames.
  { intros i Hi E. rewrite rotated_name_short in E by done. apply (f_equal length) in E. rewrite !length_app in E. cbn in E. lia. }
  assert (forall fs1 gs, log_fs path fs1 -> holds fs1 path (Some gs) -> log_fs path (file_put fs1 path line) /\ holds (file_put fs1 path line) path (Some (gs ++ [line])) /\
    forall i o, i < 10 -> holds fs1 (rotated_name path i) o -> holds (file_put fs1 path line) (rotated_name path i) o) as Hput.
  { intros fs1 gs Hf1 Hg. split; [exact Hf1|]. unfold holds, file_put in *. cbn [fs_files fs_set]. split.
    - rewrite lookup_insert_eq, Hg. cbn. by rewrite concat_app, concat_cons, app_nil_r.
    - intros i o Hi Ho1. rewrite lookup_insert_ne; [done|]. by apply not_eq_sym, Hnames. }
  unfold write_file. rewrite Ho. cbn [negb]. destruct (decide (file_size fs path < lo_max_bytes g)%Z) as [Hsz|Hsz].
  - assert (rotate_logs_if_needed_unlocked g fs = (g, fs)) as ->.
    { unfold rotate_logs_if_needed_unlocked. rewrite Hp. case_match; [done|]. by rewrite (proj2 (Z.ltb_lt _ _) Hsz). }
    rewrite Ho, Hp. destruct (Hput fs g0 Hfs H0) as (P1 & P2 & P3). eexists. split_and!; [done..|]. constructor.
    exists dropped, g3, g2, g1, (g0 ++ [line]). split_and!; [by rewrite <-!app_assoc|done|by apply P3; [lia|]..|done|done|done|done|].
    rewrite concat_app, concat_cons, app_nil_r, length_app. unfold file_size in Hsz. unfold holds in H0. rewrite H0 in Hsz. cbn in Hsz. lia.
  - destruct (rotation_files g fs path Ho Hp Hne Hlen Hn Hfs ltac:(lia)) as (fs1 & -> & F & E0 & E1 & E2 & E3).
    { unfold holds in H1, H2. rewrite H1, H2. destruct g1; [by eexists|]. by rewrite N1 by done. } { rewrite H0. by eexists. }
    rewrite Ho, Hp. destruct (Hput fs1 [] F E0) as (P1 & P2 & P3). eexists. split_and!; [done..|]. constructor.
    unfold file_size in Hsz. unfold holds in H0, H1, H2, H3. rewrite H0 in E1, Hsz. rewrite H1 in E2. cbn in Hsz.
    exists (match g2 with Some _ => dropped ++ default [] g3 | None => dropped end), (match g2 with Some t => Some t | None => g3 end), g1, (Some g0), [line]. split_and!.
    + destruct g2; cbn [default]; unfold id; rewrite <-!app_assoc; done.
    + exact P2.
    + apply P3; [lia|]. exact E1.
    + apply P3; [lia|]. exact E2.
    + apply P3; [lia|]. unfold holds. rewrite E3, H2, H3. by destruct g2.
    + done.
    + intros ->. by rewrite N1, N2 by auto.
    + destruct g2; [done|]. intros E. auto.
    + intros g'. rewrite !elem_of_cons. intros [[= ->]|[E|[E|[]%not_elem_of_nil]]]; [lia|apply Hs; rewrite !elem_of_cons; auto|].
      destruct g2; apply Hs; rewrite E, !elem_of_cons; auto.
    + rewrite concat_cons, app_nil_r. lia.
Qed.

(** The log loses nothing but its oldest lines: whatever is logged, from
    an empty log file on, the lines of the calls that pass the level are, in
    their order, those of the files .3, .2, .1 and of the log itself, without
    some oldest ones when all of these are full; no line is split between two
    files, a rotated file has at least the maximal size, and none is more than
    a line over it. *)
Theorem log_rotation_correct g fs path m calls :
  lo_open g = true -> lo_path g = path -> path <> [] -> length path < 1024 -> lo_max_files g = 3 -> (0 < lo_max_bytes g)%Z -> log_fs path fs ->
  fs_files fs !! path = Some [] -> Forall (fun i => fs_files fs !! rotated_name path i = None) [1; 2; 3] ->
  Forall (fun c => length (line_of c) <= m) calls ->
  exists fs', log_calls calls g fs = Some (g, fs') /\ rotated path (lo_max_bytes g) m (line_of <$> List.filter (passes (lo_level g)) calls) fs'.
Proof.
  intros Ho Hp Hne Hlen Hn Hmax Hfs H0 Hr Hm. rewrite !Forall_cons in Hr. destruct Hr as (H1 & H2 & H3 & _).
  assert (forall cs lines fs, log_fs path fs -> Forall (fun c => length (line_of c) <= m) cs -> rotated path (lo_max_bytes g) m lines fs ->
    exists fs', log_calls cs g fs = Some (g, fs') /\ rotated path (lo_max_bytes g) m (lines ++ (line_of <$> List.filter (passes (lo_level g)) cs)) fs') as Hind.
  { intros cs. induction cs as [|c r IH]; intros lines fs1 Hf1 Hms Hinv; [exists fs1; by rewrite app_nil_r|].
    apply Forall_cons in Hms as [Hc Hms]. cbn [log_calls List.filter]. unfold log_call, log_v_with_loc. cbn [negb].
    unfold passes at 1. rewrite Z.ltb_antisym. destruct (_ <=? _)%Z eqn:E; cbn [negb].
    - fold (line_of c). destruct (write_rotated g fs1 path m lines (line_of c) Ho Hp Hne Hlen Hn Hmax Hf1 Hc Hinv) as (fs2 & -> & Hf2 & Hi2).
      cbn [mbind option_bind]. destruct (IH _ _ Hf2 Hms Hi2) as (fs' & -> & Hi'). exists fs'. split; [done|]. rewrite fmap_cons. by rewrite <-app_assoc in Hi'.
    - cbn [mbind option_bind]. by apply IH. }
  destruct (Hind calls [] fs Hfs Hm) as (fs' & Hc & Hi); [|by exists fs'].
  constructor. exists [], None, None, None, []. unfold holds. rewrite H0, H1, H2, H3. split_and!; try done. intros g'. rewrite !elem_of_cons. intros [|[|[|[]%not_elem_of_nil]]]; done. cbn. lia.
Qed.

Definition demo_logger : Logger := mkLogger true LOG_LEVEL_INFO false $"log" 30 3.
Definition demo_log_fs : Fs := mkFs {[ $"log" := [] ]} (fun _ => true) (fun _ _ => true).
Definition demo_calls : list LogCall :=
  mkCall $"t" $"DEBUG" $"hidden" None :: ((fun i => mkCall $"t" $"INFO" ($"message " ++ fmt_zu i) None) <$> seq 0 9).

Lemma log_rotation_correct_witness :
  exists fs', log_calls demo_calls demo_logger demo_log_fs = Some (demo_logger, fs') /\
    rotated $"log" 30 21 (line_of <$> List.filter (passes LOG_LEVEL_INFO) demo_calls) fs'.
Proof.
  apply (log_rotation_correct demo_logger demo_log_fs $"log" 21 demo_calls);
    [done|done|done|cbn; lia|done|done|done|by vm_compute|repeat constructor; by vm_compute|repeat constructor; vm_compute; lia].
Defined.

(** The demo drops its two oldest lines and keeps the other seven. *)
Example demo_rotated :
  match log_calls demo_calls demo_logger demo_log_fs with
  | Some (_, fs') => fs_files fs' !! $"log.3" = Some ($"[t] [INFO] message 2" ++ [ch_nl] ++ $"[t] [INFO] message 3" ++ [ch_nl])
  | None => False
  end.
Proof. by vm_compute. Qed.

Lemma try_rename_writable from to fs : fs_writable (try_rename from to fs) = fs_writable fs.
Proof. unfold try_rename, fs_rename. by destruct (fs_rename_ok fs from to); [destruct (fs_files fs !! from)|]. Qed.

Lemma shift_files_writable path i fs : fs_writable (shift_files path i fs) = fs_writable fs.
Proof. revert fs. induction i as [|i IH]; intros fs; [done|]. cbn [shift_files]. by rewrite IH, try_rename_writable. Qed.

(** When the log is full and cannot be opened again after the rotation, the
    line is written to a NULL stream. *)
Theorem reopen_failure_undefined g fs line :
  lo_open g = true -> lo_path g <> [] -> (lo_max_bytes g <= file_size fs (lo_path g))%Z -> fs_writable fs (lo_path g) = false ->
  write_file line g fs = None.
Proof.
  intros Ho Hp Hs Hw. unfold write_file, rotate_logs_if_needed_unlocked. rewrite Ho, bool_decide_eq_false_2 by done. cbn [negb orb].
  rewrite (proj2 (Z.ltb_ge _ _) Hs). unfold fs_append. by rewrite try_rename_writable, shift_files_writable, Hw.
Qed.

Lemma reopen_failure_undefined_witness :
  write_file $"x" demo_logger (mkFs {[ $"log" := replicate 30 "."%char ]} (fun _ => false) (fun _ _ => true)) = None.
Proof. by apply reopen_failure_undefined; [done|done|by vm_compute|done]. Defined.
