(* ===== verification/Session.v ===== *)
(** [src/session/session.c]: the session table, the conversation each session
    holds, and its JSON-lines file.

    A [Session*] is the index of the session in [sm_sessions], in creation
    order; [sm_buckets] are the 64 chains of the hash table, heads first. *)
From S2P Require Import Prelude CStr Common Message Json Fs.

Definition SESSION_HASHTABLE_BUCKETS : nat := 64.
Definition FILE_PATH_MAX : nat := 4096.

Record Session := mkSession {
  s_key : cstr;
  s_messages : list Message;
  s_created_at : Z;
  s_updated_at : Z;
  s_last_consolidated : Z;
  s_last_saved_count : nat;
  s_needs_full_save : bool;
  s_ref_count : Z;
}.

Record SessionManager := mkSessionManager {
  sm_sessions : list Session;
  sm_buckets : list (list nat);
  sm_count : nat;
  sm_workspace_path : cstr;
}.

Record SessionSnapshot := mkSessionSnapshot {
  snap_messages : list Message;
  snap_truncated : bool;
}.

(** ** Keys, hashes and file names *)

(** djb2 on 32 bits. *)
Definition session_key_hash_fast (key : cstr) : nat :=
  let hash := fold_left (fun h c => wrap_u 32 (wrap_u 32 (Z.shiftl h 5) + h + Z.of_N (code c))) key 5381%Z in
  Z.to_nat (hash mod Z.of_nat SESSION_HASHTABLE_BUCKETS).

(** FNV-1a on 64 bits. *)
Definition session_key_hash (key : cstr) : Z :=
  fold_left (fun h c => wrap_u 64 (Z.lxor h (Z.of_N (code c)) * 1099511628211)) key 1469598103934665603%Z.

Definition prefix_char (c : ascii) : ascii :=
  if isalnum c || bool_decide (c = "_"%char) || bool_decide (c = "-"%char) then tolower c else "_"%char.

Definition session_channel_prefix (key : cstr) (out_size : nat) : cstr :=
  let raw := match strchr key ":"%char with Some i => take i key | None => key end in
  let out := prefix_char <$> take (Nat.min 12 (out_size - 1)) raw in
  match out with
  | [] => take (Nat.min 12 (out_size - 1)) $"session"
  | _ => out
  end.

Definition compact_name (key : cstr) : cstr :=
  truncate_to 32 (session_channel_prefix key 16 ++ $"_" ++
                  pad_left 16 "0"%char (fmt_x (Z.to_N (session_key_hash key)))).

Definition build_session_file_path (workspace key : cstr) (filepath_size : nat) : option cstr :=
  if Nat.ltb filepath_size 64 then None
  else
    let written := workspace ++ $"/sessions/" ++ compact_name key ++ $".jsonl" in
    if Nat.leb filepath_size (length written) then None else Some written.

(** [%02X] of a byte. *)
Definition hex2_upper (c : ascii) : cstr := [digit_char true (code c / 16); digit_char true (code c mod 16)].

(** The loop over the key; [j] bytes are already in [sanitized]. *)
Fixpoint sanitize (j : nat) (key : cstr) : cstr :=
  match key with
  | [] => []
  | c :: key' =>
      if Nat.ltb (j + 4) 512 then
        if isalnum c || bool_decide (c = "_"%char) || bool_decide (c = "-"%char) || bool_decide (c = "."%char)
        then c :: sanitize (j + 1) key'
        else "_"%char :: hex2_upper c ++ sanitize (j + 3) key'
      else []
  end.

Definition build_legacy_session_file_path (workspace key : cstr) (filepath_size : nat) : cstr :=
  truncate_to filepath_size (workspace ++ $"/sessions/" ++ sanitize 0 key ++ $".jsonl").

(** ** The session table *)

Definition session_manager_new (workspace_path : cstr) : SessionManager :=
  {| sm_sessions := []; sm_buckets := replicate SESSION_HASHTABLE_BUCKETS []; sm_count := 0;
     sm_workspace_path := workspace_path |}.

Definition session_new (key : cstr) (now : Z) : Session :=
  {| s_key := key; s_messages := []; s_created_at := now; s_updated_at := now;
     s_last_consolidated := 0; s_last_saved_count := 0; s_needs_full_save := true; s_ref_count := 1 |}.

(** [alloc_ok]: the session and its table entry could be allocated. *)
Definition session_manager_create_unlocked (alloc_ok : bool) (now : Z) (mgr : SessionManager) (key : cstr) :
    SessionManager * option nat :=
  if alloc_ok then
    let id := length (sm_sessions mgr) in
    let bucket := session_key_hash_fast key in
    ({| sm_sessions := sm_sessions mgr ++ [session_new key now];
        sm_buckets := <[bucket := id :: default [] (sm_buckets mgr !! bucket)]> (sm_buckets mgr);
        sm_count := S (sm_count mgr);
        sm_workspace_path := sm_workspace_path mgr |}, Some id)
  else (mgr, None).

Definition session_manager_create := session_manager_create_unlocked.

(** The walk along one chain. *)
Fixpoint chain_find (sessions : list Session) (key : cstr) (chain : list nat) : option nat :=
  match chain with
  | [] => None
  | id :: rest =>
      if str_eq (default [] (s_key <$> sessions !! id)) key then Some id
      else chain_find sessions key rest
  end.

Definition session_manager_get (mgr : SessionManager) (key : cstr) : option nat :=
  chain_find (sm_sessions mgr) key (default [] (sm_buckets mgr !! session_key_hash_fast key)).

(** The sessions released, in order. *)
Definition session_manager_free (mgr : SessionManager) : list nat := concat (sm_buckets mgr).

Definition update_session (mgr : SessionManager) (id : nat) (s : Session) : SessionManager :=
  {| sm_sessions := <[id := s]> (sm_sessions mgr); sm_buckets := sm_buckets mgr;
     sm_count := sm_count mgr; sm_workspace_path := sm_workspace_path mgr |}.

(** ** Messages of a session *)

Definition session_add_message (now : Z) (s : Session) (msg : Message) : Session :=
  {| s_key := s_key s; s_messages := s_messages s ++ [msg]; s_created_at := s_created_at s;
     s_updated_at := now; s_last_consolidated := s_last_consolidated s;
     s_last_saved_count := s_last_saved_count s; s_needs_full_save := s_needs_full_save s;
     s_ref_count := s_ref_count s |}.

Definition session_rollback_messages (now : Z) (s : Session) (to_count : nat) : Session :=
  if Nat.leb (length (s_messages s)) to_count then s
  else
    {| s_key := s_key s; s_messages := take to_count (s_messages s); s_created_at := s_created_at s;
       s_updated_at := now;
       s_last_consolidated :=
         if (Z.of_nat to_count <? s_last_consolidated s)%Z then Z.of_nat to_count else s_last_consolidated s;
       s_last_saved_count :=
         if Nat.ltb to_count (s_last_saved_count s) then to_count else s_last_saved_count s;
       s_needs_full_save := s_needs_full_save s; s_ref_count := s_ref_count s |}.

Definition with_ref_count (s : Session) (n : Z) : Session :=
  {| s_key := s_key s; s_messages := s_messages s; s_created_at := s_created_at s;
     s_updated_at := s_updated_at s; s_last_consolidated := s_last_consolidated s;
     s_last_saved_count := s_last_saved_count s; s_needs_full_save := s_needs_full_save s;
     s_ref_count := n |}.
Definition session_ref (s : Session) : Session := with_ref_count s (s_ref_count s + 1).
Definition session_unref (s : Session) : Session := with_ref_count s (s_ref_count s - 1).

(** ** The session file *)

Definition role_text (r : MessageRole) : cstr :=
  match r with ROLE_USER => $"user" | ROLE_ASSISTANT => $"assistant" | ROLE_TOOL => $"tool" end.

Definition tool_call_json (tc : ToolCall) : json :=
  JObj [($"id", JStr (tc_id tc)); ($"name", JStr (tc_name tc)); ($"arguments", JStr (tc_arguments tc))].

Definition message_json (msg : Message) : json :=
  JObj ([($"role", JStr (role_text (m_role msg)));
         ($"content", JStr (m_content msg));
         ($"timestamp", JStr (m_timestamp msg))] ++
        (if bool_decide (m_role msg = ROLE_ASSISTANT) && Nat.ltb 0 (length (m_tool_calls msg))
         then [($"tool_calls", JArr (tool_call_json <$> m_tool_calls msg))] else []) ++
        (if bool_decide (m_role msg = ROLE_TOOL)
         then (if Nat.ltb 0 (length (m_tool_call_id msg))
               then [($"tool_call_id", JStr (m_tool_call_id msg))] else []) ++
              (if Nat.ltb 0 (length (m_name msg)) then [($"name", JStr (m_name msg))] else [])
         else [])).

(** A line that [cJSON_PrintUnformatted] could print, with its newline. *)
Definition json_line (j : json) : cstr :=
  match cJSON_PrintUnformatted j with Some t => t ++ [ch_nl] | None => [] end.

Definition serialize_message (msg : Message) : cstr := json_line (message_json msg).

Definition metadata_json (s : Session) (save_count : nat) : json :=
  JObj [($"_type", JStr $"metadata"); ($"key", JStr (s_key s));
        ($"created_at", JNum (num_of_Z (s_created_at s)));
        ($"updated_at", JNum (num_of_Z (s_updated_at s)));
        ($"last_consolidated", JNum (num_of_Z (s_last_consolidated s)));
        ($"saved_count", JNum (num_of_Z (Z.of_nat save_count)))].

Definition serialize_metadata (s : Session) (save_count : nat) : cstr :=
  json_line (metadata_json s save_count).

Definition mark_saved (s : Session) (count : nat) (needs_full : bool) : Session :=
  {| s_key := s_key s; s_messages := s_messages s; s_created_at := s_created_at s;
     s_updated_at := s_updated_at s; s_last_consolidated := s_last_consolidated s;
     s_last_saved_count := count; s_needs_full_save := needs_full; s_ref_count := s_ref_count s |}.

(** [session_manager_save] on the file at [filepath]: a full rewrite through a
    temporary file, or an append of the messages not saved yet. *)
Definition save_to (fs : Fs) (filepath : cstr) (s : Session) : Fs * Session * Error :=
  let total_count := length (s_messages s) in
  let saved_count := s_last_saved_count s in
  let needs_full := s_needs_full_save s || negb (fs_exists fs filepath) || Nat.ltb total_count saved_count in
  if needs_full then
    let tmp := truncate_to (FILE_PATH_MAX + 8) (filepath ++ $".tmp") in
    match fs_write fs tmp (serialize_metadata s total_count ++ (s_messages s ≫= serialize_message)) with
    | None => (fs, s, error_new ERR_FILE (Some $"Cannot open session file for writing"))
    | Some fs1 =>
        let s1 := mark_saved s total_count false in
        match fs_rename fs1 tmp filepath with
        | None => (fs_unlink fs1 tmp, s1, error_new ERR_FILE (Some $"Failed to commit session file"))
        | Some fs2 => (fs2, s1, err_ok)
        end
    end
  else
    match fs_append fs filepath (drop saved_count (s_messages s) ≫= serialize_message) with
    | None => (fs, s, error_new ERR_FILE (Some $"Cannot open session file for appending"))
    | Some fs1 => (fs1, mark_saved s total_count (s_needs_full_save s), err_ok)
    end.

Definition session_manager_save (fs : Fs) (mgr : SessionManager) (id : nat) : Fs * SessionManager * Error :=
  match sm_sessions mgr !! id with
  | None => (fs, mgr, error_new ERR_INVALID_PARAM (Some $"Invalid parameters"))
  | Some s =>
      match build_session_file_path (sm_workspace_path mgr) (s_key s) FILE_PATH_MAX with
      | None => (fs, mgr, error_new ERR_FILE (Some $"Session filepath too long"))
      | Some filepath =>
          let '(fs', s', err) := save_to fs filepath s in (fs', update_session mgr id s', err)
      end
  end.

Definition role_of_text (t : cstr) : MessageRole :=
  if str_eq t $"assistant" then ROLE_ASSISTANT else if str_eq t $"tool" then ROLE_TOOL else ROLE_USER.

(** The calls of a [tool_calls] array that have the three strings. *)
Definition tool_calls_of_json (j : option json) : list ToolCall :=
  match is_array j with
  | Some tcs =>
      omap (fun tc => id ← is_string (get_object_item (Some tc) $"id");
                      name ← is_string (get_object_item (Some tc) $"name");
                      args ← is_string (get_object_item (Some tc) $"arguments");
                      Some (mkToolCall id name args)) tcs
  | None => []
  end.

(** A message line; [None] when it has no role, or a content that is neither
    a string nor null. *)
Definition message_of_json (j : json) : option Message :=
  role_str ← is_string (get_object_item (Some j) $"role");
  content_str ← match get_object_item (Some j) $"content" with
                | Some (JStr c) => Some c | Some JNull => Some [] | _ => None end;
  let role := role_of_text role_str in
  let text name := default [] (is_string (get_object_item (Some j) name)) in
  Some {| m_role := role; m_content := content_str; m_timestamp := text $"timestamp";
          m_tool_calls := if bool_decide (role = ROLE_ASSISTANT)
                          then tool_calls_of_json (get_object_item (Some j) $"tool_calls") else [];
          m_tool_call_id := if bool_decide (role = ROLE_TOOL) then text $"tool_call_id" else [];
          m_name := if bool_decide (role = ROLE_TOOL) then text $"name" else [] |}.

(** [(size_t)] of a number, for the values a [size_t] holds. *)
Definition num_size (n : num) : Z := wrap_u 64 (num_trunc n).

(** What a metadata line sets. *)
Definition apply_metadata (j : json) (s : Session) : Session :=
  let num_or name (f : num -> Z) (old : Z) :=
    match is_number (get_object_item (Some j) name) with Some n => f n | None => old end in
  {| s_key := s_key s; s_messages := s_messages s;
     s_created_at := num_or $"created_at" num_trunc (s_created_at s);
     s_updated_at := num_or $"updated_at" num_trunc (s_updated_at s);
     s_last_consolidated := num_or $"last_consolidated" num_size (s_last_consolidated s);
     s_last_saved_count := s_last_saved_count s; s_needs_full_save := s_needs_full_save s;
     s_ref_count := s_ref_count s |}.

(** One round of the reading loop, on the string [fgets] put in [line]; the
    flag is [metadata_loaded]. *)
Definition load_line (now : Z) (st : Session * bool) (line : cstr) : Session * bool :=
  let '(s, metadata_loaded) := st in
  let line := take_while not_nul line in
  if Nat.ltb (length line) 2 then st
  else
    match cJSON_Parse line with
    | None => st
    | Some j =>
        if match is_string (get_object_item (Some j) $"_type") with
           | Some t => str_eq t $"metadata" | None => false end
        then (apply_metadata j s, true)
        else match message_of_json j with
             | Some msg => (session_add_message now s msg, metadata_loaded)
             | None => st
             end
    end.

Definition LOAD_LINE_SIZE : nat := 4096.

(** What follows the reading loop. *)
Definition load_finish (st : Session * bool) : Session :=
  let '(s1, metadata_loaded) := st in
  let s2 := if metadata_loaded then s1 else
    {| s_key := s_key s1; s_messages := s_messages s1; s_created_at := s_created_at s1;
       s_updated_at := s_updated_at s1; s_last_consolidated := Z.of_nat (length (s_messages s1));
       s_last_saved_count := s_last_saved_count s1; s_needs_full_save := s_needs_full_save s1;
       s_ref_count := s_ref_count s1 |} in
  mark_saved s2 (length (s_messages s2)) false.

(** The session read from the text of a file. *)
Definition load_text (now : Z) (s : Session) (text : cstr) : Session :=
  load_finish (fold_left (load_line now) (fgets_lines LOAD_LINE_SIZE text) (s, false)).

Definition session_manager_load (alloc_ok : bool) (now : Z) (fs : Fs) (mgr : SessionManager) (key : cstr) :
    SessionManager * option nat * Error :=
  match build_session_file_path (sm_workspace_path mgr) key FILE_PATH_MAX with
  | None => (mgr, None, error_new ERR_FILE (Some $"Session filepath too long"))
  | Some filepath =>
      let f := match fs_read fs filepath with
               | Some t => Some t
               | None => fs_read fs (build_legacy_session_file_path (sm_workspace_path mgr) key 512)
               end in
      match session_manager_create alloc_ok now mgr key with
      | (mgr1, None) => (mgr1, None, error_new ERR_MEMORY (Some $"Failed to create session"))
      | (mgr1, Some id) =>
          match f with
          | None => (mgr1, Some id, err_ok)
          | Some text => (update_session mgr1 id (load_text now (session_new key now) text), Some id, err_ok)
          end
      end
  end.

(** ** Snapshots for the model's context *)

Definition message_clone (src : Message) : Message :=
  fold_left (fun c tc => message_add_tool_call true c (Some (tc_id tc)) (Some (tc_name tc)) (Some (tc_arguments tc)))
    (m_tool_calls src)
    {| m_role := m_role src; m_content := m_content src; m_timestamp := m_timestamp src;
       m_tool_calls := []; m_tool_call_id := m_tool_call_id src; m_name := m_name src |}.

Definition assistant_has_tool_call_id (msg : Message) (tool_call_id : cstr) : bool :=
  bool_decide (m_role msg = ROLE_ASSISTANT) && negb (bool_decide (tool_call_id = [])) &&
  existsb (fun tc => str_eq (tc_id tc) tool_call_id) (m_tool_calls msg).

(** The loop [for (j = adjusted; j > 0; j--)]. *)
Fixpoint find_caller (messages : list Message) (tool_call_id : cstr) (j : nat) : option nat :=
  match j with
  | 0 => None
  | S j' =>
      if match messages !! j' with Some c => assistant_has_tool_call_id c tool_call_id | None => false end
      then Some j'
      else find_caller messages tool_call_id j'
  end.

(** One round of the do-while loop: the new position and [changed]. *)
Definition adjust_round (messages : list Message) (adjusted : nat) : nat * bool :=
  if Nat.eqb adjusted 0 then (adjusted, false)
  else
    let '(adjusted1, changed1) :=
      match messages !! adjusted with
      | Some first =>
          if bool_decide (m_role first = ROLE_TOOL) then
            match find_caller messages (m_tool_call_id first) adjusted with
            | Some j => (j, true)
            | None => (adjusted, false)
            end
          else (adjusted, false)
      | None => (adjusted, false)
      end in
    if Nat.ltb 0 adjusted1 then
      match messages !! (adjusted1 - 1) with
      | Some prev =>
          if bool_decide (m_role prev = ROLE_ASSISTANT) && Nat.ltb 0 (length (m_tool_calls prev))
          then (adjusted1 - 1, true) else (adjusted1, changed1)
      | None => (adjusted1, changed1)
      end
    else (adjusted1, changed1).

(** The do-while loop; [None] when the rounds run out. *)
Fixpoint adjust_loop (fuel : nat) (messages : list Message) (adjusted : nat) : option nat :=
  match fuel with
  | 0 => None
  | S f =>
      let '(a, changed) := adjust_round messages adjusted in
      if changed then adjust_loop f messages a else Some a
  end.

Definition adjust_context_start_for_tool_chain (messages : list Message) (start_idx : nat) : option nat :=
  if Nat.eqb start_idx 0 || Nat.leb (length messages) start_idx then Some start_idx
  else adjust_loop (S start_idx) messages start_idx.

(** [None] only if the loop above did not finish. *)
Definition session_snapshot_for_context (s : Session) (max_messages : nat) : option SessionSnapshot :=
  let total := length (s_messages s) in
  if Nat.eqb total 0 then Some (mkSessionSnapshot [] false)
  else
    let all := message_clone <$> s_messages s in
    start_idx ← (if Nat.ltb 0 max_messages && Nat.ltb max_messages total
                 then adjust_context_start_for_tool_chain all (total - max_messages) else Some 0);
    Some (mkSessionSnapshot (drop start_idx all) (Nat.ltb 0 start_idx)).

Definition session_snapshot_free (snapshot : SessionSnapshot) : SessionSnapshot :=
  mkSessionSnapshot [] (snap_truncated snapshot).

(** ** The table is a map to the latest session of each key *)

Lemma session_key_hash_fast_bound key : session_key_hash_fast key < SESSION_HASHTABLE_BUCKETS.
Proof.
  unfold session_key_hash_fast, SESSION_HASHTABLE_BUCKETS.
  match goal with |- Z.to_nat ?x < _ => assert (0 <= x < 64)%Z by (by apply Z.mod_pos_bound) end. lia.
Qed.

(** The chain of bucket [b], and the latest index, for the keys of the
    sessions, latest first. *)
Fixpoint chain_of (rkeys : list cstr) (b : nat) : list nat :=
  match rkeys with
  | [] => []
  | k :: r => if Nat.eqb (session_key_hash_fast k) b then length r :: chain_of r b else chain_of r b
  end.

Fixpoint latest (rkeys : list cstr) (key : cstr) : option nat :=
  match rkeys with
  | [] => None
  | k :: r => if str_eq k key then Some (length r) else latest r key
  end.

Definition session_keys (mgr : SessionManager) : list cstr := rev (s_key <$> sm_sessions mgr).

Definition sm_wf (mgr : SessionManager) : Prop :=
  sm_buckets mgr = chain_of (session_keys mgr) <$> seq 0 SESSION_HASHTABLE_BUCKETS /\
  sm_count mgr = length (sm_sessions mgr).

Lemma bucket_lookup mgr key : sm_wf mgr ->
  default [] (sm_buckets mgr !! session_key_hash_fast key) =
  chain_of (session_keys mgr) (session_key_hash_fast key).
Proof.
  intros [-> _]. rewrite list_lookup_fmap, lookup_seq_lt by apply session_key_hash_fast_bound. done.
Qed.

Lemma session_manager_new_wf ws : sm_wf (session_manager_new ws).
Proof. split; [|done]. by vm_compute. Qed.

Lemma session_keys_create mgr key now :
  rev (s_key <$> (sm_sessions mgr ++ [session_new key now])) = key :: session_keys mgr.
Proof. rewrite fmap_app, rev_app_distr. done. Qed.

Lemma insert_chain_of rkeys k :
  <[session_key_hash_fast k := length rkeys :: chain_of rkeys (session_key_hash_fast k)]>
    (chain_of rkeys <$> seq 0 SESSION_HASHTABLE_BUCKETS) =
  chain_of (k :: rkeys) <$> seq 0 SESSION_HASHTABLE_BUCKETS.
Proof.
  apply list_eq. intros b. rewrite list_lookup_fmap.
  destruct (decide (b < SESSION_HASHTABLE_BUCKETS)) as [Hb|Hb].
  - rewrite (lookup_seq_lt 0 _ b) by done. cbn [fmap option_fmap option_map chain_of].
    destruct (decide (session_key_hash_fast k = b)) as [<- |Hne].
    + rewrite list_lookup_insert_eq by (rewrite length_fmap, length_seq; apply session_key_hash_fast_bound).
      by rewrite Nat.eqb_refl.
    + rewrite list_lookup_insert_ne, list_lookup_fmap, lookup_seq_lt by done. cbn.
      by rewrite (proj2 (Nat.eqb_neq _ _) Hne).
  - rewrite (lookup_seq_ge 0 _ b) by lia. apply lookup_ge_None_2.
    rewrite length_insert, length_fmap, length_seq. lia.
Qed.

Lemma session_manager_create_wf alloc_ok now mgr key :
  sm_wf mgr -> sm_wf (fst (session_manager_create alloc_ok now mgr key)).
Proof.
  intros Hwf. unfold session_manager_create, session_manager_create_unlocked.
  destruct alloc_ok; [|done]. split; cbn [fst sm_buckets sm_count sm_sessions].
  - unfold session_keys. cbn [sm_sessions]. rewrite session_keys_create, bucket_lookup by done.
    rewrite (proj1 Hwf), <-insert_chain_of. unfold session_keys. by rewrite length_rev, length_fmap.
  - rewrite length_app. cbn. destruct Hwf as [_ ->]. lia.
Qed.

Lemma update_session_keys mgr id s s' : sm_sessions mgr !! id = Some s -> s_key s' = s_key s ->
  session_keys (update_session mgr id s') = session_keys mgr.
Proof.
  intros Hs Hk. unfold session_keys. cbn. f_equal. rewrite list_fmap_insert, Hk.
  rewrite list_insert_id; [done|]. rewrite list_lookup_fmap. by rewrite Hs.
Qed.

Lemma update_session_wf mgr id s s' : sm_sessions mgr !! id = Some s -> s_key s' = s_key s ->
  sm_wf mgr -> sm_wf (update_session mgr id s').
Proof.
  intros Hs Hk [Hb Hc]. split.
  - rewrite (update_session_keys _ _ _ _ Hs Hk). done.
  - cbn. by rewrite length_insert.
Qed.

Lemma chain_find_latest sessions rkeys post key :
  s_key <$> sessions = rev rkeys ++ post ->
  chain_find sessions key (chain_of rkeys (session_key_hash_fast key)) = latest rkeys key.
Proof.
  revert post. induction rkeys as [|k r IH]; intros post H; [done|].
  cbn [rev] in H. rewrite <-app_assoc in H. specialize (IH ([k] ++ post) H).
  cbn [chain_of latest].
  assert (s_key <$> sessions !! length r = Some k) as Hk.
  { rewrite <-list_lookup_fmap, H. rewrite lookup_app_r by (rewrite length_rev; lia).
    by rewrite length_rev, Nat.sub_diag. }
  destruct (Nat.eqb_spec (session_key_hash_fast k) (session_key_hash_fast key)) as [E|E].
  - cbn [chain_find]. rewrite Hk. cbn. by destruct (str_eq k key).
  - unfold str_eq. rewrite bool_decide_false by congruence. exact IH.
Qed.

Lemma session_manager_get_latest mgr key : sm_wf mgr ->
  session_manager_get mgr key = latest (session_keys mgr) key.
Proof.
  intros Hwf. unfold session_manager_get. rewrite bucket_lookup by done.
  apply (chain_find_latest _ _ []). unfold session_keys. by rewrite rev_involutive, app_nil_r.
Qed.

Lemma latest_spec rkeys key : 
  match latest rkeys key with
  | Some id => rev rkeys !! id = Some key /\ forall id', rev rkeys !! id' = Some key -> id' <= id
  | None => key ∉ rkeys
  end.
Proof.
  induction rkeys as [|k r IH]; cbn; [apply not_elem_of_nil|].
  unfold str_eq. case_bool_decide as Hk.
  - subst k. split; [by rewrite lookup_app_r, length_rev, Nat.sub_diag by (rewrite length_rev; lia)|].
    intros id' H%lookup_lt_Some. rewrite length_app, length_rev in H. cbn in H. lia.
  - assert (forall id', (rev r ++ [k]) !! id' = Some key -> rev r !! id' = Some key) as Hin.
    { intros id' H. apply lookup_app_Some in H as [H|[_ H]]; [done|].
      apply list_lookup_singleton_Some in H as [_ H]. congruence. }
    destruct (latest r key) as [id|].
    + destruct IH as [H1 H2]. split; [by apply lookup_app_l_Some|eauto].
    + apply not_elem_of_cons. split; [congruence|done].
Qed.

Lemma concat_insert_one (x h n m : nat) (f : nat -> list nat) : m <= h < m + n ->
  concat ((fun b => if Nat.eqb h b then x :: f b else f b) <$> seq m n) ≡ₚ x :: concat (f <$> seq m n).
Proof.
  revert m. induction n as [|n IH]; intros m Hm; [lia|]. cbn [seq fmap list_fmap concat].
  destruct (Nat.eqb_spec h m) as [-> |Hne].
  - cbn [app]. constructor. f_equiv. clear IH Hm.
    assert (forall l, Forall (fun b => m <> b) l ->
      concat ((fun b => if Nat.eqb m b then x :: f b else f b) <$> l) = concat (f <$> l)) as Hl.
    { induction 1 as [|b l Hb Hl IH]; [done|]. cbn. by rewrite (proj2 (Nat.eqb_neq _ _) Hb), IH. }
    rewrite Hl; [done|]. apply Forall_seq. lia.
  - rewrite (IH (S m)) by lia. apply Permutation_sym, Permutation_middle.
Qed.

Lemma chains_permutation rkeys :
  concat (chain_of rkeys <$> seq 0 SESSION_HASHTABLE_BUCKETS) ≡ₚ seq 0 (length rkeys).
Proof.
  induction rkeys as [|k r IH]; [by vm_compute|].
  cbn [chain_of length]. rewrite (concat_insert_one (length r) (session_key_hash_fast k)).
  - rewrite IH, seq_S, Permutation_app_comm. done.
  - pose proof (session_key_hash_fast_bound k). lia.
Qed.

(** Steps of the running program on the table. *)
Inductive sm_step : SessionManager -> SessionManager -> Prop :=
  | step_create alloc_ok now key mgr :
      sm_step mgr (fst (session_manager_create alloc_ok now mgr key))
  | step_load alloc_ok now fs key mgr :
      sm_step mgr (fst (fst (session_manager_load alloc_ok now fs mgr key)))
  | step_save fs id mgr :
      sm_step mgr (snd (fst (session_manager_save fs mgr id)))
  | step_add now id s msg mgr : sm_sessions mgr !! id = Some s ->
      sm_step mgr (update_session mgr id (session_add_message now s msg))
  | step_rollback now id s n mgr : sm_sessions mgr !! id = Some s ->
      sm_step mgr (update_session mgr id (session_rollback_messages now s n))
  | step_ref id s mgr : sm_sessions mgr !! id = Some s ->
      sm_step mgr (update_session mgr id (session_ref s))
  | step_unref id s mgr : sm_sessions mgr !! id = Some s ->
      sm_step mgr (update_session mgr id (session_unref s)).

Lemma save_to_key fs path s : s_key (snd (fst (save_to fs path s))) = s_key s.
Proof.
  unfold save_to. destruct (s_needs_full_save s || _ || _).
  - destruct (fs_write _ _ _) as [fs1|]; [|done]. by destruct (fs_rename _ _ _).
  - by destruct (fs_append _ _ _).
Qed.

Lemma rollback_key now s n : s_key (session_rollback_messages now s n) = s_key s.
Proof. unfold session_rollback_messages. by case_match. Qed.

Lemma load_line_key now st line : s_key (fst (load_line now st line)) = s_key (fst st).
Proof. destruct st as [s m]. unfold load_line. repeat case_match; done. Qed.

Lemma load_lines_key now lines st : s_key (fst (fold_left (load_line now) lines st)) = s_key (fst st).
Proof.
  revert st. induction lines as [|l ls IH]; intros st; [done|]. cbn [fold_left].
  by rewrite IH, load_line_key.
Qed.

Lemma load_text_key now s text : s_key (load_text now s text) = s_key s.
Proof.
  unfold load_text.
  pose proof (load_lines_key now (fgets_lines LOAD_LINE_SIZE text) (s, false)) as H.
  destruct (fold_left _ _ _) as [s1 m]. etransitivity; [|exact H]. by destruct m.
Qed.

Lemma sm_step_wf mgr mgr' : sm_wf mgr -> sm_step mgr mgr' -> sm_wf mgr'.
Proof.
  intros Hwf Hstep. inversion Hstep; subst.
  - by apply session_manager_create_wf.
  - unfold session_manager_load. destruct (build_session_file_path _ _ _) as [path|]; [|done].
    pose proof (session_manager_create_wf alloc_ok now mgr key Hwf) as Hc.
    destruct alloc_ok; cbn in Hc |- *; [|done].
    destruct (match fs_read fs path with Some t => Some t | None => _ end) as [text|]; [|done]. cbn.
    eapply update_session_wf; [| |exact Hc].
    + cbn. by rewrite lookup_app_r, Nat.sub_diag by lia.
    + by rewrite load_text_key.
  - unfold session_manager_save. destruct (sm_sessions mgr !! id) as [s|] eqn:E; [|done].
    destruct (build_session_file_path _ _ _) as [p|]; [|done].
    pose proof (save_to_key fs p s) as Hk. destruct (save_to fs p s) as [[fs' s'] err]. cbn in *.
    by eapply update_session_wf.
  - by eapply update_session_wf.
  - eapply update_session_wf; [done|apply rollback_key|done].
  - by eapply update_session_wf.
  - by eapply update_session_wf.
Qed.

(** C17: In every reachable session table, looking a key up returns the most
    recently created session with that key, and NULL only when no session has
    the key. *)
Theorem session_manager_get_correct ws mgr key :
  rtc sm_step (session_manager_new ws) mgr ->
  match session_manager_get mgr key with
  | Some id => s_key <$> sm_sessions mgr !! id = Some key /\
               forall id', s_key <$> sm_sessions mgr !! id' = Some key -> id' <= id
  | None => Forall (fun s => s_key s <> key) (sm_sessions mgr)
  end.
Proof.
  intros H. assert (sm_wf mgr) as Hwf.
  { eapply rtc_invariant; [exact sm_step_wf|apply session_manager_new_wf|exact H]. }
  rewrite session_manager_get_latest by done. pose proof (latest_spec (session_keys mgr) key) as Hl.
  destruct (latest _ _).
  - unfold session_keys in Hl. rewrite rev_involutive in Hl. setoid_rewrite list_lookup_fmap in Hl.
    exact Hl.
  - apply Forall_forall. intros s Hs Hk. apply Hl. unfold session_keys.
    apply list_elem_of_In, in_rev. rewrite rev_involutive. apply list_elem_of_In, list_elem_of_fmap. by exists s.
Qed.

(** Shutting the table down releases every session exactly once, whatever
    happened before. *)
Theorem session_manager_free_once ws mgr :
  rtc sm_step (session_manager_new ws) mgr ->
  session_manager_free mgr ≡ₚ seq 0 (length (sm_sessions mgr)).
Proof.
  intros H. assert (sm_wf mgr) as [Hb _].
  { eapply rtc_invariant; [exact sm_step_wf|apply session_manager_new_wf|exact H]. }
  unfold session_manager_free. rewrite Hb, chains_permutation. unfold session_keys.
  by rewrite length_rev, length_fmap.
Qed.

(** ** File names *)

Definition file_name_char (c : ascii) : bool :=
  isdigit c || in_range 97 122 c || bool_decide (c = "_"%char) || bool_decide (c = "-"%char).

Lemma prefix_char_safe c : file_name_char (prefix_char c) = true.
Proof. by destruct c as [[] [] [] [] [] [] [] []]; vm_compute. Qed.

Lemma digit_char_hex d : (d < 16)%N -> file_name_char (digit_char false d) = true.
Proof.
  intros H. assert (exists n, d = N.of_nat n /\ n < 16) as (n & -> & Hn) by (exists (N.to_nat d); lia).
  clear H. do 16 (destruct n as [|n]; [by vm_compute|]). lia.
Qed.

Lemma print_base16_safe fuel n acc : Forall (fun c => file_name_char c = true) acc ->
  Forall (fun c => file_name_char c = true) (print_base 16 fuel n acc).
Proof.
  revert n acc. induction fuel as [|f IH]; intros n acc Ha; [done|]. cbn [print_base].
  assert (file_name_char (digit_char false (n mod 16)) = true) by (apply digit_char_hex; by apply N.mod_lt).
  case_match; [by constructor|]. apply IH. by constructor.
Qed.

Lemma print_base16_length fuel n acc k : (n < 16 ^ N.of_nat (S k))%N ->
  length (print_base 16 fuel n acc) <= S k + length acc.
Proof.
  revert n acc k. induction fuel as [|f IH]; intros n acc k Hn; cbn [print_base]; [lia|].
  destruct (N.ltb_spec n 16); [cbn; lia|]. destruct k as [|k]; [cbn in Hn; lia|].
  etransitivity; [apply (IH _ _ k)|cbn; lia].
  apply N.Div0.div_lt_upper_bound. rewrite Nat2N.inj_succ, N.pow_succ_r' in Hn. exact Hn.
Qed.

Lemma session_key_hash_range key : (0 <= session_key_hash key < 2 ^ 64)%Z.
Proof.
  unfold session_key_hash.
  assert (forall h, (0 <= h < 2 ^ 64)%Z -> (0 <= fold_left (fun h c =>
    wrap_u 64 (Z.lxor h (Z.of_N (code c)) * 1099511628211)) key h < 2 ^ 64)%Z) as H; [|by apply H].
  induction key as [|c key IH]; intros h Hh; [done|]. cbn [fold_left]. apply IH. by apply wrap_u_range.
Qed.

Lemma hash_hex_length key : length (pad_left 16 "0"%char (fmt_x (Z.to_N (session_key_hash key)))) = 16.
Proof.
  unfold pad_left. rewrite length_app, length_replicate.
  assert (length (fmt_x (Z.to_N (session_key_hash key))) <= 16); [|lia].
  unfold fmt_x. etransitivity; [apply (print_base16_length _ _ _ 15)|cbn; lia].
  pose proof (session_key_hash_range key). change (16 ^ N.of_nat 16)%N with (Z.to_N (2 ^ 64)). lia.
Qed.

Lemma session_channel_prefix_length key : 1 <= length (session_channel_prefix key 16) <= 12.
Proof.
  unfold session_channel_prefix. set (raw := match strchr key ":"%char with Some i => _ | None => _ end).
  pose proof (length_take raw (Nat.min 12 (16 - 1))) as Hl.
  destruct (prefix_char <$> take (Nat.min 12 (16 - 1)) raw) as [|c r] eqn:E; [cbn; lia|].
  rewrite <-E, length_fmap, Hl. apply (f_equal length) in E. rewrite length_fmap, Hl in E. cbn [length] in E. lia.
Qed.

Lemma compact_name_full key : compact_name key =
  session_channel_prefix key 16 ++ $"_" ++ pad_left 16 "0"%char (fmt_x (Z.to_N (session_key_hash key))).
Proof.
  unfold compact_name. apply truncate_to_id. pose proof (session_channel_prefix_length key).
  rewrite !length_app, hash_hex_length. cbn. lia.
Qed.

Lemma compact_name_safe key : Forall (fun c => file_name_char c = true) (compact_name key).
Proof.
  rewrite compact_name_full. apply Forall_app. split.
  - unfold session_channel_prefix. set (raw := match strchr key ":"%char with Some i => _ | None => _ end).
    destruct (prefix_char <$> take (Nat.min 12 (16 - 1)) raw) as [|c r] eqn:E; [by repeat constructor|].
    rewrite <-E. apply Forall_fmap, Forall_forall. intros x _. apply prefix_char_safe.
  - apply Forall_app. split; [by repeat constructor|]. apply Forall_app.
    split; [by apply Forall_replicate|]. by apply print_base16_safe.
Qed.

Lemma compact_name_length key : length (compact_name key) <= 29.
Proof.
  rewrite compact_name_full, !length_app, hash_hex_length.
  pose proof (session_channel_prefix_length key). cbn. lia.
Qed.

(** Whatever the session key, its file is a direct child of the sessions
    directory: the name has 18 to 29 bytes, all lower-case letters, digits, [_] or [-]
    (no separator, no dot), is never cut off, and the path is refused only
    when the workspace path itself is within 45 bytes of the limit. *)
Theorem session_file_path_safe ws key :
  exists name, build_session_file_path ws key FILE_PATH_MAX =
    (if Nat.leb FILE_PATH_MAX (length ws + length name + 16) then None
     else Some (ws ++ $"/sessions/" ++ name ++ $".jsonl")) /\
  18 <= length name <= 29 /\ Forall (fun c => file_name_char c = true) name.
Proof.
  exists (compact_name key). unfold build_session_file_path.
  assert (length (ws ++ $"/sessions/" ++ compact_name key ++ $".jsonl") = length ws + length (compact_name key) + 16) as Hl
    by (rewrite !length_app; cbn; lia).
  rewrite Hl. split_and!; [done| |apply compact_name_length|apply compact_name_safe].
  rewrite compact_name_full, !length_app, hash_hex_length.
  pose proof (session_channel_prefix_length key). cbn. lia.
Qed.

(** ** Snapshots keep tool chains whole *)

Lemma message_clone_id m : message_clone m = m.
Proof.
  destruct m as [r c ts tcs ti n]. unfold message_clone. cbn.
  assert (forall l pre, fold_left (fun c tc => message_add_tool_call true c (Some (tc_id tc)) (Some (tc_name tc))
    (Some (tc_arguments tc))) l (mkMessage r c ts pre ti n) = mkMessage r c ts (pre ++ l) ti n) as H.
  { induction l as [|[i nm a] l IH]; intros pre; cbn; [by rewrite app_nil_r|].
    rewrite IH. f_equal. by rewrite <-app_assoc. }
  apply (H tcs []).
Qed.

Lemma messages_clone_id (ms : list Message) : message_clone <$> ms = ms.
Proof. induction ms as [|m ms IH]; [done|]. cbn. by rewrite message_clone_id, IH. Qed.

(** Message [i] issued the tool call that message [j] answers. *)
Definition calls (ms : list Message) (i j : nat) : Prop :=
  exists a t, ms !! i = Some a /\ ms !! j = Some t /\ m_role t = ROLE_TOOL /\
  assistant_has_tool_call_id a (m_tool_call_id t) = true.

Lemma find_caller_spec ms id j :
  match find_caller ms id j with
  | Some i => i < j /\ exists a, ms !! i = Some a /\ assistant_has_tool_call_id a id = true
  | None => forall i a, i < j -> ms !! i = Some a -> assistant_has_tool_call_id a id = false
  end.
Proof.
  induction j as [|j IH]; cbn [find_caller]; [intros; lia|].
  destruct (ms !! j) as [c|] eqn:E.
  - destruct (assistant_has_tool_call_id c id) eqn:Hc; [split; [lia|eauto]|].
    destruct (find_caller ms id j); [destruct IH; split; [lia|done]|].
    intros i a Hi Ha. destruct (decide (i = j)) as [-> |]; [by simplify_eq|]. apply (IH i); [lia|done].
  - destruct (find_caller ms id j); [destruct IH; split; [lia|done]|].
    intros i a Hi Ha. destruct (decide (i = j)) as [-> |]; [by simplify_eq|]. apply (IH i); [lia|done].
Qed.

(** A position where the context may start: its first message does not answer
    an earlier call, and is not the answer part of a call before it. *)
Definition good_start (ms : list Message) (a : nat) : Prop :=
  (forall i, i < a -> ~ calls ms i a) /\
  (forall p, 0 < a -> ms !! (a - 1) = Some p -> m_role p = ROLE_ASSISTANT -> m_tool_calls p = []).

Lemma adjust_round_spec ms a : let '(a', changed) := adjust_round ms a in
  a' <= a /\ if changed then a' < a else a' = a /\ good_start ms a.
Proof.
  unfold adjust_round. destruct (Nat.eqb_spec a 0) as [-> |Ha].
  { split; [lia|]. split; [done|]. split; intros; lia. }
  set (first := match ms !! a with Some f => _ | None => (a, false) end).
  assert (let '(a1, c1) := first in a1 <= a /\ if c1 then a1 < a
          else a1 = a /\ forall i, i < a -> ~ calls ms i a) as Hfirst.
  { unfold first. destruct (ms !! a) as [m|] eqn:E.
    - case_bool_decide as Hr.
      + pose proof (find_caller_spec ms (m_tool_call_id m) a) as Hf.
        destruct (find_caller _ _ _); [lia|]. split; [lia|]. split; [done|].
        intros i Hi (x & t & Hx & Ht & _ & Hc). simplify_eq. by rewrite (Hf i x Hi Hx) in Hc.
      + split; [lia|]. split; [done|]. intros i Hi (x & t & _ & Ht & Hrt & _). by simplify_eq.
    - split; [lia|]. split; [done|]. intros i Hi (x & t & _ & Ht & _). by simplify_eq. }
  destruct first as [a1 c1]. destruct Hfirst as [Hle Hc1].
  destruct (Nat.ltb_spec 0 a1) as [H1|H1].
  - destruct (ms !! (a1 - 1)) as [p|] eqn:Ep.
    + destruct (bool_decide (m_role p = ROLE_ASSISTANT) && Nat.ltb 0 (length (m_tool_calls p))) eqn:Eb; [lia|].
      split; [done|]. destruct c1; [done|]. destruct Hc1 as [-> Hc1]. split; [done|]. split; [done|].
      intros q _ Hq Hr. rewrite Ep in Hq. injection Hq as <-. rewrite bool_decide_true in Eb by done. by destruct (m_tool_calls p).
    + split; [done|]. destruct c1; [done|]. destruct Hc1 as [-> Hc1]. split; [done|]. split; [done|].
      intros q _ Hq. by simplify_eq.
  - destruct c1; [lia|]. destruct Hc1 as [-> ?]. lia.
Qed.

(** The do-while loop ends, with at most one round per message skipped. *)
Lemma adjust_loop_spec ms a fuel : a < fuel ->
  exists r, adjust_loop fuel ms a = Some r /\ r <= a /\ good_start ms r.
Proof.
  revert a. induction fuel as [|f IH]; intros a Hf; [lia|]. cbn [adjust_loop].
  pose proof (adjust_round_spec ms a) as H. destruct (adjust_round ms a) as [a' []].
  - destruct (IH a') as (r & -> & Hr & Hg); [lia|]. exists r. split_and!; [done|lia|done].
  - destruct H as (Hle & -> & Hg). exists a. done.
Qed.

(** The answers to a call follow it, with only tool messages in between. *)
Definition chained (ms : list Message) : Prop :=
  forall j t, ms !! j = Some t -> m_role t = ROLE_TOOL ->
  exists i, i < j /\ calls ms i j /\
  forall k m, i < k < j -> ms !! k = Some m -> m_role m = ROLE_TOOL.

(** Building the model's context ends, and yields the whole history or a
    suffix of at least [max_messages] of it; and when every tool result of
    the history follows the assistant message that called the tool with only
    tool results in between, the same holds inside the snapshot: the
    truncation never separates a tool result from its call. *)
Theorem session_snapshot_keeps_tool_chains s max_messages :
  exists snap start, session_snapshot_for_context s max_messages = Some snap /\
  snap_messages snap = drop start (s_messages s) /\ snap_truncated snap = Nat.ltb 0 start /\
  (0 < max_messages -> Nat.min max_messages (length (s_messages s)) <= length (snap_messages snap)) /\
  (chained (s_messages s) -> chained (snap_messages snap)).
Proof.
  unfold session_snapshot_for_context. set (ms := s_messages s) in *.
  destruct (Nat.eqb_spec (length ms) 0) as [H0|H0].
  { destruct ms; [|done]. exists (mkSessionSnapshot [] false), 0. cbn. split_and!; [done..|lia|done]. }
  rewrite messages_clone_id.
  assert (forall st, (st = 0 \/ good_start ms st) -> st <= length ms - max_messages ->
    exists snap start, Some (mkSessionSnapshot (drop st ms) (Nat.ltb 0 st)) = Some snap /\
    snap_messages snap = drop start ms /\ snap_truncated snap = Nat.ltb 0 start /\
    (0 < max_messages -> Nat.min max_messages (length ms) <= length (snap_messages snap)) /\
    (chained ms -> chained (snap_messages snap))) as Hgood.
  { intros st Hg Hst. eexists _, st. split_and!; [done..|cbn; rewrite length_drop; lia|].
    cbn. intros Hch j t Hj Hr. rewrite lookup_drop in Hj.
    destruct (Hch _ _ Hj Hr) as (i & Hi & (a & t' & Ha & Ht' & _ & Hc) & Hmid). simplify_eq.
    assert (st <= i) as Hsi.
    { destruct Hg as [-> |[Hg _]]; [lia|]. destruct (decide (st <= i)); [done|]. exfalso.
      assert (exists m, ms !! st = Some m /\ m_role m = ROLE_TOOL) as (m & Hm & Hmr).
      { destruct (decide (j = 0)) as [-> |]; [rewrite Nat.add_0_r in *; by exists t|].
        assert (st < length ms) as [m Hm]%lookup_lt_is_Some by (apply lookup_lt_Some in Hj; lia).
        exists m. split; [done|]. eapply (Hmid st); [lia|done]. }
      destruct (Hch _ _ Hm Hmr) as (i' & Hi' & Hcall & _). by apply (Hg i'). }
    exists (i - st). split; [lia|]. split.
    - exists a, t. rewrite !lookup_drop. replace (st + (i - st)) with i by lia. done.
    - intros k m Hk Hm. rewrite lookup_drop in Hm. eapply (Hmid (st + k)); [lia|done]. }
  destruct (Nat.ltb 0 max_messages && Nat.ltb max_messages (length ms)) eqn:Eb.
  - apply andb_prop in Eb as [H1%Nat.ltb_lt H2%Nat.ltb_lt].
    unfold adjust_context_start_for_tool_chain.
    rewrite (proj2 (Nat.eqb_neq _ _)) by lia. rewrite (proj2 (Nat.leb_gt _ _)) by lia. cbn [orb].
    destruct (adjust_loop_spec ms (length ms - max_messages) (S (length ms - max_messages)) ltac:(lia))
      as (r & -> & Hr & Hg).
    cbn [mbind option_bind]. apply Hgood; [by right|lia].
  - cbn [mbind option_bind]. apply Hgood; [by left|lia].
Qed.

(** ** Saving and loading *)

(** The part of a message its line keeps. *)
Definition saved_image (m : Message) : Message :=
  {| m_role := m_role m; m_content := m_content m; m_timestamp := m_timestamp m;
     m_tool_calls := if bool_decide (m_role m = ROLE_ASSISTANT) then m_tool_calls m else [];
     m_tool_call_id := if bool_decide (m_role m = ROLE_TOOL) then m_tool_call_id m else [];
     m_name := if bool_decide (m_role m = ROLE_TOOL) then m_name m else [] |}.

Definition tool_call_ok (tc : ToolCall) : bool :=
  str_ok (tc_id tc) && str_ok (tc_name tc) && str_ok (tc_arguments tc).

(** No embedded NUL: true of every message of the C program. *)
Definition message_ok (m : Message) : bool :=
  str_ok (m_content m) && str_ok (m_timestamp m) && str_ok (m_tool_call_id m) && str_ok (m_name m) &&
  forallb tool_call_ok (m_tool_calls m).

(** The line fits the buffer the loader reads lines with. *)
Definition line_fits (m : Message) : bool := Nat.leb (length (serialize_message m) + 1) LOAD_LINE_SIZE.

Lemma forallb_fmap_true {A B} (f : A -> B) (p : A -> bool) (q : B -> bool) l :
  (forall x, p x = true -> q (f x) = true) -> forallb p l = true -> forallb q (f <$> l) = true.
Proof. intros H. induction l as [|x l IH]; [done|]. cbn. intros [? ?]%andb_prop. by rewrite H, IH. Qed.

Lemma message_json_ok m : message_ok m = true -> json_ok 0 (message_json m) = true.
Proof.
  unfold message_ok. intros [[[[H1 H2]%andb_prop H3]%andb_prop H4]%andb_prop H5]%andb_prop.
  assert (forallb (json_ok 2) (tool_call_json <$> m_tool_calls m) = true) as Htc.
  { eapply forallb_fmap_true; [|exact H5]. intros tc. unfold tool_call_ok.
    intros [[Ha Hb]%andb_prop Hc]%andb_prop. cbn -[str_ok]. by rewrite Ha, Hb, Hc. }
  unfold message_json.
  destruct (bool_decide (m_role m = ROLE_ASSISTANT) && Nat.ltb 0 (length (m_tool_calls m)));
    destruct (bool_decide (m_role m = ROLE_TOOL));
    try destruct (Nat.ltb 0 (length (m_tool_call_id m))), (Nat.ltb 0 (length (m_name m)));
    cbn -[str_ok]; repeat (apply andb_true_intro; split); try done; by destruct (m_role m).
Qed.

Lemma tool_calls_of_json_id tcs : tool_calls_of_json (Some (JArr (tool_call_json <$> tcs))) = tcs.
Proof.
  unfold tool_calls_of_json. cbn [is_array]. apply omap_fmap_id. intros [i n a].
  unfold tool_call_json. by eval_member.
Qed.

Lemma message_of_json_json m : message_of_json (message_json m) = Some (saved_image m).
Proof.
  unfold message_of_json, message_json, saved_image.
  destruct m as [[] c ts tcs ti n]; cbn [m_role m_content m_timestamp m_tool_calls m_tool_call_id m_name].
  - rewrite !bool_decide_false by done. cbn [andb app]. by eval_member.
  - rewrite bool_decide_true by done. rewrite !bool_decide_false by done. cbn [andb].
    destruct tcs as [|tc tcs]; cbn [length Nat.ltb Nat.leb app]; eval_member; [done|].
    cbn [is_string mbind option_bind role_text role_of_text]. do 2 f_equal. apply tool_calls_of_json_id.
  - rewrite !bool_decide_false by done. rewrite bool_decide_true by done. cbn [andb app].
    destruct ti, n; cbn [length Nat.ltb Nat.leb app]; by eval_member.
Qed.

Lemma json_line_read j : json_ok 0 j = true ->
  exists t, json_line j = t ++ [ch_nl] /\ printable t /\ 1 <= length t /\
  take_while not_nul (t ++ [ch_nl]) = t ++ [ch_nl] /\ cJSON_Parse (t ++ [ch_nl]) = Some j.
Proof.
  intros Hok. destruct (unformatted_line j Hok) as (t & Ht & Hp & Hl & Hr).
  exists t. unfold json_line. rewrite Ht. split_and!; [done..| |by apply Hr].
  apply take_while_not_nul. rewrite elem_of_app. intros [H|H].
  - by eapply (printable_not_elem "000"%char).
  - apply list_elem_of_singleton in H. done.
Qed.

Lemma load_line_json now s md j : json_ok 0 j = true ->
  load_line now (s, md) (json_line j) =
  if match is_string (get_object_item (Some j) $"_type") with Some t => str_eq t $"metadata" | None => false end
  then (apply_metadata j s, true)
  else match message_of_json j with
       | Some msg => (session_add_message now s msg, md) | None => (s, md) end.
Proof.
  intros Hok. destruct (json_line_read j Hok) as (t & -> & _ & Hl & Hn & Hp).
  unfold load_line. rewrite Hn, Hp. rewrite length_app. cbn [length].
  destruct (Nat.ltb_spec (length t + 1) 2); [lia|]. done.
Qed.

Lemma load_line_message now s md m : message_ok m = true ->
  load_line now (s, md) (serialize_message m) = (session_add_message now s (saved_image m), md).
Proof.
  intros Hm. unfold serialize_message. rewrite load_line_json by (by apply message_json_ok).
  rewrite message_of_json_json.
  assert (get_object_item (Some (message_json m)) $"_type" = None) as ->; [|done].
  unfold message_json. destruct (bool_decide (m_role m = ROLE_ASSISTANT) && Nat.ltb 0 (length (m_tool_calls m)));
    destruct (bool_decide (m_role m = ROLE_TOOL));
    try destruct (Nat.ltb 0 (length (m_tool_call_id m))), (Nat.ltb 0 (length (m_name m))); by eval_member.
Qed.

Definition meta_ok (s : Session) (save_count : nat) : bool := json_ok 0 (metadata_json s save_count).

Lemma load_line_metadata now s md s0 n : meta_ok s0 n = true ->
  load_line now (s, md) (serialize_metadata s0 n) = (apply_metadata (metadata_json s0 n) s, true).
Proof.
  intros Hok. unfold serialize_metadata. rewrite load_line_json by done.
  assert (get_object_item (Some (metadata_json s0 n)) $"_type" = Some (JStr $"metadata")) as ->; [|done].
  unfold metadata_json. by eval_member.
Qed.

Lemma apply_metadata_json s0 n s : (0 <= s_last_consolidated s0 < 2 ^ 64)%Z ->
  apply_metadata (metadata_json s0 n) s =
  {| s_key := s_key s; s_messages := s_messages s; s_created_at := s_created_at s0;
     s_updated_at := s_updated_at s0; s_last_consolidated := s_last_consolidated s0;
     s_last_saved_count := s_last_saved_count s; s_needs_full_save := s_needs_full_save s;
     s_ref_count := s_ref_count s |}.
Proof.
  intros Hr. unfold apply_metadata, metadata_json. eval_member. cbn [is_number].
  unfold num_size, num_trunc, num_of_Z. cbn [n_exp n_mant]. change (0 <=? 0)%Z with true. cbn iota.
  rewrite !Z.pow_0_r, !Z.mul_1_r. rewrite wrap_u_id by done. done.
Qed.

Lemma load_messages now s md ms : forallb message_ok ms = true ->
  fold_left (load_line now) (serialize_message <$> ms) (s, md) =
  (fold_left (session_add_message now) (saved_image <$> ms) s, md).
Proof.
  revert s. induction ms as [|m ms IH]; intros s; [done|]. cbn [forallb]. intros [Hm Hms]%andb_prop.
  rewrite !fmap_cons. cbn [fold_left]. rewrite load_line_message by done. by apply IH.
Qed.

Lemma fold_add_messages now ms s :
  fold_left (session_add_message now) ms s =
  {| s_key := s_key s; s_messages := s_messages s ++ ms; s_created_at := s_created_at s;
     s_updated_at := if ms is [] then s_updated_at s else now;
     s_last_consolidated := s_last_consolidated s; s_last_saved_count := s_last_saved_count s;
     s_needs_full_save := s_needs_full_save s; s_ref_count := s_ref_count s |}.
Proof.
  revert s. induction ms as [|m ms IH]; intros s; cbn [fold_left].
  - rewrite app_nil_r. by destruct s.
  - rewrite IH. cbn. rewrite <-app_assoc. cbn. by destruct ms.
Qed.

Lemma fgets_json_lines js : Forall (fun j => json_ok 0 j = true /\ length (json_line j) + 1 <= LOAD_LINE_SIZE) js ->
  fgets_lines LOAD_LINE_SIZE (js ≫= json_line) = json_line <$> js.
Proof.
  induction 1 as [|j js [Hok Hlen] Hjs IH]; [done|]. rewrite bind_cons, fmap_cons.
  destruct (json_line_read j Hok) as (t & Ht & Hp & _). rewrite Ht in Hlen |- *.
  rewrite <-app_assoc. cbn [app]. rewrite length_app in Hlen. cbn [length] in Hlen.
  rewrite fgets_lines_line; [by rewrite IH| |unfold LOAD_LINE_SIZE in *; lia].
  by apply printable_not_elem.
Qed.

(** The text of a file that holds [ms] under the metadata of [s0]. *)
Definition disk_image (s0 : Session) (n : nat) (ms : list Message) : cstr :=
  serialize_metadata s0 n ++ (ms ≫= serialize_message).

Lemma messages_json_lines ms : (message_json <$> ms) ≫= json_line = ms ≫= serialize_message.
Proof. induction ms as [|m ms IH]; [done|]. rewrite fmap_cons, !bind_cons. f_equal. exact IH. Qed.

Lemma image_messages_ok ms : forallb (fun m => message_ok m && line_fits m) ms = true ->
  forallb message_ok ms = true /\
  Forall (fun j => json_ok 0 j = true /\ length (json_line j) + 1 <= LOAD_LINE_SIZE) (message_json <$> ms).
Proof.
  rewrite !forallb_forall. intros H. split.
  - intros m Hm. by apply H, andb_prop in Hm as [? _].
  - apply Forall_fmap, Forall_forall. intros m Hm. apply list_elem_of_In, H, andb_prop in Hm as [H1 H2].
    split; [by apply message_json_ok|]. by apply Nat.leb_le.
Qed.

Lemma fgets_disk_image s0 n ms :
  meta_ok s0 n = true -> length (serialize_metadata s0 n) + 1 <= LOAD_LINE_SIZE ->
  forallb (fun m => message_ok m && line_fits m) ms = true ->
  fgets_lines LOAD_LINE_SIZE (disk_image s0 n ms) = serialize_metadata s0 n :: (serialize_message <$> ms).
Proof.
  intros Hmeta Hmlen Hms. pose proof (fgets_json_lines (metadata_json s0 n :: (message_json <$> ms))) as H.
  rewrite bind_cons, fmap_cons, <-list_fmap_compose, messages_json_lines in H.
  apply H. constructor; [by split|]. by apply image_messages_ok.
Qed.

Lemma fold_left_cons {A B} (f : A -> B -> A) b l a : fold_left f (b :: l) a = fold_left f l (f a b).
Proof. done. Qed.

Lemma load_finish_true s : load_finish (s, true) = mark_saved s (length (s_messages s)) false.
Proof. done. Qed.

Lemma load_disk_image now s s0 n ms :
  meta_ok s0 n = true -> length (serialize_metadata s0 n) + 1 <= LOAD_LINE_SIZE ->
  (0 <= s_last_consolidated s0 < 2 ^ 64)%Z ->
  forallb (fun m => message_ok m && line_fits m) ms = true ->
  load_text now s (disk_image s0 n ms) =
  {| s_key := s_key s; s_messages := s_messages s ++ (saved_image <$> ms);
     s_created_at := s_created_at s0;
     s_updated_at := if ms is [] then s_updated_at s0 else now;
     s_last_consolidated := s_last_consolidated s0;
     s_last_saved_count := length (s_messages s) + length ms; s_needs_full_save := false;
     s_ref_count := s_ref_count s |}.
Proof.
  intros Hmeta Hmlen Hlc Hms. unfold load_text. rewrite fgets_disk_image by done.
  rewrite fold_left_cons, load_line_metadata, apply_metadata_json by done.
  rewrite load_messages by (by apply image_messages_ok). rewrite fold_add_messages, load_finish_true. unfold mark_saved.
  cbn [s_key s_messages s_created_at s_updated_at s_last_consolidated s_last_saved_count s_needs_full_save s_ref_count].
  rewrite length_app, length_fmap. f_equal. by destruct ms.
Qed.

Definition tmp_path (filepath : cstr) : cstr := truncate_to (FILE_PATH_MAX + 8) (filepath ++ $".tmp").

Lemma tmp_path_ne filepath : length filepath < FILE_PATH_MAX -> tmp_path filepath <> filepath.
Proof.
  intros H. unfold tmp_path. rewrite truncate_to_id by (rewrite length_app; cbn [length list_ascii_of_string]; lia).
  intros E. apply (f_equal length) in E. rewrite length_app in E. cbn in E. lia.
Qed.

(** A full save that the system grants writes the disk image. *)
Lemma save_to_full fs filepath s :
  s_needs_full_save s || negb (fs_exists fs filepath) || Nat.ltb (length (s_messages s)) (s_last_saved_count s) = true ->
  fs_writable fs (tmp_path filepath) = true -> fs_rename_ok fs (tmp_path filepath) filepath = true ->
  save_to fs filepath s =
  (fs_set fs (<[filepath := disk_image s (length (s_messages s)) (s_messages s)]>
     (delete (tmp_path filepath) (<[tmp_path filepath := disk_image s (length (s_messages s)) (s_messages s)]> (fs_files fs)))),
   mark_saved s (length (s_messages s)) false, err_ok).
Proof.
  intros Hfull Hw Hr. unfold save_to. rewrite Hfull. fold (tmp_path filepath).
  unfold fs_write. rewrite Hw. unfold fs_rename. cbn [fs_rename_ok fs_set fs_files]. rewrite Hr.
  rewrite lookup_insert_eq. done.
Qed.

Lemma save_to_append fs filepath s :
  s_needs_full_save s || negb (fs_exists fs filepath) || Nat.ltb (length (s_messages s)) (s_last_saved_count s) = false ->
  fs_writable fs filepath = true ->
  save_to fs filepath s =
  (fs_set fs (<[filepath := default [] (fs_files fs !! filepath) ++
                            (drop (s_last_saved_count s) (s_messages s) ≫= serialize_message)]> (fs_files fs)),
   mark_saved s (length (s_messages s)) (s_needs_full_save s), err_ok).
Proof. intros Hfull Hw. unfold save_to. rewrite Hfull. unfold fs_append. by rewrite Hw. Qed.

(** C6: A session saved in full, to a file that can be opened and renamed, and
    loaded by a fresh runtime comes back with its key, every message (the fields
    its role carries) in order, its creation time and its consolidation mark,
    if its texts are UTF-8 without NUL ([message_ok], [meta_ok]) and each line
    of the file fits the 4096 bytes the loader reads a line into ([line_fits]):
    a longer message is lost ([session_long_message_lost]). Only [updated_at]
    is not restored: adding the messages while loading sets it to the time of
    the load. *)
Theorem session_save_load ws fs s filepath now :
  build_session_file_path ws (s_key s) FILE_PATH_MAX = Some filepath ->
  s_needs_full_save s = true ->
  fs_writable fs (tmp_path filepath) = true -> fs_rename_ok fs (tmp_path filepath) filepath = true ->
  meta_ok s (length (s_messages s)) = true ->
  length (serialize_metadata s (length (s_messages s))) + 1 <= LOAD_LINE_SIZE ->
  (0 <= s_last_consolidated s < 2 ^ 64)%Z ->
  forallb (fun m => message_ok m && line_fits m) (s_messages s) = true ->
  exists fs' s' mgr',
    save_to fs filepath s = (fs', s', err_ok) /\
    session_manager_load true now fs' (session_manager_new ws) (s_key s) = (mgr', Some 0, err_ok) /\
    sm_sessions mgr' =
      [{| s_key := s_key s; s_messages := saved_image <$> s_messages s;
          s_created_at := s_created_at s;
          s_updated_at := if s_messages s is [] then s_updated_at s else now;
          s_last_consolidated := s_last_consolidated s;
          s_last_saved_count := length (s_messages s); s_needs_full_save := false; s_ref_count := 1 |}].
Proof.
  intros Hpath Hfull Hw Hr Hmeta Hmlen Hlc Hms.
  eexists _, _, _. split; [apply save_to_full; [by rewrite Hfull|done..]|].
  unfold session_manager_load, session_manager_create, session_manager_create_unlocked.
  cbn [sm_workspace_path session_manager_new]. rewrite Hpath.
  unfold fs_read. cbn [fs_files fs_set]. rewrite lookup_insert_eq. split; [reflexivity|].
  cbn [sm_sessions update_session app length].
  change (<[0:=?x]> [?y]) with [x]. rewrite load_disk_image by done. done.
Qed.

(** The operations of the running program on one session and its file.
    Rolling back is restricted to messages that were not saved yet. *)
Inductive persist_step (filepath : cstr) : Fs * Session -> Fs * Session -> Prop :=
  | persist_add now fs s msg :
      persist_step filepath (fs, s) (fs, session_add_message now s msg)
  | persist_rollback now fs s n : s_last_saved_count s <= n ->
      persist_step filepath (fs, s) (fs, session_rollback_messages now s n)
  | persist_consolidate fs s n :
      persist_step filepath (fs, s)
        (fs, {| s_key := s_key s; s_messages := s_messages s; s_created_at := s_created_at s;
                s_updated_at := s_updated_at s; s_last_consolidated := n;
                s_last_saved_count := s_last_saved_count s; s_needs_full_save := true;
                s_ref_count := s_ref_count s |})
  | persist_save fs s :
      persist_step filepath (fs, s) (fst (save_to fs filepath s))
  | persist_open fs s writable :
      persist_step filepath (fs, s) (mkFs (fs_files fs) writable (fs_rename_ok fs), s).

(** What holds of a session and its file between two steps. *)
Definition persist_inv (filepath : cstr) (st : Fs * Session) : Prop :=
  let '(fs, s) := st in
  fs_rename_ok fs (tmp_path filepath) filepath = true /\
  s_last_saved_count s <= length (s_messages s) /\
  (s_needs_full_save s = true \/ exists s0 n0, fs_files fs !! filepath =
     Some (disk_image s0 n0 (take (s_last_saved_count s) (s_messages s)))).

Lemma disk_image_app s0 n0 ms ms' : disk_image s0 n0 ms ++ (ms' ≫= serialize_message) = disk_image s0 n0 (ms ++ ms').
Proof. unfold disk_image. by rewrite bind_app, app_assoc. Qed.

Lemma save_to_inv filepath fs s fs' s' err :
  persist_inv filepath (fs, s) -> save_to fs filepath s = (fs', s', err) ->
  persist_inv filepath (fs', s') /\
  (is_err err = false -> s_needs_full_save s' = false /\ s_messages s' = s_messages s /\
    exists s0 n0, fs_files fs' !! filepath = Some (disk_image s0 n0 (s_messages s))).
Proof.
  intros (Hren & Hle & Hfile) Hsave.
  destruct (s_needs_full_save s || negb (fs_exists fs filepath) ||
            Nat.ltb (length (s_messages s)) (s_last_saved_count s)) eqn:Hfull.
  - destruct (fs_writable fs (tmp_path filepath)) eqn:Hw.
    + rewrite save_to_full in Hsave by done. injection Hsave as <- <- <-.
      assert (exists s0 n0, (<[filepath:=disk_image s (length (s_messages s)) (s_messages s)]>
        (delete (tmp_path filepath) (<[tmp_path filepath:=disk_image s (length (s_messages s)) (s_messages s)]> (fs_files fs))))
        !! filepath = Some (disk_image s0 n0 (s_messages s))) as Hl by (rewrite lookup_insert_eq; eauto).
      split; [|done]. split_and!; [done|done|]. right. cbn [s_last_saved_count mark_saved s_messages].
      by rewrite take_ge by done.
    + unfold save_to in Hsave. rewrite Hfull in Hsave. fold (tmp_path filepath) in Hsave.
      unfold fs_write in Hsave. rewrite Hw in Hsave. injection Hsave as <- <- <-. by split.
  - destruct (fs_writable fs filepath) eqn:Hw.
    + rewrite save_to_append in Hsave by done. injection Hsave as <- <- <-.
      apply orb_false_elim in Hfull as [[Hf _]%orb_false_elim _].
      destruct Hfile as [Hfile|(s0 & n0 & Hfile)]; [congruence|].
      assert (fs_files (fs_set fs (<[filepath:=default [] (fs_files fs !! filepath) ++
          (drop (s_last_saved_count s) (s_messages s) ≫= serialize_message)]> (fs_files fs))) !! filepath =
        Some (disk_image s0 n0 (s_messages s))) as Hl.
      { cbn [fs_files fs_set]. rewrite lookup_insert_eq, Hfile. cbn [default from_option id].
        by rewrite disk_image_app, take_drop. }
      split; [|intros _; split_and!; [done|done|eauto]].
      split_and!; [done|done|]. right. exists s0, n0. cbn [s_last_saved_count mark_saved s_messages].
      by rewrite take_ge by done.
    + unfold save_to in Hsave. rewrite Hfull in Hsave. unfold fs_append in Hsave. rewrite Hw in Hsave.
      injection Hsave as <- <- <-. by split.
Qed.

Lemma persist_step_inv filepath st st' : persist_inv filepath st -> persist_step filepath st st' -> persist_inv filepath st'.
Proof.
  intros Hinv Hstep. inversion Hstep; subst; clear Hstep.
  - destruct Hinv as (Hren & Hle & Hfile). split_and!; [done|cbn; rewrite length_app; lia|]. cbn.
    by rewrite take_app_le by done.
  - destruct Hinv as (Hren & Hle & Hfile). unfold session_rollback_messages.
    destruct (Nat.leb_spec (length (s_messages s)) n); [done|].
    cbn [persist_inv s_messages s_last_saved_count s_needs_full_save]. rewrite length_take. destruct (Nat.ltb_spec n (s_last_saved_count s)); [lia|].
    rewrite take_take, (Nat.min_l _ n) by done. split_and!; [done|lia|done].
  - destruct Hinv as (Hren & Hle & Hfile). split_and!; [done|done|by left].
  - destruct (save_to fs filepath s) as [[fs' s'] err] eqn:E. cbn. by eapply save_to_inv.
  - by destruct Hinv as (H1 & H2 & H3).
Qed.

(** C4: As long as the rename that ends a full save succeeds, however adding
    messages, incremental and full saves, consolidations and rollbacks of
    messages that were not saved yet are interleaved, and whichever files the
    system refuses to open meanwhile ([persist_open]), a save that reports
    success leaves in the file one metadata line and then every message of the
    session, once and in order. ([session_failed_commit_loses_messages] and
    [session_rollback_leaves_stale_lines] show that both restrictions are
    needed.) *)
Theorem session_file_complete filepath fs key now fs1 s1 fs2 s2 :
  fs_rename_ok fs (tmp_path filepath) filepath = true ->
  rtc (persist_step filepath) (fs, session_new key now) (fs1, s1) ->
  save_to fs1 filepath s1 = (fs2, s2, err_ok) ->
  s_messages s2 = s_messages s1 /\
  exists s0 n0, fs_files fs2 !! filepath = Some (disk_image s0 n0 (s_messages s1)).
Proof.
  intros Hren Hr Hsave. assert (persist_inv filepath (fs1, s1)) as Hinv.
  { eapply rtc_invariant; [apply persist_step_inv| |exact Hr]. split_and!; [done|cbn; lia|by left]. }
  destruct (save_to_inv _ _ _ _ _ _ Hinv Hsave) as [_ H]. destruct H as (_ & ? & ?); done.
Qed.

(** The restriction is needed. When saved messages are rolled back, later
    saves append after the stale lines: the file keeps the messages the
    session dropped, and the next load brings them back. *)
Theorem session_rollback_leaves_stale_lines filepath fs s s0 n0 now to_count msgs :
  s_needs_full_save s = false -> s_last_saved_count s = length (s_messages s) ->
  fs_files fs !! filepath = Some (disk_image s0 n0 (s_messages s)) ->
  fs_writable fs filepath = true ->
  let s1 := fold_left (session_add_message now) msgs (session_rollback_messages now s to_count) in
  exists fs' s', save_to fs filepath s1 = (fs', s', err_ok) /\
  s_messages s' = take to_count (s_messages s) ++ msgs /\
  fs_files fs' !! filepath = Some (disk_image s0 n0 (s_messages s ++ msgs)).
Proof.
  intros Hf Hsaved Hfile Hw s1. unfold s1. rewrite fold_add_messages.
  set (k := Nat.min to_count (length (s_messages s))).
  assert (s_messages (session_rollback_messages now s to_count) = take to_count (s_messages s) /\
    s_last_saved_count (session_rollback_messages now s to_count) = k /\
    s_needs_full_save (session_rollback_messages now s to_count) = false) as (Hm & Hl & Hn).
  { unfold session_rollback_messages. subst k. destruct (Nat.leb_spec (length (s_messages s)) to_count).
    - rewrite take_ge by lia. split_and!; [done|lia|done].
    - cbn [s_messages s_last_saved_count s_needs_full_save]. rewrite Hsaved. destruct (Nat.ltb_spec to_count (length (s_messages s))); [|lia]. split_and!; [done|lia|done]. }
  assert (length (take to_count (s_messages s)) = k) as Hk by (rewrite length_take; done).
  eexists _, _. split; [apply save_to_append; [|done]|].
  - cbn [s_needs_full_save s_messages s_last_saved_count]. rewrite Hn, Hm, Hl.
    unfold fs_exists. rewrite Hfile, bool_decide_true by eauto. cbn [negb orb].
    apply Nat.ltb_ge. rewrite length_app. lia.
  - cbn [s_messages mark_saved fs_files fs_set s_last_saved_count]. rewrite Hm, Hl. split; [done|].
    rewrite lookup_insert_eq, Hfile. cbn [default from_option id].
    rewrite <-Hk, drop_app_length. by rewrite disk_image_app.
Qed.

(** A full save whose rename fails reports an error but marks the messages
    as saved: when the file already exists, the next save succeeds without
    writing them, and they are lost on the next load. *)
Theorem session_failed_commit_loses_messages filepath fs s old rename_ok' :
  s_needs_full_save s = true -> length filepath < FILE_PATH_MAX ->
  fs_files fs !! filepath = Some old ->
  fs_writable fs (tmp_path filepath) = true -> fs_writable fs filepath = true ->
  fs_rename_ok fs (tmp_path filepath) filepath = false ->
  exists fs1 s1 fs2 s2 err, save_to fs filepath s = (fs1, s1, err) /\ err_code err = ERR_FILE /\
  save_to (mkFs (fs_files fs1) (fs_writable fs1) rename_ok') filepath s1 = (fs2, s2, err_ok) /\
  s_messages s2 = s_messages s /\ fs_files fs2 !! filepath = Some old.
Proof.
  intros Hf Hlen Hfile Hw Hw2 Hr. pose proof (tmp_path_ne _ Hlen) as Hne.
  eexists _, _, _, _, _. split.
  { unfold save_to. rewrite Hf. cbn [orb]. fold (tmp_path filepath).
    unfold fs_write. rewrite Hw. unfold fs_rename. cbn [fs_rename_ok fs_set]. rewrite Hr. reflexivity. }
  split; [done|]. cbn [fs_unlink fs_set fs_files fs_writable].
  set (files := delete (tmp_path filepath) _).
  assert (files !! filepath = Some old) as Hold.
  { unfold files. by rewrite lookup_delete_ne, lookup_insert_ne by done. }
  split; [apply save_to_append; [|done]|].
  - cbn. unfold fs_exists. cbn [fs_files]. rewrite Hold, bool_decide_true by eauto. cbn [negb orb].
    apply Nat.ltb_ge. done.
  - cbn [mark_saved s_messages s_last_saved_count fs_files fs_set]. split; [done|].
    rewrite lookup_insert_eq. fold files. rewrite Hold, drop_ge by done. cbn. by rewrite app_nil_r.
Qed.

(** The loader reads lines into 4096 bytes: a message whose line is longer
    is written, but cut in two pieces that are not JSON, and skipped by the
    next load. *)
Theorem session_long_message_lost :
  let msg := message_new ROLE_USER (Some (replicate 4100 "a"%char)) in
  let s := session_add_message 0 (session_new $"cli:me" 0) msg in
  let saved := save_to (mkFs ∅ (fun _ => true) (fun _ _ => true)) $"f" s in
  snd saved = err_ok /\ fs_files (fst (fst saved)) !! $"f" = Some (disk_image s 1 [msg]) /\
  s_messages (load_text 0 (session_new $"cli:me" 0) (disk_image s 1 [msg])) = [].
Proof. cbv zeta. split_and!; by vm_compute. Qed.

(** ** Witnesses *)

Definition demo_fs : Fs := mkFs ∅ (fun _ => true) (fun _ _ => true).
Definition demo_table : SessionManager :=
  fst (session_manager_create true 2 (fst (session_manager_create true 1 (session_manager_new $"/w") $"cli:me")) $"cli:me").

Lemma demo_table_reachable : rtc sm_step (session_manager_new $"/w") demo_table.
Proof. do 2 (eapply rtc_l; [apply step_create|]). apply rtc_refl. Qed.

Lemma session_manager_get_correct_witness :
  s_key <$> sm_sessions demo_table !! 1 = Some $"cli:me" /\
  forall id', s_key <$> sm_sessions demo_table !! id' = Some $"cli:me" -> id' <= 1.
Proof. exact (session_manager_get_correct $"/w" demo_table $"cli:me" demo_table_reachable). Defined.

Lemma session_manager_free_once_witness : session_manager_free demo_table ≡ₚ [0; 1].
Proof. exact (session_manager_free_once $"/w" demo_table demo_table_reachable). Defined.

Definition demo_chain : list Message :=
  [message_new ROLE_USER (Some $"hi");
   message_add_tool_call true (message_new ROLE_ASSISTANT (Some [])) (Some $"c1") (Some $"ls") (Some $"{}");
   mkMessage ROLE_TOOL $"out" [] [] $"c1" $"ls"].
Definition demo_session : Session := fold_left (session_add_message 5) demo_chain (session_new $"cli:me" 3).

Lemma demo_chain_chained : chained demo_chain.
Proof.
  intros j t Hj Hr. destruct j as [|[|[|j]]]; cbn in Hj; simplify_eq; try done.
  exists 1. split; [lia|]. split; [by eexists _, _|]. intros k m Hk. lia.
Qed.

Lemma session_snapshot_keeps_tool_chains_witness :
  exists snap start, session_snapshot_for_context demo_session 1 = Some snap /\
  snap_messages snap = drop start demo_chain /\ snap_truncated snap = Nat.ltb 0 start /\
  (0 < 1 -> 1 <= length (snap_messages snap)) /\ chained (snap_messages snap).
Proof.
  destruct (session_snapshot_keeps_tool_chains demo_session 1) as (snap & start & H1 & H2 & H3 & H4 & H5).
  exists snap, start. split_and!; [exact H1|exact H2|exact H3|exact H4|exact (H5 demo_chain_chained)].
Defined.

Lemma session_save_load_witness :
  exists fs' s' mgr',
    save_to demo_fs $"/w/sessions/cli_1072267ff96ae231.jsonl" demo_session = (fs', s', err_ok) /\
    session_manager_load true 9 fs' (session_manager_new $"/w") $"cli:me" = (mgr', Some 0, err_ok) /\
    sm_sessions mgr' = [{| s_key := $"cli:me"; s_messages := demo_chain; s_created_at := 3; s_updated_at := 9;
       s_last_consolidated := 0; s_last_saved_count := 3; s_needs_full_save := false; s_ref_count := 1 |}].
Proof.
  apply (session_save_load $"/w" demo_fs demo_session);
    [by vm_compute|done|done|done|by vm_compute|apply Nat.leb_le; by vm_compute|by vm_compute|by vm_compute].
Defined.

Lemma session_file_complete_witness :
  exists s0 n0, fs_files (fst (fst (save_to demo_fs $"f" demo_session))) !! $"f" = Some (disk_image s0 n0 demo_chain).
Proof.
  apply (session_file_complete $"f" demo_fs $"cli:me" 3 demo_fs demo_session
    (fst (fst (save_to demo_fs $"f" demo_session))) (snd (fst (save_to demo_fs $"f" demo_session)))); [done| |by vm_compute].
  do 3 (eapply rtc_l; [apply (persist_add $"f" 5)|]). apply rtc_refl.
Defined.

Definition demo_saved_fs : Fs := mkFs {[ $"f" := disk_image demo_session 3 demo_chain ]} (fun _ => true) (fun _ _ => false).

Lemma session_rollback_leaves_stale_lines_witness :
  exists fs' s', save_to demo_saved_fs $"f" (session_rollback_messages 7 (mark_saved demo_session 3 false) 1) = (fs', s', err_ok) /\
  s_messages s' = take 1 demo_chain ++ [] /\ fs_files fs' !! $"f" = Some (disk_image demo_session 3 (demo_chain ++ [])).
Proof.
  apply (session_rollback_leaves_stale_lines $"f" demo_saved_fs (mark_saved demo_session 3 false) demo_session 3 7 1 []);
    [done|done|by vm_compute|done].
Defined.

Lemma session_failed_commit_loses_messages_witness :
  exists fs1 s1 fs2 s2 err, save_to demo_saved_fs $"f" demo_session = (fs1, s1, err) /\ err_code err = ERR_FILE /\
  save_to (mkFs (fs_files fs1) (fs_writable fs1) (fun _ _ => true)) $"f" s1 = (fs2, s2, err_ok) /\
  s_messages s2 = demo_chain /\ fs_files fs2 !! $"f" = Some (disk_image demo_session 3 demo_chain).
Proof.
  apply (session_failed_commit_loses_messages $"f" demo_saved_fs demo_session (disk_image demo_session 3 demo_chain) (fun _ _ => true));
    [done|unfold FILE_PATH_MAX; apply Nat.leb_le; by vm_compute|by vm_compute|done|done|done].
Defined.
