(* ===== verification/Calendar.v ===== *)
(** The broken-down time of the C library as [src/cron/cron.c] uses it:
    [localtime_r] and [mktime] in the proleptic Gregorian calendar, for a zone
    with a fixed offset from UTC (daylight saving time is not modelled). *)
From S2P Require Import Prelude.
#[local] Open Scope Z_scope.

(** ** Days since 1970-01-01 *)

(** The day of the year that starts in March: of month [mp] (0 is March) and
    day [d]. *)
Definition day_of_year (mp d : Z) : Z := (153 * mp + 2) / 5 + d - 1.
(** The day of the 400-year era: of year [yoe] of the era and day of year. *)
Definition day_of_era (yoe doy : Z) : Z := yoe * 365 + yoe / 4 - yoe / 100 + doy.

(** Year, month 1-12, day (any integer). *)
Definition days_from_civil (y m d : Z) : Z :=
  let y' := if m <=? 2 then y - 1 else y in
  let era := y' / 400 in
  era * 146097 + day_of_era (y' mod 400) (day_of_year ((m + 9) mod 12) d) - 719468.

Definition civil_from_days (days : Z) : Z * Z * Z :=
  let z := days + 719468 in
  let era := z / 146097 in
  let doe := z mod 146097 in
  let yoe := (doe - doe / 1460 + doe / 36524 - doe / 146096) / 365 in
  let doy := doe - (365 * yoe + yoe / 4 - yoe / 100) in
  let mp := (5 * doy + 2) / 153 in
  let d := doy - (153 * mp + 2) / 5 + 1 in
  let m := if mp <? 10 then mp + 3 else mp - 9 in
  ((if m <=? 2 then yoe + era * 400 + 1 else yoe + era * 400), m, d).

(** ** [struct tm]; [tm_year] counts from 1900 and [tm_mon] from 0 *)
Record tm := mkTm {
  tm_sec : Z; tm_min : Z; tm_hour : Z; tm_mday : Z; tm_mon : Z; tm_year : Z; tm_wday : Z;
}.

Section Zone.
(** Seconds to add to UTC. *)
Context (utc_offset : Z).

Definition localtime_r (t : Z) : tm :=
  let s := t + utc_offset in
  let days := s / 86400 in
  let r := s mod 86400 in
  let '(y, m, d) := civil_from_days days in
  {| tm_sec := r mod 60; tm_min := r / 60 mod 60; tm_hour := r / 3600; tm_mday := d; tm_mon := m - 1;
     tm_year := y - 1900; tm_wday := (days + 4) mod 7 |}.

(** The time a broken-down time denotes; its fields may be out of range. *)
Definition timegm_local (x : tm) : Z :=
  let y := tm_year x + 1900 + tm_mon x / 12 in
  let m := tm_mon x mod 12 + 1 in
  (days_from_civil y m 1 + tm_mday x - 1) * 86400 + tm_hour x * 3600 + tm_min x * 60 + tm_sec x - utc_offset.

(** [mktime]: the time, and the structure normalised in place. *)
Definition mktime (x : tm) : Z * tm := (timegm_local x, localtime_r (timegm_local x)).

(** ** The calendar is consistent *)

(** Every day of an era: the year of the era, the month and the day are in
    range and give the day back. *)
Definition era_day_ok (doe : Z) : bool :=
  let yoe := (doe - doe / 1460 + doe / 36524 - doe / 146096) / 365 in
  let doy := doe - (365 * yoe + yoe / 4 - yoe / 100) in
  let mp := (5 * doy + 2) / 153 in
  let d := doy - (153 * mp + 2) / 5 + 1 in
  (0 <=? yoe) && (yoe <? 400) && (0 <=? mp) && (mp <? 12) && (1 <=? d) && (d <=? 31).

Fixpoint all_below (p : Z -> bool) (n : nat) (z : Z) : bool :=
  match n with
  | O => true
  | S k => p z && all_below p k (z + 1)
  end.

Lemma all_below_spec p n z : all_below p n z = true -> forall x, z <= x < z + Z.of_nat n -> p x = true.
Proof.
  revert z. induction n as [|n IH]; intros z H x Hx; [lia|]. cbn in H. apply andb_prop in H as [Hz H].
  destruct (decide (x = z)) as [->|Hne]; [done|]. apply (IH _ H). lia.
Qed.

Lemma era_days_ok : all_below era_day_ok (Z.to_nat 146097) 0 = true.
Proof. vm_compute. reflexivity. Qed.

Lemma era_day_range doe : 0 <= doe < 146097 -> era_day_ok doe = true.
Proof. intros H. apply (all_below_spec _ _ _ era_days_ok). lia. Qed.

(** The civil date of a day denotes that day, with month and day in range. *)
Lemma civil_from_days_spec days :
  let '(y, m, d) := civil_from_days days in
  days_from_civil y m d = days /\ 1 <= m <= 12 /\ 1 <= d <= 31.
Proof.
  unfold civil_from_days. cbv zeta. set (doe := (days + 719468) mod 146097).
  pose proof (Z.mod_pos_bound (days + 719468) 146097 ltac:(lia)) as Hdoe. fold doe in Hdoe.
  pose proof (era_day_range doe Hdoe) as Hok. unfold era_day_ok in Hok.
  set (yoe := (doe - doe / 1460 + doe / 36524 - doe / 146096) / 365) in *.
  set (doy := doe - (365 * yoe + yoe / 4 - yoe / 100)) in *.
  set (mp := (5 * doy + 2) / 153) in *.
  apply andb_prop in Hok as [Hok Hd2%Z.leb_le]. apply andb_prop in Hok as [Hok Hd1%Z.leb_le].
  apply andb_prop in Hok as [Hok Hm2%Z.ltb_lt]. apply andb_prop in Hok as [Hok Hm1%Z.leb_le].
  apply andb_prop in Hok as [Hy1%Z.leb_le Hy2%Z.ltb_lt].
  set (d := doy - (153 * mp + 2) / 5 + 1) in *. set (era := (days + 719468) / 146097).
  pose proof (Z.div_mod (days + 719468) 146097 ltac:(lia)) as Hdm. fold era doe in Hdm.
  assert (day_of_era yoe (day_of_year mp d) = doe) as Hday by (unfold day_of_era, day_of_year, d, doy; lia).
  assert ((era * 400 + yoe) / 400 = era /\ (era * 400 + yoe) mod 400 = yoe) as [Hq Hr].
  { split; [rewrite Z.div_add_l by lia; rewrite Z.div_small by lia; lia|].
    rewrite Z.add_comm, Z_mod_plus_full. by apply Z.mod_small. }
  destruct (mp <? 10) eqn:E; [apply Z.ltb_lt in E|apply Z.ltb_ge in E].
  - rewrite (proj2 (Z.leb_gt (mp + 3) 2)) by lia. split; [|lia]. unfold days_from_civil.
    rewrite (proj2 (Z.leb_gt (mp + 3) 2)) by lia. cbv zeta.
    replace (yoe + era * 400) with (era * 400 + yoe) by lia. rewrite Hq, Hr.
    replace ((mp + 3 + 9) mod 12) with mp by (replace (mp + 3 + 9) with (mp + 1 * 12) by lia; rewrite Z_mod_plus_full, Z.mod_small; lia).
    lia.
  - rewrite (proj2 (Z.leb_le (mp - 9) 2)) by lia. split; [|lia]. unfold days_from_civil.
    rewrite (proj2 (Z.leb_le (mp - 9) 2)) by lia. cbv zeta.
    replace (yoe + era * 400 + 1 - 1) with (era * 400 + yoe) by lia. rewrite Hq, Hr.
    replace ((mp - 9 + 9) mod 12) with mp by (replace (mp - 9 + 9) with mp by lia; rewrite Z.mod_small; lia).
    lia.
Qed.

Lemma days_from_civil_day y m d : days_from_civil y m 1 + d - 1 = days_from_civil y m d.
Proof. unfold days_from_civil, day_of_era, day_of_year. lia. Qed.

(** [mktime] inverts [localtime_r]; and it is linear in hours, minutes and
    seconds. *)
Lemma timegm_localtime t : timegm_local (localtime_r t) = t.
Proof.
  unfold timegm_local, localtime_r. pose proof (civil_from_days_spec ((t + utc_offset) / 86400)) as H.
  destruct (civil_from_days ((t + utc_offset) / 86400)) as [[y m] d]. destruct H as (Hd & Hm & _).
  cbn [tm_year tm_mon tm_mday tm_hour tm_min tm_sec].
  rewrite Z.div_small, Z.mod_small by lia.
  replace (y - 1900 + 1900 + 0) with y by lia. replace (m - 1 + 1) with m by lia.
  rewrite days_from_civil_day, Hd. clear. Z.div_mod_to_equations. lia.
Qed.

Lemma localtime_sec t : tm_sec (localtime_r t) = (t + utc_offset) mod 60.
Proof.
  unfold localtime_r. destruct (civil_from_days _) as [[y m] d]. cbn. Z.div_mod_to_equations. lia.
Qed.

Lemma localtime_ranges t : let x := localtime_r t in
  0 <= tm_sec x < 60 /\ 0 <= tm_min x < 60 /\ 0 <= tm_hour x < 24 /\ 1 <= tm_mday x <= 31 /\
  0 <= tm_mon x < 12 /\ 0 <= tm_wday x < 7.
Proof.
  unfold localtime_r. pose proof (civil_from_days_spec ((t + utc_offset) / 86400)) as H.
  destruct (civil_from_days ((t + utc_offset) / 86400)) as [[y m] d]. destruct H as (_ & Hm & Hd). cbn.
  Z.div_mod_to_equations. lia.
Qed.

(** Local days before 2100-01-01 are in years before 2100. *)
Definition year_ok_2000 (doe : Z) : bool := let '(y, _, _) := civil_from_days (5 * 146097 + doe - 719468) in y <? 2100.

Lemma years_ok_2000 : all_below year_ok_2000 (Z.to_nat 36465) 0 = true.
Proof. vm_compute. reflexivity. Qed.

Lemma civil_year_before_2100 days : days < 47482 -> let '(y, _, _) := civil_from_days days in y < 2100.
Proof.
  intros Hd. destruct (decide (5 * 146097 <= days + 719468)) as [H5|H5].
  - pose proof (all_below_spec _ _ _ years_ok_2000 (days + 719468 - 5 * 146097) ltac:(lia)) as H.
    unfold year_ok_2000 in H. replace (5 * 146097 + (days + 719468 - 5 * 146097) - 719468) with days in H by lia.
    destruct (civil_from_days days) as [[y m] d]. by apply Z.ltb_lt in H.
  - unfold civil_from_days. cbv zeta. set (doe := (days + 719468) mod 146097).
    pose proof (Z.mod_pos_bound (days + 719468) 146097 ltac:(lia)) as Hdoe. fold doe in Hdoe.
    pose proof (era_day_range doe Hdoe) as Hok. unfold era_day_ok in Hok.
    rewrite !andb_true_iff in Hok. destruct Hok as (((((_ & Hy%Z.ltb_lt) & _) & _) & _) & _).
    set (yoe := (doe - doe / 1460 + doe / 36524 - doe / 146096) / 365) in *.
    assert ((days + 719468) / 146097 <= 4) by (apply Z.lt_succ_r, Z.div_lt_upper_bound; lia).
    case_match; lia.
Qed.

Lemma localtime_year t : t + utc_offset < 4102444800 -> tm_year (localtime_r t) < 200.
Proof.
  intros Ht. unfold localtime_r.
  pose proof (civil_year_before_2100 ((t + utc_offset) / 86400)) as H.
  destruct (civil_from_days ((t + utc_offset) / 86400)) as [[y m] d]. cbn.
  assert ((t + utc_offset) / 86400 < 47482) by (apply Z.div_lt_upper_bound; lia). specialize (H ltac:(done)). lia.
Qed.
End Zone.

Example epoch_is_thursday : localtime_r 0 0 = mkTm 0 0 0 1 0 70 4.
Proof. vm_compute. reflexivity. Qed.
Example leap_day : localtime_r 0 1709164800 = mkTm 0 0 0 29 1 124 4.
Proof. vm_compute. reflexivity. Qed.
