(* ===== verification/CronSchedule.v ===== *)
(** [src/cron/cron.c], first part: the schedules. A schedule is empty (run
    now), [@every n], [@in n], [@at t], five cron fields, or a daily time; the
    code answers with the next time and whether the job recurs.

    [utc_offset] is the zone of [localtime_r] and [mktime] (Calendar.v). *)
From S2P Require Import Prelude CStr Calendar.

Inductive CronScheduleType := CRON_SCHEDULE_INVALID | CRON_SCHEDULE_ONE_TIME | CRON_SCHEDULE_RECURRING.

#[export] Instance CronScheduleType_eq_dec : EqDecision CronScheduleType.
Proof. solve_decision. Defined.

(** ** [sscanf] conversions *)

Definition not_space (c : ascii) : bool := negb (isspace c).

(** [%<width>s]: the word and the rest. *)
Definition scan_word (width : nat) (s : cstr) : option (cstr * cstr) :=
  let t := drop_while isspace s in
  match take width (take_while not_space t) with
  | [] => None
  | w => Some (w, drop (length w) t)
  end.

(** The words converted by [n] consecutive [%<width>s]. *)
Fixpoint scan_words (n width : nat) (s : cstr) : list cstr :=
  match n with
  | 0 => []
  | S k => match scan_word width s with Some (w, r) => w :: scan_words k width r | None => [] end
  end.

(** [%d]. *)
Definition scan_int (s : cstr) : option (Z * cstr) :=
  let '(v, r) := strtol s in
  if Nat.ltb (length r) (length s) then Some (wrap_s 32 v, r) else None.

Definition is_star (s : cstr) : bool := str_eq s $"*".

(** [parse_daily_schedule]: hour and minute. *)
Definition parse_daily_schedule (schedule : cstr) : option (Z * Z) :=
  match scan_int schedule with
  | None => None
  | Some (parsed_minute, s1) =>
      match scan_int s1 with
      | None => None
      | Some (parsed_hour, s2) =>
          match scan_words 4 7 s2 with
          | [dom; mon; dow] =>
              if (parsed_hour <? 0)%Z || (23 <? parsed_hour)%Z || (parsed_minute <? 0)%Z || (59 <? parsed_minute)%Z
              then None
              else if negb (is_star dom) || negb (is_star mon) || negb (is_star dow) then None
              else Some (parsed_hour, parsed_minute)
          | _ => None
          end
      end
  end.

(** ** One field *)

Definition is_comma (c : ascii) : bool := bool_decide (c = ","%char).

Definition cron_field_matches (value : Z) (field : cstr) : bool :=
  if is_star field then true
  else if starts_with $"*/" field then
    let step := atoi (drop 2 field) in
    if (0 <? step)%Z then (Z.rem value step =? 0)%Z else false
  else match strchr field "-"%char with
  | Some dash =>
      let start := atoi field in
      let end_ := atoi (drop (dash + 1) field) in
      (start <=? value)%Z && (value <=? end_)%Z
  | None =>
      match strchr field ","%char with
      | Some _ => existsb (fun token => (atoi token =? value)%Z) (strtok is_comma (truncate_to 32 field))
      | None => (atoi field =? value)%Z
      end
  end.

Record CronFields := mkFields { f_min : cstr; f_hour : cstr; f_dom : cstr; f_mon : cstr; f_dow : cstr }.

Definition scan_fields (schedule : cstr) : option CronFields :=
  match scan_words 5 7 schedule with
  | [m; h; d; mon; w] => Some (mkFields m h d mon w)
  | _ => None
  end.

(** The test of the search loop on a normalised time. *)
Definition dom_dow_match (fs : CronFields) (d w : Z) : bool :=
  let match_dom := cron_field_matches d (f_dom fs) in
  let match_dow := cron_field_matches w (f_dow fs) in
  (is_star (f_dom fs) && is_star (f_dow fs)) ||
  (negb (is_star (f_dom fs)) && match_dom) ||
  (negb (is_star (f_dow fs)) && match_dow) ||
  (is_star (f_dom fs) && match_dow) ||
  (is_star (f_dow fs) && match_dom).

Definition fields_match (fs : CronFields) (x : tm) : bool :=
  cron_field_matches (tm_min x) (f_min fs) && cron_field_matches (tm_hour x) (f_hour fs) &&
  cron_field_matches (tm_mon x + 1) (f_mon fs) && dom_dow_match fs (tm_mday x) (tm_wday x).

Section Zone.
Context (utc_offset : Z).

(** ** The search *)

Definition set_minute (x : tm) (hour min : Z) (mday : Z) : tm :=
  mkTm (tm_sec x) min hour mday (tm_mon x) (tm_year x) (tm_wday x).

Definition increment_minute (x : tm) : tm :=
  let min := (tm_min x + 1)%Z in
  if (60 <=? min)%Z then
    let hour := (tm_hour x + 1)%Z in
    if (24 <=? hour)%Z then set_minute x 0 0 (tm_mday x + 1) else set_minute x hour 0 (tm_mday x)
  else set_minute x (tm_hour x) min (tm_mday x).

Inductive search_result := SFound (t : Z) | SNone | SNoFuel.

Fixpoint search (fuel : nat) (fs : CronFields) (search_end : Z) (local_tm : tm) : search_result :=
  match fuel with
  | 0 => SNoFuel
  | S f =>
      if (tm_year local_tm <? 2100 - 1900)%Z then
        let '(check, local_tm) := mktime utc_offset local_tm in
        if (search_end <? check)%Z then SNone
        else if fields_match fs local_tm then SFound check
        else search f fs search_end (increment_minute local_tm)
      else SNone
  end.

Definition YEAR_SECONDS : Z := (366 * 24 * 60 * 60)%Z.

(** One round per minute of the window, and one to leave it. *)
Definition search_fuel : nat := Z.to_nat 527042.

(** The time the search starts from: the next minute, not normalised. *)
Definition next_minute (now : Z) : tm :=
  let x := localtime_r utc_offset now in
  mkTm 0 (tm_min x + 1) (tm_hour x) (tm_mday x) (tm_mon x) (tm_year x) (tm_wday x).

Definition parse_standard_cron (schedule : cstr) (now : Z) : option Z :=
  match scan_fields schedule with
  | None => None
  | Some fs =>
      match schedule with
      | "@"%char :: _ => None
      | _ => match search search_fuel fs (now + YEAR_SECONDS)%Z (next_minute now) with SFound t => Some t | _ => None end
      end
  end.

Definition next_daily_run (now hour minute : Z) : Z :=
  let x := localtime_r utc_offset now in
  let x1 := mkTm 0 minute hour (tm_mday x) (tm_mon x) (tm_year x) (tm_wday x) in
  let '(next, x2) := mktime utc_offset x1 in
  if (next <=? now)%Z
  then fst (mktime utc_offset (mkTm (tm_sec x2) (tm_min x2) (tm_hour x2) (tm_mday x2 + 1) (tm_mon x2) (tm_year x2) (tm_wday x2)))
  else next.

(** [cron_schedule_next_run]: the type, and the time stored (none when the
    schedule is invalid). *)
Definition cron_schedule_next_run (schedule : option cstr) (now : Z) : CronScheduleType * option Z :=
  match schedule with
  | None | Some [] => (CRON_SCHEDULE_ONE_TIME, Some now)
  | Some schedule =>
      if starts_with $"@every " schedule then
        let interval := atoi (drop 7 schedule) in
        let interval := if (interval <=? 0)%Z then 60%Z else interval in
        (CRON_SCHEDULE_RECURRING, Some (now + interval)%Z)
      else if starts_with $"@in " schedule then
        let delay := atoi (drop 4 schedule) in
        let delay := if (delay <=? 0)%Z then 1%Z else delay in
        (CRON_SCHEDULE_ONE_TIME, Some (now + delay)%Z)
      else if starts_with $"@at " schedule then (CRON_SCHEDULE_ONE_TIME, Some (atol (drop 4 schedule)))
      else match parse_standard_cron schedule now with
      | Some t => (CRON_SCHEDULE_RECURRING, Some t)
      | None =>
          match parse_daily_schedule schedule with
          | Some (hour, minute) => (CRON_SCHEDULE_RECURRING, Some (next_daily_run now hour minute))
          | None => (CRON_SCHEDULE_INVALID, None)
          end
      end
  end.
End Zone.
Arguments search_fuel : simpl never.

Example every_weekday_nine : parse_standard_cron 0 $"30 9 * * 1-5" 0 = Some 34200%Z.
Proof. vm_compute. reflexivity. Qed.
Example saturday : parse_standard_cron 0 $"0 0 * * 6" 0 = Some 172800%Z.
Proof. vm_compute. reflexivity. Qed.
Example long_list : parse_standard_cron 0 $"0,15,30,5 * * * *" 0 = Some 18000%Z.
Proof. vm_compute. reflexivity. Qed.

(** ** What a field means *)

Inductive field := FAny | FStep (n : Z) | FRange (a b : Z) | FList (l : list Z) | FOne (n : Z).

Fixpoint comma_list (l : list Z) : cstr :=
  match l with
  | [] => []
  | [x] => fmt_d x
  | x :: r => fmt_d x ++ $"," ++ comma_list r
  end.

Definition print_field (f : field) : cstr :=
  match f with
  | FAny => $"*"
  | FStep n => $"*/" ++ fmt_d n
  | FRange a b => fmt_d a ++ $"-" ++ fmt_d b
  | FList l => comma_list l
  | FOne n => fmt_d n
  end.

Definition field_holds (f : field) (v : Z) : Prop :=
  match f with
  | FAny => True
  | FStep n => (n | v)%Z
  | FRange a b => (a <= v <= b)%Z
  | FList l => v ∈ l
  | FOne n => v = n
  end.

Definition small (n : Z) : Prop := (0 <= n <= INT_MAX)%Z.

Definition field_ok (f : field) : Prop :=
  match f with
  | FAny => True
  | FStep n => (0 < n <= INT_MAX)%Z
  | FRange a b => small a /\ small b
  | FList l => 2 <= length l /\ Forall small l /\ length (comma_list l) < 32
  | FOne n => small n
  end.

Lemma small_digits n : small n -> exists d t, fmt_d n = d :: t /\ Forall (fun c => isdigit c = true) (d :: t).
Proof.
  intros [Hn _]. unfold fmt_d. rewrite (proj2 (Z.ltb_ge n 0)) by done.
  destruct (fmt_u_nonempty (Z.to_N n)) as (d & t & E & _). exists d, t. split; [done|]. rewrite <- E. apply fmt_u_digits.
Qed.

Lemma digit_ne c d : isdigit c = false -> isdigit d = true -> d <> c.
Proof. intros Hc Hd ->. congruence. Qed.

(** A text that starts with a digit is neither a star nor a step. *)
Lemma digit_head_not_star d r : isdigit d = true -> is_star (d :: r) = false /\ starts_with $"*/" (d :: r) = false.
Proof.
  intros Hd. assert (d <> "*"%char) as Hne by (by apply (digit_ne "*"%char)). split.
  - apply bool_decide_eq_false. cbn. congruence.
  - cbn. rewrite bool_decide_false; [done|congruence].
Qed.

Lemma digits_not_elem c s : isdigit c = false -> Forall (fun c => isdigit c = true) s -> c ∉ s.
Proof. intros Hc Hs Hin. rewrite Forall_forall in Hs. specialize (Hs _ Hin). congruence. Qed.

Lemma atoi_small n r : small n -> no_digit_head r -> atoi (fmt_d n ++ r) = n.
Proof.
  intros [H0 H1] Hr. unfold atoi, atol. rewrite strtol_fmt_d by (done || unfold LONG_MIN, LONG_MAX, INT_MAX in *; lia).
  cbn. apply wrap_s_id; unfold INT_MAX in *; lia.
Qed.

Lemma strtok_aux_word d w cur r : Forall (fun c => d c = false) w -> strtok_aux d cur (w ++ r) = strtok_aux d (rev w ++ cur) r.
Proof.
  intros Hw. revert cur. induction Hw as [|c w Hc _ IH]; intros cur; [done|]. cbn [app strtok_aux]. rewrite Hc, IH.
  cbn [rev]. by rewrite <-app_assoc.
Qed.

Lemma strtok_comma_list l : Forall small l -> strtok is_comma (comma_list l) = fmt_d <$> l.
Proof.
  unfold strtok. induction 1 as [|x l Hx Hl IH]; [done|].
  destruct (small_digits x Hx) as (d & t & E & Hd).
  assert (Forall (fun c => is_comma c = false) (fmt_d x)) as Hw.
  { rewrite E. eapply Forall_impl; [exact Hd|]. intros c Hc. apply bool_decide_eq_false. by apply digit_ne. }
  assert (match rev (fmt_d x) with [] => [] | _ :: _ => [rev (rev (fmt_d x))] end = [fmt_d x]) as Hrev.
  { rewrite rev_involutive, E. cbn [rev]. destruct (rev t); done. }
  destruct l as [|y l].
  - cbn [comma_list]. rewrite <-(app_nil_r (fmt_d x)) at 1. rewrite strtok_aux_word by done. rewrite app_nil_r. exact Hrev.
  - cbn [comma_list]. rewrite strtok_aux_word by done. rewrite app_nil_r. cbn [strtok_aux app list_ascii_of_string].
    change (is_comma ",") with true. cbn iota. rewrite Hrev. cbn [app]. rewrite fmap_cons. f_equal. exact IH.
Qed.

Lemma comma_list_chars l : Forall small l -> Forall (fun c => isdigit c = true \/ c = ","%char) (comma_list l).
Proof.
  induction 1 as [|x l Hx Hl IH]; [constructor|]. destruct (small_digits x Hx) as (d & t & E & Hd).
  assert (Forall (fun c => isdigit c = true \/ c = ","%char) (fmt_d x)) as Hf.
  { rewrite E. eapply Forall_impl; [exact Hd|]. by left. }
  destruct l; [done|]. cbn [comma_list]. rewrite !Forall_app. split_and!; [done|by repeat constructor; right|done].
Qed.

(** A cron field that was written as a star, a step, a range, a list of
    at least two numbers or a single number matches exactly the values it
    denotes. *)
Theorem cron_field_matches_correct f v : field_ok f -> (0 <= v)%Z ->
  cron_field_matches v (print_field f) = true <-> field_holds f v.
Proof.
  intros Hok Hv. unfold cron_field_matches. destruct f as [|n|a b|l|n]; cbn [print_field field_holds field_ok] in *.
  - done.
  - assert (is_star ($"*/" ++ fmt_d n) = false) as -> by (by apply bool_decide_eq_false).
    rewrite starts_with_app. change (drop 2 ($"*/" ++ fmt_d n)) with (fmt_d n).
    rewrite <-(app_nil_r (fmt_d n)), (atoi_small n []) by (done || unfold small; lia).
    rewrite (proj2 (Z.ltb_lt 0 n)) by lia. rewrite Z.eqb_eq. apply Z.rem_divide. lia.
  - destruct Hok as [Ha Hb]. destruct (small_digits a Ha) as (d & t & E & Hd).
    destruct (digit_head_not_star d (t ++ $"-" ++ fmt_d b)) as [Hs1 Hs2]; [by inversion Hd|].
    rewrite app_comm_cons, <- E in Hs1, Hs2. rewrite Hs1, Hs2. cbn [app list_ascii_of_string].
    rewrite strchr_app by (rewrite E; by apply digits_not_elem).
    rewrite (atoi_small a) by done.
    assert (drop (length (fmt_d a) + 1) (fmt_d a ++ "-"%char :: fmt_d b) = fmt_d b ++ []) as ->.
    { rewrite drop_app_add, app_nil_r. done. }
    rewrite (atoi_small b) by done. rewrite andb_true_iff, !Z.leb_le. done.
  - destruct Hok as (Hl & Hsm & Hlen). destruct l as [|x [|y l]]; cbn in Hl; [lia..|].
    pose proof (comma_list_chars _ Hsm) as Hch. pose proof (strtok_comma_list _ Hsm) as Htok.
    rewrite truncate_to_id by done. rewrite Htok.
    inversion Hsm as [|? ? Hx _]; subst. destruct (small_digits x Hx) as (d & t & E & Hd).
    assert (comma_list (x :: y :: l) = fmt_d x ++ ","%char :: comma_list (y :: l)) as Ec by done.
    destruct (digit_head_not_star d (t ++ ","%char :: comma_list (y :: l))) as [Hs1 Hs2]; [by inversion Hd|].
    rewrite app_comm_cons, <- E, <- Ec in Hs1, Hs2. rewrite Hs1, Hs2.
    assert (strchr (comma_list (x :: y :: l)) "-"%char = None) as ->.
    { apply strchr_None. intros Hin. rewrite Forall_forall in Hch. by destruct (Hch _ Hin). }
    assert (strchr (comma_list (x :: y :: l)) ","%char = Some (length (fmt_d x))) as ->.
    { rewrite Ec. apply strchr_app. rewrite E. by apply digits_not_elem. }
    rewrite existsb_exists. split.
    + intros (w & Hin & Hw). apply list_elem_of_In, list_elem_of_fmap in Hin as (z & -> & Hz). apply Z.eqb_eq in Hw.
      rewrite Forall_forall in Hsm. rewrite <-(app_nil_r (fmt_d z)), (atoi_small z []) in Hw by (done || by apply Hsm).
      by subst.
    + intros Hin. exists (fmt_d v). split; [apply list_elem_of_In; by apply list_elem_of_fmap_2|].
      rewrite Forall_forall in Hsm. rewrite <-(app_nil_r (fmt_d v)), (atoi_small v []) by (done || by apply Hsm).
      apply Z.eqb_refl.
  - destruct (small_digits n Hok) as (d & t & E & Hd).
    destruct (digit_head_not_star d t) as [Hs1 Hs2]; [by inversion Hd|]. rewrite <- E in Hs1, Hs2. rewrite Hs1, Hs2.
    assert (forall c, isdigit c = false -> strchr (fmt_d n) c = None) as Hno.
    { intros c Hc. apply strchr_None. rewrite E. by apply digits_not_elem. }
    rewrite !Hno by done. rewrite <-(app_nil_r (fmt_d n)), (atoi_small n []) by done. rewrite Z.eqb_eq. split; congruence.
Qed.

(** ** The next run *)

Section NextRun.
Context (utc_offset : Z).
Local Open Scope Z_scope.

Lemma increment_minute_time x : timegm_local utc_offset (increment_minute x) = timegm_local utc_offset x + 60 \/
  (60 < tm_min x + 1) \/ (24 < tm_hour x + 1).
Proof.
  unfold increment_minute, set_minute, timegm_local.
  destruct (60 <=? tm_min x + 1) eqn:E1; [apply Z.leb_le in E1|left; cbn; lia].
  destruct (24 <=? tm_hour x + 1) eqn:E2; [apply Z.leb_le in E2|]; cbn [tm_year tm_mon tm_mday tm_hour tm_min tm_sec]; lia.
Qed.

Lemma increment_localtime t : timegm_local utc_offset (increment_minute (localtime_r utc_offset t)) = t + 60.
Proof.
  pose proof (localtime_ranges utc_offset t) as H. cbv zeta in H.
  destruct (increment_minute_time (localtime_r utc_offset t)) as [-> |[?|?]]; [by rewrite timegm_localtime|lia..].
Qed.

Lemma increment_year x : tm_year (increment_minute x) = tm_year x.
Proof. unfold increment_minute, set_minute. by repeat case_match. Qed.

Lemma next_minute_time now :
  timegm_local utc_offset (next_minute utc_offset now) = now - (now + utc_offset) mod 60 + 60.
Proof.
  assert (forall x, timegm_local utc_offset (mkTm 0 (tm_min x + 1) (tm_hour x) (tm_mday x) (tm_mon x) (tm_year x) (tm_wday x)) =
            timegm_local utc_offset x - tm_sec x + 60) as H.
  { intros x. unfold timegm_local. cbn [tm_year tm_mon tm_mday tm_hour tm_min tm_sec]. lia. }
  unfold next_minute. by rewrite H, timegm_localtime, localtime_sec.
Qed.

Lemma search_S f fs search_end x : search utc_offset (S f) fs search_end x =
  if tm_year x <? 200 then
    if search_end <? timegm_local utc_offset x then SNone
    else if fields_match fs (localtime_r utc_offset (timegm_local utc_offset x)) then SFound (timegm_local utc_offset x)
    else search utc_offset f fs search_end (increment_minute (localtime_r utc_offset (timegm_local utc_offset x)))
  else SNone.
Proof. reflexivity. Qed.

(** The search visits the minutes from its start and stops at the first match
    within the window. *)
Lemma search_spec fs search_end : search_end + utc_offset < 4102444800 ->
  forall fuel x t, timegm_local utc_offset x = t -> tm_year x < 200 -> search_end < t + 60 * Z.of_nat fuel ->
  match search utc_offset (S fuel) fs search_end x with
  | SFound u => t <= u <= search_end /\ (u - t) mod 60 = 0 /\ fields_match fs (localtime_r utc_offset u) = true /\
      forall k, 0 <= k -> t + 60 * k < u -> fields_match fs (localtime_r utc_offset (t + 60 * k)) = false
  | SNone => forall k, 0 <= k -> t + 60 * k <= search_end -> fields_match fs (localtime_r utc_offset (t + 60 * k)) = false
  | SNoFuel => False
  end.
Proof.
  intros Hend. induction fuel as [|fuel IH]; intros x t Hx Hy Hf; rewrite search_S, Hx;
    (rewrite (proj2 (Z.ltb_lt (tm_year x) 200)) by lia).
  - rewrite (proj2 (Z.ltb_lt search_end t)) by lia. intros k Hk Ht. lia.
  - destruct (search_end <? t) eqn:E; [apply Z.ltb_lt in E; intros k Hk Ht; lia|apply Z.ltb_ge in E].
    destruct (fields_match fs (localtime_r utc_offset t)) eqn:Em.
    { split_and!; [lia|lia|by rewrite Z.sub_diag|done|intros k Hk Ht; lia]. }
    assert (forall k, 0 <= k -> (t + 60 + 60 * (k - 1) = t + 60 * k)) as Hk' by (intros; lia).
    specialize (IH (increment_minute (localtime_r utc_offset t)) (t + 60) (increment_localtime t)).
    rewrite increment_year in IH. specialize (IH (localtime_year utc_offset t ltac:(lia)) ltac:(lia)).
    destruct (search utc_offset (S fuel) fs search_end _) as [u| |]; [|..|done].
    + destruct IH as (H1 & H2 & H3 & H4). split_and!; [lia|lia| |done|].
      * replace (u - t) with (u - (t + 60) + 1 * 60) by lia. by rewrite Z_mod_plus_full.
      * intros k Hk Ht. destruct (decide (k = 0)) as [->|]; [by rewrite Z.mul_0_r, Z.add_0_r|].
        rewrite <- Hk' by done. apply H4; lia.
    + intros k Hk Ht. destruct (decide (k = 0)) as [->|]; [by rewrite Z.mul_0_r, Z.add_0_r|].
      rewrite <- Hk' by done. apply IH; lia.
Qed.

Lemma parse_standard_cron_search schedule fs now : scan_fields schedule = Some fs -> head schedule <> Some "@"%char ->
  parse_standard_cron utc_offset schedule now =
    match search utc_offset search_fuel fs (now + YEAR_SECONDS) (next_minute utc_offset now) with SFound t => Some t | _ => None end.
Proof.
  intros Hfs Hat. unfold parse_standard_cron. rewrite Hfs.
  generalize (search utc_offset search_fuel fs (now + YEAR_SECONDS) (next_minute utc_offset now)). intros r.
  destruct schedule as [|c s]; [done|]. destruct c as [[] [] [] [] [] [] [] []]; try reflexivity. done.
Qed.

(** The start of a minute on the local clock. *)
Definition minute_start (u : Z) : Prop := (u + utc_offset) mod 60 = 0.

(** C15: The next run of a five-field schedule is the first minute after now,
    within 366 days, whose local time matches the fields; there is none only
    if no minute of those days matches. The search always ends. *)
Theorem parse_standard_cron_correct schedule fs now :
  scan_fields schedule = Some fs -> head schedule <> Some "@"%char -> now + YEAR_SECONDS + utc_offset < 4102444800 ->
  search utc_offset search_fuel fs (now + YEAR_SECONDS) (next_minute utc_offset now) <> SNoFuel /\
  match parse_standard_cron utc_offset schedule now with
  | Some t => now < t <= now + YEAR_SECONDS /\ minute_start t /\ fields_match fs (localtime_r utc_offset t) = true /\
      forall u, now < u < t -> minute_start u -> fields_match fs (localtime_r utc_offset u) = false
  | None => forall u, now < u <= now + YEAR_SECONDS -> minute_start u -> fields_match fs (localtime_r utc_offset u) = false
  end.
Proof.
  intros Hfs Hat Hend. pose proof (next_minute_time now) as Ht0.
  pose proof (Z.mod_pos_bound (now + utc_offset) 60 ltac:(lia)) as Hs.
  set (t0 := now - (now + utc_offset) mod 60 + 60) in *.
  pose proof (search_spec fs (now + YEAR_SECONDS) Hend (Nat.pred search_fuel) (next_minute utc_offset now) t0 Ht0) as Hsearch.
  assert (S (Nat.pred search_fuel) = search_fuel) as Hpred by (unfold search_fuel; lia). rewrite Hpred in Hsearch.
  assert (tm_year (next_minute utc_offset now) < 200) as Hy.
  { unfold next_minute. cbn [tm_year]. apply localtime_year. unfold YEAR_SECONDS in Hend. lia. }
  specialize (Hsearch Hy). assert (now + YEAR_SECONDS < t0 + 60 * Z.of_nat (Nat.pred search_fuel)) as Hfuel.
  { unfold YEAR_SECONDS, search_fuel, t0. lia. }
  specialize (Hsearch Hfuel).
  assert (minute_start t0) as Ht0m.
  { unfold minute_start, t0. replace (now - (now + utc_offset) mod 60 + 60 + utc_offset)
      with ((now + utc_offset) - (now + utc_offset) mod 60 + 1 * 60) by lia.
    rewrite Z_mod_plus_full. rewrite (Z.div_mod (now + utc_offset) 60) at 1 by lia.
    replace (60 * ((now + utc_offset) / 60) + (now + utc_offset) mod 60 - (now + utc_offset) mod 60)
      with (((now + utc_offset) / 60) * 60) by lia. apply Z_mod_mult. }
  assert (forall u, now < u -> minute_start u -> exists k, 0 <= k /\ u = t0 + 60 * k) as Hgrid.
  { intros u Hu Hm. unfold minute_start in *. exists ((u - t0) / 60).
    assert ((u - t0) mod 60 = 0) as Hd.
    { replace (u - t0) with ((u + utc_offset) - (t0 + utc_offset)) by lia. rewrite Zminus_mod, Hm, Ht0m. done. }
    pose proof (Z.div_mod (u - t0) 60 ltac:(lia)). split; [|lia]. apply Z.div_le_lower_bound; [lia|].
    clear - Hu Hs Hd. revert Hd. unfold t0. Z.div_mod_to_equations. lia. }
  clear Hpred Hfuel. rewrite (parse_standard_cron_search _ _ _ Hfs Hat). revert Hsearch.
  generalize (search utc_offset search_fuel fs (now + YEAR_SECONDS) (next_minute utc_offset now)).
  intros [u| |] Hsearch; [split; [discriminate|]..|done].
  - destruct Hsearch as (H1 & H2 & H3 & H4). split_and!; [unfold t0 in H1; lia|lia| |done|].
    + unfold minute_start in *. replace (u + utc_offset) with ((u - t0) + (t0 + utc_offset)) by lia.
      rewrite Z.add_mod, H2, Ht0m by lia. done.
    + intros v Hv Hm. destruct (Hgrid v) as (k & Hk & ->); [lia|done|]. apply H4; lia.
  - intros v Hv Hm. destruct (Hgrid v) as (k & Hk & ->); [lia|done|]. apply Hsearch; lia.
Qed.
End NextRun.

(** Day of month and day of week: both count when both are given, either when
    one is, and any day when both are stars. *)
Lemma dom_dow_match_spec fs d w :
  dom_dow_match fs d w =
    match is_star (f_dom fs), is_star (f_dow fs) with
    | true, true => true
    | true, false => cron_field_matches w (f_dow fs)
    | false, true => cron_field_matches d (f_dom fs)
    | false, false => cron_field_matches d (f_dom fs) || cron_field_matches w (f_dow fs)
    end.
Proof.
  unfold dom_dow_match. destruct (is_star (f_dom fs)), (is_star (f_dow fs)); cbn; try done;
    by destruct (cron_field_matches d (f_dom fs)), (cron_field_matches w (f_dow fs)).
Qed.

(** The relative and absolute schedules: [@in n] is one run n seconds
    from now, [@every n] recurs n seconds from now, [@at t] is one run at t,
    for every n that fits an [int] and t that fits a [long]. *)
Theorem cron_schedule_relative utc_offset n t now :
  (1 <= n <= INT_MAX)%Z -> (LONG_MIN <= t <= LONG_MAX)%Z ->
  cron_schedule_next_run utc_offset (Some ($"@in " ++ fmt_d n)) now = (CRON_SCHEDULE_ONE_TIME, Some (now + n)%Z) /\
  cron_schedule_next_run utc_offset (Some ($"@every " ++ fmt_d n)) now = (CRON_SCHEDULE_RECURRING, Some (now + n)%Z) /\
  cron_schedule_next_run utc_offset (Some ($"@at " ++ fmt_d t)) now = (CRON_SCHEDULE_ONE_TIME, Some t).
Proof.
  intros Hn Ht. assert (atoi (fmt_d n) = n) as Hi.
  { apply atoi_fmt_d. unfold INT_MAX in *. lia. }
  unfold cron_schedule_next_run. split_and!.
  - change (drop 4 ($"@in " ++ fmt_d n)) with (fmt_d n). rewrite Hi.
    rewrite (proj2 (Z.leb_gt n 0)) by lia. reflexivity.
  - change (drop 7 ($"@every " ++ fmt_d n)) with (fmt_d n). rewrite Hi.
    rewrite (proj2 (Z.leb_gt n 0)) by lia. reflexivity.
  - change (drop 4 ($"@at " ++ fmt_d t)) with (fmt_d t). rewrite atol_fmt_d by done. reflexivity.
Qed.

(** A field of more than seven characters is split in two by the scan,
    and the rest shifts into the next field: a schedule for minutes 0, 15, 30
    and 5 of every hour runs at 5 o'clock only, although one minute after
    midnight minute 5 of the same hour was due first. *)
Theorem cron_long_field_split :
  scan_fields $"0,15,30,5 * * * *" = Some (mkFields $"0,15,30" $",5" $"*" $"*" $"*") /\
  parse_standard_cron 0 $"0,15,30,5 * * * *" 60 = Some 18000%Z /\
  cron_field_matches (tm_min (localtime_r 0 300)) $"0,15,30,5" = true.
Proof. split_and!; vm_compute; reflexivity. Qed.

Lemma cron_field_matches_correct_witness :
  cron_field_matches 30 $"0,15,30" = true <-> 30%Z ∈ [0; 15; 30]%Z.
Proof.
  apply (cron_field_matches_correct (FList [0; 15; 30]%Z) 30); [|lia].
  split; [cbn; lia|]. split; [repeat constructor; unfold small, INT_MAX; lia|]. apply Nat.ltb_lt. vm_compute. reflexivity.
Defined.

Lemma parse_standard_cron_correct_witness :
  search 0 search_fuel (mkFields $"30" $"9" $"*" $"*" $"1-5") (0 + YEAR_SECONDS) (next_minute 0 0) <> SNoFuel /\
  match parse_standard_cron 0 $"30 9 * * 1-5" 0 with
  | Some t => (0 < t <= 0 + YEAR_SECONDS)%Z /\ minute_start 0 t /\
      fields_match (mkFields $"30" $"9" $"*" $"*" $"1-5") (localtime_r 0 t) = true /\
      forall u, (0 < u < t)%Z -> minute_start 0 u -> fields_match (mkFields $"30" $"9" $"*" $"*" $"1-5") (localtime_r 0 u) = false
  | None => forall u, (0 < u <= 0 + YEAR_SECONDS)%Z -> minute_start 0 u ->
      fields_match (mkFields $"30" $"9" $"*" $"*" $"1-5") (localtime_r 0 u) = false
  end.
Proof. apply (parse_standard_cron_correct 0); [vm_compute; reflexivity|done|unfold YEAR_SECONDS; lia]. Defined.

Lemma cron_schedule_relative_witness :
  cron_schedule_next_run 0 (Some ($"@in " ++ fmt_d 300)) 1000 = (CRON_SCHEDULE_ONE_TIME, Some 1300%Z) /\
  cron_schedule_next_run 0 (Some ($"@every " ++ fmt_d 300)) 1000 = (CRON_SCHEDULE_RECURRING, Some 1300%Z) /\
  cron_schedule_next_run 0 (Some ($"@at " ++ fmt_d 5000)) 1000 = (CRON_SCHEDULE_ONE_TIME, Some 5000%Z).
Proof. apply (cron_schedule_relative 0 300 5000 1000); unfold INT_MAX, LONG_MIN, LONG_MAX; lia. Defined.
