(* ===== verification/Cron.v ===== *)
(** [src/cron/cron.c], second part: the job table, its file, and the worker
    that runs the jobs that are due.

    The table is a linked list, the newest job first; a node is its address
    and its job. Every operation holds the mutex; the worker releases it
    while a callback runs, so other operations may change the table then. *)
From S2P Require Import Prelude CStr Json Common Fs Calendar CronSchedule.

Record CronJob := mkJob {
  cj_id : option cstr;
  cj_name : option cstr;
  cj_payload_message : option cstr;
  cj_channel : option cstr;
  cj_to : option cstr;
  cj_deliver : bool;
  cj_next_run : Z;
  cj_schedule : option cstr;
  cj_retry_count : Z;
  cj_max_retries : Z;
  cj_last_status : Z;
}.

Record JobNode := mkNode { jn_addr : nat; jn_job : CronJob }.

(** [cs_next_addr] is the address the next allocation returns. *)
Record CronService := mkCron {
  cs_store_path : cstr;
  cs_running : bool;
  cs_jobs : list JobNode;
  cs_next_addr : nat;
}.

Definition with_jobs (s : CronService) (jobs : list JobNode) : CronService :=
  mkCron (cs_store_path s) (cs_running s) jobs (cs_next_addr s).

Definition copy_job (src : CronJob) : CronJob :=
  mkJob (cj_id src) (cj_name src) (cj_payload_message src) (cj_channel src) (cj_to src) (cj_deliver src)
    (cj_next_run src) (cj_schedule src) (cj_retry_count src)
    (if (0 <? cj_max_retries src)%Z then cj_max_retries src else 3) (cj_last_status src).

Definition set_next_run (j : CronJob) (t : Z) : CronJob :=
  mkJob (cj_id j) (cj_name j) (cj_payload_message j) (cj_channel j) (cj_to j) (cj_deliver j) t (cj_schedule j)
    (cj_retry_count j) (cj_max_retries j) (cj_last_status j).

(** ** The file *)

Definition opt_member (name : cstr) (v : option cstr) : list (cstr * json) :=
  match v with Some s => [(name, JStr s)] | None => [] end.

Definition job_json (j : CronJob) : json :=
  JObj (opt_member $"id" (cj_id j) ++ opt_member $"name" (cj_name j) ++
        opt_member $"payload_message" (cj_payload_message j) ++ opt_member $"channel" (cj_channel j) ++
        opt_member $"to" (cj_to j) ++
        [($"deliver", JBool (cj_deliver j)); ($"next_run", JNum (num_of_Z (cj_next_run j)))] ++
        opt_member $"schedule" (cj_schedule j)).

Definition jobs_json (jobs : list JobNode) : json :=
  JObj [($"jobs", JArr ((fun n => job_json (jn_job n)) <$> jobs))].

(** [save_jobs]: the file is rewritten in place. *)
Definition save_jobs (fs : Fs) (store_path : cstr) (jobs : list JobNode) : Fs :=
  match cJSON_Print (jobs_json jobs) with
  | Some text => default fs (fs_write fs store_path text)
  | None => fs
  end.

(** The job of one element of the array. *)
Definition job_of_json (item : json) : CronJob :=
  let str name := is_string (get_object_item (Some item) name) in
  {| cj_id := str $"id"; cj_name := str $"name"; cj_payload_message := str $"payload_message";
     cj_channel := str $"channel"; cj_to := str $"to";
     cj_deliver := default false (is_bool (get_object_item (Some item) $"deliver"));
     cj_next_run := default 0%Z (num_trunc <$> is_number (get_object_item (Some item) $"next_run"));
     cj_schedule := str $"schedule"; cj_retry_count := 0; cj_max_retries := 0; cj_last_status := 0 |}.

Definition push_job (s : CronService) (j : CronJob) : CronService :=
  mkCron (cs_store_path s) (cs_running s) (mkNode (cs_next_addr s) j :: cs_jobs s) (S (cs_next_addr s)).

Definition load_jobs (fs : Fs) (s : CronService) : CronService :=
  match fs_read fs (cs_store_path s) with
  | None | Some [] => s
  | Some data =>
      match cJSON_Parse (take_while not_nul data) with
      | None => s
      | Some root =>
          match is_array (get_object_item (Some root) $"jobs") with
          | Some items => fold_left (fun s item => push_job s (job_of_json item)) items s
          | None => s
          end
      end
  end.

Definition cron_service_create (fs : Fs) (store_path : cstr) : CronService :=
  load_jobs fs (mkCron store_path false [] 0).

(** ** Operations *)

Section Zone.
Context (utc_offset : Z).

(** What [cron_service_add_job] gives back: NULL, the id, or a crash in
    [strdup(NULL)] when the job updated has no id. *)
Inductive add_result := AddNull | AddId (id : cstr) | AddCrash.

Definition has_name (name : cstr) (n : JobNode) : bool :=
  match cj_name (jn_job n) with Some m => str_eq m name | None => false end.
Definition has_id (id : cstr) (n : JobNode) : bool :=
  match cj_id (jn_job n) with Some m => str_eq m id | None => false end.

(** The update of a job with the same name: the schedule and the payload are
    replaced first; an invalid schedule leaves [next_run] as it was. *)
Definition update_job (now : Z) (old job : CronJob) : CronJob * CronScheduleType :=
  let '(schedule_type, next) := cron_schedule_next_run utc_offset (cj_schedule job) now in
  (mkJob (cj_id old) (cj_name old) (cj_payload_message job) (cj_channel old) (cj_to old) (cj_deliver old)
     (default (cj_next_run old) next) (cj_schedule job) (cj_retry_count old) (cj_max_retries old) (cj_last_status old),
   schedule_type).

(** The first node that satisfies [p], replaced. *)
Fixpoint replace_first (p : JobNode -> bool) (f : CronJob -> CronJob) (jobs : list JobNode) : list JobNode :=
  match jobs with
  | [] => []
  | n :: r => if p n then mkNode (jn_addr n) (f (jn_job n)) :: r else n :: replace_first p f r
  end.

Definition generated_id (now rnd : Z) : cstr := truncate_to 32 ($"job_" ++ fmt_d now ++ $"_" ++ fmt_d (Z.rem rnd 10000)).

Definition set_id (j : CronJob) (id : cstr) : CronJob :=
  mkJob (Some id) (cj_name j) (cj_payload_message j) (cj_channel j) (cj_to j) (cj_deliver j) (cj_next_run j)
    (cj_schedule j) (cj_retry_count j) (cj_max_retries j) (cj_last_status j).

(** The new node of [cron_service_add_job]; [now] and [rnd] are the clock and
    [rand()]. *)
Definition insert_job (now rnd : Z) (fs : Fs) (s : CronService) (job : CronJob) : Fs * CronService * add_result :=
  let job1 := copy_job job in
  let id := default (generated_id now rnd) (cj_id job1) in
  let '(schedule_type, next) := cron_schedule_next_run utc_offset (cj_schedule job1) now in
  match schedule_type with
  | CRON_SCHEDULE_INVALID => (fs, s, AddNull)
  | _ =>
      let s' := push_job s (set_next_run (set_id job1 id) (default (cj_next_run job1) next)) in
      (save_jobs fs (cs_store_path s') (cs_jobs s'), s', AddId id)
  end.

Definition cron_service_add_job (now rnd : Z) (fs : Fs) (s : CronService) (job : CronJob) : Fs * CronService * add_result :=
  match cj_name job with
  | None => insert_job now rnd fs s job
  | Some name =>
      match List.find (has_name name) (cs_jobs s) with
      | None => insert_job now rnd fs s job
      | Some n =>
          let '(job', schedule_type) := update_job now (jn_job n) job in
          let s' := with_jobs s (replace_first (has_name name) (fun _ => job') (cs_jobs s)) in
          match schedule_type with
          | CRON_SCHEDULE_INVALID => (fs, s', AddNull)
          | _ => (save_jobs fs (cs_store_path s') (cs_jobs s'), s', match cj_id job' with Some id => AddId id | None => AddCrash end)
          end
      end
  end.

Fixpoint remove_first_node (p : JobNode -> bool) (jobs : list JobNode) : list JobNode :=
  match jobs with
  | [] => []
  | n :: r => if p n then r else n :: remove_first_node p r
  end.

Definition cron_service_remove_job (fs : Fs) (s : CronService) (job_id : cstr) : Fs * CronService * bool :=
  if existsb (has_id job_id) (cs_jobs s) then
    let s' := with_jobs s (remove_first_node (has_id job_id) (cs_jobs s)) in
    (save_jobs fs (cs_store_path s') (cs_jobs s'), s', true)
  else (fs, s, false).

Definition cron_service_status (s : CronService) : cstr :=
  truncate_to 256 ($"Cron service: " ++ (if cs_running s then $"running" else $"stopped") ++ $", jobs: " ++
    fmt_zu (length (cs_jobs s))).

(** [cron_service_start] up to the creation of the thread, which may fail, and
    [cron_service_stop]: the new state and the answer, whether the worker is
    joined. *)
Definition cron_service_start (thread_ok : bool) (s : CronService) : CronService * bool :=
  if cs_running s then (s, false)
  else (mkCron (cs_store_path s) thread_ok (cs_jobs s) (cs_next_addr s), thread_ok).

Definition cron_service_stop (on_worker : bool) (s : CronService) : CronService * bool :=
  (mkCron (cs_store_path s) false (cs_jobs s) (cs_next_addr s), cs_running s && negb on_worker).

(** ** The worker's scan *)

Definition is_addr (a : nat) (n : JobNode) : bool := Nat.eqb (jn_addr n) a.

(** The nodes from the one at [a] on. *)
Fixpoint from_addr (a : nat) (jobs : list JobNode) : list JobNode :=
  match jobs with
  | [] => []
  | n :: r => if is_addr a n then n :: r else from_addr a r
  end.

Definition head_addr (jobs : list JobNode) : option nat := jn_addr <$> head jobs.
(** [node->next]. *)
Definition next_addr (a : nat) (jobs : list JobNode) : option nat := head_addr (tail (from_addr a jobs)).

(** [prev->next = node->next]: everything between the two leaves the list.
    [None] when [prev] is not a live node before [node]: freed memory or a
    cycle. *)
Fixpoint cut_after (p a : nat) (jobs : list JobNode) : option (list JobNode) :=
  match jobs with
  | [] => None
  | n :: r =>
      if is_addr p n then
        match from_addr a r with [] => None | _ :: suffix => Some (n :: suffix) end
      else cons n <$> cut_after p a r
  end.

Definition reschedule (j : CronJob) (t : Z) : CronJob :=
  mkJob (cj_id j) (cj_name j) (cj_payload_message j) (cj_channel j) (cj_to j) (cj_deliver j) t (cj_schedule j)
    0 (cj_max_retries j) 0.

Inductive scan_outcome :=
  | ScanDone (jobs : list JobNode) (modified : bool) (calls : list CronJob)
  | ScanCorrupt                       (* a dangling pointer is followed *)
  | ScanNoFuel.

(** [callback]: what the callback, and the threads that get the mutex while it
    runs, make of the table; the identity when there is no callback. *)
Context (callback : CronJob -> list JobNode -> list JobNode).

Definition due (now : Z) (j : CronJob) : bool := (cj_next_run j <=? now)%Z.

Fixpoint cron_scan (fuel : nat) (now : Z) (jobs : list JobNode) (current prev : option nat) (modified : bool)
    (calls : list CronJob) : scan_outcome :=
  match fuel with
  | 0 => ScanNoFuel
  | S f =>
      match current with
      | None => ScanDone jobs modified calls
      | Some a =>
          match from_addr a jobs with
          | [] => ScanCorrupt
          | node :: rest =>
              if due now (jn_job node) then
                let job_snapshot := copy_job (jn_job node) in
                let jobs1 := callback job_snapshot jobs in
                let calls1 := calls ++ [job_snapshot] in
                match (id ← cj_id (jn_job node); List.find (has_id id) jobs1) with
                | None => cron_scan f now jobs1 (head_addr jobs1) None modified calls1
                | Some found =>
                    match cron_schedule_next_run utc_offset (cj_schedule (jn_job found)) now with
                    | (CRON_SCHEDULE_RECURRING, Some t) =>
                        let jobs2 := replace_first (is_addr (jn_addr found)) (fun j => reschedule j t) jobs1 in
                        cron_scan f now jobs2 (next_addr (jn_addr found) jobs2) (Some (jn_addr found)) true calls1
                    | _ =>
                        match prev with
                        | Some p =>
                            match cut_after p (jn_addr found) jobs1 with
                            | None => ScanCorrupt
                            | Some jobs2 => cron_scan f now jobs2 (next_addr p jobs2) prev true calls1
                            end
                        | None =>
                            let jobs2 := tail (from_addr (jn_addr found) jobs1) in
                            cron_scan f now jobs2 (head_addr jobs2) None true calls1
                        end
                    end
                end
              else cron_scan f now jobs (head_addr rest) (Some a) modified calls
          end
      end
  end.

(** One round of [cron_worker]: the scan, and the file when it changed. *)
Definition cron_round (fuel : nat) (now : Z) (fs : Fs) (s : CronService) : option (Fs * CronService * list CronJob) :=
  match cron_scan fuel now (cs_jobs s) (head_addr (cs_jobs s)) None false [] with
  | ScanDone jobs modified calls =>
      Some (if modified then save_jobs fs (cs_store_path s) jobs else fs, with_jobs s jobs, calls)
  | _ => None
  end.

(** The seconds the worker waits before the next round. *)
Definition earliest (jobs : list JobNode) : Z :=
  fold_left (fun next n => if (0 <? cj_next_run (jn_job n))%Z && (cj_next_run (jn_job n) <? next)%Z
                           then cj_next_run (jn_job n) else next) jobs LONG_MAX.

Definition wait_sec (now : Z) (jobs : list JobNode) : Z :=
  let next_time := earliest jobs in
  let w := if (next_time <=? now)%Z then 0%Z else (next_time - now)%Z in
  if (60 <? w)%Z then 60%Z else w.
End Zone.

(** ** The list of nodes *)

Definition node_id (n : JobNode) : option cstr := cj_id (jn_job n).

(** Distinct addresses, and a distinct id for every job. *)
Record table_ok (jobs : list JobNode) : Prop := {
  to_addrs : NoDup (jn_addr <$> jobs);
  to_ids : NoDup (node_id <$> jobs);
  to_some : Forall (fun n => is_Some (node_id n)) jobs;
}.

Lemma from_addr_app a l r : a ∉ (jn_addr <$> l) -> from_addr a (l ++ r) = from_addr a r.
Proof.
  induction l as [|n l IH]; intros Ha; [done|]. rewrite fmap_cons in Ha. apply not_elem_of_cons in Ha as [Hn Ha].
  cbn [app from_addr]. unfold is_addr. rewrite (proj2 (Nat.eqb_neq (jn_addr n) a)) by done. by apply IH.
Qed.

Lemma from_addr_here n r : from_addr (jn_addr n) (n :: r) = n :: r.
Proof. cbn. unfold is_addr. by rewrite Nat.eqb_refl. Qed.

Lemma from_addr_mid l n r : jn_addr n ∉ (jn_addr <$> l) -> from_addr (jn_addr n) (l ++ n :: r) = n :: r.
Proof. intros. rewrite from_addr_app by done. apply from_addr_here. Qed.

Lemma replace_first_mid f l n r : jn_addr n ∉ (jn_addr <$> l) ->
  replace_first (is_addr (jn_addr n)) f (l ++ n :: r) = l ++ mkNode (jn_addr n) (f (jn_job n)) :: r.
Proof.
  induction l as [|m l IH]; intros Ha; cbn [app replace_first].
  - unfold is_addr. by rewrite Nat.eqb_refl.
  - rewrite fmap_cons in Ha. apply not_elem_of_cons in Ha as [Hn Ha]. unfold is_addr at 1.
    rewrite (proj2 (Nat.eqb_neq (jn_addr m) (jn_addr n))) by done. by rewrite IH.
Qed.

Lemma cut_after_mid l p n r : NoDup (jn_addr <$> (l ++ p :: n :: r)) ->
  cut_after (jn_addr p) (jn_addr n) (l ++ p :: n :: r) = Some (l ++ p :: r).
Proof.
  induction l as [|m l IH]; intros Hnd; cbn [app cut_after].
  - unfold is_addr. rewrite Nat.eqb_refl. by rewrite from_addr_here.
  - cbn [app] in Hnd. rewrite fmap_cons in Hnd. apply NoDup_cons in Hnd as [Hm Hnd].
    unfold is_addr at 1. rewrite (proj2 (Nat.eqb_neq (jn_addr m) (jn_addr p))).
    + by rewrite IH.
    + intros E. apply Hm. rewrite E, fmap_app. apply elem_of_app. right. by left.
Qed.

Lemma find_id_mid l n r id : NoDup (node_id <$> (l ++ n :: r)) -> node_id n = Some id ->
  List.find (has_id id) (l ++ n :: r) = Some n.
Proof.
  assert (forall m, has_id id m = match node_id m with Some i => str_eq i id | None => false end) as Hhas by done.
  intros Hnd Hid. induction l as [|m l IH]; cbn [app List.find]; rewrite Hhas.
  - rewrite Hid. unfold str_eq. by rewrite bool_decide_true.
  - cbn [app] in Hnd. rewrite fmap_cons in Hnd. apply NoDup_cons in Hnd as [Hm Hnd].
    destruct (node_id m) as [i|] eqn:E; [|by apply IH].
    unfold str_eq. rewrite bool_decide_false; [by apply IH|]. intros ->. apply Hm.
    rewrite fmap_app, fmap_cons, Hid. apply elem_of_app. right. by left.
Qed.

(** ** What a round does *)

Section Scan.
Context (utc_offset : Z).

Definition process (now : Z) (n : JobNode) : option JobNode :=
  if due now (jn_job n) then
    match cron_schedule_next_run utc_offset (cj_schedule (jn_job n)) now with
    | (CRON_SCHEDULE_RECURRING, Some t) => Some (mkNode (jn_addr n) (reschedule (jn_job n) t))
    | _ => None
    end
  else Some n.

Definition due_nodes (now : Z) (jobs : list JobNode) : list JobNode := List.filter (fun n => due now (jn_job n)) jobs.

Lemma table_ok_middle l n n' r : jn_addr n' = jn_addr n -> node_id n' = node_id n ->
  table_ok (l ++ n :: r) -> table_ok ((l ++ [n']) ++ r).
Proof.
  intros Ha Hi [H1 H2 H3]. rewrite <-app_assoc. cbn [app]. split.
  - by rewrite !fmap_app, !fmap_cons, Ha in *.
  - by rewrite !fmap_app, !fmap_cons, Hi in *.
  - rewrite Forall_app, Forall_cons, Hi in *. done.
Qed.

Lemma table_ok_remove l n r : table_ok (l ++ n :: r) -> table_ok (l ++ r).
Proof.
  intros [H1 H2 H3]. rewrite !fmap_app, !fmap_cons in *. split.
  - rewrite fmap_app. apply NoDup_app in H1 as (A & B & C). apply NoDup_cons in C as [_ C].
    apply NoDup_app. split_and!; [done| |done]. intros x Hx Hr. apply (B x Hx). by right.
  - rewrite fmap_app. apply NoDup_app in H2 as (A & B & C). apply NoDup_cons in C as [_ C].
    apply NoDup_app. split_and!; [done| |done]. intros x Hx Hr. apply (B x Hx). by right.
  - rewrite Forall_app, Forall_cons in *. naive_solver.
Qed.

Lemma last_addr_snoc l n : last (jn_addr <$> (l ++ [n])) = Some (jn_addr n).
Proof. rewrite fmap_app. cbn. apply last_snoc. Qed.

Lemma cron_scan_from now rest : forall l fuel m calls, table_ok (l ++ rest) -> length rest < fuel ->
  cron_scan utc_offset (fun _ js => js) fuel now (l ++ rest) (head_addr rest) (last (jn_addr <$> l)) m calls =
    ScanDone (l ++ omap (process now) rest) (m || existsb (fun n => due now (jn_job n)) rest)
      (calls ++ ((fun n => copy_job (jn_job n)) <$> due_nodes now rest)).
Proof.
  induction rest as [|n rest IH]; intros l fuel m calls Hok Hf; (destruct fuel as [|fuel]; [cbn in Hf; lia|]).
  { cbn. by rewrite !app_nil_r, orb_false_r. }
  pose proof Hok as [Ha Hi Hs]. cbn [length] in Hf.
  assert (jn_addr n ∉ (jn_addr <$> l)) as Hnl.
  { rewrite fmap_app in Ha. apply NoDup_app in Ha as (_ & Ha & _). intros Hin. apply (Ha _ Hin). by left. }
  cbn [cron_scan head_addr head fmap option_fmap option_map]. rewrite from_addr_mid by done.
  cbn [omap list_omap existsb due_nodes List.filter]. fold (due_nodes now rest). unfold process at 1.
  destruct (due now (jn_job n)) eqn:Ed.
  2:{ rewrite <- (last_addr_snoc l n).
      replace (l ++ n :: rest) with ((l ++ [n]) ++ rest) by (by rewrite <-app_assoc).
      rewrite (IH (l ++ [n])) by (lia || by eapply (table_ok_middle l n n)). by rewrite <-app_assoc. }
  assert (is_Some (node_id n)) as [id Hid] by (rewrite Forall_app, Forall_cons in Hs; naive_solver).
  unfold node_id in Hid. rewrite Hid. cbn [mbind option_bind]. rewrite find_id_mid by done.
  destruct (cron_schedule_next_run utc_offset (cj_schedule (jn_job n)) now) as [ty next] eqn:Esch.
  assert (forall b, m || (true || b) = true) as Hm by (intros; by rewrite orb_true_r).
  assert ((exists t, ty = CRON_SCHEDULE_RECURRING /\ next = Some t) \/
    match ty, next with CRON_SCHEDULE_RECURRING, Some _ => False | _, _ => True end) as [(t & -> & ->)|Hrem].
  { destruct ty, next; auto. left. by eexists. }
  - rewrite replace_first_mid by done. set (n' := mkNode (jn_addr n) (reschedule (jn_job n) t)).
    unfold next_addr. change (jn_addr n) with (jn_addr n'). rewrite from_addr_mid by done. cbn [tail].
    rewrite <- (last_addr_snoc l n').
    replace (l ++ n' :: rest) with ((l ++ [n']) ++ rest) by (by rewrite <-app_assoc).
    rewrite (IH (l ++ [n'])) by (lia || by eapply (table_ok_middle l n n')).
    rewrite <-!app_assoc, Hm. done.
  - assert (forall A (x y : A), match ty, next with CRON_SCHEDULE_RECURRING, Some _ => x | _, _ => y end = y) as Hy
      by (intros; destruct ty, next; done).
    pose proof (table_ok_remove l n rest Hok) as Hok'.
    assert (omap (process now) (n :: rest) = omap (process now) rest) as Ho.
    { cbn. unfold process at 1. rewrite Ed, Esch. by destruct ty, next. }
    destruct (last (jn_addr <$> l)) as [p|] eqn:El.
    + destruct l as [|p' l _] using rev_ind; [done|]. rewrite last_addr_snoc in El. injection El as <-.
      assert (cut_after (jn_addr p') (jn_addr n) ((l ++ [p']) ++ n :: rest) = Some ((l ++ [p']) ++ rest)) as Hcut.
      { rewrite <-!app_assoc in *. cbn [app] in *. by apply cut_after_mid. }
      assert (next_addr (jn_addr p') ((l ++ [p']) ++ rest) = head_addr rest) as Hnext.
      { unfold next_addr. rewrite <-app_assoc. cbn [app]. rewrite from_addr_mid; [done|].
        destruct Hok' as [Ha' _ _]. rewrite <-app_assoc, fmap_app in Ha'. apply NoDup_app in Ha' as (_ & Ha' & _).
        intros Hin. apply (Ha' _ Hin). by left. }
      rewrite Hcut, Hnext. rewrite <- (last_addr_snoc l p'). rewrite IH by (done || lia).
      rewrite <-!app_assoc, Hm. by destruct ty, next.
    + assert (l = []) as -> by (destruct l as [|p' l _] using rev_ind; [done|by rewrite last_addr_snoc in El]).
      cbn [app]. rewrite from_addr_here. cbn [tail].
      pose proof (IH [] fuel true (calls ++ [copy_job (jn_job n)]) Hok' ltac:(lia)) as IH'.
      change (last (jn_addr <$> [])) with (@None nat) in IH'. cbn [app] in IH'. rewrite IH'.
      rewrite <-!app_assoc, Hm. by destruct ty, next.
Qed.

(** C14: A round of the worker over a table in which every job has an id and no
    two the same ([table_ok]), with a callback that leaves the table alone,
    ends, gives every due job to the callback exactly once and in the order of
    the table, keeps the jobs that are not due, moves the due jobs that recur to
    their next time, removes the other due jobs, and reports a change exactly
    when some job was due. (With a due job without an id it does not end,
    [cron_idless_job_livelock]; a callback that adds a job can lose it,
    [cron_scan_loses_added_job].) *)
Theorem cron_scan_complete now jobs : table_ok jobs ->
  cron_scan utc_offset (fun _ js => js) (S (length jobs)) now jobs (head_addr jobs) None false [] =
    ScanDone (omap (process now) jobs) (existsb (fun n => due now (jn_job n)) jobs)
      ((fun n => copy_job (jn_job n)) <$> due_nodes now jobs).
Proof. intros Hok. apply (cron_scan_from now jobs [] (S (length jobs)) false []); [done|lia]. Qed.

(** The nodes before the first job that has no id are skipped, then that job
    is called back and the scan starts again. *)
Lemma cron_scan_idless now pre n post : NoDup (jn_addr <$> (pre ++ n :: post)) ->
  Forall (fun m => due now (jn_job m) = false) pre -> due now (jn_job n) = true -> node_id n = None ->
  forall fuel l r prev m calls, pre = l ++ r ->
  cron_scan utc_offset (fun _ js => js) fuel now (pre ++ n :: post) (head_addr (r ++ [n])) prev m calls = ScanNoFuel.
Proof.
  intros Hnd Hpre Hdue Hid. induction fuel as [|fuel IH]; intros l r prev m calls Hlr; [done|].
  assert (forall x, x ∈ pre ++ [n] -> exists u v, pre ++ n :: post = u ++ x :: v /\ jn_addr x ∉ (jn_addr <$> u)) as Hsplit.
  { intros x Hx. assert (x ∈ pre ++ n :: post) as Hx' by (apply elem_of_app in Hx as [?|?%list_elem_of_singleton];
      apply elem_of_app; [by left|right; subst; by left]).
    apply list_elem_of_split in Hx' as (u & v & E). exists u, v. split; [done|].
    rewrite E, fmap_app in Hnd. apply NoDup_app in Hnd as (_ & Hnd & _). intros Hin. apply (Hnd _ Hin). by left. }
  destruct r as [|x r]; cbn [app head_addr head fmap option_fmap option_map cron_scan].
  - rewrite app_nil_r in Hlr. subst l. destruct (NoDup_app (jn_addr <$> pre) (jn_addr <$> (n :: post))) as [H _].
    rewrite <- fmap_app in H. destruct (H Hnd) as (_ & Hn & _).
    rewrite from_addr_mid by (intros Hin; apply (Hn _ Hin); by left). rewrite Hdue. unfold node_id in Hid. rewrite Hid.
    cbn [mbind option_bind].
    assert (head_addr (pre ++ n :: post) = head_addr (pre ++ [n])) as -> by (by destruct pre).
    by apply (IH [] pre).
  - assert (pre ++ n :: post = l ++ x :: (r ++ n :: post)) as E by (by rewrite Hlr, <-app_assoc).
    assert (jn_addr x ∉ (jn_addr <$> l)) as Hx.
    { rewrite E, fmap_app in Hnd. apply NoDup_app in Hnd as (_ & Hn & _). intros Hin. apply (Hn _ Hin). by left. }
    rewrite E at 1. rewrite from_addr_mid by done.
    assert (due now (jn_job x) = false) as -> by (rewrite Hlr, Forall_app, Forall_cons in Hpre; naive_solver).
    assert (head_addr (r ++ n :: post) = head_addr (r ++ [n])) as -> by (by destruct r).
    apply (IH (l ++ [x]) r). by rewrite <-app_assoc.
Qed.

(** A due job without an id (the store file may hold one) is never
    found again after its callback: the round starts over from the head of
    the table and calls it back for ever. *)
Theorem cron_idless_job_livelock now pre n post fuel : NoDup (jn_addr <$> (pre ++ n :: post)) ->
  Forall (fun m => due now (jn_job m) = false) pre -> due now (jn_job n) = true -> node_id n = None ->
  cron_scan utc_offset (fun _ js => js) fuel now (pre ++ n :: post) (head_addr (pre ++ n :: post)) None false [] = ScanNoFuel.
Proof.
  intros Hnd Hpre Hdue Hid.
  assert (head_addr (pre ++ n :: post) = head_addr (pre ++ [n])) as -> by (by destruct pre).
  by apply (cron_scan_idless now pre n post Hnd Hpre Hdue Hid fuel [] pre).
Qed.

(** A job that is added while the callback of a one-time job at the head
    of the table runs is lost: the node removed is taken to be the head, so
    the newer node in front of it leaves the table with it. *)
Theorem cron_scan_loses_added_job now n new : is_Some (node_id n) -> node_id new <> node_id n -> jn_addr new <> jn_addr n ->
  due now (jn_job n) = true ->
  fst (cron_schedule_next_run utc_offset (cj_schedule (jn_job n)) now) = CRON_SCHEDULE_ONE_TIME ->
  cron_scan utc_offset (fun _ js => new :: js) 2 now [n] (head_addr [n]) None false [] =
    ScanDone [] true [copy_job (jn_job n)].
Proof.
  intros [id Hid] Hne Hna Hdue Hsch.
  destruct (cron_schedule_next_run utc_offset (cj_schedule (jn_job n)) now) as [ty next] eqn:E. cbn in Hsch. subst ty.
  cbn [cron_scan head_addr head fmap option_fmap option_map]. rewrite from_addr_here, Hdue.
  assert ((id ← cj_id (jn_job n); List.find (has_id id) [new; n]) = Some n) as ->.
  { unfold node_id in *. rewrite Hid. cbn [mbind option_bind List.find].
    assert (has_id id new = false) as ->.
    { unfold has_id. destruct (cj_id (jn_job new)) as [i|]; [|done]. unfold str_eq. apply bool_decide_false. congruence. }
    assert (has_id id n = true) as -> by (unfold has_id; rewrite Hid; by apply bool_decide_true). done. }
  assert (tail (from_addr (jn_addr n) [new; n]) = []) as Ht.
  { cbn [from_addr]. unfold is_addr. by rewrite (proj2 (Nat.eqb_neq _ _) Hna), Nat.eqb_refl. }
  rewrite E, Ht. by destruct next.
Qed.
End Scan.

(** ** Waiting *)

Lemma earliest_spec jobs : forall next, let e := fold_left (fun next n => if (0 <? cj_next_run (jn_job n))%Z &&
     (cj_next_run (jn_job n) <? next)%Z then cj_next_run (jn_job n) else next) jobs next in
  (e <= next)%Z /\ Forall (fun n => (0 < cj_next_run (jn_job n))%Z -> (e <= cj_next_run (jn_job n))%Z) jobs.
Proof.
  induction jobs as [|n jobs IH]; intros next; cbn [fold_left]; [split; [done|constructor]|].
  destruct ((0 <? cj_next_run (jn_job n))%Z && (cj_next_run (jn_job n) <? next)%Z) eqn:E.
  - destruct (IH (cj_next_run (jn_job n))) as [H1 H2]. apply andb_prop in E as [E1%Z.ltb_lt E2%Z.ltb_lt].
    split; [lia|]. constructor; [done|done].
  - destruct (IH next) as [H1 H2]. split; [done|]. constructor; [|done]. intros Hpos.
    apply andb_false_iff in E as [E%Z.ltb_ge|E%Z.ltb_ge]; lia.
Qed.

(** Between two rounds the worker waits at most a minute, never past the
    time of a job, and not at all when a job is due (jobs with a positive
    time). *)
Theorem wait_sec_correct now jobs : (0 <= now)%Z ->
  (0 <= wait_sec now jobs <= 60)%Z /\
  Forall (fun n => (0 < cj_next_run (jn_job n))%Z ->
    (now + wait_sec now jobs <= Z.max now (cj_next_run (jn_job n)))%Z /\
    (due now (jn_job n) = true -> wait_sec now jobs = 0%Z)) jobs.
Proof.
  intros Hnow. destruct (earliest_spec jobs LONG_MAX) as [_ H]. fold (earliest jobs) in H. unfold wait_sec, due.
  destruct (earliest jobs <=? now)%Z eqn:E; [apply Z.leb_le in E|apply Z.leb_gt in E].
  - cbn. split; [lia|]. eapply Forall_impl; [exact H|]. intros n _ Hpos. cbn. lia.
  - split; [destruct (60 <? _)%Z eqn:E'; [|apply Z.ltb_ge in E']; lia|]. eapply Forall_impl; [exact H|].
    intros n Hn Hpos. cbn in Hn. specialize (Hn Hpos). split; [|rewrite Z.leb_le; lia].
    destruct (60 <? _)%Z eqn:E'; [apply Z.ltb_lt in E'|]; lia.
Qed.

(** ** The file is read back *)

Definition opt_ok (s : option cstr) : bool := match s with Some s => str_ok s | None => true end.

Definition job_ok (j : CronJob) : bool :=
  opt_ok (cj_id j) && opt_ok (cj_name j) && opt_ok (cj_payload_message j) && opt_ok (cj_channel j) &&
  opt_ok (cj_to j) && opt_ok (cj_schedule j) && (Z.abs (cj_next_run j) <? 10 ^ 15)%Z.

(** A job as the file keeps it: without its counters. *)
Definition restored (j : CronJob) : CronJob :=
  mkJob (cj_id j) (cj_name j) (cj_payload_message j) (cj_channel j) (cj_to j) (cj_deliver j) (cj_next_run j)
    (cj_schedule j) 0 0 0.

Lemma find_opt_member name k v kvs : find_member name (opt_member k v ++ kvs) =
  if strcasecmp_eq name k then match v with Some s => Some (JStr s) | None => find_member name kvs end
  else find_member name kvs.
Proof. destruct v; cbn [opt_member app]; [by rewrite find_member_cons|]. by case_match. Qed.

Lemma is_string_opt (v : option cstr) : is_string match v with Some s => Some (JStr s) | None => None end = v.
Proof. by destruct v. Qed.

Lemma find_last_member name k v : find_member name (opt_member k v) =
  if strcasecmp_eq name k then match v with Some s => Some (JStr s) | None => None end else None.
Proof. rewrite <-(app_nil_r (opt_member k v)), find_opt_member. by destruct v. Qed.

(** Looks a literal name up in a job's object. *)
Ltac eval_opt_member :=
  unfold get_object_item; rewrite <- ?app_assoc;
  repeat ((rewrite find_opt_member || rewrite find_last_member || (cbn [app]; rewrite find_member_cons));
    match goal with |- context [strcasecmp_eq ?a ?b] =>
      let e := eval vm_compute in (strcasecmp_eq a b) in change (strcasecmp_eq a b) with e end;
    cbn beta iota).

Lemma job_of_json_json j : job_of_json (job_json j) = restored j.
Proof.
  unfold job_of_json, job_json, restored. f_equal; try (eval_opt_member; by rewrite is_string_opt).
  - eval_opt_member. done.
  - eval_opt_member. unfold num_of_Z. cbn [is_number fmap option_fmap option_map default from_option].
    unfold num_trunc. cbn. unfold id. lia.
Qed.

Lemma opt_member_ok d k v : str_ok k = true -> opt_ok v = true ->
  forallb (fun kv => str_ok (fst kv) && json_ok d (snd kv)) (opt_member k v) = true.
Proof. intros Hk Hv. destruct v as [s|]; [|done]. cbn in *. by rewrite Hk, Hv. Qed.

Lemma job_json_ok d j : d < CJSON_NESTING_LIMIT -> job_ok j = true -> json_ok d (job_json j) = true.
Proof.
  unfold job_ok. rewrite !andb_true_iff. intros Hd ((((((H1 & H2) & H3) & H4) & H5) & H6) & H7).
  unfold job_json. cbn [json_ok]. rewrite (proj2 (Nat.ltb_lt _ _)) by done. cbn [andb].
  rewrite !forallb_app. rewrite !opt_member_ok by done. cbn [forallb fst snd json_ok andb].
  unfold num_ok, num_of_Z. cbn [n_exp n_mant]. by rewrite H7.
Qed.

Lemma push_jobs items s :
  jn_job <$> cs_jobs (fold_left (fun s item => push_job s (job_of_json item)) items s) =
    rev (job_of_json <$> items) ++ (jn_job <$> cs_jobs s).
Proof.
  revert s. induction items as [|x items IH]; intros s; [done|]. cbn [fold_left]. rewrite IH, fmap_cons. cbn [rev].
  by rewrite <-app_assoc.
Qed.

(** C26: The job file is read back: a service created on the file that a save
    wrote has the same jobs, in reverse order, with their counters reset, for
    times of at most 15 digits. *)
Theorem cron_save_load fs path jobs : fs_writable fs path = true -> Forall (fun n => job_ok (jn_job n) = true) jobs ->
  jn_job <$> cs_jobs (cron_service_create (save_jobs fs path jobs) path) = rev ((fun n => restored (jn_job n)) <$> jobs).
Proof.
  intros Hw Hok.
  assert (json_ok 0 (jobs_json jobs) = true) as Hj.
  { unfold jobs_json. cbn [json_ok forallb fst snd]. rewrite andb_true_r.
    change (str_ok $"jobs") with true. cbn [andb]. apply forallb_forall. intros x Hx.
    apply list_elem_of_In, list_elem_of_fmap in Hx as (n & -> & Hn). rewrite Forall_forall in Hok.
    apply job_json_ok; [apply Nat.ltb_lt; reflexivity|by apply Hok]. }
  destruct (printed_file true _ Hj) as (c & t & Hp & Hnul & Hparse).
  unfold cron_service_create, load_jobs, save_jobs, cJSON_Print, fs_write. rewrite Hp, Hw.
  cbn [default from_option cs_store_path]. unfold fs_read, fs_set. cbn [fs_files]. unfold id. cbn [fs_files].
  rewrite lookup_insert_eq, Hnul, Hparse.
  unfold jobs_json. eval_member. cbn [is_array].
  rewrite push_jobs. cbn [cs_jobs]. rewrite app_nil_r, <- list_fmap_compose. f_equal.
  apply list_fmap_ext. intros _ n _. cbn. apply job_of_json_json.
Qed.

(** ** Adding and removing *)

Definition node_name (n : JobNode) : option cstr := cj_name (jn_job n).

(** What every table of a running service satisfies: distinct addresses below
    the next one, every job with an id, and at most one job per name. *)
Record jobs_ok (bound : nat) (jobs : list JobNode) : Prop := {
  so_addrs : NoDup (jn_addr <$> jobs);
  so_fresh : Forall (fun n => jn_addr n < bound) jobs;
  so_some : Forall (fun n => is_Some (node_id n)) jobs;
  so_names : NoDup (omap node_name jobs);
}.
Definition service_ok (s : CronService) : Prop := jobs_ok (cs_next_addr s) (cs_jobs s).

Lemma replace_first_proj {B} (g : JobNode -> B) p f jobs : (forall n, p n = true -> g (mkNode (jn_addr n) (f (jn_job n))) = g n) ->
  g <$> replace_first p f jobs = g <$> jobs.
Proof.
  intros Hg. induction jobs as [|n jobs IH]; [done|]. cbn [replace_first]. destruct (p n) eqn:E.
  - rewrite !fmap_cons. by rewrite Hg.
  - rewrite !fmap_cons. by rewrite IH.
Qed.

Lemma omap_fmap_omap {A B} (g : A -> option B) (l : list A) : omap g l = omap id (g <$> l).
Proof. induction l as [|x l IH]; [done|]. cbn. unfold id at 1. by rewrite IH. Qed.

Lemma Forall_proj {A B} (g : A -> B) (P : B -> Prop) (l l' : list A) : g <$> l' = g <$> l ->
  Forall (fun x => P (g x)) l -> Forall (fun x => P (g x)) l'.
Proof. intros E H. apply Forall_fmap. apply Forall_fmap in H. by rewrite E. Qed.

Lemma sublist_remove_first p jobs : sublist (remove_first_node p jobs) jobs.
Proof.
  induction jobs as [|n jobs IH]; [done|]. cbn [remove_first_node]. destruct (p n); [by apply sublist_cons|by apply sublist_skip].
Qed.

Lemma jobs_ok_sublist bound jobs jobs' : sublist jobs' jobs -> jobs_ok bound jobs -> jobs_ok bound jobs'.
Proof.
  intros Hsub [H1 H2 H3 H4]. split.
  - eapply sublist_NoDup; [exact H1|]. by apply fmap_sublist.
  - by eapply sublist_Forall.
  - by eapply sublist_Forall.
  - eapply sublist_NoDup; [exact H4|]. by apply sublist_omap.
Qed.

Lemma jobs_ok_replace bound jobs p f : (forall n, cj_id (f (jn_job n)) = cj_id (jn_job n) /\ cj_name (f (jn_job n)) = cj_name (jn_job n)) ->
  jobs_ok bound jobs -> jobs_ok bound (replace_first p f jobs).
Proof.
  intros Hf [H1 H2 H3 H4]. split.
  - by rewrite replace_first_proj.
  - eapply (Forall_proj jn_addr (fun a => a < bound)); [|exact H2]. by apply replace_first_proj.
  - eapply (Forall_proj node_id is_Some); [|exact H3]. apply replace_first_proj. intros n _. apply Hf.
  - rewrite omap_fmap_omap, replace_first_proj, <- omap_fmap_omap; [done|]. intros n _. apply Hf.
Qed.

Lemma jobs_ok_bound bound bound' jobs : bound <= bound' -> jobs_ok bound jobs -> jobs_ok bound' jobs.
Proof. intros Hb [H1 H2 H3 H4]. split; [done| |done|done]. eapply Forall_impl; [exact H2|]. cbn. lia. Qed.

Lemma replace_first_in p f jobs n : List.find p jobs = Some n -> mkNode (jn_addr n) (f (jn_job n)) ∈ replace_first p f jobs.
Proof.
  induction jobs as [|m jobs IH]; [done|]. cbn [List.find replace_first]. destruct (p m); [intros [= ->]; by left|].
  intros H. right. by apply IH.
Qed.

Section Invariant.
Context (utc_offset : Z).

Lemma find_has_name name jobs : List.find (has_name name) jobs = None -> name ∉ omap node_name jobs.
Proof.
  induction jobs as [|n jobs IH]; intros H; [apply not_elem_of_nil|]. cbn [List.find] in H.
  destruct (has_name name n) eqn:E; [done|]. change (omap node_name (n :: jobs)) with
    (match node_name n with Some m => m :: omap node_name jobs | None => omap node_name jobs end).
  unfold has_name in E. unfold node_name at 1. destruct (cj_name (jn_job n)) as [m|]; [|by apply IH].
  apply not_elem_of_cons. split; [|by apply IH]. intros ->. unfold str_eq in E. by rewrite bool_decide_true in E.
Qed.

Lemma service_ok_push s j : service_ok s -> is_Some (cj_id j) ->
  (forall name, cj_name j = Some name -> name ∉ omap node_name (cs_jobs s)) -> service_ok (push_job s j).
Proof.
  intros [H1 H2 H3 H4] Hid Hname. split; cbn [push_job cs_jobs cs_next_addr].
  - rewrite fmap_cons. constructor; [|done]. cbn. intros (n & E & Hn)%list_elem_of_fmap.
    rewrite Forall_forall in H2. specialize (H2 n Hn). lia.
  - constructor; [cbn; lia|]. eapply Forall_impl; [exact H2|]. cbn. lia.
  - by constructor.
  - change (NoDup (match cj_name j with Some m => m :: omap node_name (cs_jobs s) | None => omap node_name (cs_jobs s) end)).
    destruct (cj_name j) as [m|]; [constructor; [by apply Hname|done]|done].
Qed.

(** *** A round keeps the invariant, whatever happens during its callbacks *)

Lemma sublist_from_addr a jobs : sublist (from_addr a jobs) jobs.
Proof. induction jobs as [|n jobs IH]; [done|]. cbn [from_addr]. destruct (is_addr a n); [done|by apply sublist_cons]. Qed.

Lemma sublist_tail {A} (l : list A) : sublist (tail l) l.
Proof. destruct l; [done|by apply sublist_cons]. Qed.

Lemma sublist_cut_after p a jobs : forall jobs', cut_after p a jobs = Some jobs' -> sublist jobs' jobs.
Proof.
  induction jobs as [|n jobs IH]; intros jobs'; [done|]. cbn [cut_after]. destruct (is_addr p n).
  - pose proof (sublist_from_addr a jobs) as Hs. destruct (from_addr a jobs) as [|x suffix]; [done|]. intros [= <-].
    apply sublist_skip. etransitivity; [|exact Hs]. by apply sublist_cons.
  - destruct (cut_after p a jobs) as [l|] eqn:E; [|done]. intros [= <-]. by apply sublist_skip, IH.
Qed.

(** The callback, and the threads that change the table while it runs, keep
    the invariant. *)
Definition keeps_ok (bound : nat) (callback : CronJob -> list JobNode -> list JobNode) : Prop :=
  forall j jobs, jobs_ok bound jobs -> jobs_ok bound (callback j jobs).

Lemma jobs_ok_scan bound callback now fuel : keeps_ok bound callback -> forall jobs current prev modified calls jobs' m c,
  jobs_ok bound jobs -> cron_scan utc_offset callback fuel now jobs current prev modified calls = ScanDone jobs' m c -> jobs_ok bound jobs'.
Proof.
  intros Hcb. induction fuel as [|fuel IH]; intros jobs current prev modified calls jobs' m c Hok; [done|]. cbn [cron_scan].
  destruct current as [a|]; [|by intros [= <- _ _]]. destruct (from_addr a jobs) as [|node rest]; [done|].
  destruct (due now (jn_job node)); [|by apply IH]. cbn zeta. apply (Hcb (copy_job (jn_job node))) in Hok.
  set (jobs1 := callback _ jobs) in *. clearbody jobs1.
  destruct (id ← _; _) as [found|]; [|by apply IH].
  assert (forall l, sublist l jobs1 -> jobs_ok bound l) as Hsub by (intros l Hl; by eapply jobs_ok_sublist).
  assert (forall cut, match prev with
    | Some p => match cut_after p (jn_addr found) jobs1 with
                | None => ScanCorrupt
                | Some jobs2 => cron_scan utc_offset callback fuel now jobs2 (next_addr p jobs2) prev true cut
                end
    | None => cron_scan utc_offset callback fuel now (tail (from_addr (jn_addr found) jobs1))
                (head_addr (tail (from_addr (jn_addr found) jobs1))) None true cut
    end = ScanDone jobs' m c -> jobs_ok bound jobs') as Hcut.
  { intros cut. destruct prev as [p|].
    - destruct (cut_after p (jn_addr found) jobs1) as [jobs2|] eqn:E; [|done]. apply IH, Hsub. by eapply sublist_cut_after.
    - apply IH, Hsub. etransitivity; [apply sublist_tail|apply sublist_from_addr]. }
  destruct (cron_schedule_next_run utc_offset (cj_schedule (jn_job found)) now) as [[] [t|]]; try apply Hcut.
  apply IH. by apply jobs_ok_replace.
Qed.

Inductive cron_step (utc_offset : Z) : CronService -> CronService -> Prop :=
  | cron_add now rnd fs s job : cron_step utc_offset s (snd (fst (cron_service_add_job utc_offset now rnd fs s job)))
  | cron_remove fs s id : cron_step utc_offset s (snd (fst (cron_service_remove_job fs s id)))
  | cron_start ok s : cron_step utc_offset s (fst (cron_service_start ok s))
  | cron_stop on_worker s : cron_step utc_offset s (fst (cron_service_stop on_worker s))
  | cron_worker fuel fs now s fs' s' calls callback bound : cs_next_addr s <= bound -> keeps_ok bound callback ->
      cron_round utc_offset callback fuel now fs s = Some (fs', s', calls) ->
      cron_step utc_offset s (mkCron (cs_store_path s') (cs_running s') (cs_jobs s') bound).

Lemma replace_first_found p f jobs n : List.find p jobs = Some n ->
  replace_first p (fun _ => f (jn_job n)) jobs = replace_first p f jobs.
Proof.
  induction jobs as [|m jobs IH]; [done|]. cbn [List.find replace_first]. destruct (p m); [by intros [= ->]|].
  intros H. by rewrite IH.
Qed.

Lemma service_ok_add now rnd fs s job : service_ok s ->
  service_ok (snd (fst (cron_service_add_job utc_offset now rnd fs s job))).
Proof.
  intros Hok. unfold cron_service_add_job.
  assert ((forall name, cj_name job = Some name -> name ∉ omap node_name (cs_jobs s)) ->
    service_ok (snd (fst (insert_job utc_offset now rnd fs s job)))) as Hfresh.
  { intros Hname. unfold insert_job. cbv zeta.
    destruct (cron_schedule_next_run utc_offset (cj_schedule (copy_job job)) now) as [[] next]; cbn [fst snd]; [done| |];
      (apply service_ok_push; [done|by eexists|]; exact Hname). }
  destruct (cj_name job) as [name|] eqn:En; [|by apply Hfresh].
  destruct (List.find (has_name name) (cs_jobs s)) as [n|] eqn:Ef.
  2:{ apply Hfresh. intros m [= <-]. by apply find_has_name. }
  destruct (update_job utc_offset now (jn_job n) job) as [job' ty] eqn:Eu.
  assert (service_ok (with_jobs s (replace_first (has_name name) (fun _ => job') (cs_jobs s)))) as Hr.
  { assert (job' = fst (update_job utc_offset now (jn_job n) job)) as -> by (by rewrite Eu).
    rewrite (replace_first_found _ (fun old => fst (update_job utc_offset now old job)) _ _ Ef).
    apply (jobs_ok_replace (cs_next_addr s)); [|done]. intros m. unfold update_job.
    by destruct (cron_schedule_next_run utc_offset (cj_schedule job) now). }
  by destruct ty.
Qed.

Lemma omap_process_ids now jobs : exists kept, sublist kept jobs /\
  jn_addr <$> omap (process utc_offset now) jobs = jn_addr <$> kept /\
  node_id <$> omap (process utc_offset now) jobs = node_id <$> kept /\
  node_name <$> omap (process utc_offset now) jobs = node_name <$> kept.
Proof.
  induction jobs as [|n jobs (kept & Hsub & Ha & Hi & Hn)]; [by exists []|].
  change (omap (process utc_offset now) (n :: jobs)) with
    (match process utc_offset now n with Some x => x :: omap (process utc_offset now) jobs | None => omap (process utc_offset now) jobs end).
  destruct (process utc_offset now n) as [x|] eqn:E.
  - exists (n :: kept). split; [by apply sublist_skip|]. rewrite !fmap_cons, Ha, Hi, Hn.
    assert (jn_addr x = jn_addr n /\ node_id x = node_id n /\ node_name x = node_name n) as (-> & -> & ->); [|done].
    unfold process in E. destruct (due now (jn_job n)); [|by injection E as <-].
    destruct (cron_schedule_next_run utc_offset (cj_schedule (jn_job n)) now) as [[] [t|]]; try done. by injection E as <-.
  - exists kept. split; [by apply sublist_cons|done].
Qed.

(** A service created on a file: its nodes are new. *)
Lemma load_items_fresh items : forall s, NoDup (jn_addr <$> cs_jobs s) -> Forall (fun n => jn_addr n < cs_next_addr s) (cs_jobs s) ->
  let s' := fold_left (fun s item => push_job s (job_of_json item)) items s in
  NoDup (jn_addr <$> cs_jobs s') /\ Forall (fun n => jn_addr n < cs_next_addr s') (cs_jobs s').
Proof.
  induction items as [|item items IH]; intros s H1 H2; [done|]. cbn [fold_left]. apply IH; cbn [push_job cs_jobs cs_next_addr].
  - rewrite fmap_cons. constructor; [|done]. cbn. intros (n & E & Hn)%list_elem_of_fmap. rewrite Forall_forall in H2. specialize (H2 n Hn). lia.
  - constructor; [cbn; lia|]. eapply Forall_impl; [exact H2|]. cbn. lia.
Qed.

Lemma created_fresh fs path : let s := cron_service_create fs path in
  NoDup (jn_addr <$> cs_jobs s) /\ Forall (fun n => jn_addr n < cs_next_addr s) (cs_jobs s).
Proof.
  assert (NoDup (jn_addr <$> []) /\ Forall (fun n => jn_addr n < 0) []) as H0 by (split; constructor).
  unfold cron_service_create, load_jobs. cbn [cs_store_path]. destruct (fs_read fs path) as [[|c t]|]; [exact H0| |exact H0].
  destruct (cJSON_Parse _) as [root|]; [|exact H0]. destruct (is_array _) as [items|]; [|exact H0].
  apply load_items_fresh; constructor.
Qed.


(** A refused update is half done: adding a job with the name of an
    existing one and an invalid schedule answers NULL and leaves the file
    alone, but the job in the table has lost its schedule, and the next round
    that finds it due removes it. *)
Theorem cron_failed_update_breaks_job now rnd fs s job name n :
  cj_name job = Some name -> List.find (has_name name) (cs_jobs s) = Some n ->
  cron_schedule_next_run utc_offset (cj_schedule job) now = (CRON_SCHEDULE_INVALID, None) ->
  exists s' n', cron_service_add_job utc_offset now rnd fs s job = (fs, s', AddNull) /\
    n' ∈ cs_jobs s' /\ node_id n' = node_id n /\ cj_next_run (jn_job n') = cj_next_run (jn_job n) /\
    cj_schedule (jn_job n') = cj_schedule job /\
    forall later, due later (jn_job n') = true ->
      fst (cron_schedule_next_run utc_offset (cj_schedule job) later) = CRON_SCHEDULE_INVALID ->
      process utc_offset later n' = None.
Proof.
  intros Hname Hf Hinv. unfold cron_service_add_job. rewrite Hname, Hf. unfold update_job. rewrite Hinv.
  eexists _, (mkNode (jn_addr n) _). split; [reflexivity|]. cbn [with_jobs cs_jobs].
  split.
  { exact (replace_first_in _ (fun _ => _) _ _ Hf). }
  cbn [jn_job node_id cj_id cj_next_run cj_schedule default from_option id]. split_and!; [done..|].
  intros later Hdue Hlater. unfold process. cbn [jn_job cj_schedule]. rewrite Hdue.
  destruct (cron_schedule_next_run utc_offset (cj_schedule job) later) as [ty next]. cbn in Hlater. by subst ty.
Qed.
End Invariant.

(** ** Witnesses *)

Definition demo_job (id name schedule : cstr) (next : Z) : CronJob :=
  mkJob (Some id) (Some name) (Some $"drink") (Some $"cli") (Some $"me") true next (Some schedule) 0 0 0.
Definition demo_jobs : list JobNode :=
  [mkNode 2 (demo_job $"c" $"once" $"@in 5" 90); mkNode 1 (demo_job $"b" $"often" $"@every 60" 100);
   mkNode 0 (demo_job $"a" $"later" $"@at 500" 500)].
Definition demo_fs : Fs := mkFs ∅ (fun _ => true) (fun _ _ => true).

Lemma demo_jobs_ok : table_ok demo_jobs.
Proof. split; [apply (bool_decide_unpack _); by vm_compute|apply (bool_decide_unpack _); by vm_compute|by repeat constructor; eexists]. Qed.

Lemma cron_scan_complete_witness :
  cron_scan 0 (fun _ js => js) (S (length demo_jobs)) 100 demo_jobs (head_addr demo_jobs) None false [] =
    ScanDone [mkNode 1 (reschedule (demo_job $"b" $"often" $"@every 60" 100) 160); mkNode 0 (demo_job $"a" $"later" $"@at 500" 500)]
      true [copy_job (demo_job $"c" $"once" $"@in 5" 90); copy_job (demo_job $"b" $"often" $"@every 60" 100)].
Proof. exact (cron_scan_complete 0 100 demo_jobs demo_jobs_ok). Defined.

Lemma cron_idless_job_livelock_witness :
  let n := mkNode 0 (mkJob None None None None None false 5 None 0 0 0) in
  cron_scan 0 (fun _ js => js) 1000 100 [n] (head_addr [n]) None false [] = ScanNoFuel.
Proof.
  apply (cron_idless_job_livelock 0 100 [] (mkNode 0 (mkJob None None None None None false 5 None 0 0 0)) [] 1000);
    [apply (bool_decide_unpack _); by vm_compute|constructor|done|done].
Defined.

Lemma cron_scan_loses_added_job_witness :
  let n := mkNode 0 (demo_job $"a" $"once" $"@in 5" 90) in let new := mkNode 1 (demo_job $"b" $"next" $"@in 9" 200) in
  cron_scan 0 (fun _ js => new :: js) 2 100 [n] (head_addr [n]) None false [] = ScanDone [] true [copy_job (jn_job n)].
Proof.
  apply (cron_scan_loses_added_job 0 100 (mkNode 0 (demo_job $"a" $"once" $"@in 5" 90)) (mkNode 1 (demo_job $"b" $"next" $"@in 9" 200)));
    [by eexists|done|done|done|done].
Defined.

Lemma wait_sec_correct_witness :
  (0 <= wait_sec 80 demo_jobs <= 60)%Z /\
  Forall (fun n => (0 < cj_next_run (jn_job n))%Z ->
    (80 + wait_sec 80 demo_jobs <= Z.max 80 (cj_next_run (jn_job n)))%Z /\
    (due 80 (jn_job n) = true -> wait_sec 80 demo_jobs = 0%Z)) demo_jobs.
Proof. apply (wait_sec_correct 80 demo_jobs). lia. Defined.

Lemma cron_save_load_witness :
  jn_job <$> cs_jobs (cron_service_create (save_jobs demo_fs $"jobs.json" demo_jobs) $"jobs.json") =
    [demo_job $"a" $"later" $"@at 500" 500; demo_job $"b" $"often" $"@every 60" 100; demo_job $"c" $"once" $"@in 5" 90].
Proof. apply (cron_save_load demo_fs $"jobs.json" demo_jobs); [done|by repeat constructor]. Defined.

Definition demo_service : CronService :=
  snd (fst (cron_service_add_job 0 85 7 demo_fs (mkCron $"jobs.json" false [] 0) (demo_job $"c" $"once" $"@in 5" 0))).


Lemma cron_failed_update_breaks_job_witness :
  exists s' n', cron_service_add_job 0 86 7 demo_fs demo_service (demo_job $"d" $"once" $"tomorrow" 0) = (demo_fs, s', AddNull) /\
    n' ∈ cs_jobs s' /\ node_id n' = Some $"c" /\ cj_next_run (jn_job n') = 90%Z /\ cj_schedule (jn_job n') = Some $"tomorrow" /\
    forall later, due later (jn_job n') = true ->
      fst (cron_schedule_next_run 0 (Some $"tomorrow") later) = CRON_SCHEDULE_INVALID -> process 0 later n' = None.
Proof.
  apply (cron_failed_update_breaks_job 0 86 7 demo_fs demo_service (demo_job $"d" $"once" $"tomorrow" 0) $"once"
    (mkNode 0 (mkJob (Some $"c") (Some $"once") (Some $"drink") (Some $"cli") (Some $"me") true 90 (Some $"@in 5") 0 3 0)));
    by vm_compute.
Defined.
