(* ===== verification/CronRounds.v ===== *)
(** The worker of [src/cron/cron.c] over many rounds, with the callback that
    [src/main.c] gives it: what becomes of one job. *)
From S2P Require Import Prelude CStr Json Common Message Fs CronSchedule Cron.

(** [cron_callback] of main.c: the message it puts on the inbound queue. *)
Definition cron_callback (job : CronJob) : InboundMessage :=
  let msg := inbound_message_new (Some (default $"cli" (cj_channel job))) (Some (default $"local_user" (cj_to job)))
    (Some (default $"Cron trigger" (cj_payload_message job))) None in
  mkInbound (in_channel msg) (in_chat_id msg) (in_content msg) (in_sender_name msg) (in_attachments msg) true.

Section Rounds.
Context (utc_offset : Z).

(** What happens to the service over time: rounds of the worker, and jobs that
    the tools add and remove between them. *)
Inductive store_op :=
  | OpRound (now : Z)
  | OpAdd (now rnd : Z) (job : CronJob)
  | OpRemove (job_id : cstr).

(** One operation, and the jobs it calls back. *)
Definition store_step (op : store_op) (fs : Fs) (s : CronService) : option (Fs * CronService * list CronJob) :=
  match op with
  | OpRound now => cron_round utc_offset (fun _ js => js) (S (length (cs_jobs s))) now fs s
  | OpAdd now rnd job => Some (fst (cron_service_add_job utc_offset now rnd fs s job), [])
  | OpRemove job_id => Some (fst (cron_service_remove_job fs s job_id), [])
  end.

Fixpoint cron_history (ops : list store_op) (fs : Fs) (s : CronService) : option (Fs * CronService * list CronJob) :=
  match ops with
  | [] => Some (fs, s, [])
  | op :: r =>
      match store_step op fs s with
      | None => None
      | Some (fs1, s1, calls1) =>
          match cron_history r fs1 s1 with
          | None => None
          | Some (fs2, s2, calls2) => Some (fs2, s2, calls1 ++ calls2)
          end
      end
  end.

(** The times of the rounds. *)
Definition round_times (ops : list store_op) : list Z := omap (fun op => match op with OpRound now => Some now | _ => None end) ops.

(** The operation does not concern the job of that id and name: what is added
    has another name and an id that is not in the table, nor the id itself;
    what is removed has another id. *)
Definition leaves_alone (id : cstr) (name : option cstr) (s : CronService) (op : store_op) : Prop :=
  match op with
  | OpRound _ => True
  | OpAdd now rnd job =>
      let new := default (generated_id now rnd) (cj_id job) in
      new <> id /\ (Some new ∉ (node_id <$> cs_jobs s)) /\ (is_Some (cj_name job) -> cj_name job <> name)
  | OpRemove job_id => job_id <> id
  end.

Fixpoint undisturbed (id : cstr) (name : option cstr) (ops : list store_op) (fs : Fs) (s : CronService) : Prop :=
  match ops with
  | [] => True
  | op :: r => leaves_alone id name s op /\ match store_step op fs s with Some (fs1, s1, _) => undisturbed id name r fs1 s1 | None => True end
  end.

#[export] Instance leaves_alone_dec id name s op : Decision (leaves_alone id name s op).
Proof. destruct op; cbn [leaves_alone]; apply _. Defined.

#[export] Instance undisturbed_dec id name ops : forall fs s, Decision (undisturbed id name ops fs s).
Proof.
  induction ops as [|op ops IH]; intros fs s; cbn [undisturbed]; [apply _|]. apply and_dec; [apply _|].
  destruct (store_step op fs s) as [[[fs1 s1] c]|]; apply _.
Defined.

(** The calls for the job of that id. *)
Definition for_id (id : cstr) (j : CronJob) : bool := match cj_id j with Some i => str_eq i id | None => false end.
Definition calls_of (id : cstr) (calls : list CronJob) : list CronJob := List.filter (for_id id) calls.

(** A job that runs once: whenever it is looked at, its schedule is one-time. *)
Definition one_time (j : CronJob) : Prop := forall now, fst (cron_schedule_next_run utc_offset (cj_schedule j) now) = CRON_SCHEDULE_ONE_TIME.

Lemma table_ok_process now jobs : table_ok jobs -> table_ok (omap (process utc_offset now) jobs).
Proof.
  intros [H1 H2 H3]. destruct (omap_process_ids utc_offset now jobs) as (kept & Hsub & Ha & Hi & _). split.
  - rewrite Ha. eapply sublist_NoDup; [exact H1|]. by apply fmap_sublist.
  - rewrite Hi. eapply sublist_NoDup; [exact H2|]. by apply fmap_sublist.
  - eapply (Forall_proj node_id is_Some); [exact Hi|]. by eapply sublist_Forall.
Qed.

Lemma cron_round_spec now fs s : table_ok (cs_jobs s) ->
  exists fs', cron_round utc_offset (fun _ js => js) (S (length (cs_jobs s))) now fs s =
    Some (fs', with_jobs s (omap (process utc_offset now) (cs_jobs s)), (fun n => copy_job (jn_job n)) <$> due_nodes now (cs_jobs s)).
Proof. intros Hok. unfold cron_round. rewrite cron_scan_complete by done. by eexists. Qed.

Lemma calls_of_absent id now (jobs : list JobNode) : Some id ∉ (node_id <$> jobs) ->
  calls_of id ((fun n => copy_job (jn_job n)) <$> due_nodes now jobs) = [].
Proof.
  induction jobs as [|n jobs IH]; [done|]. rewrite fmap_cons. intros [Hn Hj]%not_elem_of_cons. specialize (IH Hj).
  cbn [due_nodes List.filter]. fold (due_nodes now jobs). destruct (due now (jn_job n)); [|done].
  rewrite fmap_cons. cbn [calls_of List.filter]. unfold for_id at 1. cbn [copy_job cj_id]. unfold node_id in Hn.
  destruct (cj_id (jn_job n)) as [i|]; [|done]. unfold str_eq. rewrite bool_decide_false; [done|]. congruence.
Qed.

Lemma calls_of_present id now (jobs : list JobNode) n : table_ok jobs -> n ∈ jobs -> node_id n = Some id ->
  calls_of id ((fun n => copy_job (jn_job n)) <$> due_nodes now jobs) = if due now (jn_job n) then [copy_job (jn_job n)] else [].
Proof.
  intros [_ Hids _] Hn Hid. apply list_elem_of_split in Hn as (l & r & ->).
  rewrite fmap_app, fmap_cons, Hid in Hids. apply NoDup_app in Hids as (_ & Hl & Hr). apply NoDup_cons in Hr as [Hr _].
  assert (Some id ∉ (node_id <$> l)) as Hl' by (intros H; apply (Hl _ H); by left).
  pose proof (calls_of_absent id now l Hl') as E1. pose proof (calls_of_absent id now r Hr) as E2.
  unfold due_nodes, calls_of in *. rewrite List.filter_app, fmap_app, List.filter_app, E1. cbn [List.filter app].
  destruct (due now (jn_job n)); [|done]. rewrite fmap_cons. cbn [List.filter]. rewrite E2. unfold for_id. cbn [copy_job cj_id].
  unfold node_id in Hid. rewrite Hid. unfold str_eq. by rewrite bool_decide_true.
Qed.

Lemma process_absent (id : cstr) now (jobs : list JobNode) : Some id ∉ (node_id <$> jobs) -> Some id ∉ (node_id <$> omap (process utc_offset now) jobs).
Proof.
  destruct (omap_process_ids utc_offset now jobs) as (kept & Hsub & _ & Hi & _). rewrite Hi. intros H Hin. apply H.
  eapply (elem_of_submseteq _ _ _ Hin). apply sublist_submseteq. by apply fmap_sublist.
Qed.

(** A one-time job stays as it is until it is due, and is gone then. *)
Lemma process_one_time (id : cstr) now (jobs : list JobNode) n : table_ok jobs -> n ∈ jobs -> node_id n = Some id -> one_time (jn_job n) ->
  if due now (jn_job n) then Some id ∉ (node_id <$> omap (process utc_offset now) jobs) else n ∈ omap (process utc_offset now) jobs.
Proof.
  intros [_ Hids _] Hn Hid Hone. destruct (due now (jn_job n)) eqn:Ed.
  - apply list_elem_of_split in Hn as (l & r & ->).
    assert (process utc_offset now n = None) as Hp.
    { unfold process. rewrite Ed. specialize (Hone now). destruct (cron_schedule_next_run _ _ _) as [ty nx]. cbn in Hone. by subst. }
    rewrite fmap_app, fmap_cons, Hid in Hids. apply NoDup_app in Hids as (_ & Hl & Hr). apply NoDup_cons in Hr as [Hr _].
    rewrite omap_app. change (omap (process utc_offset now) (n :: r)) with
      (match process utc_offset now n with Some x => x :: omap (process utc_offset now) r | None => omap (process utc_offset now) r end).
    rewrite Hp, fmap_app. intros [H|H]%elem_of_app; revert H.
    + apply process_absent. intros H. apply (Hl _ H). by left.
    + by apply process_absent.
  - apply list_elem_of_omap. exists n. split; [done|]. unfold process. by rewrite Ed.
Qed.

(** What every step keeps: the table, and addresses that are not reused. *)
Definition store_ok (s : CronService) : Prop := table_ok (cs_jobs s) /\ Forall (fun n => jn_addr n < cs_next_addr s) (cs_jobs s).

Lemma store_ok_process now s : store_ok s -> store_ok (with_jobs s (omap (process utc_offset now) (cs_jobs s))).
Proof.
  intros [H1 H2]. split; [by apply table_ok_process|]. cbn [with_jobs cs_jobs cs_next_addr].
  destruct (omap_process_ids utc_offset now (cs_jobs s)) as (kept & Hsub & Ha & _).
  eapply (Forall_proj jn_addr (fun a => a < cs_next_addr s)); [exact Ha|]. by eapply sublist_Forall.
Qed.

Lemma store_ok_push s j i : store_ok s -> cj_id j = Some i -> Some i ∉ (node_id <$> cs_jobs s) -> store_ok (push_job s j).
Proof.
  intros [[Ha Hi Hs] Hf] Hj Hnew. rewrite Forall_forall in Hf. split; [split|]; cbn [push_job cs_jobs cs_next_addr]; rewrite ?fmap_cons.
  - constructor; [|done]. cbn. intros (m & E & Hm)%list_elem_of_fmap. specialize (Hf m Hm). lia.
  - unfold node_id at 1. cbn [jn_job]. rewrite Hj. by constructor.
  - constructor; [|done]. unfold node_id. cbn [jn_job]. by rewrite Hj.
  - constructor; [cbn; lia|]. apply Forall_forall. intros m Hm. specialize (Hf m Hm). cbn. lia.
Qed.

(** Replacing and removing other jobs. *)
Lemma replace_first_other p f jobs n : n ∈ jobs -> p n = false -> n ∈ replace_first p f jobs.
Proof.
  intros Hn Hp. induction jobs as [|m jobs IH]; [done|]. cbn [replace_first]. apply elem_of_cons in Hn as [<-|Hn].
  - rewrite Hp. by left.
  - destruct (p m); [by right|]. right. by apply IH.
Qed.

Lemma remove_first_other p jobs n : n ∈ jobs -> p n = false -> n ∈ remove_first_node p jobs.
Proof.
  intros Hn Hp. induction jobs as [|m jobs IH]; [done|]. cbn [remove_first_node]. apply elem_of_cons in Hn as [<-|Hn].
  - rewrite Hp. by left.
  - destruct (p m); [done|]. right. by apply IH.
Qed.

Lemma update_job_id now old job : cj_id (fst (update_job utc_offset now old job)) = cj_id old.
Proof. unfold update_job. by destruct (cron_schedule_next_run _ _ _). Qed.

(** Adding and removing other jobs: no calls, the table is kept, and so are
    the nodes of other names and ids, and no id but the new one comes in. *)
Lemma add_step now rnd fs s job id name : store_ok s -> leaves_alone id name s (OpAdd now rnd job) ->
  exists fs' s', store_step (OpAdd now rnd job) fs s = Some (fs', s', []) /\ store_ok s' /\
    (forall n, n ∈ cs_jobs s -> cj_name (jn_job n) = name -> n ∈ cs_jobs s') /\
    (Some id ∉ (node_id <$> cs_jobs s) -> Some id ∉ (node_id <$> cs_jobs s')).
Proof.
  intros Hok (Hne & Hnew & Hname). cbn [store_step].
  assert (let r := insert_job utc_offset now rnd fs s job in store_ok (snd (fst r)) /\ (forall n, n ∈ cs_jobs s -> n ∈ cs_jobs (snd (fst r))) /\
    (Some id ∉ (node_id <$> cs_jobs s) -> Some id ∉ (node_id <$> cs_jobs (snd (fst r))))) as Hins.
  { unfold insert_job. cbn zeta. destruct (cron_schedule_next_run _ _ now) as [[] next]; cbn [fst snd]; [by auto| |];
      (split; [by eapply store_ok_push|]; cbn [push_job cs_jobs]; split; [by right|]; intros Hid; rewrite fmap_cons; apply not_elem_of_cons; split; [|done];
       intros [= E]; by apply Hne). }
  unfold cron_service_add_job. destruct (cj_name job) as [nm|].
  2:{ destruct (insert_job _ _ _ _ _ _) as [[fs' s'] res]. cbn [fst snd] in *. exists fs', s'. naive_solver. }
  destruct (List.find (has_name nm) (cs_jobs s)) as [m|] eqn:Ef.
  2:{ destruct (insert_job _ _ _ _ _ _) as [[fs' s'] res]. cbn [fst snd] in *. exists fs', s'. naive_solver. }
  pose proof (update_job_id now (jn_job m) job) as Hid. destruct (update_job utc_offset now (jn_job m) job) as [job' ty]. cbn [fst] in Hid.
  pose proof (replace_first_found (has_name nm) (fun old => mkJob (cj_id old) (cj_name job')
    (cj_payload_message job') (cj_channel job') (cj_to job') (cj_deliver job') (cj_next_run job') (cj_schedule job') (cj_retry_count job')
    (cj_max_retries job') (cj_last_status job')) _ _ Ef) as Hm.
  cbv beta in Hm. rewrite <-Hid in Hm. destruct job' as [d1 d2 d3 d4 d5 d6 d7 d8 d9 d10 d11]. cbn [cj_id cj_name cj_payload_message cj_channel cj_to cj_deliver cj_next_run cj_schedule cj_retry_count cj_max_retries cj_last_status] in Hm.
  set (job' := mkJob d1 d2 d3 d4 d5 d6 d7 d8 d9 d10 d11) in *.
  set (jobs' := replace_first (has_name nm) (fun _ => job') (cs_jobs s)) in *.
  assert (store_ok (with_jobs s jobs') /\ (forall n, n ∈ cs_jobs s -> cj_name (jn_job n) = name -> n ∈ jobs') /\
    (Some id ∉ (node_id <$> cs_jobs s) -> Some id ∉ (node_id <$> jobs'))) as Hrep.
  { destruct Hok as [[H1 H2 H3] H4]. assert (node_id <$> jobs' = node_id <$> cs_jobs s) as Ei by (rewrite Hm; by apply replace_first_proj).
    assert (jn_addr <$> jobs' = jn_addr <$> cs_jobs s) as Ea by (rewrite Hm; by apply replace_first_proj).
    split_and!; [split; [split|]; cbn [with_jobs cs_jobs cs_next_addr]| |by rewrite Ei].
    - by rewrite Ea.
    - by rewrite Ei.
    - by eapply (Forall_proj node_id is_Some).
    - by eapply (Forall_proj jn_addr (fun a => a < cs_next_addr s)).
    - intros n Hn E. apply replace_first_other; [done|]. unfold has_name. destruct (cj_name (jn_job n)) as [x|]; [|done].
      unfold str_eq. apply bool_decide_false. intros ->. by apply Hname. }
  destruct ty; cbn [fst snd]; eexists _, _; (split; [done|]); exact Hrep.
Qed.

Lemma remove_step fs s i id name : store_ok s -> leaves_alone id name s (OpRemove i) ->
  exists fs' s', store_step (OpRemove i) fs s = Some (fs', s', []) /\ store_ok s' /\
    (forall n, n ∈ cs_jobs s -> node_id n = Some id -> n ∈ cs_jobs s') /\
    (Some id ∉ (node_id <$> cs_jobs s) -> Some id ∉ (node_id <$> cs_jobs s')).
Proof.
  intros [[H1 H2 H3] H4] Hi. cbn [leaves_alone] in Hi. cbn [store_step]. unfold cron_service_remove_job.
  destruct (existsb _ _); cbn [fst]; [|by eexists _, _].
  assert (sublist (remove_first_node (has_id i) (cs_jobs s)) (cs_jobs s)) as Hsub by apply sublist_remove_first.
  eexists _, _. split; [done|]. cbn [with_jobs cs_jobs]. split_and!; [split; [split|]; cbn [with_jobs cs_jobs cs_next_addr]| |].
  - eapply sublist_NoDup; [exact H1|]. by apply fmap_sublist.
  - eapply sublist_NoDup; [exact H2|]. by apply fmap_sublist.
  - by eapply sublist_Forall.
  - by eapply sublist_Forall.
  - intros n Hn E. apply remove_first_other; [done|]. unfold has_id. unfold node_id in E. rewrite E. unfold str_eq. apply bool_decide_false. congruence.
  - intros Hid Hin. apply Hid. eapply (elem_of_submseteq _ _ _ Hin). apply sublist_submseteq. by apply fmap_sublist.
Qed.

Lemma cron_history_absent id name ops : forall fs s, store_ok s -> Some id ∉ (node_id <$> cs_jobs s) -> undisturbed id name ops fs s ->
  exists fs' s' calls, cron_history ops fs s = Some (fs', s', calls) /\ calls_of id calls = [] /\ Some id ∉ (node_id <$> cs_jobs s').
Proof.
  induction ops as [|op ops IH]; intros fs s Hok Hid Hu; [by exists fs, s, []|]. cbn [cron_history undisturbed] in *. destruct Hu as [Hl Hu].
  assert (exists fs1 s1 c1, store_step op fs s = Some (fs1, s1, c1) /\ store_ok s1 /\ calls_of id c1 = [] /\ Some id ∉ (node_id <$> cs_jobs s1))
    as (fs1 & s1 & c1 & E & Hok1 & Hc1 & Hid1).
  { destruct op as [now|now rnd job|i].
    - destruct (cron_round_spec now fs s (proj1 Hok)) as (fs1 & E). eexists _, _, _. split; [exact E|].
      split_and!; [by apply store_ok_process|by apply calls_of_absent|by apply process_absent].
    - destruct (add_step now rnd fs s job id name Hok Hl) as (fs1 & s1 & E & H1 & _ & H2). exists fs1, s1, []. split_and!; [done..|by apply H2].
    - destruct (remove_step fs s i id name Hok Hl) as (fs1 & s1 & E & H1 & _ & H2). exists fs1, s1, []. split_and!; [done..|by apply H2]. }
  rewrite E in *. destruct (IH fs1 s1 Hok1 Hid1 Hu) as (fs2 & s2 & c2 & -> & Hc2 & Hs2).
  eexists _, _, _. split; [done|]. split; [|done]. unfold calls_of in *. by rewrite List.filter_app, Hc1, Hc2.
Qed.

(** A one-time job is called back once: whatever jobs are added and removed
    besides, it is called back in the first round of the worker in which it is
    due, with what it held, and then is gone; until then it stays in the
    table. *)
Theorem cron_one_time_once id n ops : forall fs s, store_ok s -> n ∈ cs_jobs s -> node_id n = Some id -> one_time (jn_job n) ->
  undisturbed id (cj_name (jn_job n)) ops fs s ->
  exists fs' s' calls, cron_history ops fs s = Some (fs', s', calls) /\
    if existsb (fun now => due now (jn_job n)) (round_times ops)
    then calls_of id calls = [copy_job (jn_job n)] /\ Some id ∉ (node_id <$> cs_jobs s')
    else calls_of id calls = [] /\ n ∈ cs_jobs s'.
Proof.
  induction ops as [|op ops IH]; intros fs s Hok Hn Hid Hone Hu; [by exists fs, s, []|]. cbn [cron_history undisturbed] in *. destruct Hu as [Hl Hu].
  destruct op as [now|now rnd job|i].
  - change (round_times (OpRound now :: ops)) with (now :: round_times ops). cbn [existsb]. cbn [store_step] in *.
    destruct (cron_round_spec now fs s (proj1 Hok)) as (fs1 & E). rewrite E in *.
    pose proof (process_one_time id now _ n (proj1 Hok) Hn Hid Hone) as Hp. pose proof (store_ok_process now _ Hok) as Hok'.
    pose proof (calls_of_present id now _ n (proj1 Hok) Hn Hid) as Hc. destruct (due now (jn_job n)); cbn [orb].
    + destruct (cron_history_absent id _ ops fs1 _ Hok' Hp Hu) as (fs2 & s2 & c2 & -> & Hc2 & Hs2).
      eexists _, _, _. split; [done|]. split; [|done]. unfold calls_of in *. by rewrite List.filter_app, Hc, Hc2.
    + destruct (IH fs1 _ Hok' Hp Hid Hone Hu) as (fs2 & s2 & c2 & -> & H).
      eexists _, _, _. split; [done|]. unfold calls_of in *. rewrite List.filter_app, Hc. done.
  - change (round_times (OpAdd now rnd job :: ops)) with (round_times ops).
    destruct (add_step now rnd fs s job id _ Hok Hl) as (fs1 & s1 & E & H1 & H2 & _). rewrite E in *.
    destruct (IH fs1 s1 H1 (H2 n Hn eq_refl) Hid Hone Hu) as (fs2 & s2 & c2 & -> & H). by eexists _, _, _.
  - change (round_times (OpRemove i :: ops)) with (round_times ops).
    destruct (remove_step fs s i id _ Hok Hl) as (fs1 & s1 & E & H1 & H2 & _). rewrite E in *.
    destruct (IH fs1 s1 H1 (H2 n Hn Hid) Hid Hone Hu) as (fs2 & s2 & c2 & -> & H). by eexists _, _, _.
Qed.
End Rounds.

(** Rounds, with a job added before the first and one removed between. *)
Definition demo_ops : list store_op :=
  [OpAdd 40 7 (mkJob None (Some $"other") None None None true 0 (Some $"@in 60") 0 0 0); OpRound 50; OpRemove $"b"; OpRound 95; OpRound 200]%Z.

Lemma cron_one_time_once_witness :
  exists fs' s' calls, cron_history 0 demo_ops demo_fs (mkCron $"jobs.json" true demo_jobs 3) = Some (fs', s', calls) /\
    calls_of $"c" calls = [copy_job (demo_job $"c" $"once" $"@in 5" 90)] /\ (Some $"c" ∉ (node_id <$> cs_jobs s')).
Proof.
  apply (cron_one_time_once 0 $"c" (mkNode 2 (demo_job $"c" $"once" $"@in 5" 90)) demo_ops demo_fs (mkCron $"jobs.json" true demo_jobs 3)).
  - split; [exact demo_jobs_ok|by repeat constructor].
  - by left.
  - done.
  - intros now. reflexivity.
  - apply (bool_decide_unpack _). by vm_compute.
Defined.
