(* ===== verification/Utils.v ===== *)
(** [src/common/utils.c]: text helpers of the runtime. A returned [NULL] is
    [None]; allocations succeed. *)
From S2P Require Import Prelude CStr Message.

(** [strip_think_tags]: removes the first think block and trims what is left. *)
Definition strip_think_tags (text : cstr) : option cstr :=
  match text with
  | [] => None
  | _ =>
      match strstr text $"<think>", strstr text $"</think>" with
      | Some think_start, Some think_end =>
          if Nat.ltb think_end think_start then Some text
          else
            let result := take think_start text ++ drop (think_end + length $"</think>") text in
            Some (drop_tail isspace (drop_while isspace result))
      | _, _ => Some text
      end
  end.

Definition str_trim_left (s : cstr) : cstr := drop_while isspace s.
Definition str_trim_copy (s : cstr) : cstr := drop_tail isspace (drop_while isspace s).

(** One entry of [format_tool_hint]: the first quoted text of the arguments,
    at most 40 bytes of it. *)
Definition tool_hint (tc : ToolCall) : cstr :=
  tc_name tc ++ $"(" ++
  (match strchr (tc_arguments tc) ch_quote with
   | Some quote_start =>
       let rest := drop (quote_start + 1) (tc_arguments tc) in
       match strchr rest ch_quote with
       | Some val_len =>
           let n := Nat.min val_len 40 in
           take n rest ++ (if Nat.leb 40 n then $"..." else [])
       | None => []
       end
   | None => []
   end) ++ $")".

Fixpoint tool_hints (first : bool) (tcs : list ToolCall) : cstr :=
  match tcs with
  | [] => []
  | tc :: r => (if first then [] else $", ") ++ tool_hint tc ++ tool_hints false r
  end.

Definition format_tool_hint (tcs : list ToolCall) : option cstr :=
  match tcs with [] => None | _ => Some (tool_hints true tcs) end.

(** The counting loop: ASCII bytes and the others. *)
Fixpoint count_bytes (s : cstr) : nat * nat :=
  match s with
  | [] => (0, 0)
  | c :: s' =>
      let '(a, n) := count_bytes s' in if (code c <? 128)%N then (S a, n) else (a, S n)
  end.

Definition estimate_tokens (text : cstr) : nat :=
  match text with
  | [] => 0
  | _ => let '(ascii_bytes, non_ascii_bytes) := count_bytes text in ascii_bytes / 4 + non_ascii_bytes / 2
  end.

Definition estimate_message_tokens (role content : option cstr) (tool_calls_count : Z) : nat :=
  (match role with Some r => estimate_tokens r + 2 | None => 0 end) +
  (match content with Some c => estimate_tokens c | None => 0 end) +
  (if (0 <? tool_calls_count)%Z then Z.to_nat (tool_calls_count * 5) else 0).

Definition is_placeholder_value (s : option cstr) : bool :=
  match s with
  | None | Some [] => true
  | Some s =>
      str_eq s $"current" || str_eq s $"chat" || str_eq s $"user" || str_eq s $"assistant" ||
      starts_with $"_user_" s || starts_with $"_assistant_" s
  end.

(** The entity [escape_xml] writes for a byte, and the bytes the counting pass
    reserves for it. *)
Definition xml_entity (c : ascii) : cstr :=
  if bool_decide (c = "&"%char) then $"&amp;"
  else if bool_decide (c = "<"%char) then $"&lt;"
  else if bool_decide (c = ">"%char) then $"&gt;"
  else if bool_decide (c = ch_quote) then $"&quot;"
  else if bool_decide (c = "'"%char) then $"&apos;"
  else [c].

Definition xml_reserved (c : ascii) : nat :=
  if bool_decide (c = "&"%char) then 5
  else if bool_decide (c = "<"%char) then 4
  else if bool_decide (c = ">"%char) then 4
  else if bool_decide (c = ch_quote) then 6
  else if bool_decide (c = "'"%char) then 6
  else 1.

(** The size allocated, with the terminator, and the text written into it. *)
Definition escape_xml_size (s : cstr) : nat := sum_list_with xml_reserved s + 1.
Definition escape_xml (s : option cstr) : cstr :=
  match s with None => [] | Some s => s ≫= xml_entity end.

Definition generate_id (prefix : option cstr) (sec : Z) (rand_val : N) : cstr :=
  truncate_to 64 (match prefix with
                  | Some p => p ++ $"_" ++ fmt_d sec ++ $"_" ++ fmt_x (rand_val mod 65535)
                  | None => $"id_" ++ fmt_d sec ++ $"_" ++ fmt_x (rand_val mod 65535)
                  end).

(** [ensure_directory]: the arguments of the calls of [mkdir], in order. *)
Fixpoint slash_prefixes (before s : cstr) : list cstr :=
  match s with
  | [] => []
  | c :: s' => (if bool_decide (c = "/"%char) then [before] else []) ++ slash_prefixes (before ++ [c]) s'
  end.

Definition ensure_directory (path : cstr) : list cstr :=
  let tmp := truncate_to 512 path in
  let tmp := match last tmp with
             | Some c => if bool_decide (c = "/"%char) then take (length tmp - 1) tmp else tmp
             | None => tmp end in
  match strrchr tmp "/"%char with
  | None => []
  | Some last_slash =>
      let dir := take last_slash tmp in
      slash_prefixes (take 1 dir) (drop 1 dir) ++ [dir]
  end.

(** ** Facts *)

Definition xml_special (c : ascii) : bool :=
  bool_decide (c = "<"%char) || bool_decide (c = ">"%char) || bool_decide (c = ch_quote) ||
  bool_decide (c = "'"%char).

(** Reads one entity or one plain byte. *)
Definition xml_read (s : cstr) : option (ascii * cstr) :=
  if starts_with $"&amp;" s then Some ("&"%char, drop 5 s)
  else if starts_with $"&lt;" s then Some ("<"%char, drop 4 s)
  else if starts_with $"&gt;" s then Some (">"%char, drop 4 s)
  else if starts_with $"&quot;" s then Some (ch_quote, drop 6 s)
  else if starts_with $"&apos;" s then Some ("'"%char, drop 6 s)
  else match s with c :: r => Some (c, r) | [] => None end.

Fixpoint xml_decode (fuel : nat) (s : cstr) : cstr :=
  match fuel with
  | 0 => []
  | S f => match xml_read s with Some (c, r) => c :: xml_decode f r | None => [] end
  end.

Lemma xml_entity_length c : length (xml_entity c) = xml_reserved c.
Proof. unfold xml_entity, xml_reserved. by repeat case_bool_decide. Qed.

Lemma xml_read_entity c r : xml_read (xml_entity c ++ r) = Some (c, r).
Proof.
  destruct c as [[] [] [] [] [] [] [] []];
    match goal with |- context [xml_entity ?x] =>
      let e := eval vm_compute in (xml_entity x) in change (xml_entity x) with e end; done.
Qed.

(** Escaping for XML never overruns the buffer the first pass sized,
    leaves no raw angle bracket or quote, and is undone by decoding the five
    entities. *)
Theorem escape_xml_correct s fuel : length s <= fuel ->
  length (escape_xml (Some s)) + 1 = escape_xml_size s /\
  Forall (fun c => xml_special c = false) (escape_xml (Some s)) /\
  xml_decode fuel (escape_xml (Some s)) = s.
Proof.
  unfold escape_xml, escape_xml_size. intros Hf. split_and!.
  - f_equal. induction s as [|c s IH]; [done|]. cbn [mbind list_bind sum_list_with].
    rewrite length_app, xml_entity_length. f_equal. apply IH. cbn in Hf. lia.
  - clear Hf. induction s as [|c s IH]; [constructor|]. rewrite bind_cons. apply Forall_app. split; [|done].
    destruct c as [[] [] [] [] [] [] [] []]; by repeat constructor.
  - revert fuel Hf. induction s as [|c s IH]; intros fuel Hf; [by destruct fuel|].
    destruct fuel as [|fuel]; cbn in Hf; [lia|]. rewrite bind_cons. cbn [xml_decode].
    rewrite xml_read_entity. f_equal. apply IH. lia.
Qed.

Lemma escape_xml_correct_witness :
  length (escape_xml (Some $"a<b")) + 1 = escape_xml_size $"a<b" /\
  Forall (fun c => xml_special c = false) (escape_xml (Some $"a<b")) /\
  xml_decode 3 (escape_xml (Some $"a<b")) = $"a<b".
Proof. apply (escape_xml_correct $"a<b" 3). apply Nat.leb_le. by vm_compute. Defined.

(** A string trimmed on both sides. *)
Definition trimmed (s : cstr) : Prop :=
  (forall c r, s = c :: r -> isspace c = false) /\ (forall c r, s = r ++ [c] -> isspace c = false).

Lemma trim_trimmed s : trimmed (drop_tail isspace (drop_while isspace s)).
Proof.
  set (t := drop_while isspace s). split.
  - intros c r H. destruct (drop_tail_prefix isspace t) as (l & Hl & _). rewrite H in Hl. cbn in Hl.
    by eapply drop_while_head.
  - intros c r H. by eapply drop_tail_last.
Qed.

(** Stripping removes exactly the text between the first opening tag and
    the first closing tag, and nothing but white space from both ends of the
    rest; without a well-placed pair of tags the text is unchanged. *)
Theorem strip_think_tags_correct pre think post :
  strstr (pre ++ $"<think>" ++ think ++ $"</think>" ++ post) $"<think>" = Some (length pre) ->
  strstr (pre ++ $"<think>" ++ think ++ $"</think>" ++ post) $"</think>" =
    Some (length (pre ++ $"<think>" ++ think)) ->
  exists l r, strip_think_tags (pre ++ $"<think>" ++ think ++ $"</think>" ++ post) =
    Some (str_trim_copy (pre ++ post)) /\ trimmed (str_trim_copy (pre ++ post)) /\
    pre ++ post = l ++ str_trim_copy (pre ++ post) ++ r /\
    Forall (fun c => isspace c = true) l /\ Forall (fun c => isspace c = true) r.
Proof.
  intros Hs He. unfold str_trim_copy.
  destruct (drop_while_suffix isspace (pre ++ post)) as (l & Hl1 & Hl2).
  destruct (drop_tail_prefix isspace (drop_while isspace (pre ++ post))) as (r & Hr1 & Hr2).
  exists l, r. split; [|split_and!; [apply trim_trimmed|by rewrite <-Hr1|done|done]].
  unfold strip_think_tags.
  destruct (pre ++ $"<think>" ++ think ++ $"</think>" ++ post) as [|c t] eqn:E;
    [by destruct pre|rewrite <-E in *; clear E c t].
  rewrite Hs, He. rewrite length_app. destruct (Nat.ltb_spec (length pre + length ($"<think>" ++ think)) (length pre)); [lia|].
  do 2 f_equal. f_equal. rewrite take_app_length.
  assert (pre ++ $"<think>" ++ think ++ $"</think>" ++ post = (pre ++ $"<think>" ++ think ++ $"</think>") ++ post) as ->
    by (by rewrite <-!app_assoc).
  rewrite drop_app_ge by (rewrite !length_app; lia).
  rewrite (proj2 (Nat.sub_0_le _ _)) by (rewrite !length_app; lia). done.
Qed.

Lemma strip_think_tags_correct_witness :
  exists l r, strip_think_tags $"<think>a</think> hi " = Some $"hi" /\ trimmed $"hi" /\
    $" hi " = l ++ $"hi" ++ r /\ Forall (fun c => isspace c = true) l /\ Forall (fun c => isspace c = true) r.
Proof. apply (strip_think_tags_correct [] $"a" $" hi "); by vm_compute. Defined.
