(* ===== verification/Memory.v ===== *)
(** [src/memory/memory.c]: the long-term facts and the history of the agent,
    their files, and the consolidation. The mutex makes every operation one
    step. [mkdir] is left to the file store: a file of the directory can be
    written or not. *)
From S2P Require Import Prelude CStr Json Common Fs Session Utils.

Definition DEFAULT_MAX_TOKENS : Z := 4000.
Definition CONSOLIDATION_THRESHOLD : num := mkNum 8 (-1).
Definition MEMORY_HARD_CAP_BYTES : N := (512 * 1024)%N.
Definition HISTORY_HARD_CAP_BYTES : N := (1024 * 1024)%N.

(** [strlen] as a number that computes. *)
Definition size (s : cstr) : N := N.of_nat (length s).

Record Memory := mkMemory {
  memory_md : cstr;
  history_md : cstr;
  max_tokens : Z;
  current_tokens : nat;
  consolidation_threshold : num;
  version : Z;
}.

Definition md_tokens (facts history : cstr) : nat := estimate_tokens facts + estimate_tokens history.

(** [mem->version++] of an [unsigned long]. *)
Definition bump (m : Memory) : Memory :=
  mkMemory (memory_md m) (history_md m) (max_tokens m) (current_tokens m) (consolidation_threshold m) (wrap_u 64 (version m + 1)).
Definition recount (m : Memory) : Memory :=
  mkMemory (memory_md m) (history_md m) (max_tokens m) (md_tokens (memory_md m) (history_md m)) (consolidation_threshold m) (version m).
Definition set_facts (m : Memory) (facts : cstr) : Memory :=
  mkMemory facts (history_md m) (max_tokens m) (current_tokens m) (consolidation_threshold m) (version m).
Definition set_history (m : Memory) (history : cstr) : Memory :=
  mkMemory (memory_md m) history (max_tokens m) (current_tokens m) (consolidation_threshold m) (version m).

(** ** The texts *)

Definition append_history_buffer_unlocked (m : Memory) (entry : cstr) : Memory :=
  let need := (size (history_md m) + size entry + 2)%N in
  if (HISTORY_HARD_CAP_BYTES <? need)%N then m
  else recount (set_history m (history_md m ++ entry ++ [ch_nl])).

Definition fact_exists_unlocked (m : Memory) (fact : cstr) : bool :=
  match strstr (memory_md m) ($"- " ++ fact) with Some _ => true | None => false end.

Definition section : cstr := $"## Important Notes".

(** Where a new fact goes: before the section that follows the notes, or at
    the end. *)
Definition insert_idx (facts : cstr) : nat :=
  match strstr facts section with
  | Some i =>
      let pos := i + length section in
      match strstr (drop pos facts) (ch_nl :: $"## ") with
      | Some j => pos + j
      | None => length facts
      end
  | None => length facts
  end.

Definition need_newline (facts : cstr) : bool :=
  match last (take (insert_idx facts) facts) with Some c => negb (bool_decide (c = ch_nl)) | None => false end.

(** The size of the block that is allocated, and the text copied into it. *)
Definition add_fact_need (facts fact : cstr) : N :=
  (size facts + size fact + if need_newline facts then 4 else 3)%N.

Definition fact_line (facts fact : cstr) : cstr :=
  (if need_newline facts then [ch_nl] else []) ++ $"- " ++ fact ++ [ch_nl].

Definition inserted (facts fact : cstr) : cstr :=
  take (insert_idx facts) facts ++ fact_line facts fact ++ drop (insert_idx facts) facts.

Definition add_fact_unlocked (m : Memory) (fact : cstr) : Memory :=
  match fact with
  | [] => m
  | _ =>
      if fact_exists_unlocked m fact then m
      else if (MEMORY_HARD_CAP_BYTES <? add_fact_need (memory_md m) fact)%N then m
      else set_facts m (inserted (memory_md m) fact)
  end.

(** ** Operations *)

(** The two numbers of [config->agent] that are read. *)
Definition memory_new_with_config (config : option (Z * num)) : Memory :=
  mkMemory [] []
    (match config with Some (t, _) => if (0 <? t)%Z then t else DEFAULT_MAX_TOKENS | None => DEFAULT_MAX_TOKENS end)
    0
    (match config with
     | Some (_, th) => if (0 <? n_mant th)%Z then th else CONSOLIDATION_THRESHOLD
     | None => CONSOLIDATION_THRESHOLD
     end)
    1.

Definition memory_new : Memory := memory_new_with_config None.

Definition memory_file (workspace_path : cstr) : cstr := truncate_to FILE_PATH_MAX (workspace_path ++ $"/memory/MEMORY.md").
Definition history_file (workspace_path : cstr) : cstr := truncate_to FILE_PATH_MAX (workspace_path ++ $"/memory/HISTORY.md").

Definition lf (s : cstr) : cstr := s ++ [ch_nl].

Definition default_mem : cstr :=
  lf $"# Long-term Memory" ++ lf [] ++ lf $"This file stores important information that should persist across sessions." ++ lf [] ++
  lf $"## User Information" ++ lf [] ++ lf $"(Important facts about the user)" ++ lf [] ++
  lf $"## Preferences" ++ lf [] ++ lf $"(User preferences learned over time)" ++ lf [] ++
  lf section ++ lf [] ++ lf $"(Things to remember)".

(** [string_new] of a whole file: the bytes before the first NUL. *)
Definition file_text (text : cstr) : cstr := take_while not_nul text.

Definition memory_load (fs : Fs) (m : Memory) (workspace_path : cstr) : Fs * Memory * Error :=
  let path := memory_file workspace_path in
  let '(fs1, m1) :=
    match fs_read fs path with
    | Some text => (fs, set_facts m (file_text text))
    | None => match fs_write fs path default_mem with
              | Some fs1 => (fs1, set_facts m default_mem)
              | None => (fs, m)
              end
    end in
  let m2 := match fs_read fs1 (history_file workspace_path) with
            | Some text => set_history m1 (file_text text)
            | None => set_history m1 []
            end in
  (fs1, bump (recount m2), err_ok).

(** The two files written by [memory_save] and at the end of the
    consolidation. *)
Definition write_files (fs : Fs) (m : Memory) (workspace_path : cstr) : Fs * Error :=
  match fs_write fs (memory_file workspace_path) (memory_md m) with
  | None => (fs, error_new ERR_FILE (Some $"Cannot save MEMORY.md"))
  | Some fs1 =>
      match fs_write fs1 (history_file workspace_path) (history_md m) with
      | None => (fs1, error_new ERR_FILE (Some $"Cannot save HISTORY.md"))
      | Some fs2 => (fs2, err_ok)
      end
  end.

Definition memory_save (fs : Fs) (m : Memory) (workspace_path : cstr) : Fs * Error := write_files fs m workspace_path.

Definition memory_add_fact (m : Memory) (fact : cstr) : Memory :=
  match fact with [] => m | _ => bump (recount (add_fact_unlocked m fact)) end.

Definition memory_add_history (m : Memory) (entry : cstr) : Memory := bump (append_history_buffer_unlocked m entry).

Definition memory_append_history (fs : Fs) (m : Memory) (workspace_path entry : cstr) : Fs * Memory * Error :=
  match fs_append fs (history_file workspace_path) (entry ++ [ch_nl]) with
  | None => (fs, m, error_new ERR_FILE (Some $"Cannot append HISTORY.md"))
  | Some fs1 => (fs1, bump (append_history_buffer_unlocked m entry), err_ok)
  end.

Definition rejected_message : cstr :=
  $"Rejected: new content is much shorter than existing memory. You MUST include ALL existing facts in memory_update. Use 'content' parameter to safely add new facts without replacing existing ones.".

Definition memory_set_facts (m : Memory) (memory_update : cstr) : Memory * Error :=
  let old_len := size (memory_md m) in
  let new_len := size memory_update in
  if (100 <? old_len)%N && (new_len <? old_len / 3)%N then (m, error_new ERR_INVALID_PARAM (Some rejected_message))
  else (bump (recount (set_facts m memory_update)), err_ok).

Definition memory_get_version (m : Memory) : Z := version m.
Definition memory_estimate_tokens (m : Memory) : nat := md_tokens (memory_md m) (history_md m).

(** [current > max_tokens * threshold]; the code rounds the product to a
    [double]. *)
Definition over_threshold (current : nat) (m : Memory) : bool :=
  let p := (max_tokens m * n_mant (consolidation_threshold m))%Z in
  let e := n_exp (consolidation_threshold m) in
  if (0 <=? e)%Z then (p * 10 ^ e <? Z.of_nat current)%Z else (p <? Z.of_nat current * 10 ^ (- e))%Z.

Definition memory_needs_consolidation (m : Memory) : Memory * bool :=
  let m1 := recount m in (m1, over_threshold (current_tokens m1) m1).

(** ** Consolidation *)

Definition entries_to_keep : nat := 5.

(** The walk back over [rev data]: how many bytes are before the cut. *)
Fixpoint cut_pos (count : nat) (rdata : cstr) : nat :=
  match count, rdata with
  | 0, _ => length rdata
  | _, [] => 0
  | S count', c :: r => if bool_decide (c = ch_nl) then cut_pos count' r else cut_pos count r
  end.

Definition history_cut (data : cstr) : nat := cut_pos entries_to_keep (rev data).

Definition marker : cstr := [ch_nl; ch_nl] ++ $"[Previous history consolidated to save space]" ++ [ch_nl].

(** The size of the block of the new history (clamped), and the text copied
    into it, its terminator aside. *)
Definition consolidated_total (remaining : cstr) : N :=
  N.min (size marker + size remaining + 1)%N HISTORY_HARD_CAP_BYTES.

(** The fact of one old line, if it has one. *)
Definition line_fact (line : cstr) : option cstr :=
  let line := drop_while isspace line in
  match line with
  | [] => None
  | c :: _ =>
      match strstr line $"consolidated to save space" with
      | Some _ => None
      | None =>
          let fact :=
            if bool_decide (c = "["%char) then
              match strchr line "]"%char with
              | Some i => match drop (i + 1) line with " "%char :: after => after | _ => line end
              | None => line
              end
            else line in
          match fact with [] => None | _ => Some fact end
      end
  end.

Fixpoint add_old_facts (lines : list cstr) (added : nat) (m : Memory) : Memory :=
  match lines with
  | [] => m
  | line :: r =>
      if Nat.ltb added 5 then
        match line_fact line with
        | Some fact => if fact_exists_unlocked m fact then add_old_facts r added m
                       else add_old_facts r (S added) (add_fact_unlocked m fact)
        | None => add_old_facts r added m
        end
      else m
  end.

Definition is_nl (c : ascii) : bool := bool_decide (c = ch_nl).

Definition consolidate_texts (m : Memory) : Memory :=
  let data := history_md m in
  let cut := history_cut data in
  let m1 := if Nat.ltb 0 cut then set_history m (marker ++ drop cut data) else m in
  let m2 := if Nat.ltb 0 cut then add_old_facts (strtok is_nl (take cut data)) 0 m1 else m1 in
  bump (recount m2).

Definition memory_consolidate (fs : Fs) (m : Memory) (workspace_path : cstr) : Fs * Memory * Error :=
  let m1 := recount m in
  if over_threshold (current_tokens m1) m1 then
    let m2 := consolidate_texts m1 in
    let '(fs', err) := write_files fs m2 workspace_path in (fs', m2, err)
  else (fs, m1, err_ok).

Definition demo_memory : Memory := set_facts memory_new default_mem.
Example fact_at_end : memory_md (memory_add_fact demo_memory $"likes tea") = default_mem ++ lf $"- likes tea".
Proof. by vm_compute. Qed.
Example fact_before_next : inserted (lf $"## Important Notes" ++ lf $"- a" ++ lf $"## Next") $"b" =
  lf $"## Important Notes" ++ $"- a" ++ [ch_nl] ++ $"- b" ++ [ch_nl] ++ [ch_nl] ++ lf $"## Next".
Proof. by vm_compute. Qed.

(** ** Facts are only added *)

Lemma size_app s t : size (s ++ t) = (size s + size t)%N.
Proof. unfold size. rewrite length_app. lia. Qed.

Lemma inserted_size facts fact : size (inserted facts fact) = add_fact_need facts fact.
Proof.
  assert (size facts = size (take (insert_idx facts) facts) + size (drop (insert_idx facts) facts))%N as E
    by by rewrite <-size_app, take_drop.
  unfold inserted, add_fact_need, fact_line. rewrite !size_app, E. change (size $"- ") with 2%N. change (size [ch_nl]) with 1%N.
  destruct (need_newline facts); [change (size [ch_nl]) with 1%N|change (size []) with 0%N]; lia.
Qed.

Lemma inserted_sublist facts fact : sublist facts (inserted facts fact).
Proof.
  unfold inserted. rewrite <-(take_drop (insert_idx facts) facts) at 1.
  apply sublist_app; [done|]. by apply sublist_inserts_l.
Qed.

Lemma inserted_has facts fact : is_Some (strstr (inserted facts fact) ($"- " ++ fact)).
Proof.
  unfold inserted, fact_line.
  replace (take (insert_idx facts) facts ++ ((if need_newline facts then [ch_nl] else []) ++ $"- " ++ fact ++ [ch_nl]) ++ drop (insert_idx facts) facts)
    with ((take (insert_idx facts) facts ++ (if need_newline facts then [ch_nl] else [])) ++ ($"- " ++ fact) ++ [ch_nl] ++ drop (insert_idx facts) facts)
    by (rewrite <-!app_assoc; done).
  apply strstr_mid.
Qed.

(** What one addition guarantees. *)
Lemma add_fact_unlocked_spec m fact : fact <> [] ->
  let m' := add_fact_unlocked m fact in
  sublist (memory_md m) (memory_md m') /\ history_md m' = history_md m /\
  (size (memory_md m') <= N.max (size (memory_md m)) MEMORY_HARD_CAP_BYTES)%N /\
  (fact_exists_unlocked m' fact = true \/
   memory_md m' = memory_md m /\ (MEMORY_HARD_CAP_BYTES < add_fact_need (memory_md m) fact)%N).
Proof.
  intros Hf. unfold add_fact_unlocked. destruct fact as [|c f]; [done|].
  destruct (fact_exists_unlocked m (c :: f)) eqn:E; [split_and!; [done|done|lia|by left]|].
  destruct (N.ltb_spec MEMORY_HARD_CAP_BYTES (add_fact_need (memory_md m) (c :: f))) as [Hcap|Hcap].
  - split_and!; [done|done|lia|by right].
  - cbn [memory_md set_facts history_md]. split_and!; [apply inserted_sublist|done|rewrite inserted_size; lia|left].
    unfold fact_exists_unlocked. cbn [memory_md set_facts]. by destruct (inserted_has (memory_md m) (c :: f)) as [i ->].
Qed.

(** Adding a fact keeps everything that was noted, makes the fact present
    (unless the cap on the file is reached), never grows the notes beyond the
    cap, keeps the token count up to date, and does nothing the second time. *)
Theorem memory_add_fact_correct m fact : fact <> [] ->
  let m' := memory_add_fact m fact in
  sublist (memory_md m) (memory_md m') /\ history_md m' = history_md m /\
  (size (memory_md m') <= N.max (size (memory_md m)) MEMORY_HARD_CAP_BYTES)%N /\
  current_tokens m' = memory_estimate_tokens m' /\
  (fact_exists_unlocked m' fact = true \/
   memory_md m' = memory_md m /\ (MEMORY_HARD_CAP_BYTES < add_fact_need (memory_md m) fact)%N) /\
  memory_md (memory_add_fact m' fact) = memory_md m'.
Proof.
  intros Hf. destruct (add_fact_unlocked_spec m fact Hf) as (H1 & H2 & H3 & H4).
  assert (memory_md (memory_add_fact m fact) = memory_md (add_fact_unlocked m fact)) as E by by destruct fact.
  assert (forall n, fact_exists_unlocked n fact = true -> add_fact_unlocked n fact = n) as Hsame.
  { intros n Hn. unfold add_fact_unlocked. destruct fact; [done|]. by rewrite Hn. }
  cbn zeta. rewrite E. split_and!; [done|by destruct fact|done|by destruct fact| |].
  - destruct H4 as [H4|H4]; [left|by right]. unfold fact_exists_unlocked in *. by rewrite E.
  - assert (memory_md (memory_add_fact (memory_add_fact m fact) fact) = memory_md (add_fact_unlocked (memory_add_fact m fact) fact))
      as -> by by destruct fact.
    destruct H4 as [H4|[H4 H5]].
    + rewrite Hsame; [done|]. unfold fact_exists_unlocked in *. by rewrite E.
    + unfold add_fact_unlocked at 1. destruct fact as [|c f]; [done|].
      destruct (fact_exists_unlocked (memory_add_fact m (c :: f)) (c :: f)); [by rewrite E|]. rewrite E, H4.
      rewrite (proj2 (N.ltb_lt _ _) H5). by rewrite E.
Qed.

(** The block allocated for the new notes has no room for the
    terminator: every addition of a fact writes one byte past its end. *)
Theorem memory_add_fact_overflows facts fact : (size (inserted facts fact) + 1 = add_fact_need facts fact + 1)%N.
Proof. by rewrite inserted_size. Qed.

Lemma write_files_spec fs m ws fs' err : write_files fs m ws = (fs', err) -> is_err err = false ->
  history_file ws <> memory_file ws ->
  fs_read fs' (memory_file ws) = Some (memory_md m) /\ fs_read fs' (history_file ws) = Some (history_md m).
Proof.
  unfold write_files, fs_write. intros H He Hne.
  destruct (fs_writable fs (memory_file ws)); [|by injection H as <- <-]. cbn [fs_writable fs_set] in H.
  destruct (fs_writable fs (history_file ws)); [|by injection H as <- <-]. injection H as <- _.
  unfold fs_read. cbn [fs_files fs_set]. by rewrite lookup_insert_ne, !lookup_insert_eq by done.
Qed.

(** ** Consolidation *)

Definition count_nl (s : cstr) : nat := length (List.filter is_nl s).

Lemma count_nl_app s t : count_nl (s ++ t) = count_nl s + count_nl t.
Proof. unfold count_nl. by rewrite List.filter_app, length_app. Qed.

Lemma count_nl_cons c s : count_nl (c :: s) = (if is_nl c then 1 else 0) + count_nl s.
Proof. unfold count_nl. cbn. by destruct (is_nl c). Qed.

Lemma cut_pos_skip r : forall k rest, count_nl r < k -> cut_pos k (r ++ rest) = cut_pos (k - count_nl r) rest.
Proof.
  induction r as [|c r IH]; intros k rest; [intros _; cbn [count_nl app]; by rewrite Nat.sub_0_r|].
  rewrite count_nl_cons. unfold is_nl. cbn [app]. destruct k as [|k]; [lia|]. cbn [cut_pos].
  case_bool_decide; intros Hk; rewrite IH by lia; f_equal; lia.
Qed.

Lemma cut_pos_none r : forall k, count_nl r < k -> cut_pos k r = 0.
Proof.
  intros k Hk. rewrite <-(app_nil_r r), cut_pos_skip by done. by destruct (k - count_nl r).
Qed.

Lemma count_nl_rev s : count_nl (rev s) = count_nl s.
Proof.
  induction s as [|c s IH]; [done|]. cbn [rev]. rewrite count_nl_app, IH, !count_nl_cons. change (count_nl []) with 0. lia.
Qed.

Lemma history_cut_at old recent : count_nl recent = 4 -> history_cut (old ++ ch_nl :: recent) = length old.
Proof.
  intros Hc. unfold history_cut, entries_to_keep. rewrite rev_app_distr. cbn [rev]. rewrite <-app_assoc.
  rewrite cut_pos_skip by (rewrite count_nl_rev; lia). rewrite count_nl_rev, Hc. cbn [Nat.sub app cut_pos].
  rewrite bool_decide_true by done. rewrite <-length_rev. by destruct (rev old).
Qed.

Lemma history_cut_none data : count_nl data < 5 -> history_cut data = 0.
Proof. intros H. apply cut_pos_none. by rewrite count_nl_rev. Qed.

Lemma line_fact_nonempty line fact : line_fact line = Some fact -> fact <> [].
Proof.
  unfold line_fact. destruct (drop_while isspace line) as [|c l]; [done|]. destruct (strstr _ _); [done|].
  match goal with |- match ?x with _ => _ end = _ -> _ => destruct x end; [done|]. by intros [= <-].
Qed.

Lemma add_old_facts_spec lines : forall added m,
  sublist (memory_md m) (memory_md (add_old_facts lines added m)) /\
  history_md (add_old_facts lines added m) = history_md m /\
  (size (memory_md (add_old_facts lines added m)) <= N.max (size (memory_md m)) MEMORY_HARD_CAP_BYTES)%N.
Proof.
  induction lines as [|line lines IH]; intros added m; cbn [add_old_facts]; [split_and!; [done|done|lia]|].
  destruct (Nat.ltb added 5); [|split_and!; [done|done|lia]].
  destruct (line_fact line) as [fact|] eqn:E; [|by apply IH]. apply line_fact_nonempty in E.
  destruct (fact_exists_unlocked m fact); [by apply IH|].
  destruct (add_fact_unlocked_spec m fact E) as (H1 & H2 & H3 & _).
  destruct (IH (S added) (add_fact_unlocked m fact)) as (I1 & I2 & I3).
  split_and!; [by etransitivity|congruence|lia].
Qed.

(** What is added to the facts depends on the facts alone. *)
Lemma add_fact_md m m' fact : memory_md m = memory_md m' -> memory_md (add_fact_unlocked m fact) = memory_md (add_fact_unlocked m' fact).
Proof. intros H. unfold add_fact_unlocked, fact_exists_unlocked. destruct fact; [done|]. rewrite H. by repeat case_match. Qed.

Lemma add_facts_md facts : forall m m', memory_md m = memory_md m' -> memory_md (fold_left add_fact_unlocked facts m) = memory_md (fold_left add_fact_unlocked facts m').
Proof. induction facts as [|f facts IH]; intros m m' H; [done|]. cbn [fold_left]. by apply IH, add_fact_md. Qed.

(** The facts added one after the other, each of which was not there before. *)
Definition all_new (facts : list cstr) (m : Memory) : Prop :=
  forall pre f post, facts = pre ++ f :: post -> strstr (memory_md (fold_left add_fact_unlocked pre m)) ($"- " ++ f) = None.

Lemma add_old_facts_new lines : forall added m, added <= 5 -> exists facts,
  memory_md (add_old_facts lines added m) = memory_md (fold_left add_fact_unlocked facts m) /\
  added + length facts <= 5 /\ sublist facts (omap line_fact lines) /\ all_new facts m.
Proof.
  assert (forall m, all_new [] m) as Hnil by (intros m pre f post H; by destruct pre).
  induction lines as [|line lines IH]; intros added m Ha; [exists []; split_and!; [done|cbn; lia|done|done]|]. cbn [add_old_facts].
  destruct (Nat.ltb_spec added 5); [|exists []; split_and!; [done|cbn; lia|apply sublist_nil_l|done]].
  change (omap line_fact (line :: lines)) with (match line_fact line with Some f => f :: omap line_fact lines | None => omap line_fact lines end).
  destruct (line_fact line) as [fact|]; [|by apply IH]. destruct (fact_exists_unlocked m fact) eqn:Ef.
  - destruct (IH added m Ha) as (facts & H1 & H2 & H3 & H4). exists facts. split_and!; [done|done|by apply sublist_cons|done].
  - destruct (IH (S added) (add_fact_unlocked m fact) ltac:(lia)) as (facts & H1 & H2 & H3 & H4). exists (fact :: facts). split_and!; [done|cbn; lia|by apply sublist_skip|].
    intros [|x pre] f post E; injection E as <- E; cbn [fold_left].
    + unfold fact_exists_unlocked in Ef. by destruct (strstr _ _).
    + by apply (H4 pre f post).
Qed.

(** C23: When the limit is passed, consolidation keeps every fact, and of a long
    history exactly the last four complete entries after a mark (the constant
    in the code says five, but the newline that ends the fifth is counted); a
    history of fewer lines is left alone. At most five facts are added, in
    order and only from the lines that are dropped, and none that was there
    already; the facts stay below their limit, and the two files hold the
    result unless an error is reported. *)
Theorem memory_consolidate_correct fs m ws fs' m' err :
  memory_consolidate fs m ws = (fs', m', err) -> over_threshold (memory_estimate_tokens m) m = true ->
  sublist (memory_md m) (memory_md m') /\
  (size (memory_md m') <= N.max (size (memory_md m)) MEMORY_HARD_CAP_BYTES)%N /\
  (forall old recent, history_md m = old ++ ch_nl :: recent -> count_nl recent = 4 -> old <> [] ->
     history_md m' = marker ++ ch_nl :: recent) /\
  (count_nl (history_md m) < 5 -> history_md m' = history_md m /\ memory_md m' = memory_md m) /\
  (exists facts, memory_md m' = memory_md (fold_left add_fact_unlocked facts m) /\ length facts <= 5 /\
     sublist facts (omap line_fact (strtok is_nl (take (history_cut (history_md m)) (history_md m)))) /\ all_new facts m) /\
  current_tokens m' = memory_estimate_tokens m' /\
  (is_err err = false -> history_file ws <> memory_file ws ->
     fs_read fs' (memory_file ws) = Some (memory_md m') /\ fs_read fs' (history_file ws) = Some (history_md m')).
Proof.
  unfold memory_consolidate. cbn [current_tokens recount]. intros H Hover. unfold over_threshold in *. cbn [max_tokens consolidation_threshold recount] in H.
  unfold memory_estimate_tokens in Hover. rewrite Hover in H.
  destruct (write_files fs (consolidate_texts (recount m)) ws) as [fs1 e] eqn:Ew. injection H as -> <- ->.
  assert (forall cut, let m1 := if Nat.ltb 0 cut then set_history (recount m) (marker ++ drop cut (history_md m)) else recount m in
     let m2 := if Nat.ltb 0 cut then add_old_facts (strtok is_nl (take cut (history_md m))) 0 m1 else m1 in
     sublist (memory_md m) (memory_md m2) /\ (size (memory_md m2) <= N.max (size (memory_md m)) MEMORY_HARD_CAP_BYTES)%N /\
     history_md m2 = if Nat.ltb 0 cut then marker ++ drop cut (history_md m) else history_md m) as Hspec.
  { intros cut. cbn zeta. destruct (Nat.ltb 0 cut); [|cbn; split_and!; [done|lia|done]].
    destruct (add_old_facts_spec (strtok is_nl (take cut (history_md m))) 0 (set_history (recount m) (marker ++ drop cut (history_md m))))
      as (H1 & H2 & H3). by split_and!. }
  specialize (Hspec (history_cut (history_md m))) as (H1 & H2 & H3). unfold consolidate_texts. cbn [history_md recount].
  split_and!; [exact H1|exact H2| | | |done|].
  - intros old recent Hh Hc Hold. cbn [bump recount history_md]. cbn [history_md recount] in H3. rewrite H3, Hh.
    rewrite history_cut_at, drop_app_length by done. by destruct old.
  - intros Hc. rewrite (history_cut_none _ Hc). done.
  - assert (all_new [] m) as Hnil by (intros pre f post H; by destruct pre). cbn [bump recount memory_md].
    destruct (Nat.ltb 0 (history_cut (history_md m))); [|exists []; split_and!; [done|cbn; lia|apply sublist_nil_l|done]].
    destruct (add_old_facts_new (strtok is_nl (take (history_cut (history_md m)) (history_md m))) 0
      (set_history (recount m) (marker ++ drop (history_cut (history_md m)) (history_md m))) ltac:(lia)) as (facts & -> & Hl & Hs & Hn).
    exists facts. split_and!; [by apply add_facts_md|exact Hl|exact Hs|]. intros pre f post E. rewrite <-(Hn pre f post E). f_equal. by apply add_facts_md.
  - intros He Hne. by apply (write_files_spec _ _ _ _ _ Ew He Hne).
Qed.

(** ** The files *)

Lemma memory_paths_ne ws : length ws + 18 < FILE_PATH_MAX -> history_file ws <> memory_file ws.
Proof.
  intros Hl. unfold history_file, memory_file. rewrite !truncate_to_id by (rewrite length_app; cbn [length]; cbn; lia).
  by intros ?%app_inv_head.
Qed.

Lemma file_text_id s : str_ok s = true -> file_text s = s.
Proof. intros H. apply take_while_not_nul. by apply str_ok_spec. Qed.

(** What a successful save wrote, a load reads back, whatever the memory
    held before; the version moves on, so the prompt is rebuilt. *)
Theorem memory_save_load fs m ws fs' err m0 : memory_save fs m ws = (fs', err) -> is_err err = false ->
  str_ok (memory_md m) = true -> str_ok (history_md m) = true -> length ws + 18 < FILE_PATH_MAX ->
  exists m1, memory_load fs' m0 ws = (fs', m1, err_ok) /\ memory_md m1 = memory_md m /\ history_md m1 = history_md m /\
    current_tokens m1 = memory_estimate_tokens m /\ version m1 = wrap_u 64 (version m0 + 1).
Proof.
  intros Hs He Hm Hh Hl. destruct (write_files_spec _ _ _ _ _ Hs He (memory_paths_ne ws Hl)) as [H1 H2].
  unfold memory_load. rewrite H1, H2. rewrite !file_text_id by done. by eexists.
Qed.

(** The history file and the buffer say the same. *)
Definition history_synced (fs : Fs) (m : Memory) (ws : cstr) : Prop :=
  fs_read fs (history_file ws) = Some (history_md m).

(** An entry goes to the end of the file and of the buffer alike, so the
    two stay equal, until the cap: from then on entries still go to the file
    but not to the buffer. *)
Theorem memory_append_history_synced fs m ws entry : history_synced fs m ws -> fs_writable fs (history_file ws) = true ->
  exists fs' m', memory_append_history fs m ws entry = (fs', m', err_ok) /\
    fs_read fs' (history_file ws) = Some (history_md m ++ entry ++ [ch_nl]) /\
    ((size (history_md m) + size entry + 2 <= HISTORY_HARD_CAP_BYTES)%N ->
       history_synced fs' m' ws /\ current_tokens m' = memory_estimate_tokens m') /\
    ((HISTORY_HARD_CAP_BYTES < size (history_md m) + size entry + 2)%N ->
       history_md m' = history_md m /\ ~ history_synced fs' m' ws).
Proof.
  unfold history_synced. intros Hs Hw. unfold memory_append_history, fs_append. rewrite Hw. eexists _, _. split; [done|].
  unfold fs_read in *. cbn [fs_files fs_set]. rewrite lookup_insert_eq, Hs. cbn [default from_option id].
  split; [done|]. unfold append_history_buffer_unlocked. split; intros Hcap.
  - rewrite (proj2 (N.ltb_ge _ _)) by done. done.
  - rewrite (proj2 (N.ltb_lt _ _)) by done. split; [done|]. cbn [bump history_md]. intros [= E].
    apply (f_equal length) in E. rewrite !length_app in E. cbn in E. lia.
Qed.

(** ** Witnesses *)

Lemma memory_add_fact_correct_witness :
  let m' := memory_add_fact demo_memory $"likes tea" in
  sublist (memory_md demo_memory) (memory_md m') /\ history_md m' = history_md demo_memory /\
  (size (memory_md m') <= N.max (size (memory_md demo_memory)) MEMORY_HARD_CAP_BYTES)%N /\
  current_tokens m' = memory_estimate_tokens m' /\
  (fact_exists_unlocked m' $"likes tea" = true \/
   memory_md m' = memory_md demo_memory /\ (MEMORY_HARD_CAP_BYTES < add_fact_need (memory_md demo_memory) $"likes tea")%N) /\
  memory_md (memory_add_fact m' $"likes tea") = memory_md m'.
Proof. by apply (memory_add_fact_correct demo_memory $"likes tea"). Defined.

Lemma surj3 {A B C} (p : A * B * C) : p = (fst (fst p), snd (fst p), snd p).
Proof. by destruct p as [[]]. Qed.

(** A memory of six entries whose limit is one token. *)
Definition demo_old : cstr := lf $"[2024-01-01] first" ++ $"second".
Definition demo_recent : cstr := lf $"third" ++ lf $"fourth" ++ lf $"fifth" ++ lf $"sixth".
Definition demo_full : Memory := mkMemory default_mem (demo_old ++ ch_nl :: demo_recent) 1 0 CONSOLIDATION_THRESHOLD 1.
Definition memory_fs : Fs := mkFs ∅ (fun _ => true) (fun _ _ => true).
Definition demo_consolidated : Memory := snd (fst (memory_consolidate memory_fs demo_full $"/w")).

Lemma memory_consolidate_correct_witness :
  history_md demo_consolidated = marker ++ ch_nl :: demo_recent /\ sublist (memory_md demo_full) (memory_md demo_consolidated).
Proof.
  destruct (memory_consolidate_correct memory_fs demo_full $"/w" (fst (fst (memory_consolidate memory_fs demo_full $"/w")))
    demo_consolidated (snd (memory_consolidate memory_fs demo_full $"/w"))) as (H1 & _ & H2 & _);
    [apply surj3|by vm_compute|].
  split; [apply (H2 demo_old demo_recent); by vm_compute|exact H1].
Defined.

Lemma memory_save_load_witness :
  exists m1, memory_load (fst (memory_save memory_fs demo_full $"/w")) memory_new $"/w" =
    (fst (memory_save memory_fs demo_full $"/w"), m1, err_ok) /\ memory_md m1 = memory_md demo_full /\
    history_md m1 = history_md demo_full /\ current_tokens m1 = memory_estimate_tokens demo_full /\
    version m1 = wrap_u 64 (version memory_new + 1).
Proof.
  apply (memory_save_load memory_fs demo_full $"/w" _ (snd (memory_save memory_fs demo_full $"/w")));
    [by destruct (memory_save memory_fs demo_full $"/w")|by vm_compute|by vm_compute|by vm_compute|apply Nat.ltb_lt; by vm_compute].
Defined.

Lemma memory_append_history_synced_witness :
  let m := mkMemory default_mem [] 1000 0 CONSOLIDATION_THRESHOLD 1 in
  exists fs' m', memory_append_history (mkFs {[ history_file $"/w" := [] ]} (fun _ => true) (fun _ _ => true)) m $"/w" $"tea" = (fs', m', err_ok) /\
    fs_read fs' (history_file $"/w") = Some ($"tea" ++ [ch_nl]).
Proof.
  destruct (memory_append_history_synced (mkFs {[ history_file $"/w" := [] ]} (fun _ => true) (fun _ _ => true))
    (mkMemory default_mem [] 1000 0 CONSOLIDATION_THRESHOLD 1) $"/w" $"tea") as (fs' & m' & H1 & H2 & _);
    [by vm_compute|done|]. by exists fs', m'.
Defined.
