(* ===== verification/Skills.v ===== *)
(** [src/skills/skills.c]: finding, filtering and reading the skills of the
    workspace and the built-in ones. *)
From S2P Require Import Prelude CStr Json JsonTree Common Fs Utils.

(** What the loader asks of the operating system besides files: directory
    entries (name, and whether it is a directory), environment variables, and
    whether a path can be executed. *)
Record SkillsEnv := mkSkillsEnv {
  se_readdir : cstr -> option (list (cstr * bool));
  se_getenv : cstr -> option cstr;
  se_executable : cstr -> bool;
}.

Record SkillsLoader := mkLoader { sl_workspace : cstr; sl_builtin_skills_dir : option cstr }.

Definition skills_loader_create_with_builtin (workspace : cstr) (builtin_skills_dir : option cstr) : SkillsLoader :=
  mkLoader workspace builtin_skills_dir.
Definition skills_loader_create (workspace : cstr) : SkillsLoader := skills_loader_create_with_builtin workspace None.

(** ** The front matter *)

(** The lines of a text; a final newline opens no further line. *)
Fixpoint lines_from (cur : cstr) (s : cstr) : list cstr :=
  match s with
  | [] => if cur is [] then [] else [rev cur]
  | c :: s' => if bool_decide (c = ch_nl) then rev cur :: lines_from [] s' else lines_from (c :: cur) s'
  end.
Definition text_lines (s : cstr) : list cstr := lines_from [] s.

(** The text between the two fences, and what follows. *)
Definition fence : cstr := $"---" ++ [ch_nl].
Definition end_fence : cstr := ch_nl :: $"---" ++ [ch_nl].
Definition frontmatter (content : cstr) : option (cstr * cstr) :=
  if starts_with fence content then
    let text := drop 4 content in
    match strstr text end_fence with
    | Some e => Some (take e text, drop (e + 5) text)
    | None => None
    end
  else None.

Definition is_blank (c : ascii) : bool := bool_decide (c = " "%char) || bool_decide (c = ch_tab).

Definition quoted_by (q : ascii) (v : cstr) : bool :=
  Nat.leb 2 (length v) && bool_decide (head v = Some q) && bool_decide (last v = Some q).

(** The value without its quotes. *)
Definition unquote (v : cstr) : cstr :=
  if quoted_by ch_quote v || quoted_by "'"%char v then take (length v - 2) (drop 1 v) else v.

Fixpoint find_value (key : cstr) (lines : list cstr) : option cstr :=
  match lines with
  | [] => None
  | l :: r =>
      if starts_with (key ++ $":") l then Some (unquote (drop_while is_blank (drop (length key + 1) l)))
      else find_value key r
  end.

Definition get_frontmatter_value (content key : cstr) : option cstr :=
  match frontmatter content with Some (fm, _) => find_value key (text_lines fm) | None => None end.

Definition get_skill_meta (content : cstr) : option json :=
  match get_frontmatter_value content $"metadata" with
  | None => Some (JObj [])
  | Some meta_str =>
      match cJSON_Parse meta_str with
      | None => Some (JObj [])
      | Some j =>
          match get_object_item (Some j) $"Primagen" with
          | Some p => cJSON_Duplicate p
          | None => match get_object_item (Some j) $"openclaw" with
                    | Some o => cJSON_Duplicate o
                    | None => Some (JObj [])
                    end
          end
      end
  end.

Section Loader.
Context (env : SkillsEnv) (fs : Fs).

(** ** Requirements *)

Definition is_colon (c : ascii) : bool := bool_decide (c = ":"%char).

Definition command_exists (cmd : cstr) : bool :=
  match se_getenv env $"PATH" with
  | None => false
  | Some path => existsb (fun token => se_executable env (truncate_to 1024 (token ++ $"/" ++ cmd))) (strtok is_colon path)
  end.

(** The first string of an array that does not satisfy [ok]. *)
Definition first_missing (ok : cstr -> bool) (arr : option json) : option cstr :=
  match is_array arr with
  | Some items => List.find (fun s => negb (ok s)) (omap (fun j => is_string (Some j)) items)
  | None => None
  end.

(** Whether the requirements are met, and the reason when they are not. *)
Definition check_requirements (meta : option json) : bool * option cstr :=
  match get_object_item meta $"requires" with
  | None => (true, None)
  | Some requires =>
      match first_missing command_exists (get_object_item (Some requires) $"bins") with
      | Some bin => (false, Some (truncate_to 256 ($"Missing CLI: " ++ bin)))
      | None =>
          match first_missing (fun e => match se_getenv env e with Some _ => true | None => false end)
                  (get_object_item (Some requires) $"env") with
          | Some e => (false, Some (truncate_to 256 ($"Missing ENV: " ++ e)))
          | None => (true, None)
          end
      end
  end.

(** ** Listing *)

Definition skill_file (base_dir name : cstr) : cstr := truncate_to 1024 (base_dir ++ $"/" ++ name ++ $"/SKILL.md").
Definition workspace_skills_dir (loader : SkillsLoader) : cstr := truncate_to 512 (sl_workspace loader ++ $"/skills").

(** [file_exists] and [read_file]; the content ends at the first NUL. *)
Definition file_exists (path : cstr) : bool := fs_exists fs path.
Definition read_file (path : cstr) : option cstr := take_while not_nul <$> fs_read fs path.

Definition skill_name_exists (arr : list cstr) (name : cstr) : bool := existsb (str_eq name) arr.

Definition string_add (arr : list cstr) (name : cstr) : list cstr := if skill_name_exists arr name then arr else arr ++ [name].

Definition add_skill_if_valid_to_array (filter_unavailable : bool) (base_dir : cstr) (arr : list cstr) (name : cstr) : list cstr :=
  let skill_path := skill_file base_dir name in
  if file_exists skill_path then
    if filter_unavailable then
      match read_file skill_path with
      | Some content => if fst (check_requirements (get_skill_meta content)) then string_add arr name else arr
      | None => arr
      end
    else string_add arr name
  else arr.

(** The entries the loops visit: directories that are not hidden. *)
Definition skill_dirs (dir : cstr) : list cstr :=
  omap (fun e => if snd e && negb (bool_decide (head (fst e) = Some "."%char)) then Some (fst e) else None)
    (default [] (se_readdir env dir)).

(** The two passes every listing makes. *)
Definition over_skills {A} (loader : SkillsLoader) (f : cstr -> A -> cstr -> A) (a : A) : A :=
  let ws := workspace_skills_dir loader in
  let a1 := fold_left (f ws) (skill_dirs ws) a in
  match sl_builtin_skills_dir loader with
  | Some dir => fold_left (f dir) (skill_dirs dir) a1
  | None => a1
  end.

Definition skills_loader_list_skills (loader : SkillsLoader) (filter_unavailable : bool) : list cstr :=
  over_skills loader (add_skill_if_valid_to_array filter_unavailable) [].

Definition is_true (j : option json) : bool := match j with Some (JBool true) => true | _ => false end.

Definition check_always_skill (base_dir : cstr) (arr : list cstr) (name : cstr) : list cstr :=
  let skill_path := skill_file base_dir name in
  if file_exists skill_path then
    match read_file skill_path with
    | Some content =>
        let meta := get_skill_meta content in
        if is_true (get_object_item meta $"always") && fst (check_requirements meta) then string_add arr name else arr
    | None => arr
    end
  else arr.

Definition skills_loader_get_always_skills (loader : SkillsLoader) : list cstr := over_skills loader check_always_skill [].

(** ** Reading *)

Definition workspace_skill_path (loader : SkillsLoader) (name : cstr) : cstr :=
  truncate_to 1024 (sl_workspace loader ++ $"/skills/" ++ name ++ $"/SKILL.md").

Definition skills_loader_load_skill (loader : SkillsLoader) (name : cstr) : option cstr :=
  let p := workspace_skill_path loader name in
  if file_exists p then read_file p
  else match sl_builtin_skills_dir loader with
       | Some dir => let q := skill_file dir name in if file_exists q then read_file q else None
       | None => None
       end.

Definition hint_head (where_ : cstr) : cstr :=
  [ch_nl; ch_nl] ++ $"[Execution Path Hint]" ++ [ch_nl] ++ $"Script files in this skill are located at: " ++ where_ ++ [ch_nl].

Definition skills_loader_load_skill_with_path_hints (loader : SkillsLoader) (name : cstr) : option cstr :=
  let p := workspace_skill_path loader name in
  if file_exists p then
    content ← read_file p;
    let skill_dir := truncate_to 1024 (sl_workspace loader ++ $"/skills/" ++ name) in
    Some (content ++ truncate_to 512 (hint_head (skill_dir ++ $"/scripts/") ++
      $"Use relative path from workspace: skills/" ++ name ++ $"/scripts/<script_name>" ++ [ch_nl]))
  else match sl_builtin_skills_dir loader with
       | Some dir =>
           let q := skill_file dir name in
           if file_exists q then
             content ← read_file q;
             Some (content ++ truncate_to 512 (hint_head (dir ++ $"/" ++ name ++ $"/scripts/") ++
               $"Use relative path: skills/" ++ name ++ $"/scripts/<script_name>" ++ [ch_nl]))
           else None
       | None => None
       end.

(** ** The prompt *)

Definition skill_body (content : cstr) : cstr := match frontmatter content with Some (_, body) => body | None => content end.

Definition separator : cstr := [ch_nl; ch_nl] ++ $"---" ++ [ch_nl; ch_nl].
Definition skill_chunk (name content : cstr) : cstr :=
  $"### Skill: " ++ name ++ [ch_nl; ch_nl] ++ skill_body content ++ separator.

(** The buffer after the chunks; each [snprintf] writes what still fits. *)
Fixpoint append_chunks (total_size : nat) (result : cstr) (chunks : list cstr) : cstr :=
  match chunks with
  | [] => result
  | c :: r => append_chunks total_size (result ++ truncate_to (total_size - length result) c) r
  end.

(** The comparison that should remove the last separator. *)
Definition strip_last (result : cstr) : cstr :=
  if Nat.ltb 7 (length result) && str_eq (drop (length result - 7) result) (ch_nl :: $"---" ++ [ch_nl; ch_nl])
  then take (length result - 7) result else result.

Definition skills_loader_load_skills_for_context (loader : SkillsLoader) (skill_names : list cstr) : cstr :=
  match skill_names with
  | [] => []
  | _ =>
      let contents := omap (fun n => (fun c : cstr => (n, c)) <$> skills_loader_load_skill loader n) skill_names in
      let total_size := 1024 + sum_list_with (fun nc => length (snd nc) + 100) contents in
      strip_last (append_chunks total_size [] ((fun nc => skill_chunk (fst nc) (snd nc)) <$> contents))
  end.

(** [snprintf] into the chunk of 2048 bytes; a text that does not fit counts
    as empty. *)
Definition chunk_or_nothing (text : cstr) : cstr := if Nat.ltb (length text) 2048 then text else [].

Definition xml_header (available : bool) (name desc skill_path : cstr) : cstr :=
  $"  <skill available=" ++ [ch_quote] ++ (if available then $"true" else $"false") ++ [ch_quote] ++ $">" ++ [ch_nl] ++
  $"    <name>" ++ escape_xml (Some name) ++ $"</name>" ++ [ch_nl] ++
  $"    <description>" ++ escape_xml (Some desc) ++ $"</description>" ++ [ch_nl] ++
  $"    <location>" ++ skill_path ++ $"</location>" ++ [ch_nl].

Definition xml_end : cstr := $"  </skill>" ++ [ch_nl].

Definition skill_xml (base_dir name : cstr) : option cstr :=
  let skill_path := skill_file base_dir name in
  if file_exists skill_path then
    match read_file skill_path with
    | None => None
    | Some content =>
        let desc := default name (get_frontmatter_value content $"description") in
        let '(available, missing) := check_requirements (get_skill_meta content) in
        Some (chunk_or_nothing (xml_header available name desc skill_path) ++
              match available, missing with
              | false, Some m => chunk_or_nothing ($"    <requires>" ++ escape_xml (Some m) ++ $"</requires>" ++ [ch_nl])
              | _, _ => []
              end ++ xml_end)
    end
  else None.

(** The growing text: its bytes, its block, and the number of skills. *)
Record SkillsSummaryCtx := mkSummary { ss_xml : cstr; ss_cap : N; ss_count : nat }.

(** The doubling of the block; one round per bit of a size is enough. *)
Fixpoint double_to (fuel : nat) (cap need : N) : N :=
  match fuel with
  | 0 => cap
  | S f => if (cap <? need)%N then double_to f (cap * 2) need else cap
  end.

Definition xml_append (ctx : SkillsSummaryCtx) (s : cstr) : SkillsSummaryCtx :=
  match s with
  | [] => ctx
  | _ => let need := (N.of_nat (length (ss_xml ctx)) + N.of_nat (length s) + 1)%N in
         mkSummary (ss_xml ctx ++ s) (double_to 64 (ss_cap ctx) need) (ss_count ctx)
  end.

Definition add_skill_xml (base_dir : cstr) (ctx : SkillsSummaryCtx) (name : cstr) : SkillsSummaryCtx :=
  match skill_xml base_dir name with
  | Some text => let c := xml_append ctx text in mkSummary (ss_xml c) (ss_cap c) (S (ss_count c))
  | None => ctx
  end.

Definition skills_loader_build_skills_summary (loader : SkillsLoader) : cstr :=
  ss_xml (xml_append (over_skills loader add_skill_xml (mkSummary ($"<skills>" ++ [ch_nl]) 16384 0)) $"</skills>").
End Loader.

(** ** Listing is exact *)

Section Listing.
Context (env : SkillsEnv) (fs : Fs).

(** A directory whose skill is listed. *)
Definition listed (filter_unavailable : bool) (dir name : cstr) : Prop :=
  name ∈ skill_dirs env dir /\ file_exists fs (skill_file dir name) = true /\
  (filter_unavailable = true -> exists content, read_file fs (skill_file dir name) = Some content /\
     fst (check_requirements env (get_skill_meta content)) = true).

Lemma skill_name_exists_true arr name : skill_name_exists arr name = true <-> name ∈ arr.
Proof.
  unfold skill_name_exists. rewrite existsb_exists. setoid_rewrite list_elem_of_In. unfold str_eq.
  setoid_rewrite bool_decide_eq_true. naive_solver.
Qed.

Lemma string_add_spec arr name : NoDup arr -> NoDup (string_add arr name) /\ forall n, n ∈ string_add arr name <-> n ∈ arr \/ n = name.
Proof.
  intros Hnd. unfold string_add. destruct (skill_name_exists arr name) eqn:E.
  - apply skill_name_exists_true in E. split; [done|]. naive_solver.
  - assert (name ∉ arr) as Hn by (intros H%skill_name_exists_true; congruence). split.
    + apply NoDup_app. split_and!; [done|intros x Hx ->%list_elem_of_singleton; done|apply NoDup_singleton].
    + intros n. by rewrite elem_of_app, list_elem_of_singleton.
Qed.

(** A step that adds the name when the directory is good keeps the list exact. *)
Lemma fold_exact (f : list cstr -> cstr -> list cstr) (good : cstr -> Prop) names : forall arr,
  (forall a n, NoDup a -> NoDup (f a n) /\ (forall x, x ∈ f a n <-> x ∈ a \/ x = n /\ good n)) -> NoDup arr ->
  NoDup (fold_left f names arr) /\ forall x, x ∈ fold_left f names arr <-> x ∈ arr \/ x ∈ names /\ good x.
Proof.
  induction names as [|n names IH]; intros arr Hf Hnd; cbn [fold_left].
  - split; [done|]. intros x. rewrite elem_of_nil. naive_solver.
  - destruct (Hf arr n Hnd) as [H1 H2]. destruct (IH _ Hf H1) as [I1 I2]. split; [done|].
    intros x. rewrite I2, H2, elem_of_cons. naive_solver.
Qed.

Lemma add_skill_spec filter dir arr name : NoDup arr ->
  NoDup (add_skill_if_valid_to_array env fs filter dir arr name) /\
  forall x, x ∈ add_skill_if_valid_to_array env fs filter dir arr name <->
    x ∈ arr \/ x = name /\ file_exists fs (skill_file dir name) = true /\
      (filter = true -> exists content, read_file fs (skill_file dir name) = Some content /\
         fst (check_requirements env (get_skill_meta content)) = true).
Proof.
  intros Hnd. unfold add_skill_if_valid_to_array. destruct (string_add_spec arr name Hnd) as [H1 H2].
  destruct (file_exists fs (skill_file dir name)); [|naive_solver].
  destruct filter; [|split; [done|]; intros x; rewrite H2; naive_solver].
  destruct (read_file fs (skill_file dir name)) as [content|]; [|naive_solver].
  destruct (fst (check_requirements env (get_skill_meta content))) eqn:E.
  - split; [done|]. intros x. rewrite H2. naive_solver.
  - split; [done|]. intros x. split; [by left|]. intros [Hx|(-> & _ & H)]; [done|].
    destruct (H eq_refl) as (c & [= <-] & Hc). congruence.
Qed.

(** The list of skills has no duplicates and holds exactly the visible
    directories of the workspace and of the built-in skills that have a
    SKILL.md (and, when filtering, whose requirements are met). *)
Theorem skills_list_correct loader filter :
  NoDup (skills_loader_list_skills env fs loader filter) /\
  forall name, name ∈ skills_loader_list_skills env fs loader filter <->
    listed filter (workspace_skills_dir loader) name \/
    exists dir, sl_builtin_skills_dir loader = Some dir /\ listed filter dir name.
Proof.
  unfold skills_loader_list_skills, over_skills, listed.
  destruct (fold_exact _ _ (skill_dirs env (workspace_skills_dir loader)) []
    (add_skill_spec filter (workspace_skills_dir loader)) (NoDup_nil_2)) as [H1 H2].
  destruct (sl_builtin_skills_dir loader) as [dir|].
  - destruct (fold_exact _ _ (skill_dirs env dir) _ (add_skill_spec filter dir) H1) as [I1 I2].
    split; [done|]. intros name. rewrite I2, H2, elem_of_nil. split.
    + intros [[[]|Hn]|Hn]; [by left|right; by exists dir].
    + intros [Hn|(d & [= <-] & Hn)]; [left; by right|by right].
  - split; [done|]. intros name. rewrite H2, elem_of_nil. split.
    + intros [[]|Hn]. by left.
    + intros [Hn|(d & [=] & _)]. by right.
Qed.

Lemma read_file_exists path : file_exists fs path = true -> is_Some (read_file fs path).
Proof. unfold file_exists, fs_exists, read_file, fs_read. intros [t Ht]%bool_decide_eq_true. rewrite Ht. by eexists. Qed.

(** A listed skill can be read, and the workspace has priority: when both
    have a skill of the name, it is the one of the workspace. *)
Theorem skills_listed_loadable loader filter name : length (sl_workspace loader) + 8 < 512 ->
  name ∈ skills_loader_list_skills env fs loader filter ->
  exists content, skills_loader_load_skill fs loader name = Some content /\
    (listed false (workspace_skills_dir loader) name -> read_file fs (skill_file (workspace_skills_dir loader) name) = Some content).
Proof.
  intros Hlen Hin. apply skills_list_correct in Hin.
  assert (workspace_skill_path loader name = skill_file (workspace_skills_dir loader) name) as Hp.
  { unfold workspace_skill_path, skill_file, workspace_skills_dir. rewrite (truncate_to_id 512 (sl_workspace loader ++ $"/skills")) by (rewrite length_app; cbn [length]; cbn; lia).
    by rewrite <-app_assoc. }
  unfold skills_loader_load_skill. rewrite Hp.
  destruct (file_exists fs (skill_file (workspace_skills_dir loader) name)) eqn:E.
  - destruct (read_file_exists _ E) as [content Hc]. exists content. by rewrite Hc.
  - destruct Hin as [(_ & H & _)|(dir & -> & _ & H & _)]; [congruence|]. rewrite H.
    destruct (read_file_exists _ H) as [content Hc]. exists content. split; [done|]. intros (_ & H' & _). congruence.
Qed.
End Listing.

(** ** The front matter is read back *)

Lemma strstr_cons a s p : strstr (a :: s) p = if starts_with p (a :: s) then Some 0 else S <$> strstr s p.
Proof. by destruct p. Qed.

(** The search for the closing fence skips a line at a time. *)
Lemma strstr_end_fence l rest : (ch_nl ∉ l) ->
  strstr (l ++ ch_nl :: rest) end_fence =
    if starts_with fence rest then Some (length l) else (fun k => S (length l + k)) <$> strstr rest end_fence.
Proof.
  induction l as [|c l IH].
  - intros _. cbn [app length]. rewrite strstr_cons. change (starts_with end_fence (ch_nl :: rest)) with (starts_with fence rest).
    destruct (starts_with fence rest); [done|]. by destruct (strstr rest end_fence).
  - intros [Hc Hl]%not_elem_of_cons. cbn [app]. rewrite strstr_cons.
    assert (starts_with end_fence (c :: l ++ ch_nl :: rest) = false) as ->.
    { unfold end_fence. cbn [starts_with]. rewrite bool_decide_false by done. done. }
    rewrite IH by done. destruct (starts_with fence rest); [done|]. by destruct (strstr rest end_fence).
Qed.

Lemma starts_fence l rest : (ch_nl ∉ l) -> l <> $"---" -> starts_with fence (l ++ ch_nl :: rest) = false.
Proof.
  intros Hl Hne. destruct (starts_with _ _) eqn:E; [|done]. apply starts_with_true in E as [r E]. exfalso.
  apply (f_equal (take_while (fun c => negb (bool_decide (c = ch_nl))))) in E.
  assert (forall s t, (ch_nl ∉ s) -> take_while (fun c => negb (bool_decide (c = ch_nl))) (s ++ ch_nl :: t) = s) as Hs.
  { induction s as [|c s IH]; intros t; cbn; [by rewrite bool_decide_true by done|].
    intros [H1 H2]%not_elem_of_cons. rewrite bool_decide_false by congruence. cbn. by rewrite IH. }
  rewrite Hs in E by done. apply Hne. rewrite E. unfold fence. rewrite <-app_assoc. by apply Hs, (bool_decide_unpack _).
Qed.

Definition line_ok (l : cstr) : Prop := (ch_nl ∉ l) /\ l <> $"---".

(** The lines of a header, each with its newline. *)
Definition unlines (ls : list cstr) : cstr := ls ≫= fun l => l ++ [ch_nl].

Lemma end_fence_at ls body : ls <> [] -> Forall line_ok ls ->
  strstr (unlines ls ++ fence ++ body) end_fence = Some (length (unlines ls) - 1).
Proof.
  intros Hne Hok. induction Hok as [|l ls [Hnl Hf] Hok IH]; [done|]. unfold unlines. cbn [mbind list_bind].
  fold (unlines ls). rewrite <-!app_assoc. cbn [app]. rewrite strstr_end_fence by done.
  destruct ls as [|l2 ls].
  - cbn [unlines mbind list_bind app]. rewrite starts_with_app. f_equal. rewrite length_app. cbn. lia.
  - rewrite IH by done. inversion Hok as [|? ? [Hnl2 Hf2] _]; subst.
    assert (starts_with fence (unlines (l2 :: ls) ++ fence ++ body) = false) as ->.
    { unfold unlines. cbn [mbind list_bind]. rewrite <-!app_assoc. cbn [app]. by apply starts_fence. }
    cbn [fmap option_fmap option_map]. f_equal. rewrite length_app.
    assert (1 <= length (unlines (l2 :: ls))) by (unfold unlines; cbn [mbind list_bind]; rewrite !length_app; cbn; lia).
    cbn [app length]. lia.
Qed.

Lemma lines_from_line l : forall cur s, (ch_nl ∉ l) -> lines_from cur (l ++ ch_nl :: s) = (rev cur ++ l) :: lines_from [] s.
Proof.
  induction l as [|c l IH]; intros cur s; cbn [app lines_from]; [rewrite bool_decide_true by done; by rewrite app_nil_r|].
  intros [Hc Hl]%not_elem_of_cons. rewrite bool_decide_false by congruence. rewrite IH by done. cbn [rev]. by rewrite <-app_assoc.
Qed.

(** The last line may lack its newline. *)
Lemma text_lines_unlines ls : Forall line_ok ls -> (forall l, last ls = Some l -> l <> []) ->
  text_lines (take (length (unlines ls) - 1) (unlines ls)) = ls.
Proof.
  intros Hok. unfold text_lines. induction Hok as [|l ls [Hnl Hf] Hok IH]; intros Hlast; [done|].
  unfold unlines. cbn [mbind list_bind]. fold (unlines ls). destruct ls as [|l2 ls].
  - cbn [unlines mbind list_bind app]. rewrite app_nil_r, length_app. cbn [length].
    replace (length l + 1 - 1) with (length l) by lia. rewrite take_app_length. specialize (Hlast l eq_refl). clear -Hnl Hlast.
    assert (forall s cur, (ch_nl ∉ s) -> lines_from cur s = match rev cur ++ s with [] => [] | _ => [rev cur ++ s] end) as H.
    { induction s as [|c s IH]; intros cur; cbn [lines_from].
      - intros _. rewrite app_nil_r. destruct cur as [|c cur]; [done|]. cbn [rev]. by destruct (rev cur).
      - intros [Hc Hs]%not_elem_of_cons. rewrite bool_decide_false by congruence. rewrite IH by done.
        cbn [rev]. rewrite <-app_assoc. done. }
    rewrite H by done. by destruct l.
  - rewrite length_app. assert (1 <= length (unlines (l2 :: ls))) as H1 by (unfold unlines; cbn [mbind list_bind]; rewrite !length_app; cbn; lia).
    replace (length (l ++ [ch_nl]) + length (unlines (l2 :: ls)) - 1)
      with (length (l ++ [ch_nl]) + (length (unlines (l2 :: ls)) - 1)) by lia.
    rewrite take_app_add, <-app_assoc. cbn [app]. rewrite lines_from_line by done. f_equal.
    apply IH. intros l' Hl'. apply Hlast. by rewrite last_cons_cons.
Qed.

Lemma frontmatter_unlines ls body : ls <> [] -> Forall line_ok ls ->
  frontmatter (fence ++ unlines ls ++ fence ++ body) = Some (take (length (unlines ls) - 1) (unlines ls), body).
Proof.
  intros Hne Hok. unfold frontmatter. rewrite starts_with_app. change (drop 4 (fence ++ ?t)) with t.
  rewrite end_fence_at by done. assert (1 <= length (unlines ls)) as H1.
  { destruct ls as [|l ls]; [done|]. unfold unlines. cbn [mbind list_bind]. rewrite !length_app. cbn. lia. }
  rewrite take_app_le by lia. f_equal. f_equal. replace (length (unlines ls) - 1 + 5) with (length (unlines ls) + 4) by lia.
  by rewrite drop_app_add.
Qed.

Lemma unquote_quoted v : unquote (ch_quote :: v ++ [ch_quote]) = v.
Proof.
  assert (last (ch_quote :: v ++ [ch_quote]) = Some ch_quote) as Hl by exact (last_snoc ch_quote (ch_quote :: v)).
  unfold unquote, quoted_by. rewrite Hl. cbn [head length]. rewrite length_app. cbn [length].
  assert (Nat.leb 2 (S (length v + 1)) = true) as -> by (apply Nat.leb_le; lia).
  rewrite !bool_decide_true by done. cbn [andb orb drop].
  replace (S (length v + 1) - 2) with (length v) by lia. rewrite drop_0; by rewrite take_app_length.
Qed.

Lemma find_value_first key v blanks pre post :
  Forall (fun l => starts_with (key ++ $":") l = false) pre -> Forall (fun c => is_blank c = true) blanks ->
  match v with c :: _ => is_blank c = false | [] => True end ->
  find_value key (pre ++ (key ++ $":" ++ blanks ++ v) :: post) = Some (unquote v).
Proof.
  intros Hpre Hbl Hv. induction Hpre as [|l pre Hl _ IH]; cbn [app find_value]; [|by rewrite Hl].
  rewrite (app_assoc key), starts_with_app. f_equal. f_equal.
  replace (length key + 1) with (length (key ++ $":")) by (rewrite length_app; done). rewrite drop_app_length.
  induction Hbl as [|c bl Hc _ IHb]; cbn [app drop_while]; [|by rewrite Hc]. destruct v as [|c v]; [done|]. cbn. by rewrite Hv.
Qed.

(** The front matter is read back: of a header of [key: value] lines
    between two fences, the value of a key is the one on its first line,
    without the blanks before it and without its quotes, and the body of the
    skill is exactly what follows the header. *)
Theorem skill_frontmatter_roundtrip key v written blanks pre post body :
  let ls := pre ++ (key ++ $":" ++ blanks ++ written) :: post in
  Forall line_ok ls -> (forall l, last ls = Some l -> l <> []) ->
  Forall (fun l => starts_with (key ++ $":") l = false) pre -> Forall (fun c => is_blank c = true) blanks ->
  (written = ch_quote :: v ++ [ch_quote] \/
   written = v /\ unquote v = v /\ match v with c :: _ => is_blank c = false | [] => True end) ->
  let content := fence ++ unlines ls ++ fence ++ body in
  get_frontmatter_value content key = Some v /\ skill_body content = body.
Proof.
  intros ls Hok Hlast Hpre Hbl Hw content.
  assert (ls <> []) as Hne by (unfold ls; by destruct pre).
  unfold get_frontmatter_value, skill_body, content. rewrite frontmatter_unlines by done. split; [|done].
  rewrite text_lines_unlines by done. unfold ls. rewrite find_value_first by (done || (destruct Hw as [->|(-> & _ & ?)]; done)).
  f_equal. destruct Hw as [->|(-> & ? & _)]; [apply unquote_quoted|done].
Qed.

(** The separator after the last skill of the prompt is never removed: the
    comparison takes seven bytes against six. *)
Theorem skills_context_keeps_separator result : strip_last result = result.
Proof.
  unfold strip_last. destruct (Nat.ltb_spec 7 (length result)) as [H|H]; [|done]. unfold str_eq.
  rewrite bool_decide_false; [done|]. intros E. apply (f_equal length) in E. rewrite length_drop in E. cbn in E. lia.
Qed.

(** The block of the summary always holds the text and its terminator. *)
Lemma double_to_enough fuel : forall cap need, (need <= cap * 2 ^ N.of_nat fuel)%N -> (need <= double_to fuel cap need)%N.
Proof.
  induction fuel as [|f IH]; intros cap need H; cbn [double_to]; [change (2 ^ N.of_nat 0)%N with 1%N in H; lia|].
  destruct (N.ltb_spec cap need); [|done]. apply IH. rewrite Nat2N.inj_succ, N.pow_succ_r in H by lia. lia.
Qed.

(** ** Witnesses *)

Definition skill_text : cstr := unlines [$"---"; $"name: tea"; $"description:  makes tea"; $"---"] ++ $"Boil water.".
Definition skills_env : SkillsEnv :=
  mkSkillsEnv (fun d => if str_eq d $"/w/skills" then Some [($".git", true); ($"tea", true); ($"notes.txt", false)] else None)
    (fun _ => None) (fun _ => false).
Definition skills_fs : Fs := mkFs {[ $"/w/skills/tea/SKILL.md" := skill_text ]} (fun _ => true) (fun _ _ => true).
Definition skills_loader : SkillsLoader := skills_loader_create $"/w".

Lemma skills_listed_loadable_witness :
  exists content, skills_loader_load_skill skills_fs skills_loader $"tea" = Some content /\
    (listed skills_env skills_fs false (workspace_skills_dir skills_loader) $"tea" ->
     read_file skills_fs (skill_file (workspace_skills_dir skills_loader) $"tea") = Some content).
Proof.
  apply (skills_listed_loadable skills_env skills_fs skills_loader true $"tea"); [apply Nat.ltb_lt; by vm_compute|].
  assert (skills_loader_list_skills skills_env skills_fs skills_loader true = [$"tea"]) as -> by by vm_compute.
  by apply list_elem_of_singleton.
Defined.

Lemma skill_frontmatter_roundtrip_witness :
  get_frontmatter_value skill_text $"description" = Some $"makes tea" /\ skill_body skill_text = $"Boil water.".
Proof.
  apply (skill_frontmatter_roundtrip $"description" $"makes tea" $"makes tea" $"  " [$"name: tea"] [] $"Boil water.").
  - repeat constructor; (split; [by apply (bool_decide_unpack _)|done]) || (by apply (bool_decide_unpack _)) || done.
  - by intros l [= <-].
  - by repeat constructor.
  - by repeat constructor.
  - by right.
Defined.
