(* ===== verification/Reminder.v ===== *)
(** [src/agent/reminder_parser.c]: the parser that recognises simple reminder
    requests ("in 5 minutes remind me ...") when the model called no tool. *)
From S2P Require Import Prelude CStr.

Record ReminderParseResult := mkReminder {
  r_valid : bool;
  r_delay_seconds : Z;
  r_payload : cstr;
  r_name : cstr;
}.

Definition reminder_none : ReminderParseResult := mkReminder false 0 [] [].

Definition text_contains_any (text : cstr) (needles : list cstr) : bool :=
  existsb (fun n => bool_decide (is_Some (strstr text n))) needles.

(** The loop of [sanitize_job_name]; [n] bytes are already written. *)
Fixpoint name_loop (n out_size : nat) (payload : cstr) : cstr :=
  match payload with
  | [] => []
  | c :: rest =>
      if Nat.ltb (n + 1) out_size && Nat.ltb n 72 then
        if isalnum c then tolower c :: name_loop (n + 1) out_size rest
        else if bool_decide (c = " "%char) || bool_decide (c = "-"%char) || bool_decide (c = "_"%char)
        then "-"%char :: name_loop (n + 1) out_size rest
        else name_loop n out_size rest
      else []
  end.

Definition is_dash (c : ascii) : bool := bool_decide (c = "-"%char).

(** [sanitize_job_name]; an empty buffer is left alone. *)
Definition sanitize_job_name (payload : cstr) (out_size : nat) : cstr :=
  let prefix := take (out_size - 1) $"reminder" in
  let n := length prefix in
  drop_tail is_dash
    (prefix ++ match payload with
               | [] => []
               | _ => if Nat.ltb (n + 1) out_size then "-"%char :: name_loop (n + 1) out_size payload else []
               end).

Definition is_gap (c : ascii) : bool :=
  bool_decide (c = " "%char) || bool_decide (c = ch_tab) || bool_decide (c = ":"%char) ||
  bool_decide (c = ","%char) || bool_decide (c = "."%char).

Definition skip_ascii_space (p : cstr) : cstr :=
  let p := drop_while is_gap p in
  if starts_with $"。" p then drop (length $"。") p else p.

(** The seconds of the unit at the start of [q]; 0 when there is none. *)
Definition unit_seconds (q : cstr) : Z :=
  if starts_with $"秒" q || starts_with $"second" q || starts_with $"sec" q then 1
  else if starts_with $"分钟" q || starts_with $"分" q || starts_with $"minute" q || starts_with $"min" q then 60
  else if starts_with $"小时" q || starts_with $"hour" q then 3600
  else 0.

Definition MAX_AMOUNT : Z := (365 * 24 * 3600)%Z.

(** What the scan of the text found. *)
Inductive scan_result :=
  | ScanRefused                                             (* a number out of range *)
  | ScanNone                                                (* no number with a unit *)
  | ScanFound (value : Z) (unit_pos : nat) (after_unit : cstr).

(** The text after the unit: after the word for "later" if it is near, else
    after the word the unit belongs to. *)
Definition after_unit_text (q : cstr) : cstr :=
  match strstr q $"后" with
  | Some i => if Nat.ltb i 16 then drop (i + length $"后") q
              else drop_while (fun c => negb (isspace c)) q
  | None => drop_while (fun c => negb (isspace c)) q
  end.

(** The loop over the text; [pos] is the offset of [p]. Each round consumes a
    byte, so the length of the text is enough fuel. *)
Fixpoint scan (fuel pos : nat) (p : cstr) : scan_result :=
  match fuel with
  | 0 => ScanNone
  | S f =>
      match p with
      | [] => ScanNone
      | c :: p' =>
          if isdigit c then
            let '(parsed, rest) := strtol p in
            if (parsed <=? 0)%Z || (MAX_AMOUNT <? parsed)%Z then ScanRefused
            else
              let q := skip_ascii_space rest in
              let multiplier := unit_seconds q in
              if (0 <? multiplier)%Z
              then ScanFound (wrap_s 32 (parsed * multiplier)) pos (after_unit_text q)
              else scan f (pos + (length p - length rest)) rest
          else scan f (pos + 1) p'
      end
  end.

(** [payload_start] when the word for "remind" comes after the unit. *)
Definition after_remind (p : cstr) : cstr :=
  if starts_with $"提醒我" p then drop (length $"提醒我") p
  else if starts_with $"提醒" p then drop (length $"提醒") p
  else if starts_with $"remind me" p then drop 9 p
  else if starts_with $"remind" p then drop 6 p
  else p.

Definition is_final (c : ascii) : bool :=
  bool_decide (c = "."%char) || bool_decide (c = "!"%char) || bool_decide (c = "?"%char) ||
  bool_decide (c = ch_nl) || bool_decide (c = ch_cr).

Definition first_some {A} (x y : option A) : option A := match x with Some _ => x | None => y end.

Definition reminder_parse_simple (text : cstr) : ReminderParseResult :=
  match text with
  | [] => reminder_none
  | _ =>
      if negb (text_contains_any text [$"提醒"; $"remind"; $"提醒我"]) ||
         negb (text_contains_any text [$"后"; $"in "]) then reminder_none
      else
        match scan (length text) 0 text with
        | ScanRefused | ScanNone => reminder_none
        | ScanFound value unit_pos after_unit =>
            if (value <=? 0)%Z then reminder_none
            else
              let reminder_pos :=
                first_some (strstr text $"提醒我") (first_some (strstr text $"提醒") (strstr text $"remind")) in
              let start :=
                match reminder_pos with
                | Some p => if Nat.ltb unit_pos p then after_remind (drop p text) else after_unit
                | None => after_unit
                end in
              let payload_start := match skip_ascii_space start with [] => $"该做提醒事项了" | s => s end in
              let payload := drop_tail is_final (truncate_to 512 ($"提醒用户：" ++ payload_start)) in
              {| r_valid := true; r_delay_seconds := value; r_payload := payload;
                 r_name := sanitize_job_name payload 128 |}
        end
  end.

Definition reminder_should_fallback_schedule (turn pending_tool_count : Z) : bool :=
  (turn <=? 1)%Z && (pending_tool_count =? 0)%Z.

(** ** Facts *)

Definition job_name_char (c : ascii) : bool := isdigit c || in_range 97 122 c || is_dash c.

Lemma tolower_alnum c : isalnum c = true -> job_name_char (tolower c) = true.
Proof. destruct c as [[] [] [] [] [] [] [] []]; vm_compute; done. Qed.

Lemma name_loop_ok n out_size p :
  Forall (fun c => job_name_char c = true) (name_loop n out_size p) /\
  n + length (name_loop n out_size p) <= Nat.max n (out_size - 1).
Proof.
  revert n. induction p as [|c p IH]; intros n; cbn [name_loop]; [split; [constructor|cbn; lia]|].
  destruct (Nat.ltb (n + 1) out_size && Nat.ltb n 72) eqn:E; [|split; [constructor|cbn; lia]].
  apply andb_prop in E as [H1%Nat.ltb_lt _]. destruct (IH (n + 1)) as [Ha Hb].
  destruct (isalnum c) eqn:Ec;
    [|destruct (bool_decide (c = " "%char) || bool_decide (c = "-"%char) || bool_decide (c = "_"%char))].
  - split; [constructor; [by apply tolower_alnum|done]|cbn [length]; lia].
  - split; [by constructor|cbn [length]; lia].
  - apply IH.
Qed.

(** The job name: lower-case letters, digits and dashes, within the buffer,
    not ending in a dash. *)
Lemma sanitize_job_name_ok payload out_size : 1 <= out_size ->
  Forall (fun c => job_name_char c = true) (sanitize_job_name payload out_size) /\
  length (sanitize_job_name payload out_size) < out_size /\
  forall r c, sanitize_job_name payload out_size = r ++ [c] -> is_dash c = false.
Proof.
  intros Hsize. unfold sanitize_job_name. set (prefix := take (out_size - 1) $"reminder").
  assert (Hp : Forall (fun c => job_name_char c = true) prefix /\ length prefix <= out_size - 1).
  { split; [apply Forall_take; by repeat constructor|unfold prefix; rewrite length_take; lia]. }
  set (body := prefix ++ _).
  assert (Hb : Forall (fun c => job_name_char c = true) body /\ length body < out_size).
  { unfold body. destruct payload as [|c p]; [rewrite app_nil_r; split; [apply Hp|destruct Hp; lia]|].
    destruct (Nat.ltb_spec (length prefix + 1) out_size); [|rewrite app_nil_r; split; [apply Hp|destruct Hp; lia]].
    destruct (name_loop_ok (length prefix + 1) out_size (c :: p)) as [Ha Hl]. split.
    - apply Forall_app. split; [apply Hp|by constructor].
    - rewrite length_app. cbn [length]. lia. }
  clearbody body. destruct (drop_tail_prefix is_dash body) as (l & Hl & _). split_and!.
  - destruct Hb as [Hb _]. rewrite Hl in Hb. by apply Forall_app in Hb as [? _].
  - destruct Hb as [_ Hb]. apply (f_equal length) in Hl. rewrite length_app in Hl. lia.
  - intros r c. apply drop_tail_last.
Qed.

Lemma scan_found fuel pos p v u a : scan fuel pos p = ScanFound v u a ->
  exists n m, (0 < n <= MAX_AMOUNT)%Z /\ (m = 1 \/ m = 60 \/ m = 3600)%Z /\ v = wrap_s 32 (n * m).
Proof.
  revert pos p. induction fuel as [|f IH]; intros pos p; cbn [scan]; [done|].
  destruct p as [|c p]; [done|]. destruct (isdigit c); [|apply IH].
  destruct (strtol (c :: p)) as [n rest]. destruct ((n <=? 0)%Z || (MAX_AMOUNT <? n)%Z) eqn:En; [done|].
  apply orb_false_elim in En as [H1%Z.leb_gt H2%Z.ltb_ge].
  destruct (0 <? unit_seconds (skip_ascii_space rest))%Z eqn:Em; [|apply IH].
  intros [= <- <- <-]. exists n, (unit_seconds (skip_ascii_space rest)). split; [lia|]. split; [|done].
  unfold unit_seconds in *. repeat (destruct (_ || _); [auto|]). done.
Qed.

(** A recognised reminder has a positive delay; the delay is the amount
    of the text times its unit whenever that product fits 31 bits, and wraps
    around otherwise; payload and job name fit their buffers and the name is
    made of lower-case letters, digits and dashes. *)
Theorem reminder_parse_simple_sound text r :
  reminder_parse_simple text = r -> r_valid r = true ->
  (0 < r_delay_seconds r <= INT_MAX)%Z /\
  (exists n m, (0 < n <= MAX_AMOUNT)%Z /\ (m = 1 \/ m = 60 \/ m = 3600)%Z /\
     r_delay_seconds r = wrap_s 32 (n * m) /\ ((n * m <= INT_MAX)%Z -> r_delay_seconds r = (n * m)%Z)) /\
  length (r_payload r) < 512 /\ length (r_name r) < 128 /\
  Forall (fun c => job_name_char c = true) (r_name r).
Proof.
  intros <-. unfold reminder_parse_simple. destruct text as [|c t]; [done|].
  destruct (negb _ || negb _); [done|]. destruct (scan _ 0 (c :: t)) as [| |v u a] eqn:Es; [done..|].
  destruct (Z.leb_spec v 0); [done|]. intros _. cbn [r_delay_seconds r_payload r_name].
  destruct (scan_found _ _ _ _ _ _ Es) as (n & m & Hn & Hm & Hv).
  match goal with |- context [sanitize_job_name ?p 128] =>
    destruct (sanitize_job_name_ok p 128) as (Ha & Hb & _); [lia|] end.
  split_and!; [lia| | | |done|done].
  - rewrite Hv. unfold wrap_s, INT_MAX. pose proof (Z.mod_pos_bound (n * m + 2 ^ (32 - 1)) (2 ^ 32)).
    change (2 ^ (32 - 1))%Z with (2 ^ 31)%Z in *. lia.
  - exists n, m. split_and!; [lia..|done|done|]. intros Hfit. rewrite Hv. apply wrap_s_id; [lia|].
    unfold INT_MAX in Hfit. nia.
  - match goal with |- length (drop_tail is_final ?x) < 512 =>
      destruct (drop_tail_prefix is_final x) as (l & Hl & _); apply (f_equal length) in Hl;
      rewrite length_app, truncate_to_length in Hl end. lia.
Qed.

Definition demo_request : cstr := $"in 5 minutes remind me to stretch.".

Lemma reminder_parse_simple_sound_witness :
  let r := reminder_parse_simple demo_request in
  (0 < r_delay_seconds r <= INT_MAX)%Z /\
  (exists n m, (0 < n <= MAX_AMOUNT)%Z /\ (m = 1 \/ m = 60 \/ m = 3600)%Z /\
     r_delay_seconds r = wrap_s 32 (n * m) /\ ((n * m <= INT_MAX)%Z -> r_delay_seconds r = (n * m)%Z)) /\
  length (r_payload r) < 512 /\ length (r_name r) < 128 /\
  Forall (fun c => job_name_char c = true) (r_name r).
Proof. apply (reminder_parse_simple_sound demo_request); [done|by vm_compute]. Defined.

(** The bound on the amount is checked before the unit is applied: a
    request for 1193047 hours (more than a century) is accepted and scheduled
    half an hour from now, because the product wraps around 32 bits. *)
Theorem reminder_delay_wraps :
  let r := reminder_parse_simple $"in 1193047 hours remind me to retire" in
  r_valid r = true /\ r_delay_seconds r = 1904%Z /\ (1193047 * 3600 = 4294969200)%Z.
Proof. split_and!; by vm_compute. Qed.

Example demo_request_parsed : reminder_parse_simple demo_request =
  mkReminder true 300 $"提醒用户：to stretch" $"reminder-to-stretch".
Proof. vm_compute. reflexivity. Qed.
