(* ===== verification/Mongoose.v ===== *)
(** [src/vendor/mongoose/mongoose.c]: what the HTTP channels use of the vendored
    library to take a request apart: patterns of paths, variables of queries,
    headers. Its connections are not modelled; a request is a record. *)
From S2P Require Import Prelude CStr Json.

Record HttpMessage := mkHttp {
  hm_method : cstr;
  hm_uri : cstr;
  hm_query : cstr;
  hm_headers : list (cstr * cstr);
  hm_body : cstr;
}.

(** ** Patterns *)

Definition is_wild (c : ascii) : bool := bool_decide (c = "*"%char) || bool_decide (c = "#"%char).

(** The loop of [mg_match], without captures. [ni] and [nj] are where it goes
    on from when the text after a wild card does not match. *)
Fixpoint match_loop (fuel : nat) (s p : cstr) (i j ni nj : nat) : bool :=
  match fuel with
  | 0 => false
  | S f =>
      if Nat.ltb i (length p) || Nat.ltb j (length s) then
        let back :=
          if Nat.ltb 0 nj && Nat.leb nj (length s) && (bool_decide (p !! ni = Some "#"%char) || negb (bool_decide (s !! j = Some "/"%char)))
          then match_loop f s p ni nj ni nj else false in
        match p !! i with
        | None => back
        | Some c =>
            if match s !! j with Some d => bool_decide (c = "?"%char) || (negb (is_wild c) && bool_decide (d = c)) | None => false end
            then match_loop f s p (i + 1) (j + 1) ni nj
            else if is_wild c then match_loop f s p (i + 1) j i (j + 1)
            else back
        end
      else true
  end.

(** A restart moves [nj] on, and between two restarts [i] moves on. *)
Definition mg_match (s p : cstr) : bool := match_loop ((length s + 2) * (length p + 2)) s p 0 0 0 0.

(** ** Variables *)

Fixpoint split_on (sep : ascii) (s : cstr) : list cstr :=
  match s with
  | [] => [[]]
  | c :: r =>
      if bool_decide (c = sep) then [] :: split_on sep r
      else match split_on sep r with [] => [[c]] | x :: l => (c :: x) :: l end
  end.

(** [mg_span] of an entry that is not empty: its name and its value. *)
Definition entry_name (e : cstr) : cstr := take_while (fun c => negb (bool_decide (c = "="%char))) e.
Definition entry_value (e : cstr) : cstr := drop 1 (drop_while (fun c => negb (bool_decide (c = "="%char))) e).

Definition mg_http_var (buf name : cstr) : option cstr :=
  entry_value <$> List.find (fun e => negb (bool_decide (e = [])) && strcasecmp_eq name (entry_name e)) (split_on "&"%char buf).

Fixpoint url_decode (room : nat) (form : bool) (src : cstr) : option cstr :=
  match src with
  | [] => Some []
  | c :: r =>
      match room with
      | 0 => None
      | S room' =>
          if bool_decide (c = "%"%char) then
            match r with
            | a :: b :: r' =>
                match hex_value a, hex_value b with
                | Some x, Some y => cons (ascii_of_N (x * 16 + y)) <$> url_decode room' form r'
                | _, _ => None
                end
            | _ => None
            end
          else cons (if form && bool_decide (c = "+"%char) then " "%char else c) <$> url_decode room' form r
      end
  end.

(** Into a destination of [dst_len] bytes, [None] for a negative result. *)
Definition mg_url_decode (src : cstr) (dst_len : nat) (is_form_url_encoded : bool) : option cstr :=
  url_decode (dst_len - 1) is_form_url_encoded src.

(** The result, and the string in the destination when it is not negative. *)
Definition mg_http_get_var (buf name : cstr) (dst_len : nat) : Z * cstr :=
  match buf with
  | [] => ((-1)%Z, [])
  | _ => match mg_http_var buf name with
         | None => ((-4)%Z, [])
         | Some v => match mg_url_decode v dst_len true with
                     | None => ((-3)%Z, [])
                     | Some d => (Z.of_nat (length d), take_while not_nul d)
                     end
         end
  end.

Definition mg_http_get_header (h : HttpMessage) (name : cstr) : option cstr :=
  snd <$> List.find (fun kv => strcasecmp_eq (fst kv) name) (take 30 (hm_headers h)).

(** ** Paths without wild cards *)

Definition is_literal (p : cstr) : bool := forallb (fun c => negb (is_wild c) && negb (bool_decide (c = "?"%char))) p.

Lemma match_literal s p : is_literal p = true -> forall k fuel, take k s = take k p -> k <= length s -> k <= length p ->
  length p - k < fuel -> match_loop fuel s p k k 0 0 = str_eq s p.
Proof.
  intros Hp. assert (Hl : forall i c, p !! i = Some c -> is_wild c = false /\ bool_decide (c = "?"%char) = false).
  { intros i c Hi. unfold is_literal in Hp. rewrite forallb_forall in Hp.
    specialize (Hp c (proj1 (list_elem_of_In _ _) (list_elem_of_lookup_2 _ _ _ Hi))). apply andb_prop in Hp as [H1 H2].
    split; [by destruct (is_wild c)|by destruct (bool_decide _)]. }
  intros k fuel. revert k. induction fuel as [|f IH]; intros k Ht Hs Hk Hf; [lia|]. cbn [match_loop].
  destruct (Nat.ltb k (length p) || Nat.ltb k (length s)) eqn:E.
  - destruct (p !! k) as [c|] eqn:Ep.
    + destruct (Hl _ _ Ep) as [Hw Hq]. rewrite Hw, Hq. cbn [negb andb orb Nat.ltb Nat.leb].
      pose proof (lookup_lt_Some _ _ _ Ep) as Hkp. destruct (s !! k) as [d|] eqn:Es.
      * pose proof (lookup_lt_Some _ _ _ Es) as Hks. destruct (decide (d = c)) as [->|Hd].
        -- rewrite (bool_decide_eq_true_2 (c = c)) by done. rewrite Nat.add_1_r. apply IH; [|lia..]. by rewrite (take_S_r s k c), (take_S_r p k c), Ht.
        -- rewrite (bool_decide_eq_false_2 (d = c)) by done. symmetry. apply bool_decide_eq_false. intros ->. congruence.
      * symmetry. apply bool_decide_eq_false. intros ->. congruence.
    + symmetry. apply bool_decide_eq_false. intros ->. apply lookup_ge_None in Ep. apply orb_true_iff in E as [E|E]; apply Nat.ltb_lt in E; lia.
  - apply orb_false_iff in E as [E1%Nat.ltb_ge E2%Nat.ltb_ge]. rewrite !take_ge in Ht by lia. subst. symmetry. by apply bool_decide_eq_true.
Qed.

Lemma mg_match_literal s p : is_literal p = true -> mg_match s p = str_eq s p.
Proof. intros Hp. apply match_literal; [done|done|lia|lia|nia]. Qed.

(** ** Encoded variables *)

Definition is_url_safe (c : ascii) : bool := isalnum c || bool_decide (c ∈ ["."; "_"; "-"; "~"]%char).
Definition url_encode_char (c : ascii) : cstr :=
  if is_url_safe c then [c] else ["%"%char; digit_char false (code c / 16); digit_char false (code c mod 16)].
Definition mg_url_encode (s : cstr) : cstr := s ≫= url_encode_char.

Lemma url_char_back c room form r : url_decode (S room) form (url_encode_char c ++ r) = cons c <$> url_decode room form r.
Proof.
  unfold url_encode_char. destruct (is_url_safe c) eqn:E.
  - cbn [app url_decode]. rewrite bool_decide_eq_false_2 by (intros ->; by vm_compute in E).
    rewrite (bool_decide_eq_false_2 (c = "+"%char)) by (intros ->; by vm_compute in E). by rewrite andb_false_r.
  - clear E. cbn [app url_decode]. rewrite bool_decide_eq_true_2 by done.
    destruct c as [[] [] [] [] [] [] [] []]; reflexivity.
Qed.

(** A variable is read back as it was encoded, if it fits. *)
Lemma url_decode_encode s : forall room, length s <= room -> url_decode room true (mg_url_encode s) = Some s.
Proof.
  induction s as [|c s IH]; intros room Hr; [by destruct room|]. destruct room as [|room]; [cbn in Hr; lia|].
  unfold mg_url_encode. rewrite bind_cons, url_char_back. fold (mg_url_encode s). rewrite IH; [done|]. cbn in Hr. lia.
Qed.
