(* ===== verification/MongooseHttp.v ===== *)
(** [src/vendor/mongoose/mongoose.c]: HTTP on a connection. The parser of a
    request or response, and [http_cb], the handler that turns what arrives on
    a connection into messages for the handler of the program. Here the
    connection is that of a client, which waits for a response. *)
From S2P Require Import Prelude CStr Mongoose.
Open Scope nat_scope.

(** ** The head of a message *)

Definition isok (c : ascii) : bool := bool_decide (c = ch_nl) || bool_decide (c = ch_cr) || bool_decide (c = ch_tab) || (32 <=? code c)%N.

(** [mg_http_get_request_len] from the index [i]; [p1] and [p2] are the bytes
    before. The length of the head, 0 when it is not complete, or -1. *)
Fixpoint request_len_from (i : nat) (p1 p2 : option ascii) (s : cstr) : Z :=
  match s with
  | [] => 0
  | c :: r =>
      if negb (isok c) then -1
      else if (Nat.ltb 0 i && bool_decide (c = ch_nl) && bool_decide (p1 = Some ch_nl)) ||
              (Nat.ltb 3 i && bool_decide (c = ch_nl) && bool_decide (p1 = Some ch_cr) && bool_decide (p2 = Some ch_nl))
      then Z.of_nat i + 1
      else request_len_from (S i) (Some c) p1 r
  end.
Definition mg_http_get_request_len (s : cstr) : Z := request_len_from 0 None None s.

Definition vcb (c : option ascii) : bool := match c with Some c => (N.land (code c) 192 =? 128)%N | None => false end.

(** The length of the character [s] starts with, 0 if it is not printable. *)
Definition clen (s : cstr) : nat :=
  match s with
  | [] => 0
  | c :: r =>
      if (32 <? code c)%N && (code c <=? 126)%N then 1
      else if (N.land (code c) 224 =? 192)%N && vcb (r !! 0) then 2
      else if (N.land (code c) 240 =? 224)%N && vcb (r !! 0) && vcb (r !! 1) then 3
      else if (N.land (code c) 248 =? 240)%N && vcb (r !! 0) && vcb (r !! 1) && vcb (r !! 2) then 4
      else 0
  end.

(** The loops over characters, up to [stop]: what they pass over, and the rest. *)
Fixpoint take_chars (fuel : nat) (stop : option ascii) (s : cstr) : cstr * cstr :=
  match fuel with
  | 0 => ([], s)
  | S f =>
      if (match stop with Some c => bool_decide (head s = Some c) | None => false end) then ([], s)
      else match clen s with
           | 0 => ([], s)
           | n => let '(k, r) := take_chars f stop (drop n s) in (take n s ++ k, r)
           end
  end.
Definition chars (stop : option ascii) (s : cstr) : cstr * cstr := take_chars (length s) stop s.

Definition skip_blanks (s : cstr) : cstr := drop_while (fun c => bool_decide (c = " "%char)) s.
Definition is_blank (c : ascii) : bool := bool_decide (c = " "%char) || bool_decide (c = ch_tab).

(** [skiptorn]: the text up to the newline, and what is after it. *)
Definition skiptorn (s : cstr) : option (cstr * cstr) :=
  let v := take_while (fun c => negb (bool_decide (c = ch_nl)) && negb (bool_decide (c = ch_cr))) s in
  match drop (length v) s with
  | [] => None
  | c :: r =>
      if bool_decide (c = ch_cr)
      then match r with n :: r' => if bool_decide (n = ch_nl) then Some (v, r') else None | [] => None end
      else Some (v, r)
  end.

Definition trim_blanks (v : cstr) : cstr := rev (drop_while is_blank (rev v)).

(** The headers, [max_hdrs] of them at most. *)
Fixpoint mg_http_parse_headers (max_hdrs : nat) (s : cstr) : option (list (cstr * cstr)) :=
  match max_hdrs with
  | 0 => Some []
  | S m =>
      match s with
      | [] => None
      | c :: r =>
          if bool_decide (c = ch_nl) || (bool_decide (c = ch_cr) && bool_decide (head r = Some ch_nl)) then Some []
          else
            let '(k, s1) := chars (Some ":"%char) s in
            match k, s1 with
            | [], _ | _, [] => None
            | _, c1 :: s2 =>
                if Nat.eqb (clen s1) 0 || negb (bool_decide (c1 = ":"%char)) then None
                else
                  match skiptorn (drop_while is_blank s2) with
                  | None => None
                  | Some (v, s3) => h ← mg_http_parse_headers m s3; Some ((k, trim_blanks v) :: h)
                  end
            end
      end
  end.

Definition SIZE_T_MAX : N := 2 ^ 64 - 1.

(** The digits of a number, without overflow. *)
Fixpoint size_digits (result : N) (s : cstr) : option (N * cstr) :=
  match s with
  | c :: r =>
      if isdigit c
      then if (SIZE_T_MAX / 10 <? result)%N || (SIZE_T_MAX - (code c - 48) <? result * 10)%N then None
           else size_digits (result * 10 + (code c - 48))%N r
      else Some (result, s)
  | [] => Some (result, [])
  end.

Definition mg_to_size_t (s : cstr) : option N :=
  match drop_while is_blank s with
  | (c :: _) as t =>
      if isdigit c
      then match size_digits 0 t with
           | Some (n, r) => match drop_while is_blank r with [] => Some n | _ => None end
           | None => None
           end
      else None
  | [] => None
  end.

(** A parsed head: its length, the message without its body, the length of the
    body ([None]: up to the end of the connection), and what [mg_http_status]
    reads from the place of the URI. *)
Record HttpHead := mkHead {
  hh_len : nat;
  hh_message : HttpMessage;
  hh_proto : cstr;
  hh_response : bool;
  hh_body_len : option N;
  hh_status : Z;
}.
Inductive parse_result := ParseError | ParseMore | Parsed (h : HttpHead).

Definition http_prefix (s : cstr) : bool := Nat.ltb 5 (length s) && strcasecmp_eq (take 5 s) $"HTTP/".

(** [HTTP/x.x] *)
Definition version_ok (proto : cstr) : bool :=
  http_prefix proto && Nat.eqb (length proto) 8 &&
  match drop 5 proto with [a; dot; b] => isdigit a && bool_decide (dot = "."%char) && isdigit b | _ => false end.

Definition split_query (uri : cstr) : cstr * cstr :=
  match strchr uri "?"%char with Some i => (take i uri, drop (i + 1) uri) | None => (uri, []) end.

(** The length of the body, by the header and the kind of the message; [None]
    is an error. *)
Definition body_length (is_response : bool) (method uri : cstr) (req_len : nat) (content_length : option cstr) : option (option N) :=
  match content_length with
  | Some cl =>
      n ← mg_to_size_t cl;
      if (SIZE_T_MAX - N.of_nat req_len <? n)%N then None else Some (Some n)
  | None =>
      Some (if negb is_response && negb (strcasecmp_eq method $"PUT") && negb (strcasecmp_eq method $"POST") then Some 0%N
            else if is_response && strcasecmp_eq uri $"204" then Some 0%N else None)
  end.

Definition mg_http_parse (s : cstr) : parse_result :=
  let req_len := mg_http_get_request_len s in
  if (req_len <? 0)%Z then ParseError else if (req_len =? 0)%Z then ParseMore else
  let n := Z.to_nat req_len in
  let '(method, s1) := chars None (take n s) in
  let s2 := skip_blanks s1 in
  let '(uri, s3) := chars None s2 in
  let is_response := http_prefix method in
  match skiptorn (skip_blanks s3) with
  | None => ParseMore
  | Some (proto, s4) =>
      if negb is_response && negb (bool_decide (proto = [])) && negb (version_ok proto) then ParseError else
      let '(uri, query) := split_query uri in
      if bool_decide (method = []) || bool_decide (uri = []) then ParseError else
      match mg_http_parse_headers 30 s4 with
      | None => ParseError
      | Some headers =>
          let hm := mkHttp method uri query headers [] in
          match body_length is_response method uri n (mg_http_get_header hm $"Content-Length") with
          | None => ParseError
          | Some len => Parsed (mkHead n hm proto is_response len (atoi s2))
          end
      end
  end.

(** ** Chunks *)

Inductive chunk_result := ChunkMore | ChunkBad | Chunk (data : cstr) (rest : cstr).

Definition is_hex_digit (c : ascii) : bool := isdigit c || in_range 97 102 c || in_range 65 70 c.
Definition http_hex_value (c : ascii) : N := if isdigit c then (code c - 48)%N else if in_range 97 102 c then (code c - 87)%N else (code c - 55)%N.

(** A chunk: its length in hexadecimal, a line end, the bytes, a line end. The
    byte after the buffer is taken to be no newline. *)
Definition skip_chunk (s : cstr) : chunk_result :=
  if Nat.ltb (length s) 3 then ChunkMore
  else
    let digits := take_while is_hex_digit s in
    let i := length digits in
    if Nat.eqb i 0 || Nat.ltb 8 i then ChunkBad
    else match drop i s with
         | r :: n :: data =>
             if bool_decide (r = ch_cr) && bool_decide (n = ch_nl) then
               let v := fold_left (fun a c => a * 16 + http_hex_value c)%N digits 0%N in
               if (2 ^ 31 <=? v)%N then ChunkBad
               else if (Z.of_nat (length s) - Z.of_nat i - 4 <? Z.of_N v)%Z then ChunkMore
               else match drop (N.to_nat v) data with
                    | r' :: n' :: rest => if bool_decide (r' = ch_cr) && bool_decide (n' = ch_nl) then Chunk (take (N.to_nat v) data) rest else ChunkBad
                    | _ => ChunkBad
                    end
             else ChunkBad
         | _ => ChunkBad
         end.

Inductive chunks_result := ChunksMore | ChunksBad | Chunks (body : cstr) (rest : cstr).

(** Up to the empty chunk. *)
Fixpoint chunks (fuel : nat) (s : cstr) : chunks_result :=
  match fuel with
  | 0 => ChunksMore
  | S f =>
      match skip_chunk s with
      | ChunkMore => ChunksMore
      | ChunkBad => ChunksBad
      | Chunk [] rest => Chunks [] rest
      | Chunk data rest => match chunks f rest with Chunks body r => Chunks (data ++ body) r | x => x end
      end
  end.

(** ** The connection of a client *)

(** What the handler of the program is called with. [UeRead]: how many bytes
    were read, and the buffer of the connection at the time. *)
Inductive user_event :=
  | UeHdrs (h : HttpHead)
  | UeMsg (h : HttpHead) (body : cstr)
  | UeRead (n : nat) (recv : cstr)
  | UeError | UeClose | UeOther.

(** The loop of [http_cb] on [s], the unread part of [recv]: the events, and
    what is left in the buffer. [closing]: the event is the end of the
    connection. [None]: a request without a length of its body, which a server
    does not send. *)
Fixpoint http_loop (fuel : nat) (closing : bool) (recv s : cstr) : option (list user_event * cstr) :=
  match fuel, s with
  | 0, _ | _, [] => Some ([], s)
  | S f, _ =>
      match mg_http_parse s with
      | ParseError => Some ([], [])
      | ParseMore => Some ([], s)
      | Parsed h =>
          let rest := drop (hh_len h) s in
          let body_len := if closing then Some (N.of_nat (length rest)) else hh_body_len h in
          match mg_http_get_header (hh_message h) $"Transfer-Encoding" with
          | Some te =>
              if strcasecmp_eq te $"chunked" then
                match chunks (S (length rest)) rest with
                | ChunksMore => Some ([UeHdrs h], s)
                | ChunksBad => Some ([UeHdrs h; UeError], s)
                | Chunks body r => '(evs, kept) ← http_loop f closing recv r; Some (UeHdrs h :: UeMsg h body :: evs, kept)
                end
              else Some ([UeHdrs h; UeError], recv)
          | None =>
              if negb (hh_response h) && (strcasecmp_eq (hm_method (hh_message h)) $"POST" || strcasecmp_eq (hm_method (hh_message h)) $"PUT") &&
                 bool_decide (mg_http_get_header (hh_message h) $"Content-length" = None) then None
              else
                match body_len with
                | None => Some ([UeHdrs h], s)
                | Some l =>
                    if (N.of_nat (length rest) <? l)%N then Some ([UeHdrs h], s)
                    else '(evs, kept) ← http_loop f closing recv (drop (N.to_nat l) rest);
                         Some (UeHdrs h :: UeMsg h (take (N.to_nat l) rest) :: evs, kept)
                end
          end
      end
  end.

Definition http_cb (closing : bool) (recv : cstr) : option (list user_event * cstr) := http_loop (S (length recv)) closing recv recv.

(** Some bytes arrive ([iolog], [mg_call]: the protocol's handler first); the
    connection ends. *)
Definition conn_read (recv bytes : cstr) : option (list user_event * cstr) :=
  '(evs, kept) ← http_cb false (recv ++ bytes); Some (evs ++ [UeRead (length bytes) kept], kept).
Definition conn_close (recv : cstr) : option (list user_event) := '(evs, _) ← http_cb true recv; Some (evs ++ [UeClose]).

(** The events of a response that arrives in these pieces. *)
Fixpoint conn_reads (recv : cstr) (pieces : list cstr) : option (list user_event * cstr) :=
  match pieces with
  | [] => Some ([], recv)
  | p :: r => '(evs, recv1) ← conn_read recv p; '(evs', recv2) ← conn_reads recv1 r; Some (evs ++ evs', recv2)
  end.

(** ** A response is delivered once, however it arrives *)

Lemma request_len_app i p1 p2 s x n : request_len_from i p1 p2 s = n -> (0 < n)%Z -> request_len_from i p1 p2 (s ++ x) = n.
Proof.
  revert i p1 p2. induction s as [|c s IH]; intros i p1 p2 E Hn; [cbn in E; lia|]. cbn [app request_len_from] in E |- *.
  destruct (negb (isok c)); [lia|]. case_match; [done|]. by apply IH.
Qed.

(** No part of a head is a head. *)
Lemma request_len_part i p1 p2 p c x n : request_len_from i p1 p2 (p ++ c :: x) = n -> (Z.of_nat (i + length p) < n)%Z -> request_len_from i p1 p2 p = 0%Z.
Proof.
  revert i p1 p2. induction p as [|a p IH]; intros i p1 p2 Hn Hlen; [done|]. cbn [app request_len_from] in Hn |- *. cbn [length] in Hlen.
  destruct (negb (isok a)); [lia|]. case_match; [lia|]. apply (IH _ _ _ Hn). rewrite <-Nat.add_succ_comm in Hlen. exact Hlen.
Qed.

(** A text that is a head by itself. *)
Definition is_head (s : cstr) (h : HttpHead) : Prop := mg_http_parse s = Parsed h /\ hh_len h = length s.

Lemma head_request_len s h : is_head s h -> mg_http_get_request_len s = Z.of_nat (length s).
Proof.
  intros [H Hl]. unfold mg_http_parse in H. destruct (_ <? 0)%Z eqn:E1; [done|]. destruct (_ =? 0)%Z eqn:E2; [done|].
  apply Z.ltb_ge in E1. apply Z.eqb_neq in E2. rewrite <-Hl. enough (hh_len h = Z.to_nat (mg_http_get_request_len s)) by lia.
  destruct (chars None _) as [method s1]. destruct (chars None (skip_blanks s1)) as [uri s3]. destruct (skiptorn _) as [[proto s4]|]; [|done].
  case_match; [done|]. destruct (split_query uri) as [u q]. case_match; [done|]. destruct (mg_http_parse_headers 30 s4) as [hs|]; [|done].
  destruct (body_length _ _ _ _ _) as [l|]; [|done]. by injection H as <-.
Qed.

Lemma parse_app s h x : is_head s h -> mg_http_parse (s ++ x) = Parsed h.
Proof.
  intros Hh. pose proof (head_request_len s h Hh) as Hn. destruct Hh as [H Hl].
  assert (0 < mg_http_get_request_len s)%Z as Hpos. { destruct s; [by vm_compute in H|]. rewrite Hn. cbn. lia. }
  assert (mg_http_get_request_len (s ++ x) = Z.of_nat (length s)) as Hx by (rewrite <-Hn; by apply request_len_app).
  rewrite <-H. unfold mg_http_parse. by rewrite Hx, Hn, Nat2Z.id, take_app_length, firstn_all.
Qed.

Lemma parse_part s h p x : is_head s h -> s = p ++ x -> x <> [] -> mg_http_parse p = ParseMore.
Proof.
  intros Hh -> Hx. destruct x as [|c x]; [done|]. pose proof (head_request_len _ h Hh) as Hn. rewrite length_app in Hn. cbn in Hn.
  unfold mg_http_parse, mg_http_get_request_len. rewrite (request_len_part 0 None None p c x _ eq_refl); [done|]. unfold mg_http_get_request_len in Hn. rewrite Hn. cbn. lia.
Qed.

(** A response with a length, and with no other coding of its body. *)
Record response_head (s : cstr) (h : HttpHead) (len : nat) : Prop := {
  rh_head : is_head s h;
  rh_response : hh_response h = true;
  rh_plain : mg_http_get_header (hh_message h) $"Transfer-Encoding" = None;
  rh_len : hh_body_len h = Some (N.of_nat len);
}.

Lemma head_nonempty s h : is_head s h -> s <> [].
Proof. intros [H _] ->. by vm_compute in H. Qed.

Lemma http_loop_nil fuel closing recv : http_loop fuel closing recv [] = Some ([], []).
Proof. by destruct fuel. Qed.

(** One call of the handler, by how much of the response has come. *)
Lemma http_cb_head (head : cstr) h (body p x : cstr) : response_head head h (length body) -> head = p ++ x -> x <> [] -> http_cb false p = Some ([], p).
Proof.
  intros [Hh _ _ _] E Hx. unfold http_cb. cbn [http_loop]. destruct p as [|c p]; [done|].
  by rewrite (parse_part head h (c :: p) x Hh E Hx).
Qed.

Lemma http_cb_parsed (head : cstr) h (body b : cstr) : response_head head h (length body) -> http_cb false (head ++ b) =
  if Nat.ltb (length b) (length body) then Some ([UeHdrs h], head ++ b)
  else '(evs, kept) ← http_loop (length (head ++ b)) false (head ++ b) (drop (length body) b); Some (UeHdrs h :: UeMsg h (take (length body) b) :: evs, kept).
Proof.
  intros [Hh Hr Ht Hl]. pose proof (head_nonempty head h Hh) as Hne. unfold http_cb. cbn [http_loop]. destruct (head ++ b) as [|c r] eqn:E; [by destruct head|]. rewrite <-E.
  rewrite (parse_app head h b Hh), Ht, Hr, Hl. cbn [negb andb]. destruct Hh as [_ Hlen]. rewrite Hlen, drop_app_length.
  destruct (Nat.ltb_spec (length b) (length body)) as [Hb|Hb].
  - by rewrite (proj2 (N.ltb_lt _ _)) by lia.
  - rewrite (proj2 (N.ltb_ge _ _)) by lia. by rewrite Nat2N.id.
Qed.

(** What comes before the message: nothing but heads and bytes that wait in
    the buffer. *)
Definition waiting (text : cstr) (h : HttpHead) (e : user_event) : Prop :=
  e = UeHdrs h \/ exists n recv, e = UeRead n recv /\ n <= length recv /\ recv `prefix_of` text /\ recv <> text.

Lemma response_reads (head body : cstr) (h : HttpHead) (pieces : list cstr) :
  response_head head h (length body) -> concat pieces = head ++ body -> Forall (fun p => p <> []) pieces ->
  exists pre n, conn_reads [] pieces = Some (pre ++ [UeHdrs h; UeMsg h body; UeRead n []], []) /\ Forall (waiting (head ++ body) h) pre /\
    (pre = [] <-> length pieces = 1).
Proof.
  intros Hh Hc Hne. pose proof (rh_head _ _ _ Hh) as Hhd. pose proof (head_nonempty head h Hhd) as Hhne.
  enough (forall recv, recv ++ concat pieces = head ++ body -> pieces <> [] ->
    exists pre n, conn_reads recv pieces = Some (pre ++ [UeHdrs h; UeMsg h body; UeRead n []], []) /\ Forall (waiting (head ++ body) h) pre /\ (pre = [] <-> length pieces = 1)) as H.
  { apply (H []); [done|]. intros ->. cbn in Hc. destruct head; done. }
  clear Hc. induction Hne as [|p pieces Hp Hne IH]; intros recv Hc Hpc; [done|]. clear Hpc. cbn [conn_reads concat] in Hc |- *. unfold conn_read at 1.
  destruct (decide (pieces = [])) as [->|Hpieces].
  - cbn in Hc. rewrite app_nil_r in Hc. rewrite Hc, (http_cb_parsed head h body body Hh), Nat.ltb_irrefl, drop_all, http_loop_nil. cbn [mbind option_bind].
    rewrite take_ge by done. exists [], (length p). by split_and!.
  - assert (concat pieces <> []) as Hx. { destruct pieces as [|q r]; [done|]. apply Forall_cons in Hne as [Hq _]. cbn. by destruct q. }
    assert (exists evs, http_cb false (recv ++ p) = Some (evs, recv ++ p) /\ Forall (waiting (head ++ body) h) evs) as (evs & -> & Hev).
    { destruct (decide (length (recv ++ p) < length head)) as [Hlt|Hge].
      - exists []. split; [|done]. apply (http_cb_head head h body (recv ++ p) (drop (length (recv ++ p)) head) Hh).
        + rewrite <-(take_drop (length (recv ++ p)) head) at 1. f_equal. apply (f_equal (take (length (recv ++ p)))) in Hc.
          rewrite app_assoc, take_app_length, take_app_le in Hc by lia. done.
        + intros E. apply (f_equal length) in E. rewrite length_drop in E. cbn in E. lia.
      - apply (f_equal (fun l => (take (length head) l, drop (length head) l))) in Hc. rewrite app_assoc, take_app_length, drop_app_length, take_app_le, drop_app_le in Hc by lia.
        injection Hc as Ht Hd. rewrite <-(take_drop (length head) (recv ++ p)), Ht, (http_cb_parsed head h body _ Hh). exists [UeHdrs h].
        split; [|repeat constructor]. assert (length (drop (length head) (recv ++ p)) < length body) as Hlt.
        { rewrite <-Hd, length_app. destruct (concat pieces); [done|]. cbn. lia. } by rewrite (proj2 (Nat.ltb_lt _ _) Hlt). }
    cbn [mbind option_bind]. destruct (IH (recv ++ p)) as (pre & n & -> & Hpre & _); [by rewrite <-app_assoc|done|]. cbn [mbind option_bind].
    exists (evs ++ [UeRead (length p) (recv ++ p)] ++ pre), n. split; [by rewrite <-!app_assoc|]. split.
    + apply Forall_app. split; [done|]. constructor; [|done]. right. eexists _, _. split; [done|]. rewrite length_app. split_and!; [lia|by exists (concat pieces); rewrite <-app_assoc|].
      intros E. rewrite app_assoc, E in Hc. apply (f_equal length) in Hc. rewrite !length_app in Hc. destruct (concat pieces); [done|]. cbn in Hc. lia.
    + split; [by destruct evs|]. cbn. destruct pieces; [done|cbn; lia].
Qed.

(** The first piece, when it is not the whole response, is in the buffer when
    it was read. *)
Lemma first_read (head body : cstr) (h : HttpHead) (p : cstr) (pieces : list cstr) (evs : list user_event) (recv : cstr) :
  response_head head h (length body) -> p ++ concat pieces = head ++ body -> concat pieces <> [] -> conn_reads [] (p :: pieces) = Some (evs, recv) ->
  exists hs rest, evs = hs ++ UeRead (length p) p :: rest /\ Forall (fun e => e = UeHdrs h) hs.
Proof.
  intros Hh Hc Hne. cbn [conn_reads]. unfold conn_read at 1. cbn [app].
  assert (exists hs, http_cb false p = Some (hs, p) /\ Forall (fun e => e = UeHdrs h) hs) as (hs & -> & Hhs).
  { destruct (decide (length p < length head)) as [Hlt|Hge].
    - exists []. split; [|done]. apply (http_cb_head head h body p (drop (length p) head) Hh).
      + rewrite <-(take_drop (length p) head) at 1. f_equal. apply (f_equal (take (length p))) in Hc. by rewrite take_app_length, take_app_le in Hc by lia.
      + intros E. apply (f_equal length) in E. rewrite length_drop in E. cbn in E. lia.
    - apply (f_equal (fun l => (take (length head) l, drop (length head) l))) in Hc. rewrite take_app_length, drop_app_length, take_app_le, drop_app_le in Hc by lia.
      injection Hc as Ht Hd. rewrite <-(take_drop (length head) p), Ht, (http_cb_parsed head h body _ Hh). exists [UeHdrs h]. split; [|by repeat constructor].
      assert (length (drop (length head) p) < length body) as Hlt by (rewrite <-Hd, length_app; destruct (concat pieces); [done|cbn; lia]). by rewrite (proj2 (Nat.ltb_lt _ _) Hlt). }
  cbn [mbind option_bind]. destruct (conn_reads p pieces) as [[evs' recv']|]; [|done]. cbn [mbind option_bind]. intros [= <- <-].
  exists hs, evs'. split; [by rewrite <-app_assoc|done].
Qed.

(** A response with a length is delivered as one message with its body,
    when its last piece arrives and however it is cut into pieces, and nothing
    is left in the buffer; until then the handler only sees heads and bytes. *)
Theorem response_delivered (head body : cstr) (h : HttpHead) (pieces : list cstr) :
  response_head head h (length body) -> concat pieces = head ++ body -> Forall (fun p => p <> []) pieces ->
  exists pre n, conn_reads [] pieces = Some (pre ++ [UeHdrs h; UeMsg h body; UeRead n []], []) /\ Forall (waiting (head ++ body) h) pre /\
    (pre = [] <-> length pieces = 1).
Proof. apply response_reads. Qed.

(** The text of a response, as servers write it. *)
Definition line_end : cstr := [ch_cr; ch_nl].
Definition response_text (headers : list (cstr * cstr)) : cstr :=
  $"HTTP/1.1 200 OK" ++ line_end ++ (headers ≫= fun '(k, v) => k ++ $": " ++ v ++ line_end) ++ line_end.

Definition parsed_head (s : cstr) : HttpHead := match mg_http_parse s with Parsed h => h | _ => mkHead 0 (mkHttp [] [] [] [] []) [] false None 0 end.

Definition demo_response : cstr := response_text [($"Content-Type", $"application/json"); ($"Content-Length", $"2")].

Lemma demo_response_head : response_head demo_response (parsed_head demo_response) 2.
Proof. split; [split|..]; by vm_compute. Qed.

Lemma response_delivered_witness : exists pre n,
  conn_reads [] [take 20 demo_response; drop 20 demo_response ++ $"{"; $"}"] =
    Some (pre ++ [UeHdrs (parsed_head demo_response); UeMsg (parsed_head demo_response) $"{}"; UeRead n []], []) /\
  Forall (waiting (demo_response ++ $"{}") (parsed_head demo_response)) pre /\ (pre = [] <-> 3 = 1).
Proof.
  apply (response_delivered demo_response $"{}" (parsed_head demo_response) [take 20 demo_response; drop 20 demo_response ++ $"{"; $"}"]).
  - exact demo_response_head.
  - by vm_compute.
  - repeat constructor; by vm_compute.
Defined.

(** ** A response without a length ends with its connection *)

Lemma http_cb_endless (head : cstr) h (b : cstr) : is_head head h -> hh_response h = true -> mg_http_get_header (hh_message h) $"Transfer-Encoding" = None ->
  hh_body_len h = None -> http_cb false (head ++ b) = Some ([UeHdrs h], head ++ b).
Proof.
  intros Hh Hr Ht Hl. pose proof (head_nonempty head h Hh) as Hne. unfold http_cb. cbn [http_loop]. destruct (head ++ b) as [|c r] eqn:E; [by destruct head|]. rewrite <-E.
  by rewrite (parse_app head h b Hh), Ht, Hr, Hl.
Qed.

Lemma http_cb_close (head : cstr) h (b : cstr) : is_head head h -> hh_response h = true -> mg_http_get_header (hh_message h) $"Transfer-Encoding" = None ->
  http_cb true (head ++ b) = Some ([UeHdrs h; UeMsg h b], []).
Proof.
  intros Hh Hr Ht. pose proof (head_nonempty head h Hh) as Hne. unfold http_cb. cbn [http_loop]. destruct (head ++ b) as [|c r] eqn:E; [by destruct head|]. rewrite <-E.
  rewrite (parse_app head h b Hh), Ht, Hr. cbn [negb andb]. destruct Hh as [_ Hlen]. rewrite Hlen, drop_app_length.
  rewrite N.ltb_irrefl, Nat2N.id, drop_all, http_loop_nil. cbn [mbind option_bind]. by rewrite firstn_all.
Qed.

(** A connection that ends before a head arrived gives nothing but its end. *)
Lemma conn_close_silent : conn_close [] = Some [UeClose].
Proof. reflexivity. Qed.
