(* ===== verification/ToolRegistry.v ===== *)
(** [src/tools/tool.c]: the table of tools the model can call.

    [W] is the state the tools act on (files, cron jobs, memory, ...) and [D]
    the type of the [user_data] pointers; a tool function is a transition of
    [W] that gives an error value and the text it stores in [result]. *)
From S2P Require Import Prelude CStr Common.

Definition tool_fn (W D : Type) : Type := option D -> cstr -> W -> Error * cstr * W.

Record Tool (W D : Type) := mkTool {
  t_name : cstr;
  t_description : cstr;
  t_parameters : cstr;
  t_execute : tool_fn W D;
  t_user_data : option D;
  t_plugin_ref : option nat;
  t_user_data_destroy : bool;      (* a destroy function is given *)
}.
Arguments mkTool {W D}.
Arguments t_name {W D}.
Arguments t_description {W D}.
Arguments t_parameters {W D}.
Arguments t_execute {W D}.
Arguments t_user_data {W D}.
Arguments t_plugin_ref {W D}.
Arguments t_user_data_destroy {W D}.

Record ToolRegistry (W D : Type) := mkRegistry {
  reg_tools : list (Tool W D);
  reg_capacity : nat;
}.
Arguments mkRegistry {W D}.
Arguments reg_tools {W D}.
Arguments reg_capacity {W D}.

Section Registry.
Context {W D : Type}.

Definition tool_registry_new (reg_ok tools_ok : bool) : option (ToolRegistry W D) :=
  if reg_ok && tools_ok then Some (mkRegistry [] 8) else None.

(** [realloc_ok]: the table could be doubled, when it is full. *)
Definition tool_registry_register_full (realloc_ok : bool) (reg : ToolRegistry W D) (name desc params_schema : option cstr)
    (exec : tool_fn W D) (user_data : option D) (plugin_ref : option nat) (user_data_destroy : bool) :
    ToolRegistry W D * Error :=
  let tool := {| t_name := str_new name; t_description := str_new desc; t_parameters := str_new params_schema;
                 t_execute := exec; t_user_data := user_data; t_plugin_ref := plugin_ref;
                 t_user_data_destroy := user_data_destroy |} in
  let put r := (mkRegistry (reg_tools r ++ [tool]) (reg_capacity r), err_ok) in
  if Nat.leb (reg_capacity reg) (length (reg_tools reg)) then
    if realloc_ok then put (mkRegistry (reg_tools reg) (reg_capacity reg * 2))
    else (reg, error_new ERR_MEMORY (Some $"Failed to expand tool registry"))
  else put reg.

Definition tool_registry_register (realloc_ok : bool) (reg : ToolRegistry W D) (name desc params_schema : option cstr)
    (exec : tool_fn W D) (user_data : option D) : ToolRegistry W D * Error :=
  tool_registry_register_full realloc_ok reg name desc params_schema exec user_data None false.

Definition tool_registry_register_plugin_tool (realloc_ok : bool) (reg : ToolRegistry W D)
    (name desc params_schema : option cstr) (exec : tool_fn W D) (user_data : option D) (plugin_ref : option nat) :
    ToolRegistry W D * Error :=
  tool_registry_register_full realloc_ok reg name desc params_schema exec user_data plugin_ref false.

(** The scan of the table for one name: the index of the first match. *)
Fixpoint tool_scan (tools : list (Tool W D)) (name : cstr) : option nat :=
  match tools with
  | [] => None
  | t :: r => if str_eq (t_name t) name then Some 0 else S <$> tool_scan r name
  end.

(** The part after the last dot, or else after the last colon. *)
Definition alias_name (name : cstr) : option cstr :=
  match strrchr name "."%char with
  | Some i => Some (drop (i + 1) name)
  | None => match strrchr name ":"%char with Some i => Some (drop (i + 1) name) | None => None end
  end.

(** [tool_registry_get]: the index of the tool. *)
Definition tool_registry_find (reg : ToolRegistry W D) (name : cstr) : option nat :=
  match tool_scan (reg_tools reg) name with
  | Some i => Some i
  | None =>
      match alias_name name with
      | Some [] | None => None
      | Some a => tool_scan (reg_tools reg) a
      end
  end.

Definition tool_registry_get (reg : ToolRegistry W D) (name : option cstr) : option (Tool W D) :=
  n ← name; i ← tool_registry_find reg n; reg_tools reg !! i.

Definition not_found (name : option cstr) : Error :=
  error_new ERR_TOOL (Some (truncate_to 256 ($"Tool not found: " ++ default $"(null)" name))).

Definition tool_registry_execute (reg : ToolRegistry W D) (name : option cstr) (args_json : cstr) (w : W) :
    Error * cstr * W :=
  match tool_registry_get reg name with
  | None => (not_found name, [], w)
  | Some tool => t_execute tool (t_user_data tool) args_json w
  end.

Definition tool_registry_execute_with_user_data (reg : ToolRegistry W D) (name : option cstr) (args_json : cstr)
    (user_data : option D) (w : W) : Error * cstr * W :=
  match tool_registry_get reg name with
  | None => (not_found name, [], w)
  | Some tool => t_execute tool (match user_data with Some _ => user_data | None => t_user_data tool end) args_json w
  end.

(** [tool_registry_free]: the [user_data] pointers released, in order;
    [freed_ptrs] remembers at most 64 of them. *)
Fixpoint free_loop `{EqDecision D} (freed_ptrs : list D) (tools : list (Tool W D)) : list D :=
  match tools with
  | [] => []
  | t :: r =>
      match t_user_data t, t_plugin_ref t with
      | Some d, None =>
          if bool_decide (d ∈ freed_ptrs) then free_loop freed_ptrs r
          else d :: free_loop (if Nat.ltb (length freed_ptrs) 64 then freed_ptrs ++ [d] else freed_ptrs) r
      | _, _ => free_loop freed_ptrs r
      end
  end.

Definition tool_registry_free `{EqDecision D} (reg : ToolRegistry W D) : list D := free_loop [] (reg_tools reg).

(** The pointers the registry owns: those of tools no plugin provides. *)
Definition owned (tools : list (Tool W D)) : list D :=
  omap (fun t => match t_plugin_ref t with None => t_user_data t | Some _ => None end) tools.

Definition registry_wf (reg : ToolRegistry W D) : Prop :=
  0 < reg_capacity reg /\ length (reg_tools reg) <= reg_capacity reg.

(** ** Facts *)

Lemma tool_scan_spec tools name :
  match tool_scan tools name with
  | Some i => (exists t, tools !! i = Some t /\ t_name t = name) /\
              forall j t, tools !! j = Some t -> t_name t = name -> i <= j
  | None => Forall (fun t => t_name t <> name) tools
  end.
Proof.
  induction tools as [|t r IH]; cbn [tool_scan]; [constructor|].
  unfold str_eq. case_bool_decide as Ht.
  - split; [by exists t|]. intros; lia.
  - destruct (tool_scan r name) as [i|]; cbn.
    + destruct IH as [H1 H2]. split; [done|]. intros [|j] t' Hj Hn; cbn in Hj; [by simplify_eq|].
      apply le_n_S. by eapply H2.
    + by constructor.
Qed.

Lemma alias_name_short name a : alias_name name = Some a -> exists pre c, name = pre ++ c :: a /\ (c = "."%char \/ c = ":"%char).
Proof.
  assert (forall c s i, strrchr s c = Some i -> exists pre, s = pre ++ c :: drop (i + 1) s) as Hs.
  { intros c s. induction s as [|x s IH]; intros i; cbn; [done|].
    destruct (strrchr s c) as [j|]; [intros [= <-]; destruct (IH j eq_refl) as [pre Hp]; exists (x :: pre); cbn; by rewrite <-Hp|].
    case_bool_decide; [|done]. intros [= <-]. subst. by exists []. }
  unfold alias_name. destruct (strrchr name ".") as [i|] eqn:E1.
  - intros [= <-]. destruct (Hs _ _ _ E1) as [pre Hp]. eauto.
  - destruct (strrchr name ":") as [i|] eqn:E2; [|done]. intros [= <-].
    destruct (Hs _ _ _ E2) as [pre Hp]. eauto.
Qed.

(** Registering keeps the table well formed, appends the tool, and does not
    change what the names already registered resolve to. *)
Lemma register_full_spec ok reg n d p e u pr de reg' err : registry_wf reg ->
  tool_registry_register_full ok reg n d p e u pr de = (reg', err) ->
  registry_wf reg' /\
  (if is_err err then reg' = reg
   else reg_tools reg' = reg_tools reg ++ [mkTool (str_new n) (str_new d) (str_new p) e u pr de]).
Proof.
  unfold registry_wf, tool_registry_register_full. intros [H0 Hle].
  destruct (Nat.leb_spec (reg_capacity reg) (length (reg_tools reg))); [destruct ok|]; intros [= <- <-]; cbn;
    rewrite ?length_app; cbn; split; (lia || done).
Qed.

Lemma tool_scan_app tools l name i : tool_scan tools name = Some i -> tool_scan (tools ++ l) name = Some i.
Proof.
  revert i. induction tools as [|t r IH]; intros i; cbn [tool_scan app]; [done|].
  case_match; [done|]. destruct (tool_scan r name) as [j|]; [|done]. intros [= <-].
  by rewrite (IH j eq_refl).
Qed.

Lemma tool_scan_app_None tools l name :
  tool_scan tools name = None -> tool_scan (tools ++ l) name = (fun i => length tools + i) <$> tool_scan l name.
Proof.
  induction tools as [|t r IH]; cbn [tool_scan app]; [by destruct (tool_scan l name)|].
  case_match; [done|]. destruct (tool_scan r name); [done|]. intros _. rewrite (IH eq_refl).
  by destruct (tool_scan l name).
Qed.

(** Looking a name up returns the first tool registered under exactly
    that name; when there is none, the first tool registered under the part
    of the name after its last dot (or last colon); and NULL only when neither
    exists. Executing an unknown name changes nothing and reports the name. *)
Theorem tool_registry_get_correct reg name :
  match tool_registry_find reg name with
  | Some i => exists t, tool_registry_get reg (Some name) = Some t /\ reg_tools reg !! i = Some t /\
      (t_name t = name /\ (forall j u, reg_tools reg !! j = Some u -> t_name u = name -> i <= j) \/
       Forall (fun u => t_name u <> name) (reg_tools reg) /\
       (exists pre c, name = pre ++ c :: t_name t /\ (c = "."%char \/ c = ":"%char)) /\
       (forall j u, reg_tools reg !! j = Some u -> t_name u = t_name t -> i <= j))
  | None => tool_registry_get reg (Some name) = None /\
      Forall (fun u => t_name u <> name) (reg_tools reg) /\
      (forall a, alias_name name = Some a -> a <> [] -> Forall (fun u => t_name u <> a) (reg_tools reg)) /\
      (forall args w, tool_registry_execute reg (Some name) args w = (not_found (Some name), [], w))
  end.
Proof.
  unfold tool_registry_execute, tool_registry_get, tool_registry_find. cbn [mbind option_bind].
  pose proof (tool_scan_spec (reg_tools reg) name) as Hn.
  destruct (tool_scan (reg_tools reg) name) as [i|] eqn:En.
  { cbn. destruct Hn as [(t & Ht & Hnm) Hmin]. exists t. split_and!; [done..|by left]. }
  destruct (alias_name name) as [[|c a]|] eqn:Ea; cbn.
  - split_and!; [done..| |done]. intros ? [= <-]. done.
  - pose proof (tool_scan_spec (reg_tools reg) (c :: a)) as Hs.
    destruct (tool_scan (reg_tools reg) (c :: a)) as [i|] eqn:Es; cbn.
    + destruct Hs as [(t & Ht & Hnm) Hmin]. exists t. split_and!; [done..|right].
      rewrite Hnm. split_and!; [done|by apply alias_name_short|done].
    + split_and!; [done..| |done]. intros ? [= <-] _. done.
  - split_and!; [done..|done|done].
Qed.

(** ** Shutdown *)
Section Free.
Context `{EqDecision D}.

Lemma free_loop_incl ptrs tools : Forall (fun d => d ∈ owned tools) (free_loop ptrs tools).
Proof.
  revert ptrs. induction tools as [|t r IH]; intros ptrs; cbn; [constructor|].
  destruct (t_user_data t) as [d|], (t_plugin_ref t) as [p|]; cbn;
    try (eapply Forall_impl; [apply IH|intros; cbn; by try right]).
  assert (forall ptrs', Forall (fun x => x ∈ d :: owned r) (free_loop ptrs' r)) as Hr
    by (intros ptrs'; eapply Forall_impl; [apply IH|intros; by right]).
  case_bool_decide; [apply Hr|]. constructor; [by left|apply Hr].
Qed.

Lemma free_loop_spec ptrs tools : length ptrs + length (owned tools) <= 64 ->
  NoDup (free_loop ptrs tools) /\ forall d, d ∈ free_loop ptrs tools <-> d ∈ owned tools /\ d ∉ ptrs.
Proof.
  revert ptrs. induction tools as [|t r IH]; intros ptrs Hlen.
  { cbn. split; [constructor|]. intros d. split; [intros H; by apply elem_of_nil in H|intros [H _]; by apply elem_of_nil in H]. }
  cbn [owned omap list_omap free_loop] in *. change (list_omap D _) with (@omap list _ D D) in *.
  destruct (t_plugin_ref t) as [p|]; [destruct (t_user_data t); by apply IH|].
  destruct (t_user_data t) as [d|]; [|by apply IH]. cbn [length] in Hlen. fold (owned r) in *.
  case_bool_decide as Hd.
  - destruct (IH ptrs) as [Hnd Hin]; [lia|]. split; [done|]. intros x. rewrite Hin, elem_of_cons.
    split; [naive_solver|]. intros [[-> |?] ?]; naive_solver.
  - destruct (Nat.ltb_spec (length ptrs) 64); [|lia].
    destruct (IH (ptrs ++ [d])) as [Hnd Hin]; [rewrite length_app; cbn; lia|]. split.
    + constructor; [|done]. rewrite Hin, elem_of_app, list_elem_of_singleton. naive_solver.
    + intros x. rewrite elem_of_cons, Hin, elem_of_app, list_elem_of_singleton, elem_of_cons.
      destruct (decide (x = d)); naive_solver.
Qed.

(** As long as at most 64 tools own their data, freeing the registry
    releases every owned pointer exactly once, shared pointers included, and
    no pointer of a plugin. *)
Theorem tool_registry_free_once reg : length (owned (reg_tools reg)) <= 64 ->
  NoDup (tool_registry_free reg) /\ forall d, d ∈ tool_registry_free reg <-> d ∈ owned (reg_tools reg).
Proof.
  intros H. destruct (free_loop_spec [] (reg_tools reg)) as [Hnd Hin]; [done|].
  split; [done|]. intros d. rewrite Hin. split; [naive_solver|]. intros Hd. split; [done|apply not_elem_of_nil].
Qed.
End Free.
End Registry.

Definition demo_tool (name : cstr) (d : nat) : Tool unit nat :=
  mkTool name [] [] (fun _ _ w => (err_ok, [], w)) (Some d) None true.

Lemma tool_registry_free_once_witness :
  let reg := mkRegistry [demo_tool $"a" 1; demo_tool $"b" 2; demo_tool $"c" 1] 8 in
  NoDup (tool_registry_free reg) /\ forall d, d ∈ tool_registry_free reg <-> d ∈ owned (reg_tools reg).
Proof.
  apply (tool_registry_free_once (mkRegistry [demo_tool $"a" 1; demo_tool $"b" 2; demo_tool $"c" 1] 8)).
  apply Nat.leb_le. by vm_compute.
Defined.

(** Beyond 64 remembered pointers the check is lost: data shared by two
    tools is released twice. *)
Theorem tool_registry_free_double :
  let reg := mkRegistry ((fun i => demo_tool $"t" i) <$> (seq 0 65 ++ [64])) 128 in
  ~ NoDup (tool_registry_free reg).
Proof.
  cbv zeta. match goal with |- ~ NoDup ?l => assert (l = seq 0 65 ++ [64]) as -> by (by vm_compute) end.
  intros H. apply NoDup_app in H as (_ & H & _). apply (H 64); [|by left].
  apply elem_of_seq. lia.
Qed.
