(* ===== verification/ToolExecutor.v ===== *)
(** [src/tools/tool_executor.c]: the thread pool that runs tools, and the
    synchronous call with a time-out built on it.

    The queue is a linked list with a tail pointer; every access is under
    [queue_mutex], so the operations below are the atomic steps. A worker
    between two steps is waiting, holds the request it took, or has stopped. *)
From S2P Require Import Prelude CStr Common ToolRegistry.

(** A request; [rq_context] identifies the callback's context. *)
Record Request (D : Type) := mkRequest {
  rq_context : nat;
  rq_tool_name : cstr;
  rq_arguments : cstr;
  rq_user_data : option D;
  rq_destroy : bool;
}.
Arguments mkRequest {D}.
Arguments rq_context {D}.
Arguments rq_tool_name {D}.
Arguments rq_arguments {D}.
Arguments rq_user_data {D}.
Arguments rq_destroy {D}.

Inductive worker (D : Type) := Waiting | Running (r : Request D) | Stopped.
Arguments Waiting {D}.
Arguments Running {D}.
Arguments Stopped {D}.

(** One call of a request's callback. *)
Record callback_call := mkCallback {
  cb_context : nat;
  cb_tool_name : cstr;
  cb_result : cstr;
  cb_error : Error;
}.

Section Executor.
Context {W D : Type}.

Record ToolExecutor := mkExecutor {
  ex_queue : list (Request D);        (* from request_queue along next *)
  ex_tail : bool;                     (* request_queue_tail is not NULL *)
  ex_shutdown : bool;
  ex_workers : list (worker D);
}.

Definition tool_executor_new (num_workers : nat) : ToolExecutor :=
  mkExecutor [] false false (replicate (if Nat.eqb num_workers 0 then 2 else num_workers) Waiting).

(** The enqueue step: behind the tail, or as the head when there is no tail. *)
Definition enqueue (ex : ToolExecutor) (r : Request D) : ToolExecutor :=
  mkExecutor (if ex_tail ex then ex_queue ex ++ [r] else [r]) true (ex_shutdown ex) (ex_workers ex).

(** [alloc_ok]: the request and its two strings could be allocated. *)
Definition tool_executor_submit_with_user_data (alloc_ok : bool) (ex : ToolExecutor) (tool_name : cstr)
    (arguments : option cstr) (tool_user_data : option D) (tool_user_data_destroy : bool) (context : nat) :
    ToolExecutor * Z :=
  if alloc_ok then
    (enqueue ex (mkRequest context tool_name (default $"{}" arguments) tool_user_data tool_user_data_destroy), 0%Z)
  else (ex, (-1)%Z).

Definition tool_executor_submit (alloc_ok : bool) (ex : ToolExecutor) (tool_name : cstr) (arguments : option cstr)
    (context : nat) : ToolExecutor * Z :=
  tool_executor_submit_with_user_data alloc_ok ex tool_name arguments None false context.

(** [tool_executor_submit_async_with_user_data]: the callback is called at once
    when the request cannot be queued. *)
Definition tool_executor_submit_async_with_user_data (ctx_ok alloc_ok : bool) (ex : ToolExecutor) (tool_name : cstr)
    (args_json : option cstr) (tool_user_data : option D) (tool_user_data_destroy : bool) (user_data : nat) :
    ToolExecutor * list callback_call * list D :=
  let destroyed := match tool_user_data with Some d => if tool_user_data_destroy then [d] else [] | None => [] end in
  if ctx_ok then
    let '(ex', ret) := tool_executor_submit_with_user_data alloc_ok ex tool_name args_json tool_user_data
                         tool_user_data_destroy user_data in
    if (ret =? 0)%Z then (ex', [], [])
    else (ex', [mkCallback user_data tool_name [] (error_new ERR_TOOL (Some $"Failed to submit tool execution"))], destroyed)
  else (ex, [mkCallback user_data tool_name [] (error_new ERR_MEMORY (Some $"OOM allocating async context"))], destroyed).

(** The worker's step under the mutex: it waits, leaves its loop, or takes the
    oldest request. *)
Inductive taken := TakeWait | TakeExit | TakeRequest (r : Request D) (ex : ToolExecutor).

Definition worker_take (ex : ToolExecutor) : taken :=
  match ex_queue ex with
  | [] => if ex_shutdown ex then TakeExit else TakeWait
  | r :: rest => TakeRequest r (mkExecutor rest (if rest is [] then false else ex_tail ex) (ex_shutdown ex) (ex_workers ex))
  end.

(** What the worker does with a request: run the tool, call back, release the
    data made for this call. *)
Definition worker_execute (reg : ToolRegistry W D) (r : Request D) (w : W) : callback_call * list D * W :=
  let '(err, result, w') :=
    tool_registry_execute_with_user_data reg (Some (rq_tool_name r)) (rq_arguments r) (rq_user_data r) w in
  (mkCallback (rq_context r) (rq_tool_name r) result err,
   match rq_user_data r with Some d => if rq_destroy r then [d] else [] | None => [] end, w').

Definition set_worker (ex : ToolExecutor) (i : nat) (s : worker D) : ToolExecutor :=
  mkExecutor (ex_queue ex) (ex_tail ex) (ex_shutdown ex) (<[i := s]> (ex_workers ex)).

Definition begin_shutdown (ex : ToolExecutor) : ToolExecutor :=
  mkExecutor (ex_queue ex) (ex_tail ex) true (ex_workers ex).

(** The clean-up of [tool_executor_destroy] after the workers were joined: the
    contexts of the requests dropped, and the data released. *)
Definition destroy_cleanup (ex : ToolExecutor) : list nat * list D :=
  (rq_context <$> ex_queue ex,
   ex_queue ex ≫= fun r => match rq_user_data r with Some d => if rq_destroy r then [d] else [] | None => [] end).

(** ** The pool as a transition system *)

Record pool := mkPool {
  p_ex : ToolExecutor;
  p_world : W;
  p_submitted : list (Request D);
  p_started : list (Request D);
  p_finished : list (Request D);
  p_calls : list callback_call;
}.

Context (reg : ToolRegistry W D).

Inductive pool_step : pool -> pool -> Prop :=
  | pool_submit ex w sub st fin calls r : ex_shutdown ex = false ->
      pool_step (mkPool ex w sub st fin calls) (mkPool (enqueue ex r) w (sub ++ [r]) st fin calls)
  | pool_take ex w sub st fin calls i r ex' :
      ex_workers ex !! i = Some Waiting -> worker_take ex = TakeRequest r ex' ->
      pool_step (mkPool ex w sub st fin calls)
        (mkPool (set_worker ex' i (Running r)) w sub (st ++ [r]) fin calls)
  | pool_run ex w sub st fin calls i r call freed w' :
      ex_workers ex !! i = Some (Running r) -> worker_execute reg r w = (call, freed, w') ->
      pool_step (mkPool ex w sub st fin calls)
        (mkPool (set_worker ex i Waiting) w' sub st (fin ++ [r]) (calls ++ [call]))
  | pool_exit ex w sub st fin calls i :
      ex_workers ex !! i = Some Waiting -> worker_take ex = TakeExit ->
      pool_step (mkPool ex w sub st fin calls) (mkPool (set_worker ex i Stopped) w sub st fin calls)
  | pool_shutdown ex w sub st fin calls :
      pool_step (mkPool ex w sub st fin calls) (mkPool (begin_shutdown ex) w sub st fin calls).

Definition pool_new (num_workers : nat) (w : W) : pool := mkPool (tool_executor_new num_workers) w [] [] [] [].

Definition running (ws : list (worker D)) : list (Request D) :=
  omap (fun s => match s with Running r => Some r | _ => None end) ws.

Record pool_inv (p : pool) : Prop := {
  pi_tail : ex_tail (p_ex p) = negb (bool_decide (length (ex_queue (p_ex p)) = 0));
  pi_fifo : p_started p ++ ex_queue (p_ex p) = p_submitted p;
  pi_running : p_finished p ++ running (ex_workers (p_ex p)) ≡ₚ p_started p;
  pi_calls : cb_context <$> p_calls p = rq_context <$> p_finished p;
  pi_stopped : Exists (fun s => s = @Stopped D) (ex_workers (p_ex p)) ->
               ex_shutdown (p_ex p) = true /\ ex_queue (p_ex p) = [];
}.

Lemma running_insert ws i s t : ws !! i = Some s ->
  running (<[i := t]> ws) ++ match s with Running r => [r] | _ => [] end ≡ₚ
  match t with Running r => [r] | _ => [] end ++ running ws.
Proof.
  revert i. induction ws as [|x ws IH]; intros [|i] Hi; cbn in Hi; [done..| |].
  - simplify_eq. cbn. destruct s, t; cbn; rewrite ?app_nil_r;
      first [done | by rewrite Permutation_app_comm | constructor; by rewrite Permutation_app_comm].
  - change (running (x :: <[i:=t]> ws) ++ match s with Running r => [r] | _ => [] end ≡ₚ
            match t with Running r => [r] | _ => [] end ++ running (x :: ws)).
    specialize (IH i Hi). unfold running in *. cbn [omap list_omap]. destruct x as [|r|]; [done| |done].
    cbn [app]. rewrite IH. by rewrite <-Permutation_middle.
Qed.

Lemma exists_stopped_insert ws i s : s <> Stopped ->
  Exists (fun s => s = @Stopped D) (<[i := s]> ws) -> Exists (fun s => s = @Stopped D) ws.
Proof.
  intros Hs. rewrite !Exists_exists. intros (x & Hx & ->).
  apply list_elem_of_lookup in Hx as [j Hj]. apply list_lookup_insert_Some in Hj as [(-> & ? & _)|[_ Hj]].
  - done.
  - exists Stopped. split; [by eapply list_elem_of_lookup_2|done].
Qed.

Lemma pool_new_inv n w : pool_inv (pool_new n w).
Proof.
  assert (forall k, running (replicate k (@Waiting D)) = []) as Hr by (induction k; by cbn).
  split; cbn; [done|done| |done|].
  - rewrite Hr. done.
  - intros H. apply Exists_exists in H as (x & Hx & ->). by apply elem_of_replicate in Hx as [? _].
Qed.

#[local] Arguments running : simpl never.

Lemma pool_step_inv p p' : pool_inv p -> pool_step p p' -> pool_inv p'.
Proof.
  intros [Ht Hf Hr Hc Hs] Hstep. inversion Hstep; subst; clear Hstep; cbn [p_ex p_submitted p_started p_finished p_calls] in *.
  - assert (~ Exists (fun s => s = @Stopped D) (ex_workers ex)) as Hns by (intros [? _]%Hs; congruence).
    split; cbn; [by destruct (ex_tail ex); [destruct (ex_queue ex)|]| |done|done|done].
    destruct (ex_tail ex) eqn:E; [by rewrite app_assoc, Hf|].
    symmetry in Ht. apply negb_false_iff, bool_decide_eq_true, nil_length_inv in Ht.
    rewrite Ht, app_nil_r in Hf. by rewrite Hf.
  - unfold worker_take in *. destruct (ex_queue ex) as [|r' rest] eqn:Eq; [by destruct (ex_shutdown ex)|].
    match goal with H : TakeRequest _ _ = _ |- _ => injection H as <- <- end.
    split; cbn in *.
    + rewrite Ht. by destruct rest.
    + by rewrite <-app_assoc.
    + pose proof (running_insert _ _ _ (Running r') H) as Hi. cbn in Hi. rewrite app_nil_r in Hi.
      rewrite Hi, <-Hr, <-Permutation_middle. by rewrite Permutation_cons_append.
    + done.
    + intros Hst. apply exists_stopped_insert in Hst; [|done]. by apply Hs in Hst as [_ ?].
  - split; cbn in *.
    + done.
    + done.
    + pose proof (running_insert _ _ _ Waiting H) as Hi. cbn in Hi.
      rewrite <-Hr, <-Hi. rewrite <-app_assoc. f_equiv. by rewrite Permutation_app_comm.
    + rewrite !fmap_app, Hc. cbn. unfold worker_execute in *.
      destruct (tool_registry_execute_with_user_data _ _ _ _ _) as [[e t] w2]. by simplify_eq/=.
    + intros Hst. apply exists_stopped_insert in Hst; [|done]. by apply Hs.
  - unfold worker_take in *. destruct (ex_queue ex) as [|r' rest] eqn:Eq; [|done].
    destruct (ex_shutdown ex) eqn:Esd; [|done].
    split; cbn in *; rewrite ?Eq; [done|done| |done|done].
    pose proof (running_insert _ _ _ Stopped H) as Hi. cbn in Hi. rewrite app_nil_r in Hi. by rewrite Hi.
  - split; cbn; [done..|]. intros [? ?]%Hs. done.
Qed.

(** C7: Requests start in the order they were submitted; each is run, and its
    callback called with its own context, exactly once; and when every worker
    has stopped nothing is left in the queue: shutting down drops no request
    and leaves none to the clean-up loop. *)
Theorem pool_runs_each_once n w p :
  rtc pool_step (pool_new n w) p ->
  p_started p ++ ex_queue (p_ex p) = p_submitted p /\
  p_finished p ++ running (ex_workers (p_ex p)) ≡ₚ p_started p /\
  cb_context <$> p_calls p = rq_context <$> p_finished p /\
  (Forall (fun s => s = @Stopped D) (ex_workers (p_ex p)) -> ex_workers (p_ex p) <> [] ->
     p_finished p ≡ₚ p_submitted p /\ destroy_cleanup (p_ex p) = ([], [])).
Proof.
  intros H. assert (pool_inv p) as [_ Hf Hr Hc Hs].
  { eapply rtc_invariant; [apply pool_step_inv|apply pool_new_inv|exact H]. }
  split_and!; [done..|]. intros Hall Hne.
  assert (Exists (fun s => s = @Stopped D) (ex_workers (p_ex p))) as [_ Hq]%Hs.
  { destruct (ex_workers (p_ex p)); [done|]. inversion Hall; subst. by left. }
  assert (running (ex_workers (p_ex p)) = []) as Hrun.
  { clear -Hall. induction Hall as [|s ws -> _ IH]; [done|]. exact IH. }
  rewrite Hrun, app_nil_r in Hr. rewrite Hq, app_nil_r in Hf. rewrite Hr, Hf. split; [done|].
  unfold destroy_cleanup. by rewrite Hq.
Qed.

(** An asynchronous submission either queues the request without calling
    back, or calls back once with an error and releases the call's data. *)
Theorem submit_async_one_callback ctx_ok alloc_ok ex name args ud destroy user_data :
  let '(ex', calls, freed) :=
    tool_executor_submit_async_with_user_data ctx_ok alloc_ok ex name args ud destroy user_data in
  (calls = [] /\ freed = [] /\ ex' = enqueue ex (mkRequest user_data name (default $"{}" args) ud destroy)) \/
  (ex' = ex /\ (exists c, calls = [c] /\ cb_context c = user_data /\ is_err (cb_error c) = true) /\
   freed = match ud with Some d => if destroy then [d] else [] | None => [] end).
Proof.
  unfold tool_executor_submit_async_with_user_data, tool_executor_submit_with_user_data.
  destruct ctx_ok; [destruct alloc_ok|]; cbn; [by left|right|right]; split_and!; try done; by eexists.
Qed.
End Executor.

Arguments pool : clear implicits.

(** ** Waiting for a result with a time-out

    [tool_executor_execute_sync] and [sync_callback] share a context with two
    references. The caller is waiting, is about to drop its reference, or has
    returned; the callback has not run, is about to drop its reference, or is
    done. *)
Inductive caller := CWait | CLeaving (e : option Error) | CReturned (e : Error).
Inductive callback_phase := KPending | KLeaving | KDone.

Record SyncExecution := mkSync {
  sc_result : cstr;             (* the caller's result string *)
  sc_err : Error;               (* the caller's error variable *)
  sc_done : bool;
  sc_timed_out : bool;
  sc_refs : Z;
  sc_frees : nat;               (* times the context was freed *)
  sc_late_writes : nat;         (* writes to the caller's variables after it left the wait *)
  sc_caller : caller;
  sc_callback : callback_phase;
}.

Definition sync_new (result : cstr) : SyncExecution :=
  mkSync result err_ok false false 2 0 0 CWait KPending.

(** [sync_context_release]. *)
Definition sync_context_release (s : SyncExecution) : SyncExecution :=
  let refs := (sc_refs s - 1)%Z in
  mkSync (sc_result s) (sc_err s) (sc_done s) (sc_timed_out s) refs
    (if (refs =? 0)%Z then S (sc_frees s) else sc_frees s) (sc_late_writes s) (sc_caller s) (sc_callback s).

Definition set_phases (s : SyncExecution) (c : caller) (k : callback_phase) : SyncExecution :=
  mkSync (sc_result s) (sc_err s) (sc_done s) (sc_timed_out s) (sc_refs s) (sc_frees s) (sc_late_writes s) c k.

(** The part of [sync_callback] under the mutex. *)
Definition sync_callback (s : SyncExecution) (result : option cstr) (err : Error) : SyncExecution :=
  if sc_timed_out s then set_phases s (sc_caller s) KLeaving
  else
    mkSync (sc_result s ++ default [] result) err true false (sc_refs s) (sc_frees s)
      (match sc_caller s with CWait => sc_late_writes s | _ => S (sc_late_writes s) end)
      (sc_caller s) KLeaving.

(** One evaluation of the caller's loop, after its wait returned; [timed_out]:
    the wait returned [ETIMEDOUT]. *)
Definition sync_wake (s : SyncExecution) (timed_out : bool) : SyncExecution :=
  if timed_out then
    mkSync (sc_result s) (sc_err s) (sc_done s) true (sc_refs s) (sc_frees s) (sc_late_writes s)
      (CLeaving (Some (error_new ERR_TIMEOUT (Some $"Tool execution timed out")))) (sc_callback s)
  else if sc_done s then set_phases s (CLeaving None) (sc_callback s)
  else s.

Inductive sync_step : SyncExecution -> SyncExecution -> Prop :=
  | sync_step_callback s result err : sc_callback s = KPending ->
      sync_step s (sync_callback s result err)
  | sync_step_callback_release s : sc_callback s = KLeaving ->
      sync_step s (set_phases (sync_context_release s) (sc_caller s) KDone)
  | sync_step_wake s timed_out : sc_caller s = CWait ->
      sync_step s (sync_wake s timed_out)
  | sync_step_return s e : sc_caller s = CLeaving e ->
      sync_step s (set_phases (sync_context_release s) (CReturned (default (sc_err s) e)) (sc_callback s)).

Definition caller_holds (c : caller) : Z := match c with CReturned _ => 0 | _ => 1 end.
Definition callback_holds (k : callback_phase) : Z := match k with KDone => 0 | _ => 1 end.

Record sync_inv (s : SyncExecution) : Prop := {
  si_refs : sc_refs s = (caller_holds (sc_caller s) + callback_holds (sc_callback s))%Z;
  si_frees : sc_frees s = if (sc_refs s =? 0)%Z then 1 else 0;
  si_late : sc_late_writes s = 0;
  si_left : sc_caller s <> CWait -> sc_done s = true \/ sc_timed_out s = true;
  si_done : sc_done s = true -> sc_callback s <> KPending;
}.

Lemma sync_step_inv s s' : sync_inv s -> sync_step s s' -> sync_inv s'.
Proof.
  intros [Hr Hf Hl Hc Hd] Hstep. inversion Hstep; subst; clear Hstep.
  - unfold sync_callback. rewrite H in Hr. destruct (sc_timed_out s) eqn:Et.
    + split; cbn; [done..|auto|done].
    + assert (sc_caller s = CWait) as Hw.
      { destruct (sc_caller s); [done|..]; destruct Hc as [Hx|Hx]; try done; by apply Hd in Hx. }
      split; cbn; rewrite ?Hw in *; try done.
  - rewrite H in Hr. unfold sync_context_release, set_phases.
    assert ((sc_refs s =? 0)%Z = false) as E by (apply Z.eqb_neq; rewrite Hr; destruct (sc_caller s); cbn; lia).
    rewrite E in Hf. split; cbn; [rewrite Hr; cbn; lia| |done|done|done].
    rewrite Hf. by destruct (sc_refs s - 1 =? 0)%Z.
  - rewrite H in Hr. unfold sync_wake. destruct timed_out.
    + split; cbn; [done..|by right|done].
    + destruct (sc_done s) eqn:Ed; [|by split; rewrite ?H, ?Ed in *]. split; cbn; rewrite ?Ed; try done. by left.
  - rewrite H in Hr. unfold sync_context_release, set_phases.
    assert ((sc_refs s =? 0)%Z = false) as E by (apply Z.eqb_neq; rewrite Hr; destruct (sc_callback s); cbn; lia).
    rewrite E in Hf. split; cbn; [rewrite Hr; cbn; lia| |done| |done].
    + rewrite Hf. by destruct (sc_refs s - 1 =? 0)%Z.
    + intros _. apply Hc. by rewrite H.
Qed.

(** C8: However the callback and a timing-out caller interleave, the shared
    context is freed at most once, exactly when both have dropped their
    reference, and the callback never writes to the caller's result or error
    after the caller stopped waiting. *)
Theorem sync_execution_safe result s :
  rtc sync_step (sync_new result) s ->
  sc_late_writes s = 0 /\
  sc_frees s = match sc_caller s, sc_callback s with CReturned _, KDone => 1 | _, _ => 0 end.
Proof.
  intros H. assert (sync_inv s) as [Hr Hf Hl _ _].
  { eapply rtc_invariant; [apply sync_step_inv| |exact H]. by split. }
  split; [done|]. rewrite Hf, Hr. by destruct (sc_caller s), (sc_callback s).
Qed.

Lemma sync_execution_safe_witness :
  let s := set_phases (sync_context_release (sync_wake (sync_callback (sync_new []) (Some $"x") err_ok) false)) (CReturned err_ok) KLeaving in
  sc_late_writes s = 0 /\ sc_frees s = 0.
Proof.
  apply (sync_execution_safe []).
  eapply rtc_l; [by apply (sync_step_callback _ (Some $"x") err_ok)|].
  eapply rtc_l; [by apply (sync_step_wake _ false)|].
  eapply rtc_l; [by eapply (sync_step_return _ None)|]. apply rtc_refl.
Defined.

Lemma pool_runs_each_once_witness :
  let reg := mkRegistry [demo_tool $"a" 1] 8 in
  let r := mkRequest 7 $"a" $"{}" None false in
  let p := mkPool (set_worker (mkExecutor [] false false [Waiting; Waiting]) 0 (Running r)) tt [r] [r] [] [] in
  rtc (pool_step reg) (pool_new 0 tt) p /\ p_finished p ++ running (ex_workers (p_ex p)) ≡ₚ p_started p.
Proof.
  assert (rtc (pool_step (mkRegistry [demo_tool $"a" 1] 8)) (pool_new 0 tt)
    (mkPool (set_worker (mkExecutor [] false false [Waiting; Waiting]) 0 (Running (mkRequest 7 $"a" $"{}" None false)))
      tt [mkRequest 7 $"a" $"{}" None false] [mkRequest 7 $"a" $"{}" None false] [] [])) as H.
  { eapply rtc_l; [by apply (pool_submit _ _ _ _ _ _ _ (mkRequest 7 $"a" $"{}" None false))|].
    eapply rtc_l; [by eapply (pool_take _ _ _ _ _ _ _ 0)|]. apply rtc_refl. }
  split; [exact H|]. destruct (pool_runs_each_once _ 0 tt _ H) as (_ & Hp & _). exact Hp.
Defined.
