(* ===== verification/ToolContext.v ===== *)
(** [src/tools/tools_impl.c], routing part: the context a built-in tool runs
    with, its route (the conversation that answers go to), and the private
    copy made for each call. *)
From S2P Require Import Prelude CStr.

Definition TOOL_CONTEXT_MAGIC : Z := 1346849329.   (* 0x50474E31 *)

(** [ctx_services] stands for the pointers to the runtime's services, which
    the routing functions only copy. *)
Record ToolContext := mkToolContext {
  ctx_magic : Z;
  ctx_services : nat;
  ctx_current_channel : cstr;
  ctx_current_chat_id : cstr;
}.

#[export] Instance ToolContext_eq_dec : EqDecision ToolContext.
Proof. solve_decision. Defined.

Definition tool_context_new (alloc_ok : bool) (services : nat) : option ToolContext :=
  if alloc_ok then
    Some (mkToolContext TOOL_CONTEXT_MAGIC services (truncate_to 128 $"cli") (truncate_to 512 $"current"))
  else None.

Definition tool_context_set_route (ctx : ToolContext) (channel chat_id : option cstr) : ToolContext :=
  if (ctx_magic ctx =? TOOL_CONTEXT_MAGIC)%Z then
    mkToolContext (ctx_magic ctx) (ctx_services ctx)
      (match channel with Some c => truncate_to 128 c | None => [] end)
      (match chat_id with Some c => truncate_to 512 c | None => [] end)
  else ctx.

Definition tool_context_clone_with_route (alloc_ok : bool) (ctx : ToolContext) (channel chat_id : option cstr) : option ToolContext :=
  if (ctx_magic ctx =? TOOL_CONTEXT_MAGIC)%Z && alloc_ok then
    Some (tool_context_set_route
      (mkToolContext TOOL_CONTEXT_MAGIC (ctx_services ctx) (ctx_current_channel ctx) (ctx_current_chat_id ctx))
      channel chat_id)
  else None.

(** [tool_context_destroy]: whether the context is freed; the stamp is cleared
    first, so a stale pointer is not freed again. *)
Definition tool_context_destroy (ctx : ToolContext) : ToolContext * bool :=
  if (ctx_magic ctx =? TOOL_CONTEXT_MAGIC)%Z
  then (mkToolContext 0 (ctx_services ctx) (ctx_current_channel ctx) (ctx_current_chat_id ctx), true)
  else (ctx, false).

(** The private copy of a call carries the route of that call and shares
    the services; later routing of the original does not reach it, and a
    context is released once. *)
Theorem tool_context_clone_route ctx channel chat_id c :
  tool_context_clone_with_route true ctx (Some channel) (Some chat_id) = Some c ->
  ctx_current_channel c = truncate_to 128 channel /\ ctx_current_chat_id c = truncate_to 512 chat_id /\
  ctx_services c = ctx_services ctx /\
  snd (tool_context_destroy c) = true /\ snd (tool_context_destroy (fst (tool_context_destroy c))) = false.
Proof.
  unfold tool_context_clone_with_route. destruct (ctx_magic ctx =? TOOL_CONTEXT_MAGIC)%Z; [|done].
  intros [= <-]. unfold tool_context_set_route. done.
Qed.

Lemma tool_context_clone_route_witness :
  ctx_current_channel (mkToolContext TOOL_CONTEXT_MAGIC 3 $"web" $"42") = truncate_to 128 $"web" /\
  ctx_current_chat_id (mkToolContext TOOL_CONTEXT_MAGIC 3 $"web" $"42") = truncate_to 512 $"42" /\ 3 = 3 /\
  true = true /\ false = false.
Proof.
  apply (tool_context_clone_route (mkToolContext TOOL_CONTEXT_MAGIC 3 $"cli" $"current") $"web" $"42"
    (mkToolContext TOOL_CONTEXT_MAGIC 3 $"web" $"42")). by vm_compute.
Defined.
