(* ===== verification/ToolValidation.v ===== *)
(** [src/tools/tool_validation.c]: the arguments of a tool call checked and
    cast against the JSON schema of the tool. *)
From S2P Require Import Prelude CStr Json JsonTree.

(** ** The list of errors *)

Record ValidationErrorList := mkErrors { vl_errors : list cstr; vl_capacity : nat }.

Definition validation_list_new : ValidationErrorList := mkErrors [] 8.

Definition validation_list_add (list : ValidationErrorList) (msg : cstr) : ValidationErrorList :=
  let capacity := if Nat.leb (vl_capacity list) (length (vl_errors list)) then 2 * vl_capacity list else vl_capacity list in
  mkErrors (vl_errors list ++ [truncate_to 256 msg]) capacity.

Fixpoint join_errors (errors : list cstr) (separator : cstr) : cstr :=
  match errors with
  | [] => []
  | [e] => e
  | e :: r => e ++ separator ++ join_errors r separator
  end.

(** The size of the buffer, its terminator aside, and the text. *)
Definition join_reserved (errors : list cstr) (separator : cstr) : nat :=
  fold_right (fun e n => length e + length separator + n) 0 errors.

Definition validation_list_join (list : ValidationErrorList) (separator : cstr) : option cstr :=
  match vl_errors list with [] => None | errors => Some (join_errors errors separator) end.

(** ** [strtod] on any text

    Besides decimal numbers it reads hexadecimal ones, infinities and NaNs.
    [None] stands for a value that is not finite. *)
Fixpoint hex_digits (acc : Z) (s : cstr) : Z * cstr :=
  match s with
  | a :: s' => match hex_value a with Some d => hex_digits (acc * 16 + Z.of_N d) s' | None => (acc, s) end
  | [] => (acc, [])
  end.

(** [m * 2 ^ e] as a decimal. *)
Definition num_pow2 (m e : Z) : num :=
  if (0 <=? e)%Z then mkNum (m * 2 ^ e) 0 else mkNum (m * 5 ^ (- e)) e.

(** A prefix, ignoring case. *)
Definition starts_nocase (p s : cstr) : bool := bool_decide (tolower <$> take (length p) s = p).

Definition strtod_hex (neg : bool) (u : cstr) : option (num * cstr) :=
  let '(ip, u1) := hex_digits 0 u in
  let n1 := length u - length u1 in
  let '(m, u2, nf) :=
    match u1 with
    | "."%char :: v => let '(fp, w) := hex_digits ip v in
                       if Nat.eqb n1 0 && Nat.eqb (length v - length w) 0 then (ip, u1, 0)
                       else (fp, w, length v - length w)
    | _ => (ip, u1, 0)
    end in
  if Nat.eqb n1 0 && Nat.eqb nf 0 then None
  else
    let '(e, u3) :=
      match u2 with
      | c :: v =>
          if bool_decide (tolower c = "p"%char) then
            let '(eneg, v1) := match v with
                               | "-"%char :: w => (true, w) | "+"%char :: w => (false, w) | _ => (false, v) end in
            let '(ev, v2) := digits_value 0 v1 in
            if Nat.eqb (length v1 - length v2) 0 then (0%Z, u2) else ((if eneg then - ev else ev)%Z, v2)
          else (0%Z, u2)
      | [] => (0%Z, u2)
      end in
    Some (num_pow2 (if neg then - m else m) (e - 4 * Z.of_nat nf), u3).

(** The text after [nan]: an optional parenthesised word. *)
Definition after_nan (s : cstr) : cstr :=
  match s with
  | "("%char :: v =>
      match drop_while (fun c => isalnum c || bool_decide (c = "_"%char)) v with
      | ")"%char :: r => r
      | _ => s
      end
  | _ => s
  end.

(** The value, and the text where the conversion stops (the whole text when
    there is nothing to convert, with the value zero). *)
Definition strtod_any (s : cstr) : option num * cstr :=
  let t := drop_while isspace s in
  let '(neg, u) := match t with
                   | "-"%char :: u => (true, u) | "+"%char :: u => (false, u) | _ => (false, t) end in
  let zero := Some (mkNum 0 0) in
  if starts_nocase $"infinity" u then (None, drop 8 u)
  else if starts_nocase $"inf" u then (None, drop 3 u)
  else if starts_nocase $"nan" u then (None, after_nan (drop 3 u))
  else
    let decimal := match strtod s with Some (n, r) => (Some n, r) | None => (zero, s) end in
    if starts_nocase $"0x" u then
      match strtod_hex neg (drop 2 u) with Some (n, r) => (Some n, r) | None => decimal end
    else decimal.

(** ** Casts *)

Definition is_nil (s : cstr) : bool := match s with [] => true | _ => false end.

Definition cast_to_string (val : json) : option cstr :=
  match val with
  | JStr s => Some s
  | JNum n => Some (truncate_to 64 (fmt_g 6 n))
  | JBool b => Some (if b then $"true" else $"false")
  | JNull => Some $"null"
  | _ => cJSON_PrintUnformatted val
  end.

Definition cast_to_int (val : json) : option Z :=
  match val with
  | JNum n => Some (valueint n)
  | JStr s => let '(v, endptr) := strtol s in if is_nil endptr then Some (wrap_s 32 v) else None
  | _ => None
  end.

(** The number as it is printed: a value that is not finite prints as null. *)
Definition json_number (v : option num) : json := match v with Some n => JNum n | None => JNull end.

Definition cast_to_number (val : json) : option (option num) :=
  match val with
  | JNum n => Some (Some n)
  | JStr s => let '(v, endptr) := strtod_any s in if is_nil endptr then Some v else None
  | _ => None
  end.

Definition cast_to_bool (val : json) : option bool :=
  match val with
  | JBool b => Some b
  | JStr s =>
      if strcasecmp_eq s $"true" || strcasecmp_eq s $"yes" || str_eq s $"1" then Some true
      else if strcasecmp_eq s $"false" || strcasecmp_eq s $"no" || str_eq s $"0" then Some false
      else None
  | JNum n => Some (negb (valueint n =? 0)%Z)
  | _ => None
  end.

(** ** One property *)

(** An integer attribute of the property's schema. *)
Definition int_attr (prop_schema : json) (name : cstr) : option Z :=
  valueint <$> is_number (get_object_item (Some prop_schema) name).

(** An error when [bad] holds of the attribute. *)
Definition check_attr (prop_schema : json) (name : cstr) (bad : Z -> bool) (msg : Z -> cstr) : list cstr :=
  match int_attr prop_schema name with
  | Some limit => if bad limit then [msg limit] else []
  | None => []
  end.

(** [(int)strlen(s)]. *)
Definition int_strlen (s : cstr) : Z := wrap_s 32 (Z.of_nat (length s)).

Definition check_string (prop_name : cstr) (prop_schema : json) (str_val : cstr) : list cstr :=
  check_attr prop_schema $"minLength" (fun l => int_strlen str_val <? l)%Z
    (fun l => prop_name ++ $" must be at least " ++ fmt_d l ++ $" characters") ++
  check_attr prop_schema $"maxLength" (fun l => l <? int_strlen str_val)%Z
    (fun l => prop_name ++ $" must be at most " ++ fmt_d l ++ $" characters") ++
  match is_array (get_object_item (Some prop_schema) $"enum") with
  | Some enum_item =>
      if existsb (fun e => match is_string (Some e) with Some v => str_eq v str_val | None => false end) enum_item then []
      else [prop_name ++ $" must be one of the allowed values"]
  | None => []
  end.

Definition check_integer (prop_name : cstr) (prop_schema : json) (int_val : Z) : list cstr :=
  check_attr prop_schema $"minimum" (fun l => int_val <? l)%Z (fun l => prop_name ++ $" must be >= " ++ fmt_d l) ++
  check_attr prop_schema $"maximum" (fun l => l <? int_val)%Z (fun l => prop_name ++ $" must be <= " ++ fmt_d l).

Definition option_list {A} (x : option A) : list A := match x with Some a => [a] | None => [] end.

(** What one property adds: to the result, and to the errors. *)
Definition cast_property (prop_name : cstr) (prop_schema arg_val : json) : list json * list cstr :=
  let expected_type := is_string (get_object_item (Some prop_schema) $"type") in
  let is_type t := match expected_type with Some e => str_eq e t | None => false end in
  if is_type $"string" then
    match cast_to_string arg_val with
    | Some str_val => ([JStr str_val], check_string prop_name prop_schema str_val)
    | None => ([], [])
    end
  else if is_type $"integer" then
    match cast_to_int arg_val with
    | Some int_val => ([JNum (num_of_Z int_val)], check_integer prop_name prop_schema int_val)
    | None => ([], [prop_name ++ $" must be an integer"])
    end
  else if is_type $"number" || is_type $"float" then
    match cast_to_number arg_val with
    | Some num_val => ([json_number num_val], [])
    | None => ([], [prop_name ++ $" must be a number"])
    end
  else if is_type $"boolean" then
    match cast_to_bool arg_val with
    | Some bool_val => ([JBool bool_val], [])
    | None => ([], [prop_name ++ $" must be a boolean"])
    end
  else if is_type $"array" then
    match arg_val with
    | JArr items => ([JArr (omap cJSON_Duplicate items)], [])
    | _ => ([], [prop_name ++ $" must be an array"])
    end
  else if is_type $"object" then
    match arg_val with
    | JObj _ => (option_list (cJSON_Duplicate arg_val), [])
    | _ => ([], [prop_name ++ $" must be an object"])
    end
  else (option_list (cJSON_Duplicate arg_val), []).

(** ** The whole call *)

Definition check_required (args : json) (errors : ValidationErrorList) (req_item : json) : ValidationErrorList :=
  match is_string (Some req_item) with
  | Some req_name =>
      match get_object_item (Some args) req_name with
      | Some _ => errors
      | None => validation_list_add errors ($"missing required parameter: " ++ req_name)
      end
  | None => errors
  end.

Definition process_property (args : json) (st : list (cstr * json) * ValidationErrorList) (prop : cstr * json) :
    list (cstr * json) * ValidationErrorList :=
  let '(result, errors) := st in
  let '(prop_name, prop_schema) := prop in
  match get_object_item (Some args) prop_name with
  | None => st
  | Some arg_val =>
      let '(vs, es) := cast_property prop_name prop_schema arg_val in
      (result ++ ((fun v : json => (prop_name, v)) <$> vs), fold_left validation_list_add es errors)
  end.

(** The copy of the arguments when the schema names no properties. *)
Definition copy_all (args : json) : list (cstr * json) :=
  omap (fun item => match fst item, cJSON_Duplicate (snd item) with
                    | Some name, Some copy => Some (name, copy)
                    | _, _ => None
                    end) (children args).

Definition validate_and_cast (args schema : json) : list (cstr * json) * ValidationErrorList :=
  let errors :=
    match is_array (get_object_item (Some schema) $"required") with
    | Some required => fold_left (check_required args) required validation_list_new
    | None => validation_list_new
    end in
  match is_object (get_object_item (Some schema) $"properties") with
  | Some properties => fold_left (process_property args) properties ([], errors)
  | None => (copy_all args, errors)
  end.

(** The casted text, and [error_msg]; [None] is NULL. *)
Definition tool_validate_and_cast_params (args_json : cstr) (schema_json : option cstr) : option cstr * option cstr :=
  match cJSON_Parse args_json with
  | None => (None, Some $"Invalid JSON arguments")
  | Some args =>
      match schema_json with
      | None | Some [] => (cJSON_PrintUnformatted args, None)
      | Some schema_json =>
          match cJSON_Parse schema_json with
          | None => (None, Some $"Invalid schema JSON")
          | Some schema =>
              let '(result, errors) := validate_and_cast args schema in
              match vl_errors errors with
              | [] => (cJSON_PrintUnformatted (JObj result), None)
              | _ => (None, validation_list_join errors $"; ")
              end
          end
      end
  end.

Definition tool_validate_params (args_json : cstr) (schema_json : option cstr) : option cstr :=
  snd (tool_validate_and_cast_params args_json schema_json).

Definition demo_schema : cstr :=
  $"{'type':'object','properties':{'path':{'type':'string','minLength':1},'limit':{'type':'integer','minimum':1,'maximum':9}},'required':['path']}".
(** The same with the quotes of JSON. *)
Definition quoted (s : cstr) : cstr := (fun c : ascii => if bool_decide (c = "'"%char) then ch_quote else c) <$> s.

Example cast_ok : tool_validate_and_cast_params (quoted $"{'limit':'7','path':3.5,'x':1}") (Some (quoted demo_schema)) =
  (Some (quoted $"{'path':'3.5','limit':7}"), None).
Proof. by vm_compute. Qed.
Example cast_errors : tool_validate_and_cast_params (quoted $"{'limit':'12'}") (Some (quoted demo_schema)) =
  (None, Some $"missing required parameter: path; limit must be <= 9").
Proof. by vm_compute. Qed.
Example number_hex : strtod_any $" -0x1.8p1z" = (Some (mkNum (-3000) (-3)), $"z").
Proof. by vm_compute. Qed.

(** ** What a schema asks of a value *)

Definition schema_type (prop_schema : json) : option cstr := is_string (get_object_item (Some prop_schema) $"type").

Inductive ptype := TString | TInteger | TNumber | TBoolean | TArray | TObject | TAny.

Definition ptype_of (prop_schema : json) : ptype :=
  match schema_type prop_schema with
  | None => TAny
  | Some t => if str_eq t $"string" then TString else if str_eq t $"integer" then TInteger
              else if str_eq t $"number" || str_eq t $"float" then TNumber
              else if str_eq t $"boolean" then TBoolean else if str_eq t $"array" then TArray
              else if str_eq t $"object" then TObject else TAny
  end.

Definition int_range (z : Z) : Prop := (- 2 ^ 31 <= z < 2 ^ 31)%Z.

Definition string_fits (prop_schema : json) (s : cstr) : Prop :=
  (forall l, int_attr prop_schema $"minLength" = Some l -> (l <= Z.of_nat (length s))%Z) /\
  (forall l, int_attr prop_schema $"maxLength" = Some l -> (Z.of_nat (length s) <= l)%Z) /\
  (forall items, is_array (get_object_item (Some prop_schema) $"enum") = Some items -> JStr s ∈ items).

Definition integer_fits (prop_schema : json) (z : Z) : Prop :=
  int_range z /\
  (forall l, int_attr prop_schema $"minimum" = Some l -> (l <= z)%Z) /\
  (forall l, int_attr prop_schema $"maximum" = Some l -> (z <= l)%Z).

(** A value conforms to the schema of its property: it has the type, and a
    string or an integer is within the limits. *)
Inductive conforms (prop_schema : json) : json -> Prop :=
  | conf_string s : ptype_of prop_schema = TString -> string_fits prop_schema s -> conforms prop_schema (JStr s)
  | conf_integer z : ptype_of prop_schema = TInteger -> integer_fits prop_schema z -> conforms prop_schema (JNum (num_of_Z z))
  | conf_number n : ptype_of prop_schema = TNumber -> conforms prop_schema (JNum n)
  | conf_boolean b : ptype_of prop_schema = TBoolean -> conforms prop_schema (JBool b)
  | conf_array l : ptype_of prop_schema = TArray -> conforms prop_schema (JArr l)
  | conf_object kvs : ptype_of prop_schema = TObject -> conforms prop_schema (JObj kvs)
  | conf_any v : ptype_of prop_schema = TAny -> conforms prop_schema v.

(** A cast number that is not finite is printed as null. *)
Definition conforms_or_null (prop_schema v : json) : Prop :=
  conforms prop_schema v \/ ptype_of prop_schema = TNumber /\ v = JNull.

Lemma cast_property_type prop_name prop_schema arg_val :
  cast_property prop_name prop_schema arg_val =
  match ptype_of prop_schema with
  | TString => match cast_to_string arg_val with
               | Some s => ([JStr s], check_string prop_name prop_schema s) | None => ([], []) end
  | TInteger => match cast_to_int arg_val with
                | Some z => ([JNum (num_of_Z z)], check_integer prop_name prop_schema z)
                | None => ([], [prop_name ++ $" must be an integer"]) end
  | TNumber => match cast_to_number arg_val with
               | Some v => ([json_number v], []) | None => ([], [prop_name ++ $" must be a number"]) end
  | TBoolean => match cast_to_bool arg_val with
                | Some b => ([JBool b], []) | None => ([], [prop_name ++ $" must be a boolean"]) end
  | TArray => match arg_val with
              | JArr items => ([JArr (omap cJSON_Duplicate items)], [])
              | _ => ([], [prop_name ++ $" must be an array"]) end
  | TObject => match arg_val with
               | JObj _ => (option_list (cJSON_Duplicate arg_val), [])
               | _ => ([], [prop_name ++ $" must be an object"]) end
  | TAny => (option_list (cJSON_Duplicate arg_val), [])
  end.
Proof.
  unfold cast_property, ptype_of, schema_type. destruct (is_string _) as [t|]; [|done].
  by repeat (case_match; try done).
Qed.

Lemma valueint_range n : int_range (valueint n).
Proof. unfold int_range, valueint, INT_MAX. lia. Qed.

Lemma wrap_s_range z : int_range (wrap_s 32 z).
Proof.
  unfold int_range, wrap_s. change (32 - 1)%Z with 31%Z. change (2 ^ 32)%Z with (2 ^ 31 + 2 ^ 31)%Z.
  pose proof (Z.mod_pos_bound (z + 2 ^ 31) (2 ^ 31 + 2 ^ 31)). lia.
Qed.

Lemma check_attr_nil prop_schema name bad msg :
  check_attr prop_schema name bad msg = [] <-> forall l, int_attr prop_schema name = Some l -> bad l = false.
Proof.
  unfold check_attr. destruct (int_attr _ _) as [l|]; [|done]. split.
  - intros H l' [= <-]. by destruct (bad l).
  - intros H. by rewrite (H l).
Qed.

Definition short (s : cstr) : Prop := (Z.of_nat (length s) < 2 ^ 31)%Z.

Lemma check_string_nil prop_name prop_schema s : short s ->
  check_string prop_name prop_schema s = [] <-> string_fits prop_schema s.
Proof.
  intros Hs. unfold check_string, string_fits.
  assert (int_strlen s = Z.of_nat (length s)) as -> by (apply wrap_s_id; unfold short in Hs; lia).
  rewrite !app_nil, !check_attr_nil. setoid_rewrite Z.ltb_ge. f_equiv. f_equiv.
  destruct (is_array _) as [items|]; [|done]. split.
  - destruct (existsb _ items) eqn:E; [|done]. intros _ items' [= <-].
    apply existsb_exists in E as (e & He & H). destruct e; try done. cbn in H.
    apply bool_decide_eq_true in H as ->. by apply list_elem_of_In.
  - intros H. specialize (H _ eq_refl). assert (existsb (fun e => match is_string (Some e) with Some v => str_eq v s | None => false end) items = true) as ->; [|done].
    apply existsb_exists. exists (JStr s). split; [by apply list_elem_of_In|]. by apply bool_decide_eq_true.
Qed.

Lemma check_integer_nil prop_name prop_schema z : int_range z ->
  check_integer prop_name prop_schema z = [] <-> integer_fits prop_schema z.
Proof.
  intros Hz. unfold check_integer, integer_fits. rewrite app_nil, !check_attr_nil. setoid_rewrite Z.ltb_ge. tauto.
Qed.

(** A cast without errors gives one conforming value. *)
Lemma cast_property_sound prop_name p v vs : nest_ok CJSON_NESTING_LIMIT v = true ->
  Forall (fun v' => match v' with JStr s => short s | _ => True end) vs ->
  cast_property prop_name p v = (vs, []) -> exists v', vs = [v'] /\ conforms_or_null p v'.
Proof.
  intros Hn Hshort. rewrite cast_property_type. destruct (ptype_of p) eqn:Et.
  - destruct (cast_to_string v) as [s|] eqn:Es.
    + intros [= <- Hc]. inversion Hshort; subst. apply check_string_nil in Hc; [|done].
      eexists. split; [done|]. left. by apply conf_string.
    + exfalso. destruct v; try done; cbn [cast_to_string] in Es;
        apply (cJSON_Print_nest false) in Hn as [t Ht]; unfold cJSON_PrintUnformatted in Es; congruence.
  - destruct (cast_to_int v) as [z|] eqn:Ez; [|done]. intros [= <- Hc].
    assert (int_range z) as Hz.
    { destruct v as [| |n|s| |]; try done; cbn [cast_to_int] in Ez.
      - injection Ez as <-. apply valueint_range.
      - destruct (strtol s) as [x e]. destruct (is_nil e); [|done]. injection Ez as <-. apply wrap_s_range. }
    apply (check_integer_nil _ _ _ Hz) in Hc. eexists. split; [done|]. left. by apply conf_integer.
  - destruct (cast_to_number v) as [[n|]|]; [| |done]; intros [= <-]; (eexists; split; [done|]);
      [left; by apply conf_number|by right].
  - destruct (cast_to_bool v) as [b|]; [|done]. intros [= <-]. eexists. split; [done|]. left. by apply conf_boolean.
  - destruct v; try done. intros [= <-]. eexists. split; [done|]. left. by apply conf_array.
  - destruct v as [| | | | |kvs]; try done. rewrite cJSON_Duplicate_nest by done. intros [= <-].
    eexists. split; [done|]. left. by apply conf_object.
  - rewrite cJSON_Duplicate_nest by done. intros [= <-]. eexists. split; [done|]. left. by apply conf_any.
Qed.

Lemma duplicate_children l : nest_ok CJSON_NESTING_LIMIT (JArr l) = true -> omap cJSON_Duplicate l = l.
Proof.
  unfold CJSON_NESTING_LIMIT. cbn [nest_ok]. rewrite forallb_forall. intros Hn.
  assert (forall x, In x l -> cJSON_Duplicate x = Some x) as H.
  { intros x Hx. apply cJSON_Duplicate_nest. eapply nest_ok_weaken; [|by apply Hn]. unfold CJSON_NESTING_LIMIT. lia. }
  clear Hn. induction l as [|x l IH]; [done|]. cbn. rewrite H by by left. f_equal. apply IH. intros y Hy. apply H. by right.
Qed.

(** A conforming value is left as it is. *)
Lemma cast_property_complete prop_name p v : nest_ok CJSON_NESTING_LIMIT v = true ->
  match v with JStr s => short s | _ => True end ->
  conforms p v -> cast_property prop_name p v = ([v], []).
Proof.
  intros Hn Hshort Hc. rewrite cast_property_type. destruct Hc as [s Et Hs|z Et Hz|n Et|b Et|l Et|kvs Et|v Et]; rewrite Et.
  - cbn [cast_to_string]. by rewrite (proj2 (check_string_nil prop_name p s Hshort) Hs).
  - cbn [cast_to_int]. assert (valueint (num_of_Z z) = z) as ->.
    { unfold valueint. rewrite num_trunc_Z. destruct Hz as [Hz _]. unfold int_range, INT_MAX in *. lia. }
    by rewrite (proj2 (check_integer_nil prop_name p z (proj1 Hz)) Hz).
  - done.
  - done.
  - do 4 f_equal. by apply duplicate_children.
  - by rewrite cJSON_Duplicate_nest.
  - by rewrite cJSON_Duplicate_nest.
Qed.

(** ** The whole object *)

(** The properties that are given, with their values. *)
Definition given (args : json) (properties : list (cstr * json)) : list ((cstr * json) * json) :=
  omap (fun p => (fun v : json => (p, v)) <$> get_object_item (Some args) (fst p)) properties.

Definition cast_given (g : (cstr * json) * json) : list json * list cstr := cast_property (fst (fst g)) (snd (fst g)) (snd g).

Lemma fold_add es l : vl_errors (fold_left validation_list_add es l) = vl_errors l ++ (truncate_to 256 <$> es).
Proof.
  revert l. induction es as [|e es IH]; intros l; cbn; [by rewrite app_nil_r|]. rewrite IH. cbn.
  by rewrite <-app_assoc.
Qed.

Lemma fold_process args properties : forall st,
  let r := fold_left (process_property args) properties st in
  fst r = fst st ++ (given args properties ≫= fun g => (fun v : json => (fst (fst g), v)) <$> fst (cast_given g)) /\
  vl_errors (snd r) = vl_errors (snd st) ++ (given args properties ≫= fun g => truncate_to 256 <$> snd (cast_given g)).
Proof.
  induction properties as [|[name p] ps IH]; intros [res errs]; [by rewrite !app_nil_r|].
  cbn [fold_left]. destruct (IH (process_property args (res, errs) (name, p))) as [-> ->].
  unfold process_property, given, cast_given. cbn [omap list_omap fst snd].
  destruct (get_object_item _ name) as [v|]; [|done]. cbn [fmap option_fmap option_map].
  cbn [mbind list_bind fst snd]. destruct (cast_property name p v) as [vs es]. cbn [fst snd].
  rewrite fold_add. by rewrite <-!app_assoc.
Qed.

Definition required_names (schema : json) : list cstr :=
  omap (fun j => is_string (Some j)) (default [] (is_array (get_object_item (Some schema) $"required"))).

Definition missing (args : json) (name : cstr) : bool :=
  match get_object_item (Some args) name with Some _ => false | None => true end.

Lemma fold_required args items : forall l,
  vl_errors (fold_left (check_required args) items l) =
    vl_errors l ++ ((fun n => truncate_to 256 ($"missing required parameter: " ++ n)) <$>
      List.filter (missing args) (omap (fun j => is_string (Some j)) items)).
Proof.
  induction items as [|j items IH]; intros l; cbn [fold_left omap list_omap]; [by rewrite app_nil_r|].
  rewrite IH. unfold check_required. destruct (is_string (Some j)) as [n|]; [|done]. cbn [List.filter].
  unfold missing at 2. destruct (get_object_item _ n); [done|]. cbn. by rewrite <-app_assoc.
Qed.

Lemma validate_and_cast_spec args schema properties :
  is_object (get_object_item (Some schema) $"properties") = Some properties ->
  let r := validate_and_cast args schema in
  fst r = (given args properties ≫= fun g => (fun v : json => (fst (fst g), v)) <$> fst (cast_given g)) /\
  (vl_errors (snd r) = [] <->
    Forall (fun n => is_Some (get_object_item (Some args) n)) (required_names schema) /\
    Forall (fun g => snd (cast_given g) = []) (given args properties)).
Proof.
  intros Hp. unfold validate_and_cast. rewrite Hp.
  destruct (fold_process args properties
    ([], match is_array (get_object_item (Some schema) $"required") with
         | Some required => fold_left (check_required args) required validation_list_new
         | None => validation_list_new end)) as [-> ->]. split; [done|]. cbn [snd].
  rewrite app_nil. f_equiv.
  - unfold required_names. destruct (is_array _) as [items|]; cbn [from_option id omap list_omap]; [|by rewrite Forall_nil].
    rewrite fold_required. cbn [vl_errors validation_list_new app].
    induction (omap _ items) as [|n ns IH]; [by rewrite Forall_nil|].
    rewrite Forall_cons, <-IH. cbn [List.filter]. unfold missing at 1.
    destruct (get_object_item _ n); [|split; [by rewrite fmap_cons|by intros [[? [=]] _]]].
    split; [intros ?; split; [by eexists|done]|by intros [_ ?]].
  - induction (given args properties) as [|g gs IH]; cbn; [by rewrite Forall_nil|].
    rewrite app_nil, Forall_cons, IH. f_equiv. by destruct (snd (cast_given g)).
Qed.

(** The printed text is at least as long as any string in it. *)
Lemma print_members_length kvs d t name s : print_members (print_value false d) false d kvs = Some t ->
  (name, JStr s) ∈ kvs -> length s <= length t.
Proof.
  revert t. induction kvs as [|[k v] kvs IH]; intros t; [by intros _ ?%elem_of_nil|].
  cbn [print_members]. destruct (print_value false d v) as [a|] eqn:Ea; [|done].
  destruct (print_members _ _ _ kvs) as [b|] eqn:Eb; [|done]. intros [= <-] [E|Hin]%elem_of_cons.
  - injection E as -> <-. assert (length s <= length a) as Ha.
    { assert (a = print_string_ptr s) as -> by (by destruct d; injection Ea). pose proof (escape_length s).
      unfold print_string_ptr. cbn [length]. rewrite length_app. lia. }
    repeat (rewrite length_app || cbn [length]). lia.
  - specialize (IH _ eq_refl Hin). repeat (rewrite length_app || cbn [length]). lia.
Qed.

Lemma print_object_length kvs t name s : cJSON_PrintUnformatted (JObj kvs) = Some t -> (name, JStr s) ∈ kvs -> length s <= length t.
Proof.
  unfold cJSON_PrintUnformatted. cbn [print_value]. case_match; [done|].
  destruct (print_members _ _ _ kvs) as [b|] eqn:Eb; [|done]. intros [= <-] Hin.
  apply (print_members_length _ _ _ _ _ Eb) in Hin. repeat (rewrite length_app || cbn [length]). lia.
Qed.

Lemma get_object_item_nest b args name v : nest_ok (S b) args = true ->
  get_object_item (Some args) name = Some v -> nest_ok b v = true.
Proof.
  destruct args as [| | | | |kvs]; try done. cbn [nest_ok get_object_item]. rewrite forallb_forall. unfold find_member.
  destruct (List.find _ kvs) as [kv|] eqn:E; [|done]. intros H [= <-]. apply find_some in E as [Hin _]. by apply H.
Qed.

Lemma given_value args properties g : g ∈ given args properties -> get_object_item (Some args) (fst (fst g)) = Some (snd g).
Proof.
  unfold given. rewrite list_elem_of_omap. intros (p & _ & H).
  destruct (get_object_item _ (fst p)) as [v|] eqn:E; [|done]. by injection H as <-.
Qed.

Lemma given_nest args properties : nest_ok CJSON_NESTING_LIMIT args = true ->
  Forall (fun g => nest_ok CJSON_NESTING_LIMIT (snd g) = true) (given args properties).
Proof.
  intros Hn. apply Forall_forall. intros g Hg%given_value.
  eapply nest_ok_weaken; [apply Nat.le_pred_l|]. eapply get_object_item_nest; [|exact Hg]. exact Hn.
Qed.

Lemma cast_given_sound gs result :
  Forall (fun g => nest_ok CJSON_NESTING_LIMIT (snd g) = true) gs -> Forall (fun g => snd (cast_given g) = []) gs ->
  result = (gs ≫= fun g => (fun v : json => (fst (fst g), v)) <$> fst (cast_given g)) ->
  (forall name s, (name, JStr s) ∈ result -> short s) ->
  Forall2 (fun g kv => fst kv = fst (fst g) /\ conforms_or_null (snd (fst g)) (snd kv)) gs result.
Proof.
  intros Hn Hok ->. induction gs as [|g gs IH]; intros Hshort; [constructor|].
  apply Forall_cons in Hn as [Hg Hn]. apply Forall_cons in Hok as [Hok Hoks]. cbn [mbind list_bind].
  destruct (cast_property_sound (fst (fst g)) (snd (fst g)) (snd g) (fst (cast_given g)) Hg) as (v & Hv & Hc).
  - apply Forall_forall. intros v Hv. destruct v as [| | |s| |]; try done. apply (Hshort (fst (fst g))).
    cbn [mbind list_bind]. apply elem_of_app. left. apply list_elem_of_fmap. by exists (JStr s).
  - unfold cast_given in *. by rewrite <-Hok, <-surjective_pairing.
  - rewrite Hv. constructor; [done|]. apply IH; [done|done|]. intros name s Hin. apply (Hshort name).
    cbn [mbind list_bind]. apply elem_of_app. by right.
Qed.

(** C13: What validation returns conforms to the schema: every required
    parameter is given, and the object that is printed has one member per
    given property, in the order of the schema, with the type of the property
    and within its limits (null for a number that is not finite). *)
Theorem tool_validate_conforms args_json schema_json args schema properties r :
  cJSON_Parse args_json = Some args -> cJSON_Parse schema_json = Some schema ->
  is_object (get_object_item (Some schema) $"properties") = Some properties ->
  tool_validate_and_cast_params args_json (Some schema_json) = (Some r, None) -> short r ->
  Forall (fun n => is_Some (get_object_item (Some args) n)) (required_names schema) /\
  exists result, cJSON_PrintUnformatted (JObj result) = Some r /\
    Forall2 (fun g kv => fst kv = fst (fst g) /\ conforms_or_null (snd (fst g)) (snd kv)) (given args properties) result.
Proof.
  intros Ha Hs Hp. unfold tool_validate_and_cast_params. rewrite Ha. destruct schema_json as [|c s]; [done|]. rewrite Hs.
  destruct (validate_and_cast_spec args schema properties Hp) as [Hres Herr].
  destruct (validate_and_cast args schema) as [result errors]. cbn [fst snd] in *.
  destruct (vl_errors errors) as [|e es]; [|by intros [=]]. intros [= Hr] Hshort.
  destruct (proj1 Herr eq_refl) as [Hreq Hok]. split; [done|]. exists result. split; [done|].
  apply cast_given_sound; [by apply given_nest, (cJSON_Parse_nest args_json)|done|done|].
  intros name t Hin. eapply print_object_length in Hin; [|done]. unfold short in *. lia.
Qed.

(** Arguments that already conform are accepted as they are: when every
    required parameter is given and every given property conforms, the result
    is the object of the given properties, uncast; so casting is idempotent. *)
Theorem tool_validate_accepts args_json schema_json args schema properties :
  cJSON_Parse args_json = Some args -> cJSON_Parse schema_json = Some schema ->
  is_object (get_object_item (Some schema) $"properties") = Some properties ->
  Forall (fun n => is_Some (get_object_item (Some args) n)) (required_names schema) ->
  Forall (fun g => conforms (snd (fst g)) (snd g) /\ match snd g with JStr s => short s | _ => True end) (given args properties) ->
  exists r, tool_validate_and_cast_params args_json (Some schema_json) = (Some r, None) /\
    cJSON_PrintUnformatted (JObj ((fun g => (fst (fst g), snd g)) <$> given args properties)) = Some r.
Proof.
  intros Ha Hs Hp Hreq Hc. pose proof (given_nest args properties (cJSON_Parse_nest _ _ Ha)) as Hn.
  assert (Forall (fun g => cast_given g = ([snd g], [])) (given args properties)) as Hcast.
  { apply Forall_forall. intros g Hg. rewrite Forall_forall in Hn, Hc. destruct (Hc _ Hg) as [H1 H2].
    apply cast_property_complete; [by apply Hn|done|done]. }
  unfold tool_validate_and_cast_params. rewrite Ha. destruct schema_json as [|c s]; [done|]. rewrite Hs.
  destruct (validate_and_cast_spec args schema properties Hp) as [Hres Herr].
  destruct (validate_and_cast args schema) as [result errors]. cbn [fst snd] in *.
  rewrite (proj2 Herr) by (split; [done|]; eapply Forall_impl; [exact Hcast|]; by intros g ->).
  assert (result = (fun g => (fst (fst g), snd g)) <$> given args properties) as ->.
  { rewrite Hres. clear -Hcast. induction Hcast as [|g gs Hg _ IH]; [done|]. cbn [mbind list_bind]. rewrite Hg. cbn. by f_equal. }
  destruct (cJSON_Print_nest false (JObj ((fun g => (fst (fst g), snd g)) <$> given args properties))) as [r Hr]; [|exists r; unfold cJSON_PrintUnformatted; by rewrite Hr].
  apply cJSON_Parse_nest in Ha. unfold CJSON_NESTING_LIMIT in *. cbn [nest_ok]. rewrite forallb_forall.
  intros kv (g & -> & Hg%given_value)%list_elem_of_In%list_elem_of_fmap. cbn [snd]. by eapply get_object_item_nest.
Qed.

Lemma cast_property_nest b name p v : b <= CJSON_NESTING_LIMIT -> nest_ok b v = true ->
  Forall (fun v' => nest_ok b v' = true) (fst (cast_property name p v)).
Proof.
  intros Hb Hn. assert (nest_ok CJSON_NESTING_LIMIT v = true) as HL by (by eapply nest_ok_weaken).
  rewrite cast_property_type. destruct (ptype_of p).
  - destruct (cast_to_string v); by repeat constructor.
  - destruct (cast_to_int v); by repeat constructor.
  - destruct (cast_to_number v) as [[]|]; by repeat constructor.
  - destruct (cast_to_bool v); by repeat constructor.
  - destruct v; try by constructor. cbn [fst]. rewrite duplicate_children by done. by repeat constructor.
  - destruct v; try by constructor. cbn [fst]. rewrite cJSON_Duplicate_nest by done. by repeat constructor.
  - cbn [fst]. rewrite cJSON_Duplicate_nest by done. by repeat constructor.
Qed.

Lemma copy_all_nest b args : S b <= CJSON_NESTING_LIMIT -> nest_ok (S b) args = true -> nest_ok (S b) (JObj (copy_all args)) = true.
Proof.
  intros Hb Hn. cbn [nest_ok]. rewrite forallb_forall. intros kv Hin%list_elem_of_In. unfold copy_all in Hin.
  apply list_elem_of_omap in Hin as ([name v] & Hin & H). cbn [fst snd] in H. destruct name as [name|]; [|done].
  destruct args as [| | | |l|kvs]; try (by apply elem_of_nil in Hin); cbn [children] in Hin.
  - by apply list_elem_of_fmap in Hin as (? & [=] & _).
  - apply list_elem_of_fmap in Hin as (kv0 & [= -> ->] & Hin). cbn [nest_ok] in Hn. rewrite forallb_forall in Hn.
    apply list_elem_of_In, Hn in Hin. rewrite cJSON_Duplicate_nest in H by (eapply nest_ok_weaken; [|exact Hin]; lia).
    by injection H as <-.
Qed.

Lemma result_nest b args schema : S b <= CJSON_NESTING_LIMIT -> nest_ok (S b) args = true ->
  nest_ok (S b) (JObj (fst (validate_and_cast args schema))) = true.
Proof.
  intros Hb Hn. destruct (is_object (get_object_item (Some schema) $"properties")) as [properties|] eqn:E.
  - destruct (validate_and_cast_spec args schema properties E) as [-> _]. cbn [nest_ok]. rewrite forallb_forall.
    intros kv (g & Hin & Hg)%list_elem_of_In%list_elem_of_bind. apply given_value in Hg.
    apply (get_object_item_nest b) in Hg; [|done]. apply list_elem_of_fmap in Hin as (v & -> & Hv).
    eapply (cast_property_nest b) in Hg; [|lia]. rewrite Forall_forall in Hg. by apply Hg.
  - unfold validate_and_cast. rewrite E. cbn [fst]. by apply copy_all_nest.
Qed.

(** Validation always answers, and in exactly one way: a result and no
    error, or a non-empty error and no result; a caller may parse the result
    whenever it got no error. *)
Theorem tool_validate_total args_json schema_json :
  (exists r, tool_validate_and_cast_params args_json schema_json = (Some r, None)) \/
  (exists e, tool_validate_and_cast_params args_json schema_json = (None, Some e)).
Proof.
  unfold tool_validate_and_cast_params. destruct (cJSON_Parse args_json) as [args|] eqn:Ha; [|right; by eexists].
  apply cJSON_Parse_nest in Ha. destruct schema_json as [[|c s]|];
    [destruct (cJSON_Print_nest false args Ha) as [r Hr]; left; exists r; unfold cJSON_PrintUnformatted; by rewrite Hr| |
     destruct (cJSON_Print_nest false args Ha) as [r Hr]; left; exists r; unfold cJSON_PrintUnformatted; by rewrite Hr].
  destruct (cJSON_Parse (c :: s)) as [schema|]; [|right; by eexists].
  assert (nest_ok CJSON_NESTING_LIMIT (JObj (fst (validate_and_cast args schema))) = true) as Hn
    by (apply (result_nest (pred CJSON_NESTING_LIMIT)); [done|exact Ha]).
  destruct (validate_and_cast args schema) as [result errors]. cbn [fst] in Hn.
  unfold validation_list_join. destruct (vl_errors errors) as [|e es]; [|right; by eexists].
  destruct (cJSON_Print_nest false _ Hn) as [r Hr]. left. exists r. unfold cJSON_PrintUnformatted. by rewrite Hr.
Qed.

(** The list of errors never overflows its array or the joined text its
    buffer. *)
Lemma validation_list_add_fits list msg : length (vl_errors list) <= vl_capacity list -> 0 < vl_capacity list ->
  length (vl_errors (validation_list_add list msg)) <= vl_capacity (validation_list_add list msg) /\
  0 < vl_capacity (validation_list_add list msg).
Proof. unfold validation_list_add. cbn [vl_errors vl_capacity]. rewrite length_app. cbn [length]. destruct (Nat.leb_spec (vl_capacity list) (length (vl_errors list))); lia. Qed.

Lemma join_errors_fits errors separator : length (join_errors errors separator) <= join_reserved errors separator.
Proof.
  unfold join_reserved. induction errors as [|e [|e2 r] IH]; cbn; [lia|lia|]. cbn in IH. rewrite !length_app. lia.
Qed.

(** ** Witnesses *)

Definition demo_text (o : option cstr) : cstr := default [] o.
Definition demo_args : cstr := quoted $"{'limit':'7','path':3.5,'x':1}".
Definition demo_tree (s : cstr) : json := default JNull (cJSON_Parse s).
Definition demo_properties : list (cstr * json) :=
  default [] (is_object (get_object_item (Some (demo_tree (quoted demo_schema))) $"properties")).

Lemma tool_validate_conforms_witness :
  Forall (fun n => is_Some (get_object_item (Some (demo_tree demo_args)) n)) (required_names (demo_tree (quoted demo_schema))) /\
  exists result, cJSON_PrintUnformatted (JObj result) = Some (quoted $"{'path':'3.5','limit':7}") /\
    Forall2 (fun g kv => fst kv = fst (fst g) /\ conforms_or_null (snd (fst g)) (snd kv))
      (given (demo_tree demo_args) demo_properties) result.
Proof.
  apply (tool_validate_conforms demo_args (quoted demo_schema) (demo_tree demo_args) (demo_tree (quoted demo_schema)) demo_properties
    (quoted $"{'path':'3.5','limit':7}")); by vm_compute.
Defined.

Definition demo_good : cstr := quoted $"{'path':'a.txt'}".
Lemma demo_good_conforms :
  Forall (fun g => conforms (snd (fst g)) (snd g) /\ match snd g with JStr s => short s | _ => True end)
    (given (demo_tree demo_good) demo_properties).
Proof.
  assert (given (demo_tree demo_good) demo_properties = [(($"path", JObj [($"type", JStr $"string"); ($"minLength", JNum (mkNum 1 0))]), JStr $"a.txt")])
    as -> by by vm_compute.
  constructor; [|constructor]. split; [|by vm_compute]. apply conf_string; [by vm_compute|].
  split_and!; intros l; vm_compute; [by intros [= <-]|by intros [=]|by intros [=]].
Qed.

Lemma tool_validate_accepts_witness :
  exists r, tool_validate_and_cast_params demo_good (Some (quoted demo_schema)) = (Some r, None) /\
    cJSON_PrintUnformatted (JObj ((fun g => (fst (fst g), snd g)) <$> given (demo_tree demo_good) demo_properties)) = Some r.
Proof.
  apply (tool_validate_accepts demo_good (quoted demo_schema) (demo_tree demo_good) (demo_tree (quoted demo_schema)) demo_properties);
    [by vm_compute|by vm_compute|by vm_compute|by repeat constructor|exact demo_good_conforms].
Defined.
