(* ===== verification/ToolPaths.v ===== *)
(** [src/tools/tools_impl.c], the workspace policy: which shell commands the
    exec tool accepts, and which paths the file tools may touch. [realpath] is
    the operating system's: a parameter, with what its manual promises as
    hypotheses. *)
From S2P Require Import Prelude CStr.

(** ** Commands *)

Definition safe_char (c : ascii) : bool :=
  in_range 65 90 c || in_range 97 122 c || in_range 48 57 c ||
  existsb (fun x : ascii => bool_decide (c = x)) $"_-./,:@+=%".

(** Two dots in a row. *)
Fixpoint has_dotdot (tok : cstr) : bool :=
  match tok with
  | a :: ((b :: _) as r) => (bool_decide (a = "."%char) && bool_decide (b = "."%char)) || has_dotdot r
  | _ => false
  end.

Definition exec_token_is_safe (tok : cstr) : bool :=
  match tok with [] => false | _ => forallb safe_char tok && negb (has_dotdot tok) end.

Definition is_blank_char (c : ascii) : bool := bool_decide (c = " "%char) || bool_decide (c = ch_tab).

(** The tokens the scanning loops visit. *)
Definition command_tokens (command : cstr) : list cstr := strtok is_blank_char command.

Definition command_is_safe_exec (command : cstr) : bool :=
  match command with
  | [] => false
  | _ => forallb (fun c => is_blank_char c || safe_char c) command && forallb exec_token_is_safe (command_tokens command)
  end.

Definition command_contains_unsafe_token (command : cstr) : bool := negb (command_is_safe_exec command).

(** ** Paths *)

Definition PATH_BUF : nat := 4096.

Section Realpath.
Context (realpath : cstr -> option cstr).

Definition resolve_workspace_path (workspace : cstr) (out_size : nat) : option cstr :=
  if Nat.eqb out_size 0 then None
  else resolved ← realpath workspace; if Nat.ltb out_size (length resolved + 1) then None else Some resolved.

(** The prefix test all resolvers end with. *)
Definition is_inside (resolved ws : cstr) : bool :=
  starts_with ws resolved &&
  match drop (length ws) resolved with [] => true | c :: _ => bool_decide (c = "/"%char) end.

(** ["%s/%s"] into a buffer of 4096 bytes, refused when it does not fit. *)
Definition join_path (a b : cstr) : option cstr :=
  let full := a ++ $"/" ++ b in if Nat.leb PATH_BUF (length full) then None else Some full.

Definition is_absolute (path : cstr) : bool := bool_decide (head path = Some "/"%char).

Definition is_path_within_workspace (path workspace : cstr) : bool :=
  match resolve_workspace_path workspace PATH_BUF with
  | None => false
  | Some ws =>
      let resolved :=
        match realpath path with
        | Some r => Some r
        | None => if is_absolute path then None else full ← join_path workspace path; realpath full
        end in
      match resolved with Some r => is_inside r ws | None => false end
  end.

Definition is_path_within_workspace_len (path workspace : cstr) : bool :=
  if Nat.eqb (length path) 0 then false
  else if Nat.leb PATH_BUF (length path) then false else is_path_within_workspace path workspace.

(** The path an operation is tried at. *)
Definition candidate (path workspace : cstr) : option cstr :=
  if is_absolute path then Some (truncate_to PATH_BUF path) else join_path workspace path.

Definition resolve_existing_path_within_workspace (path workspace : cstr) (out_size : nat) : option cstr :=
  if Nat.eqb out_size 0 then None
  else
    ws ← resolve_workspace_path workspace PATH_BUF;
    c ← candidate path workspace;
    resolved ← realpath c;
    if is_inside resolved ws && Nat.leb (length resolved + 1) out_size then Some resolved else None.

(** Directory and file name of a path; [None] without a slash. *)
Definition split_path (c : cstr) : option (cstr * cstr) :=
  match strrchr c "/"%char with
  | Some i => Some ((if Nat.eqb i 0 then $"/" else take i c), drop (i + 1) c)
  | None => None
  end.

Definition filename_ok (filename : cstr) : bool :=
  match filename with
  | [] => false
  | _ => negb (str_eq filename $".") && negb (str_eq filename $"..") &&
         match strchr filename "/"%char with Some _ => false | None => true end
  end.

Definition resolve_creatable_path_within_workspace (path workspace : cstr) (out_size : nat) : option cstr :=
  if Nat.eqb out_size 0 then None
  else
    ws ← resolve_workspace_path workspace PATH_BUF;
    c ← candidate path workspace;
    '(parent, filename) ← split_path c;
    if filename_ok filename then
      resolved_parent ← realpath parent;
      if is_inside resolved_parent ws then
        let out := resolved_parent ++ $"/" ++ filename in
        if Nat.leb out_size (length out) then None else Some out
      else None
    else None.

(** The second check of the exec tool: absolute tokens lie in the workspace. *)
Definition absolute_tokens_ok (command workspace : cstr) : bool :=
  forallb (fun t => negb (is_absolute t) || is_path_within_workspace_len t workspace) (command_tokens command).

(** Both checks, as [tool_exec] makes them when it is restricted. *)
Definition exec_accepts (command : cstr) (workspace : option cstr) : bool :=
  negb (command_contains_unsafe_token command) &&
  match workspace with Some ws => absolute_tokens_ok command ws | None => true end.
End Realpath.

(** ** The command filter *)

Lemma has_dotdot_strstr tok : has_dotdot tok = true <-> is_Some (strstr tok $"..").
Proof.
  induction tok as [|a tok IH]; [split; [done|by intros [? [=]]]|].
  cbn [strstr]. destruct tok as [|b r].
  - cbn. destruct (bool_decide _); cbn; split; try done; by intros [? [=]].
  - change (has_dotdot (a :: b :: r)) with ((bool_decide (a = "."%char) && bool_decide (b = "."%char)) || has_dotdot (b :: r)).
    change (starts_with $".." (a :: b :: r)) with (bool_decide ("."%char = a) && (bool_decide ("."%char = b) && true)).
    rewrite orb_true_iff, IH, andb_true_iff, !bool_decide_eq_true.
    destruct (bool_decide ("."%char = a) && (bool_decide ("."%char = b) && true)) eqn:E.
    + rewrite !andb_true_iff, !bool_decide_eq_true in E. split; [by eexists|]. left. naive_solver.
    + split.
      * intros [[-> ->]|[i Hi]]; [by rewrite !bool_decide_true in E by done|]. rewrite Hi. by eexists.
      * intros [i Hi]. right. destruct (strstr (b :: r) $".."); [by eexists|done].
Qed.

Lemma strtok_aux_bytes d s : forall cur t c, t ∈ strtok_aux d cur s -> c ∈ t -> c ∈ rev cur \/ c ∈ s.
Proof.
  induction s as [|a s IH]; intros cur t c; cbn [strtok_aux].
  - destruct cur as [|x cur]; [by intros ?%elem_of_nil|]. intros ->%list_elem_of_singleton Hc. by left.
  - destruct (d a).
    + intros [Ht|Ht]%elem_of_app Hc.
      * destruct cur as [|x cur]; [by apply elem_of_nil in Ht|]. apply list_elem_of_singleton in Ht as ->. by left.
      * destruct (IH _ _ _ Ht Hc) as [H|H]; [by apply elem_of_nil in H|]. right. by right.
    + intros Ht Hc. destruct (IH _ _ _ Ht Hc) as [H|H].
      * cbn [rev] in H. apply elem_of_app in H as [H|H%list_elem_of_singleton]; [by left|right; subst; by left].
      * right. by right.
Qed.

(** Without separators in the text the token of a prefix goes on. *)
Lemma strtok_aux_pair d s1 : forall cur a b s2, d a = false -> d b = false ->
  exists t1 t2 ts, (t1 ++ a :: b :: t2) ∈ strtok_aux d cur (s1 ++ a :: b :: s2) /\ ts = t1.
Proof.
  induction s1 as [|x s1 IH]; intros cur a b s2 Ha Hb; cbn [app strtok_aux].
  - rewrite Ha. cbn [strtok_aux]. rewrite Hb.
    assert (forall s c, c <> [] -> exists t, (rev c ++ t) ∈ strtok_aux d c s) as H.
    { induction s as [|y s IHs]; intros c Hc; cbn [strtok_aux]; [exists []; destruct c; [done|]; rewrite app_nil_r; by left|].
      destruct (d y).
      - exists []. rewrite app_nil_r. apply elem_of_app. left. destruct c; [done|]. by left.
      - destruct (IHs (y :: c) ltac:(done)) as [t Ht]. exists (y :: t). cbn [rev] in Ht. by rewrite <-app_assoc in Ht. }
    destruct (H s2 (b :: a :: cur) ltac:(done)) as [t Ht]. exists (rev cur), t, (rev cur). split; [|done].
    cbn [rev] in Ht. by rewrite <-!app_assoc in Ht.
  - destruct (d x); [destruct (IH [] a b s2 Ha Hb) as (t1 & t2 & ts & H & ?)|destruct (IH (x :: cur) a b s2 Ha Hb) as (t1 & t2 & ts & H & ?)];
      exists t1, t2, ts; (split; [|done]); [|done]. apply elem_of_app. by right.
Qed.

Lemma strtok_aux_nonempty d s : forall cur t, t ∈ strtok_aux d cur s -> t <> [].
Proof.
  induction s as [|a s IH]; intros cur t; cbn [strtok_aux].
  - destruct cur as [|x cur]; [by intros ?%elem_of_nil|]. intros ->%list_elem_of_singleton. cbn [rev]. by destruct (rev cur).
  - destruct (d a); [|by apply IH]. intros [Ht|Ht]%elem_of_app; [|by eapply IH].
    destruct cur as [|x cur]; [by apply elem_of_nil in Ht|]. apply list_elem_of_singleton in Ht as ->. cbn [rev]. by destruct (rev cur).
Qed.

(** A token is a run of the text. *)
Lemma strtok_aux_infix d s : forall cur t, t ∈ strtok_aux d cur s -> exists l r, rev cur ++ s = l ++ t ++ r.
Proof.
  induction s as [|a s IH]; intros cur t; cbn [strtok_aux].
  - destruct cur as [|x cur]; [by intros ?%elem_of_nil|]. intros ->%list_elem_of_singleton. by exists [], [].
  - destruct (d a).
    + intros [Ht|Ht]%elem_of_app.
      * destruct cur as [|x cur]; [by apply elem_of_nil in Ht|]. apply list_elem_of_singleton in Ht as ->. by exists [], (a :: s).
      * destruct (IH _ _ Ht) as (l & r & E). exists (rev cur ++ a :: l), r. cbn [rev app] in E. rewrite E. by rewrite <-app_assoc.
    + intros Ht. destruct (IH _ _ Ht) as (l & r & E). exists l, r. cbn [rev] in E. by rewrite <-app_assoc in E.
Qed.

(** Tokens hold no separator. *)
Lemma strtok_aux_free d s : forall cur t, t ∈ strtok_aux d cur s -> Forall (fun c => d c = false) cur -> Forall (fun c => d c = false) t.
Proof.
  induction s as [|a s IH]; intros cur t; cbn [strtok_aux].
  - destruct cur; [by intros ?%elem_of_nil|]. intros ->%list_elem_of_singleton. apply Forall_rev.
  - destruct (d a) eqn:Ea.
    + intros [H|H]%elem_of_app Hcur; [|by eapply IH].
      destruct cur; [by apply elem_of_nil in H|]. apply list_elem_of_singleton in H as ->. by apply Forall_rev.
    + intros H Hcur. eapply IH; [exact H|]. by constructor.
Qed.

(** Two dots in a row are in some token. *)
Lemma tokens_dots command : (exists t, t ∈ command_tokens command /\ has_dotdot t = true) <-> is_Some (strstr command $"..").
Proof.
  unfold command_tokens, strtok. split.
  - intros (t & Ht & [i Hi]%has_dotdot_strstr). destruct (strtok_aux_infix _ _ _ _ Ht) as (l & r & E). cbn [rev app] in E.
    apply strstr_Some in Hi as [Hi _]. rewrite E, Hi.
    destruct (strstr_mid (l ++ take i t) $".." (drop (i + length $"..") t ++ r)) as [k Hk]. exists k. rewrite <-Hk. by rewrite <-!app_assoc.
  - intros [i E]. apply strstr_Some in E as [E _].
    destruct (strtok_aux_pair is_blank_char (take i command) [] "."%char "."%char (drop (i + length $"..") command) eq_refl eq_refl)
      as (t1 & t2 & ts & Ht & _).
    exists (t1 ++ "."%char :: "."%char :: t2). split; [|apply has_dotdot_strstr, (strstr_mid t1 $".." t2)].
    rewrite E. exact Ht.
Qed.

(** The command filter, said without tokens: a command is accepted exactly
    when it is not empty, every byte is a blank or of the allow-list, and
    nowhere are there two dots in a row. *)
Theorem command_is_safe_exec_correct command :
  command_is_safe_exec command = true <->
  command <> [] /\ Forall (fun c => is_blank_char c = true \/ safe_char c = true) command /\ strstr command $".." = None.
Proof.
  assert (forall t, t ∈ command_tokens command -> Forall (fun c => is_blank_char c = false) t /\ t <> [] /\ forall c, c ∈ t -> c ∈ command) as Htok.
  { intros t Ht. split_and!; [by apply (strtok_aux_free _ _ _ _ Ht)|by eapply strtok_aux_nonempty|].
    intros c Hc. destruct (strtok_aux_bytes _ _ _ _ _ Ht Hc) as [H|H]; [by apply elem_of_nil in H|done]. }
  pose proof (tokens_dots command) as Hdots. unfold command_is_safe_exec. destruct command as [|c0 cmd]; [split; [done|by intros [? _]]|].
  rewrite andb_true_iff, !forallb_forall, Forall_forall. setoid_rewrite <-list_elem_of_In.
  assert (forall c, is_blank_char c || safe_char c = true <-> is_blank_char c = true \/ safe_char c = true) as Hor by (intros c; apply orb_true_iff).
  setoid_rewrite Hor. split.
  - intros [Hall Hsafe]. split_and!; [done|done|]. destruct (strstr _ _) eqn:E; [|done]. exfalso.
    destruct (proj2 Hdots ltac:(by eexists)) as (t & Ht & Hd). specialize (Hsafe t Ht). unfold exec_token_is_safe in Hsafe.
    rewrite Hd in Hsafe. destruct t; [done|]. by rewrite andb_false_r in Hsafe.
  - intros (_ & Hall & Hnone). split; [done|]. intros t Ht. destruct (Htok t Ht) as (Hfree & Hne & Hin). unfold exec_token_is_safe.
    destruct t as [|x t]; [done|]. apply andb_true_intro. split.
    + apply forallb_forall. intros c Hc%list_elem_of_In. rewrite Forall_forall in Hfree.
      destruct (Hall c (Hin c Hc)) as [Hb|]; [|done]. by rewrite Hfree in Hb.
    + apply negb_true_iff. destruct (has_dotdot (x :: t)) eqn:Ed; [|done].
      destruct (proj1 Hdots ltac:(by exists (x :: t))) as [k Hk]. congruence.
Qed.

(** ** Resolved paths *)

(** [p] is the workspace itself or lies below it. *)
Definition below (ws p : cstr) : Prop := p = ws \/ exists r, p = ws ++ "/"%char :: r.

Lemma is_inside_below resolved ws : is_inside resolved ws = true <-> below ws resolved.
Proof.
  unfold is_inside, below. rewrite andb_true_iff, starts_with_true. split.
  - intros [[r ->] H]. rewrite drop_app_length in H. destruct r as [|c r]; [left; by rewrite app_nil_r|].
    apply bool_decide_eq_true in H as ->. right. by exists r.
  - intros [->|[r ->]].
    + split; [exists []; by rewrite app_nil_r|]. by rewrite drop_all.
    + split; [by eexists|]. rewrite drop_app_length. by apply bool_decide_eq_true.
Qed.

Section Resolved.
Context (realpath : cstr -> option cstr).
(** Resolved paths are absolute, have no [.] or [..] component, and resolve to
    themselves; [canonical] stands for the first two. *)
Context (canonical : cstr -> Prop).
Hypothesis realpath_canonical : forall p r, realpath p = Some r -> canonical r.
Hypothesis canonical_child : forall d f, canonical d -> filename_ok f = true -> canonical (d ++ "/"%char :: f).

Lemma resolve_workspace_spec workspace size ws : resolve_workspace_path realpath workspace size = Some ws ->
  realpath workspace = Some ws /\ length ws < size.
Proof.
  unfold resolve_workspace_path. destruct (Nat.eqb_spec size 0); [done|].
  destruct (realpath workspace) as [r|]; [|done]. cbn [mbind option_bind]. destruct (Nat.ltb_spec size (length r + 1)); [done|].
  intros [= <-]. split; [done|lia].
Qed.

(** A path the file tools may read or list is the resolved form of the
    request, is canonical, fits the buffer, and is the workspace or below it;
    so no symbolic link or [..] leads out. *)
Theorem resolve_existing_inside path workspace size p :
  resolve_existing_path_within_workspace realpath path workspace size = Some p ->
  exists ws c, realpath workspace = Some ws /\ candidate path workspace = Some c /\ realpath c = Some p /\
    below ws p /\ canonical p /\ length p < size.
Proof using realpath_canonical.
  unfold resolve_existing_path_within_workspace. destruct (Nat.eqb size 0); [done|].
  destruct (resolve_workspace_path _ _ _) as [ws|] eqn:Ew; [|done]. apply resolve_workspace_spec in Ew as [Ew _].
  cbn [mbind option_bind]. destruct (candidate path workspace) as [c|]; [|done]. cbn [mbind option_bind].
  destruct (realpath c) as [r|] eqn:Er; [|done]. cbn [mbind option_bind]. destruct (is_inside r ws) eqn:Ei; [|done]. cbn [andb].
  destruct (Nat.leb_spec (length r + 1) size); [|done]. intros [= <-]. exists ws, c.
  split_and!; [done|done|done|by apply is_inside_below|by eapply realpath_canonical|lia].
Qed.

(** A path the write tool may create is a plain file name directly in a
    directory that resolves to the workspace or below it, is canonical, and
    fits the buffer. *)
Theorem resolve_creatable_inside path workspace size p :
  resolve_creatable_path_within_workspace realpath path workspace size = Some p ->
  exists ws c parent dir filename, realpath workspace = Some ws /\ candidate path workspace = Some c /\
    split_path c = Some (parent, filename) /\ realpath parent = Some dir /\ filename_ok filename = true /\
    p = dir ++ "/"%char :: filename /\ below ws dir /\ below ws p /\ canonical p /\ length p < size.
Proof using realpath_canonical canonical_child.
  unfold resolve_creatable_path_within_workspace. destruct (Nat.eqb size 0); [done|].
  destruct (resolve_workspace_path _ _ _) as [ws|] eqn:Ew; [|done]. apply resolve_workspace_spec in Ew as [Ew _].
  cbn [mbind option_bind]. destruct (candidate path workspace) as [c|]; [|done]. cbn [mbind option_bind].
  destruct (split_path c) as [[parent filename]|] eqn:Es; [|done]. cbn [mbind option_bind].
  destruct (filename_ok filename) eqn:Ef; [|done]. destruct (realpath parent) as [dir|] eqn:Ed; [|done]. cbn [mbind option_bind].
  destruct (is_inside dir ws) eqn:Ei; [|done]. change ($"/" ++ filename) with ("/"%char :: filename).
  destruct (Nat.leb_spec size (length (dir ++ "/"%char :: filename))); [done|].
  intros [= <-]. apply is_inside_below in Ei. exists ws, c, parent, dir, filename.
  split_and!; [done|done|done|done|done|done|done| |apply canonical_child; [by eapply realpath_canonical|done]|lia].
  right. destruct Ei as [->|[r ->]]; [by exists filename|]. exists (r ++ "/"%char :: filename). by rewrite <-app_assoc.
Qed.

(** An accepted absolute token names something in the workspace. *)
Lemma within_workspace_spec path workspace : is_path_within_workspace realpath path workspace = true -> is_absolute path = true ->
  exists ws r, realpath workspace = Some ws /\ realpath path = Some r /\ below ws r.
Proof.
  unfold is_path_within_workspace. destruct (resolve_workspace_path _ _ _) as [ws|] eqn:Ew; [|done].
  apply resolve_workspace_spec in Ew as [Ew _]. intros H Ha. rewrite Ha in H.
  destruct (realpath path) as [r|]; [|done]. exists ws, r. split_and!; [done|done|by apply is_inside_below].
Qed.

(** C21: A command the restricted exec tool runs has only allow-listed bytes
    and no [..], and every token that starts with a slash resolves into the
    workspace. *)
Theorem exec_accepts_sound command workspace : exec_accepts realpath command (Some workspace) = true ->
  command <> [] /\ Forall (fun c => is_blank_char c = true \/ safe_char c = true) command /\ strstr command $".." = None /\
  Forall (fun t => is_absolute t = true -> exists ws r, realpath workspace = Some ws /\ realpath t = Some r /\ below ws r)
    (command_tokens command).
Proof.
  unfold exec_accepts, command_contains_unsafe_token. rewrite negb_involutive, andb_true_iff.
  intros [(H1 & H2 & H3)%command_is_safe_exec_correct Habs]. split_and!; [done..|].
  apply Forall_forall. intros t Ht Ha. unfold absolute_tokens_ok in Habs. rewrite forallb_forall in Habs.
  specialize (Habs t (proj1 (list_elem_of_In _ _) Ht)). rewrite Ha in Habs. cbn [negb orb] in Habs.
  unfold is_path_within_workspace_len in Habs. destruct (Nat.eqb (length t) 0); [done|].
  destruct (Nat.leb PATH_BUF (length t)); [done|]. by apply within_workspace_spec.
Qed.
End Resolved.

(** The check looks only at tokens that start with a slash, and [=] is on
    the allow-list: an absolute path behind an option name passes, whatever the
    workspace is. *)
Theorem exec_accepts_hidden_path realpath workspace : exec_accepts realpath $"dd if=/etc/shadow of=copy" (Some workspace) = true.
Proof. reflexivity. Qed.

(** ** Witnesses *)

Definition is_slash (c : ascii) : bool := bool_decide (c = "/"%char).
Definition demo_canonical (p : cstr) : Prop := is_absolute p = true /\ forallb filename_ok (strtok is_slash p) = true.

Lemma strtok_aux_sep d s : forall cur a t, d a = true -> strtok_aux d cur (s ++ a :: t) = strtok_aux d cur s ++ strtok_aux d [] t.
Proof.
  induction s as [|b s IH]; intros cur a t Ha; cbn [app strtok_aux]; [by rewrite Ha|].
  destruct (d b); [rewrite IH by done; by rewrite app_assoc|by apply IH].
Qed.

Lemma strtok_aux_single d s : forall cur, Forall (fun c => d c = false) s -> rev cur ++ s <> [] -> strtok_aux d cur s = [rev cur ++ s].
Proof.
  induction s as [|b s IH]; intros cur Hs Hne; cbn [strtok_aux].
  - rewrite app_nil_r in *. destruct cur; [done|done].
  - apply Forall_cons in Hs as [-> Hs]. rewrite IH by (done || (cbn [rev]; by destruct (rev cur))). cbn [rev]. by rewrite <-app_assoc.
Qed.

Lemma demo_canonical_child d f : demo_canonical d -> filename_ok f = true -> demo_canonical (d ++ "/"%char :: f).
Proof.
  intros [Ha Hd] Hf. split; [by destruct d|]. unfold strtok. rewrite strtok_aux_sep, forallb_app by done.
  unfold strtok in Hd. rewrite Hd. cbn [andb]. assert (Forall (fun c => is_slash c = false) f) as Hs.
  { unfold filename_ok in Hf. destruct f as [|c f]; [done|]. destruct (strchr (c :: f) "/"%char) eqn:E; [by rewrite andb_false_r in Hf|].
    apply Forall_forall. intros x Hx. apply bool_decide_eq_false. intros ->. by apply strchr_None in E. }
  rewrite strtok_aux_single; [cbn; by rewrite Hf|done|]. by destruct f.
Qed.

(** A workspace with one file, one directory and a symbolic link. *)
Definition demo_realpath (p : cstr) : option cstr :=
  if str_eq p $"/w/link.txt" then Some $"/w/a.txt"
  else if existsb (str_eq p) [$"/w"; $"/w/a.txt"; $"/w/sub"] then Some p else None.

Lemma demo_realpath_canonical p r : demo_realpath p = Some r -> demo_canonical r.
Proof.
  unfold demo_realpath. destruct (str_eq p $"/w/link.txt"); [by intros [= <-]|].
  destruct (existsb (str_eq p) _) eqn:E; [|done]. intros [= <-].
  apply existsb_exists in E as (x & Hx & ->%bool_decide_eq_true). by destruct Hx as [<-|[<-|[<-|[]]]].
Qed.

Lemma resolve_existing_inside_witness :
  exists ws c, demo_realpath $"/w" = Some ws /\ candidate $"link.txt" $"/w" = Some c /\ demo_realpath c = Some $"/w/a.txt" /\
    below ws $"/w/a.txt" /\ demo_canonical $"/w/a.txt" /\ length $"/w/a.txt" < 4096.
Proof.
  apply (resolve_existing_inside demo_realpath demo_canonical demo_realpath_canonical $"link.txt" $"/w" 4096 $"/w/a.txt").
  by vm_compute.
Defined.

Lemma resolve_creatable_inside_witness :
  exists ws c parent dir filename, demo_realpath $"/w" = Some ws /\ candidate $"sub/new.txt" $"/w" = Some c /\
    split_path c = Some (parent, filename) /\ demo_realpath parent = Some dir /\ filename_ok filename = true /\
    $"/w/sub/new.txt" = dir ++ "/"%char :: filename /\ below ws dir /\ below ws $"/w/sub/new.txt" /\
    demo_canonical $"/w/sub/new.txt" /\ length $"/w/sub/new.txt" < 4096.
Proof.
  apply (resolve_creatable_inside demo_realpath demo_canonical demo_realpath_canonical demo_canonical_child
    $"sub/new.txt" $"/w" 4096 $"/w/sub/new.txt"). by vm_compute.
Defined.

Lemma exec_accepts_sound_witness :
  let command := $"cat /w/a.txt" in
  command <> [] /\ Forall (fun c => is_blank_char c = true \/ safe_char c = true) command /\ strstr command $".." = None /\
  Forall (fun t => is_absolute t = true -> exists ws r, demo_realpath $"/w" = Some ws /\ demo_realpath t = Some r /\ below ws r)
    (command_tokens command).
Proof. apply (exec_accepts_sound demo_realpath $"cat /w/a.txt" $"/w"). by vm_compute. Defined.
