(* ===== verification/ChannelCommon.v ===== *)
(** [src/plugins/channels/channel_common/channel_common.c]: what the channel
    plugins share: the receive buffer of an HTTP answer and the attachments of
    an outgoing message. *)
From S2P Require Import Prelude CStr Json.

(** ** The receive buffer *)

Record ChannelMemoryStruct := mkChunk { cm_memory : option cstr; cm_size : Z; cm_done : bool; cm_http_status : Z; cm_last_error : cstr }.

Definition channel_memory_init : ChannelMemoryStruct := mkChunk (Some []) 0 false 0 [].

Definition channel_memory_free (chunk : ChannelMemoryStruct) : ChannelMemoryStruct :=
  mkChunk None 0 (cm_done chunk) (cm_http_status chunk) (cm_last_error chunk).

(** The bytes taken (0 is failure) of [size * nmemb] offered ones, which are
    [contents]; the bytes of the buffer are kept whole, NULs included. *)
Definition channel_memory_append_chunk (realloc_ok : Z -> bool) (contents : cstr) (mem : ChannelMemoryStruct) : Z * ChannelMemoryStruct :=
  let realsize := Z.of_nat (length contents) in
  if (0 <? cm_size mem)%Z && (SIZE_MAX - cm_size mem <? realsize)%Z then (0%Z, mem)
  else if realloc_ok (cm_size mem + realsize + 1)%Z then
    (realsize, mkChunk (Some (default [] (cm_memory mem) ++ contents)) (cm_size mem + realsize) (cm_done mem) (cm_http_status mem) (cm_last_error mem))
  else (0%Z, mem).

(** An event of the connection: an HTTP message with its status and body, or
    the end; whether the connection is to be closed. *)
Inductive http_event := EvHttpMsg (status : Z) (body : cstr) | EvClose | EvOther.

Definition channel_http_event_handler (realloc_ok : Z -> bool) (ev : http_event) (chunk : ChannelMemoryStruct) : ChannelMemoryStruct * bool :=
  match ev with
  | EvHttpMsg status body =>
      let c := snd (channel_memory_append_chunk realloc_ok body chunk) in
      (mkChunk (cm_memory c) (cm_size c) true status (cm_last_error c), true)
  | EvClose => (mkChunk (cm_memory chunk) (cm_size chunk) true (cm_http_status chunk) (cm_last_error chunk), false)
  | EvOther => (chunk, false)
  end.

Definition chunk_wf (mem : ChannelMemoryStruct) : Prop := cm_size mem = Z.of_nat (length (default [] (cm_memory mem))).

(** The size is that of the bytes, after any sequence of events. *)
Lemma channel_event_wf realloc_ok ev chunk : chunk_wf chunk -> chunk_wf (fst (channel_http_event_handler realloc_ok ev chunk)).
Proof.
  unfold chunk_wf. intros H. destruct ev as [status body| |]; [|done|done]. cbn [channel_http_event_handler fst cm_size cm_memory].
  unfold channel_memory_append_chunk. case_match; [done|]. case_match; [|done]. cbn [snd cm_size cm_memory default from_option id].
  rewrite length_app, H. lia.
Qed.

(** ** Attachments *)

Definition media_types : list (cstr * cstr) :=
  [($".jpg", $"image/jpeg"); ($".jpeg", $"image/jpeg"); ($".png", $"image/png"); ($".gif", $"image/gif");
   ($".webp", $"image/webp"); ($".bmp", $"image/bmp"); ($".ico", $"image/x-icon"); ($".tiff", $"image/tiff");
   ($".tif", $"image/tiff"); ($".heic", $"image/heic"); ($".mp4", $"video/mp4"); ($".mp3", $"audio/mpeg");
   ($".wav", $"audio/wav"); ($".ogg", $"audio/ogg"); ($".amr", $"audio/amr"); ($".pdf", $"application/pdf")].

Definition octet_stream : cstr := $"application/octet-stream".

Definition channel_infer_media_type_from_path (path : option cstr) : cstr :=
  match path with
  | None => octet_stream
  | Some path =>
      match strrchr path "."%char with
      | None => octet_stream
      | Some i => match List.find (fun p => strcasecmp_eq (drop i path) (fst p)) media_types with
                  | Some p => snd p
                  | None => octet_stream
                  end
      end
  end.

Definition channel_infer_attachment_type (type_str : option cstr) : cstr :=
  match type_str with
  | None => $"file"
  | Some t => if str_eq t $"image" then $"image" else if str_eq t $"audio" then $"voice"
              else if str_eq t $"video" then $"video" else $"file"
  end.

Record ChannelAttachment := mkAttachment {
  ca_type : option cstr;
  ca_path : option cstr;
  ca_url : option cstr;
  ca_cover_path : option cstr;
  ca_duration : Z;
}.

(** [None] is the answer [false]. *)
Definition channel_parse_attachment_spec (spec : cstr) : option ChannelAttachment :=
  match spec with
  | "{"%char :: _ =>
      match cJSON_Parse spec with
      | None => None
      | Some j =>
          let text name := is_string (get_object_item (Some j) name) in
          Some (mkAttachment (text $"type") (text $"path") (text $"url") (text $"cover")
            (match is_number (get_object_item (Some j) $"duration") with Some n => valueint n | None => 0%Z end))
      end
  | _ => Some (mkAttachment (Some $"file") (Some spec) None None 0)
  end.

Definition channel_file_basename (path : option cstr) : cstr :=
  match path with
  | None => []
  | Some path => match strrchr path "/"%char with Some i => drop (i + 1) path | None => path end
  end.

(** The base name has no slash. *)
Lemma strrchr_Some s c i : strrchr s c = Some i -> i < length s /\ c ∉ drop (i + 1) s.
Proof.
  revert i. induction s as [|a s IH]; intros i; cbn [strrchr]; [done|].
  destruct (strrchr s c) as [k|] eqn:E.
  - intros [= <-]. destruct (IH k eq_refl) as [H1 H2]. cbn [length]. split; [lia|done].
  - case_bool_decide; [|done]. intros [= <-]. cbn [length drop Nat.add]. split; [lia|]. rewrite drop_0. clear -E.
    induction s as [|b s IH]; [apply not_elem_of_nil|]. cbn [strrchr] in E. destruct (strrchr s c); [done|].
    case_bool_decide; [done|]. apply not_elem_of_cons. split; [done|by apply IH].
Qed.

Lemma strrchr_None s c : strrchr s c = None -> c ∉ s.
Proof.
  induction s as [|b s IH]; [intros _; apply not_elem_of_nil|]. cbn [strrchr]. destruct (strrchr s c); [done|].
  case_bool_decide; [done|]. intros _. apply not_elem_of_cons. split; [done|by apply IH].
Qed.

Lemma channel_file_basename_plain path : "/"%char ∉ channel_file_basename path.
Proof.
  destruct path as [path|]; [|apply not_elem_of_nil]. cbn. destruct (strrchr path "/"%char) as [i|] eqn:E.
  - by apply strrchr_Some in E as [_ ?].
  - by apply strrchr_None.
Qed.
