(* ===== verification/Protobuf.v ===== *)
(** The frames of the Feishu and DingTalk streams, first parts of
    [src/plugins/channels/feishu_channel/feishu_ws.c] and of
    [src/plugins/channels/dingtalk_channel/dingtalk_ws.c], which are the same:
    Protobuf integers and fields, the parser and the encoder of a frame. *)
From S2P Require Import Prelude CStr.

Definition bytes_len (s : cstr) : N := N.of_nat (length s).

(** ** The output buffer *)

Record ByteBuf := mkBuf { bb_data : cstr; bb_cap : N }.
Definition empty_buf : ByteBuf := mkBuf [] 0.

Section Alloc.
(** Whether [realloc] to so many bytes succeeds. *)
Context (realloc_ok : N -> bool).

(** The doubling of [ncap]; one round per bit of a size is enough. *)
Fixpoint grow_cap (fuel : nat) (ncap need : N) : N :=
  match fuel with
  | 0 => ncap
  | S f => if (ncap <? need)%N then grow_cap f (ncap * 2)%N need else ncap
  end.

(** [None] is the answer [false], here and below. *)
Definition bb_ensure (b : ByteBuf) (extra : N) : option ByteBuf :=
  let need := (bytes_len (bb_data b) + extra)%N in
  if (need <=? bb_cap b)%N then Some b
  else
    let ncap := grow_cap 64 (if (bb_cap b =? 0)%N then 256%N else bb_cap b) need in
    if realloc_ok ncap then Some (mkBuf (bb_data b) ncap) else None.

Definition bb_add (b : ByteBuf) (p : cstr) : option ByteBuf :=
  b' ← bb_ensure b (bytes_len p); Some (mkBuf (bb_data b' ++ p) (bb_cap b')).

Definition bb_add_u8 (b : ByteBuf) (v : N) : option ByteBuf := bb_add b [ascii_of_N v].

Fixpoint add_varint (fuel : nat) (b : ByteBuf) (v : N) : option ByteBuf :=
  match fuel with
  | 0 => None
  | S f =>
      if (128 <=? v)%N
      then b' ← bb_add_u8 b (N.lor (N.land v 127) 128); add_varint f b' (N.shiftr v 7)
      else bb_add_u8 b v
  end.
(** Ten groups of seven bits hold 64 bits. *)
Definition bb_add_varint (b : ByteBuf) (v : N) : option ByteBuf := add_varint 10 b v.

Definition pb_add_key (b : ByteBuf) (field wt : N) : option ByteBuf := bb_add_varint b (N.lor (N.shiftl field 3) wt).

Definition pb_add_bytes (b : ByteBuf) (field : N) (p : cstr) : option ByteBuf :=
  b1 ← pb_add_key b field 2; b2 ← bb_add_varint b1 (bytes_len p); match p with [] => Some b2 | _ => bb_add b2 p end.

Definition pb_add_varint_field (b : ByteBuf) (field v : N) : option ByteBuf :=
  b1 ← pb_add_key b field 0; bb_add_varint b1 v.
End Alloc.

(** ** Frames *)

(** NULL or the text up to its first NUL. *)
Record WSHeader := mkHeader { h_key : option cstr; h_value : option cstr }.

Record WSFrame := mkFrame {
  f_seq_id : N;
  f_log_id : N;
  f_service : Z;
  f_method : Z;
  f_headers : list WSHeader;
  f_payload_type : option cstr;
  f_payload : cstr;
}.

Definition empty_frame : WSFrame := mkFrame 0 0 0 0 [] None [].
Definition MAX_HEADERS : nat := 64.

Definition set_seq_id (f : WSFrame) v := mkFrame v (f_log_id f) (f_service f) (f_method f) (f_headers f) (f_payload_type f) (f_payload f).
Definition set_log_id (f : WSFrame) v := mkFrame (f_seq_id f) v (f_service f) (f_method f) (f_headers f) (f_payload_type f) (f_payload f).
Definition set_service (f : WSFrame) v := mkFrame (f_seq_id f) (f_log_id f) v (f_method f) (f_headers f) (f_payload_type f) (f_payload f).
Definition set_method (f : WSFrame) v := mkFrame (f_seq_id f) (f_log_id f) (f_service f) v (f_headers f) (f_payload_type f) (f_payload f).
Definition set_headers (f : WSFrame) v := mkFrame (f_seq_id f) (f_log_id f) (f_service f) (f_method f) v (f_payload_type f) (f_payload f).
Definition set_payload_type (f : WSFrame) v := mkFrame (f_seq_id f) (f_log_id f) (f_service f) (f_method f) (f_headers f) v (f_payload f).
Definition set_payload (f : WSFrame) v := mkFrame (f_seq_id f) (f_log_id f) (f_service f) (f_method f) (f_headers f) (f_payload_type f) v.

Definition has_key (k : cstr) (h : WSHeader) : bool := match h_key h with Some x => str_eq x k | None => false end.

Definition frame_header_get (f : WSFrame) (k : cstr) : option cstr := h ← List.find (has_key k) (f_headers f); h_value h.
Definition frame_header_get_int (f : WSFrame) (k : cstr) : Z := match frame_header_get f k with Some v => atoi v | None => 0%Z end.

Fixpoint replace_value (k v : cstr) (l : list WSHeader) : list WSHeader :=
  match l with
  | [] => []
  | h :: r => if has_key k h then mkHeader (h_key h) (Some v) :: r else h :: replace_value k v r
  end.

(** The frame, and whether the header was set. *)
Definition frame_header_set (f : WSFrame) (k v : cstr) : WSFrame * bool :=
  if existsb (has_key k) (f_headers f) then (set_headers f (replace_value k v (f_headers f)), true)
  else if Nat.leb MAX_HEADERS (length (f_headers f)) then (f, false)
  else (set_headers f (f_headers f ++ [mkHeader (Some k) (Some v)]), true).

(** ** Reading *)

(** The result of a parser: a value, the answer [false], undefined behaviour
    (a shift by 64 or more, an access outside the buffer), or a loop that did
    not end within the fuel. *)
Inductive outcome (A : Type) := Done (a : A) | Refused | Undefined | NoFuel.
Arguments Done {A}.
Arguments Refused {A}.
Arguments Undefined {A}.
Arguments NoFuel {A}.

Definition obind {A B} (k : A -> outcome B) (r : outcome A) : outcome B :=
  match r with Done a => k a | Refused => Refused | Undefined => Undefined | NoFuel => NoFuel end.
#[global] Instance outcome_bind : MBind outcome := @obind.

Definition wrap64 (n : N) : N := (n mod 2 ^ 64)%N.

(** [used] bytes are already read. *)
Fixpoint varint_from (p : cstr) (shift value : N) (used : nat) : outcome (N * nat) :=
  match p with
  | [] => Done (value, used)
  | c :: r =>
      if (64 <=? shift)%N then Undefined
      else
        let value' := N.lor value (wrap64 (N.shiftl (N.land (code c) 127) shift)) in
        if (code c <? 128)%N then Done (value', S used) else varint_from r (shift + 7) value' (S used)
  end.

(** The value, and the new offset. *)
Definition read_varint (data : cstr) (off : nat) : outcome (N * nat) :=
  '(v, k) ← varint_from (drop off data) 0 0 0; Done (v, off + k).

Definition skip_field (data : cstr) (off : nat) (wire_type : N) : outcome nat :=
  let clamp o := Done (Nat.min o (length data)) in
  if (wire_type =? 0)%N then '(_, o) ← read_varint data off; clamp o
  else if (wire_type =? 2)%N then
    '(l, o) ← read_varint data off;
    let sum := wrap64 (N.of_nat o + l) in
    clamp (if (bytes_len data <? sum)%N then length data else N.to_nat sum)
  else if (wire_type =? 1)%N then clamp (off + 8)
  else if (wire_type =? 5)%N then clamp (off + 4)
  else clamp off.

(** A length-delimited text at [off]: the text and the offset after it. The
    bound is tested on the wrapped sum. [malloc(l + 1)] of more than
    PTRDIFF_MAX bytes fails; when [l + 1] wraps to 0 it succeeds and the copy
    of [l] bytes runs out of the block. *)
Definition copy_text (data : cstr) (off : nat) (l : N) : outcome (cstr * nat) :=
  let sum := wrap64 (N.of_nat off + l) in
  if (bytes_len data <? sum)%N then Refused
  else if (l =? 2 ^ 64 - 1)%N then Undefined
  else if (2 ^ 63 <=? l + 1)%N then Refused
  else Done (take (N.to_nat l) (drop off data), N.to_nat sum).

Definition c_string (bytes : cstr) : cstr := take_while (fun c => negb (bool_decide (c = "000"%char))) bytes.

Definition key_field (k : N) : Z := wrap_s 32 (Z.of_N (N.shiftr k 3)).
Definition key_wire (k : N) : N := N.land k 7.

Fixpoint parse_header_msg (fuel : nat) (data : cstr) (off : nat) (h : WSHeader) : outcome WSHeader :=
  match fuel with
  | 0 => NoFuel
  | S fl =>
      if Nat.ltb off (length data) then
        '(k, o1) ← read_varint data off;
        if (key_wire k =? 2)%N then
          '(l, o2) ← read_varint data o1;
          if (key_field k =? 1)%Z then
            '(t, o3) ← copy_text data o2 l; parse_header_msg fl data o3 (mkHeader (Some (c_string t)) (h_value h))
          else if (key_field k =? 2)%Z then
            '(t, o3) ← copy_text data o2 l; parse_header_msg fl data o3 (mkHeader (h_key h) (Some (c_string t)))
          else
            let sum := wrap64 (N.of_nat o2 + l) in
            if (bytes_len data <? sum)%N then Refused else parse_header_msg fl data (N.to_nat sum) h
        else o2 ← skip_field data o1 (key_wire k); parse_header_msg fl data o2 h
      else Done h
  end.

(** The header message of [l] bytes at [off]; past the buffer it reads
    outside. *)
Definition parse_header_at (fuel : nat) (data : cstr) (off : nat) (l : N) : outcome WSHeader :=
  if (bytes_len data - N.of_nat off <? l)%N then Undefined
  else parse_header_msg fuel (take (N.to_nat l) (drop off data)) 0 (mkHeader None None).

(** The payload: [malloc(l)] fails for every length whose sum wraps. *)
Definition copy_payload (data : cstr) (off : nat) (l : N) : outcome (cstr * nat) :=
  let sum := wrap64 (N.of_nat off + l) in
  if (bytes_len data <? sum)%N then Refused
  else if (2 ^ 63 <=? l)%N then Refused
  else Done (take (N.to_nat l) (drop off data), N.to_nat sum).

Fixpoint parse_frame (fuel : nat) (data : cstr) (off : nat) (f : WSFrame) : outcome WSFrame :=
  match fuel with
  | 0 => NoFuel
  | S fl =>
      if Nat.ltb off (length data) then
        '(k, o1) ← read_varint data off;
        let fn := key_field k in
        let wt := key_wire k in
        if ((fn =? 1)%Z && (wt =? 0)%N) then '(v, o) ← read_varint data o1; parse_frame fl data o (set_seq_id f v)
        else if ((fn =? 2)%Z && (wt =? 0)%N) then '(v, o) ← read_varint data o1; parse_frame fl data o (set_log_id f v)
        else if ((fn =? 3)%Z && (wt =? 0)%N) then
          '(v, o) ← read_varint data o1; parse_frame fl data o (set_service f (wrap_s 32 (Z.of_N v)))
        else if ((fn =? 4)%Z && (wt =? 0)%N) then
          '(v, o) ← read_varint data o1; parse_frame fl data o (set_method f (wrap_s 32 (Z.of_N v)))
        else if ((fn =? 5)%Z && (wt =? 2)%N) then
          '(l, o) ← read_varint data o1;
          let sum := wrap64 (N.of_nat o + l) in
          if (bytes_len data <? sum)%N then Refused
          else if Nat.leb MAX_HEADERS (length (f_headers f)) then Refused
          else h ← parse_header_at (S (length data)) data o l;
               parse_frame fl data (N.to_nat sum) (set_headers f (f_headers f ++ [h]))
        else if ((fn =? 7)%Z && (wt =? 2)%N) then
          '(l, o) ← read_varint data o1; '(t, o2) ← copy_text data o l;
          parse_frame fl data o2 (set_payload_type f (Some (c_string t)))
        else if ((fn =? 8)%Z && (wt =? 2)%N) then
          '(l, o) ← read_varint data o1; '(t, o2) ← copy_payload data o l; parse_frame fl data o2 (set_payload f t)
        else o2 ← skip_field data o1 wt; parse_frame fl data o2 f
      else Done f
  end.

(** Every round but those whose length wraps around reads a byte. *)
Definition parse_frame_bytes (data : cstr) : outcome WSFrame := parse_frame (S (length data)) data 0 empty_frame.

(** ** Writing *)

Section Encode.
Context (realloc_ok : N -> bool).

Definition encode_header (out : ByteBuf) (h : WSHeader) : option ByteBuf :=
  match h_key h, h_value h with
  | Some k, Some v =>
      hb1 ← pb_add_bytes realloc_ok empty_buf 1 k; hb ← pb_add_bytes realloc_ok hb1 2 v;
      pb_add_bytes realloc_ok out 5 (bb_data hb)
  | _, _ => Some out
  end.

Fixpoint encode_headers (out : ByteBuf) (hs : list WSHeader) : option ByteBuf :=
  match hs with [] => Some out | h :: r => out' ← encode_header out h; encode_headers out' r end.

Definition encode_frame (f : WSFrame) (out : ByteBuf) : option ByteBuf :=
  b1 ← pb_add_varint_field realloc_ok out 1 (f_seq_id f);
  b2 ← pb_add_varint_field realloc_ok b1 2 (f_log_id f);
  b3 ← pb_add_varint_field realloc_ok b2 3 (Z.to_N (wrap_u 64 (f_service f)));
  b4 ← pb_add_varint_field realloc_ok b3 4 (Z.to_N (wrap_u 64 (f_method f)));
  b5 ← encode_headers b4 (f_headers f);
  b6 ← match f_payload_type f with Some t => pb_add_bytes realloc_ok b5 7 t | None => Some b5 end;
  pb_add_bytes realloc_ok b6 8 (f_payload f).
End Encode.

Definition demo_frame : WSFrame :=
  mkFrame 300 (2 ^ 63)%N (-1) 1 [mkHeader (Some $"type") (Some $"ping"); mkHeader (Some $"sum") (Some $"2")] (Some $"json") ["000"%char; "a"%char].
Example demo_frame_read : (parse_frame_bytes ∘ bb_data) <$> encode_frame (fun _ => true) demo_frame empty_buf = Some (Done demo_frame).
Proof. by vm_compute. Qed.

(** ** What is written *)

Fixpoint varint_bytes (fuel : nat) (v : N) : cstr :=
  match fuel with
  | 0 => []
  | S f => if (128 <=? v)%N then ascii_of_N (N.lor (N.land v 127) 128) :: varint_bytes f (N.shiftr v 7) else [ascii_of_N v]
  end.
Definition varint (v : N) : cstr := varint_bytes 10 v.
Definition key_bytes (field wt : N) : cstr := varint (N.lor (N.shiftl field 3) wt).
Definition field_bytes (field : N) (p : cstr) : cstr := key_bytes field 2 ++ varint (bytes_len p) ++ p.
Definition header_bytes (h : WSHeader) : cstr :=
  match h_key h, h_value h with
  | Some k, Some v => field_bytes 5 (field_bytes 1 k ++ field_bytes 2 v)
  | _, _ => []
  end.
Definition frame_bytes (f : WSFrame) : cstr :=
  (key_bytes 1 0 ++ varint (f_seq_id f)) ++ (key_bytes 2 0 ++ varint (f_log_id f)) ++
  (key_bytes 3 0 ++ varint (Z.to_N (wrap_u 64 (f_service f)))) ++ (key_bytes 4 0 ++ varint (Z.to_N (wrap_u 64 (f_method f)))) ++
  (f_headers f ≫= header_bytes) ++ match f_payload_type f with Some t => field_bytes 7 t | None => [] end ++ field_bytes 8 (f_payload f).

#[local] Opaque grow_cap.

Section Written.
Context (realloc_ok : N -> bool).

Lemma bb_add_data b p b' : bb_add realloc_ok b p = Some b' -> bb_data b' = bb_data b ++ p.
Proof.
  unfold bb_add. destruct (bb_ensure realloc_ok b (bytes_len p)) as [b1|] eqn:E; [|done]. cbn [mbind option_bind]. intros [= <-]. cbn [bb_data].
  f_equal. unfold bb_ensure in E. destruct (_ <=? _)%N; [by injection E as <-|]. destruct (realloc_ok _); [by injection E as <-|done].
Qed.

Lemma add_varint_data fuel : forall b v b', add_varint realloc_ok fuel b v = Some b' -> bb_data b' = bb_data b ++ varint_bytes fuel v.
Proof.
  induction fuel as [|f IH]; intros b v b'; [done|]. cbn [add_varint varint_bytes]. unfold bb_add_u8.
  destruct (128 <=? v)%N; [|apply bb_add_data].
  destruct (bb_add _ _ _) as [b1|] eqn:E; [|done]. cbn [mbind option_bind]. intros H. apply IH in H. apply bb_add_data in E.
  by rewrite H, E, <-app_assoc.
Qed.

Lemma pb_add_bytes_data b field p b' : pb_add_bytes realloc_ok b field p = Some b' -> bb_data b' = bb_data b ++ field_bytes field p.
Proof.
  unfold pb_add_bytes, pb_add_key, bb_add_varint, field_bytes. intros H.
  destruct (add_varint _ 10 b _) as [b1|] eqn:E1; [|done]. cbn [mbind option_bind] in H.
  destruct (add_varint _ 10 b1 _) as [b2|] eqn:E2; [|done]. cbn [mbind option_bind] in H.
  apply add_varint_data in E1, E2. fold (key_bytes field 2) in E1. fold (varint (bytes_len p)) in E2.
  destruct p as [|c p]; [injection H as <-|apply bb_add_data in H; rewrite H]; rewrite E2, E1, ?app_nil_r, <-!app_assoc; done.
Qed.

Lemma pb_add_varint_data b field v b' : pb_add_varint_field realloc_ok b field v = Some b' ->
  bb_data b' = bb_data b ++ key_bytes field 0 ++ varint v.
Proof.
  unfold pb_add_varint_field, pb_add_key, bb_add_varint. intros H.
  destruct (add_varint _ 10 b _) as [b1|] eqn:E1; [|done]. cbn [mbind option_bind] in H.
  apply add_varint_data in E1, H. by rewrite H, E1, <-app_assoc.
Qed.

Lemma encode_headers_data hs : forall out out', encode_headers realloc_ok out hs = Some out' -> bb_data out' = bb_data out ++ (hs ≫= header_bytes).
Proof.
  induction hs as [|h hs IH]; intros out out'; cbn [encode_headers]; [intros [= <-]; by rewrite app_nil_r|].
  destruct (encode_header _ out h) as [o1|] eqn:E; [|done]. cbn [mbind option_bind]. intros H. apply IH in H. rewrite H, bind_cons, app_assoc.
  f_equal. unfold encode_header in E. unfold header_bytes. destruct (h_key h) as [k|]; [|injection E as <-; by rewrite app_nil_r].
  destruct (h_value h) as [v|]; [|injection E as <-; by rewrite app_nil_r].
  destruct (pb_add_bytes _ empty_buf 1 k) as [hb1|] eqn:E1; [|done]. cbn [mbind option_bind] in E.
  destruct (pb_add_bytes _ hb1 2 v) as [hb|] eqn:E2; [|done]. cbn [mbind option_bind] in E.
  apply pb_add_bytes_data in E1, E2, E. by rewrite E, E2, E1.
Qed.

Lemma encode_frame_data f out out' : encode_frame realloc_ok f out = Some out' -> bb_data out' = bb_data out ++ frame_bytes f.
Proof.
  unfold encode_frame, frame_bytes. intros H.
  repeat match type of H with
  | mbind _ (pb_add_varint_field ?r ?b ?n ?v) = _ =>
      let b' := fresh "b" in let E := fresh "E" in
      destruct (pb_add_varint_field r b n v) as [b'|] eqn:E; [|done]; apply pb_add_varint_data in E; cbn [mbind option_bind] in H
  end.
  destruct (encode_headers _ _ _) as [b5|] eqn:E5; [|done]. cbn [mbind option_bind] in H. apply encode_headers_data in E5.
  destruct (f_payload_type f) as [t|].
  - destruct (pb_add_bytes _ b5 7 t) as [b6|] eqn:E6; [|done]. cbn [mbind option_bind] in H. apply pb_add_bytes_data in E6, H.
    rewrite H, E6, E5, E2, E1, E0, E, <-!app_assoc. done.
  - cbn [mbind option_bind] in H. apply pb_add_bytes_data in H. rewrite H, E5, E2, E1, E0, E, <-!app_assoc. done.
Qed.
End Written.

(** ** What is read back *)

(** A text without NUL. *)
Definition str_free (t : cstr) : bool := forallb (fun c => negb (bool_decide (c = "000"%char))) t.

Lemma lor_disjoint value x shift : (value < 2 ^ shift)%N -> N.lor value (N.shiftl x shift) = (value + x * 2 ^ shift)%N.
Proof.
  intros Hv. assert (N.land value (N.shiftl x shift) = 0%N) as Hd.
  { apply N.bits_inj_0. intros n. rewrite N.land_spec. destruct (N.ltb_spec n shift).
    - rewrite N.shiftl_spec_low by done. apply andb_false_r.
    - destruct (N.eq_dec value 0%N) as [->|]; [by rewrite N.bits_0|]. rewrite N.bits_above_log2; [done|].
      apply N.log2_lt_pow2; [lia|]. eapply N.lt_le_trans; [exact Hv|]. apply N.pow_le_mono_r; lia. }
  rewrite <-N.lxor_lor by done. rewrite <-N.add_nocarry_lxor by done. by rewrite N.shiftl_mul_pow2.
Qed.

Lemma land_127 v : N.land v 127 = (v mod 128)%N.
Proof. change 127%N with (N.ones 7). by rewrite N.land_ones. Qed.

Lemma varint_group v : (128 <= v)%N -> code (ascii_of_N (N.lor (N.land v 127) 128)) = (v mod 128 + 128)%N.
Proof.
  intros _. rewrite land_127.
  assert (v mod 128 < 128)%N by (apply N.mod_lt; lia).
  assert (N.lor (v mod 128) 128 = v mod 128 + 128)%N as ->.
  { change 128%N with (N.shiftl 1 7) at 2. rewrite lor_disjoint; [done|done]. }
  apply code_ascii_of_N. lia.
Qed.

Lemma varint_from_bytes fuel : forall v shift value used rest, (v < 2 ^ (7 * N.of_nat fuel))%N -> (value < 2 ^ shift)%N ->
  (value + v * 2 ^ shift < 2 ^ 64)%N -> (shift + 7 * (N.of_nat fuel - 1) < 64)%N -> fuel <> 0 ->
  varint_from (varint_bytes fuel v ++ rest) shift value used = Done ((value + v * 2 ^ shift)%N, used + length (varint_bytes fuel v)).
Proof.
  induction fuel as [|f IH]; intros v shift value used rest Hv Hval Hfit Hshift Hf; [done|]. cbn [varint_bytes].
  destruct (N.leb_spec 128 v) as [Hge|Hlt]; cbn [app varint_from].
  - rewrite (proj2 (N.leb_gt 64 shift)) by lia. rewrite varint_group by done.
    assert (N.land (v mod 128 + 128) 127 = v mod 128)%N as ->.
    { rewrite land_127, N.Div0.add_mod. change (128 mod 128)%N with 0%N. rewrite N.add_0_r, !N.Div0.mod_mod. done. }
    rewrite (proj2 (N.ltb_ge (v mod 128 + 128) 128)) by (clear; generalize (v mod 128)%N; lia).
    pose proof (N.div_mod v 128 ltac:(lia)) as Hdm. assert (v mod 128 < 128)%N as Hm by (apply N.mod_lt; lia).
    assert (0 < 2 ^ shift)%N as Hp by (apply N.neq_0_lt_0, N.pow_nonzero; lia).
    assert (2 ^ (shift + 7) = 128 * 2 ^ shift)%N as Hp7 by (rewrite N.pow_add_r; change (2 ^ 7)%N with 128%N; lia).
    assert (N.shiftr v 7 = v / 128)%N as Hs by apply N.shiftr_div_pow2. rewrite Hs.
    assert (v / 128 < 2 ^ (7 * N.of_nat f))%N as Hq.
    { apply N.Div0.div_lt_upper_bound. replace (7 * N.of_nat (S f))%N with (7 + 7 * N.of_nat f)%N in Hv by lia.
      rewrite N.pow_add_r in Hv. done. }
    assert (v mod 128 * 2 ^ shift + (v / 128) * (128 * 2 ^ shift) = v * 2 ^ shift)%N as Hsum by (rewrite Hdm at 3; lia).
    unfold wrap64. rewrite N.mod_small by (rewrite ?N.shiftl_mul_pow2; lia). rewrite lor_disjoint by done.
    destruct f as [|f]; [change (2 ^ (7 * N.of_nat 1))%N with 128%N in Hv; lia|].
    rewrite IH; [|done| | |lia|done].
    + f_equal. f_equal; [|cbn [length]; lia]. rewrite Hp7. lia.
    + rewrite Hp7. generalize dependent (2 ^ shift)%N. intros q. intros. nia.
    + rewrite Hp7. lia.
  - rewrite (proj2 (N.leb_gt 64 shift)) by lia. rewrite code_ascii_of_N by lia. rewrite (proj2 (N.ltb_lt v 128)) by done.
    rewrite land_127, (N.mod_small v 128) by done.
    unfold wrap64. rewrite N.mod_small by (rewrite N.shiftl_mul_pow2; lia). rewrite lor_disjoint by done. by rewrite Nat.add_1_r.
Qed.

Lemma varint_length v : 1 <= length (varint v).
Proof. unfold varint. cbn [varint_bytes]. destruct (128 <=? v)%N; cbn [length]; lia. Qed.

Lemma read_at data pre v rest : data = pre ++ varint v ++ rest -> (v < 2 ^ 64)%N ->
  read_varint data (length pre) = Done (v, length (pre ++ varint v)).
Proof.
  intros -> Hv. unfold read_varint. rewrite drop_app_length. unfold varint at 1. rewrite varint_from_bytes; [| | | |lia|done].
  - cbn [mbind outcome_bind obind]. rewrite length_app. do 3 f_equal. rewrite N.mul_1_r. done.
  - eapply N.lt_trans; [exact Hv|]. done.
  - done.
  - rewrite N.mul_1_r. done.
Qed.

Lemma wrap_sum (data : cstr) pre t rest : data = pre ++ t ++ rest -> (bytes_len data < 2 ^ 63)%N ->
  wrap64 (N.of_nat (length pre) + bytes_len t) = N.of_nat (length (pre ++ t)) /\ (bytes_len data <? N.of_nat (length (pre ++ t)))%N = false /\
  (bytes_len t < 2 ^ 63)%N.
Proof.
  intros -> H. unfold bytes_len in *. rewrite !length_app in *. unfold wrap64. rewrite N.mod_small by lia.
  split_and!; [lia|apply N.ltb_ge; lia|lia].
Qed.

Lemma take_at (pre t rest : cstr) : take (N.to_nat (bytes_len t)) (drop (length pre) (pre ++ t ++ rest)) = t.
Proof. unfold bytes_len. rewrite Nat2N.id, drop_app_length. apply take_app_length. Qed.

Lemma copy_text_at data pre t rest : data = pre ++ t ++ rest -> (bytes_len data + 1 < 2 ^ 63)%N ->
  copy_text data (length pre) (bytes_len t) = Done (t, length (pre ++ t)).
Proof.
  intros E H. destruct (wrap_sum data pre t rest E ltac:(lia)) as (H1 & H2 & H3). unfold copy_text. rewrite H1, H2.
  assert (bytes_len t <= bytes_len data)%N by (subst data; unfold bytes_len; rewrite !length_app; lia).
  rewrite (proj2 (N.eqb_neq _ _)) by lia. rewrite (proj2 (N.leb_gt _ _)) by lia. rewrite Nat2N.id. subst data. by rewrite take_at.
Qed.

Lemma copy_payload_at data pre t rest : data = pre ++ t ++ rest -> (bytes_len data + 1 < 2 ^ 63)%N ->
  copy_payload data (length pre) (bytes_len t) = Done (t, length (pre ++ t)).
Proof.
  intros E H. destruct (wrap_sum data pre t rest E ltac:(lia)) as (H1 & H2 & H3). unfold copy_payload. rewrite H1, H2.
  rewrite (proj2 (N.leb_gt _ _)) by lia. rewrite Nat2N.id. subst data. by rewrite take_at.
Qed.

Lemma c_string_id t : str_free t = true -> c_string t = t.
Proof.
  unfold str_free, c_string. induction t as [|c t IH]; [done|]. cbn [forallb take_while]. intros [Hc Ht]%andb_prop.
  rewrite Hc. by rewrite IH.
Qed.

(** The keys of the fields used. *)
Lemma small_key field wt : (field <= 8)%N -> (wt = 0 \/ wt = 2)%N ->
  (N.lor (N.shiftl field 3) wt < 2 ^ 64)%N /\ key_field (N.lor (N.shiftl field 3) wt) = Z.of_N field /\ key_wire (N.lor (N.shiftl field 3) wt) = wt.
Proof.
  intros Hf Hw. assert (field ∈ N.of_nat <$> seq 0 9) as Hin.
  { apply list_elem_of_fmap. exists (N.to_nat field). rewrite N2Nat.id. split; [done|]. apply elem_of_seq. lia. }
  revert Hin. cbn [fmap list_fmap seq]. rewrite !elem_of_cons, elem_of_nil.
  intros H. destruct Hw as [-> | ->]; destruct_or?; try done; subst field; vm_compute; done.
Qed.

(** The first round of a parser at a field: its key and its number. *)
Lemma key_at data pre field wt rest : data = pre ++ key_bytes field wt ++ rest -> (field <= 8)%N -> (wt = 0 \/ wt = 2)%N ->
  read_varint data (length pre) = Done (N.lor (N.shiftl field 3) wt, length (pre ++ key_bytes field wt)) /\
  Nat.ltb (length pre) (length data) = true.
Proof.
  intros E Hf Hw. split; [apply (read_at data pre _ rest E), (small_key field wt Hf Hw)|].
  apply Nat.ltb_lt. subst data. rewrite !length_app. pose proof (varint_length (N.lor (N.shiftl field 3) wt)). unfold key_bytes. lia.
Qed.

(** A field of text: its number, its length and its bytes. *)
Lemma text_field_at data pre field t rest : data = pre ++ field_bytes field t ++ rest -> (field <= 8)%N -> (bytes_len data + 1 < 2 ^ 63)%N ->
  Nat.ltb (length pre) (length data) = true /\
  read_varint data (length pre) = Done (N.lor (N.shiftl field 3) 2, length (pre ++ key_bytes field 2)) /\
  read_varint data (length (pre ++ key_bytes field 2)) = Done (bytes_len t, length (pre ++ key_bytes field 2 ++ varint (bytes_len t))) /\
  data = (pre ++ key_bytes field 2 ++ varint (bytes_len t)) ++ t ++ rest /\
  length ((pre ++ key_bytes field 2 ++ varint (bytes_len t)) ++ t) = length (pre ++ field_bytes field t).
Proof.
  intros E Hf Hn. unfold field_bytes in *. assert (bytes_len t < 2 ^ 64)%N as Ht.
  { subst data. unfold bytes_len in *. rewrite !length_app in Hn. lia. }
  destruct (key_at data pre field 2 (varint (bytes_len t) ++ t ++ rest)) as [H1 H2]; [by rewrite E, <-!app_assoc|done|by right|].
  split_and!; [done|done| | |].
  - rewrite (read_at data (pre ++ key_bytes field 2) (bytes_len t) (t ++ rest)); [by rewrite <-!app_assoc|by rewrite E, <-!app_assoc|done].
  - by rewrite E, <-!app_assoc.
  - by rewrite <-!app_assoc.
Qed.

Lemma parse_header_fields k v : str_free k = true -> str_free v = true ->
  (bytes_len (field_bytes 1 k ++ field_bytes 2 v) + 1 < 2 ^ 63)%N -> forall fl,
  parse_header_msg (S (S (S fl))) (field_bytes 1 k ++ field_bytes 2 v) 0 (mkHeader None None) = Done (mkHeader (Some k) (Some v)).
Proof.
  intros Hk Hv Hn fl. set (data := field_bytes 1 k ++ field_bytes 2 v) in *.
  destruct (text_field_at data [] 1 k (field_bytes 2 v)) as (A1 & A2 & A3 & A4 & A5); [done|done|done|].
  destruct (text_field_at data (field_bytes 1 k) 2 v []) as (B1 & B2 & B3 & B4 & B5); [by rewrite app_nil_r|done|done|].
  destruct (small_key 1 2) as (_ & F1 & W1); [done|by right|]. destruct (small_key 2 2) as (_ & F2 & W2); [done|by right|].
  cbn [parse_header_msg]. change (length []) with 0 in A1, A2. rewrite A1, A2. cbn [mbind outcome_bind obind]. rewrite W1, F1, A3.
  cbn [N.eqb Pos.eqb Z.of_N Z.eqb mbind outcome_bind obind]. rewrite (copy_text_at data _ k _ A4 Hn). cbn [mbind outcome_bind obind].
  rewrite A5. change ([] ++ field_bytes 1 k) with (field_bytes 1 k).
  rewrite B1, B2. cbn [mbind outcome_bind obind]. rewrite W2, F2, B3.
  cbn [N.eqb Pos.eqb Z.of_N Z.eqb mbind outcome_bind obind]. rewrite (copy_text_at data _ v _ B4 Hn). cbn [mbind outcome_bind obind].
  rewrite B5. fold data. rewrite Nat.ltb_irrefl. cbn [h_key h_value]. by rewrite !c_string_id.
Qed.

Definition put_varint (field : N) (f : WSFrame) (v : N) : WSFrame :=
  if (field =? 1)%N then set_seq_id f v else if (field =? 2)%N then set_log_id f v
  else if (field =? 3)%N then set_service f (wrap_s 32 (Z.of_N v)) else set_method f (wrap_s 32 (Z.of_N v)).

Lemma parse_varint_field fl data pre field v rest f : (1 <= field <= 4)%N -> (v < 2 ^ 64)%N ->
  data = pre ++ (key_bytes field 0 ++ varint v) ++ rest ->
  parse_frame (S fl) data (length pre) f = parse_frame fl data (length (pre ++ key_bytes field 0 ++ varint v)) (put_varint field f v).
Proof.
  intros Hf Hv E. destruct (key_at data pre field 0 (varint v ++ rest)) as [H1 H2]; [by rewrite E, <-!app_assoc|lia|by left|].
  destruct (small_key field 0) as (_ & F & W); [lia|by left|].
  assert (read_varint data (length (pre ++ key_bytes field 0)) = Done (v, length (pre ++ key_bytes field 0 ++ varint v))) as H3.
  { rewrite (read_at data (pre ++ key_bytes field 0) v rest); [by rewrite <-!app_assoc|by rewrite E, <-!app_assoc|done]. }
  cbn [parse_frame]. rewrite H2, H1. cbn [mbind outcome_bind obind]. rewrite F, W, H3. clear H1 H2 H3 F W.
  assert (field = 1 \/ field = 2 \/ field = 3 \/ field = 4)%N as [->|[->|[->| ->]]] by lia; reflexivity.
Qed.

Lemma parse_header_field fl data pre k v rest f : str_free k = true -> str_free v = true -> (bytes_len data + 1 < 2 ^ 63)%N ->
  length (f_headers f) < MAX_HEADERS -> data = pre ++ header_bytes (mkHeader (Some k) (Some v)) ++ rest ->
  parse_frame (S fl) data (length pre) f =
    parse_frame fl data (length (pre ++ header_bytes (mkHeader (Some k) (Some v)))) (set_headers f (f_headers f ++ [mkHeader (Some k) (Some v)])).
Proof.
  intros Hk Hv Hn Hh E. unfold header_bytes in *. cbn [h_key h_value] in *. set (body := field_bytes 1 k ++ field_bytes 2 v) in *.
  destruct (text_field_at data pre 5 body rest) as (A1 & A2 & A3 & A4 & A5); [done|done|done|].
  destruct (small_key 5 2) as (_ & F & W); [done|by right|].
  destruct (wrap_sum data _ body _ A4 ltac:(lia)) as (B1 & B2 & B3).
  cbn [parse_frame]. rewrite A1, A2. cbn [mbind outcome_bind obind]. rewrite F, W, A3.
  cbn [Z.of_N Z.eqb Pos.eqb N.eqb andb mbind outcome_bind obind]. rewrite B1, B2. rewrite (proj2 (Nat.leb_gt _ _)) by done.
  unfold parse_header_at. rewrite (proj2 (N.ltb_ge _ _)).
  2:{ rewrite A4 at 1. unfold bytes_len. rewrite !length_app. lia. }
  assert (take (N.to_nat (bytes_len body)) (drop (length (pre ++ key_bytes 5 2 ++ varint (bytes_len body))) data) = body) as ->.
  { rewrite A4 at 1. apply take_at. }
  assert (length body <= length data /\ 2 <= length body) as [Hb Hb2].
  { split; [rewrite A4, !length_app; lia|]. unfold body, field_bytes, key_bytes. rewrite !length_app.
    pose proof (varint_length (N.lor (N.shiftl 1 3) 2)). pose proof (varint_length (bytes_len k)). lia. }
  assert (parse_header_msg (S (length data)) body 0 (mkHeader None None) = Done (mkHeader (Some k) (Some v))) as ->.
  { replace (S (length data)) with (S (S (S (length data - 2)))) by lia. apply parse_header_fields; [done|done|].
    fold body. unfold bytes_len in *. lia. }
  cbn [mbind outcome_bind obind]. by rewrite Nat2N.id, A5.
Qed.

Lemma parse_type_field fl data pre t rest f : str_free t = true -> (bytes_len data + 1 < 2 ^ 63)%N -> data = pre ++ field_bytes 7 t ++ rest ->
  parse_frame (S fl) data (length pre) f = parse_frame fl data (length (pre ++ field_bytes 7 t)) (set_payload_type f (Some t)).
Proof.
  intros Ht Hn E. destruct (text_field_at data pre 7 t rest) as (A1 & A2 & A3 & A4 & A5); [done|done|done|].
  destruct (small_key 7 2) as (_ & F & W); [done|by right|].
  cbn [parse_frame]. rewrite A1, A2. cbn [mbind outcome_bind obind]. rewrite F, W, A3.
  cbn [Z.of_N Z.eqb Pos.eqb N.eqb andb mbind outcome_bind obind]. rewrite (copy_text_at data _ t _ A4 Hn). cbn [mbind outcome_bind obind].
  by rewrite A5, c_string_id.
Qed.

Lemma parse_payload_field fl data pre t rest f : (bytes_len data + 1 < 2 ^ 63)%N -> data = pre ++ field_bytes 8 t ++ rest ->
  parse_frame (S fl) data (length pre) f = parse_frame fl data (length (pre ++ field_bytes 8 t)) (set_payload f t).
Proof.
  intros Hn E. destruct (text_field_at data pre 8 t rest) as (A1 & A2 & A3 & A4 & A5); [done|done|done|].
  destruct (small_key 8 2) as (_ & F & W); [done|by right|].
  cbn [parse_frame]. rewrite A1, A2. cbn [mbind outcome_bind obind]. rewrite F, W, A3.
  cbn [Z.of_N Z.eqb Pos.eqb N.eqb andb mbind outcome_bind obind]. rewrite (copy_payload_at data _ t _ A4 Hn). cbn [mbind outcome_bind obind].
  by rewrite A5.
Qed.

Definition header_ok (h : WSHeader) : Prop :=
  match h_key h, h_value h with Some k, Some v => str_free k = true /\ str_free v = true | _, _ => False end.

(** A frame of complete headers and NUL-free texts. *)
Record frame_ok (f : WSFrame) : Prop := {
  fo_seq : (f_seq_id f < 2 ^ 64)%N;
  fo_log : (f_log_id f < 2 ^ 64)%N;
  fo_service : (- 2 ^ 31 <= f_service f < 2 ^ 31)%Z;
  fo_method : (- 2 ^ 31 <= f_method f < 2 ^ 31)%Z;
  fo_headers : Forall header_ok (f_headers f);
  fo_count : length (f_headers f) <= MAX_HEADERS;
  fo_type : match f_payload_type f with Some t => str_free t = true | None => True end;
}.

Lemma parse_headers data rest hs : (bytes_len data + 1 < 2 ^ 63)%N -> Forall header_ok hs -> forall fl pre f,
  length (f_headers f) + length hs <= MAX_HEADERS -> data = pre ++ (hs ≫= header_bytes) ++ rest ->
  parse_frame (length hs + fl) data (length pre) f =
    parse_frame fl data (length (pre ++ (hs ≫= header_bytes))) (set_headers f (f_headers f ++ hs)).
Proof.
  intros Hn. induction 1 as [|h hs Hh _ IH]; intros fl pre f Hc E; cbn [length Nat.add] in *.
  - cbn. rewrite !app_nil_r. by destruct f.
  - rewrite bind_cons in *. unfold header_ok in Hh. destruct h as [[k|] [v|]]; cbn [h_key h_value] in Hh; try done.
    destruct Hh as [Hk Hv]. rewrite <-!app_assoc in E. rewrite (parse_header_field _ data pre k v _ f Hk Hv Hn ltac:(lia) E).
    rewrite (IH fl _ (set_headers f _)); cbn [f_headers set_headers].
    + f_equal; [by rewrite <-!app_assoc|]. unfold set_headers. cbn [f_seq_id f_log_id f_service f_method f_payload_type f_payload].
      by rewrite <-app_assoc.
    + rewrite length_app. cbn [length]. lia.
    + by rewrite E, <-!app_assoc.
Qed.

Lemma int32_back z : (- 2 ^ 31 <= z < 2 ^ 31)%Z -> wrap_s 32 (Z.of_N (Z.to_N (wrap_u 64 z))) = z.
Proof.
  intros Hz. unfold wrap_u. pose proof (Z.mod_pos_bound z (2 ^ 64) ltac:(lia)). rewrite Z2N.id by lia. unfold wrap_s.
  change (2 ^ (32 - 1))%Z with (2 ^ 31)%Z. rewrite (Z.mod_eq z (2 ^ 64)) by lia.
  replace (z - 2 ^ 64 * (z / 2 ^ 64) + 2 ^ 31)%Z with ((z + 2 ^ 31) + (- (2 ^ 32) * (z / 2 ^ 64)) * 2 ^ 32)%Z by lia.
  rewrite Z.mod_add by lia. rewrite Z.mod_small by lia. lia.
Qed.

Lemma uint64_range z : (Z.to_N (wrap_u 64 z) < 2 ^ 64)%N.
Proof. unfold wrap_u. pose proof (Z.mod_pos_bound z (2 ^ 64) ltac:(lia)). lia. Qed.

Lemma field_length k t : 1 <= length (field_bytes k t).
Proof. unfold field_bytes, key_bytes. rewrite length_app. pose proof (varint_length (N.lor (N.shiftl k 3) 2)). lia. Qed.

Lemma headers_length hs : Forall header_ok hs -> length hs <= length (hs ≫= header_bytes).
Proof.
  induction 1 as [|h hs Hh _ IH]; [done|]. rewrite bind_cons, length_app. cbn [length]. unfold header_ok in Hh.
  destruct h as [[k|] [v|]]; try done. unfold header_bytes at 1. cbn [h_key h_value].
  pose proof (field_length 5 (field_bytes 1 k ++ field_bytes 2 v)). lia.
Qed.

(** C28: A frame that is written is read back: sequence and log numbers,
    negative services and methods, up to 64 headers, payload type and payload
    bytes; the parser ends within its bound, without undefined behaviour. *)
Theorem frame_roundtrip realloc_ok f out : frame_ok f -> encode_frame realloc_ok f empty_buf = Some out ->
  (bytes_len (bb_data out) + 1 < 2 ^ 63)%N -> parse_frame_bytes (bb_data out) = Done f.
Proof.
  intros [Hseq Hlog Hsv Hm Hh Hc Ht] Hout Hn. apply encode_frame_data in Hout. cbn [empty_buf bb_data app] in Hout. rewrite Hout in *.
  set (data := frame_bytes f) in *. unfold parse_frame_bytes.
  set (n := match f_payload_type f with Some _ => 1 | None => 0 end).
  assert (5 + length (f_headers f) + n <= length data) as Hlen.
  { unfold data, frame_bytes, n. rewrite !length_app. pose proof (headers_length _ Hh).
    pose proof (varint_length (f_seq_id f)). pose proof (varint_length (f_log_id f)).
    pose proof (varint_length (Z.to_N (wrap_u 64 (f_service f)))). pose proof (varint_length (Z.to_N (wrap_u 64 (f_method f)))).
    pose proof (field_length 8 (f_payload f)). destruct (f_payload_type f) as [t|]; [pose proof (field_length 7 t)|]; lia. }
  replace (S (length data)) with (S (S (S (S (length (f_headers f) + (n + S (S (length data - (5 + length (f_headers f) + n))))))))) by lia.
  assert (data = [] ++ frame_bytes f) as E by done. unfold frame_bytes in E. change 0 with (length (@nil ascii)).
  repeat match type of E with
  | data = ?pre ++ (key_bytes ?k 0 ++ varint ?v) ++ ?rest =>
      rewrite (parse_varint_field _ data pre k v rest) by (first [exact E|lia|apply uint64_range|done]);
      rewrite (app_assoc pre) in E
  end.
  rewrite (parse_headers data _ (f_headers f) Hn Hh) with (2 := E) by exact Hc. rewrite app_assoc in E.
  set (pre := (_ ++ (f_headers f ≫= header_bytes))) in *. clearbody pre. unfold n. clear Hlen n.
  destruct (f_payload_type f) as [t|] eqn:Et.
  - cbn [Nat.add]. rewrite (parse_type_field _ data pre t _ _ Ht Hn E). rewrite app_assoc in E.
    rewrite <-(app_nil_r (field_bytes 8 _)) in E. rewrite (parse_payload_field _ data _ _ [] _ Hn E). rewrite app_nil_r in E. rewrite <-E.
    cbn [parse_frame]. rewrite Nat.ltb_irrefl. f_equal. destruct f; cbn in *. subst. unfold put_varint; cbn. by rewrite !int32_back.
  - cbn [Nat.add app] in *. rewrite <-(app_nil_r (field_bytes 8 _)) in E. rewrite (parse_payload_field _ data _ _ [] _ Hn E).
    rewrite app_nil_r in E. rewrite <-E.
    cbn [parse_frame]. rewrite Nat.ltb_irrefl. f_equal. destruct f; cbn in *. subst. unfold put_varint; cbn. by rewrite !int32_back.
Qed.

(** ** Hostile frames *)

(** A field of unknown number whose length makes the offset wrap back to the
    start of the frame. *)
Definition looping_frame : cstr := key_bytes 6 2 ++ varint (2 ^ 64 - 11)%N.
(** A payload type of 2^64 - 1 bytes, and a number of eleven bytes. *)
Definition overrun_frame : cstr := key_bytes 7 2 ++ varint (2 ^ 64 - 1)%N.
Definition overlong_frame : cstr := key_bytes 1 0 ++ replicate 11 "128"%char.

(** Eleven bytes from the server hang the client: the bound of a skipped
    length is tested on a sum that wraps around, so the parser goes back to
    the start of the frame and never ends. *)
Theorem parse_frame_livelock fuel f : parse_frame fuel looping_frame 0 f = NoFuel.
Proof.
  revert f. induction fuel as [|fl IH]; intros f; [done|]. cbn [parse_frame].
  assert (Nat.ltb 0 (length looping_frame) = true) as -> by by vm_compute.
  assert (read_varint looping_frame 0 = Done (50%N, 1)) as -> by by vm_compute. cbn [mbind outcome_bind obind].
  assert (key_field 50 = 6%Z) as -> by by vm_compute. assert (key_wire 50 = 2%N) as -> by by vm_compute.
  cbn [Z.eqb Pos.eqb N.eqb andb]. assert (skip_field looping_frame 1 2 = Done 0) as -> by by vm_compute. cbn [mbind outcome_bind obind]. apply IH.
Qed.

(** The other two lead to undefined behaviour: a copy of 2^64 - 1 bytes into
    an empty block, and a shift by 70 bits. *)
Theorem parse_frame_undefined : parse_frame_bytes overrun_frame = Undefined /\ parse_frame_bytes overlong_frame = Undefined.
Proof. split; by vm_compute. Qed.

(** ** Witnesses *)

Lemma demo_frame_ok : frame_ok demo_frame.
Proof.
  split; cbn [demo_frame f_seq_id f_log_id f_service f_method f_headers f_payload_type]; [done|done|lia|lia| |cbn; unfold MAX_HEADERS; lia|done].
  by repeat constructor.
Qed.

Lemma frame_roundtrip_witness :
  exists out, encode_frame (fun _ => true) demo_frame empty_buf = Some out /\ parse_frame_bytes (bb_data out) = Done demo_frame.
Proof.
  eexists. split; [vm_compute; reflexivity|]. apply (frame_roundtrip (fun _ => true) demo_frame); [exact demo_frame_ok|by vm_compute|by vm_compute].
Defined.
