(* ===== verification/FeishuWs.v ===== *)
(** [src/plugins/channels/feishu_channel/feishu_ws.c], after the frames of
    Protobuf.v: reassembly of fragmented events, removal of duplicates, and
    the handler of the stream. The clock is an argument. *)
From S2P Require Import Prelude CStr Json Protobuf.

(** ** Fragments *)

(** A slot is free when its id is NULL. *)
Record PendingMessage := mkPending {
  pm_msg_id : option cstr;
  pm_sum : Z;
  pm_parts : list (option cstr);
  pm_created_ms : N;
}.

Definition free_pending : PendingMessage := mkPending None 0 [] 0.
Definition MAX_PENDING : nat := 16.

Definition holds (id : cstr) (p : PendingMessage) : bool := match pm_msg_id p with Some m => str_eq m id | None => false end.
Definition is_free (p : PendingMessage) : bool := match pm_msg_id p with None => true | Some _ => false end.

Fixpoint find_slot (p : PendingMessage -> bool) (l : list PendingMessage) : option nat :=
  match l with
  | [] => None
  | x :: r => if p x then Some 0 else S <$> find_slot p r
  end.

(** The slot of the message, else a free one, else the first. *)
Definition slot_of (id : cstr) (pending : list PendingMessage) : nat :=
  match find_slot (holds id) pending with
  | Some i => i
  | None => default 0 (find_slot is_free pending)
  end.

(** The text when every part is there. *)
Fixpoint all_parts (parts : list (option cstr)) : option cstr :=
  match parts with
  | [] => Some []
  | None :: _ => None
  | Some p :: r => (fun t => p ++ t) <$> all_parts r
  end.

Section Feishu.
(** Whether [calloc] of so many pointers, and [realloc], succeed. *)
Context (calloc_ok : Z -> bool) (realloc_ok : N -> bool).

Definition combine_payload (now : N) (pending : list PendingMessage) (msg_id : option cstr) (sum seq : Z) (p : cstr) :
    list PendingMessage * option cstr :=
  match msg_id with
  | None => (pending, None)
  | Some id =>
      if (sum <=? 1)%Z || (seq <? 0)%Z || (sum <=? seq)%Z then (pending, None)
      else
        let i := slot_of id pending in
        let slot := default free_pending (pending !! i) in
        let reuse := holds id slot && (pm_sum slot =? sum)%Z in
        if reuse || calloc_ok sum then
          let parts := if reuse then pm_parts slot else replicate (Z.to_nat sum) None in
          let parts' := <[Z.to_nat seq := Some p]> parts in
          match all_parts parts' with
          | Some all => (<[i := free_pending]> pending, Some all)
          | None => (<[i := mkPending (Some id) sum parts' (if reuse then pm_created_ms slot else now)]> pending, None)
          end
        else (<[i := free_pending]> pending, None)
  end.

Definition cleanup_pending_expired (t : N) (pending : list PendingMessage) : list PendingMessage :=
  (fun p => if negb (is_free p) && (pm_created_ms p + 5000 <? t)%N then free_pending else p) <$> pending.

(** ** The client *)

Record FeishuWS := mkFeishu {
  fw_connected : bool;
  fw_running : bool;
  fw_callback : bool;
  fw_recent_msg_ids : list (option cstr);
  fw_msg_id_idx : nat;
  fw_service_id : Z;
  fw_ping_interval_ms : N;
  fw_next_ping_ms : N;
  fw_pending : list PendingMessage;
}.

Definition set_pending (ws : FeishuWS) v := mkFeishu (fw_connected ws) (fw_running ws) (fw_callback ws) (fw_recent_msg_ids ws) (fw_msg_id_idx ws) (fw_service_id ws) (fw_ping_interval_ms ws) (fw_next_ping_ms ws) v.
Definition set_recent (ws : FeishuWS) ids i := mkFeishu (fw_connected ws) (fw_running ws) (fw_callback ws) ids i (fw_service_id ws) (fw_ping_interval_ms ws) (fw_next_ping_ms ws) (fw_pending ws).
Definition set_interval (ws : FeishuWS) v := mkFeishu (fw_connected ws) (fw_running ws) (fw_callback ws) (fw_recent_msg_ids ws) (fw_msg_id_idx ws) (fw_service_id ws) v (fw_next_ping_ms ws) (fw_pending ws).
Definition set_next_ping (ws : FeishuWS) v := mkFeishu (fw_connected ws) (fw_running ws) (fw_callback ws) (fw_recent_msg_ids ws) (fw_msg_id_idx ws) (fw_service_id ws) (fw_ping_interval_ms ws) v (fw_pending ws).
Definition set_running (ws : FeishuWS) v := mkFeishu (fw_connected ws) v (fw_callback ws) (fw_recent_msg_ids ws) (fw_msg_id_idx ws) (fw_service_id ws) (fw_ping_interval_ms ws) (fw_next_ping_ms ws) (fw_pending ws).

Definition RECENT_IDS : nat := 20.

Definition feishu_ws_create (now : N) : FeishuWS :=
  mkFeishu false false false (replicate RECENT_IDS None) 0 0 120000 (now + 120000) (replicate MAX_PENDING free_pending).

(** [connected] is the answer of [mg_ws_connect]. *)
Definition feishu_ws_connect (connected : bool) (ws : FeishuWS) (url : cstr) : FeishuWS * bool :=
  if connected then
    let sid := match strstr url $"service_id=" with Some i => atoi (drop (i + 11) url) | None => fw_service_id ws end in
    (mkFeishu true (fw_running ws) (fw_callback ws) (fw_recent_msg_ids ws) (fw_msg_id_idx ws) sid (fw_ping_interval_ms ws)
       (fw_next_ping_ms ws) (fw_pending ws), true)
  else (mkFeishu false (fw_running ws) (fw_callback ws) (fw_recent_msg_ids ws) (fw_msg_id_idx ws) (fw_service_id ws) (fw_ping_interval_ms ws)
          (fw_next_ping_ms ws) (fw_pending ws), false).

Definition feishu_ws_stop (ws : FeishuWS) : FeishuWS := set_running ws false.

Definition is_id (id : cstr) (o : option cstr) : bool := match o with Some m => str_eq m id | None => false end.

Definition is_duplicate_event (ws : FeishuWS) (event_id : cstr) : FeishuWS * bool :=
  if existsb (is_id event_id) (fw_recent_msg_ids ws) then (ws, true)
  else (set_recent ws (<[fw_msg_id_idx ws := Some event_id]> (fw_recent_msg_ids ws)) ((fw_msg_id_idx ws + 1) mod RECENT_IDS), false).

(** What leaves the handler: a call of the callback, or bytes on the stream. *)
Inductive ws_output := Delivered (chat_id text sender_id : cstr) | Sent (bytes : cstr).

Definition member (o : option json) (name : cstr) : option json := j ← o; get_object_item (Some j) name.

(** The sender of an event. *)
Definition event_sender (event : option json) : option cstr :=
  let ids := member (member event $"sender") $"sender_id" in
  match is_string (member ids $"open_id"), is_string (member ids $"user_id"), is_string (member ids $"union_id") with
  | Some s, _, _ => Some s
  | None, Some s, _ => Some s
  | None, None, o => o
  end.

Definition message_text (content : cstr) : cstr :=
  default content (j ← cJSON_Parse content; is_string (get_object_item (Some j) $"text")).

Definition handle_event_json (ws : FeishuWS) (event_json : cstr) : FeishuWS * list ws_output :=
  match cJSON_Parse event_json with
  | None => (ws, [])
  | Some root =>
      let header := get_object_item (Some root) $"header" in
      let '(ws1, duplicate) := match is_string (member header $"event_id") with
                               | Some id => is_duplicate_event ws id
                               | None => (ws, false)
                               end in
      if duplicate : bool then (ws1, [])
      else match is_string (member header $"event_type") with
           | Some type =>
               if str_eq type $"im.message.receive_v1" then
                 let event := get_object_item (Some root) $"event" in
                 let message := member event $"message" in
                 match is_string (member message $"chat_id"), is_string (member message $"content"), event_sender event with
                 | Some chat_id, Some content, Some sender =>
                     (ws1, if fw_callback ws then [Delivered chat_id (message_text content) sender] else [])
                 | _, _, _ => (ws1, [])
                 end
               else (ws1, [])
           | None => (ws1, [])
           end
  end.

(** ** Sending *)

Definition feishu_ws_send_frame (f : WSFrame) : list ws_output :=
  match encode_frame realloc_ok f empty_buf with Some b => [Sent (bb_data b)] | None => [] end.

Definition ping_frame (ws : FeishuWS) : WSFrame := fst (frame_header_set (set_service empty_frame (fw_service_id ws)) $"type" $"ping").

(** The headers that are complete, copied one by one. *)
Definition copy_headers (hs : list WSHeader) (out : WSFrame) : WSFrame :=
  fold_left (fun f h => match h_key h, h_value h with Some k, Some v => fst (frame_header_set f k v) | _, _ => f end) hs out.

Definition ack_payload (code : Z) (data_text : cstr) : json :=
  JObj [($"code", JNum (num_of_Z code)); ($"headers", JObj []); ($"data", JStr data_text)].

Definition ack_frame (f : WSFrame) (code biz_rt_ms : Z) (data_text payload : cstr) : WSFrame :=
  let out := mkFrame (f_seq_id f) (f_log_id f) (f_service f) (f_method f) [] (f_payload_type f) [] in
  let out := copy_headers (f_headers f) out in
  set_payload (fst (frame_header_set out $"biz_rt" (truncate_to 32 (fmt_d biz_rt_ms)))) payload.

Definition feishu_ws_send_ack (f : WSFrame) (code biz_rt_ms : Z) (data_text : cstr) : list ws_output :=
  match cJSON_PrintUnformatted (ack_payload code data_text) with
  | Some payload => feishu_ws_send_frame (ack_frame f code biz_rt_ms data_text payload)
  | None => []
  end.

(** ** The handler *)

Inductive ws_event := WsOpen | WsMsg (data : cstr) | WsClose.

Definition pong (ws : FeishuWS) (f : WSFrame) : FeishuWS :=
  match frame_header_get f $"type", f_payload f with
  | Some t, _ :: _ =>
      if str_eq t $"pong" then
        match (conf ← cJSON_Parse (f_payload f); is_number (get_object_item (Some conf) $"PingInterval")) with
        | Some n => if (0 <? valueint n)%Z then set_interval ws (Z.to_N (valueint n) * 1000) else ws
        | None => ws
        end
      else ws
  | _, _ => ws
  end.

(** The text of the event a frame completes, if it does. *)
Definition payload_text (now : N) (ws : FeishuWS) (f : WSFrame) : FeishuWS * option cstr :=
  let sum := frame_header_get_int f $"sum" in
  if (1 <? sum)%Z then
    let '(pending, text) := combine_payload now (fw_pending ws) (frame_header_get f $"message_id") sum (frame_header_get_int f $"seq") (f_payload f) in
    (set_pending ws pending, text)
  else (ws, match f_payload f with [] => None | p => Some p end).

(** A frame of method 1; [elapsed] is the time its handling took. *)
Definition handle_event_frame (now : N) (elapsed : Z) (ws : FeishuWS) (f : WSFrame) : FeishuWS * list ws_output :=
  let '(ws1, text) := payload_text now ws f in
  match text with
  | Some t =>
      let '(ws2, out) := handle_event_json ws1 (c_string t) in
      (ws2, out ++ feishu_ws_send_ack f 200 elapsed [])
  | None =>
      if (1 <? frame_header_get_int f $"sum")%Z then (ws1, []) else (ws1, feishu_ws_send_ack f 500 elapsed [])
  end.

(** [None]: the parser runs into undefined behaviour or does not end. *)
Definition ws_handler (now : N) (elapsed : Z) (ws : FeishuWS) (ev : ws_event) : option (FeishuWS * list ws_output) :=
  match ev with
  | WsOpen => Some (set_next_ping ws (now + fw_ping_interval_ms ws), [])
  | WsMsg data =>
      match parse_frame_bytes data with
      | Done f =>
          Some (if (f_method f =? 0)%Z then (pong ws f, [])
                else if (f_method f =? 1)%Z then handle_event_frame now elapsed ws f
                else (ws, []))
      | Refused => Some (ws, [])
      | Undefined | NoFuel => None
      end
  | WsClose => Some (set_running ws false, [])
  end.

(** What [feishu_ws_run] does after each poll; [t] and [now] are the readings
    of the clock for the expiry and for the ping. *)
Definition run_round (t now : N) (ws : FeishuWS) : FeishuWS * list ws_output :=
  let ws1 := set_pending ws (cleanup_pending_expired t (fw_pending ws)) in
  if fw_connected ws1 && (fw_next_ping_ms ws1 <=? now)%N
  then (set_next_ping ws1 (now + fw_ping_interval_ms ws1), feishu_ws_send_frame (ping_frame ws1))
  else (ws1, []).
End Feishu.

(** ** Duplicates *)

(** The ids remembered, oldest first. *)
Definition recent (ws : FeishuWS) (l : list cstr) : Prop :=
  length (fw_recent_msg_ids ws) = RECENT_IDS /\ fw_msg_id_idx ws < RECENT_IDS /\ length l <= RECENT_IDS /\
  drop (fw_msg_id_idx ws) (fw_recent_msg_ids ws) ++ take (fw_msg_id_idx ws) (fw_recent_msg_ids ws) =
    replicate (RECENT_IDS - length l) None ++ (Some <$> l).

(** The last [RECENT_IDS] of a list. *)
Definition last_ids (l : list cstr) : list cstr := drop (length l - RECENT_IDS) l.

Lemma recent_in ws l id : recent ws l -> existsb (is_id id) (fw_recent_msg_ids ws) = true <-> id ∈ l.
Proof.
  intros (_ & _ & _ & Hr). rewrite existsb_exists. transitivity (Some id ∈ fw_recent_msg_ids ws).
  - split.
    + intros (x & Hx & Hid). apply list_elem_of_In in Hx. destruct x as [m|]; [|done]. by apply bool_decide_eq_true in Hid as ->.
    + intros H. exists (Some id). split; [by apply list_elem_of_In|]. by apply bool_decide_eq_true.
  - transitivity (Some id ∈ drop (fw_msg_id_idx ws) (fw_recent_msg_ids ws) ++ take (fw_msg_id_idx ws) (fw_recent_msg_ids ws)).
    + rewrite <-(take_drop (fw_msg_id_idx ws) (fw_recent_msg_ids ws)) at 1. rewrite !elem_of_app. tauto.
    + rewrite Hr, elem_of_app, list_elem_of_fmap. split; [intros [[? _]%elem_of_replicate|(y & [= ->] & Hy)]; done|].
      intros H. right. by exists id.
Qed.

Lemma rotate_insert {A} (ids : list A) i x : i < length ids ->
  drop ((i + 1) mod length ids) (<[i := x]> ids) ++ take ((i + 1) mod length ids) (<[i := x]> ids) = tail (drop i ids ++ take i ids) ++ [x].
Proof.
  intros Hi. destruct (lookup_lt_is_Some_2 ids i Hi) as [y Hy]. pose proof (take_drop_middle ids i y Hy) as E.
  assert (length (take i ids) = i) as Hl by (rewrite length_take; lia). rewrite (insert_take_drop _ _ _ Hi), (drop_S _ _ _ Hy). cbn [app tail].
  destruct (decide (i + 1 = length ids)) as [He|Hne].
  - rewrite He, Nat.Div0.mod_same. cbn [drop take]. rewrite app_nil_r, (drop_ge ids (S i)) by lia. done.
  - rewrite Nat.mod_small by lia. replace (i + 1) with (length (take i ids ++ [x])) by (rewrite length_app, Hl; done).
    change (x :: drop (S i) ids) with ([x] ++ drop (S i) ids). rewrite (app_assoc (take i ids)), drop_app_length, take_app_length.
    by rewrite app_assoc.
Qed.

(** The ring remembers exactly the last twenty events: an event is a
    duplicate when it is one of them, and otherwise becomes the newest. *)
Theorem is_duplicate_event_correct ws l id : recent ws l ->
  let '(ws', duplicate) := is_duplicate_event ws id in
  (duplicate = true <-> id ∈ l) /\ recent ws' (if duplicate then l else last_ids (l ++ [id])).
Proof.
  intros Hr. pose proof (recent_in ws l id Hr) as Hin. unfold is_duplicate_event.
  destruct (existsb (is_id id) (fw_recent_msg_ids ws)); [by split|]. split; [done|].
  destruct Hr as (H1 & H2 & H3 & H4). unfold recent. cbn [set_recent fw_recent_msg_ids fw_msg_id_idx].
  rewrite length_insert. unfold last_ids. rewrite length_drop, length_app. cbn [length].
  split_and!; [done|by apply Nat.mod_upper_bound|lia|].
  rewrite <-H1 at 1 2. rewrite rotate_insert by lia. rewrite H4. destruct (decide (length l = RECENT_IDS)) as [E|E].
  - rewrite E. replace (RECENT_IDS + 1 - RECENT_IDS) with 1 by lia. replace (RECENT_IDS - (RECENT_IDS + 1 - 1)) with 0 by lia.
    rewrite Nat.sub_diag. destruct l as [|a l]; [done|]. rewrite fmap_cons. cbn [replicate app tail drop]. by rewrite drop_0, fmap_app.
  - replace (length l + 1 - RECENT_IDS) with 0 by lia. rewrite drop_0.
    replace (RECENT_IDS - length l) with (S (RECENT_IDS - (length l + 1 - 0))) by lia. cbn [replicate app tail].
    by rewrite fmap_app, <-app_assoc.
Qed.

Definition event_id_of (event_json : cstr) : option cstr :=
  root ← cJSON_Parse event_json; is_string (member (get_object_item (Some root) $"header") $"event_id").

Fixpoint handle_events (ws : FeishuWS) (events : list cstr) : FeishuWS :=
  match events with [] => ws | e :: r => handle_events (fst (handle_event_json ws e)) r end.

Lemma recent_set ws ids i l : recent (set_recent ws ids i) l -> forall ws', fw_recent_msg_ids ws' = ids -> fw_msg_id_idx ws' = i -> recent ws' l.
Proof. unfold recent. intros H ws' -> ->. exact H. Qed.

Lemma handle_event_recent ws l e : recent ws l ->
  match event_id_of e with
  | None => recent (fst (handle_event_json ws e)) l
  | Some id => (id ∈ l -> handle_event_json ws e = (ws, [])) /\
               (id ∉ l -> recent (fst (handle_event_json ws e)) (last_ids (l ++ [id])))
  end.
Proof.
  intros Hr. unfold event_id_of, handle_event_json. destruct (cJSON_Parse e) as [root|]; [|done]. cbn [mbind option_bind].
  assert (forall w ws1 (o : option cstr), recent ws1 w -> recent (fst (match o with
    | Some type => if str_eq type $"im.message.receive_v1" then
        match is_string (member (member (get_object_item (Some root) $"event") $"message") $"chat_id"),
              is_string (member (member (get_object_item (Some root) $"event") $"message") $"content"),
              event_sender (get_object_item (Some root) $"event") with
        | Some chat_id, Some content, Some sender => (ws1, if fw_callback ws then [Delivered chat_id (message_text content) sender] else [])
        | _, _, _ => (ws1, []) end else (ws1, [])
    | None => (ws1, []) end)) w) as Hrest by (intros; by split_matches).
  destruct (is_string (member (get_object_item (Some root) $"header") $"event_id")) as [id|]; [|by apply Hrest].
  pose proof (is_duplicate_event_correct ws l id Hr) as Hd. destruct (is_duplicate_event ws id) as [ws1 d] eqn:E. destruct Hd as [Hd Hr1]. split.
  - intros Hin. apply Hd in Hin. subst d. unfold is_duplicate_event in E. destruct (existsb _ _); [by injection E as <-|done].
  - intros Hin. destruct d; [by destruct Hin; apply Hd|]. by apply Hrest.
Qed.

(** [id] is one of the last [k]. *)
Definition near (k : nat) (id : cstr) (l : list cstr) : Prop := id ∈ drop (length l - k) l.

Lemma near_in k id l : near k id l -> id ∈ l.
Proof. unfold near. intros H. rewrite <-(take_drop (length l - k) l). apply elem_of_app. by right. Qed.

Lemma near_snoc k id l x : k < RECENT_IDS -> length l <= RECENT_IDS -> near k id l -> near (S k) id (last_ids (l ++ [x])).
Proof.
  unfold near, last_ids. intros Hk Hl H. rewrite drop_drop, length_drop, length_app. cbn [length].
  replace (length l + 1 - RECENT_IDS + (length l + 1 - (length l + 1 - RECENT_IDS) - S k)) with (length l - k) by lia.
  rewrite drop_app_le by lia. apply elem_of_app. by left.
Qed.

Lemma handle_events_near mid : forall ws l id k, recent ws l -> near k id l -> k + length mid <= RECENT_IDS ->
  exists l', recent (handle_events ws mid) l' /\ id ∈ l'.
Proof.
  induction mid as [|e mid IH]; intros ws l id k Hr Hn Hk; cbn [handle_events length] in *.
  - exists l. split; [done|]. by eapply near_in.
  - pose proof (handle_event_recent ws l e Hr) as He. destruct (event_id_of e) as [x|].
    + destruct (decide (x ∈ l)) as [Hx|Hx].
      * rewrite (proj1 He Hx). apply (IH ws l id k); [done|done|lia].
      * apply (IH _ _ id (S k) (proj2 He Hx)); [|lia]. apply near_snoc; [lia|apply Hr|done].
    + apply (IH _ l id k); [done|done|lia].
Qed.

(** An event is delivered once: after it was accepted, its repetition is
    dropped, whatever fewer than twenty events came in between. *)
Theorem event_delivered_once ws l e id mid : recent ws l -> event_id_of e = Some id -> (id ∉ l) -> length mid < RECENT_IDS ->
  let ws' := handle_events (fst (handle_event_json ws e)) mid in handle_event_json ws' e = (ws', []).
Proof.
  intros Hr He Hid Hmid ws'. pose proof (handle_event_recent ws l e Hr) as H1. rewrite He in H1.
  destruct (handle_events_near mid _ _ id 1 (proj2 H1 Hid)) as (l' & Hr' & Hin).
  - unfold near, last_ids. rewrite drop_drop, length_drop, length_app. cbn [length].
    replace (length l + 1 - RECENT_IDS + (length l + 1 - (length l + 1 - RECENT_IDS) - 1)) with (length l) by (destruct Hr as (_ & _ & Hl & _); unfold RECENT_IDS in *; lia).
    rewrite drop_app_length. by left.
  - lia.
  - fold ws' in Hr'. pose proof (handle_event_recent ws' l' e Hr') as H2. rewrite He in H2. by apply H2.
Qed.

(** ** Reassembly *)

(** A message of which parts are missing: their number, those that arrived,
    and when the first did. *)
Abbreviation partial := (Z * list (option cstr) * N)%type.
(** The slots as a map from message ids. *)
Abbreviation Assembly := (gmap cstr partial).

Record fragment := mkFragment { fr_id : cstr; fr_sum : Z; fr_seq : Z; fr_bytes : cstr }.
Definition fragment_ok (fr : fragment) : Prop := (1 < fr_sum fr /\ 0 <= fr_seq fr < fr_sum fr)%Z.

(** The parts a fragment is added to, and since when they are kept. *)
Definition parts_for (old : option partial) (sum : Z) : list (option cstr) :=
  match old with
  | Some (s, parts, _) => if (s =? sum)%Z then parts else replicate (Z.to_nat sum) None
  | None => replicate (Z.to_nat sum) None
  end.
Definition since (old : option partial) (sum : Z) (now : N) : N :=
  match old with Some (s, _, created) => if (s =? sum)%Z then created else now | None => now end.

Definition add_part (old : option partial) (fr : fragment) : list (option cstr) :=
  <[Z.to_nat (fr_seq fr) := Some (fr_bytes fr)]> (parts_for old (fr_sum fr)).

Definition assemble (now : N) (m : Assembly) (fr : fragment) : Assembly * option cstr :=
  let parts := add_part (m !! fr_id fr) fr in
  match all_parts parts with
  | Some all => (delete (fr_id fr) m, Some all)
  | None => (<[fr_id fr := (fr_sum fr, parts, since (m !! fr_id fr) (fr_sum fr) now)]> m, None)
  end.

(** What has been waiting for more than five seconds is given up. *)
Definition fresh (t : N) (v : partial) : Prop := (t <= snd v + 5000)%N.
#[export] Instance fresh_dec t v : Decision (fresh t v).
Proof. unfold fresh. apply _. Defined.
Definition expire (t : N) (m : Assembly) : Assembly := filter (fun kv : cstr * partial => fresh t (snd kv)) m.

Definition slot_entry (p : PendingMessage) : option (cstr * partial) :=
  (fun id => (id, (pm_sum p, pm_parts p, pm_created_ms p))) <$> pm_msg_id p.
Definition assembly_of (pending : list PendingMessage) : Assembly := list_to_map (omap slot_entry pending).

(** Sixteen slots with distinct ids. *)
Definition slots_ok (pending : list PendingMessage) : Prop := length pending = MAX_PENDING /\ NoDup (omap pm_msg_id pending).

Lemma entry_ids pending : (omap slot_entry pending).*1 = omap pm_msg_id pending.
Proof.
  induction pending as [|p l IH]; [done|]. cbn. unfold slot_entry at 1. destruct (pm_msg_id p); cbn; [by f_equal|done].
Qed.

Lemma assembly_dom pending : dom (assembly_of pending) = list_to_set (omap pm_msg_id pending).
Proof. unfold assembly_of. by rewrite dom_list_to_map_L, entry_ids. Qed.

Lemma find_slot_Some f l i : find_slot f l = Some i -> exists pre x post, l = pre ++ x :: post /\ length pre = i /\ f x = true.
Proof.
  revert i. induction l as [|y l IH]; intros i; cbn [find_slot]; [done|]. destruct (f y) eqn:E.
  - intros [= <-]. by exists [], y, l.
  - destruct (find_slot f l) as [j|]; [|done]. intros [= <-]. destruct (IH j eq_refl) as (pre & x & post & -> & <- & Hx).
    by exists (y :: pre), x, post.
Qed.

Lemma find_slot_None f l : find_slot f l = None -> Forall (fun x => f x = false) l.
Proof.
  induction l as [|y l IH]; cbn [find_slot]; [by constructor|]. destruct (f y) eqn:E; [done|].
  destruct (find_slot f l); [done|]. intros _. constructor; [done|by apply IH].
Qed.

Lemma holds_id id p : holds id p = true <-> pm_msg_id p = Some id.
Proof. unfold holds, str_eq. destruct (pm_msg_id p); [rewrite bool_decide_eq_true; split; congruence|done]. Qed.

Lemma no_slot_ids id pending : find_slot (holds id) pending = None -> id ∉ omap pm_msg_id pending.
Proof.
  intros H%find_slot_None (p & Hp & Hid)%list_elem_of_omap. rewrite Forall_forall in H. specialize (H p Hp). cbn in H.
  by rewrite (proj2 (holds_id id p)) in H.
Qed.

Lemma full_ids pending : Forall (fun p => is_free p = false) pending -> length (omap pm_msg_id pending) = length pending.
Proof.
  induction 1 as [|p l Hp _ IH]; [done|]. cbn. unfold is_free in Hp. destruct (pm_msg_id p); [|done]. cbn. by rewrite IH.
Qed.

(** A table that is not full has a slot for a new message. *)
Lemma slot_of_spec id pending : slots_ok pending -> id ∈ dom (assembly_of pending) \/ size (assembly_of pending) < MAX_PENDING ->
  exists pre x post, pending = pre ++ x :: post /\ length pre = slot_of id pending /\ (id ∉ omap pm_msg_id (pre ++ post)) /\
    (pm_msg_id x = Some id \/ pm_msg_id x = None).
Proof.
  intros [Hlen Hnd] Hroom. unfold slot_of. destruct (find_slot (holds id) pending) as [i|] eqn:Ei.
  - apply find_slot_Some in Ei as (pre & x & post & -> & <- & Hx%holds_id). exists pre, x, post. split_and!; [done|done| |by left].
    rewrite !omap_app in *. cbn in Hnd. rewrite Hx in Hnd. cbn in Hnd. apply NoDup_app in Hnd as (_ & H1 & H2). apply NoDup_cons in H2 as [H2 _].
    intros [H|H]%elem_of_app; [apply (H1 _ H); by left|done].
  - pose proof (no_slot_ids id pending Ei) as Hid. destruct Hroom as [Hin|Hroom].
    { rewrite assembly_dom in Hin. by apply elem_of_list_to_set in Hin. }
    destruct (find_slot is_free pending) as [i|] eqn:Ef.
    + apply find_slot_Some in Ef as (pre & x & post & -> & <- & Hx). exists pre, x, post. unfold is_free in Hx.
      split_and!; [done|done| |right; by destruct (pm_msg_id x)]. intros H. apply Hid. rewrite !omap_app in *. cbn.
      destruct (pm_msg_id x); [done|]. done.
    + apply find_slot_None, full_ids in Ef. rewrite <-size_dom, assembly_dom in Hroom.
      rewrite size_list_to_set in Hroom by done. lia.
Qed.

Lemma assembly_middle pre x post : NoDup (omap pm_msg_id (pre ++ x :: post)) ->
  assembly_of (pre ++ x :: post) =
    match slot_entry x with Some (k, v) => <[k := v]> (assembly_of (pre ++ post)) | None => assembly_of (pre ++ post) end.
Proof.
  intros Hnd. unfold assembly_of. destruct (slot_entry x) as [[k v]|] eqn:E.
  - change (<[k := v]> (list_to_map (omap slot_entry (pre ++ post)))) with (list_to_map ((k, v) :: omap slot_entry (pre ++ post)) : Assembly).
    apply list_to_map_proper; [by rewrite entry_ids|]. rewrite !omap_app. cbn. rewrite E. symmetry. apply Permutation_middle.
  - rewrite !omap_app. cbn. by rewrite E.
Qed.

Section Reassembly.
(** [calloc] succeeds. *)
Context (calloc_ok : Z -> bool).
Hypothesis Hcalloc : forall n, calloc_ok n = true.

Definition combine_fragment (now : N) (pending : list PendingMessage) (fr : fragment) : list PendingMessage * option cstr :=
  combine_payload calloc_ok now pending (Some (fr_id fr)) (fr_sum fr) (fr_seq fr) (fr_bytes fr).

(** The slots implement the map, while they are not full. *)
Lemma combine_refines now pending fr : slots_ok pending -> fragment_ok fr ->
  fr_id fr ∈ dom (assembly_of pending) \/ size (assembly_of pending) < MAX_PENDING ->
  let '(pending', text) := combine_fragment now pending fr in
  slots_ok pending' /\ assemble now (assembly_of pending) fr = (assembly_of pending', text).
Proof.
  intros Hok Hfr Hroom. destruct (slot_of_spec (fr_id fr) pending Hok Hroom) as (pre & x & post & -> & Hi & Hid & Hx).
  unfold combine_fragment, combine_payload. destruct Hfr as [Hs Hq].
  rewrite (proj2 (Z.leb_gt (fr_sum fr) 1)) by lia. rewrite (proj2 (Z.ltb_ge (fr_seq fr) 0)) by lia.
  rewrite (proj2 (Z.leb_gt (fr_sum fr) (fr_seq fr))) by lia. cbn [orb]. rewrite Hcalloc, orb_true_r, <-Hi.
  rewrite (list_lookup_middle pre post x (length pre) eq_refl). cbn [default from_option id].
  destruct Hok as [Hlen Hnd]. assert (assembly_of (pre ++ post) !! fr_id fr = None) as HM.
  { apply not_elem_of_dom. rewrite assembly_dom. by rewrite elem_of_list_to_set. }
  pose proof (assembly_middle pre x post Hnd) as Habs.
  assert (NoDup (omap pm_msg_id (pre ++ post))) as Hnd'.
  { rewrite omap_app in *. cbn in Hnd. destruct (pm_msg_id x); [|done]. apply NoDup_app in Hnd as (A & B & C). apply NoDup_cons in C as [_ C].
    apply NoDup_app. split_and!; [done| |done]. intros y Hy Hy'. apply (B y Hy). by right. }
  assert (forall p', (pm_msg_id p' = Some (fr_id fr) \/ pm_msg_id p' = None) -> NoDup (omap pm_msg_id (pre ++ p' :: post))) as Hnew.
  { intros p' Hp'. rewrite omap_app in *. cbn. destruct (pm_msg_id p') as [y|]; [|done]. destruct Hp' as [[= ->]|]; [|done].
    apply NoDup_app in Hnd' as (A & B & C). rewrite elem_of_app in Hid. apply NoDup_app. split_and!; [done| |].
    - intros z Hz [->|Hz']%elem_of_cons; [tauto|by apply (B z)].
    - constructor; tauto. }
  assert ((if holds (fr_id fr) x && (pm_sum x =? fr_sum fr)%Z then pm_parts x else replicate (Z.to_nat (fr_sum fr)) None) =
    parts_for (assembly_of (pre ++ x :: post) !! fr_id fr) (fr_sum fr)) as ->.
  { rewrite Habs. unfold slot_entry. destruct Hx as [Hx|Hx]; rewrite Hx; cbn [fmap option_fmap option_map].
    - rewrite (proj2 (holds_id _ x) Hx). cbn [andb]. rewrite lookup_insert_eq. done.
    - unfold holds. rewrite Hx, HM. done. }
  assert ((if holds (fr_id fr) x && (pm_sum x =? fr_sum fr)%Z then pm_created_ms x else now) =
    since (assembly_of (pre ++ x :: post) !! fr_id fr) (fr_sum fr) now) as ->.
  { rewrite Habs. unfold slot_entry. destruct Hx as [Hx|Hx]; rewrite Hx; cbn [fmap option_fmap option_map].
    - rewrite (proj2 (holds_id _ x) Hx). cbn [andb]. rewrite lookup_insert_eq. done.
    - unfold holds. rewrite Hx, HM. done. }
  fold (add_part (assembly_of (pre ++ x :: post) !! fr_id fr) fr). unfold assemble.
  assert (forall v, <[fr_id fr := v]> (assembly_of (pre ++ x :: post)) = <[fr_id fr := v]> (assembly_of (pre ++ post))) as Hins.
  { intros v. rewrite Habs. unfold slot_entry. destruct Hx as [Hx|Hx]; rewrite Hx; cbn [fmap option_fmap option_map]; [by rewrite insert_insert_eq|done]. }
  assert (delete (fr_id fr) (assembly_of (pre ++ x :: post)) = assembly_of (pre ++ post)) as Hdel.
  { rewrite Habs. unfold slot_entry. destruct Hx as [Hx|Hx]; rewrite Hx; cbn [fmap option_fmap option_map];
      [by rewrite delete_insert_id|by rewrite delete_id]. }
  destruct (all_parts _) as [t|]; rewrite insert_app_r_alt, Nat.sub_diag by done; cbn [list_insert insert].
  - split; [split; [rewrite length_app in *; cbn [length] in *; lia|by apply Hnew; right]|].
    rewrite Hdel, (assembly_middle pre free_pending post) by (by apply Hnew; right). done.
  - split; [split; [rewrite length_app in *; cbn [length] in *; lia|by apply Hnew; left]|].
    rewrite Hins. match goal with |- context [assembly_of (pre ++ ?p :: post)] => rewrite (assembly_middle pre p post (Hnew p (or_introl eq_refl))) end. done.
Qed.

(** What the loop of [feishu_ws_run] does to the slots: a part that arrives,
    and the removal of what is too old, after each poll. *)
Inductive slot_event := Part (now : N) (fr : fragment) | Sweep (t : N).

(** For each part its message and what it completes. *)
Fixpoint run_fragments (pending : list PendingMessage) (evs : list slot_event) : list (cstr * option cstr) :=
  match evs with
  | [] => []
  | Part now fr :: r => let '(pending', text) := combine_fragment now pending fr in (fr_id fr, text) :: run_fragments pending' r
  | Sweep t :: r => run_fragments (cleanup_pending_expired t pending) r
  end.

Fixpoint run_assembly (m : Assembly) (evs : list slot_event) : list (cstr * option cstr) :=
  match evs with
  | [] => []
  | Part now fr :: r => let '(m', text) := assemble now m fr in (fr_id fr, text) :: run_assembly m' r
  | Sweep t :: r => run_assembly (expire t m) r
  end.

(** There is a slot whenever a part arrives: its message is known, or fewer
    than sixteen messages are incomplete. *)
Fixpoint roomy (m : Assembly) (evs : list slot_event) : Prop :=
  match evs with
  | [] => True
  | Part now fr :: r => (fr_id fr ∈ dom m \/ size m < MAX_PENDING) /\ roomy (fst (assemble now m fr)) r
  | Sweep t :: r => roomy (expire t m) r
  end.

Definition part_ok (ev : slot_event) : Prop := match ev with Part _ fr => fragment_ok fr | Sweep _ => True end.

Lemma cleanup_ids t pending : sublist (omap pm_msg_id (cleanup_pending_expired t pending)) (omap pm_msg_id pending).
Proof.
  induction pending as [|p l IH]; [done|]. unfold cleanup_pending_expired in *. rewrite fmap_cons.
  destruct (negb (is_free p) && _); cbn [omap list_omap]; [destruct (pm_msg_id p)|destruct (pm_msg_id p)]; cbn [pm_msg_id free_pending].
  - by apply sublist_cons.
  - exact IH.
  - by apply sublist_skip.
  - exact IH.
Qed.

Lemma cleanup_entries t k v pending : (k, v) ∈ omap slot_entry (cleanup_pending_expired t pending) <-> (k, v) ∈ omap slot_entry pending /\ fresh t v.
Proof.
  rewrite !list_elem_of_omap. split.
  - intros (p' & (p & -> & Hp)%list_elem_of_fmap & He). destruct (is_free p) eqn:Ef; cbn [negb andb] in He.
    + exfalso. unfold is_free in Ef. unfold slot_entry in He. by destruct (pm_msg_id p).
    + destruct (N.ltb_spec (pm_created_ms p + 5000) t) as [Hl|Hl]; [done|]. split; [by exists p|].
      unfold slot_entry in He. destruct (pm_msg_id p); [|done]. injection He as <- <-. unfold fresh. cbn. lia.
  - intros [(p & Hp & He) Hf]. exists p. split; [|done]. apply list_elem_of_fmap. exists p. split; [|done].
    unfold slot_entry in He. destruct (pm_msg_id p); [|done]. injection He as <- <-. unfold fresh in Hf. cbn in Hf.
    rewrite (proj2 (N.ltb_ge _ _)) by lia. by rewrite andb_false_r.
Qed.

(** The removal implements that of the map. *)
Lemma cleanup_refines t pending : slots_ok pending ->
  slots_ok (cleanup_pending_expired t pending) /\ assembly_of (cleanup_pending_expired t pending) = expire t (assembly_of pending).
Proof.
  intros [Hlen Hnd]. assert (NoDup (omap pm_msg_id (cleanup_pending_expired t pending))) as Hnd' by (eapply sublist_NoDup; [exact Hnd|apply cleanup_ids]).
  split; [split; [unfold cleanup_pending_expired; by rewrite length_fmap|done]|]. apply map_eq. intros k. apply option_eq. intros v.
  unfold expire, assembly_of. rewrite map_lookup_filter_Some. cbn [snd].
  rewrite <-!elem_of_list_to_map by (by rewrite entry_ids). apply cleanup_entries.
Qed.

Lemma run_refines evs : forall pending, slots_ok pending -> Forall part_ok evs -> roomy (assembly_of pending) evs ->
  run_fragments pending evs = run_assembly (assembly_of pending) evs.
Proof using Hcalloc.
  induction evs as [|[now fr|t] evs IH]; intros pending Hok Hevs Hroom; [done| |]; apply Forall_cons in Hevs as [Hfr Hevs]; cbn [run_fragments run_assembly roomy] in *.
  - destruct Hroom as [Hroom Hrest]. pose proof (combine_refines now pending fr Hok Hfr Hroom) as Hc.
    destruct (combine_fragment now pending fr) as [pending' text]. destruct Hc as [Hok' Ha]. rewrite Ha in *. f_equal. by apply IH.
  - destruct (cleanup_refines t pending Hok) as [Hok' Ha]. rewrite <-Ha in *. by apply IH.
Qed.
End Reassembly.

#[export] Instance roomy_dec m evs : Decision (roomy m evs).
Proof. revert m. induction evs as [|[now fr|t] evs IH]; intros m; cbn [roomy]; apply _. Defined.

(** One message alone: its own parts, and the removals. *)
Fixpoint run_one (old : option partial) (evs : list slot_event) : list (option cstr) :=
  match evs with
  | [] => []
  | Part now fr :: r =>
      match all_parts (add_part old fr) with
      | Some all => Some all :: run_one None r
      | None => None :: run_one (Some (fr_sum fr, add_part old fr, since old (fr_sum fr) now)) r
      end
  | Sweep t :: r => run_one (v ← old; if decide (fresh t v) then Some v else None) r
  end.

Definition of_message (id : cstr) (ev : slot_event) : bool := match ev with Part _ fr => str_eq (fr_id fr) id | Sweep _ => true end.
Definition outputs_for (id : cstr) (l : list (cstr * option cstr)) : list (option cstr) := snd <$> List.filter (fun o => str_eq (fst o) id) l.

Lemma run_assembly_one id evs : forall m, outputs_for id (run_assembly m evs) = run_one (m !! id) (List.filter (of_message id) evs).
Proof.
  induction evs as [|[now fr|t] evs IH]; intros m; [done| |]; cbn [run_assembly List.filter]; unfold of_message at 1.
  - destruct (str_eq (fr_id fr) id) eqn:E.
    + pose proof E as Ei. apply bool_decide_eq_true in Ei. subst id. cbn [run_one]. unfold assemble.
      destruct (all_parts (add_part (m !! fr_id fr) fr)) as [t|]; unfold outputs_for in *; cbn [List.filter fst]; rewrite E, fmap_cons, IH; cbn [snd].
      * by rewrite lookup_delete_eq.
      * by rewrite lookup_insert_eq.
    + pose proof E as Ei. apply bool_decide_eq_false in Ei. unfold assemble.
      destruct (all_parts _) as [t|]; unfold outputs_for in *; cbn [List.filter fst]; rewrite E, IH.
      * by rewrite lookup_delete_ne.
      * by rewrite lookup_insert_ne.
  - cbn [run_one]. rewrite IH. f_equal. unfold expire. rewrite map_lookup_filter. destruct (m !! id) as [v|]; [|done].
    change (Some v ≫= ?f) with (f v). cbv beta. by destruct (decide (fresh t v)); [rewrite option_guard_True|rewrite option_guard_False].
Qed.

(** The parts of a message, in the order they arrive. *)
Definition parts_of (id : cstr) (evs : list slot_event) : list fragment :=
  omap (fun ev => match ev with Part _ fr => if str_eq (fr_id fr) id then Some fr else None | Sweep _ => None end) evs.

(** The message is not given up between its first part, at [first], and its
    last: each removal there comes within five seconds of the first part. *)
Fixpoint in_time (id : cstr) (first : option N) (evs : list slot_event) : bool :=
  match evs with
  | [] => true
  | Part now fr :: r => in_time id (if str_eq (fr_id fr) id then Some (default now first) else first) r
  | Sweep t :: r => (match first with Some t0 => (t <=? t0 + 5000)%N || bool_decide (parts_of id r = []) | None => true end) && in_time id first r
  end.

Lemma parts_of_filter id evs : parts_of id (List.filter (of_message id) evs) = parts_of id evs.
Proof.
  induction evs as [|[now fr|t] evs IH]; [done| |]; cbn [List.filter]; unfold of_message at 1.
  - unfold parts_of in *. destruct (str_eq (fr_id fr) id) eqn:E; cbn; rewrite E; [by rewrite IH|done].
  - exact IH.
Qed.

Lemma in_time_filter id evs : forall first, in_time id first evs = true -> in_time id first (List.filter (of_message id) evs) = true.
Proof.
  induction evs as [|[now fr|t] evs IH]; intros first; [done| |]; cbn [List.filter]; unfold of_message at 1; cbn [in_time].
  - destruct (str_eq (fr_id fr) id) eqn:E; [cbn [in_time]; rewrite E|]; apply IH.
  - intros [H1 H2]%andb_prop. cbn [in_time]. rewrite (IH _ H2), parts_of_filter, H1. done.
Qed.

Lemma run_one_done id evs : parts_of id evs = [] -> Forall (fun ev => of_message id ev = true) evs -> forall old, run_one old evs = [].
Proof.
  intros Hp H. induction H as [|[now fr|t] evs Hev _ IH]; intros old; [done| |]; unfold parts_of in *; cbn in Hev, Hp |- *.
  - by rewrite Hev in Hp.
  - by apply IH.
Qed.

Section Chunks.
Context (id : cstr) (chunks : list cstr).

Definition fragment_of (i : nat) : fragment := mkFragment id (Z.of_nat (length chunks)) (Z.of_nat i) (default [] (chunks !! i)).
Definition filled (done : list nat) : list (option cstr) := imap (fun i c => if bool_decide (i ∈ done) then Some c else None) chunks.

Lemma filled_lookup done i : filled done !! i = (fun c => if bool_decide (i ∈ done) then Some c else None) <$> chunks !! i.
Proof. unfold filled. by rewrite list_lookup_imap. Qed.

Lemma filled_nil : filled [] = replicate (length chunks) None.
Proof.
  apply list_eq. intros i. rewrite filled_lookup. symmetry. destruct (chunks !! i) eqn:E; cbn.
  - apply lookup_replicate. split; [done|]. by apply lookup_lt_Some in E.
  - apply lookup_replicate_None. by apply lookup_ge_None in E.
Qed.

Lemma filled_add done i : i < length chunks -> <[i := Some (default [] (chunks !! i))]> (filled done) = filled (i :: done).
Proof.
  intros Hi. apply list_eq. intros j. destruct (decide (i = j)) as [<-|Hne].
  - rewrite list_lookup_insert_eq by (unfold filled; by rewrite length_imap). rewrite filled_lookup.
    destruct (lookup_lt_is_Some_2 chunks i Hi) as [c ->]. cbn. by rewrite bool_decide_true by left.
  - rewrite list_lookup_insert_ne by done. rewrite !filled_lookup. destruct (chunks !! j); [cbn|done]. f_equal.
    erewrite bool_decide_ext; [done|]. rewrite elem_of_cons. split; [by right|by intros [?|?]].
Qed.

Lemma all_parts_filled (l : list cstr) (f : nat -> bool) : forall k,
  all_parts (imap (fun i c => if f (k + i) then Some c else None) l) =
    if forallb f (seq k (length l)) then Some (concat l) else None.
Proof.
  induction l as [|c l IH]; intros k; [done|]. rewrite imap_cons. cbn [length seq forallb concat]. rewrite Nat.add_0_r.
  destruct (f k); cbn [all_parts andb]; [|done].
  rewrite (imap_ext _ (fun i c => if f (S k + i) then Some c else None)) by (intros i x _; cbn; by rewrite Nat.add_succ_r).
  rewrite IH. by destruct (forallb _ _).
Qed.

Lemma parts_filled got : all_parts (filled got) = if forallb (fun j => bool_decide (j ∈ got)) (seq 0 (length chunks)) then Some (concat chunks) else None.
Proof. exact (all_parts_filled chunks (fun j => bool_decide (j ∈ got)) 0). Qed.

(** What is kept of the message after the parts in [got], the first of which
    came at [first]. *)
Definition kept (got : list nat) (first : option N) : option partial :=
  match got with [] => None | _ => Some (Z.of_nat (length chunks), filled got, default 0%N first) end.

Lemma parts_kept got first : parts_for (kept got first) (Z.of_nat (length chunks)) = filled got.
Proof. destruct got; cbn [kept parts_for]; [by rewrite Nat2Z.id, filled_nil|by rewrite Z.eqb_refl]. Qed.

Lemma run_one_chunks evs : forall got first rest, got ++ rest ≡ₚ seq 0 (length chunks) -> rest <> [] -> (first = None <-> got = []) ->
  parts_of id evs = fragment_of <$> rest -> Forall (fun ev => of_message id ev = true) evs -> in_time id first evs = true ->
  run_one (kept got first) evs = replicate (length rest - 1) None ++ [Some (concat chunks)].
Proof.
  induction evs as [|[now fr|t] evs IH]; intros got first rest Hperm Hne Hfirst Hparts Hall Htime; [by destruct rest| |]; apply Forall_cons in Hall as [Hev Hall].
  - cbn in Hev. unfold parts_of in Hparts. cbn in Hparts. rewrite Hev in Hparts. fold (parts_of id evs) in Hparts.
    destruct rest as [|i rest]; [done|]. rewrite fmap_cons in Hparts. injection Hparts as -> Hparts. cbn [run_one in_time] in Htime |- *. rewrite Hev in Htime.
    assert (i < length chunks) as Hi.
    { assert (i ∈ got ++ i :: rest) as Hin by (apply elem_of_app; right; by left). rewrite Hperm in Hin. apply elem_of_seq in Hin. lia. }
    assert (add_part (kept got first) (fragment_of i) = filled (i :: got)) as Hadd.
    { unfold add_part. cbn [fragment_of fr_sum fr_seq fr_bytes]. rewrite parts_kept, Nat2Z.id. by apply filled_add. }
    assert ((i :: got) ++ rest ≡ₚ seq 0 (length chunks)) as Hperm' by (rewrite <-Hperm; apply Permutation_middle).
    rewrite Hadd. rewrite parts_filled. destruct rest as [|i2 rest].
    + rewrite app_nil_r in Hperm'. assert (forallb (fun j => bool_decide (j ∈ i :: got)) (seq 0 (length chunks)) = true) as ->.
      { apply forallb_forall. intros j Hj. apply bool_decide_eq_true. rewrite Hperm'. by apply list_elem_of_In. }
      by rewrite (run_one_done id).
    + assert (forallb (fun j => bool_decide (j ∈ i :: got)) (seq 0 (length chunks)) = false) as ->.
      { apply not_true_is_false. rewrite forallb_forall. intros H.
        assert (NoDup ((i :: got) ++ i2 :: rest)) as Hnd by (rewrite Hperm'; apply NoDup_seq).
        apply NoDup_app in Hnd as (_ & Hnd & _).
        assert (i2 ∈ seq 0 (length chunks)) as H2 by (rewrite <-Hperm'; apply elem_of_app; right; by left).
        apply list_elem_of_In, H, bool_decide_eq_true in H2. apply (Hnd _ H2). by left. }
      assert (Some (fr_sum (fragment_of i), filled (i :: got), since (kept got first) (fr_sum (fragment_of i)) now) = kept (i :: got) (Some (default now first))) as ->.
      { unfold kept at 2. cbn [default from_option]. do 2 f_equal. destruct got as [|g got]; [by rewrite (proj2 Hfirst eq_refl)|].
        cbn [kept since fragment_of fr_sum]. rewrite Z.eqb_refl. destruct first; [done|]. discriminate (proj1 Hfirst eq_refl). }
      rewrite (IH (i :: got) (Some (default now first)) (i2 :: rest)); try done. cbn [length]. by rewrite !Nat.sub_succ, !Nat.sub_0_r.
  - cbn [run_one in_time] in Htime |- *. apply andb_prop in Htime as [Ht Htime]. change (parts_of id (Sweep t :: evs)) with (parts_of id evs) in Hparts.
    assert ((v ← kept got first; if decide (fresh t v) then Some v else None) = kept got first) as ->; [|by apply IH].
    destruct got as [|g got]; [done|]. unfold kept. cbn [mbind option_bind]. destruct first as [t0|]; [|discriminate (proj1 Hfirst eq_refl)].
    apply orb_prop in Ht as [Ht|Ht]; [|apply bool_decide_eq_true in Ht; rewrite Ht in Hparts; by destruct rest].
    rewrite decide_True; [done|]. unfold fresh. cbn. by apply N.leb_le in Ht.
Qed.
End Chunks.

(** C27: A message split into parts is put together again: in whatever order its
    parts arrive, and however they are mixed with the parts of other messages
    and with the removals of what is too old, the last part of it to arrive,
    and no other, gives the whole text; if no removal between its first part
    and its last comes more than five seconds after the first ([in_time]), and
    if, whenever a part of a new message arrives, fewer than the sixteen
    messages there are slots for are incomplete ([roomy]). *)
Theorem fragments_reassembled calloc_ok evs id chunks order : (forall n, calloc_ok n = true) ->
  Forall part_ok evs -> roomy ∅ evs -> in_time id None evs = true ->
  parts_of id evs = fragment_of id chunks <$> order -> order ≡ₚ seq 0 (length chunks) -> chunks <> [] ->
  outputs_for id (run_fragments calloc_ok (replicate MAX_PENDING free_pending) evs) = replicate (length chunks - 1) None ++ [Some (concat chunks)].
Proof.
  intros Hcalloc Hok Hroom Htime Hparts Horder Hne. change (∅ : Assembly) with (assembly_of (replicate MAX_PENDING free_pending)) in Hroom.
  rewrite (run_refines calloc_ok Hcalloc); [|split; [done|constructor]|done|done].
  rewrite run_assembly_one. change (assembly_of (replicate MAX_PENDING free_pending)) with (∅ : Assembly). rewrite lookup_empty.
  assert (length order = length chunks) as Hlen by (rewrite Horder; apply length_seq). rewrite <-Hlen.
  apply (run_one_chunks id chunks _ [] None); [done| |done|by rewrite parts_of_filter| |by apply in_time_filter].
  - intros ->. by destruct chunks.
  - apply Forall_forall. intros ev Hev. apply list_elem_of_In, filter_In in Hev. by destruct Hev.
Qed.

(** A part that comes later than that finds the others gone. *)
Lemma late_part_lost :
  outputs_for $"m1" (run_fragments (fun _ => true) (replicate MAX_PENDING free_pending)
    [Part 0 (fragment_of $"m1" [$"ab"; $"cd"] 0); Sweep 5001; Part 5001 (fragment_of $"m1" [$"ab"; $"cd"] 1)]) = [None; None].
Proof. by vm_compute. Qed.

(** When the connection has closed, the loop still tests and uses the pointer
    to it: a ping that is due is written to the freed connection. *)
Theorem ping_after_close now t ws elapsed : fw_connected ws = true -> (fw_next_ping_ms ws <= now)%N ->
  exists ws', ws_handler (fun _ => true) (fun _ => true) now elapsed ws WsClose = Some (ws', []) /\ fw_running ws' = false /\
    snd (run_round (fun _ => true) t now ws') = feishu_ws_send_frame (fun _ => true) (ping_frame ws).
Proof.
  intros Hc Hp. eexists. split; [done|]. split; [done|]. unfold run_round. cbn [set_running set_pending fw_connected fw_next_ping_ms].
  rewrite Hc, (proj2 (N.leb_le _ _)) by done. done.
Qed.

(** ** Witnesses *)

Lemma recent_create now : recent (feishu_ws_create now) [].
Proof. unfold recent, RECENT_IDS. cbn [feishu_ws_create fw_recent_msg_ids fw_msg_id_idx length]. split_and!; [done|lia|lia|done]. Qed.

Lemma is_duplicate_event_correct_witness :
  let '(ws', duplicate) := is_duplicate_event (feishu_ws_create 0) $"e1" in
  (duplicate = true <-> $"e1" ∈ ([] : list cstr)) /\ recent ws' (if duplicate then [] else last_ids ([] ++ [$"e1"])).
Proof. exact (is_duplicate_event_correct (feishu_ws_create 0) [] $"e1" (recent_create 0)). Defined.

Definition demo_event (id : cstr) : cstr :=
  $"{" ++ [ch_quote] ++ $"header" ++ [ch_quote] ++ $":{" ++ [ch_quote] ++ $"event_id" ++ [ch_quote] ++ $":" ++ [ch_quote] ++ id ++ [ch_quote] ++ $"}}".

Lemma event_delivered_once_witness :
  let ws' := handle_events (fst (handle_event_json (feishu_ws_create 0) (demo_event $"e1"))) [demo_event $"e2"; $"{}"; $"junk"] in
  handle_event_json ws' (demo_event $"e1") = (ws', []).
Proof.
  apply (event_delivered_once (feishu_ws_create 0) [] (demo_event $"e1") $"e1"); [apply recent_create|by vm_compute|apply not_elem_of_nil|].
  unfold RECENT_IDS. cbn. lia.
Defined.

Definition demo_fragments : list slot_event :=
  [Part 0 (fragment_of $"m1" [$"ab"; $"cd"; $"ef"] 2); Sweep 0; Part 1 (mkFragment $"m2" 2 1 $"x"); Part 2 (fragment_of $"m1" [$"ab"; $"cd"; $"ef"] 0);
   Sweep 4000; Part 4003 (mkFragment $"m2" 2 0 $"y"); Part 4004 (fragment_of $"m1" [$"ab"; $"cd"; $"ef"] 1); Sweep 9000].

Lemma fragments_reassembled_witness :
  outputs_for $"m1" (run_fragments (fun _ => true) (replicate MAX_PENDING free_pending) demo_fragments) = [None; None; Some $"abcdef"].
Proof.
  apply (fragments_reassembled (fun _ => true) demo_fragments $"m1" [$"ab"; $"cd"; $"ef"] [2; 0; 1]); [done| | |by vm_compute|by vm_compute| |done].
  - repeat constructor; cbn; lia.
  - apply (bool_decide_unpack _). by vm_compute.
  - cbn [length seq]. apply (bool_decide_unpack _). by vm_compute.
Defined.
