(* ===== verification/DingTalkWs.v ===== *)
(** [src/plugins/channels/dingtalk_channel/dingtalk_ws.c]: the client of the
    DingTalk stream: the request for the address of the stream, the handler of
    its JSON and Protobuf messages, the acknowledgements, the pings, and the
    life of the connection. The clock, the digest of the cryptographic library
    and the answers of the network are arguments. *)
From S2P Require Import Prelude CStr Json Protobuf FeishuWs.

(** ** Frames: the functions are those of [feishu_ws.c], token by token *)

Definition ding_read_varint := Protobuf.read_varint.
Definition ding_skip_field := Protobuf.skip_field.
Definition ding_bb_ensure := Protobuf.bb_ensure.
Definition ding_bb_add := Protobuf.bb_add.
Definition ding_bb_add_varint := Protobuf.bb_add_varint.
Definition ding_pb_add_bytes := Protobuf.pb_add_bytes.
Definition ding_pb_add_varint_field := Protobuf.pb_add_varint_field.
Definition ding_frame_header_get := Protobuf.frame_header_get.
Definition ding_frame_header_set := Protobuf.frame_header_set.
Definition ding_parse_header_msg := Protobuf.parse_header_msg.
Definition ding_parse_frame := Protobuf.parse_frame_bytes.
Definition ding_encode_frame := Protobuf.encode_frame.

(** ** The client

    [dw_c]: the pointer [ws->c] is set; [dw_live]: its connection exists, with
    the flags mongoose keeps in it. *)
Record DingTalkWS := mkDing {
  dw_c : bool;
  dw_live : bool;
  dw_websocket : bool;
  dw_closing : bool;
  dw_running : bool;
  dw_callback : bool;
  dw_access_token : option cstr;
  dw_url : option cstr;
  dw_ping_interval_ms : N;
  dw_next_ping_ms : N;
}.

Definition set_conn (c live websocket closing : bool) (ws : DingTalkWS) : DingTalkWS :=
  mkDing c live websocket closing (dw_running ws) (dw_callback ws) (dw_access_token ws) (dw_url ws) (dw_ping_interval_ms ws) (dw_next_ping_ms ws).
Definition set_run (running callback : bool) (ws : DingTalkWS) : DingTalkWS :=
  mkDing (dw_c ws) (dw_live ws) (dw_websocket ws) (dw_closing ws) running callback (dw_access_token ws) (dw_url ws) (dw_ping_interval_ms ws) (dw_next_ping_ms ws).
Definition set_ping (interval next : N) (ws : DingTalkWS) : DingTalkWS :=
  mkDing (dw_c ws) (dw_live ws) (dw_websocket ws) (dw_closing ws) (dw_running ws) (dw_callback ws) (dw_access_token ws) (dw_url ws) interval next.

Definition dingtalk_ws_create (now : N) : DingTalkWS :=
  mkDing false false false false false false None None 120000 (now + 120000).

(** [connected]: the answer of [mg_ws_connect]. *)
Definition dingtalk_ws_connect (connected : bool) (ws : DingTalkWS) (url access_token : option cstr) : DingTalkWS * bool :=
  match url with
  | None => (ws, false)
  | Some u =>
      (mkDing connected connected false false (dw_running ws) (dw_callback ws) access_token (Some u) (dw_ping_interval_ms ws) (dw_next_ping_ms ws), connected)
  end.

(** ** Outputs *)
Inductive ding_output :=
  | Callback (conversation_id content : cstr) (sender_id sender_name session_webhook : option cstr) (webhook_expired_time : Z)
  | SentText (text : cstr)
  | SentBinary (bytes : cstr).

(** The acknowledgement of a JSON message. *)
Definition ack_json (message_id : cstr) : json :=
  JObj [($"code", JNum (num_of_Z 200)); ($"message", JStr $"ok"); ($"data", JStr []);
        ($"headers", JObj [($"contentType", JStr $"application/json"); ($"messageId", JStr message_id)])].
Definition send_ack_json (message_id : cstr) : list ding_output :=
  match cJSON_PrintUnformatted (ack_json message_id) with Some s => [SentText s] | None => [] end.

(** The text of a bot message. *)
Definition bot_text (parsed_data : json) : option cstr :=
  match is_string (get_object_item (Some parsed_data) $"msgtype") with
  | Some t =>
      if str_eq t $"text" then
        match is_object (get_object_item (Some parsed_data) $"text") with
        | Some _ => is_string (member (get_object_item (Some parsed_data) $"text") $"content")
        | None => None
        end
      else if str_eq t $"markdown" then is_string (member (get_object_item (Some parsed_data) $"markdown") $"text")
      else None
  | None => None
  end.

(** [(int64_t) valuedouble]: undefined outside the range. *)
Definition int64_of_num (n : num) : option Z :=
  let z := num_trunc n in if ((- 2 ^ 63 <=? z) && (z <? 2 ^ 63))%Z then Some z else None.

Definition expired_time (parsed_data : json) : option Z :=
  match is_number (get_object_item (Some parsed_data) $"sessionWebhookExpiredTime") with
  | Some n => int64_of_num n
  | None => Some 0%Z
  end.

(** A CALLBACK message; [None]: undefined behaviour. *)
Definition handle_callback (ws : DingTalkWS) (root : json) : option (list ding_output) :=
  match is_string (get_object_item (Some root) $"data") with
  | None => Some []
  | Some data_str =>
      match cJSON_Parse data_str with
      | None => Some []
      | Some parsed_data =>
          let item name := is_string (get_object_item (Some parsed_data) name) in
          expired ← expired_time parsed_data;
          let delivered := match item $"conversationId", bot_text parsed_data with
                           | Some conv, Some text =>
                               if dw_callback ws
                               then [Callback conv text (item $"senderId") (item $"senderNick") (item $"sessionWebhook") expired] else []
                           | _, _ => []
                           end in
          let acked := match is_string (member (get_object_item (Some root) $"headers") $"messageId") with
                       | Some id => if dw_c ws then send_ack_json id else []
                       | None => []
                       end in
          Some (delivered ++ acked)
      end
  end.

Definition ding_handle_event_json (ws : DingTalkWS) (event_json : cstr) : option (list ding_output) :=
  match cJSON_Parse event_json with
  | None => Some []
  | Some root =>
      match is_string (get_object_item (Some root) $"type") with
      | Some t => if str_eq t $"CALLBACK" then handle_callback ws root else Some []
      | None => Some []
      end
  end.

(** ** Sending frames *)
Section Ding.
Context (realloc_ok : N -> bool).

Definition dingtalk_ws_send_frame (f : WSFrame) : list ding_output :=
  match ding_encode_frame realloc_ok f empty_buf with Some b => [SentBinary (bb_data b)] | None => [] end.

Definition ding_ping_frame : WSFrame := fst (ding_frame_header_set (set_service empty_frame 1) $"type" $"ping").

(** [dingtalk_ws_can_send_ping] of a connection that exists. *)
Definition dingtalk_ws_can_send_ping (ws : DingTalkWS) : bool := dw_c ws && dw_websocket ws && negb (dw_closing ws).

Definition ding_ack_frame (f : WSFrame) (payload : cstr) : WSFrame :=
  set_payload (copy_headers (f_headers f) (mkFrame (f_seq_id f) (f_log_id f) (f_service f) (f_method f) [] (f_payload_type f) [])) payload.

Definition dingtalk_ws_send_ack (f : WSFrame) (code : Z) : list ding_output :=
  match cJSON_PrintUnformatted (ack_payload code []) with
  | Some payload => dingtalk_ws_send_frame (ding_ack_frame f payload)
  | None => []
  end.

(** ** The handler *)
Inductive ding_event := DOpen | DWsOpen | DMsg (data : cstr) | DClose | DError.

(** [(uint64_t) valueint * 1000]. *)
Definition interval_ms (n : num) : N := Z.to_N (wrap_u 64 (wrap_u 64 (valueint n) * 1000)).

(** A message that begins with an opening brace. *)
Definition handle_json_message (ws : DingTalkWS) (json_str : cstr) : option (DingTalkWS * list ding_output) :=
  match cJSON_Parse json_str with
  | None => Some (ws, [])
  | Some root =>
      match is_string (get_object_item (Some root) $"type") with
      | Some t =>
          if str_eq t $"SYSTEM" then
            match get_object_item (Some root) $"headers" with
            | None => Some (ws, [])
            | Some headers =>
                let ws1 := match is_number (get_object_item (Some headers) $"pingInterval") with
                           | Some n => set_ping (interval_ms n) (dw_next_ping_ms ws) ws
                           | None => ws
                           end in
                Some (ws1, match is_string (get_object_item (Some headers) $"messageId") with Some id => send_ack_json id | None => [] end)
            end
          else if str_eq t $"PONG" then
            Some (match is_number (get_object_item (Some root) $"PingInterval") with
                  | Some n => set_ping (interval_ms n) (dw_next_ping_ms ws) ws
                  | None => ws
                  end, [])
          else out ← ding_handle_event_json ws json_str; Some (ws, out)
      | None => out ← ding_handle_event_json ws json_str; Some (ws, out)
      end
  end.

(** The answer to a ping. *)
Definition ding_pong (ws : DingTalkWS) (f : WSFrame) : DingTalkWS :=
  match ding_frame_header_get f $"type", f_payload f with
  | Some t, _ :: _ =>
      if str_eq t $"pong" then
        match (conf ← cJSON_Parse (c_string (f_payload f)); is_number (get_object_item (Some conf) $"PingInterval")) with
        | Some n => if (0 <? valueint n)%Z then set_ping (interval_ms n) (dw_next_ping_ms ws) ws else ws
        | None => ws
        end
      else ws
  | _, _ => ws
  end.

Definition handle_frame (ws : DingTalkWS) (f : WSFrame) : option (DingTalkWS * list ding_output) :=
  if (f_method f =? 0)%Z then Some (ding_pong ws f, [])
  else if (f_method f =? 1)%Z then
    out ← match f_payload f with [] => Some [] | p => ding_handle_event_json ws (c_string p) end;
    Some (ws, out ++ dingtalk_ws_send_ack f 200)
  else Some (ws, []).

(** [ws_handler]. The first test for [MG_EV_CLOSE] only logs, so the branch
    that clears the pointer is not reached; mongoose frees the connection
    after the event. *)
Definition ding_handler (now : N) (ws : DingTalkWS) (ev : ding_event) : option (DingTalkWS * list ding_output) :=
  match ev with
  | DOpen => Some (set_ping (dw_ping_interval_ms ws) (now + dw_ping_interval_ms ws) ws, [])
  | DWsOpen => Some (set_ping (dw_ping_interval_ms ws) (now + dw_ping_interval_ms ws) (set_conn (dw_c ws) (dw_live ws) true (dw_closing ws) ws), [])
  | DMsg data =>
      match data with
      | "{"%char :: _ => handle_json_message ws (c_string data)
      | _ =>
          match ding_parse_frame data with
          | Done f => handle_frame ws f
          | Refused => Some (ws, [])
          | Undefined | NoFuel => None
          end
      end
  | DClose => Some (set_conn (dw_c ws) false (dw_websocket ws) (dw_closing ws) ws, [])
  | DError => Some (set_run false (dw_callback ws) (set_conn false (dw_live ws) (dw_websocket ws) true ws), [])
  end.

Fixpoint ding_poll (now : N) (ws : DingTalkWS) (evs : list ding_event) : option (DingTalkWS * list ding_output) :=
  match evs with
  | [] => Some (ws, [])
  | ev :: r => '(ws1, o1) ← ding_handler now ws ev; '(ws2, o2) ← ding_poll now ws1 r; Some (ws2, o1 ++ o2)
  end.

(** One round of [dingtalk_ws_run]: the loop condition, the poll, the ping.
    The flags of a connection that was freed are not there to be read. *)
Inductive run_result := RunEnds (ws : DingTalkWS) | RunGoes (ws : DingTalkWS) (out : list ding_output) | RunUndefined.

Definition ding_round (now : N) (evs : list ding_event) (ws : DingTalkWS) : run_result :=
  if dw_running ws && dw_live ws then
    match ding_poll now ws evs with
    | None => RunUndefined
    | Some (ws1, out) =>
        if negb (dw_running ws1) then RunGoes ws1 out
        else if dw_c ws1 && negb (dw_live ws1) then RunUndefined
        else if dingtalk_ws_can_send_ping ws1 && (dw_next_ping_ms ws1 <=? now)%N
        then RunGoes (set_ping (dw_ping_interval_ms ws1) (now + dw_ping_interval_ms ws1) ws1) (out ++ dingtalk_ws_send_frame ding_ping_frame)
        else RunGoes ws1 out
    end
  else RunEnds ws.

(** [dingtalk_ws_stop]; [None]: it writes to a connection that was freed. *)
Definition dingtalk_ws_stop (ws : DingTalkWS) : option DingTalkWS :=
  let ws1 := set_run false (dw_callback ws) ws in
  if dw_c ws then if dw_live ws then Some (set_conn true true (dw_websocket ws) true ws1) else None else Some ws1.
End Ding.

(** ** The address of the stream *)
Section Address.
(** The digest of the cryptographic library: 32 bytes. *)
Context (hmac_sha256 : cstr -> cstr -> cstr).

Definition hex_chars : cstr := $"0123456789abcdef".
Definition hex_char (n : N) : ascii := default "0"%char (hex_chars !! N.to_nat n).

Definition bytes_to_hex (bytes : cstr) : cstr :=
  bytes ≫= (fun b => [hex_char (N.land (N.shiftr (code b) 4) 15); hex_char (N.land (code b) 15)]).

Definition timestamp_text (timestamp_ms : Z) : cstr := truncate_to 32 (fmt_d timestamp_ms).
Definition compute_signature (client_secret : cstr) (timestamp_ms : Z) : cstr :=
  bytes_to_hex (take 32 (hmac_sha256 client_secret (timestamp_text timestamp_ms))).

Definition subscription (type topic : cstr) : json := JObj [($"type", JStr type); ($"topic", JStr topic)].

Definition open_body (client_id client_secret : option cstr) : json :=
  JObj (match client_id, client_secret with
        | Some i, Some s => [($"clientId", JStr i); ($"clientSecret", JStr s)]
        | _, _ => []
        end ++
        [($"subscriptions", JArr [subscription $"SYSTEM" $"ping"; subscription $"EVENT" $"*";
                                  subscription $"CALLBACK" $"/v1.0/im/bot/messages/get"])]).

Definition crlf : cstr := [ch_cr; ch_nl].

(** The request; [client_secret] is read even when it is NULL. *)
Definition open_request (client_id : option cstr) (client_secret : cstr) (access_token : option cstr) (timestamp_ms : Z) : option cstr :=
  body ← cJSON_PrintUnformatted (open_body client_id (Some client_secret));
  Some ($"POST /v1.0/gateway/connections/open HTTP/1.0" ++ crlf ++
        $"Host: api.dingtalk.com" ++ crlf ++
        $"Content-Type: application/json; charset=utf-8" ++ crlf ++
        $"x-acs-dingtalk-access-token: " ++ default [] access_token ++ crlf ++
        $"x-acs-dingtalk-signature: " ++ compute_signature client_secret timestamp_ms ++ crlf ++
        $"x-acs-dingtalk-timestamp: " ++ timestamp_text timestamp_ms ++ crlf ++
        $"Content-Length: " ++ fmt_d (Z.of_nat (length body)) ++ crlf ++ crlf ++ body).

(** [url_callback_fn]: the text so far, and [done]. *)
Inductive url_event := UrlMsg (body : cstr) | UrlError | UrlClose | UrlOther.
Definition url_callback_fn (realloc_ok : bool) (chunk : cstr * bool) (ev : url_event) : cstr * bool :=
  match ev with
  | UrlMsg body => ((if realloc_ok then fst chunk ++ body else fst chunk), true)
  | UrlError | UrlClose => (fst chunk, true)
  | UrlOther => chunk
  end.

(** [valueint] of any item. *)
Definition item_valueint (j : json) : Z := match j with JNum n => valueint n | JBool true => 1 | _ => 0 end.

(** "%s?ticket=%s" into a block made for it. *)
Definition ticket_url (endpoint ticket : cstr) : cstr :=
  truncate_to (length endpoint + length ticket + 10) (endpoint ++ $"?ticket=" ++ ticket).

Definition endpoint_ticket (o : option json) : option cstr :=
  match is_string (member o $"endpoint"), is_string (member o $"ticket") with
  | Some e, Some t => Some (ticket_url e t)
  | _, _ => None
  end.

(** The address in the answer. *)
Definition parse_ws_url (memory : cstr) : option cstr :=
  match memory with
  | [] => None
  | _ =>
      resp ← cJSON_Parse (c_string memory);
      let failed := match get_object_item (Some resp) $"code" with Some c => negb (item_valueint c =? 0)%Z | None => false end in
      if failed : bool then None
      else
        let found := match is_string (get_object_item (Some resp) $"endpoint"), is_string (get_object_item (Some resp) $"ticket") with
                     | Some e, Some t => Some (ticket_url e t)
                     | _, _ => endpoint_ticket (get_object_item (Some resp) $"data")
                     end in
        match found with
        | Some u => Some u
        | None => is_string (get_object_item (Some resp) $"url")
        end
  end.

(** [dingtalk_get_ws_url]: the text sent and, from the events of the
    connection up to the one that sets [done], the address. *)
Fixpoint url_poll (chunk : cstr * bool) (evs : list url_event) : option cstr :=
  if snd chunk then Some (fst chunk)
  else match evs with [] => None | ev :: r => url_poll (url_callback_fn true chunk ev) r end.

Definition dingtalk_get_ws_url (evs : list url_event) : option (option cstr) :=
  memory ← url_poll ([], false) evs; Some (parse_ws_url memory).
End Address.

(** ** What the server sends and what comes of it *)

Record BotMessage := mkBot {
  bm_conversation : cstr; bm_text : cstr; bm_sender : cstr; bm_nick : cstr; bm_webhook : cstr; bm_expires : Z; bm_id : cstr;
}.

Definition bot_data (m : BotMessage) : json :=
  JObj [($"conversationId", JStr (bm_conversation m)); ($"senderId", JStr (bm_sender m)); ($"senderNick", JStr (bm_nick m));
        ($"sessionWebhook", JStr (bm_webhook m)); ($"sessionWebhookExpiredTime", JNum (num_of_Z (bm_expires m)));
        ($"msgtype", JStr $"text"); ($"text", JObj [($"content", JStr (bm_text m))])].

(** [data] is the printed data of the message. *)
Definition callback_json (m : BotMessage) (data : cstr) : json :=
  JObj [($"specVersion", JStr $"1.0"); ($"type", JStr $"CALLBACK");
        ($"headers", JObj [($"messageId", JStr (bm_id m)); ($"topic", JStr $"/v1.0/im/bot/messages/get")]); ($"data", JStr data)].

Definition bot_ok (m : BotMessage) : Prop :=
  str_ok (bm_conversation m) = true /\ str_ok (bm_text m) = true /\ str_ok (bm_sender m) = true /\ str_ok (bm_nick m) = true /\
  str_ok (bm_webhook m) = true /\ str_ok (bm_id m) = true /\ (Z.abs (bm_expires m) < 10 ^ 15)%Z.

Lemma printed_object kvs : json_ok 0 (JObj kvs) = true ->
  exists t, cJSON_PrintUnformatted (JObj kvs) = Some ("{"%char :: t) /\ str_ok ("{"%char :: t) = true /\
  c_string ("{"%char :: t) = "{"%char :: t /\ cJSON_Parse ("{"%char :: t) = Some (JObj kvs).
Proof.
  intros Hok. destruct (printed_file false (JObj kvs) Hok) as (c & t & Hp & Hn & Hb).
  assert (c = "{"%char) as ->.
  { cbn [print_value] in Hp. destruct (Nat.leb _ _); [done|]. destruct (print_members _ _ _ _) as [l|]; [|done].
    cbn in Hp. by destruct kvs; injection Hp as <- _. }
  exists t. split_and!; [done| |done|done]. unfold str_ok. apply bool_decide_eq_true. rewrite <- Hn.
  clear. generalize ("{"%char :: t). intros l. induction l as [|c l IH]; cbn; [by apply not_elem_of_nil|].
  unfold not_nul at 1. case_bool_decide as E; cbn; [by apply not_elem_of_nil|]. apply not_elem_of_cons. by split.
Qed.

Lemma bot_data_ok m : bot_ok m -> json_ok 0 (bot_data m) = true.
Proof.
  intros (H1 & H2 & H3 & H4 & H5 & H6 & H7). unfold bot_data. cbn -[str_ok num_ok Z.pow]. rewrite H1, H2, H3, H4, H5.
  assert (num_ok (num_of_Z (bm_expires m)) = true) as -> by (unfold num_ok; cbn [n_exp n_mant num_of_Z]; apply orb_true_iff; left; apply andb_true_iff; split; [done|by apply Z.ltb_lt]).
  by vm_compute.
Qed.

Lemma int64_expires z : (Z.abs z < 10 ^ 15)%Z -> int64_of_num (num_of_Z z) = Some z.
Proof.
  intros Hz. unfold int64_of_num, num_trunc, num_of_Z. cbn [n_mant n_exp]. cbn -[Z.pow].
  rewrite Z.pow_0_r, Z.mul_1_r. destruct (_ && _)%bool eqn:E; [done|]. apply andb_false_iff in E as [E|E]; [apply Z.leb_gt in E|apply Z.ltb_ge in E]; lia.
Qed.

Lemma bot_data_fields ws m data : bot_ok m -> cJSON_Parse data = Some (bot_data m) -> dw_callback ws = true -> dw_c ws = true ->
  handle_callback ws (callback_json m data) =
  Some (Callback (bm_conversation m) (bm_text m) (Some (bm_sender m)) (Some (bm_nick m)) (Some (bm_webhook m)) (bm_expires m) :: send_ack_json (bm_id m)).
Proof.
  intros (_ & _ & _ & _ & _ & _ & Hz) Hp Hcb Hc. unfold handle_callback, callback_json. eval_member. cbn [is_string]. rewrite Hp.
  unfold expired_time, bot_text, member, bot_data. cbn [option_bind mbind]. eval_member. cbn [is_string is_number is_object option_bind mbind].
  rewrite (int64_expires _ Hz). cbn [mbind option_bind]. eval_member. cbn [is_string].
  rewrite Hcb, Hc. done.
Qed.

(** One text message of the server. *)
Lemma callback_handled now ws m realloc_ok : bot_ok m -> dw_callback ws = true -> dw_c ws = true ->
  exists data line ack,
    cJSON_PrintUnformatted (bot_data m) = Some data /\ cJSON_PrintUnformatted (callback_json m data) = Some line /\
    ding_handler realloc_ok now ws (DMsg line) =
      Some (ws, [Callback (bm_conversation m) (bm_text m) (Some (bm_sender m)) (Some (bm_nick m)) (Some (bm_webhook m)) (bm_expires m); SentText ack]) /\
    cJSON_Parse ack = Some (ack_json (bm_id m)).
Proof.
  intros Hm Hcb Hc. pose proof Hm as (_ & _ & _ & _ & _ & Hid & _).
  destruct (printed_object _ (bot_data_ok m Hm)) as (data & Hd & Hok & _ & Hparse). fold (bot_data m) in Hd, Hparse.
  assert (json_ok 0 (callback_json m ("{"%char :: data)) = true) as Hcall.
  { unfold callback_json. cbn -[str_ok]. rewrite Hid, Hok. by vm_compute. }
  destruct (printed_object _ Hcall) as (line & Hl & _ & Hcs & Hlp). fold (callback_json m ("{"%char :: data)) in Hl, Hlp.
  assert (json_ok 0 (ack_json (bm_id m)) = true) as Hack by (unfold ack_json; cbn -[str_ok num_ok]; rewrite Hid; by vm_compute).
  destruct (printed_object _ Hack) as (ack & Ha & _ & _ & Hap). fold (ack_json (bm_id m)) in Ha, Hap.
  exists ("{"%char :: data), ("{"%char :: line), ("{"%char :: ack). split_and!; [done|done| |done].
  cbn [ding_handler]. rewrite Hcs. unfold handle_json_message. rewrite Hlp.
  assert (get_object_item (Some (callback_json m ("{"%char :: data))) $"type" = Some (JStr $"CALLBACK")) as Ht by (unfold callback_json; by eval_member).
  rewrite Ht. cbn [is_string]. change (str_eq $"CALLBACK" $"SYSTEM") with false. change (str_eq $"CALLBACK" $"PONG") with false. cbn [mbind option_bind].
  unfold ding_handle_event_json. rewrite Hlp, Ht. cbn [is_string]. change (str_eq $"CALLBACK" $"CALLBACK") with true. cbn iota.
  rewrite (bot_data_fields ws m _ Hm Hparse Hcb Hc). cbn [mbind option_bind]. unfold send_ack_json. by rewrite Ha.
Qed.

Definition demo_bot : BotMessage := mkBot $"cid1" $"hello" $"u1" $"Ann" $"https://oapi.dingtalk.com/s?x=1" 1700000000000 $"m1".
Definition demo_client : DingTalkWS := mkDing true true true false true true None (Some $"wss://x") 120000 500000.

Definition bot_callback (m : BotMessage) : ding_output :=
  Callback (bm_conversation m) (bm_text m) (Some (bm_sender m)) (Some (bm_nick m)) (Some (bm_webhook m)) (bm_expires m).

(** The message as the server prints it, and the answer the client gives. *)
Definition server_prints (m : BotMessage) (line : cstr) : Prop :=
  exists data, cJSON_PrintUnformatted (bot_data m) = Some data /\ cJSON_PrintUnformatted (callback_json m data) = Some line.
Definition acknowledges (m : BotMessage) (ack : cstr) : Prop := cJSON_Parse ack = Some (ack_json (bm_id m)).

(** Text messages the server sends reach the callback with all their
    fields, in order, each followed by its acknowledgement, which parses back to
    code 200 and the id of the message. Nothing is removed: a message that the
    server sends twice is delivered twice. *)
Theorem callbacks_delivered now ws ms realloc_ok : Forall bot_ok ms -> dw_callback ws = true -> dw_c ws = true ->
  exists lines acks, Forall2 server_prints ms lines /\ Forall2 acknowledges ms acks /\
    ding_poll realloc_ok now ws (DMsg <$> lines) = Some (ws, zip ms acks ≫= (fun '(m, ack) => [bot_callback m; SentText ack])).
Proof.
  intros Hms Hcb Hc. induction Hms as [|m ms Hm _ (lines & acks & H1 & H2 & H3)]; [by exists [], []|].
  destruct (callback_handled now ws m realloc_ok Hm Hcb Hc) as (data & line & ack & Hd & Hl & Hh & Ha).
  exists (line :: lines), (ack :: acks). split_and!; [constructor; [by exists data|done]|by constructor|].
  rewrite fmap_cons. cbn [ding_poll]. rewrite Hh. cbn [mbind option_bind]. by rewrite H3.
Qed.

Lemma callbacks_delivered_witness :
  exists lines acks, Forall2 server_prints [demo_bot; demo_bot] lines /\ Forall2 acknowledges [demo_bot; demo_bot] acks /\
    ding_poll (fun _ => true) 7 demo_client (DMsg <$> lines) =
      Some (demo_client, zip [demo_bot; demo_bot] acks ≫= (fun '(m, ack) => [bot_callback m; SentText ack])).
Proof. apply (callbacks_delivered 7 demo_client [demo_bot; demo_bot] (fun _ => true)); [repeat constructor; by vm_compute|done|done]. Defined.

(** ** The life of the connection *)
Section Life.
Context (realloc_ok : N -> bool).

(** The pointer leads to a connection while there is one. *)
Definition conn_ok (ws : DingTalkWS) : Prop := dw_c ws = true -> dw_live ws = true.

Lemma json_message_conn ws s ws' out : handle_json_message ws s = Some (ws', out) -> dw_c ws' = dw_c ws /\ dw_live ws' = dw_live ws /\ dw_running ws' = dw_running ws.
Proof.
  unfold handle_json_message. destruct (cJSON_Parse s) as [root|]; [|by intros [= <- <-]].
  assert (forall w, (out0 ← ding_handle_event_json ws s; Some (ws, out0)) = Some (w, out) -> dw_c w = dw_c ws /\ dw_live w = dw_live ws /\ dw_running w = dw_running ws) as Hev.
  { intros w. destruct (ding_handle_event_json ws s); [|done]. by intros [= <- <-]. }
  destruct (is_string _) as [t|]; [|apply Hev]. destruct (str_eq t _); [|destruct (str_eq t _); [|apply Hev]].
  - destruct (get_object_item _ _) as [h|]; [|by intros [= <- <-]]. intros [= <- <-]. by destruct (is_number _).
  - intros [= <- <-]. by destruct (is_number _).
Qed.

Lemma frame_conn ws f ws' out : handle_frame realloc_ok ws f = Some (ws', out) -> dw_c ws' = dw_c ws /\ dw_live ws' = dw_live ws /\ dw_running ws' = dw_running ws.
Proof.
  unfold handle_frame. destruct (f_method f =? 0)%Z.
  - intros [= <- <-]. unfold ding_pong. destruct (ding_frame_header_get _ _); [|done]. destruct (f_payload f); [done|].
    destruct (str_eq _ _); [|done]. destruct (mbind _ _); [|done]. by destruct (0 <? _)%Z.
  - destruct (f_method f =? 1)%Z; [|by intros [= <- <-]]. destruct (match f_payload f with [] => _ | _ => _ end); [|done]. by intros [= <- <-].
Qed.

Lemma handler_conn now ws ev ws' out : ev <> DClose -> conn_ok ws -> ding_handler realloc_ok now ws ev = Some (ws', out) -> conn_ok ws'.
Proof.
  intros Hev Hok. unfold conn_ok in *. destruct ev as [| |data| |]; cbn [ding_handler]; try done.
  - by intros [= <- <-].
  - by intros [= <- <-].
  - assert (forall p : option (DingTalkWS * list ding_output), p = Some (ws', out) ->
      match p with Some (w, _) => dw_c w = dw_c ws /\ dw_live w = dw_live ws /\ dw_running w = dw_running ws | None => True end -> dw_c ws' = true -> dw_live ws' = true) as Hp.
    { intros p -> (-> & -> & _). done. }
    assert (forall f, match handle_frame realloc_ok ws f with Some (w, _) => dw_c w = dw_c ws /\ dw_live w = dw_live ws /\ dw_running w = dw_running ws | None => True end) as Hf.
    { intros f. destruct (handle_frame realloc_ok ws f) as [[w o]|] eqn:E; [|done]. by eapply frame_conn. }
    assert (match match ding_parse_frame data with Done f => handle_frame realloc_ok ws f | Refused => Some (ws, []) | Undefined | NoFuel => None end with
            | Some (w, _) => dw_c w = dw_c ws /\ dw_live w = dw_live ws /\ dw_running w = dw_running ws | None => True end) as Hpf.
    { destruct (ding_parse_frame data); [apply Hf|done|done|done]. }
    assert (match handle_json_message ws (c_string data) with Some (w, _) => dw_c w = dw_c ws /\ dw_live w = dw_live ws /\ dw_running w = dw_running ws | None => True end) as Hj.
    { destruct (handle_json_message ws (c_string data)) as [[w o]|] eqn:E; [|done]. by eapply json_message_conn. }
    intros E. refine (Hp _ E _). destruct data as [|[[] [] [] [] [] [] [] []] data]; try exact Hpf. exact Hj.
  - by intros [= <- <-].
Qed.

Lemma poll_conn now evs : forall ws ws' out, Forall (fun ev => ev <> DClose) evs -> conn_ok ws -> ding_poll realloc_ok now ws evs = Some (ws', out) -> conn_ok ws'.
Proof.
  induction evs as [|ev r IH]; intros ws ws' out Hev Hok Hp; cbn in Hp; [by injection Hp as <- <-|].
  apply Forall_cons in Hev as [He Hr]. destruct (ding_handler realloc_ok now ws ev) as [[ws1 o1]|] eqn:E1; [|done]. cbn in Hp.
  destruct (ding_poll realloc_ok now ws1 r) as [[ws2 o2]|] eqn:E2; [|done]. cbn in Hp. injection Hp as <- <-.
  eapply IH; [done|by eapply handler_conn|done].
Qed.

(** A round of the loop that polls no close event, and whose messages are
    handled, is defined, and the pointer still leads to the connection; a
    round whose last event is the close of the connection reads the flags of the
    connection that was just freed, unless the loop was stopped. *)
Theorem ding_round_defined now evs ws : conn_ok ws ->
  (Forall (fun ev => ev <> DClose) evs -> is_Some (ding_poll realloc_ok now ws evs) ->
     match ding_round realloc_ok now evs ws with RunUndefined => False | RunEnds w | RunGoes w _ => conn_ok w end) /\
  (forall pre ws1 out, evs = pre ++ [DClose] -> ding_poll realloc_ok now ws pre = Some (ws1, out) ->
     dw_running ws = true -> dw_live ws = true -> dw_running ws1 = true -> dw_c ws1 = true -> ding_round realloc_ok now evs ws = RunUndefined).
Proof.
  intros Hok. unfold ding_round. split.
  - intros Hev [[ws1 out] Hp]. destruct (dw_running ws && dw_live ws); [|done]. rewrite Hp.
    pose proof (poll_conn now evs ws ws1 out Hev Hok Hp) as H1. destruct (negb (dw_running ws1)); [done|].
    destruct (dw_c ws1 && negb (dw_live ws1)) eqn:E.
    + apply andb_true_iff in E as [Hc Hl]. by rewrite (H1 Hc) in Hl.
    + by destruct (dingtalk_ws_can_send_ping ws1 && _).
  - intros pre ws1 out -> Hp Hr Hl Hr1 Hc1. rewrite Hr, Hl. cbn [andb].
    assert (forall pre ws, ding_poll realloc_ok now ws pre = Some (ws1, out) -> forall out', out' = out -> ding_poll realloc_ok now ws (pre ++ [DClose]) =
      Some (set_conn (dw_c ws1) false (dw_websocket ws1) (dw_closing ws1) ws1, out')) as Happ.
    { clear. intros pre. revert out. induction pre as [|ev r IH]; intros out ws Hp out' ->; cbn in Hp |- *; [by injection Hp as -> <-|].
      destruct (ding_handler realloc_ok now ws ev) as [[w1 o1]|]; [|done]. cbn in Hp |- *.
      destruct (ding_poll realloc_ok now w1 r) as [[w2 o2]|] eqn:E2; [|done]. cbn in Hp. injection Hp as -> <-.
      by rewrite (IH o2 w1 E2 o2 eq_refl). }
    rewrite (Happ pre ws Hp out eq_refl). cbn [set_conn dw_running dw_c dw_live]. by rewrite Hr1, Hc1.
Qed.

End Life.

(** A ping that is due is sent by the next quiet round of an open
    connection, the server reads it as a control frame of type ping, and the
    next one is due an interval later. *)
Theorem ding_ping_on_time now ws :
  dw_running ws = true -> dw_live ws = true -> dw_c ws = true -> dw_websocket ws = true -> dw_closing ws = false -> (dw_next_ping_ms ws <= now)%N ->
  exists bytes, ding_round (fun _ => true) now [] ws = RunGoes (set_ping (dw_ping_interval_ms ws) (now + dw_ping_interval_ms ws) ws) [SentBinary bytes] /\
    ding_parse_frame bytes = Done ding_ping_frame /\ f_method ding_ping_frame = 0%Z /\ ding_frame_header_get ding_ping_frame $"type" = Some $"ping".
Proof.
  intros Hr Hl Hc Hw Hcl Hn. unfold ding_round, dingtalk_ws_can_send_ping. cbn [ding_poll]. rewrite Hr, Hl, Hc, Hw, Hcl. cbn [andb negb].
  apply N.leb_le in Hn. rewrite Hn. cbn [app]. unfold dingtalk_ws_send_frame.
  destruct (ding_encode_frame (fun _ => true) ding_ping_frame empty_buf) as [b|] eqn:E; [|by vm_compute in E].
  exists (bb_data b). split; [done|]. vm_compute in E. injection E as <-. by vm_compute.
Qed.

Lemma ding_ping_on_time_witness :
  exists bytes, ding_round (fun _ => true) 500001 [] demo_client = RunGoes (set_ping 120000 620001 demo_client) [SentBinary bytes] /\
    ding_parse_frame bytes = Done ding_ping_frame /\ f_method ding_ping_frame = 0%Z /\ ding_frame_header_get ding_ping_frame $"type" = Some $"ping".
Proof. by apply (ding_ping_on_time 500001 demo_client). Defined.

Lemma ding_round_defined_witness :
  (Forall (fun ev => ev <> DClose) [DClose] -> is_Some (ding_poll (fun _ => true) 7 demo_client [DClose]) ->
     match ding_round (fun _ => true) 7 [DClose] demo_client with RunUndefined => False | RunEnds w | RunGoes w _ => conn_ok w end) /\
  (forall pre ws1 out, [DClose] = pre ++ [DClose] -> ding_poll (fun _ => true) 7 demo_client pre = Some (ws1, out) ->
     dw_running demo_client = true -> dw_live demo_client = true -> dw_running ws1 = true -> dw_c ws1 = true ->
     ding_round (fun _ => true) 7 [DClose] demo_client = RunUndefined).
Proof. by apply (ding_round_defined (fun _ => true) 7 [DClose] demo_client). Defined.

(** ** The answer with the address *)

(** An answer with endpoint and ticket gives the whole address. *)
Lemma ticket_url_whole endpoint ticket : ticket_url endpoint ticket = endpoint ++ $"?ticket=" ++ ticket.
Proof. unfold ticket_url. apply truncate_to_id. rewrite !length_app. cbn. lia. Qed.

Definition open_answer (endpoint ticket : cstr) : json := JObj [($"endpoint", JStr endpoint); ($"ticket", JStr ticket)].

(** The address asked for: whatever else happens on the connection before and
    after, the body of the first response with endpoint and ticket gives
    [endpoint?ticket=ticket]. *)
Theorem ws_url_obtained endpoint ticket pre post : str_ok endpoint = true -> str_ok ticket = true -> Forall (fun ev => ev = UrlOther) pre ->
  exists body, cJSON_PrintUnformatted (open_answer endpoint ticket) = Some body /\
    dingtalk_get_ws_url (pre ++ UrlMsg body :: post) = Some (Some (endpoint ++ $"?ticket=" ++ ticket)).
Proof.
  intros He Ht Hpre. assert (json_ok 0 (open_answer endpoint ticket) = true) as Hok by (unfold open_answer; cbn -[str_ok]; by rewrite He, Ht).
  destruct (printed_object _ Hok) as (body & Hb & _ & Hcs & Hp). exists ("{"%char :: body). split; [done|].
  unfold dingtalk_get_ws_url. assert (url_poll ([], false) (pre ++ UrlMsg ("{"%char :: body) :: post) = Some ("{"%char :: body)) as ->.
  { induction Hpre as [|ev r -> _ IH]; [cbn; by destruct post|]. exact IH. }
  cbn [mbind option_bind]. unfold parse_ws_url. rewrite Hcs, Hp. cbn [mbind option_bind]. eval_member. cbn [is_string]. by rewrite ticket_url_whole.
Qed.

Lemma ws_url_obtained_witness : exists body, cJSON_PrintUnformatted (open_answer $"wss://s" $"t0") = Some body /\
  dingtalk_get_ws_url ([UrlOther; UrlOther] ++ UrlMsg body :: [UrlClose]) = Some (Some ($"wss://s" ++ $"?ticket=" ++ $"t0")).
Proof. apply (ws_url_obtained $"wss://s" $"t0"); [done|done|by repeat constructor]. Defined.

Lemma bytes_to_hex_length bytes : length (bytes_to_hex bytes) = 2 * length bytes.
Proof. unfold bytes_to_hex. induction bytes as [|b r IH]; [done|]. cbn [mbind list_bind]. rewrite length_app. unfold mbind, list_bind in IH |- *. rewrite IH. cbn. lia. Qed.

(** The signature is 64 hexadecimal digits when the digest has its length. *)
Lemma signature_length hmac secret t : (forall k d, length (hmac k d : cstr) = 32) -> length (compute_signature hmac secret t) = 64.
Proof. intros H. unfold compute_signature. rewrite bytes_to_hex_length, length_take, H. done. Qed.
