(* ===== verification/Subagent.v ===== *)
(** [src/subagent/subagent.c]: the manager of background subagents, its list
    of running tasks, and the relay of a subagent's answers. Every operation
    that takes the mutex is one step; a spawned thread is first pending and
    enters the list when it runs. *)
From S2P Require Import Prelude CStr Message.

Record SubagentTaskNode := mkSubNode {
  sn_task_id : cstr;
  sn_session_key : cstr;
  sn_origin_channel : cstr;
  sn_origin_chat_id : cstr;
  sn_has_loop : bool;
  sn_stopped : bool;         (* [agent_loop_stop] was called on its loop *)
  sn_cancelling : bool;
}.

(** [active_count] is kept apart from the list, as in the code. *)
Record SubagentManager := mkSubManager { sg_active_tasks : list SubagentTaskNode; sg_active_count : Z }.

Record SubagentTask := mkSubTask {
  st_task_id : cstr;
  st_task : cstr;
  st_label : cstr;
  st_origin_channel : cstr;
  st_origin_chat_id : cstr;
}.

Record SubagentSpawnRequest := mkSpawn {
  rq_task : cstr;
  rq_label : option cstr;
  rq_origin_channel : cstr;
  rq_origin_chat_id : cstr;
}.

Definition subagent_manager_create : SubagentManager := mkSubManager [] 0.

(** ["%08x"]. *)
Definition generate_subagent_task_id (rand_val : N) (size : nat) : cstr := truncate_to size (pad_left 8 "0"%char (fmt_x rand_val)).

Definition subagent_add_task (m : SubagentManager) (node : SubagentTaskNode) : SubagentManager :=
  mkSubManager (node :: sg_active_tasks m) (sg_active_count m + 1).

(** The list without its first node of that id. *)
Fixpoint remove_node (task_id : cstr) (l : list SubagentTaskNode) : option (list SubagentTaskNode) :=
  match l with
  | [] => None
  | n :: r => if str_eq (sn_task_id n) task_id then Some r else (fun r' => n :: r') <$> remove_node task_id r
  end.

Definition subagent_remove_task (m : SubagentManager) (task_id : cstr) : SubagentManager :=
  match remove_node task_id (sg_active_tasks m) with
  | Some l => mkSubManager l (sg_active_count m - 1)
  | None => m
  end.

(** One node of the cancellation loop, and whether it counts. *)
Definition cancel_node (session_key : cstr) (n : SubagentTaskNode) : SubagentTaskNode * bool :=
  if str_eq (sn_session_key n) session_key && negb (sn_cancelling n) then
    (mkSubNode (sn_task_id n) (sn_session_key n) (sn_origin_channel n) (sn_origin_chat_id n) (sn_has_loop n)
       (sn_has_loop n || sn_stopped n) true, sn_has_loop n)
  else (n, false).

Definition subagent_manager_cancel_by_session (m : SubagentManager) (session_key : cstr) : SubagentManager * nat :=
  let r := cancel_node session_key <$> sg_active_tasks m in
  (mkSubManager (fst <$> r) (sg_active_count m), length (List.filter snd r)).

Definition MAX_SUBAGENTS : Z := 8.

Definition limit_message : cstr :=
  truncate_to 256 $"Cannot spawn subagent: maximum concurrent subagents (8) reached. Wait for existing tasks to complete.".

Definition new_subagent_task (rand_val : N) (request : SubagentSpawnRequest) : SubagentTask :=
  mkSubTask (truncate_to 32 (generate_subagent_task_id rand_val 32)) (rq_task request)
    (match rq_label request with Some l => l | None => take 30 (rq_task request) end)
    (rq_origin_channel request) (rq_origin_chat_id request).

(** [subagent_manager_spawn]: the new thread, when one is started, and the
    response ([None] is NULL); [thread_ok] is the answer of [pthread_create]. *)
Definition subagent_manager_spawn (rand_val : N) (thread_ok : bool) (m : SubagentManager) (request : SubagentSpawnRequest) :
    option SubagentTask * option cstr :=
  if (MAX_SUBAGENTS <=? sg_active_count m)%Z then (None, Some limit_message)
  else
    let task_data := new_subagent_task rand_val request in
    if thread_ok then
      (Some task_data, Some (truncate_to 256 ($"Subagent [" ++ st_label task_data ++ $"] started (id: " ++ st_task_id task_data ++ $").")))
    else (None, None).

(** ** One task *)

(** The tracking node a thread starts with; [agent_loop_new] comes later. *)
Definition tracking_node (t : SubagentTask) : SubagentTaskNode :=
  mkSubNode (truncate_to 32 (st_task_id t)) (truncate_to 512 ($"subagent:" ++ st_task_id t))
    (st_origin_channel t) (st_origin_chat_id t) false false false.

Definition set_loop (n : SubagentTaskNode) : SubagentTaskNode :=
  mkSubNode (sn_task_id n) (sn_session_key n) (sn_origin_channel n) (sn_origin_chat_id n) true (sn_stopped n) (sn_cancelling n).

(** The message that starts the subagent, and a relayed answer. *)
Definition task_message (t : SubagentTask) : InboundMessage :=
  inbound_message_new (Some $"subagent") (Some (st_task_id t)) (Some (st_task t)) None.

Definition relay (t : SubagentTask) (out : OutboundMessage) : OutboundMessage :=
  outbound_message_new (Some (st_origin_channel t)) (Some (st_origin_chat_id t))
    (Some (truncate_to 2048 ($"[Subagent " ++ st_label t ++ $"]: " ++ out_content out))).

Definition TIMEOUT_MS : Z := 300000.
Definition max_drain_attempts : nat := 5.

(** [now_ms - start_ms] is a [uint64_t]: a clock set back gives a huge value. *)
Definition elapsed_ms (start_ms now_ms : Z) : Z := wrap_u 64 (now_ms - start_ms).

(** What one round of the relay loop sees: whether the loop still runs, what
    the timed receive returns, and the clock after it. *)
Record relay_round := mkRound { rr_running : bool; rr_received : option OutboundMessage; rr_now_ms : Z }.

Inductive relay_end := RelayExited | RelayTimedOut | RelayWaiting.

(** Phase 1: the messages relayed, and how the phase ended ([RelayWaiting]
    when the rounds run out). *)
Fixpoint relay_loop (t : SubagentTask) (start_ms : Z) (rounds : list relay_round) : list OutboundMessage * relay_end :=
  match rounds with
  | [] => ([], RelayWaiting)
  | r :: rest =>
      if rr_running r then
        let out := match rr_received r with Some m => [relay t m] | None => [] end in
        if (TIMEOUT_MS <? elapsed_ms start_ms (rr_now_ms r))%Z then (out, RelayTimedOut)
        else let '(outs, e) := relay_loop t start_ms rest in (out ++ outs, e)
      else ([], RelayExited)
  end.

(** Phase 2: the queue is drained until five receives in a row find it empty;
    [None] when the receives run out before. *)
Fixpoint drain_loop (t : SubagentTask) (drain_attempts : nat) (received : list (option OutboundMessage)) : option (list OutboundMessage) :=
  if Nat.leb max_drain_attempts drain_attempts then Some []
  else match received with
       | [] => None
       | Some m :: rest => (fun outs => relay t m :: outs) <$> drain_loop t 0 rest
       | None :: rest => drain_loop t (S drain_attempts) rest
       end.

(** What the queue of the subagent gives to the successive receives of the
    drain: its messages, then nothing. *)
Definition drained_queue (q : list OutboundMessage) (n : nat) : list (option OutboundMessage) := (Some <$> q) ++ replicate n None.

(** ** Behaviour *)

(** The manager and the threads that have not entered the list. *)
Record SubWorld := mkSubWorld { sw_manager : SubagentManager; sw_pending : list SubagentTask }.

Inductive sub_step : SubWorld -> SubWorld -> Prop :=
  | sub_spawn rand_val ok request w t resp :
      subagent_manager_spawn rand_val ok (sw_manager w) request = (t, resp) ->
      sub_step w (mkSubWorld (sw_manager w) (sw_pending w ++ match t with Some x => [x] | None => [] end))
  | sub_start m pre t post :
      sub_step (mkSubWorld m (pre ++ t :: post)) (mkSubWorld (subagent_add_task m (tracking_node t)) (pre ++ post))
  | sub_loop m l n r pending :
      sg_active_tasks m = l ++ n :: r ->
      sub_step (mkSubWorld m pending) (mkSubWorld (mkSubManager (l ++ set_loop n :: r) (sg_active_count m)) pending)
  | sub_finish task_id w :
      sub_step w (mkSubWorld (subagent_remove_task (sw_manager w) task_id) (sw_pending w))
  | sub_cancel key w :
      sub_step w (mkSubWorld (fst (subagent_manager_cancel_by_session (sw_manager w) key)) (sw_pending w)).

(** A node carries the key made from its id. *)
Definition node_ok (n : SubagentTaskNode) : Prop :=
  length (sn_task_id n) < 32 /\ sn_session_key n = $"subagent:" ++ sn_task_id n /\ (sn_stopped n = true -> sn_has_loop n = true /\ sn_cancelling n = true).

Record sub_ok (w : SubWorld) : Prop := {
  so_count : sg_active_count (sw_manager w) = Z.of_nat (length (sg_active_tasks (sw_manager w)));
  so_nodes : Forall node_ok (sg_active_tasks (sw_manager w));
  so_ids : Forall (fun t => length (st_task_id t) < 32) (sw_pending w);
}.

Lemma remove_node_spec task_id l l' : remove_node task_id l = Some l' -> S (length l') = length l /\ (forall P, Forall P l -> Forall P l').
Proof.
  revert l'. induction l as [|n l IH]; intros l'; cbn [remove_node]; [done|].
  destruct (str_eq (sn_task_id n) task_id); [intros [= <-]; split; [done|]; by intros P [_ ?]%Forall_cons|].
  destruct (remove_node task_id l) as [r|]; [|done]. intros [= <-]. destruct (IH r eq_refl) as [H1 H2].
  split; [cbn; lia|]. intros P [Hn Hl]%Forall_cons. constructor; auto.
Qed.

Lemma tracking_node_ok t : length (st_task_id t) < 32 -> node_ok (tracking_node t).
Proof.
  intros H. unfold node_ok, tracking_node. cbn [sn_task_id sn_session_key sn_stopped sn_has_loop].
  rewrite (truncate_to_id 32) by done. split_and!; [done| |done]. apply truncate_to_id. rewrite length_app. cbn. lia.
Qed.

Lemma cancel_node_ok key n : node_ok n -> node_ok (fst (cancel_node key n)).
Proof.
  unfold node_ok, cancel_node. intros (H1 & H2 & H3). case_match; [|done]. cbn. split_and!; [done|done|].
  intros [Hl|Hs]%orb_true_iff; [done|]. by apply H3 in Hs as [].
Qed.

Lemma new_task_id_short rand_val request : length (st_task_id (new_subagent_task rand_val request)) < 32.
Proof. cbn [st_task_id new_subagent_task]. rewrite truncate_to_length. lia. Qed.

(** In every reachable state of the manager, under every interleaving of
    spawns, starting and finishing threads and cancellations, the counter is
    the length of the list, every running task has the session key of its own
    id, and only a task that has a loop and is being cancelled was stopped. *)
Theorem subagent_invariant w : rtc sub_step (mkSubWorld subagent_manager_create []) w -> sub_ok w.
Proof.
  apply rtc_invariant; [|by split].
  intros a b [Hc Hn Hi] Hstep. destruct Hstep as [rv ok rq w0 t resp Hs|m pre t post|m l n r pending Hm|id w0|key w0]; cbn in *.
  - split; [done|done|]. cbn. apply Forall_app. split; [done|]. unfold subagent_manager_spawn in Hs.
    destruct (MAX_SUBAGENTS <=? _)%Z; [by injection Hs as <- <-|]. destruct ok; injection Hs as <- <-; [|done].
    constructor; [apply new_task_id_short|done].
  - apply Forall_app in Hi as [Hpre [Ht Hpost]%Forall_cons]. split; cbn.
    + rewrite Hc. lia.
    + constructor; [by apply tracking_node_ok|done].
    + by apply Forall_app.
  - rewrite Hm in *. split; cbn; [rewrite Hc, !length_app; done| |done].
    apply Forall_app in Hn as [Hl [Hx Hr]%Forall_cons]. apply Forall_app. split; [done|]. constructor; [|done].
    destruct Hx as (H1 & H2 & H3). split_and!; [done|done|]. cbn. intros H. split; [done|]. by apply H3 in H as [].
  - unfold subagent_remove_task. destruct (remove_node id _) as [l'|] eqn:E; [|by split].
    apply remove_node_spec in E as [H1 H2]. split; cbn; [lia|by apply H2|done].
  - split; cbn; [by rewrite !length_fmap| |done]. apply Forall_fmap, Forall_fmap.
    eapply Forall_impl; [exact Hn|]. intros n. apply cancel_node_ok.
Qed.

(** The limit of eight is not kept: the counter is only raised when a
    thread starts to run, so nine spawns in a row are all accepted. *)
Theorem subagent_limit_exceeded : exists w,
  rtc sub_step (mkSubWorld subagent_manager_create []) w /\ (MAX_SUBAGENTS < sg_active_count (sw_manager w))%Z.
Proof.
  set (t := new_subagent_task 7 (mkSpawn $"t" None $"cli" $"me")).
  assert (forall n, rtc sub_step (mkSubWorld subagent_manager_create []) (mkSubWorld subagent_manager_create (replicate n t))) as Hspawn.
  { induction n as [|n IH]; [apply rtc_refl|]. eapply rtc_r; [exact IH|]. rewrite replicate_S_end.
    exact (sub_spawn 7 true (mkSpawn $"t" None $"cli" $"me") (mkSubWorld subagent_manager_create (replicate n t)) (Some t) _ eq_refl). }
  assert (forall n m, rtc sub_step (mkSubWorld m (replicate n t)) (mkSubWorld (Nat.iter n (fun m => subagent_add_task m (tracking_node t)) m) [])) as Hstart.
  { induction n as [|n IH]; intros m; [apply rtc_refl|]. eapply rtc_l; [apply (sub_start m [] t (replicate n t))|].
    rewrite Nat.iter_succ_r. apply IH. }
  eexists. split; [etransitivity; [apply (Hspawn 9)|apply Hstart]|]. by vm_compute.
Qed.

(** The drain relays everything left in the queue, in order, and ends at
    the fifth empty receive after the last message. *)
Theorem drain_relays_all t q n : max_drain_attempts <= n -> drain_loop t 0 (drained_queue q n) = Some (relay t <$> q).
Proof.
  intros Hn. unfold drained_queue. induction q as [|m q IH]; cbn [fmap list_fmap app].
  - do 5 (destruct n as [|n]; [unfold max_drain_attempts in Hn; lia|]). by destruct n.
  - cbn [drain_loop]. cbn [Nat.leb max_drain_attempts]. fold (Some <$> q). unfold fmap, list_fmap in IH |- *. by rewrite IH.
Qed.

Lemma drain_relays_all_witness :
  drain_loop (new_subagent_task 7 (mkSpawn $"t" None $"cli" $"me")) 0
    (drained_queue [outbound_message_new (Some $"subagent") (Some $"7") (Some $"done")] 5) =
  Some (relay (new_subagent_task 7 (mkSpawn $"t" None $"cli" $"me")) <$> [outbound_message_new (Some $"subagent") (Some $"7") (Some $"done")]).
Proof. apply (drain_relays_all (new_subagent_task 7 (mkSpawn $"t" None $"cli" $"me"))). unfold max_drain_attempts. lia. Defined.

Lemma subagent_invariant_witness :
  sub_ok (mkSubWorld (subagent_add_task subagent_manager_create (tracking_node (new_subagent_task 7 (mkSpawn $"t" None $"cli" $"me")))) []).
Proof.
  apply subagent_invariant. eapply rtc_l.
  - exact (sub_spawn 7 true (mkSpawn $"t" None $"cli" $"me") (mkSubWorld subagent_manager_create []) (Some (new_subagent_task 7 (mkSpawn $"t" None $"cli" $"me"))) _ eq_refl).
  - eapply rtc_l; [apply (sub_start subagent_manager_create [] (new_subagent_task 7 (mkSpawn $"t" None $"cli" $"me")) [])|apply rtc_refl].
Defined.
