(* ===== verification/Tools.v ===== *)
(** [src/tools/tools_impl.c]: the built-in tools, as transitions of the state
    they share: the files, the memory, the cron service, the outbound queue
    and the subagents. *)
From S2P Require Import Prelude CStr Json Common Message Fs Session Cron CronSchedule Utils Memory Skills ToolRegistry ToolContext ToolValidation ToolPaths ChannelCommon Subagent.

(** [config->tools]. *)
Record ToolConfig := mkToolConfig {
  tc_restrict_to_workspace : bool;
  tc_exec_restrict_to_workspace : bool;
  tc_exec_timeout : Z;
}.

(** The pointers of a [ToolContext]: which services there are. *)
Record Services := mkServices {
  sv_bus : bool;
  sv_subagent_mgr : bool;
  sv_cron_service : bool;
  sv_skills_loader : option SkillsLoader;
  sv_memory : bool;
  sv_config : option ToolConfig;
  sv_channels : option (list cstr);       (* the plugin manager's channels *)
  sv_workspace : option cstr;
}.

(** The state the tools act on. [tw_outbound] is the outbound queue, and
    [tw_mkdirs] the calls of [mkdir] so far. *)
Record ToolWorld := mkToolWorld {
  tw_fs : Fs;
  tw_mkdirs : list cstr;
  tw_memory : Memory;
  tw_cron : CronService;
  tw_outbound : list OutboundMessage;
  tw_subagents : SubWorld;
}.

Definition with_fs (w : ToolWorld) (fs : Fs) : ToolWorld := mkToolWorld fs (tw_mkdirs w) (tw_memory w) (tw_cron w) (tw_outbound w) (tw_subagents w).
Definition with_memory (w : ToolWorld) (m : Memory) : ToolWorld := mkToolWorld (tw_fs w) (tw_mkdirs w) m (tw_cron w) (tw_outbound w) (tw_subagents w).
Definition with_cron (w : ToolWorld) (fs : Fs) (s : CronService) : ToolWorld := mkToolWorld fs (tw_mkdirs w) (tw_memory w) s (tw_outbound w) (tw_subagents w).
Definition with_outbound (w : ToolWorld) (out : list OutboundMessage) : ToolWorld := mkToolWorld (tw_fs w) (tw_mkdirs w) (tw_memory w) (tw_cron w) out (tw_subagents w).
Definition with_subagents (w : ToolWorld) (s : SubWorld) : ToolWorld := mkToolWorld (tw_fs w) (tw_mkdirs w) (tw_memory w) (tw_cron w) (tw_outbound w) s.

(** [ensure_dir]: the arguments of its calls of [mkdir], the directories above
    the file from the outermost in. *)
Definition ensure_dir (path : cstr) : list cstr :=
  let tmp := truncate_to FILE_PATH_MAX path in
  let tmp := if bool_decide (last tmp = Some "/"%char) then take (length tmp - 1) tmp else tmp in
  match strrchr tmp "/"%char with
  | Some i => let dir := take i tmp in (match dir with [] => [] | c :: r => slash_prefixes [c] r end) ++ [dir]
  | None => []
  end.
Definition add_mkdirs (w : ToolWorld) (dirs : list cstr) : ToolWorld :=
  mkToolWorld (tw_fs w) (tw_mkdirs w ++ dirs) (tw_memory w) (tw_cron w) (tw_outbound w) (tw_subagents w).

(** What the loop of [tool_exec] sees of the child: an error of [select], a
    second without output (and the seconds since the start), bytes, the end of
    the output; then how the child ended. *)
Inductive exec_event := XSelectError | XIdle (elapsed : Z) | XData (bytes : cstr) | XEof.
Inductive exit_status := Exited (code : Z) | Signaled (signal : Z) | OtherStatus (status : Z).

(** The operating system, for the duration of one call. [ts_opens] is the file
    that opening a path leads to, since [fopen] follows a symbolic link; the
    store of files is by what they are, not by the names of links. *)
Record ToolSys := mkToolSys {
  ts_realpath : cstr -> option cstr;
  ts_opens : cstr -> cstr;
  ts_readdir : cstr -> option (list cstr);
  ts_is_dir : cstr -> bool;
  ts_skills_env : SkillsEnv;
  ts_utc_offset : Z;
  ts_now : Z;
  ts_rand : Z;
  ts_rand_id : N;
  ts_thread_ok : bool;
  ts_spawn : option bool;                  (* [pipe] and [fork]: which fails *)
  ts_run : cstr -> option cstr -> list exec_event * exit_status;
}.

Definition text_nl2 : cstr := [ch_nl; ch_nl].
Definition TOOL_ERROR_HINT : cstr := text_nl2 ++ $"[Analyze the error above and try a different approach.]".
Definition MAX_READ_SIZE : N := 128000%N.

Definition get_json_string (root : json) (key : cstr) : option cstr := is_string (get_object_item (Some root) key).

(** ** Attachments *)

Definition opt_num_member (name : cstr) (v : option Z) : list (cstr * json) :=
  match v with Some z => [(name, JNum (num_of_Z z))] | None => [] end.

(** One element of the array: the attachment, or the error. *)
Definition parse_attachment (item : json) : cstr + Error :=
  match is_string (Some item) with
  | Some s => inl s
  | None =>
      match is_object (Some item) with
      | None => inr (error_new ERR_INVALID_PARAM (Some $"Each attachment must be string or object"))
      | Some _ =>
          match get_json_string item $"type", get_json_string item $"path" with
          | Some type, Some path =>
              let duration := match is_number (get_object_item (Some item) $"duration") with
                              | Some n => if (0 <? valueint n)%Z then Some (valueint n) else None
                              | None => None
                              end in
              let normalized := JObj ([($"type", JStr type); ($"path", JStr path)] ++ opt_num_member $"duration" duration ++
                opt_member $"cover_path" (get_json_string item $"cover_path") ++ opt_member $"url" (get_json_string item $"url")) in
              match cJSON_PrintUnformatted normalized with
              | Some s => inl s
              | None => inr (error_new ERR_MEMORY (Some $"Memory allocation failed"))
              end
          | _, _ => inr (error_new ERR_INVALID_PARAM (Some $"Attachment object requires 'type' and 'path'"))
          end
      end
  end.

Fixpoint parse_attachments (items : list json) : list cstr + Error :=
  match items with
  | [] => inl []
  | i :: r => match parse_attachment i with
              | inr e => inr e
              | inl a => match parse_attachments r with inl l => inl (a :: l) | inr e => inr e end
              end
  end.

Definition parse_send_message_attachments (j : json) : list cstr + Error :=
  match get_object_item (Some j) $"attachments" with
  | None => inl []
  | Some a => match is_array (Some a) with
              | None => inr (error_new ERR_INVALID_PARAM (Some $"'attachments' must be an array"))
              | Some items => parse_attachments items
              end
  end.

(** The text after [path:] in a JSON attachment up to the next quote, else the
    attachment itself. *)
Definition path_key : cstr := ch_quote :: $"path" ++ [ch_quote] ++ $":" ++ [ch_quote].

Section Tools.
Context (services : nat -> Services) (sys : ToolSys).

Definition svc (ctx : ToolContext) : Services := services (ctx_services ctx).
Definition valid_ctx (ctx : ToolContext) : bool := (ctx_magic ctx =? TOOL_CONTEXT_MAGIC)%Z.

Definition ok_result (text : cstr) (w : ToolWorld) : Error * cstr * ToolWorld := (err_ok, text, w).
Definition fail_with (code : ErrorCode) (text : cstr) (w : ToolWorld) : Error * cstr * ToolWorld := (error_new code (Some text), [], w).

Definition invalid_json (w : ToolWorld) := fail_with ERR_JSON $"Invalid JSON arguments" w.
Definition access_denied (w : ToolWorld) := fail_with ERR_TOOL $"Access denied: path is outside workspace" w.

(** ** Routing of answers *)

Definition is_registered_channel (ctx : ToolContext) (channel : option cstr) : bool :=
  match channel, sv_channels (svc ctx) with
  | Some c, Some channels => existsb (fun x => str_eq x c) channels
  | _, _ => false
  end.

Definition resolve_channel (ctx : ToolContext) (channel : option cstr) : cstr :=
  let own := match ctx_current_channel ctx with [] => $"cli" | c => c end in
  match channel with
  | Some c => if negb (is_placeholder_value channel) && is_registered_channel ctx channel then c else own
  | None => own
  end.

Definition resolve_chat_id (ctx : ToolContext) (chat_id : option cstr) : cstr :=
  let own := match ctx_current_chat_id ctx with [] => $"current" | c => c end in
  match chat_id with
  | Some c => if is_placeholder_value chat_id then own else c
  | None => own
  end.

(** ** The policy on files *)

(** Whether the file tools are confined. *)
Definition restricted (ctx : option ToolContext) : bool :=
  match ctx with
  | Some c => valid_ctx c && match sv_config (svc c) with
                             | Some cfg => tc_restrict_to_workspace cfg || tc_exec_restrict_to_workspace cfg
                             | None => false
                             end
  | None => false
  end.

Definition workspace_of (ctx : option ToolContext) : option cstr := c ← ctx; sv_workspace (svc c).

(** The path a tool works on; [None] is access denied. *)
Definition existing_path (ctx : option ToolContext) (path : cstr) : option cstr :=
  if restricted ctx
  then ws ← workspace_of ctx; resolve_existing_path_within_workspace (ts_realpath sys) path ws PATH_BUF
  else Some path.
Definition creatable_path (ctx : option ToolContext) (path : cstr) : option cstr :=
  if restricted ctx
  then ws ← workspace_of ctx; resolve_creatable_path_within_workspace (ts_realpath sys) path ws PATH_BUF
  else Some path.

(** ** The tools *)

Definition tool_memory : tool_fn ToolWorld ToolContext := fun user_data args_json w =>
  match user_data with
  | Some ctx =>
      match sv_memory (svc ctx), sv_workspace (svc ctx) with
      | true, Some workspace =>
          match cJSON_Parse args_json with
          | None => invalid_json w
          | Some j =>
              let history_entry := get_json_string j $"history_entry" in
              let memory_update := get_json_string j $"memory_update" in
              let content := get_json_string j $"content" in
              match history_entry, memory_update, content with
              | None, None, None => fail_with ERR_INVALID_PARAM $"Missing arguments: provide 'history_entry' and/or 'memory_update'" w
              | _, _, _ =>
                  let '(w1, changed) := match content, memory_update with
                                        | Some c, None => (with_memory w (memory_add_fact (tw_memory w) c), true)
                                        | _, _ => (w, false)
                                        end in
                  let '(w2, append_err) :=
                    match history_entry with
                    | Some e => let '(fs, m, err) := memory_append_history (tw_fs w1) (tw_memory w1) workspace e in
                                (with_memory (with_fs w1 fs) m, err)
                    | None => (w1, err_ok)
                    end in
                  if is_err append_err then (append_err, [], w2)
                  else
                    let '(w3, set_err, changed) :=
                      match memory_update with
                      | Some u => let '(m, err) := memory_set_facts (tw_memory w2) u in (with_memory w2 m, err, true)
                      | None => (w2, err_ok, changed)
                      end in
                    if is_err set_err then (set_err, [], w3)
                    else
                      let '(fs, err) := if changed : bool then memory_save (tw_fs w3) (tw_memory w3) workspace else (tw_fs w3, err_ok) in
                      if is_err err then (err, [], with_fs w3 fs)
                      else ok_result $"Memory consolidated/updated successfully" (with_fs w3 fs)
              end
          end
      | _, _ => fail_with ERR_INVALID_PARAM $"Memory or Workspace not available in tool context" w
      end
  | None => fail_with ERR_INVALID_PARAM $"Memory or Workspace not available in tool context" w
  end.

Definition tool_skill : tool_fn ToolWorld ToolContext := fun user_data args_json w =>
  match (c ← user_data; sv_skills_loader (svc c)) with
  | None => fail_with ERR_INVALID_PARAM $"SkillsLoader not available in tool context" w
  | Some loader =>
      match cJSON_Parse args_json with
      | None => invalid_json w
      | Some j =>
          match get_json_string j $"action" with
          | None => fail_with ERR_INVALID_PARAM $"Missing 'action' argument" w
          | Some action =>
              if str_eq action $"list" then ok_result (skills_loader_build_skills_summary (ts_skills_env sys) (tw_fs w) loader) w
              else if str_eq action $"load" then
                match get_json_string j $"name" with
                | None => fail_with ERR_INVALID_PARAM $"Missing 'name' argument for load action" w
                | Some name => ok_result (default $"Skill not found" (skills_loader_load_skill_with_path_hints (tw_fs w) loader name)) w
                end
              else if str_eq action $"unload" then ok_result $"Unload not implemented (skills are stateless for now)" w
              else fail_with ERR_INVALID_PARAM $"Unknown action" w
          end
      end
  end.

Definition read_schema : cstr :=
  let q s := ch_quote :: s ++ [ch_quote] in
  $"{" ++ q $"type" ++ $":" ++ q $"object" ++ $"," ++ q $"properties" ++ $":{" ++ q $"path" ++ $":{" ++ q $"type" ++ $":" ++ q $"string" ++
  $"}}," ++ q $"required" ++ $":[" ++ q $"path" ++ $"]}".

(** The text read of a file of the given bytes. *)
Definition read_text (bytes : cstr) : cstr :=
  if (MAX_READ_SIZE <? size bytes)%N
  then file_text (take (N.to_nat MAX_READ_SIZE) bytes) ++
       truncate_to 128 (text_nl2 ++ $"... (truncated — file is " ++ fmt_d (Z.of_nat (length bytes)) ++ $" chars, limit " ++ fmt_d (Z.of_N MAX_READ_SIZE) ++ $")")
  else file_text bytes.

Definition tool_read_file : tool_fn ToolWorld ToolContext := fun ctx args_json w =>
  match tool_validate_and_cast_params args_json (Some read_schema) with
  | (_, Some error_msg) => (error_new ERR_INVALID_PARAM (Some $"Parameter validation failed"), error_msg ++ TOOL_ERROR_HINT, w)
  | (casted_args, None) =>
      match (j ← (c ← casted_args; cJSON_Parse c); get_json_string j $"path") with
      | None => fail_with ERR_INVALID_PARAM $"Missing 'path' argument" w
      | Some path =>
          match existing_path ctx path with
          | None => access_denied w
          | Some open_path =>
              match fs_read (tw_fs w) (ts_opens sys open_path) with
              | None => fail_with ERR_FILE $"Failed to open file" w
              | Some bytes =>
                  if (MAX_READ_SIZE * 4 <? size bytes)%N
                  then fail_with ERR_FILE (truncate_to 256 ($"File too large (" ++ fmt_d (Z.of_nat (length bytes)) ++ $" bytes)")) w
                  else ok_result (read_text bytes) w
              end
          end
      end
  end.

Definition tool_write_file : tool_fn ToolWorld ToolContext := fun ctx args_json w =>
  match cJSON_Parse args_json with
  | None => invalid_json w
  | Some j =>
      match get_json_string j $"path", get_json_string j $"content" with
      | Some path, Some content =>
          match creatable_path ctx path with
          | None => access_denied w
          | Some write_path =>
              let w := add_mkdirs w (ensure_dir write_path) in
              match fs_write (tw_fs w) (ts_opens sys write_path) content with
              | None => fail_with ERR_FILE $"Failed to open file for writing" w
              | Some fs => ok_result $"File written successfully" (with_fs w fs)
              end
          end
      | _, _ => fail_with ERR_INVALID_PARAM $"Missing 'path' or 'content' argument" w
      end
  end.

Definition tool_edit_file : tool_fn ToolWorld ToolContext := fun ctx args_json w =>
  match cJSON_Parse args_json with
  | None => invalid_json w
  | Some j =>
      match get_json_string j $"path", get_json_string j $"old_str", get_json_string j $"new_str" with
      | Some path, Some old_str, Some new_str =>
          match existing_path ctx path with
          | None => access_denied w
          | Some edit_path =>
              match fs_read (tw_fs w) (ts_opens sys edit_path) with
              | None => fail_with ERR_FILE $"Failed to open file" w
              | Some bytes =>
                  let data := file_text bytes in
                  match strstr data old_str with
                  | None => fail_with ERR_TOOL $"old_str not found in file (exact match required)" w
                  | Some pos =>
                      match strstr (drop (pos + 1) data) old_str with
                      | Some _ => fail_with ERR_TOOL $"old_str is not unique in file" w
                      | None =>
                          match fs_write (tw_fs w) (ts_opens sys edit_path) (take pos data ++ new_str ++ drop (pos + length old_str) data) with
                          | None => fail_with ERR_FILE $"Failed to write file" w
                          | Some fs => ok_result $"File edited successfully" (with_fs w fs)
                          end
                      end
                  end
              end
          end
      | _, _, _ => fail_with ERR_INVALID_PARAM $"Missing arguments" w
      end
  end.

Definition dir_line (list_path name : cstr) : cstr :=
  if str_eq name $"." || str_eq name $".." then []
  else (if ts_is_dir sys (truncate_to 1024 (list_path ++ $"/" ++ name)) then $"📁 " else $"📄 ") ++ name ++ [ch_nl].

Definition tool_list_dir : tool_fn ToolWorld ToolContext := fun ctx args_json w =>
  match cJSON_Parse args_json with
  | None => invalid_json w
  | Some j =>
      let path := default $"." (get_json_string j $"path") in
      match existing_path ctx path with
      | None => access_denied w
      | Some list_path =>
          match ts_readdir sys list_path with
          | None => fail_with ERR_FILE $"Failed to open directory" w
          | Some names => ok_result (names ≫= dir_line list_path) w
          end
      end
  end.

(** ** Commands *)

(** The reading loop: the output, and whether it timed out. The time is looked
    at only after a second without output. *)
Fixpoint exec_loop (timeout_secs : Z) (events : list exec_event) (out : cstr) : cstr * bool :=
  match events with
  | [] | XSelectError :: _ | XEof :: _ => (out, false)
  | XIdle elapsed :: r => if (timeout_secs <=? elapsed)%Z then (out, true) else exec_loop timeout_secs r out
  | XData bytes :: r => exec_loop timeout_secs r (out ++ file_text bytes)
  end.

Definition status_text (s : exit_status) : cstr :=
  truncate_to 128 (ch_nl :: match s with
                            | Exited c => $"Exit code: " ++ fmt_d c
                            | Signaled n => $"Terminated by signal: " ++ fmt_d n
                            | OtherStatus n => $"Exit status: " ++ fmt_d n
                            end).

Definition restrict_exec (ctx : option ToolContext) : bool :=
  match ctx with
  | Some c => if valid_ctx c then match sv_config (svc c) with
                                  | Some cfg => tc_exec_restrict_to_workspace cfg || tc_restrict_to_workspace cfg
                                  | None => true
                                  end
              else true
  | None => true
  end.

Definition valid_workspace (ctx : option ToolContext) : option cstr :=
  c ← ctx; if valid_ctx c then sv_workspace (svc c) else None.

Definition exec_timeout (ctx : option ToolContext) : Z :=
  match ctx with
  | Some c => if valid_ctx c then match sv_config (svc c) with Some cfg => tc_exec_timeout cfg | None => 300%Z end else 300%Z
  | None => 300%Z
  end.

Definition run_command (ctx : option ToolContext) (command : cstr) (w : ToolWorld) : Error * cstr * ToolWorld :=
  match ts_spawn sys with
  | Some true => fail_with ERR_TOOL $"Failed to create pipe" w
  | Some false => fail_with ERR_TOOL $"Failed to fork" w
  | None =>
      let cwd := if restrict_exec ctx then Some (default $"." (valid_workspace ctx)) else None in
      let '(events, status) := ts_run sys command cwd in
      let '(out, timed_out) := exec_loop (exec_timeout ctx) events [] in
      ok_result
        (out ++ if timed_out : bool then (ch_nl :: $"[TIMEOUT] Command timed out after ") ++ truncate_to 32 (fmt_d (exec_timeout ctx) ++ $" seconds")
                else status_text status) w
  end.

Definition tool_exec : tool_fn ToolWorld ToolContext := fun ctx args_json w =>
  match cJSON_Parse args_json with
  | None => invalid_json w
  | Some j =>
      match get_json_string j $"command" with
      | None => fail_with ERR_INVALID_PARAM $"Missing 'command' argument" w
      | Some command =>
          if restrict_exec ctx then
            if command_contains_unsafe_token command then
              fail_with ERR_TOOL $"Command rejected by workspace restriction policy (shell metacharacters or path traversal)" w
            else match valid_workspace ctx with
                 | Some ws => if absolute_tokens_ok (ts_realpath sys) command ws then run_command ctx command w
                              else fail_with ERR_TOOL $"Command rejected: absolute path outside workspace" w
                 | None => run_command ctx command w
                 end
          else run_command ctx command w
      end
  end.

(** ** Messages, subagents, reminders *)

(** The check of one attachment: [None] when it may be sent. *)
Definition attachment_refused (workspace att : cstr) : option Error :=
  let outside := Some (error_new ERR_TOOL (Some $"Attachment path outside workspace")) in
  let plain path := if is_path_within_workspace (ts_realpath sys) path workspace then None else outside in
  match strstr att path_key with
  | None => plain att
  | Some i =>
      let path := drop (i + 8) att in
      match strchr path ch_quote with
      | None => plain path
      | Some path_len =>
          if Nat.leb PATH_BUF path_len then Some (error_new ERR_TOOL (Some $"Attachment path too long"))
          else plain (take path_len path)
      end
  end.

Fixpoint first_refused (workspace : cstr) (atts : list cstr) : option Error :=
  match atts with
  | [] => None
  | a :: r => match attachment_refused workspace a with Some e => Some e | None => first_refused workspace r end
  end.

Definition tool_send_message : tool_fn ToolWorld ToolContext := fun user_data args_json w =>
  match user_data with
  | Some ctx =>
      if negb (valid_ctx ctx) then fail_with ERR_INVALID_PARAM $"Invalid tool context" w
      else if negb (sv_bus (svc ctx)) then fail_with ERR_INVALID_PARAM $"MessageBus not available in tool context" w
      else
        match cJSON_Parse args_json with
        | None => invalid_json w
        | Some j =>
            let channel := resolve_channel ctx (get_json_string j $"channel") in
            let chat_id := resolve_chat_id ctx (get_json_string j $"chat_id") in
            match get_json_string j $"content" with
            | None => fail_with ERR_INVALID_PARAM $"Missing 'content' argument" w
            | Some content =>
                match parse_send_message_attachments j with
                | inr e => (e, [], w)
                | inl atts =>
                    let refused := match sv_workspace (svc ctx) with
                                   | Some ws => if restricted (Some ctx) then first_refused ws atts else None
                                   | None => None
                                   end in
                    match refused with
                    | Some e => (e, [], w)
                    | None =>
                        let msg := outbound_message_new (Some channel) (Some chat_id) (Some content) in
                        ok_result $"Message queued for delivery"
                          (with_outbound w (tw_outbound w ++ [mkOutbound (out_channel msg) (out_chat_id msg) (out_content msg) atts]))
                    end
                end
            end
        end
  | None => fail_with ERR_INVALID_PARAM $"Invalid tool context" w
  end.

Definition tool_spawn : tool_fn ToolWorld ToolContext := fun user_data args_json w =>
  match user_data with
  | Some ctx =>
      if negb (sv_subagent_mgr (svc ctx)) then fail_with ERR_INVALID_PARAM $"SubagentManager not available in tool context" w
      else match cJSON_Parse args_json with
           | None => invalid_json w
           | Some j =>
               match get_json_string j $"task" with
               | None => fail_with ERR_INVALID_PARAM $"Missing 'task' argument" w
               | Some task =>
                   let req := mkSpawn task (get_json_string j $"label")
                     (match ctx_current_channel ctx with [] => $"cli" | c => c end)
                     (match ctx_current_chat_id ctx with [] => $"current" | c => c end) in
                   let '(t, resp) := subagent_manager_spawn (ts_rand_id sys) (ts_thread_ok sys) (sw_manager (tw_subagents w)) req in
                   let sw := mkSubWorld (sw_manager (tw_subagents w))
                     (sw_pending (tw_subagents w) ++ match t with Some x => [x] | None => [] end) in
                   ok_result (default $"Failed to spawn subagent" resp) (with_subagents w sw)
               end
           end
  | None => fail_with ERR_INVALID_PARAM $"SubagentManager not available in tool context" w
  end.

Definition missing_info (name payload schedule : option cstr) : cstr :=
  let absent (o : option cstr) := match o with None => true | Some _ => false end in
  let q s := ch_quote :: s ++ [ch_quote] in
  truncate_to 256 ($"Missing required arguments: " ++ (if absent name then $"name" else []) ++
    (if absent payload then (if absent name then $", payload" else $"payload") else []) ++
    (if absent schedule then (if absent name || absent payload then $", schedule" else $"schedule") else []) ++
    $". Required: name (string), payload (string), schedule (string). Example: {" ++ q $"name" ++ $":" ++ q $"drink-water" ++ $"," ++
    q $"payload" ++ $":" ++ q $"Remind user to drink water" ++ $"," ++ q $"schedule" ++ $":" ++ q $"@in 60" ++ $"}").

(** The job [tool_cron] asks for. (A job of the same name without an id would
    crash the service; Cron.v shows that a running service has none.) *)
Definition cron_job_of (ctx : ToolContext) (name payload schedule : cstr) (channel chat_id : option cstr) : CronJob :=
  mkJob None (Some name) (Some payload)
    (Some (match resolve_channel ctx channel with [] => $"cli" | c => c end))
    (Some (match resolve_chat_id ctx chat_id with [] => $"local_user" | c => c end))
    true 0 (Some schedule) 0 0 0.

Definition tool_cron : tool_fn ToolWorld ToolContext := fun user_data args_json w =>
  match user_data with
  | Some ctx =>
      if negb (sv_cron_service (svc ctx)) then fail_with ERR_INVALID_PARAM $"CronService not available in tool context" w
      else match cJSON_Parse args_json with
           | None => invalid_json w
           | Some j =>
               match get_json_string j $"name", get_json_string j $"payload", get_json_string j $"schedule" with
               | Some name, Some payload, Some schedule =>
                   let job := cron_job_of ctx name payload schedule (get_json_string j $"channel") (get_json_string j $"chat_id") in
                   let '(fs, s, r) := cron_service_add_job (ts_utc_offset sys) (ts_now sys) (ts_rand sys) (tw_fs w) (tw_cron w) job in
                   ok_result (match r with
                              | AddId id => truncate_to 256 ($"Job scheduled with ID: " ++ id)
                              | _ => $"Failed to schedule job: invalid schedule format"
                              end) (with_cron w fs s)
               | name, payload, schedule => fail_with ERR_INVALID_PARAM (missing_info name payload schedule) w
               end
           end
  | None => fail_with ERR_INVALID_PARAM $"CronService not available in tool context" w
  end.

(** ** Confinement *)

Section Confined.
Context (ctx : ToolContext) (ws wsr : cstr).
Hypothesis Hrestricted : restricted (Some ctx) = true.
Hypothesis Hworkspace : sv_workspace (svc ctx) = Some ws.
Hypothesis Hreal : ts_realpath sys ws = Some wsr.

(** A path that [realpath] gives has no symbolic link in it. *)
Hypothesis Hopens : forall c p, ts_realpath sys c = Some p -> ts_opens sys p = p.

Lemma existing_path_below path p : existing_path (Some ctx) path = Some p -> below wsr p /\ ts_opens sys p = p.
Proof using Hrestricted Hworkspace Hreal Hopens.
  unfold existing_path. rewrite Hrestricted. unfold workspace_of. cbn [mbind option_bind]. rewrite Hworkspace. intros H.
  apply (resolve_existing_inside _ (fun _ => True)) in H; [|done]. destruct H as (w & c & Hw & _ & Hc & Hb & _). simplify_eq. eauto.
Qed.

Lemma creatable_path_child path p : creatable_path (Some ctx) path = Some p ->
  exists dir name, p = dir ++ "/"%char :: name /\ below wsr dir /\ filename_ok name = true.
Proof using Hrestricted Hworkspace Hreal.
  unfold creatable_path. rewrite Hrestricted. unfold workspace_of. cbn [mbind option_bind]. rewrite Hworkspace. intros H.
  apply (resolve_creatable_inside _ (fun _ => True)) in H; [|done|done].
  destruct H as (w & c & pa & d & f & Hw & _ & _ & _ & Hf & -> & Hd & _). simplify_eq. eauto.
Qed.

(** Two file stores that agree on the workspace. *)
Definition same_inside (f g : Fs) : Prop := forall p, below wsr p -> fs_read f p = fs_read g p.
Definition same_outside (f g : Fs) : Prop := forall p, ~ below wsr p -> fs_read f p = fs_read g p.

Lemma fs_write_elsewhere f p text g q : fs_write f p text = Some g -> q <> p -> fs_read g q = fs_read f q.
Proof. unfold fs_write. destruct (fs_writable f p); [|done]. intros [= <-] Hq. unfold fs_read. cbn. by rewrite lookup_insert_ne. Qed.

Lemma fs_write_outside f p text g : below wsr p -> fs_write f p text = Some g -> same_outside f g.
Proof.
  intros Hb H q Hq. symmetry. apply (fs_write_elsewhere _ _ _ _ _ H). by intros ->.
Qed.

(** C5: In a restricted context, whatever the arguments are: the edit tool
    changes no file outside the workspace; what the read tool answers depends
    only on the files of the workspace, and it changes nothing; and the write
    tool changes at most one file, which is in the workspace too, or else is
    what a symbolic link that stands in the workspace under a plain file name
    leads to. (The last case is [write_follows_link]: the tool resolves the
    directory of the path but not the file.) *)
Theorem tools_confined args w :
  same_outside (tw_fs w) (tw_fs (snd (tool_edit_file (Some ctx) args w))) /\
  (forall g, same_inside (tw_fs w) g ->
     fst (tool_read_file (Some ctx) args (with_fs w g)) = fst (tool_read_file (Some ctx) args w)) /\
  tw_fs (snd (tool_read_file (Some ctx) args w)) = tw_fs w /\
  (same_outside (tw_fs w) (tw_fs (snd (tool_write_file (Some ctx) args w))) \/
   exists dir name, below wsr dir /\ filename_ok name = true /\ ~ below wsr (ts_opens sys (dir ++ "/"%char :: name)) /\
     forall q, q <> ts_opens sys (dir ++ "/"%char :: name) -> fs_read (tw_fs (snd (tool_write_file (Some ctx) args w))) q = fs_read (tw_fs w) q).
Proof using Hrestricted Hworkspace Hreal Hopens.
  split_and!.
  - unfold tool_edit_file. destruct (cJSON_Parse args) as [j|]; [|done].
    destruct (get_json_string j $"path") as [path|]; [|done]. destruct (get_json_string j $"old_str") as [old|]; [|done].
    destruct (get_json_string j $"new_str") as [new|]; [|done].
    destruct (existing_path (Some ctx) path) as [p|] eqn:Ep; [|done]. apply existing_path_below in Ep as [Ep ->].
    destruct (fs_read _ p) as [bytes|]; [|done]. cbn zeta. destruct (strstr _ old) as [i|]; [|done].
    destruct (strstr _ old); [done|]. destruct (fs_write _ p _) as [g|] eqn:Eg; [|done]. by eapply fs_write_outside.
  - intros g Hg. unfold tool_read_file. destruct (tool_validate_and_cast_params args (Some read_schema)) as [c [e|]]; [done|].
    destruct (j ← _; _) as [path|]; [|done]. destruct (existing_path (Some ctx) path) as [p|] eqn:Ep; [|done].
    apply existing_path_below in Ep as [Ep ->]. cbn [tw_fs with_fs]. rewrite <-(Hg p Ep). destruct (fs_read (tw_fs w) p) as [bytes|]; [|done].
    by destruct (MAX_READ_SIZE * 4 <? size bytes)%N.
  - unfold tool_read_file. destruct (tool_validate_and_cast_params args (Some read_schema)) as [c [e|]]; [done|].
    destruct (j ← _; _) as [path|]; [|done]. destruct (existing_path (Some ctx) path) as [p|]; [|done].
    destruct (fs_read (tw_fs w) _) as [bytes|]; [|done]. by destruct (MAX_READ_SIZE * 4 <? size bytes)%N.
  - unfold tool_write_file. destruct (cJSON_Parse args) as [j|]; [|by left].
    destruct (get_json_string j $"path") as [path|]; [|by left]. destruct (get_json_string j $"content") as [content|]; [|by left].
    destruct (creatable_path (Some ctx) path) as [p|] eqn:Ep; [|by left]. apply creatable_path_child in Ep as (dir & name & -> & Hd & Hn). cbn zeta.
    set (p := ts_opens sys _). destruct (fs_write _ p content) as [g|] eqn:Eg; [|by left]. cbn [snd tw_fs with_fs].
    destruct (is_inside p wsr) eqn:Ei; [left; apply is_inside_below in Ei; by apply (fs_write_outside _ p content)|].
    right. exists dir, name. split_and!; [done|done|intros Hb%is_inside_below; fold p in Hb; congruence|]. intros q Hq. by apply (fs_write_elsewhere _ p content).
Qed.
End Confined.

(** A subagent's context has no configuration, so its file tools are not
    confined, whatever the user configured: every path is taken as it is. *)
Theorem subagent_tools_unconfined ctx path : sv_config (svc ctx) = None ->
  existing_path (Some ctx) path = Some path /\ creatable_path (Some ctx) path = Some path.
Proof.
  intros H. unfold existing_path, creatable_path, restricted. rewrite H, andb_false_r. done.
Qed.

(** ** Editing *)

Lemma occurs_later data old pos : old <> [] -> pos <= length data -> (forall j, occurs_at data old j -> pos <= j) ->
  strstr (drop (pos + 1) data) old = None -> forall j, occurs_at data old j -> j = pos.
Proof.
  intros Hne Hpos Hmin Hnone j Hj. pose proof (Hmin j Hj). destruct (decide (j = pos)) as [|Hj']; [done|]. exfalso.
  pose proof (strstr_first (drop (pos + 1) data) old) as H1. rewrite Hnone in H1. apply (H1 (j - (pos + 1))).
  destruct Hj as [Hl Hs]. split; [rewrite length_drop; lia|]. rewrite drop_drop.
  by replace (pos + 1 + (j - (pos + 1))) with j by lia.
Qed.

(** C20: An edit happens exactly when the old text stands at one place of the
    file, and then replaces it there and nothing else; otherwise the tool
    reports an error and changes nothing. *)
Theorem tool_edit_file_correct ctx args w j path old new edit_path p bytes :
  cJSON_Parse args = Some j -> get_json_string j $"path" = Some path ->
  get_json_string j $"old_str" = Some old -> get_json_string j $"new_str" = Some new ->
  existing_path ctx path = Some edit_path -> ts_opens sys edit_path = p -> fs_read (tw_fs w) p = Some bytes -> fs_writable (tw_fs w) p = true -> old <> [] ->
  let data := file_text bytes in
  let '(err, _, w') := tool_edit_file ctx args w in
  (is_err err = false -> exists i, occurs_at data old i /\ (forall k, occurs_at data old k -> k = i) /\
     data = take i data ++ old ++ drop (i + length old) data /\
     fs_read (tw_fs w') p = Some (take i data ++ new ++ drop (i + length old) data) /\
     forall q, q <> p -> fs_read (tw_fs w') q = fs_read (tw_fs w) q) /\
  (is_err err = true -> w' = w /\ ~ exists i, occurs_at data old i /\ forall k, occurs_at data old k -> k = i).
Proof.
  intros Hj Hp Ho Hn Hpath Hopen Hread Hw Hne data. unfold tool_edit_file. rewrite Hj, Hp, Ho, Hn, Hpath, Hopen, Hread. fold data. cbn zeta.
  pose proof (strstr_first data old) as Hfirst. destruct (strstr data old) as [i|] eqn:Ei.
  - destruct Hfirst as [Hi Hmin]. destruct (strstr (drop (i + 1) data) old) as [k|] eqn:Ek.
    + split; [done|]. intros _. split; [done|]. intros (i' & Hi' & Huniq).
      pose proof (strstr_first (drop (i + 1) data) old) as Hk. rewrite Ek in Hk. destruct Hk as [[Hk1 Hk2] _].
      assert (occurs_at data old (i + 1 + k)) as H2.
      { rewrite length_drop in Hk1. rewrite drop_drop in Hk2. split; [|done]. destruct (decide (i + 1 <= length data)); [lia|].
        rewrite (drop_ge data) in Hk2 by lia. destruct old; [done|discriminate]. }
      pose proof (Huniq _ Hi). pose proof (Huniq _ H2). lia.
    + unfold fs_write. rewrite Hw. split; [intros _|done]. exists i. apply strstr_Some in Ei as [Ei Hl].
      split_and!; [done| |done| |].
      * intros k Hk. eapply occurs_later; [done| |exact Hmin|done|done]. lia.
      * unfold fs_read. cbn. by rewrite lookup_insert_eq.
      * intros q Hq. unfold fs_read. cbn. by rewrite lookup_insert_ne.
  - split; [done|]. intros _. split; [done|]. intros (i & Hi & _). by apply (Hfirst i).
Qed.

(** The time-out is only looked at after a second without output: a
    command that keeps writing is never stopped, whatever the limit. *)
Theorem exec_busy_never_times_out timeout_secs events out :
  Forall (fun e => match e with XIdle _ => False | _ => True end) events -> snd (exec_loop timeout_secs events out) = false.
Proof.
  intros H. revert out. induction H as [|e events He _ IH]; intros out; [done|]. by destruct e; cbn [exec_loop].
Qed.
End Tools.

(** A JSON text attachment whose first path is in the workspace and whose own
    path is not. *)
Definition smuggled : cstr := quoted $"{'x':{'path':'/w/a.txt'},'type':'file','path':'/etc/shadow'}".

(** The policy on attachments reads the first path in the text of the
    attachment, the channels the member of the JSON object: a text attachment
    can name one file to the check and another to the channel. *)
Theorem attachment_policy_bypassed sys : ts_realpath sys $"/w" = Some $"/w" -> ts_realpath sys $"/w/a.txt" = Some $"/w/a.txt" ->
  attachment_refused sys $"/w" smuggled = None /\ ca_path <$> channel_parse_attachment_spec smuggled = Some (Some $"/etc/shadow").
Proof.
  intros H1 H2. split; [|by vm_compute]. unfold attachment_refused.
  assert (strstr smuggled path_key = Some 6) as -> by by vm_compute. cbn zeta.
  assert (strchr (drop (6 + 8) smuggled) ch_quote = Some 8) as -> by by vm_compute.
  assert (Nat.leb PATH_BUF 8 = false) as -> by by vm_compute.
  assert (take 8 (drop (6 + 8) smuggled) = $"/w/a.txt") as -> by by vm_compute.
  unfold is_path_within_workspace, resolve_workspace_path. rewrite H1, H2. by vm_compute.
Qed.

(** ** Witnesses *)

Definition demo_config : ToolConfig := mkToolConfig true true 60.
Definition demo_services (n : nat) : Services :=
  mkServices true true true None true (if Nat.eqb n 1 then Some demo_config else None) (Some [$"cli"; $"feishu"]) (Some $"/w").
Definition demo_ctx (services : nat) : ToolContext := mkToolContext TOOL_CONTEXT_MAGIC services $"feishu" $"oc_1".
(** [/w/out.txt] is a link to a file outside of the workspace. *)
Definition demo_opens (p : cstr) : cstr :=
  if str_eq p $"/w/out.txt" then $"/home/u/.profile" else if str_eq p $"/w/link.txt" then $"/w/a.txt" else p.
Definition demo_sys : ToolSys :=
  mkToolSys demo_realpath demo_opens (fun _ => None) (fun _ => false) skills_env 28800 1000 7 7 true None
    (fun _ _ => ([XData $"out"; XEof], Exited 0)).
Definition demo_world : ToolWorld :=
  mkToolWorld (mkFs {[ $"/w/a.txt" := $"one two" ]} (fun _ => true) (fun _ _ => true)) [] memory_new
    (mkCron $"/w/cron.json" true [] 0) [] (mkSubWorld subagent_manager_create []).

Lemma tools_confined_witness :
  let args := quoted $"{'path':'/w/link.txt','old_str':'one','new_str':'1'}" in
  same_outside $"/w" (tw_fs demo_world) (tw_fs (snd (tool_edit_file demo_services demo_sys (Some (demo_ctx 1)) args demo_world))).
Proof.
  apply (tools_confined demo_services demo_sys (demo_ctx 1) $"/w" $"/w"); [by vm_compute..|].
  intros c p H. unfold demo_sys, demo_realpath in H. cbn [ts_realpath] in H. destruct (str_eq c $"/w/link.txt"); [injection H as <-; by vm_compute|].
  destruct (existsb (str_eq c) _) eqn:E; [|done]. injection H as <-.
  apply existsb_exists in E as (x & Hx & ->%bool_decide_eq_true). destruct Hx as [<-|[<-|[<-|[]]]]; by vm_compute.
Defined.

(** The write tool follows a link out of the workspace: the check passes on the
    name of the link, and the file it leads to is overwritten. *)
Lemma write_follows_link :
  let args := quoted $"{'path':'out.txt','content':'x'}" in
  fs_read (tw_fs (snd (tool_write_file demo_services demo_sys (Some (demo_ctx 1)) args demo_world))) $"/home/u/.profile" = Some $"x".
Proof. by vm_compute. Qed.

Lemma subagent_tools_unconfined_witness :
  existing_path demo_services demo_sys (Some (demo_ctx 2)) $"/etc/shadow" = Some $"/etc/shadow" /\
  creatable_path demo_services demo_sys (Some (demo_ctx 2)) $"/etc/shadow" = Some $"/etc/shadow".
Proof. by apply (subagent_tools_unconfined demo_services demo_sys (demo_ctx 2) $"/etc/shadow"). Defined.

Definition edit_args : cstr := quoted $"{'path':'/w/a.txt','old_str':'one','new_str':'1'}".
Definition edit_json : json := JObj [($"path", JStr $"/w/a.txt"); ($"old_str", JStr $"one"); ($"new_str", JStr $"1")].

Lemma tool_edit_file_correct_witness :
  let '(err, _, w') := tool_edit_file demo_services demo_sys (Some (demo_ctx 1)) edit_args demo_world in
  is_err err = false -> fs_read (tw_fs w') $"/w/b.txt" = fs_read (tw_fs demo_world) $"/w/b.txt".
Proof.
  pose proof (tool_edit_file_correct demo_services demo_sys (Some (demo_ctx 1)) edit_args demo_world edit_json
    $"/w/a.txt" $"one" $"1" $"/w/a.txt" $"/w/a.txt" $"one two" ltac:(by vm_compute) eq_refl eq_refl eq_refl ltac:(by vm_compute) ltac:(by vm_compute) eq_refl eq_refl ltac:(done)) as H.
  cbn zeta in H. destruct (tool_edit_file _ _ _ _ _) as [[err r] w']. destruct H as [H _]. intros He.
  destruct (H He) as (i & _ & _ & _ & _ & Hq). by apply Hq.
Defined.

Lemma exec_busy_never_times_out_witness :
  snd (exec_loop 60 (repeat (XData $"y") 1000 ++ [XEof]) []) = false.
Proof. apply exec_busy_never_times_out. apply Forall_app. split; [by apply Forall_forall; intros x ->%list_elem_of_In%repeat_spec|by repeat constructor]. Defined.

Lemma attachment_policy_bypassed_witness :
  attachment_refused demo_sys $"/w" smuggled = None /\ ca_path <$> channel_parse_attachment_spec smuggled = Some (Some $"/etc/shadow").
Proof. by apply (attachment_policy_bypassed demo_sys). Defined.
