(* ===== verification/ContextBuilder.v ===== *)
(** [src/context/context_builder.c]: the system prompt, with its caches of the
    memory and of the skills. The clock, as [strftime] writes it, the time a
    file was changed, the files and the directories are arguments. *)
From S2P Require Import Prelude CStr Common Fs Message Session Utils Memory Skills.

Definition DEFAULT_CONTEXT_WINDOW : N := 128000.
Definition CONTEXT_RESERVE_TOKENS : N := 8192.

(** [cb_has_memory]: a memory was set; the memory itself is shared and is an
    argument of the operations. *)
Record ContextBuilder := mkBuilder {
  cb_identity : cstr;
  cb_bootstrap_files : list cstr;
  cb_has_memory : bool;
  cb_skills_loader : option SkillsLoader;
  cb_workspace : cstr;
  cb_cached_memory_content : option cstr;
  cb_cached_skills_content : option cstr;
  cb_cached_skills_summary : option cstr;
  cb_memory_mtime : Z;
  cb_memory_version : Z;
  cb_context_window : N;
  cb_max_history_tokens : N;
}.

Definition context_builder_new (workspace : cstr) : ContextBuilder :=
  mkBuilder [] [] false (Some (skills_loader_create workspace)) workspace None None None 0 0
    DEFAULT_CONTEXT_WINDOW (DEFAULT_CONTEXT_WINDOW - CONTEXT_RESERVE_TOKENS).

Definition context_builder_set_context_window (cb : ContextBuilder) (window_tokens : N) : ContextBuilder :=
  mkBuilder (cb_identity cb) (cb_bootstrap_files cb) (cb_has_memory cb) (cb_skills_loader cb) (cb_workspace cb) (cb_cached_memory_content cb)
    (cb_cached_skills_content cb) (cb_cached_skills_summary cb) (cb_memory_mtime cb) (cb_memory_version cb) window_tokens
    (if (CONTEXT_RESERVE_TOKENS <? window_tokens)%N then window_tokens - CONTEXT_RESERVE_TOKENS else window_tokens / 2)%N.

Definition context_builder_set_identity (cb : ContextBuilder) (identity : cstr) : ContextBuilder :=
  mkBuilder identity (cb_bootstrap_files cb) (cb_has_memory cb) (cb_skills_loader cb) (cb_workspace cb) (cb_cached_memory_content cb)
    (cb_cached_skills_content cb) (cb_cached_skills_summary cb) (cb_memory_mtime cb) (cb_memory_version cb) (cb_context_window cb) (cb_max_history_tokens cb).
Definition context_builder_add_bootstrap (cb : ContextBuilder) (file_content : cstr) : ContextBuilder :=
  mkBuilder (cb_identity cb) (cb_bootstrap_files cb ++ [file_content]) (cb_has_memory cb) (cb_skills_loader cb) (cb_workspace cb) (cb_cached_memory_content cb)
    (cb_cached_skills_content cb) (cb_cached_skills_summary cb) (cb_memory_mtime cb) (cb_memory_version cb) (cb_context_window cb) (cb_max_history_tokens cb).
Definition context_builder_set_memory (cb : ContextBuilder) (mem : bool) : ContextBuilder :=
  mkBuilder (cb_identity cb) (cb_bootstrap_files cb) mem (cb_skills_loader cb) (cb_workspace cb) (cb_cached_memory_content cb)
    (cb_cached_skills_content cb) (cb_cached_skills_summary cb) (cb_memory_mtime cb) (cb_memory_version cb) (cb_context_window cb) (cb_max_history_tokens cb).

Definition set_memory_cache (cb : ContextBuilder) (content : option cstr) (mtime version : Z) : ContextBuilder :=
  mkBuilder (cb_identity cb) (cb_bootstrap_files cb) (cb_has_memory cb) (cb_skills_loader cb) (cb_workspace cb) content
    (cb_cached_skills_content cb) (cb_cached_skills_summary cb) mtime version (cb_context_window cb) (cb_max_history_tokens cb).
Definition set_skills_cache (cb : ContextBuilder) (content summary : option cstr) : ContextBuilder :=
  mkBuilder (cb_identity cb) (cb_bootstrap_files cb) (cb_has_memory cb) (cb_skills_loader cb) (cb_workspace cb) (cb_cached_memory_content cb)
    content summary (cb_memory_mtime cb) (cb_memory_version cb) (cb_context_window cb) (cb_max_history_tokens cb).

(** ** The sliding window *)

Definition size_t (z : Z) : Z := wrap_u 64 z.

Definition estimate_session_tokens (msgs : list Message) : Z :=
  fold_left (fun total msg => if bool_decide (m_role msg = ROLE_TOOL) then total else size_t (total + Z.of_nat (estimate_tokens (m_content msg)))) msgs 0%Z.

(** The messages left after the loop. *)
Fixpoint slide (max_tokens : Z) (msgs : list Message) (current_tokens : Z) : list Message :=
  match msgs with
  | oldest :: r =>
      if Nat.ltb 2 (length msgs) && (max_tokens <? current_tokens)%Z
      then slide max_tokens r (size_t (current_tokens - Z.of_nat (estimate_tokens (m_content oldest))))
      else msgs
  | [] => []
  end.

Definition apply_sliding_window (msgs : list Message) (max_tokens : Z) : list Message :=
  if (max_tokens =? 0)%Z then msgs
  else
    let current_tokens := estimate_session_tokens msgs in
    if (current_tokens <=? max_tokens)%Z then msgs else slide max_tokens msgs current_tokens.

(** ** The prompt *)

Definition prompt_separator : cstr := [ch_nl; ch_nl] ++ $"---" ++ [ch_nl; ch_nl].

Definition build_runtime_context (time_buf tz_buf : cstr) (channel chat_id : option cstr) : cstr :=
  let tz := match tz_buf with [] => $"UTC" | _ => tz_buf end in
  $"[Runtime Context]" ++ [ch_nl] ++ truncate_to 256 ($"Current Time: " ++ time_buf ++ $" (" ++ tz ++ $")" ++ [ch_nl]) ++
  match channel, chat_id with
  | Some ch, Some id => truncate_to 256 ($"Current Channel: " ++ ch ++ [ch_nl] ++ $"Current Chat ID: " ++ id ++ [ch_nl])
  | _, _ => []
  end.

Definition prompt_head (cb : ContextBuilder) : cstr :=
  match cb_identity cb with [] => [] | i => i ++ prompt_separator end ++ (cb_bootstrap_files cb ≫= fun file => file ++ prompt_separator).

(** The memory is read again when its file is newer than the cache, and the
    cache is renewed when the memory has another version. *)
Definition refresh_memory (mtime : cstr -> option Z) (fs : Fs) (cb : ContextBuilder) (mem : Memory) : Fs * Memory * ContextBuilder :=
  let new_mtime := default 0%Z (mtime (truncate_to 512 (cb_workspace cb ++ $"/memory/MEMORY.md"))) in
  let file_changed := (cb_memory_mtime cb <? new_mtime)%Z in
  let '(fs1, mem1) := if file_changed then let '(f, m, _) := memory_load fs mem (cb_workspace cb) in (f, m) else (fs, mem) in
  let current_version := memory_get_version mem1 in
  if bool_decide (cb_cached_memory_content cb = None) || file_changed || negb (current_version =? cb_memory_version cb)%Z
  then (fs1, mem1, set_memory_cache cb (Some (memory_md mem1)) new_mtime current_version)
  else (fs1, mem1, cb).

Definition refresh_skills (env : SkillsEnv) (fs : Fs) (cb : ContextBuilder) : ContextBuilder :=
  match cb_skills_loader cb with
  | None => cb
  | Some loader =>
      if bool_decide (cb_cached_skills_content cb = None) || bool_decide (cb_cached_skills_summary cb = None) then
        set_skills_cache cb
          (match skills_loader_get_always_skills env fs loader with
           | [] => cb_cached_skills_content cb
           | always => Some (skills_loader_load_skills_for_context fs loader always)
           end)
          (Some (skills_loader_build_skills_summary env fs loader))
      else cb
  end.

Definition skills_help : cstr :=
  $"Skills extend your capabilities. To use a skill:" ++ [ch_nl] ++
  $"1. Use `skill` tool with action='load' and name='skill-name' to read the SKILL.md" ++ [ch_nl] ++
  $"2. Follow the skill's instructions to complete the task (may involve using other tools like `exec`)" ++ [ch_nl] ++
  $"IMPORTANT: Skills are NOT directly callable as tools. Always use `skill` tool first to load the skill." ++ [ch_nl; ch_nl].

Definition skills_part (cb : ContextBuilder) : cstr :=
  match cb_cached_skills_content cb with Some c => $"# Active Skills" ++ [ch_nl; ch_nl] ++ c ++ prompt_separator | None => [] end ++
  match cb_cached_skills_summary cb with Some s => $"# Available Skills" ++ [ch_nl; ch_nl] ++ skills_help ++ s ++ prompt_separator | None => [] end.

(** What is read of the world during one call. *)
Record BuildEnv := mkBuildEnv { be_skills : SkillsEnv; be_mtime : cstr -> option Z; be_time : cstr; be_zone : cstr }.

Definition context_builder_build_with_channel (env : BuildEnv) (fs : Fs) (cb : ContextBuilder) (mem : Memory) (channel chat_id : option cstr)
    : Fs * Memory * ContextBuilder * cstr :=
  let '(fs1, mem1, cb1) := if cb_has_memory cb then refresh_memory (be_mtime env) fs cb mem else (fs, mem, cb) in
  let memory_part := match (if cb_has_memory cb1 then cb_cached_memory_content cb1 else None) with Some c => c ++ prompt_separator | None => [] end in
  let cb2 := refresh_skills (be_skills env) fs1 cb1 in
  (fs1, mem1, cb2,
   prompt_head cb ++ memory_part ++ skills_part cb2 ++ [ch_nl] ++ build_runtime_context (be_time env) (be_zone env) channel chat_id).

Definition context_builder_build (env : BuildEnv) (fs : Fs) (cb : ContextBuilder) (mem : Memory) : Fs * Memory * ContextBuilder * cstr :=
  context_builder_build_with_channel env fs cb mem None None.

(** ** The memory in the prompt is the current one *)

(** What happens to the memory between prompts, and the prompts. Each reads
    the files as it finds them. *)
Inductive PromptOp :=
  | PAddFact (fact : cstr) | PAddHistory (entry : cstr) | PAppendHistory (fs : Fs) (entry : cstr) | PSetFacts (update : cstr)
  | PConsolidate (fs : Fs) | PNeedsConsolidation | PLoad (fs : Fs)
  | PBuild (env : BuildEnv) (fs : Fs) (channel chat_id : option cstr).

Definition prompt_step (op : PromptOp) (s : ContextBuilder * Memory) : ContextBuilder * Memory :=
  let '(cb, m) := s in
  match op with
  | PAddFact fact => (cb, memory_add_fact m fact)
  | PAddHistory entry => (cb, memory_add_history m entry)
  | PAppendHistory fs entry => (cb, snd (fst (memory_append_history fs m (cb_workspace cb) entry)))
  | PSetFacts update => (cb, fst (memory_set_facts m update))
  | PConsolidate fs => (cb, snd (fst (memory_consolidate fs m (cb_workspace cb))))
  | PNeedsConsolidation => (cb, fst (memory_needs_consolidation m))
  | PLoad fs => (cb, snd (fst (memory_load fs m (cb_workspace cb))))
  | PBuild env fs channel chat_id => let '(_, m', cb', _) := context_builder_build_with_channel env fs cb m channel chat_id in (cb', m')
  end.
Definition prompt_run (ops : list PromptOp) (s : ContextBuilder * Memory) : ContextBuilder * Memory := fold_left (fun s op => prompt_step op s) ops s.

(** A change of the facts comes with a new version. *)
Definition versioned (m m' : Memory) : Prop := (version m' = version m /\ memory_md m' = memory_md m) \/ version m' = wrap_u 64 (version m + 1).

Lemma append_buffer_version m entry : version (append_history_buffer_unlocked m entry) = version m.
Proof. unfold append_history_buffer_unlocked. by case_match. Qed.

Lemma add_fact_version m fact : version (add_fact_unlocked m fact) = version m.
Proof. unfold add_fact_unlocked. by repeat case_match. Qed.

Lemma add_old_facts_version lines : forall added m, version (add_old_facts lines added m) = version m.
Proof.
  induction lines as [|line r IH]; intros added m; [done|]. cbn [add_old_facts]. repeat case_match; try done; rewrite IH; try done; apply add_fact_version.
Qed.

Lemma consolidate_texts_version m : version (consolidate_texts m) = wrap_u 64 (version m + 1).
Proof. unfold consolidate_texts. cbn [bump recount version]. destruct (Nat.ltb 0 (history_cut (history_md m))); by rewrite ?add_old_facts_version. Qed.

Lemma memory_load_version fs m ws : version (snd (fst (memory_load fs m ws))) = wrap_u 64 (version m + 1).
Proof.
  unfold memory_load. destruct (fs_read fs (memory_file ws)) as [text|]; [|destruct (fs_write fs (memory_file ws) default_mem) as [fs1|]];
    cbn [fst snd bump recount version]; by case_match.
Qed.

Lemma memory_op_versioned op cb m : match op with PBuild _ _ _ _ => False | _ => True end -> fst (prompt_step op (cb, m)) = cb /\ versioned m (snd (prompt_step op (cb, m))).
Proof.
  intros Hop. split; [by destruct op|]. destruct op; cbn [prompt_step snd]; try done.
  - unfold memory_add_fact. destruct fact; [by left|]. right. cbn [bump version recount]. by rewrite add_fact_version.
  - right. unfold memory_add_history. cbn [bump version]. by rewrite append_buffer_version.
  - unfold memory_append_history. case_match; [|by left]. right. cbn [fst snd bump version]. by rewrite append_buffer_version.
  - unfold memory_set_facts. case_match; [by left|]. by right.
  - unfold memory_consolidate. case_match; [|by left]. destruct (write_files _ _ _) as [fs' err]. right. cbn [fst snd]. by rewrite consolidate_texts_version.
  - by left.
  - right. apply memory_load_version.
Qed.

(** After [n] operations. *)
Record cache_ok (n : Z) (cb : ContextBuilder) (m : Memory) : Prop := {
  co_version : (0 <= version m <= 1 + n)%Z;
  co_cached : (cb_memory_version cb <= version m)%Z;
  co_same : forall c, cb_cached_memory_content cb = Some c -> cb_memory_version cb = version m -> c = memory_md m;
  co_memory : cb_has_memory cb = true;
}.

Lemma versioned_ok n cb m m' : (n < 2 ^ 64 - 2)%Z -> cache_ok n cb m -> versioned m m' -> cache_ok (n + 1) cb m'.
Proof.
  intros Hn [H1 H2 H3 H4] [[Hv Hm]|Hv].
  - split; [lia|lia| |done]. intros c Hc Hcv. rewrite Hm. apply H3; [done|congruence].
  - rewrite wrap_u_id in Hv by lia. split; [lia|lia| |done]. intros c Hc Hcv. lia.
Qed.

Lemma refresh_ok n mtime fs cb m fs' m' cb' : (n < 2 ^ 64 - 2)%Z -> cache_ok n cb m -> refresh_memory mtime fs cb m = (fs', m', cb') ->
  cache_ok (n + 1) cb' m' /\ cb_cached_memory_content cb' = Some (memory_md m') /\
  ((fs', m') = (fs, m) \/ exists err, memory_load fs m (cb_workspace cb) = (fs', m', err)).
Proof.
  intros Hn Hok. unfold refresh_memory. set (new := default 0%Z (mtime _)). set (changed := (cb_memory_mtime cb <? new)%Z).
  destruct (if changed then _ else _) as [fs1 m1] eqn:E.
  assert (versioned m m1 /\ ((fs1, m1) = (fs, m) \/ exists err, memory_load fs m (cb_workspace cb) = (fs1, m1, err))) as [Hv Hfs].
  { destruct changed; [|injection E as <- <-; split; [by left|by left]].
    destruct (memory_load fs m (cb_workspace cb)) as [[f0 m0] e] eqn:El. injection E as <- <-. split; [|right; by eexists].
    right. by rewrite <- (memory_load_version fs m (cb_workspace cb)), El. }
  pose proof (versioned_ok n cb m m1 Hn Hok Hv) as Hok1. unfold memory_get_version.
  destruct (bool_decide (cb_cached_memory_content cb = None) || changed || negb (version m1 =? cb_memory_version cb)%Z) eqn:Ec; intros [= <- <- <-].
  - split_and!; [|done|done]. destruct Hok1 as [H1 _ _ H4]. split; cbn; try done. by intros c [= <-].
  - apply orb_false_elim in Ec as [[Ec1 _]%orb_false_elim Ec2]. apply negb_false_iff, Z.eqb_eq in Ec2. apply bool_decide_eq_false in Ec1.
    split_and!; [done| |done]. destruct (cb_cached_memory_content cb) as [c|] eqn:Ecc; [|done]. f_equal. by apply (co_same _ _ _ Hok1).
Qed.

Lemma skills_cache_ok n cb m a b : cache_ok n cb m -> cache_ok n (set_skills_cache cb a b) m.
Proof. by intros [H1 H2 H3 H4]. Qed.

Lemma refresh_skills_ok n env fs cb m : cache_ok n cb m -> cache_ok n (refresh_skills env fs cb) m /\
  cb_cached_memory_content (refresh_skills env fs cb) = cb_cached_memory_content cb.
Proof.
  intros H. unfold refresh_skills. destruct (cb_skills_loader cb); [|done]. case_match; [|done]. split; [by apply skills_cache_ok|done].
Qed.

Lemma prompt_step_ok n op cb m : (n < 2 ^ 64 - 2)%Z -> cache_ok n cb m -> cache_ok (n + 1) (fst (prompt_step op (cb, m))) (snd (prompt_step op (cb, m))).
Proof.
  intros Hn Hok. destruct op as [| | | | | | |env fs ch id];
    try (match goal with |- context [prompt_step ?op _] => destruct (memory_op_versioned op cb m I) as [-> Hv] end; by apply (versioned_ok n cb m)).
  cbn [prompt_step]. unfold context_builder_build_with_channel. rewrite (co_memory _ _ _ Hok).
  destruct (refresh_memory (be_mtime env) fs cb m) as [[fs1 m1] cb1] eqn:E. apply (refresh_ok n) in E as (H & _); [|done..].
  cbn [fst snd]. by apply refresh_skills_ok.
Qed.

Lemma prompt_run_ok ops : forall n cb m, (n + Z.of_nat (length ops) < 2 ^ 64 - 2)%Z -> cache_ok n cb m ->
  cache_ok (n + Z.of_nat (length ops)) (fst (prompt_run ops (cb, m))) (snd (prompt_run ops (cb, m))).
Proof.
  induction ops as [|op ops IH]; intros n cb m Hn Hok.
  - cbn [prompt_run fold_left fst snd length]. by rewrite Z.add_0_r.
  - cbn [length] in Hn |- *. change (prompt_run (op :: ops) (cb, m)) with (prompt_run ops (prompt_step op (cb, m))).
    pose proof (prompt_step_ok n op cb m ltac:(lia) Hok) as H1. destruct (prompt_step op (cb, m)) as [cb1 m1]. cbn [fst snd] in H1.
    replace (n + Z.of_nat (S (length ops)))%Z with ((n + 1) + Z.of_nat (length ops))%Z by lia. apply IH; [lia|done].
Qed.

(** The memory in the prompt is never stale: after any operations on the
    memory and any earlier prompts (fewer than 2^64 of them, the range of the
    version), the prompt has, after the identity and the bootstrap files, the
    facts the memory holds when it is built, and these are the facts of before,
    or those of the file when the file is newer. *)
Theorem prompt_memory_current workspace config ops env fs channel chat_id cb m fs' m' cb' prompt :
  (Z.of_nat (length ops) < 2 ^ 64 - 2)%Z ->
  prompt_run ops (context_builder_set_memory (context_builder_new workspace) true, memory_new_with_config config) = (cb, m) ->
  context_builder_build_with_channel env fs cb m channel chat_id = (fs', m', cb', prompt) ->
  (exists tail, prompt = prompt_head cb ++ memory_md m' ++ prompt_separator ++ tail) /\
  ((fs', m') = (fs, m) \/ exists err, memory_load fs m (cb_workspace cb) = (fs', m', err)).
Proof.
  intros Hn Hrun Hbuild.
  pose proof (prompt_run_ok ops 0 (context_builder_set_memory (context_builder_new workspace) true) (memory_new_with_config config)) as Hok.
  rewrite Hrun in Hok. cbn [fst snd] in Hok. specialize (Hok ltac:(lia)).
  assert (Hok' : cache_ok (0 + Z.of_nat (length ops)) cb m) by (apply Hok; by split).
  unfold context_builder_build_with_channel in Hbuild. rewrite (co_memory _ _ _ Hok') in Hbuild.
  destruct (refresh_memory (be_mtime env) fs cb m) as [[fs1 m1] cb1] eqn:E. apply (refresh_ok (0 + Z.of_nat (length ops))) in E as (H1 & Hc & Hfs); [|lia|done].
  rewrite (co_memory _ _ _ H1), Hc in Hbuild. injection Hbuild as <- <- <- <-. split; [|done]. eexists. by rewrite <- !app_assoc.
Qed.

Definition demo_env : BuildEnv := mkBuildEnv (mkSkillsEnv (fun _ => None) (fun _ => None) (fun _ => false)) (fun _ => Some 5%Z) $"2024-05-01 10:00 (Wednesday)" $"UTC".
Definition demo_prompt_ops : list PromptOp := [PBuild demo_env memory_fs (Some $"cli") (Some $"me"); PAddFact $"likes tea"].
Definition demo_prompt_start : ContextBuilder * Memory := (context_builder_set_memory (context_builder_new $"/w") true, memory_new).

Lemma prompt_memory_current_witness :
  let '(cb, m) := prompt_run demo_prompt_ops demo_prompt_start in
  let '(fs', m', cb', prompt) := context_builder_build_with_channel demo_env memory_fs cb m None None in
  (exists tail, prompt = prompt_head cb ++ memory_md m' ++ prompt_separator ++ tail) /\
  ((fs', m') = (memory_fs, m) \/ exists err, memory_load memory_fs m (cb_workspace cb) = (fs', m', err)).
Proof.
  destruct (prompt_run demo_prompt_ops demo_prompt_start) as [cb m] eqn:E.
  destruct (context_builder_build_with_channel demo_env memory_fs cb m None None) as [[[fs' m'] cb'] prompt] eqn:E2.
  eapply (prompt_memory_current $"/w" None demo_prompt_ops demo_env memory_fs None None cb m fs' m' cb' prompt); [reflexivity|exact E|exact E2].
Defined.

(** The fact of the example is in the prompt. *)
Example demo_prompt_has_fact : is_Some (strstr (memory_md (snd (prompt_run demo_prompt_ops demo_prompt_start))) $"- likes tea").
Proof. vm_compute. by eexists. Qed.

(** Once an active skill was found the skills of the prompt never change,
    whatever happens to their files. *)
Lemma skills_never_refreshed env fs cb : is_Some (cb_cached_skills_content cb) -> is_Some (cb_cached_skills_summary cb) ->
  refresh_skills env fs cb = cb.
Proof. intros [c Hc] [s Hs]. unfold refresh_skills. rewrite Hc, Hs. by destruct (cb_skills_loader cb). Qed.

(** ** The window keeps the latest messages that fit *)

Definition tokens (msgs : list Message) : nat := sum_list_with (fun m => estimate_tokens (m_content m)) msgs.

Lemma session_tokens msgs : Forall (fun m => m_role m <> ROLE_TOOL) msgs -> (Z.of_nat (tokens msgs) < 2 ^ 64)%Z ->
  estimate_session_tokens msgs = Z.of_nat (tokens msgs).
Proof.
  unfold estimate_session_tokens. intros Hr Hb.
  assert (H : forall t, (0 <= t)%Z -> (t + Z.of_nat (tokens msgs) < 2 ^ 64)%Z ->
    fold_left (fun total msg => if bool_decide (m_role msg = ROLE_TOOL) then total else size_t (total + Z.of_nat (estimate_tokens (m_content msg)))) msgs t
      = (t + Z.of_nat (tokens msgs))%Z); [|rewrite H by lia; lia].
  clear Hb. induction msgs as [|m msgs IH]; intros t Ht Hb; [cbn; lia|]. apply Forall_cons in Hr as [Hm Hr].
  cbn [fold_left]. rewrite bool_decide_eq_false_2 by done. change (tokens (m :: msgs)) with (estimate_tokens (m_content m) + tokens msgs) in *.
  unfold size_t. rewrite wrap_u_id by lia. rewrite IH; [lia|done|lia|lia].
Qed.

Lemma slide_correct max msgs : (Z.of_nat (tokens msgs) < 2 ^ 64)%Z ->
  exists k, slide max msgs (Z.of_nat (tokens msgs)) = drop k msgs /\
    ((Z.of_nat (tokens (drop k msgs)) <= max)%Z \/ length (drop k msgs) <= 2) /\
    forall j, j < k -> (max < Z.of_nat (tokens (drop j msgs)))%Z /\ 2 < length (drop j msgs).
Proof.
  induction msgs as [|m msgs IH]; intros Hb.
  - exists 0. split_and!; [done|right; cbn; lia|lia].
  - cbn [slide]. destruct (Nat.ltb 2 (length (m :: msgs)) && (max <? Z.of_nat (tokens (m :: msgs)))%Z) eqn:E.
    + apply andb_prop in E as [E1%Nat.ltb_lt E2%Z.ltb_lt].
      change (tokens (m :: msgs)) with (estimate_tokens (m_content m) + tokens msgs) in *. unfold size_t. rewrite wrap_u_id by lia.
      replace (Z.of_nat (estimate_tokens (m_content m) + tokens msgs) - Z.of_nat (estimate_tokens (m_content m)))%Z with (Z.of_nat (tokens msgs)) by lia.
      destruct IH as (k & -> & Hk & Hj); [lia|]. exists (S k). split_and!; [done|done|]. intros [|j] Hlt; [|apply Hj; lia].
      split; [|done]. by change (tokens (drop 0 (m :: msgs))) with (estimate_tokens (m_content m) + tokens msgs).
    + exists 0. split_and!; [done| |lia]. apply andb_false_iff in E as [E%Nat.ltb_ge|E%Z.ltb_ge]; [by right|by left].
Qed.

(** Without tool results, the sliding window drops the fewest oldest
    messages such that the rest fits or only two messages are left. *)
Theorem sliding_window_correct msgs max_tokens : Forall (fun m => m_role m <> ROLE_TOOL) msgs -> (Z.of_nat (tokens msgs) < 2 ^ 64)%Z -> (0 < max_tokens)%Z ->
  exists k, apply_sliding_window msgs max_tokens = drop k msgs /\
    ((Z.of_nat (tokens (drop k msgs)) <= max_tokens)%Z \/ length (drop k msgs) <= 2) /\
    forall j, j < k -> (max_tokens < Z.of_nat (tokens (drop j msgs)))%Z /\ 2 < length (drop j msgs).
Proof.
  intros Hr Hb Hm. unfold apply_sliding_window. rewrite (proj2 (Z.eqb_neq _ _)) by lia. rewrite session_tokens by done.
  destruct (Z.of_nat (tokens msgs) <=? max_tokens)%Z eqn:E; [|by apply slide_correct].
  apply Z.leb_le in E. exists 0. split_and!; [done|by left|lia].
Qed.

Definition say (role : MessageRole) (text : cstr) : Message := message_new role (Some text).
Definition demo_messages : list Message := [say ROLE_USER $"a first long question"; say ROLE_ASSISTANT $"an answer"; say ROLE_USER $"more"; say ROLE_ASSISTANT $"yes!"].

Lemma sliding_window_correct_witness : exists k, apply_sliding_window demo_messages 4 = drop k demo_messages /\
  ((Z.of_nat (tokens (drop k demo_messages)) <= 4)%Z \/ length (drop k demo_messages) <= 2) /\
  forall j, j < k -> (4 < Z.of_nat (tokens (drop j demo_messages)))%Z /\ 2 < length (drop j demo_messages).
Proof. apply (sliding_window_correct demo_messages 4); [by repeat constructor|by vm_compute|lia]. Defined.

(** A tool result is not counted, but its tokens are subtracted when it is
    dropped: the count wraps around, and all but two messages are dropped
    although three would fit. *)
Definition tool_messages : list Message := say ROLE_TOOL $"a tool result that is longer than all of the other messages together" :: say ROLE_USER $"a first long question" :: skipn 1 demo_messages.
Lemma sliding_window_tool_underflow :
  length (apply_sliding_window tool_messages 8) = 2 /\ (Z.of_nat (tokens (drop 2 tool_messages)) <= 8)%Z /\ length (drop 2 tool_messages) = 3.
Proof. vm_compute. split_and!; done. Qed.
