(* ===== verification/Heartbeat.v ===== *)
(** [src/heartbeat/heartbeat.c]: the worker that looks for tasks in
    HEARTBEAT.md at regular intervals. [W] is the state the two callbacks act
    on; one thread starts and stops the service. *)
From S2P Require Import Prelude CStr Json Fs Session.

Record HeartbeatService (W : Type) := mkHeartbeat {
  hs_workspace : cstr;
  hs_on_execute : option (cstr -> W -> option cstr * W);
  hs_on_notify : option (cstr -> W -> W);
  hs_interval_s : Z;
  hs_enabled : bool;
  hs_running : bool;
}.
Arguments mkHeartbeat {W}.
Arguments hs_workspace {W}.
Arguments hs_on_execute {W}.
Arguments hs_on_notify {W}.
Arguments hs_interval_s {W}.
Arguments hs_enabled {W}.
Arguments hs_running {W}.

Section Heartbeat.
Context {W : Type}.

Definition heartbeat_service_create (workspace : cstr) (on_execute : option (cstr -> W -> option cstr * W)) (on_notify : option (cstr -> W -> W))
    (interval_s : Z) (enabled : bool) : HeartbeatService W :=
  mkHeartbeat workspace on_execute on_notify interval_s enabled false.

Definition set_running (b : bool) (s : HeartbeatService W) : HeartbeatService W :=
  mkHeartbeat (hs_workspace s) (hs_on_execute s) (hs_on_notify s) (hs_interval_s s) (hs_enabled s) b.

(** The bytes before the first NUL; an empty file is as a missing one. *)
Definition read_heartbeat_file (fs : Fs) (workspace : cstr) : option cstr :=
  match fs_read fs (truncate_to FILE_PATH_MAX (workspace ++ $"/HEARTBEAT.md")) with
  | Some [] | None => None
  | Some text => Some (take_while not_nul text)
  end.

Definition strcasestr (s p : cstr) : option nat := strstr (tolower <$> s) (tolower <$> p).

Definition run_keywords : list cstr := [$"pending"; $"todo"; $"task"; $"active"; $"waiting"].
Definition tasks_text : cstr := $"Tasks found in HEARTBEAT.md".

(** 1 with the tasks, or 0. *)
Definition heartbeat_decide (content : cstr) : Z * option cstr :=
  if existsb (fun kw => bool_decide (is_Some (strcasestr content kw))) run_keywords then (1%Z, Some tasks_text) else (0%Z, None).

(** One turn of the worker after its sleep. *)
Definition heartbeat_round (fs : Fs) (s : HeartbeatService W) (w : W) : W :=
  match read_heartbeat_file fs (hs_workspace s) with
  | None => w
  | Some content =>
      match heartbeat_decide content with
      | (decision, tasks) =>
          if (decision <=? 0)%Z then w
          else match hs_on_execute s, tasks with
               | Some execute, Some t =>
                   let '(response, w1) := execute t w in
                   match response, hs_on_notify s with Some r, Some notify => notify r w1 | _, _ => w1 end
               | _, _ => w
               end
      end
  end.

Definition heartbeat_service_trigger_now (fs : Fs) (s : HeartbeatService W) (w : W) : option cstr * W :=
  match read_heartbeat_file fs (hs_workspace s) with
  | None => (None, w)
  | Some content =>
      match heartbeat_decide content with
      | (decision, Some t) =>
          if (decision <=? 0)%Z then (None, w)
          else match hs_on_execute s with Some execute => execute t w | None => (None, w) end
      | (_, None) => (None, w)
      end
  end.

(** ** The thread

    [hb_worker]: when the sleep of the worker ends, if there is one;
    [hb_rounds]: the times of the rounds, the latest first. *)
Record Heartbeat := mkHb { hb_service : HeartbeatService W; hb_worker : option Z; hb_world : W; hb_rounds : list Z }.

(** [sleep] takes an [unsigned]. *)
Definition sleep_s (s : HeartbeatService W) : Z := wrap_u 32 (hs_interval_s s).

Definition heartbeat_service_start (now : Z) (created : bool) (h : Heartbeat) : Heartbeat * bool :=
  let s := hb_service h in
  if negb (hs_enabled s) || hs_running s then (h, false)
  else if created then (mkHb (set_running true s) (Some (now + sleep_s s)%Z) (hb_world h) (hb_rounds h), true)
  else (h, false).

(** The flag; [pthread_join] then waits for the worker to wake up and end. *)
Definition heartbeat_service_stop (h : Heartbeat) : Heartbeat :=
  if hs_running (hb_service h) then mkHb (set_running false (hb_service h)) (hb_worker h) (hb_world h) (hb_rounds h) else h.

(** The worker wakes up at [now]. *)
Definition heartbeat_worker (fs : Fs) (now : Z) (h : Heartbeat) : Heartbeat :=
  let s := hb_service h in
  if hs_running s then mkHb s (Some (now + sleep_s s)%Z) (heartbeat_round fs s (hb_world h)) (now :: hb_rounds h)
  else mkHb s None (hb_world h) (hb_rounds h).

(** The worker wakes up when its sleep has ended; the controlling thread
    starts the service only when no stop waits for the worker. *)
Inductive heartbeat_step : Z * Heartbeat -> Z * Heartbeat -> Prop :=
  | hb_wake fs t now h until : hb_worker h = Some until -> (until <= now)%Z -> (t <= now)%Z ->
      heartbeat_step (t, h) (now, heartbeat_worker fs now h)
  | hb_start t now created h : (t <= now)%Z -> hs_running (hb_service h) = true \/ hb_worker h = None ->
      heartbeat_step (t, h) (now, fst (heartbeat_service_start now created h))
  | hb_stop t h : heartbeat_step (t, h) (t, heartbeat_service_stop h).

(** The rounds are an interval apart, the latest at or before [now]. *)
Inductive paced (d : Z) : list Z -> Prop :=
  | paced_nil : paced d []
  | paced_one t : paced d [t]
  | paced_cons t u l : (u + d <= t)%Z -> paced d (u :: l) -> paced d (t :: u :: l).

Record heartbeat_ok (start : HeartbeatService W) (x : Z * Heartbeat) : Prop := {
  ho_service : exists b, hb_service (snd x) = set_running b start;
  ho_worker : hs_running (hb_service (snd x)) = true -> is_Some (hb_worker (snd x));
  ho_enabled : hs_enabled start = false -> hs_running (hb_service (snd x)) = false /\ hb_rounds (snd x) = [];
  ho_paced : paced (sleep_s start) (hb_rounds (snd x));
  ho_last : forall t l, hb_rounds (snd x) = t :: l -> (t <= fst x)%Z /\ forall until, hb_worker (snd x) = Some until -> (t + sleep_s start <= until)%Z;
}.

(** Time passes. *)
Lemma heartbeat_later start t now h : (t <= now)%Z -> heartbeat_ok start (t, h) -> heartbeat_ok start (now, h).
Proof. intros Ht [H1 H2 H3 H4 H5]. split; cbn [fst snd] in *; try done. intros u l E. destruct (H5 u l E). split; [lia|done]. Qed.

Lemma heartbeat_step_ok start x y : heartbeat_ok start x -> heartbeat_step x y -> heartbeat_ok start y.
Proof.
  intros [[b Hs] Hw He Hp Hl] Hstep. destruct Hstep as [fs t now h until Hu Hun Ht|t now created h Ht Hor|t h]; cbn [fst snd] in *.
  - unfold heartbeat_worker. assert (Hsl : sleep_s (hb_service h) = sleep_s start) by (rewrite Hs; done).
    destruct (hs_running (hb_service h)) eqn:Er; rewrite ?Hsl.
    + split; cbn [fst snd hb_service hb_worker hb_rounds]; [by exists b|by eexists|by intros []%He| |].
      * destruct (hb_rounds h) as [|u l]; [constructor|]. destruct (Hl u l eq_refl) as [_ H]. apply paced_cons; [|done]. specialize (H until Hu). lia.
      * intros u l [= <- <-]. split; [lia|]. intros v [= <-]. lia.
    + split; cbn [fst snd hb_service hb_worker hb_rounds]; [by exists b|by rewrite Er|intros H; rewrite Er; by apply He|done|].
      intros u l E. split; [|done]. destruct (Hl u l E). lia.
  - pose proof (heartbeat_later start t now h Ht (Build_heartbeat_ok start (t, h) (ex_intro _ b Hs) Hw He Hp Hl)) as Hok.
    unfold heartbeat_service_start. destruct (hs_running (hb_service h)) eqn:Er; [by rewrite orb_true_r|].
    destruct Hor as [|Hnone]; [done|]. rewrite orb_false_r. destruct (negb (hs_enabled (hb_service h))) eqn:En; [done|].
    destruct created; [|done]. apply negb_false_iff in En. rewrite Hs in En. cbn [set_running hs_enabled] in En.
    split; cbn [fst snd hb_service hb_worker hb_rounds]; [exists true; by rewrite Hs|by eexists|by rewrite En|done|].
    intros u l E. destruct (Hl u l E) as [H1 _]. split; [lia|]. intros v [= <-]. rewrite Hs. change (sleep_s (set_running b start)) with (sleep_s start). lia.
  - unfold heartbeat_service_stop. destruct (hs_running (hb_service h)) eqn:Er; [|by split; cbn [fst snd]; rewrite ?Er; try done; exists b].
    split; cbn [fst snd hb_service hb_worker hb_rounds hs_running set_running]; [exists false; by rewrite Hs|done| |done|done].
    by intros []%He.
Qed.
End Heartbeat.

(** Under every sequence of starts, stops and wake-ups, the rounds of the
    worker are at least an interval apart, a service that is not enabled never
    runs one, and a running service has its worker. *)
Theorem heartbeat_paced {W} (s : HeartbeatService W) w now t h : hs_running s = false ->
  rtc heartbeat_step (now, mkHb s None w []) (t, h) ->
  paced (sleep_s s) (hb_rounds h) /\ (hs_enabled s = false -> hb_rounds h = []) /\ (hs_running (hb_service h) = true -> is_Some (hb_worker h)).
Proof.
  intros Hs H. apply (rtc_invariant heartbeat_step (heartbeat_ok s) _ _ (heartbeat_step_ok s)) in H.
  - destruct H as [_ Hw He Hp _]. split_and!; [done| |done]. intros E. by apply He.
  - split; cbn [fst snd hb_service hb_worker hb_rounds]; [exists false; by destruct s; cbn in *; subst|by rewrite Hs|done|constructor|done].
Qed.

(** A round calls [on_execute] exactly when the file has text with a keyword,
    whatever its case, and passes a response on. *)
Lemma heartbeat_round_executes {W} fs (s : HeartbeatService W) w execute content : hs_on_execute s = Some execute ->
  read_heartbeat_file fs (hs_workspace s) = Some content ->
  heartbeat_round fs s w =
    if existsb (fun kw => bool_decide (is_Some (strcasestr content kw))) run_keywords then
      let '(response, w1) := execute tasks_text w in
      match response, hs_on_notify s with Some r, Some notify => notify r w1 | _, _ => w1 end
    else w.
Proof.
  intros He Hc. unfold heartbeat_round, heartbeat_decide. rewrite Hc, He. by destruct (existsb _ _).
Qed.

Definition demo_heartbeat : HeartbeatService nat := heartbeat_service_create $"/w" (Some (fun _ n => (None, S n))) None 60 true.
Definition heartbeat_fs : Fs := mkFs {[ $"/w/HEARTBEAT.md" := $"One TODO left" ]} (fun _ => true) (fun _ _ => true).
Definition demo_beats : Heartbeat := heartbeat_worker heartbeat_fs 120 (heartbeat_worker heartbeat_fs 60 (fst (heartbeat_service_start 0 true (mkHb demo_heartbeat None 0 [])))).

Lemma heartbeat_paced_witness : paced (sleep_s demo_heartbeat) (hb_rounds demo_beats) /\ (hs_enabled demo_heartbeat = false -> hb_rounds demo_beats = []) /\
  (hs_running (hb_service demo_beats) = true -> is_Some (hb_worker demo_beats)).
Proof.
  apply (heartbeat_paced demo_heartbeat 0 0 120 demo_beats); [reflexivity|].
  eapply rtc_l; [apply (hb_start 0 0 true); [lia|by right]|].
  eapply rtc_l; [eapply (hb_wake heartbeat_fs 0 60); [reflexivity|vm_compute; discriminate|lia]|].
  eapply rtc_l; [eapply (hb_wake heartbeat_fs 60 120); [reflexivity|vm_compute; discriminate|lia]|]. apply rtc_refl.
Defined.

Example demo_beats_run : hb_world demo_beats = 2 /\ hb_rounds demo_beats = [120; 60]%Z.
Proof. vm_compute. done. Qed.
