(* ===== verification/Orchestrator.v ===== *)
(** [src/agent/session_orchestrator.c]: the list of active tasks, one per
    conversation being processed. Every access is under [task_mutex]. The
    thread of a task and its [tool_calls] array (never set) are left out. *)
From S2P Require Import Prelude CStr Common Message Session.

Inductive SessionState := SESSION_STATE_IDLE | SESSION_STATE_WAITING_LLM | SESSION_STATE_WAITING_TOOL.

#[export] Instance SessionState_eq_dec : EqDecision SessionState.
Proof. solve_decision. Defined.

Record SessionContext := mkContext {
  cx_state : SessionState;
  cx_turn : Z;
  cx_channel : cstr;
  cx_chat_id : cstr;
  cx_latest_user_content : cstr;
  cx_no_session_record : bool;
  cx_session_msg_count_before : nat;
}.

Record ActiveTask := mkTask {
  at_id : cstr;
  at_session_key : cstr;
  at_ctx : SessionContext;
  at_cancelled : bool;
  at_pending_tool_count : Z;
}.

Record SessionOrchestrator := mkOrchestrator {
  so_active_tasks : list ActiveTask;
  so_current_session_key : cstr;
}.

Record TaskSnapshot := mkTaskSnapshot {
  ts_task_id : cstr;
  ts_channel : cstr;
  ts_chat_id : cstr;
  ts_state : SessionState;
  ts_turn : Z;
  ts_pending_tool_count : Z;
  ts_valid : bool;
  ts_cancelled : bool;
  ts_no_session_record : bool;
  ts_session_msg_count_before : nat;
  ts_latest_user_content : cstr;
}.

Definition SESSION_KEY_MAX : nat := 512.

(** The zeroed snapshot. *)
Definition no_task : TaskSnapshot := mkTaskSnapshot [] [] [] SESSION_STATE_IDLE 0 0 false false false 0 [].

Definition session_orchestrator_new : SessionOrchestrator := mkOrchestrator [] [].

Definition with_tasks (o : SessionOrchestrator) (ts : list ActiveTask) : SessionOrchestrator :=
  mkOrchestrator ts (so_current_session_key o).

(** ** The walks over the list *)

Definition has_key (key : cstr) (t : ActiveTask) : bool := str_eq (at_session_key t) key.
Definition has_id (id : cstr) (t : ActiveTask) : bool := str_eq (at_id t) id.

(** Changes the first task that satisfies [p]. *)
Fixpoint update_first (p : ActiveTask -> bool) (f : ActiveTask -> ActiveTask) (ts : list ActiveTask) : list ActiveTask :=
  match ts with
  | [] => []
  | t :: r => if p t then f t :: r else t :: update_first p f r
  end.

Fixpoint remove_first (p : ActiveTask -> bool) (ts : list ActiveTask) : list ActiveTask :=
  match ts with
  | [] => []
  | t :: r => if p t then r else t :: remove_first p r
  end.

Definition session_orchestrator_add_task (alloc_ok : bool) (o : SessionOrchestrator) (task : ActiveTask) : SessionOrchestrator :=
  if alloc_ok then with_tasks o (so_active_tasks o ++ [task]) else o.

Definition session_orchestrator_remove_task (o : SessionOrchestrator) (task_id : cstr) : SessionOrchestrator :=
  with_tasks o (remove_first (has_id task_id) (so_active_tasks o)).

Definition set_cancelled (t : ActiveTask) : ActiveTask :=
  mkTask (at_id t) (at_session_key t) (at_ctx t) true (at_pending_tool_count t).

Definition session_orchestrator_cancel_all_tasks (o : SessionOrchestrator) : SessionOrchestrator :=
  with_tasks o (set_cancelled <$> so_active_tasks o).

Definition session_orchestrator_cancel_tasks_by_session (o : SessionOrchestrator) (session_key : cstr) :
    SessionOrchestrator * nat :=
  let hit t := has_key session_key t && negb (at_cancelled t) in
  (with_tasks o ((fun t => if hit t then set_cancelled t else t) <$> so_active_tasks o),
   length (List.filter hit (so_active_tasks o))).

(** [session_orchestrator_get_task]. *)
Definition session_orchestrator_get_task (o : SessionOrchestrator) (task_id : cstr) : TaskSnapshot :=
  match List.find (has_id task_id) (so_active_tasks o) with
  | None => no_task
  | Some t =>
      let c := at_ctx t in
      {| ts_task_id := truncate_to 32 (at_id t); ts_channel := truncate_to 64 (cx_channel c);
         ts_chat_id := truncate_to 512 (cx_chat_id c); ts_state := cx_state c; ts_turn := cx_turn c;
         ts_pending_tool_count := at_pending_tool_count t; ts_valid := true; ts_cancelled := at_cancelled t;
         ts_no_session_record := cx_no_session_record c;
         ts_session_msg_count_before := cx_session_msg_count_before c;
         ts_latest_user_content := truncate_to 1024 (cx_latest_user_content c) |}
  end.

(** [session_orchestrator_snapshot_task]: the [cancelled] field keeps the zero
    of the initial [memset]. *)
Definition session_orchestrator_snapshot_task (o : SessionOrchestrator) (session_key : cstr) : TaskSnapshot :=
  match List.find (has_key session_key) (so_active_tasks o) with
  | None => no_task
  | Some t =>
      let c := at_ctx t in
      {| ts_task_id := truncate_to 32 (at_id t); ts_channel := truncate_to 64 (cx_channel c);
         ts_chat_id := truncate_to 512 (cx_chat_id c); ts_state := cx_state c; ts_turn := cx_turn c;
         ts_pending_tool_count := at_pending_tool_count t; ts_valid := true; ts_cancelled := false;
         ts_no_session_record := cx_no_session_record c;
         ts_session_msg_count_before := cx_session_msg_count_before c;
         ts_latest_user_content := truncate_to 1024 (cx_latest_user_content c) |}
  end.

Definition session_orchestrator_get_task_by_session := session_orchestrator_snapshot_task.

Definition set_state (st : SessionState) (t : ActiveTask) : ActiveTask :=
  let c := at_ctx t in
  mkTask (at_id t) (at_session_key t)
    (mkContext st (cx_turn c) (cx_channel c) (cx_chat_id c) (cx_latest_user_content c) (cx_no_session_record c)
       (cx_session_msg_count_before c)) (at_cancelled t) (at_pending_tool_count t).
Definition set_pending (n : Z) (t : ActiveTask) : ActiveTask :=
  mkTask (at_id t) (at_session_key t) (at_ctx t) (at_cancelled t) n.
Definition next_turn (t : ActiveTask) : ActiveTask :=
  let c := at_ctx t in
  mkTask (at_id t) (at_session_key t)
    (mkContext (cx_state c) (cx_turn c + 1) (cx_channel c) (cx_chat_id c) (cx_latest_user_content c)
       (cx_no_session_record c) (cx_session_msg_count_before c)) (at_cancelled t) (at_pending_tool_count t).

Definition session_orchestrator_update_task_state (o : SessionOrchestrator) (session_key : cstr) (st : SessionState) : SessionOrchestrator :=
  with_tasks o (update_first (has_key session_key) (set_state st) (so_active_tasks o)).

Definition session_orchestrator_update_task_pending_tools (o : SessionOrchestrator) (session_key : cstr) (count : Z) : SessionOrchestrator :=
  with_tasks o (update_first (has_key session_key) (set_pending count) (so_active_tasks o)).

(** The new state and [remaining], -1 when there is no task. *)
Definition session_orchestrator_decrement_task_pending_tools (o : SessionOrchestrator) (session_key : cstr) : SessionOrchestrator * Z :=
  match List.find (has_key session_key) (so_active_tasks o) with
  | None => (o, (-1)%Z)
  | Some t =>
      let remaining := (at_pending_tool_count t - 1)%Z in
      (with_tasks o (update_first (has_key session_key) (set_pending remaining) (so_active_tasks o)), remaining)
  end.

Definition session_orchestrator_increment_task_turn (o : SessionOrchestrator) (session_key : cstr) : SessionOrchestrator :=
  with_tasks o (update_first (has_key session_key) next_turn (so_active_tasks o)).

Definition session_orchestrator_set_current_session_key (o : SessionOrchestrator) (session_key : cstr) : SessionOrchestrator :=
  mkOrchestrator (so_active_tasks o) (truncate_to SESSION_KEY_MAX session_key).

Definition session_orchestrator_get_current_session_key (o : SessionOrchestrator) : cstr := so_current_session_key o.

(** [session_orchestrator_get_session]. *)
Definition session_orchestrator_get_session (alloc_ok : bool) (now : Z) (mgr : SessionManager) (session_key : cstr) :
    SessionManager * option nat :=
  match session_manager_get mgr session_key with
  | Some id => (mgr, Some id)
  | None => session_manager_create alloc_ok now mgr session_key
  end.

(** The test of the shutdown loop, and the rounds of 10 ms it waits (at most
    50) while the tasks do not change. *)
Definition all_idle (o : SessionOrchestrator) : bool :=
  forallb (fun t => bool_decide (cx_state (at_ctx t) = SESSION_STATE_IDLE) || at_cancelled t) (so_active_tasks o).

Fixpoint wait_rounds (fuel : nat) (o : SessionOrchestrator) : nat :=
  match fuel with
  | 0 => 0
  | S f => if all_idle o then 0 else S (wait_rounds f o)
  end.

(** [session_orchestrator_free]: the rounds waited and the tasks freed. *)
Definition session_orchestrator_free (o : SessionOrchestrator) : nat * list ActiveTask :=
  let o1 := session_orchestrator_cancel_all_tasks o in
  (wait_rounds 50 o1, so_active_tasks o1).

(** ** Facts *)

Lemma find_update_same key f (ts : list ActiveTask) : (forall t, at_session_key (f t) = at_session_key t) ->
  List.find (has_key key) (update_first (has_key key) f ts) = f <$> List.find (has_key key) ts.
Proof.
  intros Hf. induction ts as [|t ts IH]; [done|]. cbn. destruct (has_key key t) eqn:E; cbn.
  - unfold has_key in *. by rewrite Hf, E.
  - by rewrite E, IH.
Qed.

Lemma find_update_other key key' f (ts : list ActiveTask) : key' <> key -> (forall t, at_session_key (f t) = at_session_key t) ->
  List.find (has_key key') (update_first (has_key key) f ts) = List.find (has_key key') ts.
Proof.
  intros Hne Hf. induction ts as [|t ts IH]; [done|]. cbn. destruct (has_key key t) eqn:E; cbn.
  - unfold has_key, str_eq in *. rewrite Hf. apply bool_decide_eq_true in E. rewrite E.
    by rewrite bool_decide_false by congruence.
  - by rewrite IH.
Qed.

Lemma update_first_proj {B} (g : ActiveTask -> B) p f (ts : list ActiveTask) : (forall t, g (f t) = g t) ->
  g <$> update_first p f ts = g <$> ts.
Proof.
  intros Hf. induction ts as [|t ts IH]; [done|]. cbn. destruct (p t); cbn; [by rewrite Hf|].
  by rewrite IH.
Qed.

Lemma update_first_keys f key (ts : list ActiveTask) : (forall t, at_session_key (f t) = at_session_key t) ->
  at_session_key <$> update_first (has_key key) f ts = at_session_key <$> ts.
Proof. apply update_first_proj. Qed.

Lemma update_first_ids f key (ts : list ActiveTask) : (forall t, at_id (f t) = at_id t) ->
  at_id <$> update_first (has_key key) f ts = at_id <$> ts.
Proof. apply update_first_proj. Qed.

Lemma has_key_true key t : has_key key t = true <-> at_session_key t = key.
Proof. unfold has_key, str_eq. apply bool_decide_eq_true. Qed.
Lemma has_id_true id t : has_id id t = true <-> at_id t = id.
Proof. unfold has_id, str_eq. apply bool_decide_eq_true. Qed.

Lemma find_key_None key ts : List.find (has_key key) ts = None <-> key ∉ (at_session_key <$> ts).
Proof.
  induction ts as [|t ts IH]; cbn; [split; [intros _; apply not_elem_of_nil|done]|].
  rewrite not_elem_of_cons, <-IH. destruct (has_key key t) eqn:E.
  - apply has_key_true in E. split; [done|]. intros [? _]. congruence.
  - split; [|by intros [_ ?]]. intros H. split; [|done]. intros ->. unfold has_key, str_eq in E.
    by rewrite bool_decide_true in E by done.
Qed.

Lemma find_key_Some key ts t : List.find (has_key key) ts = Some t -> t ∈ ts /\ at_session_key t = key.
Proof.
  intros [Hin Hk]%List.find_some. split; [by apply list_elem_of_In|by apply has_key_true].
Qed.

Lemma find_key_mem ts t : NoDup (at_session_key <$> ts) -> t ∈ ts -> List.find (has_key (at_session_key t)) ts = Some t.
Proof.
  induction ts as [|u ts IH]; intros Hnd Ht; [by apply elem_of_nil in Ht|].
  cbn in Hnd. apply NoDup_cons in Hnd as [Hu Hnd]. cbn. unfold has_key at 1, str_eq.
  apply elem_of_cons in Ht as [->|Ht]; [by rewrite bool_decide_true|].
  rewrite bool_decide_false; [by apply IH|]. intros E. apply Hu. rewrite E. by apply list_elem_of_fmap_2.
Qed.

(** Cancelling a conversation marks every task of it, and the count it
    reports is the number of tasks it newly marked: asking again reports
    none. *)
Theorem cancel_by_session_marks o key :
  let '(o', n) := session_orchestrator_cancel_tasks_by_session o key in
  Forall (fun t => at_session_key t = key -> at_cancelled t = true) (so_active_tasks o') /\
  at_id <$> so_active_tasks o' = at_id <$> so_active_tasks o /\
  n = length (List.filter (fun t => has_key key t && negb (at_cancelled t)) (so_active_tasks o)) /\
  session_orchestrator_cancel_tasks_by_session o' key = (o', 0).
Proof.
  unfold session_orchestrator_cancel_tasks_by_session, with_tasks. destruct o as [ts cur]. cbn.
  set (hit := fun t => has_key key t && negb (at_cancelled t)).
  set (f := fun t => if hit t then set_cancelled t else t).
  assert (forall t, hit (f t) = false) as Hf.
  { intros t. unfold f, hit. destruct (has_key key t && negb (at_cancelled t)) eqn:E; [|done]. cbn. by rewrite andb_false_r. }
  assert (forall t, f (f t) = f t) as Hff by (intros t; unfold f at 1; by rewrite Hf).
  split_and!.
  - apply Forall_fmap, Forall_forall. intros t _. change (at_session_key (f t) = key -> at_cancelled (f t) = true).
    intros Hk%has_key_true. specialize (Hf t). unfold hit in Hf. rewrite Hk in Hf. by apply negb_false_iff in Hf.
  - induction ts as [|t ts IH]; [done|]. rewrite !fmap_cons. cbn [fmap]. f_equal; [|exact IH].
    unfold f. by case_match.
  - done.
  - f_equal.
    + f_equal. change (f <$> (f <$> ts) = f <$> ts).
      induction ts as [|t ts IH]; [done|]. rewrite !fmap_cons. by rewrite Hff, IH.
    + change (length (List.filter hit (f <$> ts)) = 0).
      induction ts as [|t ts IH]; [done|]. rewrite fmap_cons. cbn [List.filter]. by rewrite Hf.
Qed.

(** But the snapshot the event handlers decide on does not carry the mark:
    cancelling a conversation, or all of them, leaves every snapshot as it
    was, with [cancelled] false. *)
Theorem snapshot_ignores_cancellation o key key' :
  session_orchestrator_snapshot_task (fst (session_orchestrator_cancel_tasks_by_session o key)) key' =
    session_orchestrator_snapshot_task o key' /\
  session_orchestrator_snapshot_task (session_orchestrator_cancel_all_tasks o) key' =
    session_orchestrator_snapshot_task o key' /\
  ts_cancelled (session_orchestrator_snapshot_task o key') = false.
Proof.
  assert (forall f : ActiveTask -> ActiveTask, (forall t, f t = t \/ f t = set_cancelled t) ->
    session_orchestrator_snapshot_task (with_tasks o (f <$> so_active_tasks o)) key' =
    session_orchestrator_snapshot_task o key') as H.
  { intros f Hf. unfold session_orchestrator_snapshot_task. cbn. induction (so_active_tasks o) as [|t ts IH]; [done|].
    cbn. unfold has_key at 1 3. assert (at_session_key (f t) = at_session_key t) as Hk by (by destruct (Hf t) as [-> | ->]).
    rewrite Hk. destruct (str_eq (at_session_key t) key'); [|exact IH].
    by destruct (Hf t) as [-> | ->]. }
  split_and!.
  - apply H. intros t. cbn. case_match; auto.
  - apply H. auto.
  - unfold session_orchestrator_snapshot_task. by case_match.
Qed.

(** Shutting the orchestrator down never waits for a running task: it has
    just cancelled them all, and its test counts a cancelled task as idle. *)
Theorem orchestrator_free_never_waits o :
  fst (session_orchestrator_free o) = 0 /\ at_id <$> snd (session_orchestrator_free o) = at_id <$> so_active_tasks o.
Proof.
  unfold session_orchestrator_free. cbn [fst snd]. split.
  - assert (all_idle (session_orchestrator_cancel_all_tasks o) = true) as H.
    { unfold all_idle. cbn. induction (so_active_tasks o) as [|t ts IH]; [done|]. cbn. by rewrite orb_true_r. }
    cbn [wait_rounds]. by rewrite H.
  - cbn. induction (so_active_tasks o) as [|t ts IH]; [done|]. cbn. by f_equal.
Qed.
