(* ===== verification/AgentCore.v ===== *)
(** [src/agent/agent_loop.c], first part: the state of the agent, the tasks,
    the model calls and the handlers of the two internal events. The handlers
    run on the processing thread, one at a time.

    The queues of the bus are the abstract FIFOs that MessageBus.v shows the
    ring buffers implement. *)
From S2P Require Import Prelude CStr Common Message MessageBus Fs Session Utils Reminder ToolRegistry ToolExecutor ToolContext Orchestrator.

(** The commands of the plugin manager: the built-in handlers, and those of
    loaded plugins by number. *)
Inductive CommandHandler :=
  | cmd_stop_h | cmd_restart_h | cmd_new_h | cmd_help_h | cmd_tools_h | cmd_reload_plugins_h
  | external_command_h (n : nat).

Record CommandPluginDef := mkCommand {
  c_name : cstr;
  c_description : cstr;
  c_handler : CommandHandler;
}.

Record PluginManager := mkPlugins {
  pm_commands : list CommandPluginDef;
  pm_external_dir : cstr;
  pm_plugin_names : list cstr;
}.

(** What the agent needs of the memory, the skills and the plugins: [W] is the state they
    and the tools share. *)
Class AgentEnv (W : Type) := {
  env_has_memory : bool;
  memory_append_history : cstr -> cstr -> W -> Error * W;
  memory_consolidate : cstr -> W -> Error * W;
  env_has_skills : bool;
  skills_loader_load_skill : W -> cstr -> option cstr;
  fmt_time : Z -> cstr;                        (* strftime "%Y-%m-%d %H:%M" *)
  plugin_manager_load_external : PluginManager -> W -> Z * PluginManager * W;
  (* channel, chat, session key, arguments: the responses sent *)
  external_command : nat -> cstr -> cstr -> cstr -> list cstr -> W -> list cstr * W;
}.

(** The integers of [config->agent] the loop reads. *)
Record AgentConfig := mkAgentConfig { cfg_max_tool_iterations : Z; cfg_memory_window : Z }.

(** [ToolAsyncContext]; [AsyncContext] is just its session key. *)
Record ToolAsyncContext := mkToolAsync {
  ta_session_key : cstr;
  ta_tool_call_id : cstr;
  ta_tool_name : cstr;
}.

Definition ERROR_MSG_MAX : nat := 1024.

(** [json_escape_string]; [n] bytes are already written. *)
Fixpoint json_escape (n out_size : nat) (s : cstr) : cstr :=
  match s with
  | [] => []
  | c :: s' =>
      if Nat.ltb (n + 1) out_size then
        if (bool_decide (c = ch_quote) || bool_decide (c = ch_bs)) && Nat.ltb (n + 2) out_size
        then ch_bs :: c :: json_escape (n + 2) out_size s'
        else if bool_decide (c = ch_nl) && Nat.ltb (n + 2) out_size
        then ch_bs :: "n"%char :: json_escape (n + 2) out_size s'
        else if bool_decide (c = ch_cr) || bool_decide (c = ch_tab)
        then " "%char :: json_escape (n + 1) out_size s'
        else c :: json_escape (n + 1) out_size s'
      else []
  end.
Definition json_escape_string (s : cstr) (out_size : nat) : cstr := json_escape 0 out_size s.

Section Agent.
Context {W : Type} `{AgentEnv W}.

Record AgentLoop := mkAgent {
  al_sessions : SessionManager;
  al_fs : Fs;
  al_orch : SessionOrchestrator;
  al_tools : ToolRegistry W ToolContext;
  al_executor : @ToolExecutor ToolContext;
  al_outbound : Fifo.fifo OutboundMessage;
  al_internal : Fifo.fifo InternalEvent;
  al_world : W;
  al_config : option AgentConfig;
  al_has_provider : bool;
  al_llm_calls : list cstr;                 (* sessions the provider was called for *)
  al_tool_ctxs : list ToolAsyncContext;     (* contexts of the submitted tools *)
  al_inbox : list InboundMessage;
  al_workspace_path : cstr;
  al_plugins : PluginManager;
}.

Definition set_sessions (l : AgentLoop) v := mkAgent v (al_fs l) (al_orch l) (al_tools l) (al_executor l) (al_outbound l) (al_internal l) (al_world l) (al_config l) (al_has_provider l) (al_llm_calls l) (al_tool_ctxs l) (al_inbox l) (al_workspace_path l) (al_plugins l).
Definition set_fs (l : AgentLoop) v := mkAgent (al_sessions l) v (al_orch l) (al_tools l) (al_executor l) (al_outbound l) (al_internal l) (al_world l) (al_config l) (al_has_provider l) (al_llm_calls l) (al_tool_ctxs l) (al_inbox l) (al_workspace_path l) (al_plugins l).
Definition set_orch (l : AgentLoop) v := mkAgent (al_sessions l) (al_fs l) v (al_tools l) (al_executor l) (al_outbound l) (al_internal l) (al_world l) (al_config l) (al_has_provider l) (al_llm_calls l) (al_tool_ctxs l) (al_inbox l) (al_workspace_path l) (al_plugins l).
Definition set_tools (l : AgentLoop) v := mkAgent (al_sessions l) (al_fs l) (al_orch l) v (al_executor l) (al_outbound l) (al_internal l) (al_world l) (al_config l) (al_has_provider l) (al_llm_calls l) (al_tool_ctxs l) (al_inbox l) (al_workspace_path l) (al_plugins l).
Definition set_executor (l : AgentLoop) v := mkAgent (al_sessions l) (al_fs l) (al_orch l) (al_tools l) v (al_outbound l) (al_internal l) (al_world l) (al_config l) (al_has_provider l) (al_llm_calls l) (al_tool_ctxs l) (al_inbox l) (al_workspace_path l) (al_plugins l).
Definition set_outbound_q (l : AgentLoop) v := mkAgent (al_sessions l) (al_fs l) (al_orch l) (al_tools l) (al_executor l) v (al_internal l) (al_world l) (al_config l) (al_has_provider l) (al_llm_calls l) (al_tool_ctxs l) (al_inbox l) (al_workspace_path l) (al_plugins l).
Definition set_internal_q (l : AgentLoop) v := mkAgent (al_sessions l) (al_fs l) (al_orch l) (al_tools l) (al_executor l) (al_outbound l) v (al_world l) (al_config l) (al_has_provider l) (al_llm_calls l) (al_tool_ctxs l) (al_inbox l) (al_workspace_path l) (al_plugins l).
Definition set_world (l : AgentLoop) v := mkAgent (al_sessions l) (al_fs l) (al_orch l) (al_tools l) (al_executor l) (al_outbound l) (al_internal l) v (al_config l) (al_has_provider l) (al_llm_calls l) (al_tool_ctxs l) (al_inbox l) (al_workspace_path l) (al_plugins l).
Definition set_llm_calls (l : AgentLoop) v := mkAgent (al_sessions l) (al_fs l) (al_orch l) (al_tools l) (al_executor l) (al_outbound l) (al_internal l) (al_world l) (al_config l) (al_has_provider l) v (al_tool_ctxs l) (al_inbox l) (al_workspace_path l) (al_plugins l).
Definition set_tool_ctxs (l : AgentLoop) v := mkAgent (al_sessions l) (al_fs l) (al_orch l) (al_tools l) (al_executor l) (al_outbound l) (al_internal l) (al_world l) (al_config l) (al_has_provider l) (al_llm_calls l) v (al_inbox l) (al_workspace_path l) (al_plugins l).
Definition set_inbox (l : AgentLoop) v := mkAgent (al_sessions l) (al_fs l) (al_orch l) (al_tools l) (al_executor l) (al_outbound l) (al_internal l) (al_world l) (al_config l) (al_has_provider l) (al_llm_calls l) (al_tool_ctxs l) v (al_workspace_path l) (al_plugins l).
Definition set_plugins (l : AgentLoop) v := mkAgent (al_sessions l) (al_fs l) (al_orch l) (al_tools l) (al_executor l) (al_outbound l) (al_internal l) (al_world l) (al_config l) (al_has_provider l) (al_llm_calls l) (al_tool_ctxs l) (al_inbox l) (al_workspace_path l) v.
Definition set_has_provider (l : AgentLoop) v := mkAgent (al_sessions l) (al_fs l) (al_orch l) (al_tools l) (al_executor l) (al_outbound l) (al_internal l) (al_world l) (al_config l) v (al_llm_calls l) (al_tool_ctxs l) (al_inbox l) (al_workspace_path l) (al_plugins l).

(** ** Sending, and the sessions of the loop *)

Definition send_outbound (l : AgentLoop) (channel chat_id content : cstr) : AgentLoop :=
  set_outbound_q l (fst (Fifo.send (al_outbound l) (outbound_message_new (Some channel) (Some chat_id) (Some content)))).

Definition send_internal (l : AgentLoop) (ev : InternalEvent) : AgentLoop :=
  set_internal_q l (fst (Fifo.send (al_internal l) ev)).

Definition send_error_response (l : AgentLoop) (channel chat_id error_msg : cstr) : AgentLoop :=
  send_outbound l channel chat_id (truncate_to ERROR_MSG_MAX ($"Sorry, I encountered an error: " ++ error_msg)).

(** [session_add_message] through the pointer [sid]. *)
Definition loop_add_message (now : Z) (l : AgentLoop) (sid : nat) (msg : Message) : AgentLoop :=
  match sm_sessions (al_sessions l) !! sid with
  | Some s => set_sessions l (update_session (al_sessions l) sid (session_add_message now s msg))
  | None => l
  end.

Definition loop_save_session (l : AgentLoop) (sid : nat) : AgentLoop :=
  let '(fs', mgr', _) := session_manager_save (al_fs l) (al_sessions l) sid in
  set_sessions (set_fs l fs') mgr'.

Definition session_count (l : AgentLoop) (sid : nat) : nat :=
  match sm_sessions (al_sessions l) !! sid with Some s => length (s_messages s) | None => 0 end.

(** ** Consolidation *)

Definition blank_control (c : ascii) : ascii :=
  if bool_decide (c = ch_nl) || bool_decide (c = ch_cr) || bool_decide (c = ch_tab) then " "%char else c.

Definition latest_excerpt (latest_user_content : cstr) : cstr :=
  match latest_user_content with
  | [] => $"(empty)"
  | _ => blank_control <$> take 220 latest_user_content
  end.

Definition consolidated (s : Session) (last_consolidated : Z) (needs_full_save : bool) : Session :=
  {| s_key := s_key s; s_messages := s_messages s; s_created_at := s_created_at s;
     s_updated_at := s_updated_at s; s_last_consolidated := last_consolidated;
     s_last_saved_count := s_last_saved_count s; s_needs_full_save := needs_full_save;
     s_ref_count := s_ref_count s |}.

Definition maybe_auto_consolidate_memory (now : Z) (l : AgentLoop) (sid : nat) (session_key latest_user_content : cstr) : AgentLoop :=
  if env_has_memory then
    match sm_sessions (al_sessions l) !! sid with
    | None => l
    | Some s0 =>
        let memory_window :=
          match al_config l with
          | Some c => if (0 <? cfg_memory_window c)%Z then cfg_memory_window c else 100%Z
          | None => 100%Z
          end in
        let message_count := Z.of_nat (length (s_messages s0)) in
        let s := if (message_count <? s_last_consolidated s0)%Z
                 then consolidated s0 message_count (s_needs_full_save s0) else s0 in
        let l1 := set_sessions l (update_session (al_sessions l) sid s) in
        let delta := (message_count - s_last_consolidated s)%Z in
        if (delta <? memory_window)%Z then l1
        else
          let history_entry := truncate_to 1024
            ($"[" ++ fmt_time now ++ $"] Auto consolidation for session " ++ session_key ++ $": archived " ++
             fmt_u (Z.to_N delta) ++ $" messages since index " ++ fmt_u (Z.to_N (s_last_consolidated s)) ++
             $". Latest user message: " ++ latest_excerpt latest_user_content) in
          let '(append_err, w1) := memory_append_history (al_workspace_path l) history_entry (al_world l1) in
          let l2 := set_world l1 w1 in
          if is_err append_err then l2
          else
            let '(consolidate_err, w2) := memory_consolidate (al_workspace_path l) w1 in
            let l3 := set_world l2 w2 in
            if is_err consolidate_err then l3
            else loop_save_session
                   (set_sessions l3 (update_session (al_sessions l3) sid (consolidated s message_count true))) sid
    end
  else l.

(** ** The reminder fallback *)

Definition contains (s p : cstr) : bool := bool_decide (is_Some (strstr s p)).

Definition reminder_args (parsed : ReminderParseResult) (channel chat_id : cstr) : cstr :=
  truncate_to 1400
    ($"{" ++ [ch_quote] ++ $"name" ++ [ch_quote] ++ $":" ++ [ch_quote] ++
     json_escape_string (match r_name parsed with [] => $"reminder" | n => n end) 256 ++ [ch_quote] ++ $"," ++
     [ch_quote] ++ $"payload" ++ [ch_quote] ++ $":" ++ [ch_quote] ++ json_escape_string (r_payload parsed) 768 ++
     [ch_quote] ++ $"," ++ [ch_quote] ++ $"schedule" ++ [ch_quote] ++ $":" ++ [ch_quote] ++ $"@in " ++
     fmt_d (r_delay_seconds parsed) ++ [ch_quote] ++ $"," ++ [ch_quote] ++ $"channel" ++ [ch_quote] ++ $":" ++
     [ch_quote] ++ json_escape_string channel 192 ++ [ch_quote] ++ $"," ++ [ch_quote] ++ $"chat_id" ++ [ch_quote] ++
     $":" ++ [ch_quote] ++ json_escape_string chat_id 768 ++ [ch_quote] ++ $"}").

(** The new state, and the confirmation when a reminder was scheduled. *)
Definition maybe_schedule_reminder_fallback (l : AgentLoop) (user_content channel chat_id : cstr) : AgentLoop * option cstr :=
  let parsed := reminder_parse_simple user_content in
  if r_valid parsed then
    match tool_registry_get (al_tools l) (Some $"cron") with
    | Some cron_tool =>
        match t_user_data cron_tool with
        | None => (l, None)
        | Some ud =>
            let '(err, tool_result, w') :=
              t_execute cron_tool (Some ud) (reminder_args parsed channel chat_id) (al_world l) in
            let l' := set_world l w' in
            if is_err err || contains tool_result $"Failed to schedule" then (l', None)
            else (l', Some (truncate_to 256 ($"已设置提醒，" ++ fmt_d (r_delay_seconds parsed) ++ $" 秒后提醒你。")))
        end
    | None => (l, None)
    end
  else (l, None).

(** ** Tasks *)

Definition new_task (task_id session_key : cstr) (msg : InboundMessage) (session_msg_count_before : nat) : ActiveTask :=
  mkTask (truncate_to 32 task_id) (truncate_to SESSION_KEY_MAX session_key)
    (mkContext SESSION_STATE_IDLE 0 (truncate_to 64 (in_channel msg)) (truncate_to 512 (in_chat_id msg))
       (truncate_to 1024 (in_content msg)) (in_no_session_record msg) session_msg_count_before)
    false 0.

Definition add_active_task (l : AgentLoop) (task_id session_key : cstr) (msg : InboundMessage)
    (session_msg_count_before : nat) : AgentLoop :=
  set_orch l (session_orchestrator_add_task true (al_orch l) (new_task task_id session_key msg session_msg_count_before)).

Definition remove_active_task (now : Z) (l : AgentLoop) (task_id : cstr) : AgentLoop :=
  let l1 :=
    match List.find (has_id task_id) (so_active_tasks (al_orch l)) with
    | Some t =>
        let session_key := truncate_to SESSION_KEY_MAX (at_session_key t) in
        if cx_no_session_record (at_ctx t) && negb (bool_decide (session_key = [])) then
          match session_manager_get (al_sessions l) session_key with
          | Some sid =>
              match sm_sessions (al_sessions l) !! sid with
              | Some s => set_sessions l (update_session (al_sessions l) sid
                            (session_rollback_messages now s (cx_session_msg_count_before (at_ctx t))))
              | None => l
              end
          | None => l
          end
        else l
    | None => l
    end in
  set_orch l1 (session_orchestrator_remove_task (al_orch l1) task_id).

(** The tools whose shared context follows the conversation being processed. *)
Definition routed_tools : list cstr :=
  [$"cron"; $"send_message"; $"spawn_subagent"; $"skill"; $"memory"; $"exec"].

Definition set_tool_route (channel chat_id : cstr) (t : Tool W ToolContext) : Tool W ToolContext :=
  match t_user_data t with
  | Some d => mkTool (t_name t) (t_description t) (t_parameters t) (t_execute t)
                (Some (tool_context_set_route d (Some channel) (Some chat_id))) (t_plugin_ref t) (t_user_data_destroy t)
  | None => t
  end.

Definition refresh_one (channel chat_id : cstr) (reg : ToolRegistry W ToolContext) (name : cstr) : ToolRegistry W ToolContext :=
  match tool_registry_find reg name with
  | Some i => mkRegistry (alter (set_tool_route channel chat_id) i (reg_tools reg)) (reg_capacity reg)
  | None => reg
  end.

Definition refresh_tool_routes (l : AgentLoop) (channel chat_id : cstr) : AgentLoop :=
  set_tools l (fold_left (refresh_one channel chat_id) routed_tools (al_tools l)).

(** ** Calling the model *)

(** [handle_llm_callback]; [ctx] is the session key of its [AsyncContext]. *)
Definition handle_llm_callback (l : AgentLoop) (err : Error) (response : option cstr) (calls : option (list ToolCall)) (ctx : cstr) : AgentLoop :=
  send_internal l (internal_event_new_llm_result (Some ctx) err response calls).

(** [trigger_llm_async]: the provider is called, or the callback at once when
    there is none. *)
Definition trigger_llm_async (l : AgentLoop) (session_key : cstr) : AgentLoop :=
  let ctx := truncate_to SESSION_KEY_MAX session_key in
  if al_has_provider l then set_llm_calls l (al_llm_calls l ++ [ctx])
  else handle_llm_callback l (error_new ERR_INVALID_PARAM (Some $"No LLM provider configured")) None None ctx.

(** [tool_executor_callback]. *)
Definition tool_executor_callback (l : AgentLoop) (err : Error) (result : cstr) (ctx : ToolAsyncContext) : AgentLoop :=
  send_internal l (internal_event_new_tool_result (Some (ta_session_key ctx)) (Some (ta_tool_call_id ctx))
                     (Some (ta_tool_name ctx)) (Some result) err).

(** ** The model's answer *)

(** [clean_content] when it is not empty, else the raw answer. *)
Definition answer_text (clean_content : option cstr) (llm_response : cstr) : cstr :=
  match clean_content with Some (c :: t) => c :: t | _ => llm_response end.

Definition handle_llm_text_response (now : Z) (l : AgentLoop) (llm_response : cstr) (sid : nat) (snap : TaskSnapshot)
    (clean_content : option cstr) : AgentLoop :=
  let '(l1, scheduled) :=
    if reminder_should_fallback_schedule (ts_turn snap) (ts_pending_tool_count snap)
    then maybe_schedule_reminder_fallback l (ts_latest_user_content snap) (ts_channel snap) (ts_chat_id snap)
    else (l, None) in
  let assistant_content := match scheduled with Some c => c | None => answer_text clean_content llm_response end in
  let l2 :=
    match assistant_content with
    | [] => l1
    | _ =>
        let l2 := loop_add_message now l1 sid (message_new ROLE_ASSISTANT (Some assistant_content)) in
        if ts_no_session_record snap then l2 else loop_save_session l2 sid
    end in
  remove_active_task now (send_outbound l2 (ts_channel snap) (ts_chat_id snap) assistant_content) (ts_task_id snap).

(** A call of an unknown tool becomes a request to load the skill of that name. *)
Definition rewrite_call (reg : ToolRegistry W ToolContext) (tc : ToolCall) : ToolCall :=
  match tool_registry_get reg (Some (tc_name tc)) with
  | Some _ => tc
  | None =>
      if str_eq (tc_name tc) $"skill" then tc
      else mkToolCall (tc_id tc) $"skill"
             (truncate_to 256 ($"{" ++ [ch_quote] ++ $"action" ++ [ch_quote] ++ $":" ++ [ch_quote] ++ $"load" ++
                [ch_quote] ++ $"," ++ [ch_quote] ++ $"name" ++ [ch_quote] ++ $":" ++ [ch_quote] ++
                truncate_to 128 (tc_name tc) ++ [ch_quote] ++ $"}"))
  end.

(** The private context of a call to a built-in tool. *)
Definition route_context (reg : ToolRegistry W ToolContext) (name channel chat_id : cstr) : option ToolContext :=
  t ← tool_registry_get reg (Some name);
  d ← t_user_data t;
  match t_plugin_ref t with
  | Some _ => None
  | None => tool_context_clone_with_route true d (Some channel) (Some chat_id)
  end.

Definition submit_call (snap : TaskSnapshot) (session_key : cstr) (l : AgentLoop) (tc : ToolCall) : AgentLoop :=
  let tctx := mkToolAsync (truncate_to SESSION_KEY_MAX session_key) (truncate_to 128 (tc_id tc)) (truncate_to 128 (tc_name tc)) in
  let route_ctx := route_context (al_tools l) (tc_name tc) (ts_channel snap) (ts_chat_id snap) in
  let '(ex', _, _) :=
    tool_executor_submit_async_with_user_data true true (al_executor l) (tc_name tc) (Some (tc_arguments tc))
      route_ctx (bool_decide (is_Some route_ctx)) (length (al_tool_ctxs l)) in
  set_tool_ctxs (set_executor l ex') (al_tool_ctxs l ++ [tctx]).

Definition handle_llm_tool_calls (now : Z) (l : AgentLoop) (session_key llm_response : cstr) (tool_calls : list ToolCall)
    (sid : nat) (snap : TaskSnapshot) (clean_content : option cstr) : AgentLoop :=
  let calls := rewrite_call (al_tools l) <$> tool_calls in
  let l1 := match clean_content with
            | Some (c :: t) => send_outbound l (ts_channel snap) (ts_chat_id snap) (c :: t)
            | _ => l
            end in
  let msg := fold_left (fun m tc => message_add_tool_call true m (Some (tc_id tc)) (Some (tc_name tc)) (Some (tc_arguments tc)))
               calls (message_new ROLE_ASSISTANT (Some (match clean_content with Some c => c | None => llm_response end))) in
  let l2 := loop_add_message now l1 sid msg in
  let l3 := if ts_no_session_record snap then l2 else loop_save_session l2 sid in
  let l4 := set_orch l3 (session_orchestrator_update_task_state (al_orch l3) session_key SESSION_STATE_WAITING_TOOL) in
  let l5 := set_orch l4 (session_orchestrator_update_task_pending_tools (al_orch l4) session_key (Z.of_nat (length calls))) in
  let l6 := refresh_tool_routes l5 (ts_channel snap) (ts_chat_id snap) in
  fold_left (submit_call snap session_key) calls l6.

Definition handle_event_llm_result (now : Z) (l : AgentLoop) (session_key : cstr) (llm_error : Error) (llm_response : cstr)
    (tool_calls : list ToolCall) : AgentLoop :=
  let snap := session_orchestrator_snapshot_task (al_orch l) session_key in
  if negb (ts_valid snap) then l
  else if ts_cancelled snap then remove_active_task now l (ts_task_id snap)
  else
    match session_manager_get (al_sessions l) session_key with
    | None => remove_active_task now l (ts_task_id snap)
    | Some sid =>
        if is_err llm_error then
          let full_msg := truncate_to ERROR_MSG_MAX ($"Sorry, I encountered an error: " ++ err_message llm_error) in
          let l1 := loop_add_message now l sid (message_new ROLE_ASSISTANT (Some full_msg)) in
          let l2 := if ts_no_session_record snap then l1 else loop_save_session l1 sid in
          remove_active_task now (send_outbound l2 (ts_channel snap) (ts_chat_id snap) full_msg) (ts_task_id snap)
        else
          let clean_content := strip_think_tags llm_response in
          match tool_calls with
          | [] => handle_llm_text_response now l llm_response sid snap clean_content
          | _ => handle_llm_tool_calls now l session_key llm_response tool_calls sid snap clean_content
          end
    end.

(** ** A tool's result *)

Definition max_turns (l : AgentLoop) : Z :=
  match al_config l with
  | Some c => if (0 <? cfg_max_tool_iterations c)%Z then cfg_max_tool_iterations c else 15%Z
  | None => 15%Z
  end.

Definition too_many_turns : cstr := $"I reached the maximum number of tool call iterations without completing the task.".

Definition handle_event_tool_result (now : Z) (l : AgentLoop) (session_key tool_call_id tool_name tool_result : cstr)
    (tool_error : Error) : AgentLoop :=
  let snap := session_orchestrator_snapshot_task (al_orch l) session_key in
  if negb (ts_valid snap) then l
  else if ts_cancelled snap then
    let '(o', remaining) := session_orchestrator_decrement_task_pending_tools (al_orch l) session_key in
    let l1 := set_orch l o' in
    if (remaining <=? 0)%Z then remove_active_task now l1 (ts_task_id snap) else l1
  else
    match session_manager_get (al_sessions l) session_key with
    | None => remove_active_task now l (ts_task_id snap)
    | Some sid =>
        let result := if is_err tool_error then err_message tool_error else tool_result in
        let tool_msg := {| m_role := ROLE_TOOL; m_content := result; m_timestamp := []; m_tool_calls := [];
                           m_tool_call_id := tool_call_id; m_name := tool_name |} in
        let l1 := loop_add_message now l sid tool_msg in
        let l2 := if ts_no_session_record snap then l1 else loop_save_session l1 sid in
        let '(o', remaining) := session_orchestrator_decrement_task_pending_tools (al_orch l2) session_key in
        let l3 := set_orch l2 o' in
        if (0 <? remaining)%Z then l3
        else if (max_turns l3 <=? ts_turn snap)%Z then
          remove_active_task now (send_error_response l3 (ts_channel snap) (ts_chat_id snap) too_many_turns) (ts_task_id snap)
        else
          let l4 := set_orch l3 (session_orchestrator_increment_task_turn (al_orch l3) session_key) in
          let l5 := set_orch l4 (session_orchestrator_update_task_state (al_orch l4) session_key SESSION_STATE_WAITING_LLM) in
          trigger_llm_async l5 session_key
    end.

(** The worker's dispatch on the event's type. *)
Definition handle_event (now : Z) (l : AgentLoop) (ev : InternalEvent) : AgentLoop :=
  match ev with
  | EVENT_LLM_RESULT key err resp calls => handle_event_llm_result now l key err resp calls
  | EVENT_TOOL_RESULT key id name result err => handle_event_tool_result now l key id name result err
  end.
End Agent.
Arguments AgentLoop : clear implicits.
