(* ===== verification/Config.v ===== *)
(** [src/config/config.c]: the configuration, its file and the environment.
    A [char*] of the configuration is [None] when NULL. A function that may
    use freed memory gives [None] when it does. *)
From S2P Require Import Prelude CStr Json JsonTree Common ToolValidation.

Record AgentConfig := mkAgentConfig {
  ac_provider : option cstr;
  ac_max_tool_iterations : Z;
  ac_memory_window : Z;
  ac_memory_max_tokens : Z;
  ac_memory_consolidation_threshold : num;
}.

(** A temperature that is not finite is [None]. *)
Record ProviderConfig := mkProviderConfig {
  pc_name : option cstr;
  pc_model : option cstr;
  pc_api_key : option cstr;
  pc_api_base : option cstr;
  pc_temperature : option num;
  pc_max_tokens : Z;
  pc_reasoning_effort : option cstr;
}.

Record ExecToolConfig := mkExecConfig { xc_timeout : Z; xc_restrict_to_workspace : bool; xc_path_append : option cstr }.
Record ToolsConfig := mkToolsConfig { tc_exec : ExecToolConfig; tc_restrict_to_workspace : bool }.

Record DNSConfig := mkDNS {
  dns_4 : option cstr; dns_6 : option cstr; dns_4_url : option cstr; dns_6_url : option cstr;
  dns_timeout_ms : Z; dns_use_system_resolver : bool;
}.

Record HeartbeatConfig := mkHeartbeatConfig { hb_enabled : bool; hb_interval_s : Z }.
Record LogConfig := mkLogConfig { lg_level : option cstr; lg_console_output : bool }.
Record PluginConfig := mkPluginConfig { pg_id : option cstr; pg_enabled : bool; pg_config : option json }.

Record Config := mkConfig {
  cf_agent : AgentConfig;
  cf_providers : list ProviderConfig;
  cf_providers_capacity : nat;
  cf_tools : ToolsConfig;
  cf_dns : DNSConfig;
  cf_heartbeat : HeartbeatConfig;
  cf_log : LogConfig;
  cf_plugins : list PluginConfig;
  cf_plugins_capacity : nat;
}.

Definition set_agent (a : AgentConfig) (c : Config) : Config :=
  mkConfig a (cf_providers c) (cf_providers_capacity c) (cf_tools c) (cf_dns c) (cf_heartbeat c) (cf_log c) (cf_plugins c) (cf_plugins_capacity c).
Definition set_providers (l : list ProviderConfig) (n : nat) (c : Config) : Config :=
  mkConfig (cf_agent c) l n (cf_tools c) (cf_dns c) (cf_heartbeat c) (cf_log c) (cf_plugins c) (cf_plugins_capacity c).
Definition set_tools (t : ToolsConfig) (c : Config) : Config :=
  mkConfig (cf_agent c) (cf_providers c) (cf_providers_capacity c) t (cf_dns c) (cf_heartbeat c) (cf_log c) (cf_plugins c) (cf_plugins_capacity c).
Definition set_dns (d : DNSConfig) (c : Config) : Config :=
  mkConfig (cf_agent c) (cf_providers c) (cf_providers_capacity c) (cf_tools c) d (cf_heartbeat c) (cf_log c) (cf_plugins c) (cf_plugins_capacity c).
Definition set_heartbeat (h : HeartbeatConfig) (c : Config) : Config :=
  mkConfig (cf_agent c) (cf_providers c) (cf_providers_capacity c) (cf_tools c) (cf_dns c) h (cf_log c) (cf_plugins c) (cf_plugins_capacity c).
Definition set_log (l : LogConfig) (c : Config) : Config :=
  mkConfig (cf_agent c) (cf_providers c) (cf_providers_capacity c) (cf_tools c) (cf_dns c) (cf_heartbeat c) l (cf_plugins c) (cf_plugins_capacity c).
Definition set_plugins (l : list PluginConfig) (n : nat) (c : Config) : Config :=
  mkConfig (cf_agent c) (cf_providers c) (cf_providers_capacity c) (cf_tools c) (cf_dns c) (cf_heartbeat c) (cf_log c) l n.

(** ** Providers and plugins by name *)

Definition named {A} (name_of : A -> option cstr) (name : cstr) (x : A) : bool :=
  match name_of x with Some n => str_eq n name | None => false end.

(** The index of the first one. *)
Fixpoint index_of {A} (p : A -> bool) (l : list A) : option nat :=
  match l with [] => None | x :: r => if p x then Some 0 else S <$> index_of p r end.

Definition config_get_provider (c : Config) (name : option cstr) : option nat :=
  n ← name; index_of (named pc_name n) (cf_providers c).

Definition config_get_active_provider (c : Config) : option ProviderConfig :=
  i ← config_get_provider c (ac_provider (cf_agent c)); cf_providers c !! i.

Definition config_get_plugin_config (c : Config) (id : option cstr) : option nat :=
  n ← id; index_of (named pg_id n) (cf_plugins c).

Section Alloc.
(** Whether an array of so many elements can be allocated. *)
Context (realloc_ok : nat -> bool).

(** The capacity after room for one more was made, if it could be. *)
Definition with_room (count capacity : nat) : option nat :=
  if Nat.leb capacity count then
    let new_capacity := if Nat.eqb capacity 0 then 4 else capacity * 2 in
    if realloc_ok new_capacity then Some new_capacity else None
  else Some capacity.

Definition new_provider (name : cstr) : ProviderConfig :=
  mkProviderConfig (Some name) (Some []) (Some []) (Some []) (Some (mkNum 1 (-1))) 4096 (Some $"medium").

(** The configuration, and the index of the provider if it could be added. *)
Definition config_add_provider (c : Config) (name : cstr) : Config * option nat :=
  match config_get_provider c (Some name) with
  | Some i => (c, Some i)
  | None =>
      match with_room (length (cf_providers c)) (cf_providers_capacity c) with
      | None => (c, None)
      | Some cap => (set_providers (cf_providers c ++ [new_provider name]) cap c, Some (length (cf_providers c)))
      end
  end.

Definition config_add_plugin_config (c : Config) (id : cstr) : Config * option nat :=
  match config_get_plugin_config c (Some id) with
  | Some i => (c, Some i)
  | None =>
      match with_room (length (cf_plugins c)) (cf_plugins_capacity c) with
      | None => (c, None)
      | Some cap => (set_plugins (cf_plugins c ++ [mkPluginConfig (Some id) false None]) cap c, Some (length (cf_plugins c)))
      end
  end.

Definition set_model (v : option cstr) (p : ProviderConfig) : ProviderConfig :=
  mkProviderConfig (pc_name p) v (pc_api_key p) (pc_api_base p) (pc_temperature p) (pc_max_tokens p) (pc_reasoning_effort p).
Definition set_api_key (v : option cstr) (p : ProviderConfig) : ProviderConfig :=
  mkProviderConfig (pc_name p) (pc_model p) v (pc_api_base p) (pc_temperature p) (pc_max_tokens p) (pc_reasoning_effort p).
Definition set_api_base (v : option cstr) (p : ProviderConfig) : ProviderConfig :=
  mkProviderConfig (pc_name p) (pc_model p) (pc_api_key p) v (pc_temperature p) (pc_max_tokens p) (pc_reasoning_effort p).
Definition set_temperature (v : option num) (p : ProviderConfig) : ProviderConfig :=
  mkProviderConfig (pc_name p) (pc_model p) (pc_api_key p) (pc_api_base p) v (pc_max_tokens p) (pc_reasoning_effort p).
Definition set_max_tokens (v : Z) (p : ProviderConfig) : ProviderConfig :=
  mkProviderConfig (pc_name p) (pc_model p) (pc_api_key p) (pc_api_base p) (pc_temperature p) v (pc_reasoning_effort p).
Definition set_reasoning_effort (v : option cstr) (p : ProviderConfig) : ProviderConfig :=
  mkProviderConfig (pc_name p) (pc_model p) (pc_api_key p) (pc_api_base p) (pc_temperature p) (pc_max_tokens p) v.

Definition config_create : Config :=
  let c0 := mkConfig (mkAgentConfig (Some $"openai") 15 100 4000 (mkNum 8 (-1))) [] 0
              (mkToolsConfig (mkExecConfig 300 true (Some [])) true)
              (mkDNS (Some $"8.8.8.8") (Some $"2001:4860:4860::8888") (Some $"udp://8.8.8.8:53") (Some $"udp://2001:4860:4860::8888:53") 5000 false)
              (mkHeartbeatConfig true 300) (mkLogConfig (Some $"INFO") false) [] 0 in
  match config_add_provider c0 $"openai" with
  | (c1, Some i) =>
      set_providers (alter (fun p => set_api_base (Some $"https://api.openai.com/v1") (set_model (Some $"gpt-4") p)) i (cf_providers c1))
        (cf_providers_capacity c1) c1
  | (c1, None) => c1
  end.
End Alloc.

(** ** Reading JSON values *)

Definition get_json_string (item : json) (default_val : cstr) : cstr := default default_val (is_string (Some item)).
Definition get_json_int (item : json) (default_val : Z) : Z :=
  match is_number (Some item) with Some n => valueint n | None => default_val end.
Definition get_json_double {A} (item : json) (of_num : num -> A) (default_val : A) : A :=
  match is_number (Some item) with Some n => of_num n | None => default_val end.
Definition get_json_bool (item : json) (default_val : bool) : bool := default default_val (is_bool (Some item)).

(** [if ((item = cJSON_GetObjectItem(obj, name))) ...]. *)
Definition if_item {A} (obj : json) (name : cstr) (f : json -> A -> A) (x : A) : A :=
  match get_object_item (Some obj) name with Some item => f item x | None => x end.

(** The same for a field that is freed before [get_json_string] is given it
    as the default: only a string item does not use it. *)
Definition if_string {A} (obj : json) (name : cstr) (f : cstr -> A -> A) (x : A) : option A :=
  match get_object_item (Some obj) name with
  | Some item => match is_string (Some item) with Some s => Some (f s x) | None => None end
  | None => Some x
  end.

Definition load_agent (j : json) (a : AgentConfig) : AgentConfig :=
  let a1 := if_item j $"provider" (fun i a => mkAgentConfig (Some (get_json_string i $"openai")) (ac_max_tool_iterations a) (ac_memory_window a) (ac_memory_max_tokens a) (ac_memory_consolidation_threshold a)) a in
  let a2 := if_item j $"max_tool_iterations" (fun i a => mkAgentConfig (ac_provider a) (get_json_int i 15) (ac_memory_window a) (ac_memory_max_tokens a) (ac_memory_consolidation_threshold a)) a1 in
  let a3 := if_item j $"memory_window" (fun i a => mkAgentConfig (ac_provider a) (ac_max_tool_iterations a) (get_json_int i 100) (ac_memory_max_tokens a) (ac_memory_consolidation_threshold a)) a2 in
  let a4 := if_item j $"memory_max_tokens" (fun i a => mkAgentConfig (ac_provider a) (ac_max_tool_iterations a) (ac_memory_window a) (get_json_int i 4000) (ac_memory_consolidation_threshold a)) a3 in
  if_item j $"memory_consolidation_threshold" (fun i a => mkAgentConfig (ac_provider a) (ac_max_tool_iterations a) (ac_memory_window a) (ac_memory_max_tokens a) (get_json_double i id (mkNum 8 (-1)))) a4.

(** The fields of a provider, in its entry or, in old files, in [agent]. *)
Definition load_provider (j : json) (p : ProviderConfig) : option ProviderConfig :=
  p1 ← if_string j $"model" (fun s => set_model (Some s)) p;
  p2 ← if_string j $"apiKey" (fun s => set_api_key (Some s)) p1;
  p3 ← if_string j $"apiBase" (fun s => set_api_base (Some s)) p2;
  let p4 := if_item j $"temperature" (fun i p => set_temperature (get_json_double i Some (pc_temperature p)) p) p3 in
  let p5 := if_item j $"max_tokens" (fun i p => set_max_tokens (get_json_int i (pc_max_tokens p)) p) p4 in
  if_string j $"reasoning_effort" (fun s => set_reasoning_effort (Some s)) p5.

Definition legacy_names : list cstr := [$"model"; $"apiKey"; $"apiBase"; $"temperature"; $"max_tokens"; $"reasoning_effort"].
Definition has_item (obj : json) (name : cstr) : bool := bool_decide (is_Some (get_object_item (Some obj) name)).

Section Load.
Context (realloc_ok : nat -> bool).

Definition update_provider (c : Config) (i : nat) (f : ProviderConfig -> option ProviderConfig) : option Config :=
  match cf_providers c !! i with
  | Some p => p' ← f p; Some (set_providers (<[i := p']> (cf_providers c)) (cf_providers_capacity c) c)
  | None => Some c
  end.

(** The provider is found or added, then changed; nothing if it cannot be added. *)
Definition with_provider (c : Config) (name : cstr) (f : ProviderConfig -> option ProviderConfig) : option Config :=
  match config_add_provider realloc_ok c name with
  | (c1, Some i) => update_provider c1 i f
  | (c1, None) => Some c1
  end.

Definition load_provider_entry (c : Config) (entry : json) : option Config :=
  match is_object (Some entry), is_string (get_object_item (Some entry) $"name") with
  | Some _, Some name => with_provider c name (load_provider entry)
  | _, _ => Some c
  end.

Fixpoint load_providers (c : Config) (l : list json) : option Config :=
  match l with [] => Some c | e :: r => c' ← load_provider_entry c e; load_providers c' r end.

Definition load_tools (j : json) (t : ToolsConfig) : ToolsConfig :=
  let t1 := if_item j $"restrictToWorkspace" (fun i t => mkToolsConfig (tc_exec t) (get_json_bool i true)) t in
  if_item j $"exec" (fun e t =>
    let x1 := if_item e $"timeout" (fun i x => mkExecConfig (get_json_int i 300) (xc_restrict_to_workspace x) (xc_path_append x)) (tc_exec t) in
    let x2 := if_item e $"restrictToWorkspace" (fun i x => mkExecConfig (xc_timeout x) (get_json_bool i true) (xc_path_append x)) x1 in
    let x3 := if_item e $"pathAppend" (fun i x => mkExecConfig (xc_timeout x) (xc_restrict_to_workspace x) (Some (get_json_string i []))) x2 in
    mkToolsConfig x3 (tc_restrict_to_workspace t)) t1.

Definition nonempty_text (o : option cstr) : option cstr := match o with Some [] => None | o => o end.

Definition load_dns (j : json) (d : DNSConfig) : DNSConfig :=
  let d1 := if_item j $"dns4" (fun i d => mkDNS (nonempty_text (is_string (Some i))) (dns_6 d) (dns_4_url d) (dns_6_url d) (dns_timeout_ms d) (dns_use_system_resolver d)) d in
  let d2 := if_item j $"dns6" (fun i d => mkDNS (dns_4 d) (nonempty_text (is_string (Some i))) (dns_4_url d) (dns_6_url d) (dns_timeout_ms d) (dns_use_system_resolver d)) d1 in
  let d3 := if_item j $"dnsTimeoutMs" (fun i d => mkDNS (dns_4 d) (dns_6 d) (dns_4_url d) (dns_6_url d) (Z.max 0 (get_json_int i 0)) (dns_use_system_resolver d)) d2 in
  if_item j $"useSystemResolver" (fun i d => mkDNS (dns_4 d) (dns_6 d) (dns_4_url d) (dns_6_url d) (dns_timeout_ms d) (get_json_bool i false)) d3.

Definition dns_url (server : option cstr) : option cstr := s ← nonempty_text server; Some ($"udp://" ++ s ++ $":53").
Definition dns_urls (d : DNSConfig) : DNSConfig :=
  mkDNS (dns_4 d) (dns_6 d) (dns_url (dns_4 d)) (dns_url (dns_6 d)) (dns_timeout_ms d) (dns_use_system_resolver d).

Definition load_heartbeat (j : json) (h : HeartbeatConfig) : HeartbeatConfig :=
  let h1 := if_item j $"enabled" (fun i h => mkHeartbeatConfig (get_json_bool i true) (hb_interval_s h)) h in
  if_item j $"interval_s" (fun i h => mkHeartbeatConfig (hb_enabled h) (get_json_int i 300)) h1.

Definition load_log (j : json) (l : LogConfig) : LogConfig :=
  let l1 := if_item j $"level" (fun i l => mkLogConfig (Some (get_json_string i $"INFO")) (lg_console_output l)) l in
  if_item j $"consoleOutput" (fun i l => mkLogConfig (lg_level l) (get_json_bool i true)) l1.

Definition load_plugin_entry (c : Config) (entry : json) : Config :=
  match is_string (get_object_item (Some entry) $"plugin_id"), get_object_item (Some entry) $"config" with
  | Some id, Some (JObj kvs) =>
      match config_add_plugin_config realloc_ok c id with
      | (c1, Some i) =>
          let enabled := default false (is_bool (get_object_item (Some entry) $"enabled")) in
          set_plugins (alter (fun p => mkPluginConfig (pg_id p) enabled
                                (match cJSON_Duplicate (JObj kvs) with Some j => Some j | None => pg_config p end)) i (cf_plugins c1))
            (cf_plugins_capacity c1) c1
      | (c1, None) => c1
      end
  | _, _ => c
  end.

(** ** The environment *)

(** [atof]; a value that is not finite is [None]. *)
Definition atof (s : cstr) : option num := fst (strtod_any s).

Definition on_env {A} (env : cstr -> option cstr) (key : cstr) (f : cstr -> A -> A) (x : A) : A :=
  match env key with Some v => f v x | None => x end.

Definition env_bool (v : cstr) : bool := str_eq v $"true" || str_eq v $"yes" || str_eq v $"1".

(** The variables of a provider: [key] gives their names. *)
Definition provider_env (env : cstr -> option cstr) (key : cstr -> cstr) (p : ProviderConfig) : ProviderConfig :=
  on_env env (key $"REASONING_EFFORT") (fun v => set_reasoning_effort (Some v))
  (on_env env (key $"MAX_TOKENS") (fun v => set_max_tokens (atoi v))
  (on_env env (key $"TEMPERATURE") (fun v => set_temperature (atof v))
  (on_env env (key $"API_BASE") (fun v => set_api_base (Some v))
  (on_env env (key $"API_KEY") (fun v => set_api_key (Some v))
  (on_env env (key $"MODEL") (fun v => set_model (Some v)) p))))).

Definition provider_key (name : option cstr) (field : cstr) : cstr :=
  truncate_to 256 ($"PRIMAGEN_PROVIDER_" ++ default $"(null)" name ++ $"_" ++ field).
Definition legacy_key (field : cstr) : cstr := $"PRIMAGEN_AGENT_" ++ field.
Definition legacy_fields : list cstr := [$"MODEL"; $"API_KEY"; $"API_BASE"; $"TEMPERATURE"; $"MAX_TOKENS"; $"REASONING_EFFORT"].

(** [cJSON_DeleteItemFromObject]. *)
Fixpoint remove_member (name : cstr) (kvs : list (cstr * json)) : list (cstr * json) :=
  match kvs with [] => [] | (k, v) :: r => if strcasecmp_eq name k then r else (k, v) :: remove_member name r end.
Definition delete_item (name : cstr) (j : json) : json :=
  match j with JObj kvs => JObj (remove_member name kvs) | j => j end.
Definition add_item (name : cstr) (v j : json) : json := match j with JObj kvs => JObj (kvs ++ [(name, v)]) | j => j end.

(** A member of the configuration of web_tools, when it has one. *)
Definition web_tools_env (env : cstr -> option cstr) (key member : cstr) (c : Config) : Config :=
  match env key, config_get_plugin_config c (Some $"web_tools") with
  | Some v, Some i =>
      set_plugins (alter (fun p => mkPluginConfig (pg_id p) (pg_enabled p)
                             ((fun j => add_item member (JStr v) (delete_item member j)) <$> pg_config p)) i (cf_plugins c))
        (cf_plugins_capacity c) c
  | _, _ => c
  end.

Definition config_load_from_env (env : cstr -> option cstr) (c : Config) : Config :=
  let a1 := on_env env $"PRIMAGEN_AGENT_PROVIDER" (fun v a => mkAgentConfig (Some v) (ac_max_tool_iterations a) (ac_memory_window a) (ac_memory_max_tokens a) (ac_memory_consolidation_threshold a)) (cf_agent c) in
  let a2 := on_env env $"PRIMAGEN_AGENT_MAX_TOOL_ITERATIONS" (fun v a => mkAgentConfig (ac_provider a) (atoi v) (ac_memory_window a) (ac_memory_max_tokens a) (ac_memory_consolidation_threshold a)) a1 in
  let a3 := on_env env $"PRIMAGEN_AGENT_MEMORY_WINDOW" (fun v a => mkAgentConfig (ac_provider a) (ac_max_tool_iterations a) (atoi v) (ac_memory_max_tokens a) (ac_memory_consolidation_threshold a)) a2 in
  let c1 := set_agent a3 c in
  let c2 := set_providers ((fun p => provider_env env (provider_key (pc_name p)) p) <$> cf_providers c1) (cf_providers_capacity c1) c1 in
  let c3 :=
    if existsb (fun f => bool_decide (is_Some (env (legacy_key f)))) legacy_fields then
      match config_add_provider realloc_ok c2 $"openai" with
      | (c', Some i) => set_providers (alter (provider_env env legacy_key) i (cf_providers c')) (cf_providers_capacity c') c'
      | (c', None) => c'
      end
    else c2 in
  let t1 := on_env env $"PRIMAGEN_TOOLS_RESTRICT_TO_WORKSPACE" (fun v t => mkToolsConfig (tc_exec t) (env_bool v)) (cf_tools c3) in
  let t2 := on_env env $"PRIMAGEN_TOOLS_EXEC_TIMEOUT" (fun v t => mkToolsConfig (mkExecConfig (atoi v) (xc_restrict_to_workspace (tc_exec t)) (xc_path_append (tc_exec t))) (tc_restrict_to_workspace t)) t1 in
  let t3 := on_env env $"PRIMAGEN_TOOLS_EXEC_RESTRICT_TO_WORKSPACE" (fun v t => mkToolsConfig (mkExecConfig (xc_timeout (tc_exec t)) (env_bool v) (xc_path_append (tc_exec t))) (tc_restrict_to_workspace t)) t2 in
  let t4 := on_env env $"PRIMAGEN_TOOLS_EXEC_PATH_APPEND" (fun v t => mkToolsConfig (mkExecConfig (xc_timeout (tc_exec t)) (xc_restrict_to_workspace (tc_exec t)) (Some v)) (tc_restrict_to_workspace t)) t3 in
  let d1 := on_env env $"PRIMAGEN_DNS_USE_SYSTEM_RESOLVER" (fun v d => mkDNS (dns_4 d) (dns_6 d) (dns_4_url d) (dns_6_url d) (dns_timeout_ms d) (env_bool v)) (cf_dns c3) in
  let c4 := web_tools_env env $"PRIMAGEN_TOOLS_WEB_SEARCH_API_KEY" $"search_api_key"
              (web_tools_env env $"PRIMAGEN_TOOLS_WEB_PROXY" $"proxy" (set_dns d1 (set_tools t4 c3))) in
  let h1 := on_env env $"PRIMAGEN_HEARTBEAT_ENABLED" (fun v h => mkHeartbeatConfig (env_bool v) (hb_interval_s h)) (cf_heartbeat c4) in
  let h2 := on_env env $"PRIMAGEN_HEARTBEAT_INTERVAL_S" (fun v h => mkHeartbeatConfig (hb_enabled h) (atoi v)) h1 in
  let l1 := on_env env $"PRIMAGEN_LOG_LEVEL" (fun v l => mkLogConfig (Some v) (lg_console_output l)) (cf_log c4) in
  let l2 := on_env env $"PRIMAGEN_LOG_CONSOLE_OUTPUT" (fun v l => mkLogConfig (lg_level l) (env_bool v)) l1 in
  set_log l2 (set_heartbeat h2 c4).

(** ** The file *)

(** A section of the file, if it is there. *)
Definition on_section (root : json) (name : cstr) (f : json -> Config -> option Config) (c : Config) : option Config :=
  match get_object_item (Some root) name with Some j => f j c | None => Some c end.

Definition load_agent_section (j : json) (c : Config) : option Config :=
  let c1 := set_agent (load_agent j (cf_agent c)) c in
  if existsb (has_item j) legacy_names then with_provider c1 $"openai" (load_provider j) else Some c1.

Definition load_json (root : json) (env : cstr -> option cstr) (c : Config) : option Config :=
  c1 ← on_section root $"agent" load_agent_section c;
  c2 ← load_providers c1 (default [] (is_array (get_object_item (Some root) $"providers")));
  c3 ← on_section root $"tools" (fun j c => Some (set_tools (load_tools j (cf_tools c)) c)) c2;
  c4 ← on_section root $"dns" (fun j c => Some (set_dns (load_dns j (cf_dns c)) c)) c3;
  let c5 := set_dns (dns_urls (cf_dns c4)) c4 in
  c6 ← on_section root $"heartbeat" (fun j c => Some (set_heartbeat (load_heartbeat j (cf_heartbeat c)) c)) c5;
  c7 ← on_section root $"log" (fun j c => Some (set_log (load_log j (cf_log c)) c)) c6;
  let c8 := fold_left load_plugin_entry (default [] (is_array (get_object_item (Some root) $"plugins"))) c7 in
  Some (config_load_from_env env c8).

(** [data]: the bytes of the file, if it can be opened. *)
Definition config_load_from_file (data : option cstr) (env : cstr -> option cstr) (c : Config) : option (Config * bool) :=
  match data with
  | None => Some (c, true)
  | Some bytes =>
      match cJSON_Parse (take_while not_nul bytes) with
      | None => Some (c, false)
      | Some root => c' ← load_json root env c; Some (c', true)
      end
  end.

Definition config_validate (c : Config) : Error :=
  let invalid s := error_new ERR_INVALID_PARAM (Some s) in
  match nonempty_text (ac_provider (cf_agent c)) with
  | None => invalid $"agent.provider must not be empty"
  | Some provider =>
      match config_get_active_provider c with
      | None => invalid (truncate_to 128 ($"provider config not found for: " ++ provider))
      | Some pc =>
          match nonempty_text (pc_model pc) with
          | None => invalid (truncate_to 128 ($"provider " ++ provider ++ $": model must not be empty"))
          | Some _ =>
              if (xc_timeout (tc_exec (cf_tools c)) <=? 0)%Z then invalid $"tool.timeout must be greater than 0"
              else match nonempty_text (lg_level (cf_log c)) with
                   | None => invalid $"log.level must not be empty"
                   | Some _ => err_ok
                   end
          end
      end
  end.
End Load.

(** ** Saving *)

(** [cJSON_AddStringToObject]: nothing is added for NULL. *)
Definition add_str (name : cstr) (o : option cstr) : list (cstr * json) := match o with Some s => [(name, JStr s)] | None => [] end.
Definition add_int (name : cstr) (z : Z) : list (cstr * json) := [(name, JNum (num_of_Z z))].
Definition add_bool (name : cstr) (b : bool) : list (cstr * json) := [(name, JBool b)].
(** A number that is not finite is printed as null. *)
Definition add_num (name : cstr) (n : option num) : list (cstr * json) := [(name, match n with Some n => JNum n | None => JNull end)].

Definition provider_json (p : ProviderConfig) : json :=
  JObj (add_str $"name" (pc_name p) ++ add_str $"model" (pc_model p) ++
        add_str $"apiKey" (Some (match nonempty_text (pc_api_key p) with Some _ => $"***REDACTED***" | None => [] end)) ++
        add_str $"apiBase" (pc_api_base p) ++ add_num $"temperature" (pc_temperature p) ++
        add_int $"max_tokens" (pc_max_tokens p) ++ add_str $"reasoning_effort" (pc_reasoning_effort p)).

(** The entry of a plugin that has an id. *)
Definition plugin_json (p : PluginConfig) : option json :=
  id ← pg_id p;
  Some (JObj (add_str $"plugin_id" (Some id) ++ add_bool $"enabled" (pg_enabled p) ++
              match (j ← pg_config p; cJSON_Duplicate j) with Some j => [($"config", delete_item $"enabled" j)] | None => [] end)).

Definition agent_json (a : AgentConfig) : json :=
  JObj (add_str $"provider" (ac_provider a) ++ add_int $"max_tool_iterations" (ac_max_tool_iterations a) ++
        add_int $"memory_window" (ac_memory_window a) ++ add_int $"memory_max_tokens" (ac_memory_max_tokens a) ++
        add_num $"memory_consolidation_threshold" (Some (ac_memory_consolidation_threshold a))).
Definition tools_json (t : ToolsConfig) : json :=
  JObj (add_bool $"restrictToWorkspace" (tc_restrict_to_workspace t) ++
        [($"exec", JObj (add_int $"timeout" (xc_timeout (tc_exec t)) ++ add_bool $"restrictToWorkspace" (xc_restrict_to_workspace (tc_exec t)) ++
                         add_str $"pathAppend" (xc_path_append (tc_exec t))))]).
Definition dns_members (d : DNSConfig) : list (cstr * json) :=
  add_str $"dns4" (nonempty_text (dns_4 d)) ++ add_str $"dns6" (nonempty_text (dns_6 d)) ++
  (if (0 <? dns_timeout_ms d)%Z then add_int $"dnsTimeoutMs" (dns_timeout_ms d) else []) ++
  (if dns_use_system_resolver d then add_bool $"useSystemResolver" true else []).
Definition heartbeat_json (h : HeartbeatConfig) : json := JObj (add_bool $"enabled" (hb_enabled h) ++ add_int $"interval_s" (hb_interval_s h)).
Definition log_json (l : LogConfig) : json := JObj (add_str $"level" (lg_level l) ++ add_bool $"consoleOutput" (lg_console_output l)).

Definition config_json (c : Config) : json :=
  JObj ([($"agent", agent_json (cf_agent c))] ++
        match cf_providers c with [] => [] | l => [($"providers", JArr (provider_json <$> l))] end ++
        [($"tools", tools_json (cf_tools c))] ++
        match dns_members (cf_dns c) with [] => [] | l => [($"dns", JObj l)] end ++
        [($"heartbeat", heartbeat_json (cf_heartbeat c))] ++
        [($"log", log_json (cf_log c))] ++
        match cf_plugins c with [] => [] | l => [($"plugins", JArr (omap plugin_json l))] end).

(** The new contents of the file, and the result; [opens] says whether the
    file can be opened for writing. *)
Definition config_save_to_file (opens : bool) (c : Config) : option cstr * bool :=
  match cJSON_Print (config_json c) with
  | Some s => if opens then (Some s, true) else (None, false)
  | None => (None, false)
  end.

(** ** What a saved configuration is loaded as *)

Definition saved_provider (p : ProviderConfig) : ProviderConfig :=
  set_api_key (Some (match nonempty_text (pc_api_key p) with Some _ => $"***REDACTED***" | None => [] end)) p.

Definition saved_plugin (p : PluginConfig) : option PluginConfig :=
  match pg_config p with
  | Some j => Some (mkPluginConfig (pg_id p) (pg_enabled p) (Some (delete_item $"enabled" j)))
  | None => None
  end.

Definition saved_dns (d : DNSConfig) : DNSConfig :=
  dns_urls (mkDNS (match nonempty_text (dns_4 d) with Some s => Some s | None => Some $"8.8.8.8" end)
                  (match nonempty_text (dns_6 d) with Some s => Some s | None => Some $"2001:4860:4860::8888" end) None None
                  (if (0 <? dns_timeout_ms d)%Z then dns_timeout_ms d else 5000) (dns_use_system_resolver d)).

(** Text and numbers that JSON holds exactly. *)
Definition text_ok (o : option cstr) : bool := match o with Some s => str_ok s | None => false end.
Definition int_ok (z : Z) : bool := (- 2 ^ 31 <=? z)%Z && (z <=? INT_MAX)%Z.
Definition provider_ok (p : ProviderConfig) : bool :=
  text_ok (pc_name p) && text_ok (pc_model p) && text_ok (pc_api_base p) && text_ok (pc_reasoning_effort p) &&
  match pc_temperature p with Some n => num_ok n | None => false end && int_ok (pc_max_tokens p).
Definition plugin_ok (p : PluginConfig) : bool :=
  text_ok (pg_id p) && match pg_config p with Some (JObj kvs) => json_ok 3 (JObj kvs) | Some _ => false | None => true end.

(** A configuration as the program makes it: the provider openai is the
    first, since [config_create] adds it and none is ever removed. *)
Record config_ok (c : Config) : Prop := {
  ok_agent : text_ok (ac_provider (cf_agent c)) && int_ok (ac_max_tool_iterations (cf_agent c)) && int_ok (ac_memory_window (cf_agent c)) &&
    int_ok (ac_memory_max_tokens (cf_agent c)) && num_ok (ac_memory_consolidation_threshold (cf_agent c)) = true;
  ok_providers : forallb provider_ok (cf_providers c) = true;
  ok_first : exists p l, cf_providers c = p :: l /\ pc_name p = Some $"openai";
  ok_names : NoDup (pc_name <$> cf_providers c);
  ok_tools : int_ok (xc_timeout (tc_exec (cf_tools c))) && text_ok (xc_path_append (tc_exec (cf_tools c))) = true;
  ok_dns : forallb (fun o => match o with Some s => str_ok s | None => true end) [dns_4 (cf_dns c); dns_6 (cf_dns c)] && int_ok (dns_timeout_ms (cf_dns c)) = true;
  ok_heartbeat : int_ok (hb_interval_s (cf_heartbeat c)) = true;
  ok_log : text_ok (lg_level (cf_log c)) = true;
  ok_plugins : forallb plugin_ok (cf_plugins c) = true;
  ok_ids : NoDup (pg_id <$> cf_plugins c);
}.

(** What the loaded configuration has in common with the saved one. *)
Record reloaded (c c' : Config) : Prop := {
  re_agent : cf_agent c' = cf_agent c;
  re_providers : cf_providers c' = saved_provider <$> cf_providers c;
  re_tools : cf_tools c' = cf_tools c;
  re_dns : cf_dns c' = saved_dns (cf_dns c);
  re_heartbeat : cf_heartbeat c' = cf_heartbeat c;
  re_log : cf_log c' = cf_log c;
  re_plugins : cf_plugins c' = omap saved_plugin (cf_plugins c);
}.

Lemma json_ok_nest j : forall d, d <= CJSON_NESTING_LIMIT -> json_ok d j = true -> nest_ok (CJSON_NESTING_LIMIT - d) j = true.
Proof.
  induction j as [|b|n|s|l IH|kvs IH] using json_ind'; intros d Hd; cbn [json_ok nest_ok]; try done.
  - intros [Hlt Hl]%andb_prop. apply Nat.ltb_lt in Hlt.
    replace (CJSON_NESTING_LIMIT - d) with (S (CJSON_NESTING_LIMIT - S d)) by lia.
    rewrite forallb_forall in Hl |- *. intros x Hx. rewrite Forall_forall in IH.
    apply (IH x (proj2 (list_elem_of_In _ _) Hx)); [lia|by apply Hl].
  - intros [Hlt Hl]%andb_prop. apply Nat.ltb_lt in Hlt.
    replace (CJSON_NESTING_LIMIT - d) with (S (CJSON_NESTING_LIMIT - S d)) by lia.
    rewrite forallb_forall in Hl |- *. intros x Hx. rewrite Forall_forall in IH.
    apply (IH x (proj2 (list_elem_of_In _ _) Hx)); [lia|]. by apply Hl in Hx as [_ Hx]%andb_prop.
Qed.

Lemma json_ok_duplicate d j : d <= CJSON_NESTING_LIMIT -> json_ok d j = true -> cJSON_Duplicate j = Some j.
Proof.
  intros Hd Hj. apply cJSON_Duplicate_nest. eapply nest_ok_weaken; [|by apply (json_ok_nest j d)]. lia.
Qed.

Lemma int_ok_num z : int_ok z = true -> num_ok (num_of_Z z) = true.
Proof.
  intros [H1 H2]%andb_prop. apply Z.leb_le in H1, H2. unfold num_ok, num_of_Z. cbn [n_mant n_exp].
  apply orb_true_intro. left. apply andb_true_intro. split; [done|]. apply Z.ltb_lt. unfold INT_MAX in *. lia.
Qed.

Lemma int_ok_value z : int_ok z = true -> valueint (num_of_Z z) = z.
Proof. intros [H1 H2]%andb_prop. apply Z.leb_le in H1, H2. unfold valueint. rewrite num_trunc_Z. unfold INT_MAX in *. lia. Qed.

(** Objects whose members are known. *)
Definition members_ok (d : nat) (l : list (cstr * json)) : bool := forallb (fun kv => str_ok (fst kv) && json_ok d (snd kv)) l.

Lemma members_ok_app d l1 l2 : members_ok d l1 = true -> members_ok d l2 = true -> members_ok d (l1 ++ l2) = true.
Proof. unfold members_ok. rewrite forallb_app. intros -> ->. done. Qed.

Lemma object_ok d l : d < 10 -> members_ok (S d) l = true -> json_ok d (JObj l) = true.
Proof. intros Hd Hl. cbn [json_ok]. rewrite (proj2 (Nat.ltb_lt _ _)); [done|]. unfold CJSON_NESTING_LIMIT. lia. Qed.

Lemma array_ok d l : d < 10 -> forallb (json_ok (S d)) l = true -> json_ok d (JArr l) = true.
Proof. intros Hd Hl. cbn [json_ok]. rewrite (proj2 (Nat.ltb_lt _ _)); [done|]. unfold CJSON_NESTING_LIMIT. lia. Qed.

Lemma add_str_ok d name o : str_ok name = true -> (forall s, o = Some s -> str_ok s = true) -> members_ok d (add_str name o) = true.
Proof. intros Hn Ho. destruct o as [s|]; [|done]. cbn. by rewrite Hn, (Ho s eq_refl). Qed.
Lemma add_text_ok d name o : str_ok name = true -> text_ok o = true -> members_ok d (add_str name o) = true.
Proof. intros Hn Ho. apply add_str_ok; [done|]. by intros s ->. Qed.
Lemma add_int_ok d name z : str_ok name = true -> int_ok z = true -> members_ok d (add_int name z) = true.
Proof. intros Hn Hz. cbn. rewrite Hn, int_ok_num by done. done. Qed.
Lemma add_bool_ok d name b : str_ok name = true -> members_ok d (add_bool name b) = true.
Proof. intros Hn. cbn. by rewrite Hn. Qed.
Lemma add_num_ok d name n : str_ok name = true -> num_ok n = true -> members_ok d (add_num name (Some n)) = true.
Proof. intros Hn Hz. cbn. by rewrite Hn, Hz. Qed.

Ltac members_ok_tac :=
  repeat (apply members_ok_app);
  first [apply add_text_ok; [by vm_compute|done] | apply add_int_ok; [by vm_compute|done] | apply add_bool_ok; by vm_compute
        | apply add_num_ok; [by vm_compute|done] | idtac].

Lemma agent_json_ok a : text_ok (ac_provider a) && int_ok (ac_max_tool_iterations a) && int_ok (ac_memory_window a) &&
    int_ok (ac_memory_max_tokens a) && num_ok (ac_memory_consolidation_threshold a) = true -> json_ok 1 (agent_json a) = true.
Proof. intros [[[[H1 H2]%andb_prop H3]%andb_prop H4]%andb_prop H5]%andb_prop. apply object_ok; [lia|]. members_ok_tac. Qed.

Lemma provider_json_ok p : provider_ok p = true -> json_ok 2 (provider_json p) = true.
Proof.
  unfold provider_ok. intros [[[[[H1 H2]%andb_prop H3]%andb_prop H4]%andb_prop H5]%andb_prop H6]%andb_prop.
  destruct (pc_temperature p) as [n|] eqn:En; [|done]. apply object_ok; [lia|]. rewrite En. members_ok_tac.
  by destruct (nonempty_text (pc_api_key p)); vm_compute.
Qed.

Lemma tools_json_ok t : int_ok (xc_timeout (tc_exec t)) && text_ok (xc_path_append (tc_exec t)) = true -> json_ok 1 (tools_json t) = true.
Proof.
  intros [H1 H2]%andb_prop. apply object_ok; [lia|]. apply members_ok_app; [by apply add_bool_ok|].
  unfold members_ok. cbn [forallb fst snd]. rewrite andb_true_r. apply andb_true_intro. split; [by vm_compute|].
  apply object_ok; [lia|]. members_ok_tac.
Qed.

Lemma remove_member_ok d name kvs : members_ok d kvs = true -> members_ok d (remove_member name kvs) = true.
Proof.
  induction kvs as [|[k v] kvs IH]; [done|]. cbn [members_ok forallb remove_member]. intros [H1 H2]%andb_prop.
  destruct (strcasecmp_eq name k); [done|]. cbn [forallb]. rewrite H1. by apply IH.
Qed.

Lemma plugin_json_ok p : plugin_ok p = true -> exists j, plugin_json p = Some j /\ json_ok 2 j = true /\
  exists id, pg_id p = Some id /\ j = JObj (add_str $"plugin_id" (Some id) ++ add_bool $"enabled" (pg_enabled p) ++
    match pg_config p with Some c => [($"config", delete_item $"enabled" c)] | None => [] end).
Proof.
  intros [H1 H2]%andb_prop. unfold plugin_json. destruct (pg_id p) as [id|]; [|done]. cbn [mbind option_bind].
  assert ((j ← pg_config p; cJSON_Duplicate j) = pg_config p) as ->.
  { destruct (pg_config p) as [[| | | | |kvs]|]; try done. cbn [mbind option_bind]. apply (json_ok_duplicate 3); [unfold CJSON_NESTING_LIMIT; lia|done]. }
  eexists. split; [done|]. split; [|by eexists]. apply object_ok; [lia|].
  apply members_ok_app; [apply add_text_ok; [by vm_compute|done]|]. apply members_ok_app; [apply add_bool_ok; by vm_compute|].
  destruct (pg_config p) as [[| | | | |kvs]|]; try done. unfold members_ok. cbn [forallb fst snd delete_item]. rewrite andb_true_r.
  apply andb_true_intro. split; [by vm_compute|]. cbn [json_ok] in *. apply andb_prop in H2 as [Hd H2]. rewrite Hd. by apply remove_member_ok.
Qed.

Lemma plugins_json_ok l : forallb plugin_ok l = true -> forallb (json_ok 2) (omap plugin_json l) = true.
Proof.
  induction l as [|p l IH]; [done|]. cbn [forallb]. intros [Hp Hl]%andb_prop. destruct (plugin_json_ok p Hp) as (j & Hj & Hok & _).
  cbn. rewrite Hj. cbn. rewrite Hok. by apply IH.
Qed.


Lemma dns_members_ok d : forallb (fun o => match o with Some s => str_ok s | None => true end) [dns_4 d; dns_6 d] && int_ok (dns_timeout_ms d) = true ->
  members_ok 2 (dns_members d) = true.
Proof.
  cbn [forallb]. rewrite andb_true_r. intros [[H4 H6]%andb_prop Ht]%andb_prop. unfold dns_members.
  assert (forall o s, match o with Some s => str_ok s | None => true end = true -> nonempty_text o = Some s -> str_ok s = true) as Hn.
  { intros o s Ho E. destruct o as [[|]|]; cbn in E; by simplify_eq. }
  repeat apply members_ok_app; [apply add_str_ok; [by vm_compute|by eauto]..| |];
    [by destruct (0 <? dns_timeout_ms d)%Z; [apply add_int_ok|]|by destruct (dns_use_system_resolver d)].
Qed.

Lemma config_json_ok c : config_ok c -> json_ok 0 (config_json c) = true.
Proof.
  intros [Ha Hp _ _ Ht Hd Hh Hl Hg _]. apply object_ok; [lia|].
  assert (forall name j, str_ok name = true -> json_ok 1 j = true -> members_ok 1 [(name, j)] = true) as H1.
  { intros name j Hn Hj. cbn. by rewrite Hn, Hj. }
  repeat apply members_ok_app.
  - apply H1; [by vm_compute|by apply agent_json_ok].
  - destruct (cf_providers c) as [|p l] eqn:E; [done|]. rewrite <- E in *. clear E. apply H1; [by vm_compute|]. apply array_ok; [lia|].
    rewrite forallb_forall in Hp |- *. intros j Hj.
    apply list_elem_of_In, list_elem_of_fmap in Hj as (q & -> & Hq). apply provider_json_ok, Hp. by apply list_elem_of_In.
  - apply H1; [by vm_compute|by apply tools_json_ok].
  - pose proof (dns_members_ok _ Hd) as Hm. destruct (dns_members (cf_dns c)); [done|]. apply H1; [by vm_compute|by apply object_ok; [lia|]].
  - apply H1; [by vm_compute|]. apply object_ok; [lia|]. members_ok_tac.
  - apply H1; [by vm_compute|]. apply object_ok; [lia|]. members_ok_tac.
  - destruct (cf_plugins c) as [|p l] eqn:E; [done|]. rewrite <- E in *. apply H1; [by vm_compute|]. apply array_ok; [lia|by apply plugins_json_ok].
Qed.

(** *** Each section is loaded as it was saved *)

Lemma load_agent_saved a a0 : text_ok (ac_provider a) && int_ok (ac_max_tool_iterations a) && int_ok (ac_memory_window a) &&
    int_ok (ac_memory_max_tokens a) && num_ok (ac_memory_consolidation_threshold a) = true -> load_agent (agent_json a) a0 = a.
Proof.
  intros [[[[H1 H2]%andb_prop H3]%andb_prop H4]%andb_prop _]%andb_prop. destruct a as [[p|] i w m t]; [|done].
  cbn [ac_max_tool_iterations ac_memory_window ac_memory_max_tokens] in *.
  trans (mkAgentConfig (Some p) (valueint (num_of_Z i)) (valueint (num_of_Z w)) (valueint (num_of_Z m)) t); [reflexivity|].
  by rewrite !int_ok_value.
Qed.

Lemma load_provider_saved p q : provider_ok p = true -> pc_name q = pc_name p -> load_provider (provider_json p) q = Some (saved_provider p).
Proof.
  unfold provider_ok. intros [[[[[H1 H2]%andb_prop H3]%andb_prop H4]%andb_prop H5]%andb_prop H6]%andb_prop Hq.
  destruct p as [[name|] [model|] key [base|] [t|] mt [effort|]]; try done. cbn [pc_max_tokens pc_name] in *.
  trans (Some (mkProviderConfig (pc_name q) (Some model) (Some (match nonempty_text key with Some _ => $"***REDACTED***" | None => [] end))
    (Some base) (Some t) (valueint (num_of_Z mt)) (Some effort))); [reflexivity|].
  by rewrite Hq, int_ok_value.
Qed.

Lemma load_tools_saved t t0 : int_ok (xc_timeout (tc_exec t)) && text_ok (xc_path_append (tc_exec t)) = true -> load_tools (tools_json t) t0 = t.
Proof.
  intros [H1 H2]%andb_prop. destruct t as [[n r [path|]] r']; [|done]. cbn [tc_exec xc_timeout] in H1.
  trans (mkToolsConfig (mkExecConfig (valueint (num_of_Z n)) r (Some path)) r'); [reflexivity|]. by rewrite int_ok_value.
Qed.

Lemma dns_lookup d name : get_object_item (Some (JObj (dns_members d))) name =
  find_member name (add_str $"dns4" (nonempty_text (dns_4 d)) ++ add_str $"dns6" (nonempty_text (dns_6 d)) ++
    (if (0 <? dns_timeout_ms d)%Z then add_int $"dnsTimeoutMs" (dns_timeout_ms d) else []) ++
    (if dns_use_system_resolver d then add_bool $"useSystemResolver" true else [])).
Proof. done. Qed.

(** The file may have no [dns] section; [d0] is what [config_create] makes. *)
Lemma load_dns_saved d : int_ok (dns_timeout_ms d) = true ->
  dns_urls (load_dns (JObj (dns_members d))
    (mkDNS (Some $"8.8.8.8") (Some $"2001:4860:4860::8888") (Some $"udp://8.8.8.8:53") (Some $"udp://2001:4860:4860::8888:53") 5000 false)) = saved_dns d.
Proof.
  intros Ht. destruct d as [d4 d6 u4 u6 t r]. cbn [dns_timeout_ms] in Ht. unfold saved_dns, dns_members. cbn [dns_4 dns_6 dns_timeout_ms dns_use_system_resolver].
  assert (Hv : (0 <? t)%Z = true -> Z.max 0 (valueint (num_of_Z t)) = t) by (intros H%Z.ltb_lt; rewrite int_ok_value by done; lia).
  destruct (0 <? t)%Z.
  - destruct d4 as [[|]|], d6 as [[|]|], r; 
    match goal with |- _ = dns_urls (mkDNS ?a ?b ?c ?d _ ?f) => trans (dns_urls (mkDNS a b c d (Z.max 0 (valueint (num_of_Z t))) f)); [reflexivity|by rewrite Hv] end.
  - destruct d4 as [[|]|], d6 as [[|]|], r; reflexivity.
Qed.

Lemma index_of_none {A} (p : A -> bool) l : (forall x, x ∈ l -> p x = false) -> index_of p l = None.
Proof.
  induction l as [|x l IH]; [done|]. intros H. cbn. rewrite (H x) by left. rewrite IH; [done|]. intros y Hy. apply H. by right.
Qed.

Lemma named_false {A} (name_of : A -> option cstr) name x : name_of x <> Some name -> named name_of name x = false.
Proof.
  unfold named. intros H. destruct (name_of x) as [n|]; [|done]. destruct (str_eq n name) eqn:E; [|done].
  apply bool_decide_eq_true in E. by subst.
Qed.

Lemma with_room_alloc count capacity : exists cap, with_room (fun _ => true) count capacity = Some cap.
Proof. unfold with_room. destruct (Nat.leb capacity count); by eexists. Qed.

Lemma with_provider_new c name f p' : (forall q, q ∈ cf_providers c -> pc_name q <> Some name) -> f (new_provider name) = Some p' ->
  exists cap, with_provider (fun _ => true) c name f = Some (set_providers (cf_providers c ++ [p']) cap c).
Proof.
  intros Hn Hf. unfold with_provider, config_add_provider, config_get_provider. cbn [mbind option_bind].
  rewrite index_of_none by (intros q Hq; apply named_false, Hn, Hq).
  destruct (with_room_alloc (length (cf_providers c)) (cf_providers_capacity c)) as [cap ->]. exists cap.
  unfold update_provider. cbn [set_providers cf_providers cf_providers_capacity].
  rewrite lookup_app_r, Nat.sub_diag by lia. cbn [lookup list_lookup mbind option_bind]. rewrite Hf. cbn [mbind option_bind].
  rewrite insert_app_r_alt, Nat.sub_diag by lia. done.
Qed.

Lemma provider_entry c p name : pc_name p = Some name ->
  load_provider_entry (fun _ => true) c (provider_json p) = with_provider (fun _ => true) c name (load_provider (provider_json p)).
Proof. intros H. destruct p as [n m k b t x e]. cbn [pc_name] in H. subst n. reflexivity. Qed.

Lemma provider_ok_name p : provider_ok p = true -> exists name, pc_name p = Some name.
Proof. unfold provider_ok. destruct (pc_name p); [by eexists|done]. Qed.

Lemma set_providers_set l n l' n' c : set_providers l n (set_providers l' n' c) = set_providers l n c.
Proof. done. Qed.

Lemma load_providers_new ps : forall c, forallb provider_ok ps = true -> NoDup (pc_name <$> ps) ->
  (forall p q, p ∈ ps -> q ∈ cf_providers c -> pc_name q <> pc_name p) ->
  exists cap, load_providers (fun _ => true) c (provider_json <$> ps) = Some (set_providers (cf_providers c ++ (saved_provider <$> ps)) cap c).
Proof.
  induction ps as [|p ps IH]; intros c; cbn [forallb].
  - intros _ _ _. exists (cf_providers_capacity c). cbn. rewrite app_nil_r. by destruct c.
  - rewrite !fmap_cons. intros [Hp Hps]%andb_prop [Hni Hnd]%NoDup_cons Hd. cbn [load_providers].
    destruct (provider_ok_name p Hp) as [name Hname]. rewrite (provider_entry c p name Hname).
    destruct (with_provider_new c name (load_provider (provider_json p)) (saved_provider p)) as [cap ->].
    { intros q Hq E. apply (Hd p q); [by left|done|by rewrite Hname]. }
    { by apply load_provider_saved. }
    cbn [mbind option_bind]. edestruct IH as [cap' ->]; [done|done| |].
    + intros q r Hq [Hr|Hr%list_elem_of_singleton]%elem_of_app.
      * apply Hd; [by right|done].
      * subst r. change (pc_name (saved_provider p)) with (pc_name p). intros E. apply Hni. rewrite E. by apply list_elem_of_fmap_2.
    + exists cap'. rewrite set_providers_set. cbn [set_providers cf_providers]. by rewrite <- app_assoc.
Qed.

Lemma load_plugin_saved c p : plugin_ok p = true -> (forall q, q ∈ cf_plugins c -> pg_id q <> pg_id p) ->
  exists j cap, plugin_json p = Some j /\
    load_plugin_entry (fun _ => true) c j = set_plugins (cf_plugins c ++ option_list (saved_plugin p)) cap c.
Proof.
  intros Hp Hnew. destruct (plugin_json_ok p Hp) as (j & Hj & Hok & id & Hid & Ej). exists j.
  apply andb_prop in Hp as [_ Hc]. unfold saved_plugin. destruct p as [i e cfg]. cbn [pg_id pg_enabled pg_config] in *. subst i.
  destruct cfg as [cfg|].
  - destruct cfg as [| | | | |kvs]; try done.
    assert (cJSON_Duplicate (delete_item $"enabled" (JObj kvs)) = Some (delete_item $"enabled" (JObj kvs))) as Hdup.
    { apply (json_ok_duplicate 3); [unfold CJSON_NESTING_LIMIT; lia|]. cbn [json_ok delete_item] in *. apply andb_prop in Hc as [Hd Hc].
      rewrite Hd. by apply remove_member_ok. }
    destruct (with_room_alloc (length (cf_plugins c)) (cf_plugins_capacity c)) as [cap Hcap]. exists cap. split; [done|].
    set (kvs' := remove_member $"enabled" kvs) in *. subst j.
    assert (is_string (get_object_item (Some (JObj (add_str $"plugin_id" (Some id) ++ add_bool $"enabled" e ++ [($"config", JObj kvs')]))) $"plugin_id") = Some id) as E1 by reflexivity.
    assert (get_object_item (Some (JObj (add_str $"plugin_id" (Some id) ++ add_bool $"enabled" e ++ [($"config", JObj kvs')]))) $"config" = Some (JObj kvs')) as E2 by reflexivity.
    assert (get_object_item (Some (JObj (add_str $"plugin_id" (Some id) ++ add_bool $"enabled" e ++ [($"config", JObj kvs')]))) $"enabled" = Some (JBool e)) as E3 by reflexivity.
    unfold load_plugin_entry. cbn [delete_item]. fold kvs'. rewrite E1, E2, E3. unfold config_add_plugin_config, config_get_plugin_config. cbn [mbind option_bind].
    rewrite index_of_none by (intros q Hq; apply named_false, Hnew, Hq). rewrite Hcap. cbn [delete_item] in Hdup. fold kvs' in Hdup. rewrite Hdup.
    cbn [set_plugins cf_plugins cf_plugins_capacity is_bool default option_list]. 
    rewrite alter_app_r_alt, Nat.sub_diag by lia. done.
  - exists (cf_plugins_capacity c). split; [done|]. subst j. cbn [option_list]. rewrite (app_nil_r (cf_plugins c)).
    destruct c; reflexivity.
Qed.

Lemma load_plugins_saved ps : forall c, forallb plugin_ok ps = true -> NoDup (pg_id <$> ps) ->
  (forall p q, p ∈ ps -> q ∈ cf_plugins c -> pg_id q <> pg_id p) ->
  exists cap, fold_left (load_plugin_entry (fun _ => true)) (omap plugin_json ps) c = set_plugins (cf_plugins c ++ omap saved_plugin ps) cap c.
Proof.
  induction ps as [|p ps IH]; intros c; cbn [forallb].
  - intros _ _ _. exists (cf_plugins_capacity c). cbn. rewrite app_nil_r. by destruct c.
  - rewrite !fmap_cons. intros [Hp Hps]%andb_prop [Hni Hnd]%NoDup_cons Hd.
    destruct (load_plugin_saved c p Hp) as (j & cap & Hj & Hl); [intros q Hq; apply Hd; [by left|done]|].
    cbn [omap list_omap]. rewrite Hj. cbn [fold_left]. rewrite Hl. destruct (IH (set_plugins (cf_plugins c ++ option_list (saved_plugin p)) cap c)) as [cap' E]; [done|done| |].
    + intros q r Hq [Hr|Hr]%elem_of_app; [apply Hd; [by right|done]|]. unfold saved_plugin in Hr. destruct (pg_config p) as [cfg|]; [|by apply not_elem_of_nil in Hr].
      apply list_elem_of_singleton in Hr as ->. cbn [pg_id]. intros E. apply Hni. rewrite E. by apply list_elem_of_fmap_2.
    + exists cap'. rewrite E. cbn [set_plugins cf_plugins]. unfold set_plugins. cbn. f_equal. rewrite <- app_assoc. f_equal.
      by destruct (saved_plugin p).
Qed.

Lemma env_unset r c : config_load_from_env r (fun _ => None) c = c.
Proof.
  destruct c as [a p pc [x tr] d h l g gc]. trans (mkConfig a ((fun p => p) <$> p) pc (mkToolsConfig x tr) d h l g gc); [|by rewrite list_fmap_id].
  destruct a, x, d, h, l. reflexivity.
Qed.

(** *** The whole file *)

Abbreviation alloc := (fun _ : nat => true).

Lemma root_members c p l : cf_providers c = p :: l ->
  get_object_item (Some (config_json c)) $"agent" = Some (agent_json (cf_agent c)) /\
  get_object_item (Some (config_json c)) $"providers" = Some (JArr (provider_json <$> cf_providers c)) /\
  get_object_item (Some (config_json c)) $"tools" = Some (tools_json (cf_tools c)) /\
  get_object_item (Some (config_json c)) $"heartbeat" = Some (heartbeat_json (cf_heartbeat c)) /\
  get_object_item (Some (config_json c)) $"log" = Some (log_json (cf_log c)).
Proof. intros E. unfold config_json. rewrite E. destruct (dns_members (cf_dns c)), (cf_plugins c); split_and!; reflexivity. Qed.

Lemma root_dns c p l : cf_providers c = p :: l ->
  get_object_item (Some (config_json c)) $"dns" = match dns_members (cf_dns c) with [] => None | m => Some (JObj m) end.
Proof. intros E. unfold config_json. rewrite E. destruct (dns_members (cf_dns c)), (cf_plugins c); reflexivity. Qed.

Lemma root_plugins c p l : cf_providers c = p :: l ->
  default [] (is_array (get_object_item (Some (config_json c)) $"plugins")) = omap plugin_json (cf_plugins c).
Proof. intros E. unfold config_json. rewrite E. destruct (dns_members (cf_dns c)), (cf_plugins c); reflexivity. Qed.

Lemma agent_section_saved a c : text_ok (ac_provider a) && int_ok (ac_max_tool_iterations a) && int_ok (ac_memory_window a) &&
    int_ok (ac_memory_max_tokens a) && num_ok (ac_memory_consolidation_threshold a) = true ->
  load_agent_section alloc (agent_json a) c = Some (set_agent a c).
Proof.
  intros H. unfold load_agent_section. rewrite load_agent_saved by done.
  assert (existsb (has_item (agent_json a)) legacy_names = false) as ->; [|done].
  destruct a as [[p|] i w m t]; reflexivity.
Qed.

(** The first entry is the provider that [config_create] made; the others are added. *)
Lemma providers_section_saved a ps : forallb provider_ok ps = true -> NoDup (pc_name <$> ps) ->
  (exists p l, ps = p :: l /\ pc_name p = Some $"openai") ->
  exists cap, load_providers alloc (set_agent a (config_create alloc)) (provider_json <$> ps) =
    Some (set_providers (saved_provider <$> ps) cap (set_agent a (config_create alloc))).
Proof.
  intros Hok Hnd (p & l & -> & Hp). cbn [forallb] in Hok. apply andb_prop in Hok as [Hpo Hlo].
  apply NoDup_cons in Hnd as [Hni Hnd]. rewrite !fmap_cons. cbn [load_providers].
  rewrite (provider_entry _ _ _ Hp). set (c0 := set_agent a (config_create alloc)).
  assert (with_provider alloc c0 $"openai" (load_provider (provider_json p)) = Some (set_providers [saved_provider p] 4 c0)) as ->.
  { unfold with_provider. change (config_add_provider alloc c0 $"openai") with (c0, Some 0).
    set (q := mkProviderConfig (Some $"openai") (Some $"gpt-4") (Some []) (Some $"https://api.openai.com/v1") (Some (mkNum 1 (-1))) 4096 (Some $"medium")).
    unfold update_provider. change (cf_providers c0) with [q]. cbn [lookup list_lookup mbind option_bind].
    rewrite load_provider_saved by done. done. }
  cbn [mbind option_bind]. destruct (load_providers_new l (set_providers [saved_provider p] 4 c0)) as [cap ->]; [done|done| |by exists cap].
  intros q r Hq Hr%list_elem_of_singleton. subst r. intros E. apply Hni.
  change (pc_name (saved_provider p)) with (pc_name p) in E. rewrite E. by apply list_elem_of_fmap_2.
Qed.

Lemma dns_section_saved d c :
  match (match dns_members d with [] => None | m => Some (JObj m) end) with
  | Some j => Some (set_dns (load_dns j (cf_dns c)) c)
  | None => Some c
  end = Some (set_dns (load_dns (JObj (dns_members d)) (cf_dns c)) c).
Proof. destruct (dns_members d); [|done]. destruct c as [? ? ? ? [] ? ? ? ?]. reflexivity. Qed.

Lemma load_heartbeat_saved h h0 : int_ok (hb_interval_s h) = true -> load_heartbeat (heartbeat_json h) h0 = h.
Proof.
  intros H. destruct h as [e n]. cbn [hb_interval_s] in H. trans (mkHeartbeatConfig e (valueint (num_of_Z n))); [reflexivity|].
  by rewrite int_ok_value.
Qed.

Lemma load_log_saved l l0 : text_ok (lg_level l) = true -> load_log (log_json l) l0 = l.
Proof. intros H. destruct l as [[s|] b]; [reflexivity|done]. Qed.

(** C36: A configuration of valid UTF-8 texts, ints and short decimals that
    [config_save_to_file] wrote is what [config_load_from_file] reads into a
    new configuration when no variable of the environment is set, but for the
    API keys, which were replaced by a mark, the DNS servers and timeout that
    were cleared, which come back as the defaults, the plugins without
    settings, which are lost, and a member [enabled] of the settings of a
    plugin, which is deleted ([saved_plugin]). The configuration is one as the
    program makes it ([config_ok]): the provider openai comes first, and no two
    providers or plugins have the same name. *)
Theorem config_save_load c : config_ok c ->
  exists text c', config_save_to_file true c = (Some text, true) /\
    config_load_from_file alloc (Some text) (fun _ => None) (config_create alloc) = Some (c', true) /\ reloaded c c'.
Proof.
  intros Hok. destruct (printed_file true _ (config_json_ok c Hok)) as (ch & t & Hprint & Hnul & Hparse).
  destruct Hok as [Ha Hp Hf Hn Ht Hd Hh Hl Hg Hi]. pose proof Hf as (p & l & El & _).
  destruct (providers_section_saved (cf_agent c) (cf_providers c) Hp Hn Hf) as [cap Hprov].
  destruct (root_members c p l El) as (E1 & E2 & E3 & E4 & E5). exists (ch :: t).
  unfold config_save_to_file, cJSON_Print, config_load_from_file. rewrite Hprint, Hnul, Hparse.
  unfold load_json, on_section. rewrite E1, E2, E3, E4, E5, (root_dns c p l El), (root_plugins c p l El).
  rewrite agent_section_saved by done. cbn [mbind option_bind is_array default]. unfold id. rewrite Hprov. cbn [mbind option_bind].
  rewrite dns_section_saved. cbn [mbind option_bind]. rewrite (env_unset alloc).
  match goal with |- context [fold_left _ _ ?c0] => destruct (load_plugins_saved (cf_plugins c) c0) as [cap' ->] end; [done|done| |].
  { intros q r _ Hr. by apply not_elem_of_nil in Hr. }
  eexists. split_and!; [done..|]. split; try reflexivity.
  - apply load_tools_saved, Ht.
  - apply load_dns_saved. by apply andb_prop in Hd as [_ ?].
  - apply load_heartbeat_saved, Hh.
  - apply load_log_saved, Hl.
Qed.

Definition demo_config : Config :=
  mkConfig (mkAgentConfig (Some $"local") 20 50 (-1) (mkNum 75 (-2)))
    [mkProviderConfig (Some $"openai") (Some $"gpt-4") (Some $"sk-1") (Some $"https://api.openai.com/v1") (Some (mkNum 1 (-1))) 4096 (Some $"medium");
     mkProviderConfig (Some $"local") (Some $"l") (Some []) (Some $"http://localhost") (Some (mkNum 7 (-1))) 100 (Some [])] 4
    (mkToolsConfig (mkExecConfig 60 false (Some $"/opt/bin")) true) (mkDNS None (Some $"::1") None None 0 true)
    (mkHeartbeatConfig false 60) (mkLogConfig (Some $"DEBUG") true)
    [mkPluginConfig (Some $"web_tools") true (Some (JObj [($"enabled", JBool true); ($"proxy", JStr $"p")])); mkPluginConfig (Some $"bare") true None] 4.

Lemma config_save_load_witness : config_ok demo_config /\
  exists text c', config_save_to_file true demo_config = (Some text, true) /\
    config_load_from_file alloc (Some text) (fun _ => None) (config_create alloc) = Some (c', true) /\ reloaded demo_config c'.
Proof.
  assert (H : config_ok demo_config).
  { split; try (vm_compute; reflexivity).
    - by eexists _, _.
    - apply (bool_decide_unpack _). by vm_compute.
    - apply (bool_decide_unpack _). by vm_compute. }
  split; [exact H|exact (config_save_load demo_config H)].
Defined.

(** *** Values of the wrong type *)

Definition text_fields : list cstr := [$"model"; $"apiKey"; $"apiBase"; $"reasoning_effort"].

Lemma if_string_undefined {A} obj name f (x : A) item :
  get_object_item (Some obj) name = Some item -> is_string (Some item) = None -> if_string obj name f x = None.
Proof. unfold if_string. by intros -> ->. Qed.

Lemma load_provider_undefined j p field item : field ∈ text_fields ->
  get_object_item (Some j) field = Some item -> is_string (Some item) = None -> load_provider j p = None.
Proof.
  intros Hf Hi Hs. unfold load_provider. repeat (apply elem_of_cons in Hf as [->|Hf]); [| | | |by apply not_elem_of_nil in Hf].
  1: by rewrite (if_string_undefined _ _ _ _ item).
  all: match goal with |- context [if_string ?o $"model" ?f ?x] => destruct (if_string o $"model" f x) as [p1|]; [|done] end; cbn [mbind option_bind].
  1: by rewrite (if_string_undefined _ _ _ _ item).
  all: match goal with |- context [if_string ?o $"apiKey" ?f ?x] => destruct (if_string o $"apiKey" f x) as [p2|]; [|done] end; cbn [mbind option_bind].
  1: by rewrite (if_string_undefined _ _ _ _ item).
  match goal with |- context [if_string ?o $"apiBase" ?f ?x] => destruct (if_string o $"apiBase" f x) as [p3|]; [|done] end; cbn [mbind option_bind].
  by rewrite (if_string_undefined _ _ _ _ item).
Qed.

Lemma index_of_lookup {A} (p : A -> bool) l i : index_of p l = Some i -> exists x, l !! i = Some x /\ p x = true.
Proof.
  revert i. induction l as [|x l IH]; intros i; [done|]. cbn. destruct (p x) eqn:E.
  - intros [= <-]. by exists x.
  - destruct (index_of p l) as [k|] eqn:Ek; [|done]. intros [= <-]. by apply IH.
Qed.

Lemma config_add_provider_lookup c name c' i : config_add_provider alloc c name = (c', Some i) -> is_Some (cf_providers c' !! i).
Proof.
  unfold config_add_provider. destruct (config_get_provider c (Some name)) as [k|] eqn:E.
  - intros [= <- <-]. cbn in E. apply index_of_lookup in E as (x & -> & _). by eexists.
  - destruct (with_room_alloc (length (cf_providers c)) (cf_providers_capacity c)) as [cap ->]. intros [= <- <-].
    cbn [set_providers cf_providers]. rewrite lookup_app_r, Nat.sub_diag by lia. by eexists.
Qed.

Lemma config_add_provider_some c name : exists c' i, config_add_provider alloc c name = (c', Some i).
Proof.
  unfold config_add_provider. destruct (config_get_provider c (Some name)); [by eexists _, _|].
  destruct (with_room_alloc (length (cf_providers c)) (cf_providers_capacity c)) as [cap ->]. by eexists _, _.
Qed.

(** A configuration file with a provider whose model, key, base or effort
    is present but not a string makes [config_load_from_file] copy the text it
    has just freed, whatever else the file holds. *)
Theorem config_nonstring_undefined root env c entry l name field item :
  get_object_item (Some root) $"providers" = Some (JArr l) -> entry ∈ l ->
  is_Some (is_object (Some entry)) -> get_object_item (Some entry) $"name" = Some (JStr name) ->
  field ∈ text_fields -> get_object_item (Some entry) field = Some item -> is_string (Some item) = None ->
  load_json alloc root env c = None.
Proof.
  intros Hl He [kvs Hk] Hn Hf Hi Hs. unfold load_json.
  destruct (on_section root $"agent" (load_agent_section alloc) c) as [c1|]; [|done]. cbn [mbind option_bind]. rewrite Hl. cbn [is_array].
  assert (forall c1, load_providers alloc c1 l = None) as H; [|by change (default [] (Some l)) with l; rewrite H].
  clear c1. clear Hl. induction l as [|e l IH]; [by apply not_elem_of_nil in He|]. intros c1. cbn [load_providers].
  apply elem_of_cons in He as [<-|He].
  - assert (load_provider_entry alloc c1 entry = None) as ->; [|done]. unfold load_provider_entry. rewrite Hk, Hn. cbn [is_string].
    unfold with_provider. destruct (config_add_provider_some c1 name) as (c2 & i & E). rewrite E.
    destruct (config_add_provider_lookup c1 name c2 i E) as [p Hp]. unfold update_provider. rewrite Hp.
    by rewrite (load_provider_undefined entry p field item).
  - destruct (load_provider_entry alloc c1 e); [|done]. by apply IH.
Qed.

Definition bad_entry : json := JObj [($"name", JStr $"x"); ($"model", JNum (num_of_Z 5))].
Lemma config_nonstring_undefined_witness : load_json alloc (JObj [($"providers", JArr [bad_entry])]) (fun _ => None) (config_create alloc) = None.
Proof.
  apply (config_nonstring_undefined _ _ _ bad_entry [bad_entry] $"x" $"model" (JNum (num_of_Z 5)));
    [reflexivity|by left|by eexists|reflexivity|by left|reflexivity|reflexivity].
Defined.

(** A configuration is accepted exactly when the selected provider is there
    with a model, the timeout is positive and the log level is not empty. *)
Lemma config_validate_ok c : is_err (config_validate c) = false <->
  exists pc, config_get_active_provider c = Some pc /\ is_Some (nonempty_text (ac_provider (cf_agent c))) /\
    is_Some (nonempty_text (pc_model pc)) /\ (0 < xc_timeout (tc_exec (cf_tools c)))%Z /\ is_Some (nonempty_text (lg_level (cf_log c))).
Proof.
  unfold config_validate. destruct (nonempty_text (ac_provider (cf_agent c))) as [name|]; [|split; [done|by intros (? & ? & [? ?] & _)]].
  destruct (config_get_active_provider c) as [pc|]; [|split; [done|by intros (? & ? & _)]].
  destruct (nonempty_text (pc_model pc)) as [m|] eqn:Em; [|split; [done|]].
  2: { intros (pc' & [= <-] & _ & [? E] & _). by rewrite Em in E. }
  destruct (xc_timeout (tc_exec (cf_tools c)) <=? 0)%Z eqn:Et; [split; [done|]|].
  { apply Z.leb_le in Et. intros (? & _ & _ & _ & ? & _). lia. }
  apply Z.leb_gt in Et. destruct (nonempty_text (lg_level (cf_log c))) as [lv|]; [|split; [done|by intros (? & _ & _ & _ & _ & [? ?])]].
  split; [|done]. intros _. exists pc. rewrite Em. split_and!; eauto.
Qed.
