(* ===== verification/ProviderRegistry.v ===== *)
(** [src/providers/llm_provider.c]: the registry of model providers. A
    provider is known by its address; what is done with providers outside the
    registry, their shutdown and release, is a list of effects. *)
From S2P Require Import Prelude CStr Common.

(** [lp_shutdown]: whether the interface has a [shutdown]. *)
Record LLMProvider := mkProvider {
  lp_address : nat;
  lp_name : option cstr;
  lp_shutdown : bool;
  lp_plugin_ref : option nat;
  lp_initialized : bool;
}.

Inductive Effect := Shutdown (address : nat) | Free (address : nat).

#[export] Instance Effect_eq_dec : EqDecision Effect.
Proof. solve_decision. Defined.

Record LLMProviderRegistry := mkProviderRegistry {
  pr_providers : list LLMProvider;
  pr_capacity : Z;
  pr_active : option nat;
}.

Definition llm_provider_registry_new : LLMProviderRegistry := mkProviderRegistry [] 8 None.

(** [None] without an interface; [address] is where it is allocated. *)
Definition llm_provider_new (iface : option bool) (name : option cstr) (address : nat) : option LLMProvider :=
  has_shutdown ← iface; Some (mkProvider address (Some (default [] name)) has_shutdown None false).

(** The shutdown, when there is one to do, and the release. *)
Definition dispose (p : LLMProvider) : list Effect :=
  (if lp_initialized p && lp_shutdown p then [Shutdown (lp_address p)] else []) ++ [Free (lp_address p)].

Definition llm_provider_registry_free (r : LLMProviderRegistry) : list Effect := pr_providers r ≫= dispose.

Definition has_name (name : cstr) (p : LLMProvider) : bool :=
  match lp_name p with Some n => str_eq n name | None => false end.

Definition llm_provider_registry_find (r : LLMProviderRegistry) (name : option cstr) : option LLMProvider :=
  n ← name; List.find (has_name n) (pr_providers r).

Definition llm_provider_registry_set_active (r : LLMProviderRegistry) (name : option cstr) : LLMProviderRegistry * Z :=
  match llm_provider_registry_find r name with
  | Some p => (mkProviderRegistry (pr_providers r) (pr_capacity r) (Some (lp_address p)), 0%Z)
  | None => (r, (-1)%Z)
  end.

Definition llm_provider_registry_get_active (r : LLMProviderRegistry) : option nat := pr_active r.

Section Registry.
(** Whether the array of so many pointers can be allocated. *)
Context (realloc_ok : Z -> bool).

Definition llm_provider_registry_register (r : LLMProviderRegistry) (p : LLMProvider) : LLMProviderRegistry * list Effect * Z :=
  match lp_name p with
  | None => (r, [], (-1)%Z)
  | Some name =>
      if is_Some_dec (llm_provider_registry_find r (Some name)) then (r, dispose p, 0%Z)
      else if (pr_capacity r <=? Z.of_nat (length (pr_providers r)))%Z then
        if realloc_ok (pr_capacity r * 2)
        then (mkProviderRegistry (pr_providers r ++ [p]) (pr_capacity r * 2) (pr_active r), [], 0%Z)
        else (r, [], (-1)%Z)
      else (mkProviderRegistry (pr_providers r ++ [p]) (pr_capacity r) (pr_active r), [], 0%Z)
  end.

Definition of_plugin (plugin : nat) (p : LLMProvider) : bool := bool_decide (lp_plugin_ref p = Some plugin).

(** The loop over the providers: those kept, those removed, the capacity of
    the list of the latter, and the active one. *)
Fixpoint unregister_from (plugin : nat) (l : list LLMProvider) (removed : list LLMProvider) (cap : Z) (active : option nat)
    : list LLMProvider * list LLMProvider * option nat :=
  match l with
  | [] => ([], removed, active)
  | p :: r =>
      let keep := let '(k, rm, a) := unregister_from plugin r removed cap active in (p :: k, rm, a) in
      if of_plugin plugin p then
        let remove cap := unregister_from plugin r (removed ++ [p]) cap
                            (if bool_decide (active = Some (lp_address p)) then None else active) in
        if (cap <=? Z.of_nat (length removed))%Z then
          let new_cap := if (cap =? 0)%Z then 4%Z else (cap * 2)%Z in
          if realloc_ok new_cap then remove new_cap else keep
        else remove cap
      else keep
  end.

Definition llm_provider_registry_unregister_by_plugin (r : LLMProviderRegistry) (plugin_ref : option nat)
    : LLMProviderRegistry * list Effect * nat :=
  match plugin_ref with
  | None => (r, [], 0)
  | Some plugin =>
      let '(kept, removed, active) := unregister_from plugin (pr_providers r) [] 0 (pr_active r) in
      (mkProviderRegistry kept (pr_capacity r) active, removed ≫= dispose, length removed)
  end.
End Registry.

Definition freed (effects : list Effect) : list nat := omap (fun e => match e with Free a => Some a | Shutdown _ => None end) effects.

Lemma freed_dispose l : freed (l ≫= dispose) = lp_address <$> l.
Proof.
  induction l as [|p l IH]; [done|]. rewrite bind_cons, fmap_cons, <-IH. unfold freed, dispose. rewrite !omap_app.
  by destruct (lp_initialized p && lp_shutdown p).
Qed.

Definition addresses (r : LLMProviderRegistry) : list nat := lp_address <$> pr_providers r.

Record registry_ok (r : LLMProviderRegistry) : Prop := {
  rok_addresses : NoDup (addresses r);
  rok_names : NoDup (lp_name <$> pr_providers r);
  rok_named : Forall (fun p => is_Some (lp_name p)) (pr_providers r);
  rok_active : forall a, pr_active r = Some a -> a ∈ addresses r;
  rok_capacity : (Z.of_nat (length (pr_providers r)) <= pr_capacity r /\ 0 < pr_capacity r)%Z;
}.

Section Lemmas.
Context (realloc_ok : Z -> bool).

(** Nothing is lost: the providers are split, in order, and the active one
    is kept or cleared. *)
Lemma unregister_from_spec plugin l : forall removed cap active kept rm a,
  unregister_from realloc_ok plugin l removed cap active = (kept, rm, a) ->
  exists rm', rm = removed ++ rm' /\ l ≡ₚ kept ++ rm' /\ sublist kept l /\
  Forall (fun p => of_plugin plugin p = true) rm' /\ (a = active \/ a = None) /\
  (forall p, p ∈ rm' -> a <> Some (lp_address p)) /\
  ((forall c, realloc_ok c = true) -> Forall (fun p => of_plugin plugin p = false) kept).
Proof.
  induction l as [|p l IH]; intros removed cap active kept rm a; cbn [unregister_from].
  { intros [= <- <- <-]. exists []. rewrite app_nil_r. split_and!; try done; [by left|by intros p ?%elem_of_nil]. }
  set (keep := let '(k, rm0, a0) := _ in _).
  assert (forall cap', unregister_from realloc_ok plugin l (removed ++ [p]) cap'
            (if bool_decide (active = Some (lp_address p)) then None else active) = (kept, rm, a) ->
    of_plugin plugin p = true ->
    exists rm', rm = removed ++ rm' /\ p :: l ≡ₚ kept ++ rm' /\ sublist kept (p :: l) /\
    Forall (fun p => of_plugin plugin p = true) rm' /\ (a = active \/ a = None) /\
    (forall p, p ∈ rm' -> a <> Some (lp_address p)) /\
    ((forall c, realloc_ok c = true) -> Forall (fun p => of_plugin plugin p = false) kept)) as Hrm.
  { intros cap' H Hp. destruct (IH _ _ _ _ _ _ H) as (rm' & -> & Hperm & Hsub & Hf & Ha & Hact & Hall).
    exists (p :: rm'). split_and!; [by rewrite <-app_assoc|by rewrite Hperm, Permutation_middle|by apply sublist_cons|by constructor| | |done].
    - destruct Ha as [->| ->]; [case_bool_decide; auto|auto].
    - intros q [->|Hq]%elem_of_cons; [|by apply Hact]. destruct Ha as [->| ->]; [|done]. by case_bool_decide. }
  assert (keep = (kept, rm, a) -> ((forall c, realloc_ok c = true) -> of_plugin plugin p = false) ->
    exists rm', rm = removed ++ rm' /\ p :: l ≡ₚ kept ++ rm' /\ sublist kept (p :: l) /\
    Forall (fun p => of_plugin plugin p = true) rm' /\ (a = active \/ a = None) /\
    (forall p, p ∈ rm' -> a <> Some (lp_address p)) /\
    ((forall c, realloc_ok c = true) -> Forall (fun p => of_plugin plugin p = false) kept)) as Hkeep.
  { unfold keep. destruct (unregister_from realloc_ok plugin l removed cap active) as [[k rm0] a0] eqn:E. intros [= <- <- <-] Hno.
    destruct (IH _ _ _ _ _ _ E) as (rm' & -> & Hperm & Hsub & Hf & Ha & Hact & Hall).
    exists rm'. split_and!; [done|by rewrite Hperm|by apply sublist_skip|done..|]. intros Hr. constructor; auto. }
  clearbody keep. destruct (of_plugin plugin p) eqn:Ep; [|auto].
  destruct (_ <=? _)%Z; [|by intros; eapply Hrm]. destruct (realloc_ok _) eqn:Er; [by intros; eapply Hrm|].
  intros H. apply Hkeep; [done|]. intros Hr. by rewrite Hr in Er.
Qed.

Lemma find_spec r name : match llm_provider_registry_find r (Some name) with
  | Some p => p ∈ pr_providers r /\ lp_name p = Some name
  | None => Some name ∉ (lp_name <$> pr_providers r)
  end.
Proof.
  unfold llm_provider_registry_find. cbn [mbind option_bind]. destruct (List.find _ _) as [p|] eqn:E.
  - apply List.find_some in E as [Hin Hn]. split; [by apply list_elem_of_In|]. unfold has_name in Hn.
    destruct (lp_name p) as [n|]; [|done]. apply bool_decide_eq_true in Hn. by subst.
  - intros (p & Hp & Hin)%list_elem_of_fmap. apply list_elem_of_In in Hin. eapply List.find_none in E; [|done].
    unfold has_name in E. rewrite <-Hp in E. unfold str_eq in E. by rewrite bool_decide_true in E.
Qed.

(** The operations, with the providers freed so far. A provider is registered
    once, and is no more used by its owner then. *)
Inductive registry_step : LLMProviderRegistry * list nat -> LLMProviderRegistry * list nat -> Prop :=
  | step_register r gone p r' effects code : lp_address p ∉ addresses r -> lp_address p ∉ gone ->
      llm_provider_registry_register realloc_ok r p = (r', effects, code) -> registry_step (r, gone) (r', freed effects ++ gone)
  | step_unregister r gone plugin r' effects n :
      llm_provider_registry_unregister_by_plugin realloc_ok r plugin = (r', effects, n) -> registry_step (r, gone) (r', freed effects ++ gone)
  | step_set_active r gone name : registry_step (r, gone) (fst (llm_provider_registry_set_active r name), gone).

Definition registry_inv (s : LLMProviderRegistry * list nat) : Prop :=
  registry_ok (fst s) /\ NoDup (snd s) /\ (forall a, a ∈ snd s -> a ∉ addresses (fst s)).

Lemma register_ok r gone p r' effects code : registry_inv (r, gone) -> lp_address p ∉ addresses r -> lp_address p ∉ gone ->
  llm_provider_registry_register realloc_ok r p = (r', effects, code) -> registry_inv (r', freed effects ++ gone).
Proof.
  intros ([H1 H2 H3 H4 H5] & Hnd & Hd) Ha Hg. unfold llm_provider_registry_register.
  destruct (lp_name p) as [name|] eqn:En; [|by intros [= <- <- <-]].
  pose proof (find_spec r name) as Hf. cbn [fst snd] in *. destruct (is_Some_dec _) as [Hs|Hs].
  { intros [= <- <- <-]. pose proof (freed_dispose [p]) as ->%(eq_trans (f_equal freed (eq_sym (app_nil_r (dispose p))))).
    cbn. split_and!; [done|by apply NoDup_cons|]. intros a [->|Hin]%elem_of_cons; [done|by apply Hd]. }
  destruct (llm_provider_registry_find r (Some name)) as [q|]; [by destruct Hs; eexists|].
  assert (forall cap, (Z.of_nat (S (length (pr_providers r))) <= cap)%Z ->
    registry_inv (mkProviderRegistry (pr_providers r ++ [p]) cap (pr_active r), gone)) as Hadd.
  { intros cap Hcap. split_and!; [|done|].
    - split; unfold addresses in *; cbn.
      + rewrite fmap_app. apply NoDup_app. split_and!; [done| |by apply NoDup_singleton]. intros a Hin ->%list_elem_of_singleton. done.
      + rewrite fmap_app. apply NoDup_app. split_and!; [done| |by apply NoDup_singleton]. intros a Hin ->%list_elem_of_singleton. by rewrite En in Hin.
      + apply Forall_app. split; [done|]. by repeat constructor.
      + intros a Hact. rewrite fmap_app. apply elem_of_app. left. by apply H4.
      + rewrite length_app. cbn. lia.
    - intros a Hin. unfold addresses. cbn. rewrite fmap_app, not_elem_of_app. split; [by apply Hd|].
      intros ->%list_elem_of_singleton. done. }
  destruct (Z.leb_spec (pr_capacity r) (Z.of_nat (length (pr_providers r)))).
  - destruct (realloc_ok _); [|by intros [= <- <- <-]]. intros [= <- <- <-]. apply Hadd. lia.
  - intros [= <- <- <-]. apply Hadd. lia.
Qed.

Lemma unregister_ok r gone plugin r' effects n : registry_inv (r, gone) ->
  llm_provider_registry_unregister_by_plugin realloc_ok r plugin = (r', effects, n) -> registry_inv (r', freed effects ++ gone).
Proof.
  intros Hinv. unfold llm_provider_registry_unregister_by_plugin. destruct plugin as [plugin|]; [|by intros [= <- <- <-]].
  destruct (unregister_from _ _ _ _ _ _) as [[kept removed] active] eqn:E. intros [= <- <- <-]. rewrite freed_dispose.
  destruct (unregister_from_spec _ _ _ _ _ _ _ _ E) as (rm & Hrm & Hperm & Hsub & _ & Ha & Hact & _). cbn in Hrm. subst removed.
  destruct Hinv as ([H1 H2 H3 H4 H5] & Hnd & Hd). cbn [fst snd] in *.
  assert (addresses r ≡ₚ (lp_address <$> kept) ++ (lp_address <$> rm)) as Hap by (unfold addresses; by rewrite Hperm, fmap_app).
  rewrite Hap in H1. apply NoDup_app in H1 as (Hk & Hdis & Hr). split_and!; cbn [fst snd].
  - split; unfold addresses; cbn [pr_providers pr_active pr_capacity]; [done| | | |].
    + rewrite Hperm, fmap_app in H2. by apply NoDup_app in H2 as (H2 & _).
    + by eapply sublist_Forall.
    + intros a Hsome. destruct Ha as [->| ->]; [|done]. pose proof (H4 a Hsome) as Hin. rewrite Hap in Hin.
      apply elem_of_app in Hin as [Hin|(p & -> & Hin)%list_elem_of_fmap]; [done|]. by apply Hact in Hin.
    + apply sublist_length in Hsub. lia.
  - apply NoDup_app. split_and!; [done| |done]. intros a Hin Hgone. apply (Hd a Hgone). rewrite Hap. apply elem_of_app. by right.
  - intros a [Hin|Hin]%elem_of_app; unfold addresses; cbn [pr_providers]; intros Hk'.
    + by eapply Hdis.
    + apply (Hd a Hin). rewrite Hap. apply elem_of_app. by left.
Qed.

Lemma step_inv s s' : registry_inv s -> registry_step s s' -> registry_inv s'.
Proof.
  intros Hinv Hstep. destruct Hstep as [r gone p r' effects code Ha Hg H|r gone plugin r' effects n H|r gone name];
    [by eapply register_ok|by eapply unregister_ok|].
  unfold llm_provider_registry_set_active. destruct (llm_provider_registry_find r name) as [p|] eqn:Ef; [|done].
  destruct name as [name|]; [|done]. pose proof (find_spec r name) as Hf. rewrite Ef in Hf.
  destruct Hinv as ([H1 H2 H3 H4 H5] & Hnd & Hd). split_and!; [|done|done]. split; try done. cbn.
  intros a [= <-]. apply list_elem_of_fmap. exists p. by split; [|apply Hf].
Qed.
End Lemmas.

(** In every reachable state of the registry the providers and their
    names are distinct, the active provider is registered, so that a removed
    plugin's provider is never used again, no freed provider is in the
    registry, and none was freed twice; the array is large enough. *)
Theorem provider_registry_invariant realloc_ok r gone :
  rtc (registry_step realloc_ok) (llm_provider_registry_new, []) (r, gone) ->
  registry_ok r /\ NoDup gone /\ forall a, a ∈ gone -> a ∉ addresses r.
Proof.
  intros H. apply (rtc_invariant (registry_step realloc_ok) registry_inv _ _ (step_inv realloc_ok)) in H; [done|].
  split_and!; [|constructor|by intros a ?%elem_of_nil]. split; cbn; try constructor; done.
Qed.

(** ** Inputs on which the theorem applies *)

Definition demo_provider (a : nat) (plugin : nat) : LLMProvider := mkProvider a (Some [Ascii.ascii_of_nat (97 + a)]) true (Some plugin) true.
Definition demo_registry : LLMProviderRegistry := mkProviderRegistry [demo_provider 1 2] 8 None.

Lemma provider_registry_invariant_witness :
  registry_ok demo_registry /\ NoDup [0] /\ forall a, a ∈ [0] -> a ∉ addresses demo_registry.
Proof.
  apply (provider_registry_invariant (fun _ => true) demo_registry [0]).
  eapply rtc_l; [eapply (step_register _ _ _ (demo_provider 0 1)); [by vm_compute; intros ?%elem_of_nil|by intros ?%elem_of_nil|by vm_compute]|].
  eapply rtc_l; [eapply (step_register _ _ _ (demo_provider 1 2)); [vm_compute; set_solver|set_solver|by vm_compute]|].
  eapply rtc_l; [apply (step_set_active _ _ _ (Some $"a"))|].
  eapply rtc_l; [eapply (step_unregister _ _ _ (Some 1)); by vm_compute|]. apply rtc_refl.
Defined.
