(* ===== verification/Provider.v ===== *)
(** [src/providers/openai_provider.c], first part: the request the model is
    sent, the answer that is read, and the stream of partial answers. *)
From S2P Require Import Prelude CStr Json JsonTree Common StringBuf Message Session ToolRegistry Config.

Inductive FinishReason :=
  | FINISH_REASON_NONE | FINISH_REASON_STOP | FINISH_REASON_LENGTH | FINISH_REASON_TOOL_CALLS
  | FINISH_REASON_CONTENT_FILTER | FINISH_REASON_ERROR.

#[export] Instance FinishReason_eq_dec : EqDecision FinishReason.
Proof. solve_decision. Defined.

Definition parse_finish_reason (reason : option cstr) : FinishReason :=
  match reason with
  | None => FINISH_REASON_NONE
  | Some r =>
      if str_eq r $"stop" then FINISH_REASON_STOP
      else if str_eq r $"length" then FINISH_REASON_LENGTH
      else if str_eq r $"tool_calls" then FINISH_REASON_TOOL_CALLS
      else if str_eq r $"content_filter" then FINISH_REASON_CONTENT_FILTER
      else FINISH_REASON_ERROR
  end.

Definition get_provider_config (config : option Config) : option ProviderConfig := c ← config; config_get_active_provider c.

Definition nonempty (s : option cstr) : option cstr := match s with Some [] => None | o => o end.

(** [env] is the value of OPENAI_API_KEY. *)
Definition get_api_key (config : option Config) (env : option cstr) : cstr :=
  match nonempty (pc ← get_provider_config config; pc_api_key pc) with
  | Some k => k
  | None => default [] env
  end.

(** ** The request *)

Definition member_json (name : cstr) (j : json) : cstr * json := (name, j).
Definition member_str (name text : cstr) : cstr * json := (name, JStr text).

Definition tool_call_item (tc : ToolCall) : json :=
  JObj [member_str $"id" (tc_id tc); member_str $"type" $"function";
        member_json $"function" (JObj [member_str $"name" (tc_name tc); member_str $"arguments" (tc_arguments tc)])].

Definition message_item (msg : Message) : json :=
  JObj (match m_role msg with
        | ROLE_USER => [member_str $"role" $"user"; member_str $"content" (m_content msg)]
        | ROLE_ASSISTANT =>
            [member_str $"role" $"assistant";
             member_json $"content" (match m_content msg with [] => JNull | c => JStr c end)] ++
            match m_tool_calls msg with [] => [] | tcs => [member_json $"tool_calls" (JArr (tool_call_item <$> tcs))] end
        | ROLE_TOOL =>
            [member_str $"role" $"tool"; member_str $"content" (m_content msg)] ++
            match m_tool_call_id msg with [] => [] | i => [member_str $"tool_call_id" i] end ++
            match m_name msg with [] => [] | n => [member_str $"name" n] end
        end).

Definition system_item (text : cstr) : json := JObj [member_str $"role" $"system"; member_str $"content" text].

(** [None] only if building the snapshot does not end (Session.v: it does). *)
Definition build_messages_json (system_prompt : option cstr) (session : option Session) (config : option Config) : option json :=
  let sys := match nonempty system_prompt with Some p => [system_item p] | None => [] end in
  match session with
  | None => Some (JArr sys)
  | Some s =>
      let max_history := match config with
                         | Some c => if (0 <? ac_memory_window (cf_agent c))%Z then Z.to_nat (ac_memory_window (cf_agent c)) else 30
                         | None => 30
                         end in
      snapshot ← session_snapshot_for_context s max_history;
      Some (JArr (sys ++ (if snap_truncated snapshot then [system_item $"(Note: Older conversation history has been truncated.)"] else []) ++
                  (message_item <$> snap_messages snapshot)))
  end.

Definition tool_item {W D} (t : Tool W D) : json :=
  JObj [member_str $"type" $"function";
        member_json $"function" (JObj [member_str $"name" (t_name t); member_str $"description" (t_description t);
          member_json $"parameters" (default (JObj []) (cJSON_Parse (t_parameters t)))])].

(** The members added to the request. *)
Definition add_tools_to_json {W D} (tools : option (ToolRegistry W D)) : list (cstr * json) :=
  match tools with
  | None => []
  | Some reg => match reg_tools reg with
                | [] => []
                | ts => [member_json $"tools" (JArr (tool_item <$> ts)); member_str $"tool_choice" $"auto"]
                end
  end.

Definition is_tool (m : Message) : bool := bool_decide (m_role m = ROLE_TOOL).

Definition llm_request {W D} (system_prompt : option cstr) (session : option Session) (tools : option (ToolRegistry W D))
    (config : option Config) (stream : bool) : option json :=
  let pc := get_provider_config config in
  in_tool_chain ← match session with
                  | Some s => snapshot ← session_snapshot_for_context s 0; Some (existsb is_tool (snap_messages snapshot))
                  | None => Some false
                  end;
  messages ← build_messages_json system_prompt session config;
  Some (JObj ([member_str $"model" (default $"gpt-4-turbo-preview" (c ← pc; pc_model c))] ++
    match pc with
    | Some c => [member_json $"temperature" (match pc_temperature c with Some n => JNum n | None => JNull end)] ++
        match nonempty (pc_reasoning_effort c) with
        | Some e => if in_tool_chain : bool then [member_str $"reasoning_effort" e] else []
        | None => []
        end
    | None => []
    end ++ [member_json $"messages" messages] ++ add_tools_to_json tools ++
    (if stream then [member_json $"stream" (JBool true)] else []))).

Definition build_llm_request_json {W D} (system_prompt : option cstr) (session : option Session) (tools : option (ToolRegistry W D))
    (config : option Config) (stream : bool) : option cstr :=
  root ← llm_request system_prompt session tools config stream; cJSON_PrintUnformatted root.

Definition build_api_url (config : option Config) : cstr :=
  let api_base := default $"https://api.openai.com/v1" (nonempty (pc ← get_provider_config config; pc_api_base pc)) in
  api_base ++ (if bool_decide (last api_base = Some "/"%char) then [] else $"/") ++ $"chat/completions".

(** ** The answer *)

Record ParsedLLMResponse := mkParsed {
  pr_error : Error;
  pr_content : cstr;
  pr_tool_calls : list ToolCall;
  pr_finish_reason : FinishReason;
  pr_usage_tokens : Z;
}.

Definition json_get_string (obj : json) (key fallback : cstr) : cstr := default fallback (is_string (get_object_item (Some obj) key)).

Definition is_line_end (c : ascii) : bool := bool_decide (c = ch_nl) || bool_decide (c = ch_cr).

(** A call without id, name or arguments becomes an empty call. *)
Definition parse_tool_call (tc : json) : ToolCall :=
  let func := get_object_item (Some tc) $"function" in
  match is_string (get_object_item (Some tc) $"id"),
        is_string (f ← func; get_object_item (Some f) $"name"), is_string (f ← func; get_object_item (Some f) $"arguments") with
  | Some i, Some n, Some a => mkToolCall i n a
  | _, _, _ => mkToolCall [] [] []
  end.

Definition failed (err : Error) (reason : FinishReason) (usage : Z) : ParsedLLMResponse := mkParsed err [] [] reason usage.

Definition usage_of (json_response : json) (old : Z) : Z :=
  match (u ← get_object_item (Some json_response) $"usage"; is_number (get_object_item (Some u) $"total_tokens")) with
  | Some n => valueint n
  | None => old
  end.

(** The reason of a choice; [old] when it gives none. *)
Definition reason_of (choice : json) (old : FinishReason) : FinishReason :=
  match is_string (get_object_item (Some choice) $"finish_reason") with Some r => parse_finish_reason (Some r) | None => old end.

Definition parse_choice (json_response choice : json) : ParsedLLMResponse :=
  let reason := reason_of choice FINISH_REASON_NONE in
  let usage := usage_of json_response 0 in
  if bool_decide (reason = FINISH_REASON_ERROR)
  then failed (error_new ERR_CONTENT_FILTER (Some $"Content filtered by provider")) reason usage
  else
    let message := get_object_item (Some choice) $"message" in
    mkParsed err_ok
      (match is_string (m ← message; get_object_item (Some m) $"content") with Some c => drop_while is_line_end c | None => [] end)
      (match is_array (m ← message; get_object_item (Some m) $"tool_calls") with Some l => parse_tool_call <$> l | None => [] end)
      reason usage.

Definition parse_llm_response_json (json_data : option cstr) (http_status : Z) (last_error : cstr) : ParsedLLMResponse :=
  match nonempty json_data with
  | None =>
      failed (error_new ERR_NETWORK (Some (truncate_to 320 ($"Empty LLM response (status=" ++ fmt_d http_status ++ $", " ++
        (match last_error with [] => $"no payload" | e => e end) ++ $")")))) FINISH_REASON_NONE 0
  | Some data =>
      match cJSON_Parse data with
      | None => failed (error_new ERR_JSON (Some $"Failed to parse LLM response")) FINISH_REASON_NONE 0
      | Some root =>
          match get_object_item (Some root) $"error" with
          | Some error_obj =>
              failed (error_new ERR_NETWORK (match get_object_item (Some error_obj) $"message" with
                                             | Some m => is_string (Some m)
                                             | None => Some $"Unknown API error"
                                             end)) FINISH_REASON_NONE 0
          | None =>
              match is_array (get_object_item (Some root) $"choices") with
              | Some (choice :: _) => parse_choice root choice
              | _ =>
                  failed (error_new ERR_JSON (Some (truncate_to 256 ($"No choices in response (status=" ++ fmt_d http_status ++ $", object=" ++
                    json_get_string root $"object" $"n/a" ++ $", message=" ++ json_get_string root $"message" $"n/a" ++ $")"))))
                    FINISH_REASON_NONE 0
              end
          end
      end
  end.

(** ** Results of tools in the request *)

Definition item_str (j : json) (name : cstr) : option cstr := is_string (get_object_item (Some j) name).
Definition item_role (j : json) : option cstr := item_str j $"role".
Definition item_calls (j : json) : list (option cstr) :=
  (fun c => item_str c $"id") <$> default [] (is_array (get_object_item (Some j) $"tool_calls")).

(** What the API asks of a request: a tool message follows the assistant
    message with the call it answers, only tool messages in between. *)
Definition request_chained (items : list json) : Prop :=
  forall j t, items !! j = Some t -> item_role t = Some $"tool" ->
  exists i a, i < j /\ items !! i = Some a /\ item_role a = Some $"assistant" /\
    Some (default [] (item_str t $"tool_call_id")) ∈ item_calls a /\
    forall k m, i < k < j -> items !! k = Some m -> item_role m = Some $"tool".

Definition role_text (r : MessageRole) : cstr :=
  match r with ROLE_USER => $"user" | ROLE_ASSISTANT => $"assistant" | ROLE_TOOL => $"tool" end.

Lemma message_item_role m : item_role (message_item m) = Some (role_text (m_role m)).
Proof. destruct m as [[] c ts tcs i n]; done. Qed.

Lemma tool_item_id m : m_role m = ROLE_TOOL -> default [] (item_str (message_item m) $"tool_call_id") = m_tool_call_id m.
Proof. destruct m as [r c ts tcs i n]. cbn. intros ->. unfold item_str, message_item; cbn [m_role m_content m_tool_call_id m_name].
  destruct i, n; done. Qed.

Lemma assistant_item_calls m : m_role m = ROLE_ASSISTANT -> item_calls (message_item m) = Some ∘ tc_id <$> m_tool_calls m.
Proof.
  destruct m as [r c ts tcs i n]. cbn [m_role m_tool_calls]. intros ->.
  unfold item_calls, message_item; cbn [m_role m_content m_tool_calls]. destruct tcs as [|tc tcs]; [done|].
  change (get_object_item _ $"tool_calls") with (Some (JArr (tool_call_item <$> tc :: tcs))).
  change (default [] (is_array (Some (JArr ?l)))) with l. induction (tc :: tcs) as [|x l IH]; [done|]. by rewrite !fmap_cons, IH.
Qed.

(** The note of a truncated history and the system prompt come before the history. *)
Lemma system_items_role (sys : list json) l : Forall (fun j => item_role j = Some $"system") sys ->
  request_chained l -> request_chained (sys ++ l).
Proof.
  intros Hs Hc j t Hj Ht. destruct (decide (j < length sys)) as [Hlt|Hge].
  { rewrite lookup_app_l in Hj by done. rewrite Forall_forall in Hs. specialize (Hs t (list_elem_of_lookup_2 _ _ _ Hj)). by rewrite Hs in Ht. }
  rewrite lookup_app_r in Hj by lia. destruct (Hc _ _ Hj Ht) as (i & a & Hi & Ha & Hr & Hin & Hmid).
  exists (length sys + i), a. split_and!; [lia| |done..|].
  - rewrite lookup_app_r by lia. by replace (length sys + i - length sys) with i by lia.
  - intros k m Hk Hm. rewrite lookup_app_r in Hm by lia. eapply Hmid; [|done]. lia.
Qed.

Lemma chained_items ms : chained ms -> request_chained (message_item <$> ms).
Proof.
  intros Hc j t Hj Ht. rewrite list_lookup_fmap in Hj. destruct (ms !! j) as [m|] eqn:Ej; [|done]. injection Hj as <-.
  rewrite message_item_role in Ht. assert (m_role m = ROLE_TOOL) as Hm by (by destruct (m_role m)).
  destruct (Hc _ _ Ej Hm) as (i & Hi & (a & t' & Ha & Ht' & _ & Hcall) & Hmid). simplify_eq.
  unfold assistant_has_tool_call_id in Hcall. apply andb_prop in Hcall as [[Hrole _]%andb_prop Hex].
  apply bool_decide_eq_true in Hrole. apply existsb_exists in Hex as (tc & Htc%list_elem_of_In & Heq).
  apply bool_decide_eq_true in Heq.
  exists i, (message_item a). rewrite list_lookup_fmap, Ha, message_item_role, Hrole, tool_item_id, assistant_item_calls by done.
  split_and!; [done..| |].
  - apply list_elem_of_fmap. exists tc. split; [|done]. cbn. by rewrite Heq.
  - intros k x Hk Hx. rewrite list_lookup_fmap in Hx. destruct (ms !! k) as [y|] eqn:Ey; [|done]. injection Hx as <-.
    by rewrite message_item_role, (Hmid k y).
Qed.

(** C12: The request holds the system prompt if there is one, a note when older
    messages are left out, and then the latest messages of the conversation in
    order, at least the configured number of them if it has as many. When every
    result of a tool follows its call in the conversation, it does in the
    request, so the API gets no result whose call was truncated away. *)
Theorem request_keeps_tool_chains system_prompt s config :
  exists start items, build_messages_json system_prompt (Some s) config = Some (JArr items) /\
  items = match nonempty system_prompt with Some p => [system_item p] | None => [] end ++
          (if Nat.ltb 0 start then [system_item $"(Note: Older conversation history has been truncated.)"] else []) ++
          (message_item <$> drop start (s_messages s)) /\
  Nat.min (match config with Some c => if (0 <? ac_memory_window (cf_agent c))%Z then Z.to_nat (ac_memory_window (cf_agent c)) else 30 | None => 30 end)
    (length (s_messages s)) <= length (drop start (s_messages s)) /\
  (chained (s_messages s) -> request_chained items).
Proof.
  unfold build_messages_json. set (sys := match nonempty system_prompt with Some _ => _ | None => _ end).
  set (n := match config with Some _ => _ | None => _ end).
  assert (0 < n) as Hn. { unfold n. destruct config as [c|]; [|lia]. destruct (Z.ltb_spec 0 (ac_memory_window (cf_agent c))); lia. }
  destruct (session_snapshot_keeps_tool_chains s n) as (snap & start & Hs & Hd & Ht & Hl & Hch).
  rewrite Hs. cbn [mbind option_bind]. rewrite Hd, Ht in *. set (note := if Nat.ltb 0 start then _ else _).
  exists start. eexists. split_and!; [done..|by apply Hl|]. intros Hc. rewrite app_assoc.
  apply system_items_role; [|by apply chained_items, Hch].
  apply Forall_app. split; [unfold sys; destruct (nonempty system_prompt)|unfold note; destruct (Nat.ltb 0 start)]; by repeat constructor.
Qed.

(** ** Answers *)

(** An answer as the API gives it, around a message. *)
Definition answer_json (message : json) (reason : cstr) (tokens : Z) : json :=
  JObj [member_str $"object" $"chat.completion";
        member_json $"choices" (JArr [JObj [member_json $"message" message; member_str $"finish_reason" reason]]);
        member_json $"usage" (JObj [member_json $"total_tokens" (JNum (num_of_Z tokens))])].

Definition tool_call_ok (tc : ToolCall) : bool := str_ok (tc_id tc) && str_ok (tc_name tc) && str_ok (tc_arguments tc).
Definition answer_ok (msg : Message) : bool := str_ok (m_content msg) && forallb tool_call_ok (m_tool_calls msg).

Lemma parse_tool_call_item tc : parse_tool_call (tool_call_item tc) = tc.
Proof. by destruct tc. Qed.

Lemma tool_call_item_ok d tc : d + 2 < CJSON_NESTING_LIMIT -> tool_call_ok tc = true -> json_ok d (tool_call_item tc) = true.
Proof.
  intros Hd [[H1 H2]%andb_prop H3]%andb_prop. unfold tool_call_item, member_str, member_json.
  cbn [json_ok forallb fst snd]. rewrite H1, H2, H3.
  rewrite !(proj2 (Nat.ltb_lt _ _)) by lia. by vm_compute.
Qed.

Lemma message_item_ok d msg : d + 4 < CJSON_NESTING_LIMIT -> m_role msg = ROLE_ASSISTANT -> answer_ok msg = true ->
  json_ok d (message_item msg) = true.
Proof.
  intros Hd Hr [Hc Ht]%andb_prop. destruct msg as [r c ts tcs i n]. cbn [m_role m_content m_tool_calls] in *. subst r.
  unfold message_item; cbn [m_role m_content m_tool_calls]. cbn [json_ok].
  rewrite (proj2 (Nat.ltb_lt _ _)) by lia. cbn [andb]. rewrite forallb_app. apply andb_true_intro. split.
  - unfold member_str, member_json. destruct c as [|x c]; cbn [forallb fst snd json_ok]; [by vm_compute|]. rewrite Hc. by vm_compute.
  - destruct tcs as [|tc tcs]; [done|]. unfold member_json. cbn [forallb fst snd json_ok]. rewrite (proj2 (Nat.ltb_lt _ _)) by lia.
    rewrite andb_true_r. apply andb_true_intro. split; [by vm_compute|]. cbn [andb].
    apply forallb_forall. intros x [y [-> Hy]]%list_elem_of_In%list_elem_of_fmap.
    apply tool_call_item_ok; [lia|]. rewrite forallb_forall in Ht. by apply Ht, list_elem_of_In.
Qed.

Lemma answer_json_ok msg reason tokens : m_role msg = ROLE_ASSISTANT -> answer_ok msg = true -> str_ok reason = true ->
  (0 <= tokens <= INT_MAX)%Z -> json_ok 0 (answer_json (message_item msg) reason tokens) = true.
Proof.
  intros Hr Hok Hs Ht. assert (json_ok 3 (message_item msg) = true) as Hm.
  { apply message_item_ok; [|done..]. apply Nat.ltb_lt. by vm_compute. }
  assert (num_ok (num_of_Z tokens) = true) as Hn.
  { unfold num_ok, num_of_Z. cbn [n_exp n_mant]. rewrite (proj2 (Z.ltb_lt _ _)); [done|]. unfold INT_MAX in Ht. lia. }
  unfold answer_json, member_json, member_str. remember (message_item msg) as m. clear Heqm.
  cbn [json_ok forallb fst snd]. rewrite Hm, Hn, Hs. by vm_compute.
Qed.

(** The members of an answer. *)
Lemma message_item_content msg : m_role msg = ROLE_ASSISTANT ->
  match is_string (get_object_item (Some (message_item msg)) $"content") with Some c => c | None => [] end = m_content msg.
Proof. destruct msg as [r c ts tcs i n]. cbn [m_role]. intros ->. by destruct c. Qed.

Lemma message_item_tool_calls msg : m_role msg = ROLE_ASSISTANT ->
  match is_array (get_object_item (Some (message_item msg)) $"tool_calls") with
  | Some l => parse_tool_call <$> l | None => [] end = m_tool_calls msg.
Proof.
  destruct msg as [r c ts tcs i n]. cbn [m_role m_tool_calls]. intros ->.
  unfold message_item; cbn [m_role m_content m_tool_calls]. destruct tcs as [|tc tcs]; [done|].
  change (get_object_item _ $"tool_calls") with (Some (JArr (tool_call_item <$> tc :: tcs))). cbv beta iota delta [is_array].
  rewrite <-list_fmap_compose. rewrite <-(list_fmap_id (tc :: tcs)) at 2. apply list_fmap_ext. intros j x _. apply parse_tool_call_item.
Qed.

Lemma parse_answer msg reason tokens status e :
  m_role msg = ROLE_ASSISTANT -> answer_ok msg = true -> str_ok reason = true -> (0 <= tokens <= INT_MAX)%Z ->
  exists text, cJSON_PrintUnformatted (answer_json (message_item msg) reason tokens) = Some text /\
  parse_llm_response_json (Some text) status e =
    if bool_decide (parse_finish_reason (Some reason) = FINISH_REASON_ERROR)
    then failed (error_new ERR_CONTENT_FILTER (Some $"Content filtered by provider")) FINISH_REASON_ERROR tokens
    else mkParsed err_ok (drop_while is_line_end (m_content msg)) (m_tool_calls msg) (parse_finish_reason (Some reason)) tokens.
Proof.
  intros Hr Hok Hs Ht. destruct (unformatted_line _ (answer_json_ok _ _ _ Hr Hok Hs Ht)) as (text & Hp & _ & Hlen & Hparse).
  exists text. split; [done|]. specialize (Hparse [] I). rewrite app_nil_r in Hparse.
  unfold parse_llm_response_json. destruct text as [|c text]; [cbn in Hlen; lia|]. cbn [nonempty]. rewrite Hparse.
  set (choice := JObj [member_json $"message" (message_item msg); member_str $"finish_reason" reason]).
  change (get_object_item (Some (answer_json (message_item msg) reason tokens)) $"error") with (@None json).
  change (is_array (get_object_item (Some (answer_json (message_item msg) reason tokens)) $"choices")) with (Some [choice]).
  cbv beta iota. unfold parse_choice.
  change (reason_of choice FINISH_REASON_NONE) with (parse_finish_reason (Some reason)).
  change (usage_of (answer_json (message_item msg) reason tokens) 0) with (valueint (num_of_Z tokens)).
  assert (valueint (num_of_Z tokens) = tokens) as ->.
  { unfold valueint. rewrite num_trunc_Z. unfold INT_MAX in *. lia. }
  change (get_object_item (Some choice) $"message") with (Some (message_item msg)). cbn [mbind option_bind].
  rewrite message_item_tool_calls by done. pose proof (message_item_content msg Hr) as Hc.
  case_bool_decide as He; [by rewrite He|]. f_equal.
  destruct (is_string _) as [x|]; [by subst x|]. by rewrite <-Hc.
Qed.

(** An assistant message as the provider writes it into a request, put
    into the answer of an API that ends normally, is read back with its tool
    calls exactly, and its text less the line ends it begins with; whatever
    the HTTP status was. *)
Theorem assistant_message_roundtrip msg reason tokens status e :
  m_role msg = ROLE_ASSISTANT -> answer_ok msg = true -> str_ok reason = true -> (0 <= tokens <= INT_MAX)%Z ->
  parse_finish_reason (Some reason) <> FINISH_REASON_ERROR ->
  exists text, cJSON_PrintUnformatted (answer_json (message_item msg) reason tokens) = Some text /\
  parse_llm_response_json (Some text) status e =
    mkParsed err_ok (drop_while is_line_end (m_content msg)) (m_tool_calls msg) (parse_finish_reason (Some reason)) tokens.
Proof.
  intros Hr Hok Hs Ht He. destruct (parse_answer msg reason tokens status e Hr Hok Hs Ht) as (text & Hp & Hq).
  exists text. split; [done|]. by rewrite bool_decide_false in Hq.
Qed.

(** The answers the API marks as filtered are taken as complete answers,
    and the answers it ends for a reason the provider does not know, complete
    ones too, are refused as filtered and lost. *)
Theorem content_filter_confused msg tokens status e :
  m_role msg = ROLE_ASSISTANT -> answer_ok msg = true -> (0 <= tokens <= INT_MAX)%Z ->
  exists filtered ended,
  cJSON_PrintUnformatted (answer_json (message_item msg) $"content_filter" tokens) = Some filtered /\
  cJSON_PrintUnformatted (answer_json (message_item msg) $"end_turn" tokens) = Some ended /\
  pr_error (parse_llm_response_json (Some filtered) status e) = err_ok /\
  pr_tool_calls (parse_llm_response_json (Some filtered) status e) = m_tool_calls msg /\
  parse_llm_response_json (Some ended) status e =
    failed (error_new ERR_CONTENT_FILTER (Some $"Content filtered by provider")) FINISH_REASON_ERROR tokens.
Proof.
  intros Hr Hok Ht. destruct (parse_answer msg $"content_filter" tokens status e Hr Hok eq_refl Ht) as (f & Hf & Hf').
  destruct (parse_answer msg $"end_turn" tokens status e Hr Hok eq_refl Ht) as (d & Hd & Hd').
  exists f, d. rewrite Hf', Hd'. by split_and!.
Qed.

(** ** Inputs on which the theorems apply *)

Definition demo_answer : Message :=
  mkMessage ROLE_ASSISTANT $"
Listing it." [] [mkToolCall $"c1" $"ls" $"{}"] [] [].

Lemma request_keeps_tool_chains_witness :
  exists start items, build_messages_json (Some $"Be brief.") (Some demo_session) None = Some (JArr items) /\
  items = [system_item $"Be brief."] ++
          (if Nat.ltb 0 start then [system_item $"(Note: Older conversation history has been truncated.)"] else []) ++
          (message_item <$> drop start demo_chain) /\
  3 <= length (drop start demo_chain) /\ request_chained items.
Proof.
  destruct (request_keeps_tool_chains (Some $"Be brief.") demo_session None) as (start & items & H1 & H2 & H3 & H4).
  exists start, items. split; [exact H1|]. split; [exact H2|]. split; [exact H3|]. exact (H4 demo_chain_chained).
Defined.

Lemma assistant_message_roundtrip_witness :
  exists text, cJSON_PrintUnformatted (answer_json (message_item demo_answer) $"tool_calls" 12) = Some text /\
  parse_llm_response_json (Some text) 200 [] =
    mkParsed err_ok $"Listing it." [mkToolCall $"c1" $"ls" $"{}"] FINISH_REASON_TOOL_CALLS 12.
Proof.
  apply (assistant_message_roundtrip demo_answer $"tool_calls" 12 200 []); [done|by vm_compute|by vm_compute|by vm_compute|by vm_compute].
Defined.

Lemma content_filter_confused_witness :
  exists filtered ended,
  cJSON_PrintUnformatted (answer_json (message_item demo_answer) $"content_filter" 0) = Some filtered /\
  cJSON_PrintUnformatted (answer_json (message_item demo_answer) $"end_turn" 0) = Some ended /\
  pr_error (parse_llm_response_json (Some filtered) 200 []) = err_ok /\
  pr_tool_calls (parse_llm_response_json (Some filtered) 200 []) = m_tool_calls demo_answer /\
  parse_llm_response_json (Some ended) 200 [] =
    failed (error_new ERR_CONTENT_FILTER (Some $"Content filtered by provider")) FINISH_REASON_ERROR 0.
Proof. apply (content_filter_confused demo_answer 0 200 []); [done|by vm_compute|by vm_compute]. Defined.
