(* ===== verification/ProviderAsync.v ===== *)
(** [src/providers/openai_provider.c], second part: the manager of the
    requests in flight. Contexts live in a heap, so that the queue, the list of
    active requests and the connections share them as in the code; [None] is
    undefined behaviour, the use of a context that was freed.

    The Anthropic plugin has the same manager, for another API. What an API
    gives is the class [ChatApi]; the manager and its theorems are for any, and
    [openai_api] is the instance of this file. *)
From S2P Require Import Prelude CStr Json Common Message Session ToolRegistry Config Provider.
From stdpp Require Import fin_maps.

Open Scope Z_scope.

(** ** URLs, as mongoose takes them apart *)

Record url := mkUrl { u_user : nat; u_pass : nat; u_host : nat; u_port : nat; u_uri : nat; u_end : nat }.

Fixpoint urlparse_from (i : nat) (prev : ascii) (u : url) (s : cstr) : url :=
  match s with
  | [] => mkUrl (u_user u) (u_pass u) (u_host u) (u_port u) (u_uri u) i
  | c :: r =>
      let at_ x := bool_decide (c = x%char) in
      let zero n := Nat.eqb n 0 in
      urlparse_from (S i) c
        (if at_ "/"%char && Nat.ltb 0 i && zero (u_host u) && bool_decide (prev = "/"%char)
         then mkUrl (u_user u) (u_pass u) (S i) 0 (u_uri u) (u_end u)
         else if at_ "]"%char then mkUrl (u_user u) (u_pass u) (u_host u) 0 (u_uri u) (u_end u)
         else if at_ ":"%char && zero (u_port u) && zero (u_uri u)
         then mkUrl (u_user u) (u_pass u) (u_host u) (S i) (u_uri u) (u_end u)
         else if at_ "@"%char && zero (u_user u) && zero (u_pass u) && zero (u_uri u)
         then mkUrl (u_host u) (u_port u) (S i) 0 (u_uri u) (u_end u)
         else if at_ "/"%char && negb (zero (u_host u)) && zero (u_uri u)
         then mkUrl (u_user u) (u_pass u) (u_host u) (u_port u) i (u_end u)
         else u) r
  end.

Definition urlparse (s : cstr) : url := urlparse_from 0 "000"%char (mkUrl 0 0 0 0 0 0) s.

Definition mg_url_host (s : cstr) : cstr :=
  let u := urlparse s in
  take (if Nat.eqb (u_port u) 0 then (if Nat.eqb (u_uri u) 0 then u_end u else u_uri u) - u_host u else u_port u - u_host u - 1)%nat
    (drop (u_host u) s).

Definition mg_url_uri (s : cstr) : cstr := let u := urlparse s in if Nat.eqb (u_uri u) 0 then $"/" else drop (u_uri u) s.

(** [env] is the value of PRIMAGEN_TLS_SKIP_VERIFY. *)
Definition should_skip_tls_verification (env : option cstr) : bool :=
  match env with None => false | Some val => str_eq val $"1" || str_eq val $"true" || str_eq val $"yes" end.

(** ** What a connection collects *)

Record MemoryStruct := mkMemory {
  ms_memory : cstr; ms_capacity : N; ms_done : bool; ms_last_error : cstr; ms_http_status : Z;
}.

Inductive Event :=
  | MG_EV_HTTP_HDRS (status : Z)
  | MG_EV_HTTP_MSG (status : Z) (body : cstr)
  | MG_EV_ERROR (text : option cstr)
  | MG_EV_CLOSE.

Definition ms_size (ms : MemoryStruct) : N := N.of_nat (length (ms_memory ms)).

(** The doubling loop; one round per bit of a size is enough. *)
Fixpoint memory_capacity (fuel : nat) (new_cap need : N) : N :=
  match fuel with
  | 0%nat => new_cap
  | S f => if (new_cap <? need)%N then memory_capacity f (new_cap * 2)%N need else new_cap
  end.

(** ** The API a manager is for *)

Inductive ApiText := NoKey | NoRequest | NotConnected | TimedOut | NoMemory.

(** Keys, requests and answers of an API, and its error texts. No answer is a
    network error. *)
Class ChatApi := {
  api_key : option Config -> option cstr -> cstr;
  api_request : forall W D, option cstr -> option Session -> option (ToolRegistry W D) -> option Config -> option cstr;
  api_url : option Config -> cstr;
  api_skip_tls : option cstr -> bool;
  api_http_request : cstr -> cstr -> cstr -> cstr;
  api_parse : option cstr -> Z -> cstr -> ParsedLLMResponse;
  api_text : ApiText -> cstr;
  api_parse_nothing : forall status e, err_code (pr_error (api_parse None status e)) = ERR_NETWORK;
}.
Arguments api_request {_ W D}.

Section Memory.
(** Whether [realloc] of so many bytes succeeds. *)
Context {api : ChatApi} (realloc_ok : N -> bool).

Definition memory_add (ms : MemoryStruct) (status : Z) (body : cstr) : MemoryStruct :=
  let need := (ms_size ms + N.of_nat (length body) + 1)%N in
  if (ms_capacity ms <? need)%N then
    let new_cap := memory_capacity 64 (ms_capacity ms * 2)%N need in
    if realloc_ok new_cap then mkMemory (ms_memory ms ++ body) new_cap true (ms_last_error ms) status
    else mkMemory (ms_memory ms) (ms_capacity ms) true (api_text NoMemory) status
  else mkMemory (ms_memory ms ++ body) (ms_capacity ms) true (ms_last_error ms) status.

(** The handler of a synchronous call. *)
Definition sync_ev_handler (ev : Event) (ms : MemoryStruct) : MemoryStruct :=
  match ev with
  | MG_EV_HTTP_HDRS status => mkMemory (ms_memory ms) (ms_capacity ms) (ms_done ms) (ms_last_error ms) status
  | MG_EV_HTTP_MSG status body => memory_add ms status body
  | MG_EV_ERROR text => mkMemory (ms_memory ms) (ms_capacity ms) true (truncate_to 256 (default $"unknown" text)) (ms_http_status ms)
  | MG_EV_CLOSE =>
      if (ms_size ms =? 0)%N && negb (ms_done ms) then mkMemory (ms_memory ms) (ms_capacity ms) true (ms_last_error ms) (ms_http_status ms)
      else ms
  end.

Definition empty_memory : MemoryStruct := mkMemory [] 4096 false [] 0.

(** The string a collected body is read as. *)
Definition memory_text (ms : MemoryStruct) : cstr := take_while not_nul (ms_memory ms).

(** The polling loop of a synchronous call: the events up to the one that
    ends it, or all those before its time is over. *)
Fixpoint sync_poll (events : list Event) (ms : MemoryStruct) : MemoryStruct :=
  match events with
  | [] => ms
  | ev :: r => if ms_done ms then ms else sync_poll r (sync_ev_handler ev ms)
  end.

End Memory.

(** ** The asynchronous manager *)

Record AsyncRequestContext := mkContext {
  cx_chunk : MemoryStruct;
  cx_user_data : nat;
  cx_start_ms : Z;
  cx_timeout_ms : Z;
  cx_callback_sent : bool;
}.

Record AsyncQueueItem := mkItem {
  qi_url : cstr;
  qi_json_str : cstr;
  qi_api_key : cstr;
  qi_ctx : nat;
  qi_config : bool;
  qi_skip_tls_verify : bool;
}.

(** A connection: its [fn_data], [is_closing], and what was sent. *)
Record Connection := mkConnection { c_ctx : nat; c_closing : bool; c_sent : cstr }.

(** What a callback is given. *)
Record Answer := mkAnswer { an_error : Error; an_response : option cstr; an_tool_calls : list ToolCall }.

(** [lm_items] is the worker's own list, [lm_heap] the allocated contexts,
    [lm_next] the next address, and [lm_calls] the callbacks so far with
    their user data. *)
Record LLMAsyncManager := mkManager {
  lm_running : bool;
  lm_queue : list AsyncQueueItem;
  lm_items : list AsyncQueueItem;
  lm_dns_configured : bool;
  lm_conns : list Connection;
  lm_active : list nat;
  lm_heap : gmap nat AsyncRequestContext;
  lm_next : nat;
  lm_calls : list (nat * Answer);
}.

Definition llm_async_manager_new : LLMAsyncManager := mkManager false [] [] false [] [] ∅ 0 [].

Definition llm_async_manager_start (m : LLMAsyncManager) : LLMAsyncManager :=
  mkManager true (lm_queue m) (lm_items m) (lm_dns_configured m) (lm_conns m) (lm_active m) (lm_heap m) (lm_next m) (lm_calls m).

Definition set_heap (h : gmap nat AsyncRequestContext) (m : LLMAsyncManager) : LLMAsyncManager :=
  mkManager (lm_running m) (lm_queue m) (lm_items m) (lm_dns_configured m) (lm_conns m) (lm_active m) h (lm_next m) (lm_calls m).
Definition set_conns (cs : list Connection) (m : LLMAsyncManager) : LLMAsyncManager :=
  mkManager (lm_running m) (lm_queue m) (lm_items m) (lm_dns_configured m) cs (lm_active m) (lm_heap m) (lm_next m) (lm_calls m).
Definition set_active (l : list nat) (m : LLMAsyncManager) : LLMAsyncManager :=
  mkManager (lm_running m) (lm_queue m) (lm_items m) (lm_dns_configured m) (lm_conns m) l (lm_heap m) (lm_next m) (lm_calls m).
Definition set_lists (queue items : list AsyncQueueItem) (m : LLMAsyncManager) : LLMAsyncManager :=
  mkManager (lm_running m) queue items (lm_dns_configured m) (lm_conns m) (lm_active m) (lm_heap m) (lm_next m) (lm_calls m).
Definition callback (user : nat) (a : Answer) (m : LLMAsyncManager) : LLMAsyncManager :=
  mkManager (lm_running m) (lm_queue m) (lm_items m) (lm_dns_configured m) (lm_conns m) (lm_active m) (lm_heap m) (lm_next m)
    (lm_calls m ++ [(user, a)]).

Definition refused (code : ErrorCode) (text : cstr) : Answer := mkAnswer (error_new code (Some text)) None [].

Definition put_ctx (x : nat) (cx : AsyncRequestContext) (m : LLMAsyncManager) : LLMAsyncManager := set_heap (<[x := cx]> (lm_heap m)) m.
Definition free_ctx (x : nat) (m : LLMAsyncManager) : LLMAsyncManager := set_heap (delete x (lm_heap m)) m.

Definition async_manager_add_active (x : nat) (m : LLMAsyncManager) : LLMAsyncManager := set_active (x :: lm_active m) m.

Fixpoint unlink_ctx (x : nat) (l : list nat) : list nat :=
  match l with [] => [] | y :: r => if bool_decide (y = x) then r else y :: unlink_ctx x r end.
Definition async_manager_remove_active (x : nat) (m : LLMAsyncManager) : LLMAsyncManager := set_active (unlink_ctx x (lm_active m)) m.

Definition async_context_callback_once (x : nat) (a : Answer) (m : LLMAsyncManager) : option LLMAsyncManager :=
  cx ← lm_heap m !! x;
  if cx_callback_sent cx then Some m
  else Some (callback (cx_user_data cx) a
    (put_ctx x (mkContext (cx_chunk cx) (cx_user_data cx) (cx_start_ms cx) (cx_timeout_ms cx) true) m)).

Definition set_chunk (ms : MemoryStruct) (cx : AsyncRequestContext) : AsyncRequestContext :=
  mkContext ms (cx_user_data cx) (cx_start_ms cx) (cx_timeout_ms cx) (cx_callback_sent cx).

Definition mark_closing (x : nat) (m : LLMAsyncManager) : LLMAsyncManager :=
  set_conns ((fun c => if bool_decide (c_ctx c = x) then mkConnection (c_ctx c) true (c_sent c) else c) <$> lm_conns m) m.

Section Worker.
Context {api : ChatApi} (realloc_ok : N -> bool).

(** The answer a closed connection gives. *)
Definition answer_of (ms : MemoryStruct) : Answer :=
  let parsed := api_parse (if (0 <? ms_size ms)%N then Some (memory_text ms) else None) (ms_http_status ms)
    (match ms_last_error ms with [] => $"no payload" | e => e end) in
  mkAnswer (pr_error parsed) (Some (pr_content parsed)) (pr_tool_calls parsed).

(** The handler of a connection whose [fn_data] is [x]. *)
Definition async_ev_handler (x : nat) (ev : Event) (m : LLMAsyncManager) : option LLMAsyncManager :=
  cx ← lm_heap m !! x;
  let ms := cx_chunk cx in
  match ev with
  | MG_EV_HTTP_HDRS status =>
      Some (put_ctx x (set_chunk (mkMemory (ms_memory ms) (ms_capacity ms) (ms_done ms) (ms_last_error ms) status) cx) m)
  | MG_EV_HTTP_MSG status body =>
      Some (mark_closing x (put_ctx x (set_chunk (memory_add realloc_ok ms status body) cx) m))
  | MG_EV_ERROR text =>
      Some (put_ctx x (set_chunk (mkMemory (ms_memory ms) (ms_capacity ms) true (truncate_to 256 (default $"unknown" text)) (ms_http_status ms)) cx) m)
  | MG_EV_CLOSE =>
      m1 ← async_context_callback_once x (answer_of ms) (async_manager_remove_active x m);
      Some (free_ctx x m1)
  end.

Definition connected_to (x : nat) (c : Connection) : bool := bool_decide (c_ctx c = x).

Fixpoint remove_conn (x : nat) (cs : list Connection) : list Connection :=
  match cs with [] => [] | c :: r => if connected_to x c then r else c :: remove_conn x r end.

(** [mg_close_conn]: the connection leaves the list, then its handler is told. *)
Definition mg_close_conn (x : nat) (m : LLMAsyncManager) : option LLMAsyncManager :=
  async_ev_handler x MG_EV_CLOSE (set_conns (remove_conn x (lm_conns m)) m).

Definition timed_out (cx : AsyncRequestContext) : AsyncRequestContext :=
  let ms := cx_chunk cx in set_chunk (mkMemory (ms_memory ms) (ms_capacity ms) true (api_text TimedOut) (ms_http_status ms)) cx.

(** [now - ctx->start_ms] is a [uint64_t]. *)
Definition check_conn (now : Z) (x : nat) (m : LLMAsyncManager) : option LLMAsyncManager :=
  cx ← lm_heap m !! x;
  Some (if (0 <? cx_timeout_ms cx) && (cx_timeout_ms cx <=? wrap_u 64 (now - cx_start_ms cx))
        then mark_closing x (put_ctx x (timed_out cx) m) else m).

Fixpoint check_conns (now : Z) (xs : list nat) (m : LLMAsyncManager) : option LLMAsyncManager :=
  match xs with [] => Some m | x :: r => m' ← check_conn now x m; check_conns now r m' end.

Definition async_manager_check_timeouts (now : Z) (m : LLMAsyncManager) : option LLMAsyncManager :=
  check_conns now (c_ctx <$> lm_conns m) m.

Definition dns_for (item : AsyncQueueItem) (m : LLMAsyncManager) : LLMAsyncManager :=
  mkManager (lm_running m) (lm_queue m) (lm_items m) (lm_dns_configured m || qi_config item) (lm_conns m) (lm_active m)
    (lm_heap m) (lm_next m) (lm_calls m).

(** [connected]: whether the connection could be opened. *)
Definition async_worker_process_item (item : AsyncQueueItem) (connected : bool) (m : LLMAsyncManager) : option LLMAsyncManager :=
  let m1 := dns_for item m in
  if connected then
    let sent := api_http_request (qi_url item) (qi_json_str item) (qi_api_key item) in
    Some (async_manager_add_active (qi_ctx item) (set_conns (mkConnection (qi_ctx item) false sent :: lm_conns m1) m1))
  else
    cx ← lm_heap m1 !! qi_ctx item;
    Some (free_ctx (qi_ctx item) (callback (cx_user_data cx) (refused ERR_NETWORK (api_text NotConnected)) m1)).

Definition async_worker_dequeue_all (m : LLMAsyncManager) : LLMAsyncManager := set_lists [] (lm_queue m) m.
End Worker.

(** ** Requests *)

(** The arguments of a call: [ca_env] is OPENAI_API_KEY, [ca_skip] is
    PRIMAGEN_TLS_SKIP_VERIFY, [ca_now] is [mg_millis()], and [ca_allocations]
    how many of its three allocations succeed. *)
Record AsyncCall (W D : Type) := mkCall {
  ca_system_prompt : option cstr;
  ca_session : option Session;
  ca_tools : option (ToolRegistry W D);
  ca_config : option Config;
  ca_env : option cstr;
  ca_skip : option cstr;
  ca_now : Z;
  ca_allocations : nat;
  ca_user_data : nat;
}.
Arguments mkCall {W D}. Arguments ca_system_prompt {W D}. Arguments ca_session {W D}. Arguments ca_tools {W D}.
Arguments ca_config {W D}. Arguments ca_env {W D}. Arguments ca_skip {W D}. Arguments ca_now {W D}.
Arguments ca_allocations {W D}. Arguments ca_user_data {W D}.

Section Manager.
Context {W D : Type} {api : ChatApi} (realloc_ok : N -> bool).

Definition enqueue_request (item : AsyncQueueItem) (cx : AsyncRequestContext) (m : LLMAsyncManager) : LLMAsyncManager :=
  mkManager (lm_running m) (lm_queue m ++ [item]) (lm_items m) (lm_dns_configured m) (lm_conns m) (lm_active m)
    (<[qi_ctx item := cx]> (lm_heap m)) (S (lm_next m)) (lm_calls m).

(** For a provider with its manager; without one the call is refused. *)
Definition provider_call_async (ca : AsyncCall W D) (m : LLMAsyncManager) : LLMAsyncManager :=
  let refuse code text := callback (ca_user_data ca) (refused code text) m in
  let key := api_key (ca_config ca) (ca_env ca) in
  match key with
  | [] => refuse ERR_INVALID_PARAM (api_text NoKey)
  | _ =>
      match api_request (ca_system_prompt ca) (ca_session ca) (ca_tools ca) (ca_config ca) with
      | None => refuse ERR_NETWORK (api_text NoRequest)
      | Some json_str =>
          match ca_allocations ca with
          | 0%nat => refuse ERR_MEMORY $"OOM allocating request context"
          | 1%nat => refuse ERR_MEMORY $"OOM allocating response buffer"
          | 2%nat => refuse ERR_NETWORK $"OOM"
          | _ =>
              enqueue_request
                (mkItem (api_url (ca_config ca)) json_str key (lm_next m) (bool_decide (is_Some (ca_config ca)))
                  (api_skip_tls (ca_skip ca)))
                (mkContext empty_memory (ca_user_data ca) (ca_now ca) 120000 false) m
          end
      end
  end.

(** What happens to a running manager: calls of other threads, and the
    pieces of the worker's loop. A connection may be closed at any time. *)
Inductive AsyncOp :=
  | OpCall (ca : AsyncCall W D)
  | OpDequeue
  | OpProcess (connected : bool)
  | OpEvent (x : nat) (ev : Event)
  | OpClose (x : nat)
  | OpTimeouts (now : Z).

Definition run_op (op : AsyncOp) (m : LLMAsyncManager) : option LLMAsyncManager :=
  match op with
  | OpCall ca => Some (provider_call_async ca m)
  | OpDequeue => Some (match lm_items m with [] => async_worker_dequeue_all m | _ => m end)
  | OpProcess connected =>
      match lm_items m with
      | [] => Some m
      | item :: items => async_worker_process_item item connected (set_lists (lm_queue m) items m)
      end
  | OpEvent x ev =>
      if existsb (connected_to x) (lm_conns m) then
        match ev with MG_EV_CLOSE => mg_close_conn realloc_ok x m | ev => async_ev_handler realloc_ok x ev m end
      else Some m
  | OpClose x => if existsb (connected_to x) (lm_conns m) then mg_close_conn realloc_ok x m else Some m
  | OpTimeouts now => async_manager_check_timeouts now m
  end.

Fixpoint run_ops (ops : list AsyncOp) (m : LLMAsyncManager) : option LLMAsyncManager :=
  match ops with [] => Some m | op :: r => m' ← run_op op m; run_ops r m' end.

(** Closes every connection marked for it, as a poll does. *)
Fixpoint close_conns (xs : list nat) (m : LLMAsyncManager) : option LLMAsyncManager :=
  match xs with [] => Some m | x :: r => m' ← mg_close_conn realloc_ok x m; close_conns r m' end.
Definition close_marked (m : LLMAsyncManager) : option LLMAsyncManager :=
  close_conns (c_ctx <$> List.filter c_closing (lm_conns m)) m.

(** ** The end of the worker *)

Fixpoint refuse_items (items : list AsyncQueueItem) (m : LLMAsyncManager) : option LLMAsyncManager :=
  match items with
  | [] => Some m
  | i :: r => cx ← lm_heap m !! qi_ctx i;
              refuse_items r (free_ctx (qi_ctx i) (callback (cx_user_data cx) (refused ERR_NETWORK $"Shutting down") m))
  end.

Fixpoint refuse_active (xs : list nat) (m : LLMAsyncManager) : option LLMAsyncManager :=
  match xs with
  | [] => Some m
  | x :: r => m' ← async_context_callback_once x (refused ERR_NETWORK $"Shutting down") m; refuse_active r (free_ctx x m')
  end.

(** [events]: what the last poll delivers. *)
Definition llm_async_worker_end (events : list (nat * Event)) (m : LLMAsyncManager) : option LLMAsyncManager :=
  m1 ← refuse_items (lm_queue m) (set_lists [] (lm_items m) m);
  m2 ← run_ops ((fun e => OpEvent (fst e) (snd e)) <$> events) m1;
  refuse_active (lm_active m2) (set_active [] m2).

Definition llm_async_manager_stop (events : list (nat * Event)) (m : LLMAsyncManager) : option LLMAsyncManager :=
  if lm_running m then
    llm_async_worker_end events (mkManager false (lm_queue m) (lm_items m) (lm_dns_configured m) (lm_conns m) (lm_active m)
      (lm_heap m) (lm_next m) (lm_calls m))
  else Some m.

(** [mg_mgr_free] closes every connection that is left. *)
Definition mg_mgr_free (m : LLMAsyncManager) : option LLMAsyncManager := close_conns (c_ctx <$> lm_conns m) m.

Definition provider_shutdown (events : list (nat * Event)) (m : LLMAsyncManager) : option LLMAsyncManager :=
  m' ← llm_async_manager_stop events m; mg_mgr_free m'.

(** ** Every request is answered once *)

Definition users (h : gmap nat AsyncRequestContext) : list nat := cx_user_data ∘ snd <$> map_to_list h.

Definition op_users (op : AsyncOp) : list nat := match op with OpCall ca => [ca_user_data ca] | _ => [] end.
Definition submitted (ops : list AsyncOp) : list nat := ops ≫= op_users.

Lemma users_insert x cx h : h !! x = None -> users (<[x := cx]> h) ≡ₚ cx_user_data cx :: users h.
Proof. intros Hx. unfold users. by rewrite map_to_list_insert. Qed.

Lemma users_delete x cx h : h !! x = Some cx -> users h ≡ₚ cx_user_data cx :: users (delete x h).
Proof. intros Hx. rewrite <-users_insert by apply lookup_delete_eq. by rewrite insert_delete_id. Qed.

Lemma users_update x cx cx' h : h !! x = Some cx -> cx_user_data cx' = cx_user_data cx -> users (<[x := cx']> h) ≡ₚ users h.
Proof.
  intros Hx Hu. rewrite <-insert_delete_eq, users_insert by apply lookup_delete_eq.
  by rewrite Hu, <-users_delete.
Qed.

(** The requests not yet answered, wherever they are. *)
Definition pending (m : LLMAsyncManager) : list nat := (qi_ctx <$> lm_queue m) ++ (qi_ctx <$> lm_items m) ++ lm_active m.

(** [p] are the addresses of the contexts allocated in [h], below [n]. *)
Record owned (p : list nat) (h : gmap nat AsyncRequestContext) (n : nat) : Prop := {
  owned_once : NoDup p;
  owned_heap : forall x, is_Some (h !! x) <-> x ∈ p;
  owned_next : forall x, x ∈ p -> (x < n)%nat;
  owned_ctx : forall x cx, h !! x = Some cx -> cx_callback_sent cx = false /\ cx_timeout_ms cx = 120000;
}.

Definition linked (m : LLMAsyncManager) : Prop := c_ctx <$> lm_conns m = lm_active m.
Definition manager_ok (m : LLMAsyncManager) : Prop := owned (pending m) (lm_heap m) (lm_next m) /\ linked m.

(** The users of a manager: those answered and those to be. *)
Definition all_users (m : LLMAsyncManager) : list nat := (fst <$> lm_calls m) ++ users (lm_heap m).

Lemma owned_perm p q h n : p ≡ₚ q -> owned p h n -> owned q h n.
Proof.
  intros Hp [H1 H2 H3 H4]. split; [by rewrite <-Hp| |intros x Hx; apply H3; by rewrite Hp|done].
  intros x. rewrite H2. by rewrite Hp.
Qed.

Lemma owned_lookup p h n x : owned p h n -> x ∈ p -> exists cx, h !! x = Some cx.
Proof. intros [_ H _ _] Hx. apply H in Hx as [cx Hcx]. by exists cx. Qed.

Lemma owned_drop x p h n : owned (x :: p) h n -> owned p (delete x h) n.
Proof.
  intros [H1 H2 H3 H4]. apply NoDup_cons in H1 as [Hx H1]. split; [done| |intros y Hy; apply H3; by right|].
  - intros y. destruct (decide (y = x)) as [->|Hne].
    + rewrite lookup_delete_eq. split; [by intros [? ?]|done].
    + rewrite lookup_delete_ne by done. rewrite H2, elem_of_cons. naive_solver.
  - intros y cx [_ Hy]%lookup_delete_Some. by eapply H4.
Qed.

Lemma owned_add p h n cx : owned p h n -> cx_callback_sent cx = false -> cx_timeout_ms cx = 120000 ->
  owned (n :: p) (<[n := cx]> h) (S n).
Proof.
  intros [H1 H2 H3 H4] Hs Ht. split.
  - apply NoDup_cons. split; [|done]. intros Hn%H3. lia.
  - intros y. rewrite elem_of_cons. destruct (decide (y = n)) as [->|Hne].
    + rewrite lookup_insert_eq. split; [by left|by eexists].
    + rewrite lookup_insert_ne by done. rewrite H2. naive_solver.
  - intros y [->|Hy]%elem_of_cons; [lia|]. apply H3 in Hy. lia.
  - intros y cy [[<- <-]|[_ Hy]]%lookup_insert_Some; [done|]. by eapply H4.
Qed.

Lemma owned_update p h n x cx cx' : owned p h n -> h !! x = Some cx ->
  cx_callback_sent cx' = cx_callback_sent cx -> cx_timeout_ms cx' = cx_timeout_ms cx -> owned p (<[x := cx']> h) n.
Proof.
  intros [H1 H2 H3 H4] Hx Hs Ht. split; [done| |done|].
  - intros y. destruct (decide (y = x)) as [->|Hne].
    + rewrite lookup_insert_eq, <-H2, Hx. split; by eexists.
    + by rewrite lookup_insert_ne.
  - intros y cy [[<- <-]|[_ Hy]]%lookup_insert_Some; [|by eapply H4]. rewrite Hs, Ht. by eapply H4.
Qed.

Lemma owned_fresh p h n : owned p h n -> h !! n = None.
Proof. intros [_ H2 H3 _]. destruct (h !! n) eqn:E; [|done]. assert (n < n)%nat; [|lia]. apply H3, H2. by eexists. Qed.

Lemma unlink_ctx_perm x l : x ∈ l -> l ≡ₚ x :: unlink_ctx x l.
Proof.
  induction l as [|y l IH]; [by intros []%elem_of_nil|]. cbn. case_bool_decide as Hy; [by subst|].
  intros [->|Hx]%elem_of_cons; [done|]. rewrite (IH Hx) at 1. by rewrite Permutation_swap.
Qed.

Lemma remove_conn_ctx x cs : c_ctx <$> remove_conn x cs = unlink_ctx x (c_ctx <$> cs).
Proof. induction cs as [|c cs IH]; [done|]. cbn. unfold connected_to. case_bool_decide; [done|]. cbn. by rewrite IH. Qed.

Lemma connected_spec x cs : existsb (connected_to x) cs = true <-> x ∈ c_ctx <$> cs.
Proof.
  rewrite existsb_exists, list_elem_of_fmap. split; intros (c & H1 & H2).
  - apply bool_decide_eq_true in H2. exists c. by rewrite list_elem_of_In.
  - exists c. rewrite <-list_elem_of_In. unfold connected_to. by rewrite bool_decide_eq_true.
Qed.

Lemma mark_closing_linked x m : linked m -> linked (mark_closing x m).
Proof.
  unfold linked, mark_closing, set_conns. cbn [lm_conns lm_active]. intros <-. rewrite <-list_fmap_compose.
  apply list_fmap_ext. intros i c _. cbn. by case_bool_decide.
Qed.

(** A request leaves the heap and its user is called. *)
Lemma all_users_answer m m' x cx a : lm_heap m !! x = Some cx -> lm_heap m' = delete x (lm_heap m) ->
  lm_calls m' = lm_calls m ++ [(cx_user_data cx, a)] -> all_users m' ≡ₚ all_users m.
Proof.
  intros Hx Hh Hc. unfold all_users. rewrite Hh, Hc, fmap_app, <-app_assoc. cbn. by rewrite <-users_delete.
Qed.

Lemma callback_once_drop x a m cx : lm_heap m !! x = Some cx -> cx_callback_sent cx = false ->
  exists m', async_context_callback_once x a m = Some m' /\
  free_ctx x m' = callback (cx_user_data cx) a (free_ctx x m).
Proof.
  intros Hx Hs. unfold async_context_callback_once. rewrite Hx. cbn [mbind option_bind]. rewrite Hs. eexists. split; [done|].
  unfold free_ctx, callback, put_ctx, set_heap. cbn. by rewrite delete_insert_eq.
Qed.

Lemma mg_close_conn_spec x m : manager_ok m -> x ∈ lm_active m ->
  exists m' cx, mg_close_conn realloc_ok x m = Some m' /\ lm_heap m !! x = Some cx /\ manager_ok m' /\
  all_users m' ≡ₚ all_users m /\ lm_calls m' = lm_calls m ++ [(cx_user_data cx, answer_of (cx_chunk cx))] /\
  lm_active m' = unlink_ctx x (lm_active m) /\ lm_queue m' = lm_queue m /\ lm_items m' = lm_items m /\
  lm_heap m' = delete x (lm_heap m) /\ lm_conns m' = remove_conn x (lm_conns m).
Proof.
  intros [Hown Hl] Hx. assert (pending m ≡ₚ x :: ((qi_ctx <$> lm_queue m) ++ (qi_ctx <$> lm_items m) ++ unlink_ctx x (lm_active m))) as Hp.
  { unfold pending. rewrite (unlink_ctx_perm x (lm_active m) Hx) at 1. by rewrite <-!Permutation_middle. }
  destruct (owned_lookup _ _ _ x Hown ltac:(rewrite Hp; by left)) as [cx Hcx].
  unfold mg_close_conn, async_ev_handler. cbn [set_conns lm_heap]. rewrite Hcx. cbn [mbind option_bind].
  destruct (callback_once_drop x (answer_of (cx_chunk cx))
    (async_manager_remove_active x (set_conns (remove_conn x (lm_conns m)) m)) cx Hcx
    ltac:(by eapply owned_ctx)) as (m1 & -> & Hf).
  cbn [mbind option_bind]. rewrite Hf. eexists _, cx. split; [done|].
  split_and!; try done.
  - split; cbn.
    + eapply owned_drop, owned_perm; [|done]. by rewrite Hp.
    + unfold linked. cbn. by rewrite remove_conn_ctx, Hl.
  - by eapply all_users_answer.
Qed.

Definition stepped (m m' : LLMAsyncManager) (us : list nat) : Prop :=
  manager_ok m' /\ all_users m' ≡ₚ us ++ all_users m.

Lemma put_ctx_stepped x cx cx' m : manager_ok m -> lm_heap m !! x = Some cx -> cx_user_data cx' = cx_user_data cx ->
  cx_callback_sent cx' = cx_callback_sent cx -> cx_timeout_ms cx' = cx_timeout_ms cx -> stepped m (put_ctx x cx' m) [].
Proof.
  intros [Hown Hl] Hx Hu Hs Ht. split; [split; [by eapply owned_update|done]|].
  unfold all_users, put_ctx. cbn. by rewrite users_update.
Qed.

Lemma mark_closing_stepped x m m' us : stepped m m' us -> stepped m (mark_closing x m') us.
Proof. intros [[H1 H2] H3]. split; [split; [done|by apply mark_closing_linked]|done]. Qed.

Lemma event_stepped x ev m : manager_ok m -> x ∈ lm_active m -> ev <> MG_EV_CLOSE ->
  exists m', async_ev_handler realloc_ok x ev m = Some m' /\ stepped m m' [].
Proof.
  intros Hok Hx Hev. destruct (owned_lookup _ _ _ x (proj1 Hok)) as [cx Hcx].
  { unfold pending. rewrite !elem_of_app. by right; right. }
  unfold async_ev_handler. rewrite Hcx. cbn [mbind option_bind].
  destruct ev as [st|st body|text|]; [| | |done]; eexists; (split; [done|]).
  - by eapply put_ctx_stepped.
  - apply mark_closing_stepped. by eapply put_ctx_stepped.
  - by eapply put_ctx_stepped.
Qed.

(** A request older than its limit. *)
Definition overdue (now : Z) (cx : AsyncRequestContext) : Prop :=
  cx_timeout_ms cx <= now - cx_start_ms cx < 2 ^ 64.

Definition marked (x : nat) (m : LLMAsyncManager) : Prop := exists c, c ∈ lm_conns m /\ c_ctx c = x /\ c_closing c = true.

Lemma mark_closing_keeps x y m : marked y m -> marked y (mark_closing x m).
Proof.
  intros (c & Hc & Hx & Hcl). unfold marked, mark_closing, set_conns. cbn [lm_conns].
  exists (if bool_decide (c_ctx c = x) then mkConnection (c_ctx c) true (c_sent c) else c). split.
  - apply list_elem_of_fmap. by exists c.
  - by case_bool_decide.
Qed.

Lemma mark_closing_marks x m : x ∈ c_ctx <$> lm_conns m -> marked x (mark_closing x m).
Proof.
  intros (c & -> & Hc)%list_elem_of_fmap. unfold marked, mark_closing, set_conns. cbn [lm_conns].
  exists (mkConnection (c_ctx c) true (c_sent c)). split; [|done]. apply list_elem_of_fmap. exists c. by rewrite bool_decide_true.
Qed.

Lemma check_conn_spec now x m : manager_ok m -> x ∈ lm_active m ->
  exists m' cx, check_conn now x m = Some m' /\ stepped m m' [] /\ lm_active m' = lm_active m /\ lm_heap m !! x = Some cx /\
  (overdue now cx -> lm_heap m' !! x = Some (timed_out cx) /\ marked x m') /\
  (forall y, y <> x -> lm_heap m' !! y = lm_heap m !! y) /\ (forall y, marked y m -> marked y m').
Proof.
  intros Hok Hx. destruct (owned_lookup _ _ _ x (proj1 Hok)) as [cx Hcx].
  { unfold pending. rewrite !elem_of_app. by right; right. }
  unfold check_conn. rewrite Hcx. cbn [mbind option_bind]. eexists _, cx. split; [done|].
  assert (cx_timeout_ms cx = 120000) as Ht by (by eapply owned_ctx; [apply Hok|]).
  destruct (_ && _) eqn:E.
  - split_and!; [|done..| | |].
    + apply mark_closing_stepped. by eapply put_ctx_stepped.
    + intros _. split; [apply lookup_insert_eq|]. apply mark_closing_marks. cbn. by rewrite (proj2 Hok).
    + intros y Hy. cbn. by apply lookup_insert_ne.
    + intros y Hm. apply mark_closing_keeps. exact Hm.
  - split_and!; try done. intros Ho. exfalso. unfold overdue in Ho. rewrite Ht, wrap_u_id in E by lia. cbn in E. lia.
Qed.

Lemma check_conns_spec now xs : forall m, manager_ok m -> NoDup xs -> (forall x, x ∈ xs -> x ∈ lm_active m) ->
  exists m', check_conns now xs m = Some m' /\ stepped m m' [] /\ lm_active m' = lm_active m /\
  (forall x cx, x ∈ xs -> lm_heap m !! x = Some cx -> overdue now cx -> lm_heap m' !! x = Some (timed_out cx) /\ marked x m') /\
  (forall y, y ∉ xs -> lm_heap m' !! y = lm_heap m !! y) /\ (forall y, marked y m -> marked y m').
Proof.
  induction xs as [|x xs IH]; intros m Hok Hnd Hin.
  { exists m. split_and!; try done. by intros x cx ?%elem_of_nil. }
  apply NoDup_cons in Hnd as [Hx Hnd]. cbn [check_conns].
  destruct (check_conn_spec now x m Hok (Hin x ltac:(by left))) as (m1 & cx & -> & [Hok1 Hu1] & Ha1 & Hcx & Hov & Hne & Hmk).
  cbn [mbind option_bind].
  destruct (IH m1 Hok1 Hnd) as (m' & Hm' & [Hok' Hu'] & Ha' & Hov' & Hne' & Hmk').
  { intros y Hy. rewrite Ha1. apply Hin. by right. }
  exists m'. split_and!; [done|split; [done|by rewrite Hu', Hu1]|by rewrite Ha', Ha1| | |auto].
  - intros y cy [->|Hy]%elem_of_cons Hcy Ho; [|apply Hov'; [done| |done]; rewrite Hne; [done|naive_solver]].
    simplify_eq. destruct (Hov Ho) as [Hh Hm]. split; [by rewrite Hne'|auto].
  - intros y [Hy1 Hy2]%not_elem_of_cons. by rewrite Hne', Hne.
Qed.

Lemma active_NoDup m : manager_ok m -> NoDup (lm_active m).
Proof. intros [[H _ _ _] _]. unfold pending in H. by apply NoDup_app in H as (_ & _ & (_ & _ & H)%NoDup_app). Qed.

Lemma check_timeouts_spec now m : manager_ok m ->
  exists m', async_manager_check_timeouts now m = Some m' /\ stepped m m' [] /\ lm_active m' = lm_active m /\
  forall x cx, x ∈ lm_active m -> lm_heap m !! x = Some cx -> overdue now cx -> lm_heap m' !! x = Some (timed_out cx) /\ marked x m'.
Proof.
  intros Hok. unfold async_manager_check_timeouts. rewrite (proj2 Hok).
  destruct (check_conns_spec now (lm_active m) m Hok) as (m' & ? & ? & ? & ? & _); [by apply active_NoDup|done|]. by exists m'.
Qed.

Lemma callback_stepped user a m : manager_ok m -> stepped m (callback user a m) [user].
Proof.
  intros Hok. split; [done|]. unfold all_users. cbn. rewrite fmap_app, <-app_assoc. cbn. by rewrite Permutation_middle.
Qed.

Lemma call_async_stepped (ca : AsyncCall W D) m : manager_ok m -> stepped m (provider_call_async ca m) [ca_user_data ca].
Proof.
  intros Hok. unfold provider_call_async. cbv zeta.
  destruct (api_key _ _); [by apply callback_stepped|].
  destruct (api_request _ _ _ _) as [json_str|]; [|by apply callback_stepped].
  destruct (ca_allocations ca) as [|[|[|]]]; try by apply callback_stepped.
  destruct Hok as [Hown Hl]. split; [split; [|done]|].
  - unfold enqueue_request, pending. cbn. rewrite fmap_app, <-app_assoc. cbn.
    eapply owned_perm; [|by apply owned_add]. unfold pending. by rewrite <-Permutation_middle.
  - unfold all_users, enqueue_request. cbn. rewrite users_insert by (by eapply owned_fresh). cbn. by rewrite <-Permutation_middle.
Qed.

Lemma process_stepped item items connected m : manager_ok m -> lm_items m = item :: items ->
  exists m', async_worker_process_item item connected (set_lists (lm_queue m) items m) = Some m' /\ stepped m m' [].
Proof.
  intros [Hown Hl] Hi. unfold async_worker_process_item. destruct connected.
  - eexists. split; [done|]. split; [split|done].
    + eapply owned_perm; [|done]. unfold pending. cbn. rewrite Hi. cbn. by rewrite <-!Permutation_middle.
    + unfold linked in *. cbn. by rewrite Hl.
  - assert (pending m ≡ₚ qi_ctx item :: pending (set_lists (lm_queue m) items m)) as Hp.
    { unfold pending. cbn. rewrite Hi. cbn. by rewrite <-Permutation_middle. }
    destruct (owned_lookup _ _ _ (qi_ctx item) Hown ltac:(rewrite Hp; by left)) as [cx Hcx].
    cbn [dns_for set_lists lm_heap]. rewrite Hcx. cbn [mbind option_bind]. eexists. split; [done|].
    split; [split; [|done]|by eapply all_users_answer].
    eapply owned_drop, owned_perm; [|done]. by rewrite Hp.
Qed.

Lemma run_op_stepped (op : AsyncOp) m : manager_ok m ->
  exists m', run_op op m = Some m' /\ stepped m m' (op_users op).
Proof.
  intros Hok. destruct op as [ca| |connected|x ev|x|now]; cbn [run_op op_users].
  - eexists. split; [done|]. by apply call_async_stepped.
  - destruct (lm_items m) eqn:Ei; [|by exists m]. eexists. split; [done|]. split; [split; [|apply Hok]|done].
    destruct Hok as [Hown _]. unfold pending in *. cbn. by rewrite Ei in Hown.
  - destruct (lm_items m) as [|item items] eqn:Ei; [by exists m|]. by apply process_stepped.
  - destruct (existsb _ _) eqn:Ex; [|by exists m]. apply connected_spec in Ex. rewrite (proj2 Hok) in Ex.
    destruct (mg_close_conn_spec x m Hok Ex) as (m' & cx & Hc & _ & Hm & Hu & _).
    destruct ev; try (by apply event_stepped). exists m'. by split_and!.
  - destruct (existsb _ _) eqn:Ex; [|by exists m]. apply connected_spec in Ex. rewrite (proj2 Hok) in Ex.
    destruct (mg_close_conn_spec x m Hok Ex) as (m' & cx & Hc & _ & Hm & Hu & _). exists m'. by split_and!.
  - destruct (check_timeouts_spec now m Hok) as (m' & Hm & Hs & _). by exists m'.
Qed.

Lemma run_ops_stepped (ops : list AsyncOp) : forall m, manager_ok m ->
  exists m', run_ops ops m = Some m' /\ stepped m m' (submitted ops).
Proof.
  induction ops as [|op ops IH]; intros m Hok; [by exists m|]. cbn [run_ops].
  destruct (run_op_stepped op m Hok) as (m1 & -> & Hok1 & Hu1). cbn [mbind option_bind].
  destruct (IH m1 Hok1) as (m2 & Hm2 & Hok2 & Hu2). exists m2. split; [done|]. split; [done|].
  rewrite Hu2, Hu1. unfold submitted. cbn. rewrite !app_assoc. f_equiv. apply Permutation_app_comm.
Qed.

Lemma new_manager_ok : manager_ok (llm_async_manager_start llm_async_manager_new).
Proof.
  split; [|done]. split; [constructor| | |].
  - intros x. cbn. rewrite lookup_empty. split; [by intros [? ?]|by intros ?%elem_of_nil].
  - by intros x ?%elem_of_nil.
  - intros x cx. cbn. by rewrite lookup_empty.
Qed.

(** ** The shutdown *)

Lemma refuse_items_spec items : forall m, owned ((qi_ctx <$> items) ++ lm_active m) (lm_heap m) (lm_next m) -> 
  exists m', refuse_items items m = Some m' /\ owned (lm_active m) (lm_heap m') (lm_next m') /\ lm_active m' = lm_active m /\
  lm_conns m' = lm_conns m /\ lm_queue m' = lm_queue m /\ lm_items m' = lm_items m /\ all_users m' ≡ₚ all_users m.
Proof.
  induction items as [|i items IH]; intros m Hown; [by exists m|]. cbn [refuse_items].
  destruct (owned_lookup _ _ _ (qi_ctx i) Hown ltac:(by left)) as [cx Hcx]. rewrite Hcx. cbn [mbind option_bind].
  set (m1 := free_ctx _ _). destruct (IH m1) as (m' & Hr & Ho & Ha & Hc & Hq & Hi & Hu); [by apply owned_drop in Hown|].
  exists m'. split_and!; try done. rewrite Hu. by eapply all_users_answer.
Qed.

Lemma refuse_active_spec xs : forall m, owned xs (lm_heap m) (lm_next m) ->
  exists m', refuse_active xs m = Some m' /\ owned [] (lm_heap m') (lm_next m') /\ lm_active m' = lm_active m /\
  lm_conns m' = lm_conns m /\ lm_queue m' = lm_queue m /\ lm_items m' = lm_items m /\ all_users m' ≡ₚ all_users m.
Proof.
  induction xs as [|x xs IH]; intros m Hown; [by exists m|]. cbn [refuse_active].
  destruct (owned_lookup _ _ _ x Hown ltac:(by left)) as [cx Hcx].
  destruct (callback_once_drop x (refused ERR_NETWORK $"Shutting down") m cx Hcx ltac:(by eapply owned_ctx)) as (m0 & -> & Hf).
  cbn [mbind option_bind]. rewrite Hf. set (m1 := callback _ _ _).
  destruct (IH m1) as (m' & Hr & Ho & Ha & Hc & Hq & Hi & Hu); [by apply owned_drop in Hown|].
  exists m'. split_and!; try done. rewrite Hu. by eapply all_users_answer.
Qed.

Lemma owned_nothing h n : owned [] h n -> h = ∅.
Proof.
  intros [_ H _ _]. apply map_empty. intros x. destruct (h !! x) eqn:E; [|done].
  by assert (x ∈ []) as ?%elem_of_nil by (apply H; by eexists).
Qed.

(** The events of connections leave the queues alone. *)
Lemma event_lists x ev m m' : async_ev_handler realloc_ok x ev m = Some m' -> ev <> MG_EV_CLOSE ->
  lm_queue m' = lm_queue m /\ lm_items m' = lm_items m.
Proof.
  unfold async_ev_handler. destruct (lm_heap m !! x); [|done]. cbn [mbind option_bind].
  destruct ev; intros H Hev; [| | |done]; by injection H as <-.
Qed.

Lemma events_only (events : list (nat * Event)) : forall m, manager_ok m ->
  exists m', run_ops ((fun e => OpEvent (fst e) (snd e)) <$> events) m = Some m' /\ stepped m m' [] /\
  lm_queue m' = lm_queue m /\ lm_items m' = lm_items m.
Proof.
  induction events as [|[x ev] events IH]; intros m Hok; [by exists m|]. rewrite fmap_cons. cbn [run_ops fst snd].
  assert (exists m1, run_op (OpEvent x ev) m = Some m1 /\ stepped m m1 [] /\ lm_queue m1 = lm_queue m /\ lm_items m1 = lm_items m)
    as (m1 & -> & [Hok1 Hu1] & Hq1 & Hi1).
  { destruct (run_op_stepped (OpEvent x ev) m Hok) as (m1 & Hm1 & Hst). exists m1. split_and!; [done..| |].
    all: cbn [run_op] in Hm1; destruct (existsb _ _) eqn:Ex; [|by injection Hm1 as <-].
    all: apply connected_spec in Ex; rewrite (proj2 Hok) in Ex.
    all: destruct (mg_close_conn_spec x m Hok Ex) as (m1' & cx & Hc & _ & _ & _ & _ & _ & Hq & Hi & _).
    all: destruct ev; try (by apply (event_lists x _ m m1 Hm1)); rewrite Hc in Hm1; by injection Hm1 as <-. }
  cbn [mbind option_bind]. destruct (IH m1 Hok1) as (m' & Hm' & [Hok' Hu'] & Hq & Hi).
  exists m'. split_and!; [done|split; [done|by rewrite Hu', Hu1]|by rewrite Hq|by rewrite Hi].
Qed.

(** The last poll and the end of the worker. *)
Lemma worker_end_spec events m : manager_ok m -> lm_items m = [] ->
  exists m', llm_async_worker_end events m = Some m' /\ lm_heap m' = ∅ /\ lm_active m' = [] /\ lm_items m' = [] /\
  lm_queue m' = [] /\ (fst <$> lm_calls m') ≡ₚ all_users m /\ (events = [] -> lm_conns m' = lm_conns m).
Proof.
  intros [Hown Hl] Hi. unfold llm_async_worker_end.
  destruct (refuse_items_spec (lm_queue m) (set_lists [] (lm_items m) m)) as (m1 & -> & Ho1 & Ha1 & Hc1 & Hq1 & Hi1 & Hu1).
  { unfold pending in Hown. by rewrite Hi in Hown. }
  cbn [mbind option_bind]. cbn [set_lists lm_active lm_conns lm_queue lm_items] in *.
  assert (manager_ok m1) as Hok1.
  { split; [|unfold linked in *; by rewrite Hc1, Ha1]. unfold pending. rewrite Hq1, Hi1, Hi, Ha1. done. }
  destruct (events_only events m1 Hok1) as (m2 & Hm2 & [[Ho2 Hl2] Hu2] & Hq2 & Hi2). rewrite Hm2. cbn [mbind option_bind].
  destruct (refuse_active_spec (lm_active m2) (set_active [] m2)) as (m3 & -> & Ho3 & Ha3 & Hc3 & Hq3 & Hi3 & Hu3).
  { unfold pending in Ho2. by rewrite Hq2, Hi2, Hq1, Hi1, Hi in Ho2. }
  apply owned_nothing in Ho3. cbn [set_active lm_active lm_items lm_queue] in *.
  exists m3. split_and!; [done..|by rewrite Hi3, Hi2, Hi1|by rewrite Hq3, Hq2, Hq1| |].
  2: { intros ->. injection Hm2 as <-. by rewrite Hc3. }
  transitivity (all_users m3); [unfold all_users; rewrite Ho3; by rewrite app_nil_r|].
  rewrite Hu3. change (all_users (set_active [] m2)) with (all_users m2). rewrite Hu2, Hu1. done.
Qed.

Lemma unlink_ctx_elem x y l : NoDup l -> y ∈ unlink_ctx x l <-> y ∈ l /\ y <> x.
Proof.
  induction l as [|z l IH]; intros Hnd; [cbn; rewrite elem_of_nil; naive_solver|].
  apply NoDup_cons in Hnd as [Hz Hnd]. cbn. case_bool_decide as Hzx; rewrite ?elem_of_cons, ?IH by done; naive_solver.
Qed.

(** Closing connections answers their requests and no others. *)
Lemma close_conns_spec xs : forall m, manager_ok m -> NoDup xs -> (forall x, x ∈ xs -> x ∈ lm_active m) ->
  exists m', close_conns xs m = Some m' /\ manager_ok m' /\ (forall y, y ∈ lm_active m' <-> y ∈ lm_active m /\ y ∉ xs) /\
  (exists l, lm_calls m' = lm_calls m ++ l) /\
  (forall x cx, x ∈ xs -> lm_heap m !! x = Some cx -> (cx_user_data cx, answer_of (cx_chunk cx)) ∈ lm_calls m').
Proof.
  induction xs as [|x xs IH]; intros m Hok Hnd Hin.
  { exists m. split_and!; [done..| |exists []; by rewrite app_nil_r|by intros x cx ?%elem_of_nil].
    intros y. split; [|by intros []]. intros Hy. split; [done|]. by intros ?%elem_of_nil. }
  apply NoDup_cons in Hnd as [Hx Hnd]. cbn [close_conns].
  destruct (mg_close_conn_spec x m Hok (Hin x ltac:(by left))) as (m1 & cx & -> & Hcx & Hok1 & _ & Hc1 & Ha1 & _ & _ & Hh1 & _).
  cbn [mbind option_bind]. destruct (IH m1 Hok1 Hnd) as (m' & Hm' & Hok' & Ha' & [l Hl] & Hcalls).
  { intros y Hy. rewrite Ha1, unlink_ctx_elem by (by apply active_NoDup). split; [apply Hin; by right|]. by intros ->. }
  exists m'. split_and!; [done..| |exists ([(cx_user_data cx, answer_of (cx_chunk cx))] ++ l); by rewrite Hl, Hc1, app_assoc|].
  - intros y. rewrite Ha', Ha1, unlink_ctx_elem by (by apply active_NoDup). rewrite not_elem_of_cons. naive_solver.
  - intros y cy [->|Hy]%elem_of_cons Hcy.
    + simplify_eq. rewrite Hl, Hc1, !elem_of_app. left; right. by left.
    + apply (Hcalls y cy Hy). rewrite Hh1, lookup_delete_ne; [done|]. by intros ->.
Qed.

Lemma marked_list x m : x ∈ c_ctx <$> List.filter c_closing (lm_conns m) <-> marked x m.
Proof.
  rewrite list_elem_of_fmap. unfold marked. setoid_rewrite list_elem_of_In. setoid_rewrite List.filter_In. naive_solver.
Qed.

Lemma filter_ctx_NoDup (cs : list Connection) : NoDup (c_ctx <$> cs) -> NoDup (c_ctx <$> List.filter c_closing cs).
Proof.
  induction cs as [|c cs IH]; [done|]. rewrite fmap_cons. intros [Hc Hnd]%NoDup_cons. cbn. destruct (c_closing c); [|by apply IH].
  rewrite fmap_cons. apply NoDup_cons. split; [|by apply IH]. intros (d & Hd & Hin)%list_elem_of_fmap. apply Hc, list_elem_of_fmap. exists d.
  split; [done|]. apply list_elem_of_In, List.filter_In in Hin as [Hin _]. by apply list_elem_of_In.
Qed.

Lemma run_op_running op m m' : run_op op m = Some m' -> lm_running m = true -> lm_running m' = true.
Proof.
  assert (forall x ev n n', async_ev_handler realloc_ok x ev n = Some n' -> lm_running n' = lm_running n) as Hev.
  { intros x ev n n'. unfold async_ev_handler. destruct (lm_heap n !! x) as [cx|]; [|done]. cbn [mbind option_bind].
    destruct ev; [by intros [= <-]..|]. unfold async_context_callback_once.
    destruct (lm_heap _ !! x) as [cy|]; [|done]. cbn [mbind option_bind]. destruct (cx_callback_sent cy); by intros [= <-]. }
  destruct op as [ca| |connected|x ev|x|now]; cbn [run_op].
  - intros [= <-] Hr. unfold provider_call_async. cbv zeta. repeat case_match; done.
  - intros [= <-] Hr. by destruct (lm_items m).
  - destruct (lm_items m); [by intros [= <-]|]. unfold async_worker_process_item. destruct connected; [by intros [= <-]|].
    destruct (lm_heap _ !! _); [|done]. by intros [= <-].
  - destruct (existsb _ _); [|by intros [= <-]]. intros H Hr.
    destruct ev; try (by rewrite (Hev _ _ _ _ H)). unfold mg_close_conn in H. by rewrite (Hev _ _ _ _ H).
  - destruct (existsb _ _); [|by intros [= <-]]. unfold mg_close_conn. intros H Hr. by rewrite (Hev _ _ _ _ H).
  - unfold async_manager_check_timeouts. generalize (c_ctx <$> lm_conns m). intros xs. revert m.
    induction xs as [|x xs IH]; intros m; [by intros [= <-]|]. cbn [check_conns]. unfold check_conn at 1.
    destruct (lm_heap m !! x) as [cx|]; [|done]. cbn [mbind option_bind]. intros H Hr. apply IH in H; [done|]. by case_match.
Qed.

Lemma run_ops_running ops : forall m m', run_ops ops m = Some m' -> lm_running m = true -> lm_running m' = true.
Proof.
  induction ops as [|op ops IH]; intros m m'; [by intros [= <-]|]. cbn [run_ops].
  destruct (run_op op m) as [m1|] eqn:E; [|done]. cbn [mbind option_bind]. intros H Hr. eapply IH; [done|]. by eapply run_op_running.
Qed.

Lemma stop_spec events m : manager_ok m -> lm_running m = true -> lm_items m = [] ->
  exists m', llm_async_manager_stop events m = Some m' /\ lm_heap m' = ∅ /\ lm_active m' = [] /\ lm_items m' = [] /\
  lm_queue m' = [] /\ (fst <$> lm_calls m') ≡ₚ all_users m /\ (events = [] -> lm_conns m' = lm_conns m).
Proof. intros Hok Hr Hi. unfold llm_async_manager_stop. rewrite Hr. by apply (worker_end_spec events (mkManager _ _ _ _ _ _ _ _ _)). Qed.
End Manager.

Abbreviation started := (llm_async_manager_start llm_async_manager_new).

(** C10: However the calls of other threads, the work on the queue, the events
    of connections and the timeouts interleave, no freed context is used, and
    every call is called back once at most: the calls made are those answered
    and those whose contexts are still allocated. Once the manager is stopped
    every call has been called back exactly once and nothing is left, so the
    data that the callback frees is freed once. *)
Theorem requests_answered_once {W D} {api : ChatApi} realloc_ok (ops : list (AsyncOp (W:=W) (D:=D))) :
  exists m, run_ops realloc_ok ops started = Some m /\
  (fst <$> lm_calls m) ++ users (lm_heap m) ≡ₚ submitted ops /\
  (lm_items m = [] -> forall events, exists m', llm_async_manager_stop (W:=W) (D:=D) realloc_ok events m = Some m' /\
    lm_heap m' = ∅ /\ (fst <$> lm_calls m') ≡ₚ submitted ops).
Proof.
  destruct (run_ops_stepped realloc_ok ops _ new_manager_ok) as (m & Hm & Hok & Hu).
  unfold all_users in Hu at 2. cbn in Hu. rewrite app_nil_r in Hu. exists m. split_and!; [done..|].
  intros Hi events. destruct (stop_spec (W:=W) (D:=D) realloc_ok events m Hok) as (m' & Hs & Hh & _ & _ & _ & Hc & _); [|done|].
  - by eapply run_ops_running.
  - exists m'. split_and!; [done..|]. by rewrite Hc.
Qed.

(** C31: A request is not in flight for ever: the check of the timeouts and
    the poll that follows it answer every request whose connection is older
    than its 120 seconds, with a network error if nothing was received. *)
Theorem overdue_requests_answered {W D} {api : ChatApi} realloc_ok (ops : list (AsyncOp (W:=W) (D:=D))) m now x cx :
  run_ops realloc_ok ops started = Some m -> x ∈ lm_active m -> lm_heap m !! x = Some cx ->
  120000 <= now - cx_start_ms cx < 2 ^ 64 ->
  exists m1 m2 a, async_manager_check_timeouts now m = Some m1 /\ close_marked realloc_ok m1 = Some m2 /\
  (x ∉ lm_active m2) /\ (cx_user_data cx, a) ∈ lm_calls m2 /\
  (ms_memory (cx_chunk cx) = [] -> err_code (an_error a) = ERR_NETWORK).
Proof.
  intros Hm Hx Hcx Hnow. destruct (run_ops_stepped realloc_ok ops _ new_manager_ok) as (m0 & Hm0 & Hok & _). simplify_eq.
  destruct (check_timeouts_spec now m Hok) as (m1 & Hm1 & [Hok1 _] & Ha1 & Hov).
  assert (cx_timeout_ms cx = 120000) as Ht by (by eapply owned_ctx; [apply Hok|]).
  destruct (Hov x cx Hx Hcx) as [Hh Hmk]; [by unfold overdue; rewrite Ht|].
  destruct (close_conns_spec realloc_ok (c_ctx <$> List.filter c_closing (lm_conns m1)) m1 Hok1) as (m2 & Hm2 & Hok2 & Ha2 & _ & Hcalls).
  - apply filter_ctx_NoDup. rewrite (proj2 Hok1). by apply active_NoDup.
  - intros y (c & Hc & <- & _)%marked_list. rewrite <-(proj2 Hok1). apply list_elem_of_fmap. by exists c.
  - exists m1, m2, (answer_of (cx_chunk (timed_out cx))). split_and!; [done..| | |].
    + rewrite Ha2. intros [_ Hn]. apply Hn. exact (proj2 (marked_list x m1) Hmk).
    + apply (Hcalls x (timed_out cx)); [exact (proj2 (marked_list x m1) Hmk)|done].
    + intros Hem. unfold answer_of, timed_out, ms_size. cbn. rewrite Hem. apply api_parse_nothing.
Qed.

(** The shutdown of the provider is without undefined behaviour exactly
    when no connection is open: the worker frees the contexts of the requests
    in flight, and closing their connections afterwards uses them. *)
Theorem shutdown_frees_requests_in_flight {W D} {api : ChatApi} realloc_ok (ops : list (AsyncOp (W:=W) (D:=D))) m :
  run_ops realloc_ok ops started = Some m -> lm_items m = [] ->
  provider_shutdown (W:=W) (D:=D) realloc_ok [] m = None <-> lm_active m <> [].
Proof.
  intros Hm Hi. destruct (run_ops_stepped realloc_ok ops _ new_manager_ok) as (m0 & Hm0 & Hok & _). simplify_eq.
  destruct (stop_spec (W:=W) (D:=D) realloc_ok [] m Hok) as (m' & Hs & Hh & _ & _ & _ & _ & Hc); [by eapply run_ops_running|done|].
  unfold provider_shutdown. rewrite Hs. cbn [mbind option_bind]. unfold mg_mgr_free. rewrite Hc by done.
  rewrite (proj2 Hok). destruct (lm_active m) as [|x l]; [done|]. cbn [close_conns].
  unfold mg_close_conn, async_ev_handler. cbn [set_conns lm_heap]. rewrite Hh, lookup_empty. done.
Qed.

(** ** The OpenAI API *)

Definition http_request (url json_str api_key : cstr) : cstr :=
  $"POST " ++ mg_url_uri url ++ $" HTTP/1.0" ++ [ch_cr; ch_nl] ++ $"Host: " ++ mg_url_host url ++ [ch_cr; ch_nl] ++
  $"Content-Type: application/json" ++ [ch_cr; ch_nl] ++
  $"Content-Length: " ++ fmt_d (wrap_s 32 (Z.of_nat (length json_str))) ++ [ch_cr; ch_nl] ++
  $"Authorization: Bearer " ++ api_key ++ [ch_cr; ch_nl; ch_cr; ch_nl] ++ json_str.

Definition openai_text (t : ApiText) : cstr :=
  match t with
  | NoKey => $"API Key not set"
  | NoRequest => $"OOM building request"
  | NotConnected => $"Failed to connect to LLM"
  | TimedOut => $"LLM request timed out"
  | NoMemory => $"OOM in HTTP buffer"
  end.

#[export] Instance openai_api : ChatApi := {|
  api_key := get_api_key;
  api_request := fun W D system_prompt session tools config => build_llm_request_json system_prompt session tools config false;
  api_url := build_api_url;
  api_skip_tls := should_skip_tls_verification;
  api_http_request := http_request;
  api_parse := parse_llm_response_json;
  api_text := openai_text;
  api_parse_nothing := fun status e => eq_refl;
|}.

(** The exchange of a synchronous call: the request it sends, if it gets so
    far, and the answer or the error. [connected]: whether the connection
    could be opened; [None] only if the request cannot be built. *)
Definition openai_provider_call_extended {W D} (realloc_ok : N -> bool) (system_prompt : option cstr) (session : option Session)
    (tools : option (ToolRegistry W D)) (config : option Config) (env : option cstr)
    (connected : bool) (events : list Event) : option (option cstr * ParsedLLMResponse) :=
  let api_key := get_api_key config env in
  match api_key with
  | [] => Some (None, failed (error_new ERR_INVALID_PARAM (Some $"API Key not set")) FINISH_REASON_NONE 0)
  | _ =>
      json_str ← build_llm_request_json system_prompt session tools config false;
      if connected then
        let ms := sync_poll realloc_ok events empty_memory in
        Some (Some (http_request (build_api_url config) json_str api_key),
              parse_llm_response_json (Some (memory_text ms)) (ms_http_status ms) (ms_last_error ms))
      else Some (None, failed (error_new ERR_NETWORK (Some $"Failed to connect")) FINISH_REASON_NONE 0)
  end.
Definition openai_provider_call_async {W D} : AsyncCall W D -> LLMAsyncManager -> LLMAsyncManager := provider_call_async.
Definition openai_provider_shutdown {W D} := provider_shutdown (W:=W) (D:=D) (api:=openai_api).

(** ** Inputs on which the theorems apply *)

Definition demo_llm_config : Config :=
  set_providers [mkProviderConfig (Some $"openai") None (Some $"sk") None (Some (num_of_Z 1)) 0 None] 4 (config_create alloc).
Definition demo_call (now : Z) (user : nat) : AsyncCall unit unit :=
  mkCall (Some $"Be brief.") None None (Some demo_llm_config) None None now 3 user.
Definition demo_ops : list AsyncOp := [OpCall (demo_call 5 7); OpDequeue; OpProcess true; OpCall (demo_call 6 8)].
Definition demo_manager : LLMAsyncManager := default started (run_ops (fun _ => true) demo_ops started).
Definition demo_context : AsyncRequestContext := mkContext empty_memory 7 5 120000 false.

Lemma demo_ops_run : run_ops (fun _ => true) demo_ops started = Some demo_manager.
Proof. vm_compute. reflexivity. Qed.

Example demo_request_sent : c_sent <$> lm_conns demo_manager =
  [$"POST /v1/chat/completions HTTP/1.0" ++ [ch_cr; ch_nl] ++ $"Host: api.openai.com" ++ [ch_cr; ch_nl] ++
   $"Content-Type: application/json" ++ [ch_cr; ch_nl] ++ $"Content-Length: " ++
   fmt_d (Z.of_nat (length (default [] (build_llm_request_json (W:=unit) (D:=unit) (Some $"Be brief.") None None (Some demo_llm_config) false)))) ++
   [ch_cr; ch_nl] ++ $"Authorization: Bearer sk" ++ [ch_cr; ch_nl; ch_cr; ch_nl] ++
   default [] (build_llm_request_json (W:=unit) (D:=unit) (Some $"Be brief.") None None (Some demo_llm_config) false)].
Proof. vm_compute. reflexivity. Qed.

Lemma requests_answered_once_witness : exists m, run_ops (fun _ => true) demo_ops started = Some m /\
  (fst <$> lm_calls m) ++ users (lm_heap m) ≡ₚ [7; 8]%nat /\
  (lm_items m = [] -> forall events, exists m', llm_async_manager_stop (W:=unit) (D:=unit) (fun _ => true) events m = Some m' /\
    lm_heap m' = ∅ /\ (fst <$> lm_calls m') ≡ₚ [7; 8]%nat).
Proof. exact (requests_answered_once (fun _ => true) demo_ops). Defined.

Lemma overdue_requests_answered_witness :
  exists m1 m2 a, async_manager_check_timeouts 120005 demo_manager = Some m1 /\ close_marked (fun _ => true) m1 = Some m2 /\
  (0%nat ∉ lm_active m2) /\ (7%nat, a) ∈ lm_calls m2 /\ ([] = [] :> cstr -> err_code (an_error a) = ERR_NETWORK).
Proof.
  apply (overdue_requests_answered (fun _ => true) demo_ops demo_manager 120005 0 demo_context demo_ops_run);
    [vm_compute; by left|by vm_compute|by vm_compute].
Defined.

Lemma shutdown_frees_requests_in_flight_witness :
  openai_provider_shutdown (W:=unit) (D:=unit) (fun _ => true) [] demo_manager = None <-> lm_active demo_manager <> [].
Proof. apply (shutdown_frees_requests_in_flight (fun _ => true) demo_ops demo_manager demo_ops_run). by vm_compute. Defined.
