(* ===== verification/ChannelHttp.v ===== *)
(** What the chat plugins of [src/plugins/channels] have in common, each with
    its own copy: the buffer an answer is collected in, the handler of the
    connection, the loop that polls it, the settings of the resolver. The
    handlers of MongooseHttp.v make the events. *)
From S2P Require Import Prelude CStr Json Config ProviderAsync MongooseHttp.
Open Scope nat_scope.

(** [struct MemoryStruct]: the bytes, and [done]. *)
Record HttpChunk := mkHttpChunk { hc_memory : cstr; hc_done : bool }.
Definition empty_chunk : HttpChunk := mkHttpChunk [] false.

Section Handler.
(** Whether a block of so many bytes can be had. *)
Context (realloc_ok : N -> bool).

Definition memory_append_chunk (ms : HttpChunk) (data : cstr) : HttpChunk * bool :=
  let size := N.of_nat (length (hc_memory ms)) in
  if (SIZE_T_MAX - size - 1 <? N.of_nat (length data))%N then (ms, false)
  else if realloc_ok (size + N.of_nat (length data) + 1)%N then (mkHttpChunk (hc_memory ms ++ data) (hc_done ms), true)
  else (ms, false).

(** [fn]: the answer's body is added, an error ends the wait; the end of the
    connection does not. *)
Definition http_fn (ms : HttpChunk) (ev : user_event) : HttpChunk :=
  match ev with
  | UeMsg _ body => mkHttpChunk (hc_memory (fst (memory_append_chunk ms body))) true
  | UeError => mkHttpChunk (hc_memory ms) true
  | _ => ms
  end.
End Handler.

(** The events of one call of [mg_mgr_poll]. *)
Abbreviation poll := (list user_event).

(** [while (!chunk.done) mg_mgr_poll(&mgr, ...)]: after the polls nothing
    happens any more, so [None] is a loop that never ends. *)
Fixpoint poll_until_done (fn : HttpChunk -> user_event -> HttpChunk) (polls : list poll) (ms : HttpChunk) : option HttpChunk :=
  if hc_done ms then Some ms
  else match polls with [] => None | evs :: r => poll_until_done fn r (fold_left fn evs ms) end.

(** The same with a limit on the calls: whether the limit was reached. *)
Fixpoint poll_at_most (fn : HttpChunk -> user_event -> HttpChunk) (limit : nat) (polls : list poll) (ms : HttpChunk) : HttpChunk * bool :=
  match limit with
  | 0 => (ms, true)
  | S l => if hc_done ms then (ms, false) else poll_at_most fn l (tail polls) (fold_left fn (default [] (head polls)) ms)
  end.

(** A request: the address it was sent to, whether the connection was
    encrypted, its text. A connection to an https address is encrypted only
    after [mg_tls_init]. *)
Record WebRequest := mkWebRequest { wr_url : cstr; wr_tls : bool; wr_text : cstr }.

Definition mg_url_is_ssl (url : cstr) : bool :=
  existsb (fun p => starts_with p url) [$"wss:"; $"https:"; $"mqtts:"; $"ssl:"; $"tls:"; $"tcps:"].

(** ** The resolver *)

Record MgrDns := mkMgrDns { md_dns4 : option cstr; md_dns6 : option cstr; md_timeout : Z; md_system : bool }.

(** [apply_dns_config] on a fresh manager, from the settings of the channel. *)
Definition apply_dns_config (use_system_resolver : bool) (dns4 dns6 : option cstr) (timeout_ms : Z) (mgr : MgrDns) : MgrDns :=
  if use_system_resolver then mkMgrDns (md_dns4 mgr) (md_dns6 mgr) (md_timeout mgr) true
  else
    let keep (o d : option cstr) := match o with None | Some [] => d | Some s => Some s end in
    mkMgrDns (keep dns4 (md_dns4 mgr)) (keep dns6 (md_dns6 mgr)) (if (0 <? timeout_ms)%Z then timeout_ms else md_timeout mgr) false.

(** The DNS settings a channel copies from the configuration at its start. *)
Record ChannelDns := mkChannelDns { cd_dns4 : option cstr; cd_dns6 : option cstr; cd_timeout_ms : Z; cd_system : bool }.
Definition channel_dns (config : Config) : ChannelDns :=
  let d := cf_dns config in
  mkChannelDns (nonempty_text (dns_4 d)) (nonempty_text (dns_6 d)) (if (0 <? dns_timeout_ms d)%Z then dns_timeout_ms d else 0) (dns_use_system_resolver d).

(** A text of the plugin's section, empty when it is not there; [None]: the
    plugin has no section. *)
Definition plugin_section (config : Config) (id : cstr) : option json :=
  i ← config_get_plugin_config config (Some id); pc ← cf_plugins config !! i; pg_config pc.
Definition section_text (section : json) (key : cstr) : cstr := default [] (is_string (get_object_item (Some section) key)).

(** ** The answer that was sent is the answer that is read *)

Definition alloc_ok : N -> bool := fun _ => true.

Lemma append_small ms data : (N.of_nat (length (hc_memory ms) + length data) < SIZE_T_MAX)%N ->
  memory_append_chunk alloc_ok ms data = (mkHttpChunk (hc_memory ms ++ data) (hc_done ms), true).
Proof.
  intros H. unfold memory_append_chunk, alloc_ok. rewrite Nat2N.inj_add in H.
  rewrite (proj2 (N.ltb_ge _ _)); [done|]. lia.
Qed.

(** Heads and bytes do not concern the handler. *)
Lemma fn_waiting text h evs ms : Forall (waiting text h) evs -> fold_left (http_fn alloc_ok) evs ms = ms.
Proof. intros H. revert ms. induction H as [|ev evs Hev _ IH]; intros ms; [done|]. cbn [fold_left]. rewrite IH. by destruct Hev as [->|(n & recv & -> & _)]. Qed.

(** However the events of the connection are spread over the polls, the loop
    ends with the body of the first message. *)
Lemma poll_message (polls : list poll) pre h body post text : concat polls = pre ++ UeMsg h body :: post -> Forall (waiting text h) pre ->
  (N.of_nat (length body) < SIZE_T_MAX)%N -> Forall (fun e => match e with UeMsg _ _ => False | _ => True end) post ->
  exists ms, poll_until_done (http_fn alloc_ok) polls empty_chunk = Some ms /\ hc_memory ms = body.
Proof.
  intros Hc Hpre Hb Hpost.
  assert (forall evs ms, Forall (fun e => match e with UeMsg _ _ => False | _ => True end) evs -> hc_done ms = true -> fold_left (http_fn alloc_ok) evs ms = ms) as Hstill.
  { intros evs ms He. revert ms. induction He as [|e evs He _ IH]; intros [m d] Hd; [done|]. cbn in Hd. subst d. cbn [fold_left]. rewrite IH; by destruct e. }
  revert pre Hc Hpre. induction polls as [|evs polls IH]; intros pre Hc Hpre; [cbn in Hc; by destruct pre|]. cbn [poll_until_done hc_done empty_chunk concat] in Hc |- *.
  apply app_eq_inv in Hc as [(k & E1 & E2)|(k & E1 & E2)].
  - destruct k as [|e k].
    + cbn in E2. rewrite app_nil_r in E1. subst evs. rewrite (fn_waiting text h) by done. apply (IH []); [by rewrite <-E2|done].
    + injection E2 as <- E2. subst evs. rewrite E2 in Hpost. apply Forall_app in Hpost as [Hk _].
      rewrite fold_left_app, (fn_waiting text h pre) by done. cbn [fold_left http_fn]. rewrite append_small by (cbn; lia). cbn [fst hc_memory app].
      rewrite Hstill by done. destruct polls; eexists; by split.
  - subst pre. apply Forall_app in Hpre as [H1 H2]. rewrite (fn_waiting text h) by done. by apply (IH k).
Qed.

(** The connection gives an answer with that body. *)
Definition answers_with (polls : list poll) (body : cstr) : Prop :=
  exists pre h post text, concat polls = pre ++ UeMsg h body :: post /\ Forall (waiting text h) pre /\ (N.of_nat (length body) < SIZE_T_MAX)%N /\
    Forall (fun e => match e with UeMsg _ _ => False | _ => True end) post.

Lemma poll_answer polls body : answers_with polls body -> exists ms, poll_until_done (http_fn alloc_ok) polls empty_chunk = Some ms /\ hc_memory ms = body.
Proof. intros (pre & h & post & text & Hc & Hpre & Hb & Hpost). by eapply poll_message. Qed.

(** A response with a length that comes in any pieces is such an answer. *)
Lemma response_answers (head body : cstr) h (pieces : list cstr) evs recv (polls : list poll) : response_head head h (length body) ->
  concat pieces = head ++ body -> Forall (fun p => p <> []) pieces -> conn_reads [] pieces = Some (evs, recv) -> concat polls = evs ->
  (N.of_nat (length body) < SIZE_T_MAX)%N -> answers_with polls body.
Proof.
  intros Hh Hc Hne Hr Hp Hb. destruct (response_reads head body h pieces Hh Hc Hne) as (pre & n & E & Hpre & _). rewrite E in Hr. injection Hr as <- <-.
  exists (pre ++ [UeHdrs h]), h, [UeRead n []], (head ++ body). split_and!; [by rewrite Hp, <-app_assoc| |done|by repeat constructor].
  apply Forall_app. split; [done|]. repeat constructor.
Qed.

(** A connection that ends without an answer is waited for without end. *)
Lemma poll_closed (polls : list poll) : Forall (fun e => e = UeClose \/ e = UeOther) (concat polls) -> poll_until_done (http_fn alloc_ok) polls empty_chunk = None.
Proof.
  induction polls as [|evs polls IH]; [done|]. cbn [concat]. rewrite Forall_app. intros [H1 H2]. cbn [poll_until_done hc_done empty_chunk].
  assert (fold_left (http_fn alloc_ok) evs empty_chunk = empty_chunk) as ->; [|by apply IH].
  induction H1 as [|e evs He _ IHe]; [done|]. cbn [fold_left]. by destruct He as [-> | ->].
Qed.
