(* ===== verification/ProviderStream.v ===== *)
(** [src/providers/openai_provider.c], third part: a streamed answer, its
    lines found in the bytes as they arrive, its pieces put together. [None]
    is undefined behaviour. *)
From S2P Require Import Prelude CStr Json Common Message Session ToolRegistry Config Provider ProviderAsync.
Open Scope Z_scope.

(** [sx_tool_calls] are the initialised slots of [tool_calls_accum], its
    capacity their number; [sx_chunks] the calls of [on_chunk] so far, with
    the text and [is_done]. *)
Record StreamContext := mkStream {
  sx_done : bool;
  sx_last_error : cstr;
  sx_content : cstr;
  sx_tool_calls : list ToolCall;
  sx_tool_calls_count : Z;
  sx_finish_reason : FinishReason;
  sx_usage_tokens : Z;
  sx_chunks : list (cstr * bool);
}.

Definition stream_new : StreamContext := mkStream false [] [] [] 0 FINISH_REASON_NONE 0 [].

(** [cJSON_GetArraySize] and [cJSON_GetArrayItem] take the cjson_children of an
    object as well as of an array. *)
Definition cjson_children (j : json) : list json :=
  match j with JArr l => l | JObj kvs => snd <$> kvs | _ => [] end.

Definition set_tool_calls (l : list ToolCall) (count : Z) (ctx : StreamContext) : StreamContext :=
  mkStream (sx_done ctx) (sx_last_error ctx) (sx_content ctx) l count (sx_finish_reason ctx) (sx_usage_tokens ctx) (sx_chunks ctx).

Definition content_delta (delta : json) (ctx : StreamContext) : StreamContext :=
  match is_string (get_object_item (Some delta) $"content") with
  | Some text => mkStream (sx_done ctx) (sx_last_error ctx) (sx_content ctx ++ text) (sx_tool_calls ctx) (sx_tool_calls_count ctx)
                   (sx_finish_reason ctx) (sx_usage_tokens ctx) (sx_chunks ctx ++ [(text, false)])
  | None => ctx
  end.

Definition merge_tool_call (tc_delta : json) (tc : ToolCall) : ToolCall :=
  let func := get_object_item (Some tc_delta) $"function" in
  mkToolCall
    (default (tc_id tc) (is_string (get_object_item (Some tc_delta) $"id")))
    (default (tc_name tc) (is_string (f ← func; get_object_item (Some f) $"name")))
    (match is_string (f ← func; get_object_item (Some f) $"arguments") with
     | Some a => tc_arguments tc ++ a
     | None => tc_arguments tc
     end).

Definition no_call : ToolCall := mkToolCall [] [] [].

Section Stream.
(** Whether [realloc] gives so many slots. *)
Context (realloc_ok : Z -> bool).

(** A negative index reaches before the array; the index plus four must be
    an [int]. *)
Definition tool_call_delta (tc_delta : json) (ctx : StreamContext) : option StreamContext :=
  let calls := sx_tool_calls ctx in
  let capacity := Z.of_nat (length calls) in
  let tc_index := match is_number (get_object_item (Some tc_delta) $"index") with
                  | Some n => valueint n | None => sx_tool_calls_count ctx end in
  if capacity <=? tc_index then
    if INT_MAX <? tc_index + 4 then None
    else if realloc_ok (tc_index + 4) then
      let calls' := calls ++ replicate (Z.to_nat (tc_index + 4 - capacity)) no_call in
      Some (set_tool_calls (alter (merge_tool_call tc_delta) (Z.to_nat tc_index) calls')
              (Z.max (sx_tool_calls_count ctx) (tc_index + 1)) ctx)
    else Some ctx
  else if tc_index <? 0 then None
  else Some (set_tool_calls (alter (merge_tool_call tc_delta) (Z.to_nat tc_index) calls)
               (Z.max (sx_tool_calls_count ctx) (tc_index + 1)) ctx).

Fixpoint tool_calls_deltas (l : list json) (ctx : StreamContext) : option StreamContext :=
  match l with [] => Some ctx | d :: r => ctx' ← tool_call_delta d ctx; tool_calls_deltas r ctx' end.

(** One piece of the answer. *)
Definition stream_json (j : json) (ctx : StreamContext) : option StreamContext :=
  ctx1 ← match (c ← get_object_item (Some j) $"choices"; head (cjson_children c)) with
         | None => Some ctx
         | Some choice =>
             ctx1 ← match get_object_item (Some choice) $"delta" with
                    | None => Some ctx
                    | Some delta =>
                        tool_calls_deltas (default [] (cjson_children <$> get_object_item (Some delta) $"tool_calls")) (content_delta delta ctx)
                    end;
             Some (mkStream (sx_done ctx1) (sx_last_error ctx1) (sx_content ctx1) (sx_tool_calls ctx1) (sx_tool_calls_count ctx1)
                     (reason_of choice (sx_finish_reason ctx1)) (sx_usage_tokens ctx1) (sx_chunks ctx1))
         end;
  Some (mkStream (sx_done ctx1) (sx_last_error ctx1) (sx_content ctx1) (sx_tool_calls ctx1) (sx_tool_calls_count ctx1)
          (sx_finish_reason ctx1) (usage_of j (sx_usage_tokens ctx1)) (sx_chunks ctx1)).

Definition stream_end (ctx : StreamContext) : StreamContext :=
  mkStream true (sx_last_error ctx) (sx_content ctx) (sx_tool_calls ctx) (sx_tool_calls_count ctx)
    (sx_finish_reason ctx) (sx_usage_tokens ctx) (sx_chunks ctx ++ [([], true)]).

(** The data of a line without the CR at its end, and whether there was one. *)
Definition strip_cr (data : cstr) : cstr * bool :=
  if bool_decide (last data = Some ch_cr) then (removelast data, true) else (data, false).

(** A line: the context, and for the last one what stays of it in the buffer. *)
Definition stream_line (line : cstr) (ctx : StreamContext) : option (StreamContext * option cstr) :=
  if starts_with $"data: " line then
    let '(data, cr) := strip_cr (drop 6 line) in
    if str_eq data $"[DONE]"
    then Some (stream_end ctx, Some ($"data: " ++ data ++ if cr : bool then ["000"%char] else []))
    else match cJSON_Parse data with
         | Some j => ctx' ← stream_json j ctx; Some (ctx', None)
         | None => Some (ctx, None)
         end
  else Some (ctx, None).

Definition line_char (c : ascii) : bool := negb (bool_decide (c = ch_nl)) && not_nul c.

(** The loop over the lines of the buffer ([strchr] stops at a NUL byte): the
    context, and what stays in the buffer. One round per line. *)
Fixpoint stream_lines (fuel : nat) (buf : cstr) (ctx : StreamContext) : option (StreamContext * cstr) :=
  match fuel with
  | 0%nat => Some (ctx, buf)
  | S f =>
      let line := take_while line_char buf in
      match drop (length line) buf with
      | c :: rest =>
          if bool_decide (c = ch_nl) then
            r ← stream_line line ctx;
            match r with
            | (ctx', None) => stream_lines f rest ctx'
            | (ctx', Some kept) => Some (ctx', kept ++ "000"%char :: rest)
            end
          else Some (ctx, buf)
      | [] => Some (ctx, buf)
      end
  end.

(** The handler after its own read gave [data], on the context and its buffer. *)
Definition stream_read (data : cstr) (s : StreamContext * cstr) : option (StreamContext * cstr) :=
  match data with
  | [] => Some s
  | _ => let buf := snd s ++ data in stream_lines (S (length buf)) buf (fst s)
  end.

(** A read event comes after mongoose has moved the bytes that had arrived
    ([taken]) to its own buffer. The handler does not look there: it reads the
    socket again, and gets at most [READ_SIZE] of what has arrived since
    ([waiting]). *)
Inductive StreamEvent := MG_EV_READ (taken waiting : cstr) | STREAM_CLOSE | STREAM_ERROR (text : option cstr).

Definition READ_SIZE : nat := 2048.
Definition mg_io_recv (waiting : cstr) (size : nat) : cstr := take size waiting.

Definition set_failed (err : cstr) (ctx : StreamContext) : StreamContext :=
  mkStream true err (sx_content ctx) (sx_tool_calls ctx) (sx_tool_calls_count ctx) (sx_finish_reason ctx) (sx_usage_tokens ctx) (sx_chunks ctx).

Definition stream_ev_handler (ev : StreamEvent) (s : StreamContext * cstr) : option (StreamContext * cstr) :=
  match ev with
  | MG_EV_READ taken waiting => stream_read (mg_io_recv waiting READ_SIZE) s
  | STREAM_CLOSE => Some (set_failed (sx_last_error (fst s)) (fst s), snd s)
  | STREAM_ERROR text => Some (set_failed (truncate_to 256 (default $"unknown" text)) (fst s), snd s)
  end.

(** The polling loop: events until the end, or those before its time is over. *)
Fixpoint stream_poll (events : list StreamEvent) (s : StreamContext * cstr) : option (StreamContext * cstr) :=
  match events with
  | [] => Some s
  | ev :: r => if sx_done (fst s) then Some s else s' ← stream_ev_handler ev s; stream_poll r s'
  end.

(** The request has no Content-Length. *)
Definition stream_request (url json_str api_key : cstr) : cstr :=
  $"POST " ++ mg_url_uri url ++ $" HTTP/1.1" ++ [ch_cr; ch_nl] ++ $"Host: " ++ mg_url_host url ++ [ch_cr; ch_nl] ++
  $"Content-Type: application/json" ++ [ch_cr; ch_nl] ++ $"Accept: text/event-stream" ++ [ch_cr; ch_nl] ++
  $"Authorization: Bearer " ++ api_key ++ [ch_cr; ch_nl] ++ $"Connection: keep-alive" ++ [ch_cr; ch_nl; ch_cr; ch_nl] ++ json_str.

(** What the caller gets from a stream that was polled. *)
Definition stream_result (ctx : StreamContext) : ParsedLLMResponse :=
  match sx_last_error ctx with
  | [] =>
      mkParsed (if bool_decide (sx_finish_reason ctx = FINISH_REASON_CONTENT_FILTER)
                then error_new ERR_CONTENT_FILTER (Some $"Content filtered") else err_ok)
        (drop_while is_line_end (sx_content ctx)) (take (Z.to_nat (sx_tool_calls_count ctx)) (sx_tool_calls ctx))
        (sx_finish_reason ctx) (sx_usage_tokens ctx)
  | e => mkParsed (error_new ERR_NETWORK (Some e)) [] [] (sx_finish_reason ctx) (sx_usage_tokens ctx)
  end.

(** The request sent, if it gets so far, and the result with the calls of
    [on_chunk]. The inner option is undefined behaviour, the outer is [None]
    only if the request cannot be built. *)
Definition openai_provider_call_streaming {W D} (system_prompt : option cstr) (session : option Session)
    (tools : option (ToolRegistry W D)) (config : option Config) (env : option cstr)
    (connected : bool) (events : list StreamEvent) : option (option cstr * option (ParsedLLMResponse * list (cstr * bool))) :=
  let fail code text := Some (None, Some (failed (error_new code (Some text)) FINISH_REASON_NONE 0, [])) in
  match get_api_key config env with
  | [] => fail ERR_INVALID_PARAM $"API Key not set"
  | api_key =>
      json_str ← build_llm_request_json system_prompt session tools config true;
      if connected then
        Some (Some (stream_request (build_api_url config) json_str api_key),
              s ← stream_poll events (stream_new, []); Some (stream_result (fst s), sx_chunks (fst s)))
      else fail ERR_NETWORK $"Failed to connect"
  end.
End Stream.

(** ** How the bytes are cut does not matter *)

Definition lines_of (realloc_ok : Z -> bool) (buf : cstr) (ctx : StreamContext) : option (StreamContext * cstr) :=
  stream_lines realloc_ok (S (length buf)) buf ctx.

Definition no_line (buf : cstr) : Prop :=
  Forall (fun c => line_char c = true) buf \/
  exists l r, buf = l ++ "000"%char :: r /\ Forall (fun c => line_char c = true) l.

Lemma buffer_cases buf : no_line buf \/
  exists line rest, buf = line ++ ch_nl :: rest /\ Forall (fun c => line_char c = true) line.
Proof.
  induction buf as [|c buf IH]; [left; left; done|].
  destruct (decide (c = ch_nl)) as [->|Hn]; [right; by exists [], buf|].
  destruct (decide (c = "000"%char)) as [->|Hz]; [left; right; by exists [], buf|].
  assert (line_char c = true) as Hc by (unfold line_char, not_nul; by rewrite !bool_decide_false).
  destruct IH as [[H|(l & r & -> & H)]|(l & r & -> & H)].
  - left; left. by constructor.
  - left; right. exists (c :: l), r. by split; [|constructor].
  - right. exists (c :: l), r. by split; [|constructor].
Qed.

Lemma take_line l c r : Forall (fun c => line_char c = true) l -> line_char c = false -> take_while line_char (l ++ c :: r) = l.
Proof. induction 1 as [|x l Hx Hl IH]; intros Hc; cbn; [by rewrite Hc|]. rewrite Hx. f_equal. by apply IH. Qed.

Lemma take_line_all l : Forall (fun c => line_char c = true) l -> take_while line_char l = l.
Proof. induction 1 as [|x l Hx Hl IH]; cbn; [done|]. rewrite Hx. by f_equal. Qed.

Section Cut.
Context (realloc_ok : Z -> bool).

Lemma stream_lines_stuck f buf ctx : no_line buf -> stream_lines realloc_ok f buf ctx = Some (ctx, buf).
Proof.
  intros H. destruct f as [|f]; [done|]. cbn [stream_lines]. cbv zeta. destruct H as [H|(l & r & -> & H)].
  - rewrite take_line_all, drop_ge by done. done.
  - rewrite take_line, drop_app_length by done. done.
Qed.

Lemma stream_lines_line f line rest ctx : Forall (fun c => line_char c = true) line ->
  stream_lines realloc_ok (S f) (line ++ ch_nl :: rest) ctx =
    r ← stream_line realloc_ok line ctx;
    match r with
    | (ctx', None) => stream_lines realloc_ok f rest ctx'
    | (ctx', Some kept) => Some (ctx', kept ++ "000"%char :: rest)
    end.
Proof. intros H. cbn [stream_lines]. cbv zeta. rewrite take_line, drop_app_length by done. done. Qed.

(** One round per line, and each line is of one byte at least. *)
Lemma stream_lines_fuel f : forall buf ctx, (length buf < f)%nat -> stream_lines realloc_ok f buf ctx = lines_of realloc_ok buf ctx.
Proof.
  induction f as [f IH] using (well_founded_induction lt_wf). intros buf ctx Hf. unfold lines_of.
  destruct (buffer_cases buf) as [H|(line & rest & -> & H)]; [by rewrite !stream_lines_stuck|].
  destruct f as [|f]; [lia|]. rewrite length_app in Hf. cbn [length] in Hf.
  rewrite !stream_lines_line by done. destruct (stream_line realloc_ok line ctx) as [[c [k|]]|]; [done| |done].
  cbn [mbind option_bind]. rewrite length_app. cbn [length].
  by rewrite (IH f), (IH (length line + S (length rest))%nat) by lia.
Qed.

Lemma lines_of_line line rest ctx : Forall (fun c => line_char c = true) line ->
  lines_of realloc_ok (line ++ ch_nl :: rest) ctx =
    r ← stream_line realloc_ok line ctx;
    match r with
    | (ctx', None) => lines_of realloc_ok rest ctx'
    | (ctx', Some kept) => Some (ctx', kept ++ "000"%char :: rest)
    end.
Proof.
  intros H. unfold lines_of at 1. rewrite stream_lines_line by done.
  destruct (stream_line realloc_ok line ctx) as [[c [k|]]|]; [done| |done]. cbn [mbind option_bind].
  apply stream_lines_fuel. rewrite length_app. cbn. lia.
Qed.

Lemma kept_no_line line ctx ctx' kept rest : stream_line realloc_ok line ctx = Some (ctx', Some kept) ->
  no_line (kept ++ "000"%char :: rest) /\ ctx' = stream_end ctx.
Proof.
  unfold stream_line. destruct (starts_with _ _); [|done]. destruct (strip_cr _) as [data cr].
  unfold str_eq. case_bool_decide as Hd; [|destruct (cJSON_Parse data); [destruct (stream_json _ _ _)|]; done].
  intros [= <- <-]. split; [|done]. right. subst data.
  exists $"data: [DONE]", (if cr then "000"%char :: rest else rest). split; [by destruct cr|]. by repeat constructor.
Qed.

Lemma lines_of_stuck buf ctx : no_line buf -> lines_of realloc_ok buf ctx = Some (ctx, buf).
Proof. apply stream_lines_stuck. Qed.

Lemma lines_of_app buf more ctx : lines_of realloc_ok (buf ++ more) ctx =
  s ← lines_of realloc_ok buf ctx; lines_of realloc_ok (snd s ++ more) (fst s).
Proof.
  remember (length buf) as n eqn:Hn. revert buf ctx Hn.
  induction n as [n IH] using (well_founded_induction lt_wf). intros buf ctx ->.
  destruct (buffer_cases buf) as [H|(line & rest & -> & H)].
  { by rewrite (lines_of_stuck buf). }
  rewrite <-app_assoc. cbn [app]. rewrite !lines_of_line by done.
  destruct (stream_line realloc_ok line ctx) as [[c [k|]]|] eqn:E; [| |done]; cbn [mbind option_bind fst snd].
  - rewrite <-app_assoc. cbn [app]. rewrite lines_of_stuck; [done|]. by eapply kept_no_line.
  - eapply (IH (length rest)); [|done]. rewrite length_app. cbn. lia.
Qed.

Lemma lines_of_settled buf ctx s : lines_of realloc_ok buf ctx = Some s -> lines_of realloc_ok (snd s) (fst s) = Some s.
Proof.
  intros H. pose proof (lines_of_app buf [] ctx) as Ha. rewrite app_nil_r, H in Ha. cbn [mbind option_bind] in Ha.
  by rewrite app_nil_r in Ha.
Qed.

Lemma tool_calls_deltas_done l : forall ctx ctx', tool_calls_deltas realloc_ok l ctx = Some ctx' -> sx_done ctx' = sx_done ctx.
Proof.
  induction l as [|d l IH]; intros ctx ctx'; [by intros [= <-]|]. cbn [tool_calls_deltas].
  destruct (tool_call_delta realloc_ok d ctx) as [c1|] eqn:E; [|done]. cbn [mbind option_bind]. intros ->%IH.
  unfold tool_call_delta in E. cbv zeta in E. by repeat case_match; simplify_eq.
Qed.

Lemma stream_json_done j ctx ctx' : stream_json realloc_ok j ctx = Some ctx' -> sx_done ctx' = sx_done ctx.
Proof.
  unfold stream_json. destruct (c ← get_object_item (Some j) $"choices"; head (cjson_children c)) as [choice|]; [|by intros [= <-]].
  destruct (get_object_item (Some choice) _) as [delta|]; [|by intros [= <-]].
  destruct (tool_calls_deltas _ _ _) as [c1|] eqn:E; [|done]. apply tool_calls_deltas_done in E.
  cbn [mbind option_bind]. intros [= <-]. cbn [sx_done]. rewrite E. unfold content_delta. by destruct (is_string _).
Qed.

(** Once the end was seen, nothing more is read as a line. *)
Definition stuck (buf : cstr) : Prop := exists l r, buf = l ++ "000"%char :: r /\ Forall (fun c => line_char c = true) l.

Lemma kept_stuck line ctx ctx' kept rest : stream_line realloc_ok line ctx = Some (ctx', Some kept) -> stuck (kept ++ "000"%char :: rest).
Proof.
  intros H. destruct (kept_no_line _ _ _ _ rest H) as [[Hf|Hs] _]; [|done].
  exfalso. apply Forall_app in Hf as [_ Hf]. inversion Hf. done.
Qed.

Lemma lines_of_done buf ctx s : sx_done ctx = false -> lines_of realloc_ok buf ctx = Some s -> sx_done (fst s) = true -> stuck (snd s).
Proof.
  remember (length buf) as n eqn:Hn. revert buf ctx Hn.
  induction n as [n IH] using (well_founded_induction lt_wf). intros buf ctx -> Hd.
  destruct (buffer_cases buf) as [H|(line & rest & -> & H)].
  { rewrite lines_of_stuck by done. intros [= <-]. cbn. by rewrite Hd. }
  rewrite lines_of_line by done.
  destruct (stream_line realloc_ok line ctx) as [[c [k|]]|] eqn:E; [| |done]; cbn [mbind option_bind].
  - intros [= <-] _. by eapply kept_stuck.
  - apply (IH (length rest)); [rewrite length_app; cbn; lia|done|]. unfold stream_line in E.
    destruct (starts_with _ _); [|by injection E as <-]. destruct (strip_cr _). destruct (str_eq _ _); [done|].
    destruct (cJSON_Parse _) as [j|]; [|by injection E as <-].
    destruct (stream_json _ _ _) as [c'|] eqn:Ej; [|done]. apply stream_json_done in Ej. cbn in E. injection E as <-. by rewrite Ej.
Qed.

(** The events of a connection that is read, and the bytes the handler gets. *)
Definition reads (l : list (cstr * cstr)) : list StreamEvent := (fun p => MG_EV_READ p.1 p.2) <$> l.
Definition own_bytes (l : list (cstr * cstr)) : cstr := concat ((fun p => mg_io_recv p.2 READ_SIZE) <$> l).

Lemma stream_poll_reads l : forall s, lines_of realloc_ok (snd s) (fst s) = Some s ->
  (sx_done (fst s) = true -> stuck (snd s)) ->
  fst <$> stream_poll realloc_ok (reads l) s = fst <$> lines_of realloc_ok (snd s ++ own_bytes l) (fst s).
Proof.
  induction l as [|[taken waiting] l IH]; intros s Hs Hd.
  { unfold reads, own_bytes. cbn [fmap list_fmap concat stream_poll]. rewrite app_nil_r, Hs. done. }
  unfold reads, own_bytes in *. rewrite !fmap_cons. cbn [stream_poll]. destruct (sx_done (fst s)) eqn:Ed.
  { destruct (Hd eq_refl) as (x & r & Hb & Hl). rewrite lines_of_stuck; [done|]. right. cbn [concat].
    eexists x, _. rewrite Hb, <-app_assoc. by split. }
  cbn [stream_ev_handler concat snd]. unfold stream_read. destruct (mg_io_recv waiting READ_SIZE) as [|c data].
  { cbn [mbind option_bind app]. by apply IH; [|rewrite Ed]. }
  rewrite app_assoc, (lines_of_app (snd s ++ c :: data)).
  change (stream_lines realloc_ok (S (length (snd s ++ c :: data))) (snd s ++ c :: data) (fst s))
    with (lines_of realloc_ok (snd s ++ c :: data) (fst s)).
  destruct (lines_of realloc_ok (snd s ++ c :: data) (fst s)) as [s1|] eqn:E; [|done]. cbn [mbind option_bind].
  apply IH; [by eapply lines_of_settled|]. intros Hd1. by eapply lines_of_done.
Qed.
End Cut.

(** ** What an API streams *)

(** A piece of an answer: text, a piece of the call at an index, or the
    reason of the end. *)
Inductive Delta :=
  | DText (text : cstr)
  | DCall (index : nat) (id name args : option cstr)
  | DReason (reason : cstr).

Definition opt_str (name : cstr) (o : option cstr) : list (cstr * json) :=
  match o with Some s => [member_str name s] | None => [] end.

Definition delta_members (d : Delta) : list (cstr * json) :=
  match d with
  | DText text => [member_str $"content" text]
  | DCall index id name args =>
      [member_json $"tool_calls" (JArr [JObj ([member_json $"index" (JNum (num_of_Z (Z.of_nat index)))] ++ opt_str $"id" id ++
         [member_json $"function" (JObj (opt_str $"name" name ++ opt_str $"arguments" args))])])]
  | DReason _ => []
  end.

Definition delta_json (d : Delta) : json :=
  JObj [member_str $"object" $"chat.completion.chunk";
        member_json $"choices" (JArr [JObj ([member_json $"delta" (JObj (delta_members d))] ++
          match d with DReason r => [member_str $"finish_reason" r] | _ => [] end)])].

Definition opt_ok (o : option cstr) : bool := match o with Some s => str_ok s | None => true end.
Definition delta_ok (d : Delta) : bool :=
  match d with
  | DText text => str_ok text
  | DCall index id name args => (Z.of_nat index + 4 <=? INT_MAX) && opt_ok id && opt_ok name && opt_ok args
  | DReason r => str_ok r
  end.

(** An event: one line of data, and an empty line, ended by LF or CR LF. *)
Definition eol (crlf : bool) : cstr := if crlf then [ch_cr; ch_nl] else [ch_nl].
Definition delta_event (crlf : bool) (d : Delta) : cstr :=
  $"data: " ++ default [] (cJSON_PrintUnformatted (delta_json d)) ++ eol crlf ++ eol crlf.
Definition sse_text (crlf : bool) (ds : list Delta) : cstr := (ds ≫= delta_event crlf) ++ $"data: [DONE]" ++ eol crlf ++ eol crlf.

(** The answer that the pieces make. *)
Definition texts (ds : list Delta) : list cstr := omap (fun d => match d with DText t => Some t | _ => None end) ds.
Definition merge_piece (i : nat) (tc : ToolCall) (d : Delta) : ToolCall :=
  match d with
  | DCall j id name args =>
      if Nat.eqb j i then mkToolCall (default (tc_id tc) id) (default (tc_name tc) name) (tc_arguments tc ++ default [] args) else tc
  | _ => tc
  end.
Definition call_of (ds : list Delta) (i : nat) : ToolCall := fold_left (merge_piece i) ds no_call.
Definition calls_end (ds : list Delta) : nat :=
  fold_left (fun n d => match d with DCall j _ _ _ => Nat.max n (S j) | _ => n end) ds 0%nat.
Definition reason_at_end (ds : list Delta) : FinishReason :=
  fold_left (fun r d => match d with DReason t => parse_finish_reason (Some t) | _ => r end) ds FINISH_REASON_NONE.

(** ** The pieces are put together *)

Lemma delta_text d : delta_ok d = true -> exists t, cJSON_PrintUnformatted (delta_json d) = Some t /\ printable t /\ (1 <= length t)%nat /\
  cJSON_Parse t = Some (delta_json d).
Proof.
  intros Hok. destruct (unformatted_line (delta_json d)) as (t & Ht & Hp & Hl & Hr).
  - destruct d as [text|index id name args|r]; cbn [delta_ok] in Hok.
    + unfold delta_json, member_str, member_json; cbn. rewrite Hok. by vm_compute.
    + apply andb_prop in Hok as [[[Hi Hid]%andb_prop Hn]%andb_prop Ha].
      assert (num_ok (num_of_Z (Z.of_nat index)) = true) as Hnum.
      { unfold num_ok, num_of_Z. cbn [n_exp n_mant]. unfold INT_MAX in *. rewrite (proj2 (Z.ltb_lt _ _)); [done|lia]. }
      unfold delta_json, delta_members, member_str, member_json. remember (num_of_Z (Z.of_nat index)) as n.
      destruct id as [id|], name as [name|], args as [args|]; cbn [opt_ok opt_str app] in *; unfold member_str;
        cbn [json_ok forallb fst snd]; rewrite ?Hnum, ?Hid, ?Hn, ?Ha; by vm_compute.
    + unfold delta_json, member_str, member_json; cbn. rewrite Hok. by vm_compute.
  - exists t. split_and!; [done..|]. specialize (Hr [] I). by rewrite app_nil_r in Hr.
Qed.

(** The context after the pieces [ds]. *)
Record assembled (ds : list Delta) (ctx : StreamContext) : Prop := {
  as_done : sx_done ctx = false;
  as_error : sx_last_error ctx = [];
  as_content : sx_content ctx = concat (texts ds);
  as_chunks : sx_chunks ctx = (fun t => (t, false)) <$> texts ds;
  as_count : sx_tool_calls_count ctx = Z.of_nat (calls_end ds);
  as_room : (calls_end ds <= length (sx_tool_calls ctx))%nat;
  as_slots : forall i, (i < length (sx_tool_calls ctx))%nat -> sx_tool_calls ctx !! i = Some (call_of ds i);
  as_unused : forall i, (calls_end ds <= i)%nat -> call_of ds i = no_call;
  as_reason : sx_finish_reason ctx = reason_at_end ds;
  as_usage : sx_usage_tokens ctx = 0;
}.

Lemma texts_snoc ds d : texts (ds ++ [d]) = texts ds ++ texts [d].
Proof. unfold texts. by rewrite omap_app. Qed.

Lemma call_of_snoc ds d i : call_of (ds ++ [d]) i = merge_piece i (call_of ds i) d.
Proof. unfold call_of. by rewrite fold_left_app. Qed.

Definition all_slots (_ : Z) : bool := true.

(** Pieces that are not of calls. *)
Lemma assembled_other ds d ctx ctx' :
  assembled ds ctx -> (forall i tc, merge_piece i tc d = tc) -> calls_end (ds ++ [d]) = calls_end ds ->
  sx_done ctx' = sx_done ctx -> sx_last_error ctx' = sx_last_error ctx ->
  sx_tool_calls ctx' = sx_tool_calls ctx -> sx_tool_calls_count ctx' = sx_tool_calls_count ctx -> sx_usage_tokens ctx' = sx_usage_tokens ctx ->
  sx_content ctx' = sx_content ctx ++ concat (texts [d]) -> sx_chunks ctx' = sx_chunks ctx ++ ((fun t => (t, false)) <$> texts [d]) ->
  sx_finish_reason ctx' = reason_at_end (ds ++ [d]) -> assembled (ds ++ [d]) ctx'.
Proof.
  intros [] Hm He Hd Her Ht Hn Hu Hc Hk Hr.
  split; rewrite ?He, ?Hd, ?Her, ?Ht, ?Hn, ?Hu, ?Hc, ?Hk, ?texts_snoc, ?concat_app, ?fmap_app; try done; try congruence.
  - intros i Hi. rewrite call_of_snoc, Hm. auto.
  - intros i Hi. rewrite call_of_snoc, Hm. auto.
Qed.

Lemma delta_call_members index id name args tc :
  merge_tool_call (JObj ([member_json $"index" (JNum (num_of_Z (Z.of_nat index)))] ++ opt_str $"id" id ++
         [member_json $"function" (JObj (opt_str $"name" name ++ opt_str $"arguments" args))])) tc =
  mkToolCall (default (tc_id tc) id) (default (tc_name tc) name) (tc_arguments tc ++ default [] args).
Proof. destruct id, name, args; unfold merge_tool_call; cbn [opt_str app default from_option]; try done; by cbn; rewrite app_nil_r. Qed.

Lemma assembled_call ds index id name args ctx : delta_ok (DCall index id name args) = true -> assembled ds ctx ->
  exists ctx', stream_json all_slots (delta_json (DCall index id name args)) ctx = Some ctx' /\
  assembled (ds ++ [DCall index id name args]) ctx'.
Proof.
  intros Hok Has. set (d := DCall index id name args).
  set (item := JObj ([member_json $"index" (JNum (num_of_Z (Z.of_nat index)))] ++ opt_str $"id" id ++
         [member_json $"function" (JObj (opt_str $"name" name ++ opt_str $"arguments" args))])).
  assert (stream_json all_slots (delta_json d) ctx = tool_call_delta all_slots item ctx) as ->.
  { change (stream_json all_slots (delta_json d) ctx) with
      (c1 ← (c2 ← (c3 ← tool_call_delta all_slots item ctx; Some c3);
         Some (mkStream (sx_done c2) (sx_last_error c2) (sx_content c2) (sx_tool_calls c2) (sx_tool_calls_count c2)
                     (sx_finish_reason c2) (sx_usage_tokens c2) (sx_chunks c2)));
       Some (mkStream (sx_done c1) (sx_last_error c1) (sx_content c1) (sx_tool_calls c1) (sx_tool_calls_count c1)
          (sx_finish_reason c1) (sx_usage_tokens c1) (sx_chunks c1))).
    destruct (tool_call_delta all_slots item ctx) as [[]|]; done. }
  cbn [delta_ok] in Hok. repeat (apply andb_prop in Hok as [Hok _]). apply Z.leb_le in Hok. unfold INT_MAX in Hok.
  unfold tool_call_delta. cbv zeta.
  change (is_number (get_object_item (Some item) $"index")) with (Some (num_of_Z (Z.of_nat index))). cbv beta iota.
  assert (valueint (num_of_Z (Z.of_nat index)) = Z.of_nat index) as ->.
  { unfold valueint. rewrite num_trunc_Z. unfold INT_MAX in *. lia. }
  assert (forall slots, (forall i, (i < length slots)%nat -> slots !! i = Some (call_of ds i)) -> (index < length slots)%nat ->
    (calls_end ds <= length slots)%nat ->
    assembled (ds ++ [d]) (set_tool_calls (alter (merge_tool_call item) (Z.to_nat (Z.of_nat index)) slots)
      (Z.max (sx_tool_calls_count ctx) (Z.of_nat index + 1)) ctx)) as Hset.
  { intros slots Hslots Hi Hroom. destruct Has. rewrite Nat2Z.id.
    assert (calls_end (ds ++ [d]) = Nat.max (calls_end ds) (S index)) as Hend by (unfold calls_end; by rewrite fold_left_app).
    unfold d. split; cbn [set_tool_calls sx_done sx_last_error sx_content sx_chunks sx_tool_calls_count sx_tool_calls sx_finish_reason sx_usage_tokens];
      rewrite ?texts_snoc, ?length_alter; cbn [texts omap list_omap]; rewrite ?app_nil_r; try done.
    - rewrite as_count0. fold d. rewrite Hend. lia.
    - fold d. rewrite Hend. lia.
    - intros i Hlt. rewrite call_of_snoc. cbn [merge_piece]. destruct (Nat.eqb_spec index i) as [->|Hne].
      + rewrite list_lookup_alter_eq, Hslots by done. cbn. unfold item. by rewrite delta_call_members.
      + rewrite list_lookup_alter_ne by done. by apply Hslots.
    - fold d. intros i Hlt. rewrite Hend in Hlt. unfold d. rewrite call_of_snoc. cbn [merge_piece].
      destruct (Nat.eqb_spec index i); [lia|]. apply as_unused0. lia.
    - rewrite as_reason0. unfold reason_at_end. by rewrite fold_left_app. }
  destruct Has. destruct (Z.leb_spec (Z.of_nat (length (sx_tool_calls ctx))) (Z.of_nat index)).
  - destruct (Z.ltb_spec INT_MAX (Z.of_nat index + 4)); [unfold INT_MAX in *; lia|]. eexists. split; [done|].
    apply Hset; rewrite ?length_app, ?length_replicate; [|lia|lia].
    intros i Hi. destruct (decide (i < length (sx_tool_calls ctx))%nat) as [Hlt|Hge].
    + rewrite lookup_app_l by done. by apply as_slots0.
    + rewrite lookup_app_r, lookup_replicate_2 by lia. f_equal. symmetry. apply as_unused0. lia.
  - destruct (Z.ltb_spec (Z.of_nat index) 0); [lia|]. eexists. split; [done|]. apply Hset; [done|lia|done].
Qed.

Lemma assembled_step ds d ctx : delta_ok d = true -> assembled ds ctx ->
  exists ctx', stream_json all_slots (delta_json d) ctx = Some ctx' /\ assembled (ds ++ [d]) ctx'.
Proof.
  intros Hok Has. destruct d as [text|index id name args|r]; [|by apply assembled_call|].
  - eexists. split; [done|]. eapply assembled_other; try done; cbn.
    + unfold calls_end. by rewrite fold_left_app.
    + by rewrite app_nil_r.
    + change (sx_finish_reason ctx = reason_at_end (ds ++ [DText text])).
      rewrite (as_reason _ _ Has). unfold reason_at_end. by rewrite fold_left_app.
  - eexists. split; [done|]. eapply assembled_other; try done; cbn.
    + unfold calls_end. by rewrite fold_left_app.
    + by rewrite app_nil_r.
    + by rewrite app_nil_r.
    + unfold reason_at_end. by rewrite fold_left_app.
Qed.

Definition cr_of (crlf : bool) : cstr := if crlf then [ch_cr] else [].

Lemma eol_split crlf : eol crlf = cr_of crlf ++ [ch_nl].
Proof. by destruct crlf. Qed.

Lemma printable_line t : printable t -> Forall (fun c => line_char c = true) t.
Proof.
  intros H. eapply Forall_impl; [exact H|]. intros c Hc. cbv beta in Hc. unfold line_char, not_nul. apply andb_true_intro.
  split; apply negb_true_iff, bool_decide_eq_false; intros ->; by vm_compute in Hc.
Qed.

Lemma data_line crlf t ctx : printable t -> (1 <= length t)%nat ->
  stream_line all_slots ($"data: " ++ t ++ cr_of crlf) ctx =
    if str_eq t $"[DONE]" then Some (stream_end ctx, Some ($"data: " ++ t ++ if crlf then ["000"%char] else []))
    else match cJSON_Parse t with Some j => ctx' ← stream_json all_slots j ctx; Some (ctx', None) | None => Some (ctx, None) end.
Proof.
  intros Hp Hl. unfold stream_line. change (starts_with $"data: " ($"data: " ++ t ++ cr_of crlf)) with true.
  change (drop 6 ($"data: " ++ t ++ cr_of crlf)) with (t ++ cr_of crlf). cbv beta iota.
  assert (strip_cr (t ++ cr_of crlf) = (t, crlf)) as ->; [|done].
  unfold strip_cr. destruct crlf; cbn [cr_of].
  - by rewrite last_snoc, bool_decide_true, removelast_last.
  - rewrite app_nil_r, bool_decide_false; [done|]. intros Hlast. apply last_Some in Hlast as [t' ->].
    apply Forall_app in Hp as [_ Hp]. inversion Hp as [|? ? Hc _]. by vm_compute in Hc.
Qed.

Lemma blank_line crlf ctx : stream_line all_slots (cr_of crlf) ctx = Some (ctx, None).
Proof. by destruct crlf. Qed.

Lemma cr_line crlf : Forall (fun c => line_char c = true) (cr_of crlf).
Proof. destruct crlf; by repeat constructor. Qed.

Lemma data_line_chars crlf t : printable t -> Forall (fun c => line_char c = true) ($"data: " ++ t ++ cr_of crlf).
Proof. intros H. repeat (apply Forall_app; split); [by repeat constructor|by apply printable_line|apply cr_line]. Qed.

(** One event of the stream. *)
Lemma event_read crlf ds d rest ctx : delta_ok d = true -> assembled ds ctx ->
  exists ctx', assembled (ds ++ [d]) ctx' /\
  lines_of all_slots (delta_event crlf d ++ rest) ctx = lines_of all_slots rest ctx'.
Proof.
  intros Hok Has. destruct (delta_text d Hok) as (t & Ht & Hp & Hl & Hj).
  destruct (assembled_step ds d ctx Hok Has) as (ctx' & Hs & Has'). exists ctx'. split; [done|].
  unfold delta_event. rewrite Ht. change (default [] (Some t)) with t.
  replace (($"data: " ++ t ++ eol crlf ++ eol crlf) ++ rest)
    with (($"data: " ++ t ++ cr_of crlf) ++ ch_nl :: (cr_of crlf ++ ch_nl :: rest)) by (rewrite eol_split; by rewrite <-!app_assoc).
  rewrite lines_of_line by (by apply data_line_chars). rewrite data_line by done.
  assert (str_eq t $"[DONE]" = false) as ->.
  { apply bool_decide_eq_false. intros ->. by vm_compute in Hj. }
  rewrite Hj, Hs. cbn [mbind option_bind]. rewrite lines_of_line by apply cr_line. by rewrite blank_line.
Qed.

Lemma events_read crlf ds : forall done_ds ctx rest, forallb delta_ok ds = true -> assembled done_ds ctx ->
  exists ctx', assembled (done_ds ++ ds) ctx' /\
  lines_of all_slots ((ds ≫= delta_event crlf) ++ rest) ctx = lines_of all_slots rest ctx'.
Proof.
  induction ds as [|d ds IH]; intros pre ctx rest Hok Has; [exists ctx; by rewrite app_nil_r|].
  cbn [forallb] in Hok. apply andb_prop in Hok as [Hd Hok].
  destruct (event_read crlf pre d ((ds ≫= delta_event crlf) ++ rest) ctx Hd Has) as (c1 & Has1 & H1).
  destruct (IH (pre ++ [d]) c1 rest Hok Has1) as (c2 & Has2 & H2).
  exists c2. rewrite <-app_assoc in Has2. split; [done|]. rewrite bind_cons, <-app_assoc. by rewrite H1, H2.
Qed.

Lemma assembled_new : assembled [] stream_new.
Proof. split; try done; cbn; intros; lia. Qed.

(** The answer of a whole stream, and its calls of [on_chunk]. *)
Definition sent_answer (ds : list Delta) : ParsedLLMResponse :=
  mkParsed (if bool_decide (reason_at_end ds = FINISH_REASON_CONTENT_FILTER)
            then error_new ERR_CONTENT_FILTER (Some $"Content filtered") else err_ok)
    (drop_while is_line_end (concat (texts ds))) (call_of ds <$> seq 0 (calls_end ds)) (reason_at_end ds) 0.
Definition sent_chunks (ds : list Delta) : list (cstr * bool) := ((fun t => (t, false)) <$> texts ds) ++ [([], true)].

(** C11: What a streamed answer comes to depends only on the bytes that the
    handler's own reads of the socket return, put together, and not on how
    they are cut. When they are the whole stream (in memory that is granted),
    they are put together to the text and the calls that were sent: the text
    is the concatenation of its pieces, each passed on once and in order
    before the end is announced once, and the call at an index has the last id
    and name and the concatenation of the arguments sent for it. When mongoose
    took all of the stream, as it does with what has arrived at a read event,
    the handler sees nothing, and the end of the connection makes it an empty
    answer without an error. *)
Theorem stream_assembles_answer crlf ds : forallb delta_ok ds = true ->
  (forall realloc_ok l, fst <$> stream_poll realloc_ok (reads l) (stream_new, []) = fst <$> lines_of realloc_ok (own_bytes l) stream_new) /\
  (forall l, own_bytes l = sse_text crlf ds -> exists s, stream_poll all_slots (reads l) (stream_new, []) = Some s /\
     stream_result (fst s) = sent_answer ds /\ sx_chunks (fst s) = sent_chunks ds) /\
  (forall l, concat l.*1 = sse_text crlf ds -> own_bytes l = [] ->
     exists s, stream_poll all_slots (reads l ++ [STREAM_CLOSE]) (stream_new, []) = Some s /\
     stream_result (fst s) = mkParsed err_ok [] [] FINISH_REASON_NONE 0 /\ sx_chunks (fst s) = []).
Proof.
  intros Hok. split_and!.
  { intros realloc_ok l. by apply (stream_poll_reads realloc_ok l (stream_new, [])). }
  2:{ intros l _ Hown. enough (forall l, own_bytes l = [] -> stream_poll all_slots (reads l ++ [STREAM_CLOSE]) (stream_new, []) =
        stream_poll all_slots [STREAM_CLOSE] (stream_new, [])) as -> by (try done; eexists; by split_and!).
      clear l Hown. induction l as [|[taken waiting] l IH]; intros Hown; [done|]. unfold own_bytes in Hown. rewrite fmap_cons in Hown. cbn [concat] in Hown.
      apply app_nil in Hown as [H1 H2]. unfold reads. rewrite fmap_cons. cbn [app stream_poll fst sx_done stream_new stream_ev_handler snd] in *.
      rewrite H1. cbn [stream_read mbind option_bind]. by apply IH. }
  intros l Hc. pose proof (stream_poll_reads all_slots l (stream_new, []) eq_refl ltac:(done)) as Hpoll.
  cbn [fst snd app] in Hpoll. rewrite Hc in Hpoll. unfold sse_text in Hpoll. unfold sent_answer, sent_chunks.
  destruct (events_read crlf ds [] stream_new ($"data: [DONE]" ++ eol crlf ++ eol crlf) Hok assembled_new) as (ctx & Has & Hl).
  rewrite Hl in Hpoll. clear Hl. cbn [app] in Has.
  replace ($"data: [DONE]" ++ eol crlf ++ eol crlf) with (($"data: " ++ $"[DONE]" ++ cr_of crlf) ++ ch_nl :: eol crlf) in Hpoll
    by (by destruct crlf).
  rewrite lines_of_line in Hpoll by (apply data_line_chars; by repeat constructor).
  rewrite data_line in Hpoll by (cbn; try lia; by repeat constructor).
  change (str_eq $"[DONE]" $"[DONE]") with true in Hpoll. cbn [mbind option_bind fst fmap option_fmap option_map] in Hpoll.
  destruct (stream_poll _ _ _) as [s|]; [|done]. cbn in Hpoll. injection Hpoll as Hs. exists s. split; [done|].
  rewrite Hs. destruct Has. unfold stream_result, stream_end.
  cbn [sx_last_error sx_content sx_tool_calls sx_tool_calls_count sx_finish_reason sx_usage_tokens sx_chunks].
  rewrite as_error0, as_content0, as_chunks0, as_reason0, as_usage0. split; [|done]. f_equal.
  rewrite as_count0, Nat2Z.id. apply list_eq. intros i. rewrite list_lookup_fmap.
  destruct (decide (i < calls_end ds)%nat) as [Hi|Hi].
  - rewrite lookup_take_lt, lookup_seq_lt by done. cbn. apply as_slots0. lia.
  - rewrite lookup_take_ge, lookup_seq_ge by lia. done.
Qed.

(** A piece of a call with a negative index is written outside the array. *)
Theorem stream_negative_index_undefined realloc_ok ctx z : - 2 ^ 31 <= z < 0 ->
  stream_json realloc_ok (JObj [member_json $"choices" (JArr [JObj [member_json $"delta"
    (JObj [member_json $"tool_calls" (JArr [JObj [member_json $"index" (JNum (num_of_Z z))]])])]])]) ctx = None.
Proof.
  intros Hz. set (d := JObj [member_json $"index" (JNum (num_of_Z z))]).
  assert (tool_call_delta realloc_ok d ctx = None) as Hd.
  { unfold tool_call_delta. cbv zeta. change (is_number (get_object_item (Some d) $"index")) with (Some (num_of_Z z)).
    cbv beta iota. assert (valueint (num_of_Z z) = z) as ->. { unfold valueint. rewrite num_trunc_Z. unfold INT_MAX. lia. }
    destruct (Z.leb_spec (Z.of_nat (length (sx_tool_calls ctx))) z); [lia|]. by destruct (Z.ltb_spec z 0); [|lia]. }
  change (stream_json _ _ _) with (c1 ← (c2 ← (c3 ← tool_call_delta realloc_ok d ctx; Some c3); 
     Some (mkStream (sx_done c2) (sx_last_error c2) (sx_content c2) (sx_tool_calls c2) (sx_tool_calls_count c2)
             (sx_finish_reason c2) (sx_usage_tokens c2) (sx_chunks c2)));
     Some (mkStream (sx_done c1) (sx_last_error c1) (sx_content c1) (sx_tool_calls c1) (sx_tool_calls_count c1)
             (sx_finish_reason c1) (sx_usage_tokens c1) (sx_chunks c1))).
  by rewrite Hd.
Qed.

(** ** Inputs on which the theorems apply *)

Definition demo_deltas : list Delta :=
  [DText $"Lis"; DText $"ting"; DCall 0 (Some $"c1") (Some $"ls") None; DCall 0 None None (Some $"{");
   DCall 1 (Some $"c2") (Some $"pwd") (Some $"{}"); DCall 0 None None (Some $"}"); DReason $"tool_calls"].

Definition demo_reads : list (cstr * cstr) :=
  let text := sse_text true demo_deltas in [([], take 9 text); ($"HTTP/1.1 200 OK", take 200 (drop 9 text)); ([], drop 200 (drop 9 text))].

Lemma stream_assembles_answer_witness :
  exists s, stream_poll all_slots (reads demo_reads) (stream_new, []) = Some s /\
  stream_result (fst s) =
    mkParsed err_ok $"Listing" [mkToolCall $"c1" $"ls" $"{}"; mkToolCall $"c2" $"pwd" $"{}"] FINISH_REASON_TOOL_CALLS 0 /\
  sx_chunks (fst s) = [($"Lis", false); ($"ting", false); ([], true)].
Proof.
  assert (own_bytes demo_reads = sse_text true demo_deltas) as E by (vm_compute; reflexivity).
  assert (sent_answer demo_deltas = mkParsed err_ok $"Listing" [mkToolCall $"c1" $"ls" $"{}"; mkToolCall $"c2" $"pwd" $"{}"] FINISH_REASON_TOOL_CALLS 0) as <-
    by (vm_compute; reflexivity).
  assert (sent_chunks demo_deltas = [($"Lis", false); ($"ting", false); ([], true)]) as <- by (vm_compute; reflexivity).
  exact (proj1 (proj2 (stream_assembles_answer true demo_deltas eq_refl)) demo_reads E).
Defined.

Lemma stream_negative_index_undefined_witness :
  stream_json all_slots (JObj [member_json $"choices" (JArr [JObj [member_json $"delta"
    (JObj [member_json $"tool_calls" (JArr [JObj [member_json $"index" (JNum (num_of_Z (-1)))]])])]])]) stream_new = None.
Proof. apply (stream_negative_index_undefined all_slots stream_new (-1)). lia. Defined.
