(* ===== verification/Anthropic.v ===== *)
(** [src/plugins/llm/anthropic_provider/anthropic_provider.c]: the plugin for
    the Anthropic API. Its messages are arrays of blocks; its manager of
    requests is the one of ProviderAsync.v with the instance [anthropic_api].
    Allocations succeed where no argument says otherwise. *)
From S2P Require Import Prelude CStr Json JsonTree Common Message Session ToolRegistry Config Provider ProviderAsync.
Open Scope nat_scope.

(** ** The configuration *)

Definition anthropic_config_item (config : option Config) (key : cstr) : option json :=
  c ← config; i ← config_get_plugin_config c (Some $"anthropic_provider"); pc ← cf_plugins c !! i; j ← pg_config pc; get_object_item (Some j) key.

Definition get_anthropic_config_string (config : option Config) (key : cstr) (default_val : option cstr) : option cstr :=
  match nonempty (is_string (anthropic_config_item config key)) with Some s => Some s | None => default_val end.

Definition get_anthropic_config_double (config : option Config) (key : cstr) (default_val : num) : num :=
  default default_val (is_number (anthropic_config_item config key)).

Definition get_anthropic_config_int (config : option Config) (key : cstr) (default_val : Z) : Z :=
  match is_number (anthropic_config_item config key) with Some n => valueint n | None => default_val end.

(** [env] is the value of ANTHROPIC_API_KEY. *)
Definition get_anthropic_api_key (config : option Config) (env : option cstr) : cstr :=
  match get_anthropic_config_string config $"apiKey" None with Some key => key | None => default [] env end.

Definition get_anthropic_model (config : option Config) : cstr :=
  default [] (get_anthropic_config_string config $"model" (Some $"claude-sonnet-4-20250514")).
Definition get_anthropic_api_base (config : option Config) : cstr :=
  default [] (get_anthropic_config_string config $"apiBase" (Some $"https://api.anthropic.com")).
Definition get_anthropic_temperature (config : option Config) : num := get_anthropic_config_double config $"temperature" (mkNum 1 (-1)).
Definition get_anthropic_max_tokens (config : option Config) : Z := get_anthropic_config_int config $"max_tokens" 4096.

(** [env] is the value of PRIMAGEN_TLS_SKIP_VERIFY. *)
Definition anthropic_skip_tls (env : option cstr) : bool :=
  match env with None => false | Some val => str_eq val $"1" || str_eq val $"true" end.

Definition build_anthropic_api_url (config : option Config) : cstr :=
  let api_base := get_anthropic_api_base config in
  api_base ++ (if bool_decide (last api_base = Some "/"%char) then [] else $"/") ++ $"/v1/messages".

Definition parse_anthropic_stop_reason (reason : option cstr) : FinishReason :=
  match reason with
  | None => FINISH_REASON_NONE
  | Some r =>
      if str_eq r $"end_turn" then FINISH_REASON_STOP
      else if str_eq r $"max_tokens" then FINISH_REASON_LENGTH
      else if str_eq r $"stop_sequence" then FINISH_REASON_STOP
      else if str_eq r $"tool_use" then FINISH_REASON_TOOL_CALLS
      else FINISH_REASON_ERROR
  end.

(** ** The request *)

Definition text_block (text : cstr) : json := JObj [member_str $"type" $"text"; member_str $"text" text].
Definition tool_use_block (tc : ToolCall) : json :=
  JObj [member_str $"type" $"tool_use"; member_str $"id" (tc_id tc); member_str $"name" (tc_name tc);
        member_json $"input" (default (JObj []) (cJSON_Parse (tc_arguments tc)))].
Definition tool_result_block (msg : Message) : json :=
  JObj [member_str $"type" $"tool_result"; member_str $"tool_use_id" (m_tool_call_id msg); member_str $"content" (m_content msg)].

Definition content_blocks (msg : Message) : list json :=
  match m_role msg with
  | ROLE_USER => [text_block (m_content msg)]
  | ROLE_ASSISTANT => match m_content msg with [] => [] | c => [text_block c] end ++ (tool_use_block <$> m_tool_calls msg)
  | ROLE_TOOL => [tool_result_block msg]
  end.

Definition anthropic_message (msg : Message) : json :=
  JObj [member_str $"role" (match m_role msg with ROLE_ASSISTANT => $"assistant" | _ => $"user" end);
        member_json $"content" (JArr (content_blocks msg))].

(** [None] only if building the snapshot does not end (Session.v: it does). *)
Definition build_anthropic_messages (session : option Session) (config : option Config) : option json :=
  match session with
  | None => Some (JArr [])
  | Some s =>
      let max_history := match config with
                         | Some c => if (0 <? ac_memory_window (cf_agent c))%Z then Z.to_nat (ac_memory_window (cf_agent c)) else 30%nat
                         | None => 30%nat
                         end in
      snapshot ← session_snapshot_for_context s max_history; Some (JArr (anthropic_message <$> snap_messages snapshot))
  end.

Definition anthropic_tool_item {W D} (t : Tool W D) : json :=
  JObj [member_str $"name" (t_name t); member_str $"description" (t_description t);
        member_json $"input_schema" (default (JObj []) (cJSON_Parse (t_parameters t)))].

(** The members added to the request. *)
Definition add_anthropic_tools {W D} (tools : option (ToolRegistry W D)) : list (cstr * json) :=
  match tools with
  | None => []
  | Some reg => match reg_tools reg with [] => [] | ts => [member_json $"tools" (JArr (anthropic_tool_item <$> ts))] end
  end.

Definition build_anthropic_request_json {W D} (system_prompt : option cstr) (session : option Session) (tools : option (ToolRegistry W D))
    (config : option Config) : option cstr :=
  messages ← build_anthropic_messages session config;
  cJSON_PrintUnformatted (JObj ([member_str $"model" (get_anthropic_model config);
    member_json $"max_tokens" (JNum (num_of_Z (get_anthropic_max_tokens config)));
    member_json $"temperature" (JNum (get_anthropic_temperature config))] ++
    match nonempty system_prompt with Some p => [member_str $"system" p] | None => [] end ++
    [member_json $"messages" messages] ++ add_anthropic_tools tools)).

(** ** The answer *)

Definition block_is (type : cstr) (block : json) : bool := bool_decide (is_string (get_object_item (Some block) $"type") = Some type).

(** The text a block adds. *)
Definition block_text (block : json) : cstr :=
  if block_is $"text" block then
    match is_string (get_object_item (Some block) $"text") with Some text => drop_while is_line_end text | None => [] end
  else [].

Definition block_call (block : json) : ToolCall :=
  let get := get_object_item (Some block) in
  mkToolCall (default [] (is_string (get $"id"))) (default [] (is_string (get $"name")))
    (match get $"input" with Some input => default [] (cJSON_PrintUnformatted input) | None => $"{}" end).

Definition usage_tokens_of (json : json) : Z :=
  let tokens name := match (u ← get_object_item (Some json) $"usage"; is_number (get_object_item (Some u) name)) with Some n => valueint n | None => 0%Z end in
  wrap_s 32 (tokens $"input_tokens" + tokens $"output_tokens").

Definition parse_anthropic_response (json_data : option cstr) (http_status : Z) (last_error : cstr) : ParsedLLMResponse :=
  match nonempty json_data with
  | None =>
      failed (error_new ERR_NETWORK (Some (truncate_to 320 ($"Empty response from Anthropic (status=" ++ fmt_d http_status ++ $", " ++
        (match last_error with [] => $"no payload" | e => e end) ++ $")")))) FINISH_REASON_NONE 0
  | Some data =>
      match cJSON_Parse data with
      | None => failed (error_new ERR_JSON (Some $"Failed to parse Anthropic response")) FINISH_REASON_NONE 0
      | Some root =>
          match get_object_item (Some root) $"error" with
          | Some error_obj =>
              failed (error_new ERR_NETWORK (match get_object_item (Some error_obj) $"message" with
                                             | Some m => is_string (Some m)
                                             | None => Some $"Unknown Anthropic API error"
                                             end)) FINISH_REASON_NONE 0
          | None =>
              let reason := match is_string (get_object_item (Some root) $"stop_reason") with
                            | Some r => parse_anthropic_stop_reason (Some r) | None => FINISH_REASON_NONE end in
              let blocks := default [] (is_array (get_object_item (Some root) $"content")) in
              mkParsed err_ok (blocks ≫= block_text) (block_call <$> List.filter (block_is $"tool_use") blocks) reason (usage_tokens_of root)
          end
      end
  end.

(** ** Calls *)

Definition anthropic_http_request (url json_str api_key : cstr) : cstr :=
  $"POST " ++ mg_url_uri url ++ $" HTTP/1.0" ++ [ch_cr; ch_nl] ++ $"Host: " ++ mg_url_host url ++ [ch_cr; ch_nl] ++
  $"Content-Type: application/json" ++ [ch_cr; ch_nl] ++ $"x-api-key: " ++ api_key ++ [ch_cr; ch_nl] ++
  $"anthropic-version: 2023-06-01" ++ [ch_cr; ch_nl] ++
  $"Content-Length: " ++ fmt_d (wrap_s 32 (Z.of_nat (length json_str))) ++ [ch_cr; ch_nl; ch_cr; ch_nl] ++ json_str.

Definition anthropic_text (t : ApiText) : cstr :=
  match t with
  | NoKey => $"Anthropic API Key not set"
  | NoRequest => $"OOM"
  | NotConnected => $"Failed to connect to Anthropic"
  | TimedOut => $"Anthropic request timed out"
  | NoMemory => $"OOM"
  end.

Definition anthropic_api : ChatApi := {|
  api_key := get_anthropic_api_key;
  api_request := fun W D system_prompt session tools config => build_anthropic_request_json system_prompt session tools config;
  api_url := build_anthropic_api_url;
  api_skip_tls := anthropic_skip_tls;
  api_http_request := anthropic_http_request;
  api_parse := parse_anthropic_response;
  api_text := anthropic_text;
  api_parse_nothing := fun status e => eq_refl;
|}.

(** The synchronous call, as in ProviderAsync.v. *)
Definition anthropic_provider_call_extended {W D} (realloc_ok : N -> bool) (system_prompt : option cstr) (session : option Session)
    (tools : option (ToolRegistry W D)) (config : option Config) (env : option cstr)
    (connected : bool) (events : list Event) : option (option cstr * ParsedLLMResponse) :=
  let key := get_anthropic_api_key config env in
  match key with
  | [] => Some (None, failed (error_new ERR_INVALID_PARAM (Some $"Anthropic API Key not set (config or ANTHROPIC_API_KEY env)")) FINISH_REASON_NONE 0)
  | _ =>
      json_str ← build_anthropic_request_json system_prompt session tools config;
      if connected then
        let ms := sync_poll (api := anthropic_api) realloc_ok events empty_memory in
        Some (Some (anthropic_http_request (build_anthropic_api_url config) json_str key),
              parse_anthropic_response (Some (memory_text ms)) (ms_http_status ms) (ms_last_error ms))
      else Some (None, failed (error_new ERR_NETWORK (Some $"Failed to connect to Anthropic")) FINISH_REASON_NONE 0)
  end.

Definition anthropic_provider_call_async {W D} : AsyncCall W D -> LLMAsyncManager -> LLMAsyncManager := provider_call_async (api := anthropic_api).
Definition anthropic_async_ev_handler := async_ev_handler (api := anthropic_api).
Definition anthropic_async_manager_check_timeouts := async_manager_check_timeouts (api := anthropic_api).
Definition anthropic_async_process_item := async_worker_process_item (api := anthropic_api).
Definition anthropic_async_worker_end {W D} := llm_async_worker_end (W := W) (D := D) (api := anthropic_api).
Definition anthropic_async_manager_stop {W D} := llm_async_manager_stop (W := W) (D := D) (api := anthropic_api).
Definition anthropic_provider_shutdown {W D} := provider_shutdown (W := W) (D := D) (api := anthropic_api).

Definition anthropic_provider_call_streaming : Error := error_new ERR_INVALID_PARAM (Some $"Streaming not yet implemented for Anthropic provider").

(** ** The URL *)

Lemma nonempty_string_none (j : option json) : nonempty (is_string j) <> Some [].
Proof. by destruct (is_string j) as [[]|]. Qed.

(** Whether or not the base ends with a slash, the path has two: the slash that
    was left out or added is followed by that of the path. *)
Lemma anthropic_url_double_slash config : exists base, build_anthropic_api_url config = base ++ $"//v1/messages".
Proof.
  unfold build_anthropic_api_url. case_bool_decide as E; [|exists (get_anthropic_api_base config); done].
  apply last_Some in E as [base ->]. exists base. by rewrite <- app_assoc.
Qed.

Example anthropic_default_url : build_anthropic_api_url None = $"https://api.anthropic.com//v1/messages".
Proof. reflexivity. Qed.

(** ** Results of tools in the request *)

Definition message_blocks (j : json) : list json := default [] (is_array (get_object_item (Some j) $"content")).
Definition used_ids (j : json) : list cstr :=
  (fun b => default [] (item_str b $"id")) <$> List.filter (block_is $"tool_use") (message_blocks j).
Definition result_ids (j : json) : list cstr :=
  (fun b => default [] (item_str b $"tool_use_id")) <$> List.filter (block_is $"tool_result") (message_blocks j).

(** What the API asks of a request: a result follows the message with the use
    of the tool, only results in between. *)
Definition results_chained (items : list json) : Prop :=
  forall j t id, items !! j = Some t -> id ∈ result_ids t ->
  exists i a, i < j /\ items !! i = Some a /\ item_role a = Some $"assistant" /\ id ∈ used_ids a /\
    forall k m, i < k < j -> items !! k = Some m -> result_ids m <> [].

Lemma anthropic_role m : item_role (anthropic_message m) = Some (match m_role m with ROLE_ASSISTANT => $"assistant" | _ => $"user" end).
Proof. by destruct m as [[] c ts tcs i n]. Qed.

Lemma message_blocks_of m : message_blocks (anthropic_message m) = content_blocks m.
Proof. by destruct m as [[] c ts tcs i n]. Qed.

Lemma used_blocks tcs : (fun b => default [] (item_str b $"id")) <$> List.filter (block_is $"tool_use") (tool_use_block <$> tcs) = tc_id <$> tcs.
Proof. induction tcs as [|tc tcs IH]; [done|]. rewrite !fmap_cons, <- IH. reflexivity. Qed.

Lemma no_results tcs : List.filter (block_is $"tool_result") (tool_use_block <$> tcs) = [].
Proof. induction tcs as [|tc tcs IH]; [done|]. rewrite fmap_cons. cbn [List.filter]. rewrite IH. reflexivity. Qed.

Lemma used_ids_of m : m_role m = ROLE_ASSISTANT -> used_ids (anthropic_message m) = tc_id <$> m_tool_calls m.
Proof.
  intros Hr. unfold used_ids. rewrite message_blocks_of. unfold content_blocks. rewrite Hr, List.filter_app, fmap_app, used_blocks.
  by destruct (m_content m).
Qed.

Lemma result_ids_of m : result_ids (anthropic_message m) = match m_role m with ROLE_TOOL => [m_tool_call_id m] | _ => [] end.
Proof.
  unfold result_ids. rewrite message_blocks_of. unfold content_blocks. destruct (m_role m) eqn:Hr; [done| |done].
  rewrite List.filter_app, fmap_app, no_results, app_nil_r. by destruct (m_content m).
Qed.

Lemma chained_results ms : chained ms -> results_chained (anthropic_message <$> ms).
Proof.
  intros Hc j t id Hj Ht. rewrite list_lookup_fmap in Hj. destruct (ms !! j) as [m|] eqn:Ej; [|done]. injection Hj as <-.
  rewrite result_ids_of in Ht. destruct (m_role m) eqn:Hm; [by apply elem_of_nil in Ht..|]. apply list_elem_of_singleton in Ht as ->.
  destruct (Hc _ _ Ej Hm) as (i & Hi & (a & t' & Ha & Ht' & _ & Hcall) & Hmid). simplify_eq.
  unfold assistant_has_tool_call_id in Hcall. apply andb_prop in Hcall as [[Hrole _]%andb_prop Hex].
  apply bool_decide_eq_true in Hrole. apply existsb_exists in Hex as (tc & Htc%list_elem_of_In & Heq).
  apply bool_decide_eq_true in Heq.
  exists i, (anthropic_message a). rewrite list_lookup_fmap, Ha, anthropic_role, Hrole, used_ids_of by done.
  split_and!; [done..| |].
  - rewrite <- Heq. by apply list_elem_of_fmap_2.
  - intros k x Hk Hx. rewrite list_lookup_fmap in Hx. destruct (ms !! k) as [y|] eqn:Ey; [|done]. injection Hx as <-.
    by rewrite result_ids_of, (Hmid k y).
Qed.

(** The request to the Anthropic API holds the latest messages of the
    conversation in order, at least the configured number of them if it has as
    many; and if every result of a tool follows its call in the conversation,
    every result block of the request follows the block with its use. *)
Theorem anthropic_request_keeps_tool_chains s config : chained (s_messages s) ->
  exists start items, build_anthropic_messages (Some s) config = Some (JArr items) /\
  items = anthropic_message <$> drop start (s_messages s) /\
  Nat.min (match config with Some c => if (0 <? ac_memory_window (cf_agent c))%Z then Z.to_nat (ac_memory_window (cf_agent c)) else 30%nat | None => 30%nat end)
    (length (s_messages s)) <= length (drop start (s_messages s)) /\
  results_chained items.
Proof.
  intros Hc. unfold build_anthropic_messages. set (n := match config with Some _ => _ | None => _ end).
  assert (0 < n) as Hn. { unfold n. destruct config as [c|]; [|lia]. destruct (Z.ltb_spec 0 (ac_memory_window (cf_agent c))); lia. }
  destruct (session_snapshot_keeps_tool_chains s n) as (snap & start & Hs & Hd & Ht & Hl & Hch).
  rewrite Hs. cbn [mbind option_bind]. rewrite Hd in *. exists start. eexists. split_and!; [done..|by apply Hl|by apply chained_results, Hch].
Qed.

(** ** Answers *)

Definition anthropic_answer (msg : Message) (reason : cstr) (input output : Z) : json :=
  JObj [member_str $"type" $"message"; member_str $"role" $"assistant"; member_json $"content" (JArr (content_blocks msg));
        member_str $"stop_reason" reason;
        member_json $"usage" (JObj [member_json $"input_tokens" (JNum (num_of_Z input)); member_json $"output_tokens" (JNum (num_of_Z output))])].

(** A call whose arguments are the text of a JSON value. *)
Definition use_ok (tc : ToolCall) : bool :=
  str_ok (tc_id tc) && str_ok (tc_name tc) &&
  match cJSON_Parse (tc_arguments tc) with
  | Some j => json_ok 3 j && bool_decide (cJSON_PrintUnformatted j = Some (tc_arguments tc))
  | None => false
  end.
Definition uses_ok (msg : Message) : bool := str_ok (m_content msg) && forallb use_ok (m_tool_calls msg).

Lemma block_call_use tc : use_ok tc = true -> block_call (tool_use_block tc) = tc.
Proof.
  unfold use_ok, tool_use_block, block_call. intros [_ H]%andb_prop. destruct (cJSON_Parse (tc_arguments tc)) as [j|]; [|done].
  apply andb_prop in H as [_ H%bool_decide_eq_true]. cbn [default].
  change (get_object_item _ $"input") with (Some j). change (is_string (get_object_item _ $"id")) with (Some (tc_id tc)).
  change (is_string (get_object_item _ $"name")) with (Some (tc_name tc)). cbn [default from_option]. rewrite H. by destruct tc.
Qed.

Lemma use_block_ok tc : use_ok tc = true -> json_ok 2 (tool_use_block tc) = true.
Proof.
  unfold use_ok, tool_use_block, member_str, member_json. intros [[Hi Hn]%andb_prop H]%andb_prop.
  destruct (cJSON_Parse (tc_arguments tc)) as [j|]; [|done]. apply andb_prop in H as [Hj _].
  cbn [json_ok forallb fst snd default from_option]. unfold Datatypes.id. rewrite Hi, Hn, Hj. by vm_compute.
Qed.

Lemma blocks_ok msg : m_role msg = ROLE_ASSISTANT -> uses_ok msg = true -> forallb (json_ok 2) (content_blocks msg) = true.
Proof.
  intros Hr [Hc Ht]%andb_prop. unfold content_blocks. rewrite Hr, forallb_app. apply andb_true_intro. split.
  - unfold text_block, member_str. destruct (m_content msg) as [|x c]; [done|]. cbn [forallb json_ok fst snd]. rewrite Hc. by vm_compute.
  - apply forallb_forall. intros x [tc [-> Htc]]%list_elem_of_In%list_elem_of_fmap. apply use_block_ok.
    rewrite forallb_forall in Ht. by apply Ht, list_elem_of_In.
Qed.

Lemma anthropic_answer_ok msg reason input output : m_role msg = ROLE_ASSISTANT -> uses_ok msg = true -> str_ok reason = true ->
  (0 <= input)%Z -> (0 <= output)%Z -> (input + output <= INT_MAX)%Z -> json_ok 0 (anthropic_answer msg reason input output) = true.
Proof.
  intros Hr Hok Hs Hi Ho Hsum. pose proof (blocks_ok msg Hr Hok) as Hb. unfold INT_MAX in *.
  assert (forall z, (0 <= z <= 2147483647)%Z -> num_ok (num_of_Z z) = true) as Hn.
  { intros z Hz. unfold num_ok, num_of_Z. cbn [n_exp n_mant]. rewrite (proj2 (Z.ltb_lt _ _)); [done|]. lia. }
  pose proof (Hn input ltac:(lia)) as Hni. pose proof (Hn output ltac:(lia)) as Hno.
  unfold anthropic_answer, member_json, member_str. remember (content_blocks msg) as bs. clear Heqbs.
  cbn [json_ok forallb fst snd]. rewrite Hb, Hni, Hno, Hs. by vm_compute.
Qed.

Lemma texts_of_uses tcs : (tool_use_block <$> tcs) ≫= block_text = [].
Proof. induction tcs as [|tc tcs IH]; [done|]. rewrite fmap_cons, bind_cons, IH. reflexivity. Qed.

Lemma calls_of_uses tcs : forallb use_ok tcs = true -> block_call <$> List.filter (block_is $"tool_use") (tool_use_block <$> tcs) = tcs.
Proof.
  induction tcs as [|tc tcs IH]; [done|]. intros [Htc Ht]%andb_prop. rewrite fmap_cons. cbn [List.filter].
  change (block_is $"tool_use" (tool_use_block tc)) with true. cbn iota. by rewrite fmap_cons, block_call_use, IH.
Qed.

(** An assistant message as the plugin writes it into a request, put into
    an answer of the Anthropic API, is read back with its tool calls exactly,
    when their arguments are the text of a JSON value, and its text less the
    line ends it begins with. *)
Theorem anthropic_message_roundtrip msg reason input output status e :
  m_role msg = ROLE_ASSISTANT -> uses_ok msg = true -> str_ok reason = true -> (0 <= input)%Z -> (0 <= output)%Z -> (input + output <= INT_MAX)%Z ->
  exists text, cJSON_PrintUnformatted (anthropic_answer msg reason input output) = Some text /\
  parse_anthropic_response (Some text) status e =
    mkParsed err_ok (drop_while is_line_end (m_content msg)) (m_tool_calls msg) (parse_anthropic_stop_reason (Some reason)) (input + output).
Proof.
  intros Hr Hok Hs Hi Ho Hsum.
  destruct (unformatted_line _ (anthropic_answer_ok msg reason input output Hr Hok Hs Hi Ho Hsum)) as (text & Hp & _ & Hlen & Hparse).
  exists text. split; [done|]. specialize (Hparse [] I). rewrite app_nil_r in Hparse.
  unfold parse_anthropic_response. destruct text as [|c text]; [cbn in Hlen; lia|]. cbn [nonempty]. rewrite Hparse.
  change (get_object_item (Some (anthropic_answer msg reason input output)) $"error") with (@None json).
  change (is_string (get_object_item (Some (anthropic_answer msg reason input output)) $"stop_reason")) with (Some reason).
  change (default [] (is_array (get_object_item (Some (anthropic_answer msg reason input output)) $"content"))) with (content_blocks msg).
  change (usage_tokens_of (anthropic_answer msg reason input output)) with (wrap_s 32 (valueint (num_of_Z input) + valueint (num_of_Z output))).
  cbv beta iota zeta. apply andb_prop in Hok as [Hc Ht]. f_equal.
  - unfold content_blocks. rewrite Hr, bind_app, texts_of_uses, app_nil_r. destruct (m_content msg) as [|x t]; [done|].
    cbn [mbind list_bind]. by rewrite app_nil_r.
  - unfold content_blocks. rewrite Hr, List.filter_app, fmap_app, calls_of_uses by done. by destruct (m_content msg).
  - unfold valueint. rewrite !num_trunc_Z. unfold INT_MAX in *. rewrite wrap_s_id; lia.
Qed.

(** ** Inputs on which the theorems apply *)

Lemma anthropic_request_keeps_tool_chains_witness :
  exists start items, build_anthropic_messages (Some demo_session) None = Some (JArr items) /\
  items = anthropic_message <$> drop start demo_chain /\ 3 <= length (drop start demo_chain) /\ results_chained items.
Proof. exact (anthropic_request_keeps_tool_chains demo_session None demo_chain_chained). Defined.

Lemma anthropic_message_roundtrip_witness :
  exists text, cJSON_PrintUnformatted (anthropic_answer demo_answer $"tool_use" 10 2) = Some text /\
  parse_anthropic_response (Some text) 200 [] = mkParsed err_ok $"Listing it." [mkToolCall $"c1" $"ls" $"{}"] FINISH_REASON_TOOL_CALLS 12.
Proof.
  apply (anthropic_message_roundtrip demo_answer $"tool_use" 10 2 200 []); [done|by vm_compute|by vm_compute|lia|lia|by vm_compute].
Defined.
