(* ===== verification/PluginManager.v ===== *)
(** [src/plugin/plugin_manager.c]: the plugins loaded from shared libraries
    and what they register. The loader of the system keeps images of libraries
    with a reference count, as dlopen documents: opening a file that is open
    gives the same image, and closing it for the last time unmaps its code.
    Calling code that is not mapped is [None]. *)
From S2P Require Import Prelude CStr Json Common ToolRegistry Config ProviderRegistry.

Inductive PluginType := PLUGIN_TOOL | PLUGIN_CHANNEL | PLUGIN_MCP | PLUGIN_COMMAND | PLUGIN_LLM_PROVIDER.

#[export] Instance PluginType_eq_dec : EqDecision PluginType.
Proof. solve_decision. Defined.

(** [pi_default_config]: what [get_default_config] gives, if it is there. *)
Record PluginInfo := mkInfo {
  pi_type : PluginType;
  pi_name : option cstr;
  pi_plugin_id : option cstr;
  pi_default_config : option json;
}.

(** What a plugin asks for in [plugin_init]. A channel is what its factory
    gives: NULL, or a channel with the result of its [init] if it has one. A
    provider has or has not a [shutdown]; its [init], if it has one, fails or
    leaves [initialized] with a value. *)
Inductive RegCall (W D : Type) :=
  | RegTool (name desc params : option cstr) (exec : tool_fn W D) (user_data : option D) (user_data_destroy : bool)
  | RegChannel (name : cstr) (create : option (option bool))
  | RegCommand (name desc : cstr) (handler : nat)
  | RegProvider (name : cstr) (shutdown : bool) (init : option (option bool)).
Arguments RegTool {W D}.
Arguments RegChannel {W D}.
Arguments RegCommand {W D}.
Arguments RegProvider {W D}.

(** [plugin_init]: calls of the registration functions, whose results it
    sees, and the code it returns. *)
Inductive InitProg (W D : Type) :=
  | InitReturn (code : Z)
  | InitCall (c : RegCall W D) (k : Z -> InitProg W D).
Arguments InitReturn {W D}.
Arguments InitCall {W D}.

(** The symbols of a library. *)
Record Library (W D : Type) := mkLibrary {
  lib_get_info : option (option PluginInfo);
  lib_init : option (InitProg W D);
  lib_cleanup : bool;
}.
Arguments mkLibrary {W D}.
Arguments lib_get_info {W D}.
Arguments lib_init {W D}.
Arguments lib_cleanup {W D}.

(** An open library. *)
Record Image (W D : Type) := mkImage { im_id : nat; im_path : cstr; im_refs : nat; im_lib : Library W D }.
Arguments mkImage {W D}.
Arguments im_id {W D}.
Arguments im_path {W D}.
Arguments im_refs {W D}.
Arguments im_lib {W D}.

(** [lp_handle]: the image, or NULL; [lp_cleanup]: the image the pointer to
    [plugin_cleanup] leads into, or NULL. *)
Record LoadedPlugin := mkPlugin {
  lp_addr : nat;
  lp_id : cstr;
  lp_plugin_name : cstr;
  lp_path : cstr;
  lp_type : PluginType;
  lp_handle : option nat;
  lp_cleanup : option nat;
}.

(** A registered command, with the image its handler is in. *)
Record CommandReg := mkCommandReg { cr_name : cstr; cr_description : cstr; cr_handler : nat; cr_image : option nat }.
Record ChannelReg := mkChannelReg { ch_addr : nat; ch_name : cstr; ch_image : option nat }.

Inductive Event :=
  | EvCleanup (image : nat)
  | EvProvider (e : Effect)
  | EvChannelDestroy (addr : nat).

(** The manager, the loader and the registry of providers. [pm_channel_names]
    is [None] before the cache is made. *)
Record Manager (W D : Type) := mkManager {
  pm_plugins : list LoadedPlugin;
  pm_plugin_count : Z;
  pm_external_dir : cstr;
  pm_config : option Config;
  pm_bus : bool;
  pm_tool_registry : option (ToolRegistry W D);
  pm_channels : option (list ChannelReg);
  pm_commands : list CommandReg;
  pm_command_capacity : nat;
  pm_channel_names : option (list cstr);
  pm_images : list (Image W D);
  pm_next_image : nat;
  pm_next_addr : nat;
  pm_registry : option LLMProviderRegistry;
  pm_events : list Event;
}.
Arguments mkManager {W D}.
Arguments pm_plugins {W D}.
Arguments pm_plugin_count {W D}.
Arguments pm_external_dir {W D}.
Arguments pm_config {W D}.
Arguments pm_bus {W D}.
Arguments pm_tool_registry {W D}.
Arguments pm_channels {W D}.
Arguments pm_commands {W D}.
Arguments pm_command_capacity {W D}.
Arguments pm_channel_names {W D}.
Arguments pm_images {W D}.
Arguments pm_next_image {W D}.
Arguments pm_next_addr {W D}.
Arguments pm_registry {W D}.
Arguments pm_events {W D}.

(** ** The directory of plugins *)

Record StringList := mkStringList { sl_files : list cstr; sl_capacity : nat }.

Inductive FileType := Directory | Regular | Symlink | Special.

Section Scan.
(** The entries of a directory that can be opened, what [lstat] says, and
    whether an array of so many pointers can be allocated. *)
Context (readdir : cstr -> option (list cstr)) (lstat : cstr -> option FileType) (realloc_ok : Z -> bool).

Definition string_list_add (l : StringList) (path : cstr) : StringList :=
  if Nat.leb (sl_capacity l) (length (sl_files l)) then
    if realloc_ok (Z.of_nat (sl_capacity l * 2)) then mkStringList (sl_files l ++ [path]) (sl_capacity l * 2) else l
  else mkStringList (sl_files l ++ [path]) (sl_capacity l).

Definition PATH_BUF_SIZE : nat := 2048.
Definition full_path (dir name : cstr) : cstr := truncate_to PATH_BUF_SIZE (dir ++ ["/"%char] ++ name).

Definition has_extension (name extension : cstr) : bool :=
  match strrchr name "."%char with Some i => str_eq (drop i name) extension | None => false end.

(** One entry; [recur] scans a directory below. *)
Definition scan_entry (recur : cstr -> StringList -> option StringList) (dir extension : cstr) (l : StringList) (name : cstr) : option StringList :=
  match name with
  | "."%char :: _ => Some l
  | _ =>
      match lstat (full_path dir name) with
      | Some Directory => recur (full_path dir name) l
      | Some Regular => Some (if has_extension name extension then string_list_add l (full_path dir name) else l)
      | _ => Some l
      end
  end.

Fixpoint scan_entries (f : StringList -> cstr -> option StringList) (names : list cstr) (l : StringList) : option StringList :=
  match names with [] => Some l | n :: r => l' ← f l n; scan_entries f r l' end.

(** [fuel] bounds the depth; [None] when it is not enough. *)
Fixpoint scan_directory_recursive (fuel : nat) (extension dir : cstr) (l : StringList) : option StringList :=
  match fuel with
  | 0 => None
  | S n =>
      match readdir dir with
      | None => Some l
      | Some names => scan_entries (scan_entry (scan_directory_recursive n extension) dir extension) names l
      end
  end.

Definition scan_directory (dir extension : cstr) : option StringList :=
  scan_directory_recursive PATH_BUF_SIZE extension dir (mkStringList [] 32).

Lemma path_buf_pos : 2 <= PATH_BUF_SIZE.
Proof. apply Nat.leb_le. reflexivity. Qed.

#[local] Opaque PATH_BUF_SIZE.

(** ** Termination: a path grows at each level *)

Lemma scan_entries_some f names : (forall l n, is_Some (f l n)) -> forall l, is_Some (scan_entries f names l).
Proof.
  intros Hf. induction names as [|n r IH]; intros l; [by eexists|]. cbn [scan_entries]. destruct (Hf l n) as [l' ->]. apply IH.
Qed.

Lemma scan_recursive_some extension : (forall path, PATH_BUF_SIZE - 1 <= length path -> lstat path <> Some Directory) ->
  forall fuel dir l, PATH_BUF_SIZE <= length dir + fuel -> 0 < fuel -> is_Some (scan_directory_recursive fuel extension dir l).
Proof.
  intros Hlong fuel. induction fuel as [|n IH]; intros dir l Hf H0; [lia|]. cbn [scan_directory_recursive].
  destruct (readdir dir) as [names|]; [|by eexists]. apply scan_entries_some. intros l' name. unfold scan_entry.
  assert (Hrec : lstat (full_path dir name) = Some Directory -> is_Some (scan_directory_recursive n extension (full_path dir name) l')).
  { intros Hd. assert (length (full_path dir name) < PATH_BUF_SIZE - 1) as Hlt.
    { destruct (Nat.lt_ge_cases (length (full_path dir name)) (PATH_BUF_SIZE - 1)) as [|Hge]; [done|]. by apply Hlong in Hge. }
    unfold full_path, truncate_to in Hlt |- *. rewrite length_take, !length_app in Hlt. cbn [length] in Hlt.
    pose proof path_buf_pos. apply IH; [rewrite length_take, !length_app; cbn [length]|]; lia. }
  destruct name as [|c name]; [|destruct (bool_decide (c = "."%char)) eqn:Ec; [apply bool_decide_eq_true in Ec as ->; by eexists|]].
  - destruct (lstat _) as [[]|] eqn:E; try (by eexists). by apply Hrec.
  - assert ((match c :: name with "."%char :: _ => Some l' | _ => match lstat (full_path dir (c :: name)) with
      | Some Directory => scan_directory_recursive n extension (full_path dir (c :: name)) l'
      | Some Regular => Some (if has_extension (c :: name) extension then string_list_add l' (full_path dir (c :: name)) else l')
      | _ => Some l' end end) = match lstat (full_path dir (c :: name)) with
      | Some Directory => scan_directory_recursive n extension (full_path dir (c :: name)) l'
      | Some Regular => Some (if has_extension (c :: name) extension then string_list_add l' (full_path dir (c :: name)) else l')
      | _ => Some l' end) as ->.
    { apply bool_decide_eq_false in Ec. destruct c as [[] [] [] [] [] [] [] []]; done. }
    destruct (lstat _) as [[]|] eqn:E; try (by eexists). by apply Hrec.
Qed.

(** The scan of the plugin directory ends when no directory has a path
    of 2047 bytes or more: a longer one is cut to itself by the buffer. *)
Theorem scan_directory_terminates dir extension :
  (forall path, PATH_BUF_SIZE - 1 <= length path -> lstat path <> Some Directory) -> is_Some (scan_directory dir extension).
Proof. intros H. pose proof path_buf_pos. apply scan_recursive_some; [done|lia|lia]. Qed.
End Scan.

Section Manager.
Context {W D : Type}.
Abbreviation Manager := (Manager W D).

Definition set_list (l : list LoadedPlugin) (n : Z) (m : Manager) : Manager :=
  mkManager l n (pm_external_dir m) (pm_config m) (pm_bus m) (pm_tool_registry m) (pm_channels m) (pm_commands m) (pm_command_capacity m) (pm_channel_names m) (pm_images m) (pm_next_image m) (pm_next_addr m) (pm_registry m) (pm_events m).
Definition set_config (v : option Config) (m : Manager) : Manager :=
  mkManager (pm_plugins m) (pm_plugin_count m) (pm_external_dir m) v (pm_bus m) (pm_tool_registry m) (pm_channels m) (pm_commands m) (pm_command_capacity m) (pm_channel_names m) (pm_images m) (pm_next_image m) (pm_next_addr m) (pm_registry m) (pm_events m).
Definition set_tool_registry (v : option (ToolRegistry W D)) (m : Manager) : Manager :=
  mkManager (pm_plugins m) (pm_plugin_count m) (pm_external_dir m) (pm_config m) (pm_bus m) v (pm_channels m) (pm_commands m) (pm_command_capacity m) (pm_channel_names m) (pm_images m) (pm_next_image m) (pm_next_addr m) (pm_registry m) (pm_events m).
Definition set_channels (v : option (list ChannelReg)) (names : option (list cstr)) (m : Manager) : Manager :=
  mkManager (pm_plugins m) (pm_plugin_count m) (pm_external_dir m) (pm_config m) (pm_bus m) (pm_tool_registry m) v (pm_commands m) (pm_command_capacity m) names (pm_images m) (pm_next_image m) (pm_next_addr m) (pm_registry m) (pm_events m).
Definition set_commands (l : list CommandReg) (cap : nat) (m : Manager) : Manager :=
  mkManager (pm_plugins m) (pm_plugin_count m) (pm_external_dir m) (pm_config m) (pm_bus m) (pm_tool_registry m) (pm_channels m) l cap (pm_channel_names m) (pm_images m) (pm_next_image m) (pm_next_addr m) (pm_registry m) (pm_events m).
Definition set_images (l : list (Image W D)) (next : nat) (m : Manager) : Manager :=
  mkManager (pm_plugins m) (pm_plugin_count m) (pm_external_dir m) (pm_config m) (pm_bus m) (pm_tool_registry m) (pm_channels m) (pm_commands m) (pm_command_capacity m) (pm_channel_names m) l next (pm_next_addr m) (pm_registry m) (pm_events m).
Definition set_next_addr (n : nat) (m : Manager) : Manager :=
  mkManager (pm_plugins m) (pm_plugin_count m) (pm_external_dir m) (pm_config m) (pm_bus m) (pm_tool_registry m) (pm_channels m) (pm_commands m) (pm_command_capacity m) (pm_channel_names m) (pm_images m) (pm_next_image m) n (pm_registry m) (pm_events m).
Definition set_registry (v : option LLMProviderRegistry) (m : Manager) : Manager :=
  mkManager (pm_plugins m) (pm_plugin_count m) (pm_external_dir m) (pm_config m) (pm_bus m) (pm_tool_registry m) (pm_channels m) (pm_commands m) (pm_command_capacity m) (pm_channel_names m) (pm_images m) (pm_next_image m) (pm_next_addr m) v (pm_events m).
Definition add_events (l : list Event) (m : Manager) : Manager :=
  mkManager (pm_plugins m) (pm_plugin_count m) (pm_external_dir m) (pm_config m) (pm_bus m) (pm_tool_registry m) (pm_channels m) (pm_commands m) (pm_command_capacity m) (pm_channel_names m) (pm_images m) (pm_next_image m) (pm_next_addr m) (pm_registry m) (pm_events m ++ l).

(** ** The loader of the system *)

Definition image_of (i : nat) (m : Manager) : option (Image W D) := List.find (fun im => Nat.eqb (im_id im) i) (pm_images m).
Definition mapped (i : nat) (m : Manager) : bool := bool_decide (is_Some (image_of i m)).

(** [file]: the libraries that can be opened now. *)
Definition dlopen (file : cstr -> option (Library W D)) (path : cstr) (m : Manager) : Manager * option nat :=
  match List.find (fun im => str_eq (im_path im) path) (pm_images m) with
  | Some im =>
      (set_images ((fun x => if Nat.eqb (im_id x) (im_id im) then mkImage (im_id x) (im_path x) (S (im_refs x)) (im_lib x) else x) <$> pm_images m)
         (pm_next_image m) m, Some (im_id im))
  | None =>
      match file path with
      | Some lib => (set_images (pm_images m ++ [mkImage (pm_next_image m) path 1 lib]) (S (pm_next_image m)) m, Some (pm_next_image m))
      | None => (m, None)
      end
  end.

Definition close_image (i : nat) (im : Image W D) : option (Image W D) :=
  if Nat.eqb (im_id im) i then
    match im_refs im with
    | 0 | 1 => None
    | S n => Some (mkImage (im_id im) (im_path im) n (im_lib im))
    end
  else Some im.
Definition dlclose (i : nat) (m : Manager) : Manager := set_images (omap (close_image i) (pm_images m)) (pm_next_image m) m.
Definition dlclose_handle (h : option nat) (m : Manager) : Manager := match h with Some i => dlclose i m | None => m end.

(** The call of [plugin_cleanup] through its pointer. *)
Definition call_cleanup (f : option nat) (m : Manager) : option Manager :=
  match f with
  | None => Some m
  | Some i => if mapped i m then Some (add_events [EvCleanup i] m) else None
  end.

(** ** Registration *)

Section Alloc.
(** Whether an array of so many elements can be allocated. *)
Context (realloc_ok : Z -> bool).

Definition plugin_register_tool_with_destroy (m : Manager) (plugin : option nat) (name desc params : option cstr) (exec : tool_fn W D)
    (user_data : option D) (user_data_destroy : bool) : Manager * Z :=
  match pm_tool_registry m with
  | None => (m, (-1)%Z)
  | Some reg =>
      let '(reg', err) := tool_registry_register_full (realloc_ok (Z.of_nat (reg_capacity reg * 2))) reg name desc params exec user_data plugin user_data_destroy in
      (set_tool_registry (Some reg') m, if is_err err then (-1)%Z else 0%Z)
  end.

Definition plugin_register_tool (m : Manager) (plugin : option nat) (name desc params : option cstr) (exec : tool_fn W D)
    (user_data : option D) : Manager * Z :=
  plugin_register_tool_with_destroy m plugin name desc params exec user_data false.

Definition CHANNEL_NAMES : nat := 16.

Definition plugin_register_channel (m : Manager) (image : option nat) (name : cstr) (create : option (option bool)) : Manager * Z :=
  match create with
  | None => (m, (-1)%Z)
  | Some init =>
      let addr := pm_next_addr m in
      let m1 := set_next_addr (S addr) m in
      let destroyed := (add_events [EvChannelDestroy addr] m1, (-1)%Z) in
      if bool_decide (init = Some false) && bool_decide (is_Some (pm_config m)) && pm_bus m then destroyed
      else match pm_channels m with
           | None => destroyed
           | Some l =>
               let names := default [] (pm_channel_names m) in
               (set_channels (Some (l ++ [mkChannelReg addr name image]))
                  (Some (if Nat.ltb (length names) CHANNEL_NAMES then names ++ [name] else names)) m1, 0%Z)
           end
  end.

Definition plugin_register_command (m : Manager) (image : option nat) (name desc : cstr) (handler : nat) : Manager * Z :=
  let put cap := (set_commands (pm_commands m ++ [mkCommandReg name desc handler image]) cap m, 0%Z) in
  if Nat.leb (pm_command_capacity m) (length (pm_commands m)) then
    let new_cap := if Nat.eqb (pm_command_capacity m) 0 then 16 else pm_command_capacity m * 2 in
    if realloc_ok (Z.of_nat new_cap) then put new_cap else (m, (-1)%Z)
  else put (pm_command_capacity m).

Definition plugin_manager_get_commands (m : Manager) : list CommandReg := pm_commands m.
Definition plugin_manager_get_channels (m : Manager) : list cstr := default [] (pm_channel_names m).

(** The name under which a provider is registered. *)
Definition provider_name (config : option Config) (name : cstr) : cstr :=
  match (c ← config; i ← config_get_plugin_config c (Some name); p ← cf_plugins c !! i; pg_config p) with
  | Some j => match is_string (get_object_item (Some j) $"name") with Some [] | None => name | Some n => n end
  | None => name
  end.

Definition plugin_register_llm_provider (m : Manager) (plugin : option nat) (name : cstr) (shutdown : bool) (init : option (option bool)) : Manager * Z :=
  let addr := pm_next_addr m in
  let m1 := set_next_addr (S addr) m in
  let provider := mkProvider addr (Some (provider_name (pm_config m) name)) shutdown plugin (match init with Some (Some b) => b | _ => false end) in
  if bool_decide (init = Some None) then (add_events [EvProvider (Free addr)] m1, (-1)%Z)
  else
    let refuse := (add_events (EvProvider <$> ((if shutdown then [Shutdown addr] else []) ++ [Free addr])) m1, (-1)%Z) in
    match pm_registry m with
    | None => refuse
    | Some r =>
        match llm_provider_registry_register realloc_ok r provider with
        | (r', effects, code) =>
            if (code =? 0)%Z then (add_events (EvProvider <$> effects) (set_registry (Some r') m1), 0%Z) else refuse
        end
    end.

Definition register (c : RegCall W D) (plugin image : option nat) (m : Manager) : Manager * Z :=
  match c with
  | RegTool name desc params exec user_data destroy => plugin_register_tool_with_destroy m plugin name desc params exec user_data destroy
  | RegChannel name create => plugin_register_channel m image name create
  | RegCommand name desc handler => plugin_register_command m image name desc handler
  | RegProvider name shutdown init => plugin_register_llm_provider m plugin name shutdown init
  end.

(** [plugin_init(manager, plugin)], whose code is in [image]. *)
Fixpoint run_init (p : InitProg W D) (plugin image : nat) (m : Manager) : Manager * Z :=
  match p with
  | InitReturn code => (m, code)
  | InitCall c k => let '(m', r) := register c (Some plugin) (Some image) m in run_init (k r) plugin image m'
  end.

(** ** Loading *)

Definition find_plugin_at (path : cstr) (m : Manager) : option LoadedPlugin := List.find (fun p => str_eq (lp_path p) path) (pm_plugins m).

(** The plugin, its [init] and its information. *)
Definition load_plugin_from_file (file : cstr -> option (Library W D)) (path : cstr) (m : Manager)
    : Manager * option (LoadedPlugin * option (InitProg W D) * PluginInfo) :=
  match dlopen file path m with
  | (m1, None) => (m1, None)
  | (m1, Some h) =>
      match (im ← image_of h m1; lib_get_info (im_lib im)) with
      | Some (Some info) =>
          let lib := im_lib <$> image_of h m1 in
          let name := default path (pi_name info) in
          let plugin := mkPlugin (pm_next_addr m1) (default name (pi_plugin_id info)) name path (pi_type info) (Some h)
                          (if default false (lib_cleanup <$> lib) then Some h else None) in
          (set_next_addr (S (pm_next_addr m1)) m1, Some (plugin, l ← lib; lib_init l, info))
      | _ => (dlclose h m1, None)
      end
  end.

(** The first part, under the lock: [None] for a plugin that is loaded, or
    what was opened. *)
Definition load_begin (file : cstr -> option (Library W D)) (path : cstr) (m : Manager)
    : option (Manager * option (LoadedPlugin * option (InitProg W D) * PluginInfo)) :=
  if is_Some_dec (find_plugin_at path m) then None else Some (load_plugin_from_file file path m).

(** The configuration a plugin gets when it has none. *)
Definition add_default_config (p : LoadedPlugin) (info : PluginInfo) (c : Config) : Config :=
  match config_get_plugin_config c (Some (lp_id p)) with
  | Some _ => c
  | None =>
      match config_add_plugin_config (fun n => realloc_ok (Z.of_nat n)) c (lp_id p) with
      | (c1, Some i) =>
          let enabled := match lp_type p with PLUGIN_TOOL | PLUGIN_LLM_PROVIDER => true | _ => false end in
          set_plugins (alter (fun pc => mkPluginConfig (pg_id pc) enabled
                                (match pi_default_config info with Some j => Some j | None => pg_config pc end)) i (cf_plugins c1))
            (cf_plugins_capacity c1) c1
      | (c1, None) => c1
      end
  end.

Definition SIZE_MAX1 : Z := 2 ^ 64.

(** The last part, under the lock again. *)
Definition load_add (p : LoadedPlugin) (info : PluginInfo) (m : Manager) : Manager :=
  let m1 := set_list (p :: pm_plugins m) ((pm_plugin_count m + 1) mod SIZE_MAX1) m in
  match pm_config m1 with Some c => set_config (Some (add_default_config p info c)) m1 | None => m1 end.

(** [plugin->init], without the lock. *)
Definition load_init (p : LoadedPlugin) (init : option (InitProg W D)) (m : Manager) : Manager * Z :=
  match init, lp_handle p with
  | Some prog, Some h =>
      match run_init prog (lp_addr p) h m with
      | (m1, code) => if (code =? 0)%Z then (m1, 0%Z) else (dlclose h m1, (-1)%Z)
      end
  | _, _ => (m, 0%Z)
  end.

Definition plugin_manager_load_plugin (file : cstr -> option (Library W D)) (path : cstr) (m : Manager) : Manager * Z :=
  match load_begin file path m with
  | None => (m, 0%Z)
  | Some (m1, None) => (m1, (-1)%Z)
  | Some (m1, Some (p, init, info)) =>
      match load_init p init m1 with
      | (m2, code) => if (code =? 0)%Z then (load_add p info m2, 0%Z) else (m2, code)
      end
  end.

(** The configuration of the plugin in a file, by the name of the file. *)
Definition plugin_config_from_so_name (cfg : option Config) (path : cstr) : option PluginConfig :=
  c ← cfg;
  let filename := match strrchr path "/"%char with Some i => drop (i + 1) path | None => path end in
  let id_len := match strrchr filename "."%char with Some i => i | None => length filename end in
  if Nat.eqb id_len 0 || Nat.leb 256 id_len then None
  else i ← index_of (named pg_id (take id_len filename)) (cf_plugins c); cf_plugins c !! i.

(** The files of a directory, already scanned. *)
Fixpoint load_files (file : cstr -> option (Library W D)) (paths : list cstr) (m : Manager) : Manager * nat :=
  match paths with
  | [] => (m, 0)
  | path :: r =>
      match plugin_config_from_so_name (pm_config m) path with
      | Some pc =>
          if pg_enabled pc then
            let '(m1, code) := plugin_manager_load_plugin file path m in
            let '(m2, n) := load_files file r m1 in (m2, if (code =? 0)%Z then S n else n)
          else load_files file r m
      | None => load_files file r m
      end
  end.

(** The plugins of the external directory; [None] when the scan does not end. *)
Definition plugin_manager_load_external (readdir : cstr -> option (list cstr)) (lstat : cstr -> option FileType)
    (file : cstr -> option (Library W D)) (m : Manager) : option (Manager * nat) :=
  found ← scan_directory readdir lstat realloc_ok (pm_external_dir m) $".so"; Some (load_files file (sl_files found) m).

(** ** Unloading *)

(** The providers of a plugin are removed before its code goes. *)
Definition unregister_providers (p : LoadedPlugin) (m : Manager) : Manager :=
  if bool_decide (lp_type p = PLUGIN_LLM_PROVIDER) then
    match pm_registry m with
    | Some r =>
        let '(r', effects, _) := llm_provider_registry_unregister_by_plugin realloc_ok r (Some (lp_addr p)) in
        add_events (EvProvider <$> effects) (set_registry (Some r') m)
    | None => m
    end
  else m.

Definition plugin_manager_cleanup_plugin (p : LoadedPlugin) (m : Manager) : option Manager :=
  m1 ← call_cleanup (lp_cleanup p) (unregister_providers p m);
  Some (dlclose_handle (lp_handle p) m1).

Fixpoint remove_addr (a : nat) (l : list LoadedPlugin) : list LoadedPlugin :=
  match l with [] => [] | p :: r => if Nat.eqb (lp_addr p) a then r else p :: remove_addr a r end.

(** [p]: the plugin that is pointed to. *)
Definition plugin_manager_unload_plugin (p : LoadedPlugin) (m : Manager) : option Manager :=
  m1 ← plugin_manager_cleanup_plugin p m;
  Some (set_list (remove_addr (lp_addr p) (pm_plugins m1)) ((pm_plugin_count m1 - 1) mod SIZE_MAX1) m1).

Definition known_as (id : cstr) (p : LoadedPlugin) : bool := str_eq (lp_id p) id || str_eq (lp_plugin_name p) id.

Definition plugin_manager_get_loaded_plugin (m : Manager) (id : cstr) : option LoadedPlugin := List.find (known_as id) (pm_plugins m).

(** A copy, without the handle and the functions. *)
Definition snapshot (addr : nat) (p : LoadedPlugin) : LoadedPlugin :=
  mkPlugin addr (lp_id p) (lp_plugin_name p) (lp_path p) (lp_type p) None None.
Definition plugin_manager_find_plugin (m : Manager) (id : cstr) (addr : nat) : option LoadedPlugin :=
  snapshot addr <$> List.find (fun p => str_eq (lp_id p) id) (pm_plugins m).
Definition plugin_manager_find_plugin_by_name (m : Manager) (name : cstr) (addr : nat) : option LoadedPlugin :=
  snapshot addr <$> List.find (fun p => str_eq (lp_plugin_name p) name) (pm_plugins m).

Definition replace_plugin (q : LoadedPlugin) (m : Manager) : Manager :=
  set_list ((fun p => if Nat.eqb (lp_addr p) (lp_addr q) then q else p) <$> pm_plugins m) (pm_plugin_count m) m.
Definition set_code (h c : option nat) (p : LoadedPlugin) : LoadedPlugin :=
  mkPlugin (lp_addr p) (lp_id p) (lp_plugin_name p) (lp_path p) (lp_type p) h c.

Definition plugin_manager_reload_plugin (file : cstr -> option (Library W D)) (id : cstr) (m : Manager) : option (Manager * Z) :=
  match plugin_manager_get_loaded_plugin m id with
  | None => Some (m, (-1)%Z)
  | Some p =>
      m1 ← plugin_manager_cleanup_plugin p m;
      match dlopen file (lp_path p) m1 with
      | (m2, None) => Some (replace_plugin (set_code None (lp_cleanup p) p) m2, (-1)%Z)
      | (m2, Some h) =>
          let lib := im_lib <$> image_of h m2 in
          let q := set_code (Some h) (if default false (lib_cleanup <$> lib) then Some h else None) p in
          let m3 := replace_plugin q m2 in
          match (l ← lib; lib_init l) with
          | None => Some (m3, 0%Z)
          | Some prog =>
              match run_init prog (lp_addr p) h m3 with
              | (m4, code) =>
                  if (code =? 0)%Z then Some (m4, 0%Z)
                  else Some (replace_plugin (set_code None (lp_cleanup q) q) (dlclose h m4), (-1)%Z)
              end
          end
      end
  end.

(** [plugin_manager_free]: the plugins, from the first on. *)
Fixpoint free_plugins (l : list LoadedPlugin) (m : Manager) : option Manager :=
  match l with
  | [] => Some m
  | p :: r => m1 ← plugin_manager_cleanup_plugin p (set_list r (pm_plugin_count m) m); free_plugins r m1
  end.
Definition plugin_manager_free (m : Manager) : option Manager := free_plugins (pm_plugins m) m.

(** [plugin_manager_new], and the context that main then sets. *)
Definition plugin_manager_new (base_dir : cstr) (config : option Config) (bus : bool) (tools : option (ToolRegistry W D))
    (channels : option (list ChannelReg)) (registry : option LLMProviderRegistry) (next_addr : nat) : Manager :=
  mkManager [] 0 (base_dir ++ $"/plugins") config bus tools channels [] 0 None [] 0 next_addr registry [].

(** ** What every manager satisfies

    [ok_with l m]: the plugins [l] are those that have an open library, each
    its own, opened once, with the pointer to its cleanup leading into it. *)

Definition plugin_image (p : LoadedPlugin) (im : Image W D) : Prop :=
  lp_handle p = Some (im_id im) /\ im_path im = lp_path p /\ im_refs im = 1 /\
  lp_cleanup p = if lib_cleanup (im_lib im) then Some (im_id im) else None.

Record ok_with (l : list LoadedPlugin) (m : Manager) : Prop := {
  ow_addrs : NoDup (lp_addr <$> l);
  ow_fresh : Forall (fun p => lp_addr p < pm_next_addr m) l;
  ow_paths : NoDup (lp_path <$> l);
  ow_images : forall p, p ∈ l -> exists im, im ∈ pm_images m /\ plugin_image p im;
  ow_same : im_path <$> pm_images m ≡ₚ lp_path <$> l;
  ow_ids : NoDup (im_id <$> pm_images m);
  ow_next : Forall (fun im => im_id im < pm_next_image m) (pm_images m);
}.

Record manager_ok (m : Manager) : Prop := {
  mk_plugins : ok_with (pm_plugins m) m;
  mk_count : pm_plugin_count m = (Z.of_nat (length (pm_plugins m)) mod SIZE_MAX1)%Z;
}.

Lemma ok_with_perm l l' m : l ≡ₚ l' -> ok_with l m -> ok_with l' m.
Proof.
  intros Hp [H1 H2 H3 H4 H5 H6 H7]. split; try done; try (by rewrite <- Hp).
  intros p Hin. apply H4. by rewrite Hp.
Qed.

(** What registration leaves alone. *)
Record same_plugins (m m' : Manager) : Prop := {
  sp_plugins : pm_plugins m' = pm_plugins m;
  sp_count : pm_plugin_count m' = pm_plugin_count m;
  sp_images : pm_images m' = pm_images m;
  sp_next : pm_next_image m' = pm_next_image m;
  sp_addr : pm_next_addr m <= pm_next_addr m';
}.

Lemma same_plugins_refl m : same_plugins m m.
Proof. by split. Qed.
Lemma same_plugins_trans m1 m2 m3 : same_plugins m1 m2 -> same_plugins m2 m3 -> same_plugins m1 m3.
Proof. intros [] []. split; try congruence. lia. Qed.

Lemma ok_with_frame l m m' : pm_images m' = pm_images m -> pm_next_image m <= pm_next_image m' -> pm_next_addr m <= pm_next_addr m' ->
  ok_with l m -> ok_with l m'.
Proof.
  intros Hi Hn Ha [H1 H2 H3 H4 H5 H6 H7]. split; rewrite ?Hi; try done.
  - eapply Forall_impl; [exact H2|]. intros p Hlt. cbn in *. lia.
  - eapply Forall_impl; [exact H7|]. intros p Hlt. cbn in *. lia.
Qed.

Lemma ok_with_same l m m' : same_plugins m m' -> ok_with l m -> ok_with l m'.
Proof. intros [_ _ Hi Hn Ha]. apply ok_with_frame; [done|lia|done]. Qed.

Lemma register_same c plugin image m : same_plugins m (fst (register c plugin image m)).
Proof.
  destruct c; cbn [register].
  - unfold plugin_register_tool_with_destroy. destruct (pm_tool_registry m) as [reg|]; [|by split].
    destruct (tool_registry_register_full _ _ _ _ _ _ _ _ _). by split.
  - unfold plugin_register_channel. destruct create; [|by split]. destruct (_ && pm_bus m); [split; cbn; lia || done|].
    destruct (pm_channels m); split; cbn; lia || done.
  - unfold plugin_register_command. repeat case_match; by split.
  - unfold plugin_register_llm_provider. destruct (bool_decide _); [split; cbn; lia || done|].
    destruct (pm_registry m) as [r|]; [|split; cbn; lia || done].
    destruct (llm_provider_registry_register _ _ _) as [[r' effects] code]. destruct (code =? 0)%Z; split; cbn; lia || done.
Qed.

Lemma run_init_same prog plugin image : forall m, same_plugins m (fst (run_init prog plugin image m)).
Proof.
  induction prog as [code|c k IH]; intros m; [by split|]. cbn [run_init].
  pose proof (register_same c (Some plugin) (Some image) m) as Hs. destruct (register c (Some plugin) (Some image) m) as [m' r].
  eapply same_plugins_trans; [exact Hs|apply IH].
Qed.

Lemma find_none {A} (f : A -> bool) (l : list A) : (forall x, x ∈ l -> f x = false) -> List.find f l = None.
Proof.
  induction l as [|x l IH]; [done|]. intros H. cbn. rewrite (H x) by left. apply IH. intros y Hy. apply H. by right.
Qed.

Lemma image_of_in im m : NoDup (im_id <$> pm_images m) -> im ∈ pm_images m -> image_of (im_id im) m = Some im.
Proof.
  unfold image_of. induction (pm_images m) as [|x l IH]; intros Hnd Hin; [by apply not_elem_of_nil in Hin|].
  rewrite fmap_cons in Hnd. apply NoDup_cons in Hnd as [Hx Hnd]. cbn. destruct (Nat.eqb (im_id x) (im_id im)) eqn:E.
  - apply Nat.eqb_eq in E. apply elem_of_cons in Hin as [->|Hin]; [done|]. exfalso. apply Hx. rewrite E. by apply list_elem_of_fmap_2.
  - apply elem_of_cons in Hin as [->|Hin]; [by rewrite Nat.eqb_refl in E|by apply IH].
Qed.

Lemma image_path_in l m im : ok_with l m -> im ∈ pm_images m -> im_path im ∈ lp_path <$> l.
Proof. intros Hok Him. rewrite <- (ow_same l m Hok). by apply list_elem_of_fmap_2. Qed.

(** Opening a library that no plugin has open. *)
Lemma dlopen_new file path l m : ok_with l m -> (path ∉ lp_path <$> l) ->
  dlopen file path m = match file path with
    | Some lib => (set_images (pm_images m ++ [mkImage (pm_next_image m) path 1 lib]) (S (pm_next_image m)) m, Some (pm_next_image m))
    | None => (m, None)
    end.
Proof.
  intros Hok Hp. unfold dlopen. rewrite find_none; [done|]. intros im Him. apply bool_decide_eq_false. intros <-.
  by apply Hp, (image_path_in l m).
Qed.

(** The library [lib] was opened as the next image of [m]. *)
Abbreviation opened path lib m := (set_images (pm_images m ++ [mkImage (pm_next_image m) path 1 lib]) (S (pm_next_image m)) m).

Lemma opened_image path lib l m : ok_with l m -> image_of (pm_next_image m) (opened path lib m) = Some (mkImage (pm_next_image m) path 1 lib).
Proof.
  intros [_ _ _ _ _ Hnd Hn]. apply (image_of_in (mkImage (pm_next_image m) path 1 lib)); cbn.
  - rewrite fmap_app. apply NoDup_app. split_and!; [done| |by apply NoDup_singleton]. intros i Hi Hj%list_elem_of_singleton.
    apply list_elem_of_fmap in Hi as (im & -> & Him). rewrite Forall_forall in Hn. specialize (Hn im Him). cbn in *. lia.
  - apply elem_of_app. right. by left.
Qed.

Lemma opened_ok path lib l m p n : ok_with l m -> (path ∉ lp_path <$> l) ->
  lp_path p = path -> lp_handle p = Some (pm_next_image m) -> lp_cleanup p = (if lib_cleanup lib then Some (pm_next_image m) else None) ->
  (lp_addr p ∉ lp_addr <$> l) -> lp_addr p < n -> pm_next_addr m <= n ->
  ok_with (p :: l) (set_next_addr n (opened path lib m)).
Proof.
  intros [H1 H2 H3 H4 H5 H6 H7] Hni Hp Hh Hc Ha Hn Hle. split; cbn [set_next_addr set_images pm_images pm_next_image pm_next_addr].
  - rewrite fmap_cons. by apply NoDup_cons.
  - constructor; [done|]. eapply Forall_impl; [exact H2|]. intros q Hq. cbn in *. lia.
  - rewrite fmap_cons, Hp. by apply NoDup_cons.
  - intros q [->|Hq]%elem_of_cons.
    + exists (mkImage (pm_next_image m) path 1 lib). split; [apply elem_of_app; right; by left|]. by split_and!.
    + destruct (H4 q Hq) as (im & Him & Hi). exists im. split; [apply elem_of_app; by left|done].
  - rewrite fmap_app, H5. cbn. rewrite Hp. by rewrite Permutation_app_comm.
  - rewrite fmap_app. apply NoDup_app. split_and!; [done| |by apply NoDup_singleton]. intros i Hi Hj%list_elem_of_singleton.
    apply list_elem_of_fmap in Hi as (im & -> & Him). rewrite Forall_forall in H7. specialize (H7 im Him). cbn in *. lia.
  - apply Forall_app. split; [|by repeat constructor]. eapply Forall_impl; [exact H7|]. intros im Him. cbn in *. lia.
Qed.

Lemma close_others i (k : list (Image W D)) : (i ∉ im_id <$> k) -> omap (close_image i) k = k.
Proof.
  induction k as [|im k IH]; [done|]. rewrite fmap_cons. intros [Hn Hk]%not_elem_of_cons. cbn. unfold close_image at 1.
  rewrite (proj2 (Nat.eqb_neq _ _)) by done. cbn. by rewrite IH.
Qed.

(** Closing the library of a plugin. *)
Lemma close_ok p l m : ok_with (p :: l) m ->
  exists h, lp_handle p = Some h /\ mapped h m = true /\ ok_with l (dlclose h m) /\ mapped h (dlclose h m) = false.
Proof.
  intros [H1 H2 H3 H4 H5 H6 H7]. destruct (H4 p ltac:(by left)) as (im & Him & Hh & Hp & Hr & Hc). exists (im_id im).
  assert (mapped (im_id im) m = true) as Hm.
  { unfold mapped. rewrite (image_of_in im m H6 Him). by apply bool_decide_eq_true. }
  split_and!; [done|done| |]; clear Hm; apply list_elem_of_split in Him as (k1 & k2 & E); rewrite E in H4, H5, H6, H7;
    rewrite fmap_app, fmap_cons in H6; apply NoDup_app in H6 as (Hk1 & Hk12 & [Hk2 Hnd2]%NoDup_cons);
    assert (im_id im ∉ im_id <$> k1) as Hn1 by (intros Hin; apply (Hk12 _ Hin); by left);
    assert (pm_images (dlclose (im_id im) m) = k1 ++ k2) as Ei
      by (cbn [dlclose set_images pm_images]; rewrite E, omap_app, (close_others _ k1) by done; cbn;
          unfold close_image at 1; rewrite Nat.eqb_refl, Hr; cbn; by rewrite close_others).
  - rewrite fmap_cons in H1. rewrite fmap_cons in H3. apply NoDup_cons in H1 as [Ha H1], H3 as [Hpath H3]. apply Forall_cons in H2 as [_ H2].
    split; rewrite ?Ei; try done.
    + intros q Hq. destruct (H4 q ltac:(by right)) as (im' & Hin & Hi). exists im'. split; [|done].
      rewrite elem_of_app, elem_of_cons in Hin. rewrite elem_of_app. destruct Hin as [|[->|]]; [by left| |by right].
      exfalso. apply Hpath. destruct Hi as (_ & Hpi & _). rewrite <- Hp, Hpi. by apply list_elem_of_fmap_2.
    + rewrite fmap_app, fmap_cons, fmap_cons, <- Permutation_middle, Hp in H5. rewrite fmap_app. by apply Permutation_cons_inv in H5.
    + rewrite fmap_app. apply NoDup_app. split_and!; [done| |done]. intros i Hi1 Hi2. apply (Hk12 i Hi1). by right.
    + cbn. apply Forall_app in H7 as [? [_ ?]%Forall_cons]. by apply Forall_app.
  - unfold mapped, image_of. rewrite Ei, find_none; [by apply bool_decide_eq_false; intros []|].
    intros x [Hx|Hx]%elem_of_app; apply Nat.eqb_neq; intros Ex; [apply Hn1|apply Hk2]; rewrite <- Ex; by apply list_elem_of_fmap_2.
Qed.

Lemma unregister_same p m : same_plugins m (unregister_providers p m) /\ pm_commands (unregister_providers p m) = pm_commands m /\
  pm_tool_registry (unregister_providers p m) = pm_tool_registry m.
Proof.
  unfold unregister_providers. destruct (bool_decide _); [|by split]. destruct (pm_registry m) as [r|]; [|by split].
  destruct (llm_provider_registry_unregister_by_plugin _ _ _) as [[r' effects] n]. by split.
Qed.

Lemma cleanup_ok p l m : ok_with (p :: l) m ->
  exists m' h, plugin_manager_cleanup_plugin p m = Some m' /\ ok_with l m' /\ lp_handle p = Some h /\ mapped h m' = false /\
    pm_plugins m' = pm_plugins m /\ pm_plugin_count m' = pm_plugin_count m /\ pm_next_addr m <= pm_next_addr m' /\
    pm_commands m' = pm_commands m /\ pm_tool_registry m' = pm_tool_registry m.
Proof.
  intros Hok. destruct (unregister_same p m) as (Hs & Hcm & Ht). apply (ok_with_same _ _ _ Hs) in Hok.
  unfold plugin_manager_cleanup_plugin. set (m1 := unregister_providers p m) in *.
  assert (exists m2, call_cleanup (lp_cleanup p) m1 = Some m2 /\ same_plugins m1 m2 /\ pm_commands m2 = pm_commands m1 /\
            pm_tool_registry m2 = pm_tool_registry m1) as (m2 & -> & Hs2 & Hcm2 & Ht2).
  { destruct (close_ok _ _ _ Hok) as (h & Hh & Hm & _). destruct (ow_images _ _ Hok p ltac:(by left)) as (im & Him & Hh' & _ & _ & Hc).
    rewrite Hh in Hh'. injection Hh' as ->. unfold call_cleanup. rewrite Hc. destruct (lib_cleanup (im_lib im)).
    - rewrite Hm. by eexists.
    - by eexists. }
  apply (ok_with_same _ _ _ Hs2) in Hok. destruct (close_ok _ _ _ Hok) as (h & Hh & _ & Hl & Hu). cbn [mbind option_bind].
  exists (dlclose h m2), h. rewrite Hh. cbn [dlclose_handle]. destruct Hs as [Hp1 Hn1 _ _ Ha1], Hs2 as [Hp2 Hn2 _ _ Ha2].
  split_and!; [done|done|done|done| | | | |]; cbn [dlclose set_images pm_plugins pm_plugin_count pm_next_addr pm_commands pm_tool_registry]; try congruence. lia.
Qed.

Lemma remove_addr_at p l1 l2 : NoDup (lp_addr <$> l1 ++ p :: l2) -> remove_addr (lp_addr p) (l1 ++ p :: l2) = l1 ++ l2.
Proof.
  induction l1 as [|q l1 IH]; cbn; [by rewrite Nat.eqb_refl|]. intros [Hq Hnd]%NoDup_cons.
  destruct (Nat.eqb (lp_addr q) (lp_addr p)) eqn:E; [|by rewrite IH].
  apply Nat.eqb_eq in E. exfalso. apply Hq. rewrite E. apply list_elem_of_fmap_2, elem_of_app. right. by left.
Qed.

Lemma ok_front l1 p l2 m : ok_with (l1 ++ p :: l2) m -> ok_with (p :: l1 ++ l2) m.
Proof. apply ok_with_perm. by rewrite Permutation_middle. Qed.
Lemma ok_back l1 p l2 m : ok_with (p :: l1 ++ l2) m -> ok_with (l1 ++ p :: l2) m.
Proof. apply ok_with_perm. by rewrite Permutation_middle. Qed.

Lemma unload_ok p m : manager_ok m -> p ∈ pm_plugins m ->
  exists m' h, plugin_manager_unload_plugin p m = Some m' /\ manager_ok m' /\ lp_handle p = Some h /\ mapped h m' = false /\
    (lp_addr p ∉ lp_addr <$> pm_plugins m') /\ pm_commands m' = pm_commands m /\ pm_tool_registry m' = pm_tool_registry m.
Proof.
  intros [Hok Hc] Hp. pose proof (ow_addrs _ _ Hok) as Hnd. apply list_elem_of_split in Hp as (l1 & l2 & E). rewrite E in Hok, Hnd. apply ok_front in Hok.
  destruct (cleanup_ok _ _ _ Hok) as (m1 & h & Hcl & Hl & Hh & Hu & Hpl & Hn & _ & Hcm & Ht).
  unfold plugin_manager_unload_plugin. rewrite Hcl. cbn [mbind option_bind]. rewrite Hpl, Hn, E, remove_addr_at by done.
  eexists _, h. split_and!; [done| |done|done| |done|done].
  - split; [by apply (ok_with_frame _ m1)|]. cbn [set_list pm_plugins pm_plugin_count]. rewrite Hc, E, !length_app. cbn [length].
    rewrite Zminus_mod_idemp_l. f_equal. lia.
  - cbn [set_list pm_plugins]. rewrite fmap_app, fmap_cons in Hnd. apply NoDup_app in Hnd as (_ & H1 & [H2 _]%NoDup_cons).
    rewrite fmap_app. intros [H|H]%elem_of_app; [apply (H1 _ H); by left|done].
Qed.

(** What [load_plugin_from_file] leaves: the plugins as they were, and, when
    it gives a plugin, its library open. *)
Lemma load_from_file_ok file path l m : ok_with l m -> (path ∉ lp_path <$> l) ->
  match load_plugin_from_file file path m with
  | (m1, r) => pm_plugins m1 = pm_plugins m /\ pm_plugin_count m1 = pm_plugin_count m /\
      match r with None => ok_with l m1 | Some (p, _, _) => ok_with (p :: l) m1 end
  end.
Proof.
  intros Hok Hp. unfold load_plugin_from_file. rewrite (dlopen_new _ _ l) by done. destruct (file path) as [lib|]; [|done].
  rewrite (opened_image path lib l) by done. cbn [mbind option_bind im_lib fmap option_fmap option_map default].
  assert (Hclose : ok_with l (dlclose (pm_next_image m) (opened path lib m))).
  { apply (ok_with_frame _ m); [|cbn; lia|cbn; lia|done]. cbn [dlclose set_images pm_images]. rewrite omap_app.
    cbn. unfold close_image at 2. cbn [im_id im_refs]. rewrite Nat.eqb_refl, app_nil_r. apply close_others. intros Hin.
    apply list_elem_of_fmap in Hin as (im & Hi & Him). pose proof (ow_next _ _ Hok) as Hn. rewrite Forall_forall in Hn. specialize (Hn im Him). cbn in Hn. lia. }
  destruct (lib_get_info lib) as [[info|]|]; [|done..]. split_and!; [done|done|].
  apply (opened_ok path lib l m); cbn [lp_path lp_handle lp_cleanup lp_addr set_images pm_next_addr]; try done; [|lia|lia].
  intros Hin. apply list_elem_of_fmap in Hin as (q & Hq & Hql). pose proof (ow_fresh _ _ Hok) as Hn. rewrite Forall_forall in Hn. specialize (Hn q Hql). cbn in Hn. lia.
Qed.

Lemma load_init_ok p init l m : ok_with (p :: l) m ->
  match load_init p init m with
  | (m1, code) => pm_plugins m1 = pm_plugins m /\ pm_plugin_count m1 = pm_plugin_count m /\
      ok_with (if (code =? 0)%Z then p :: l else l) m1
  end.
Proof.
  intros Hok. unfold load_init. destruct init as [prog|]; [|done]. destruct (close_ok _ _ _ Hok) as (h & Hh & _). rewrite Hh.
  pose proof (run_init_same prog (lp_addr p) h m) as Hs. destruct (run_init prog (lp_addr p) h m) as [m1 code]. cbn [fst] in Hs.
  apply (ok_with_same _ _ _ Hs) in Hok. destruct Hs as [Hpl Hn _ _ _]. destruct (code =? 0)%Z; [done|].
  destruct (close_ok _ _ _ Hok) as (h' & Hh' & _ & Hl & _). rewrite Hh in Hh'. by injection Hh' as <-.
Qed.

Lemma load_plugin_ok file path m : manager_ok m -> manager_ok (fst (plugin_manager_load_plugin file path m)).
Proof.
  intros [Hok Hc]. unfold plugin_manager_load_plugin, load_begin. destruct (is_Some_dec (find_plugin_at path m)) as [|Hf]; [done|].
  assert (path ∉ lp_path <$> pm_plugins m) as Hp.
  { intros Hin. apply list_elem_of_fmap in Hin as (p & -> & Hpl). apply Hf. unfold find_plugin_at.
    destruct (List.find _ _) as [q|] eqn:E; [by eexists|]. exfalso. apply list_elem_of_In in Hpl.
    apply (List.find_none _ _ E) in Hpl. by apply bool_decide_eq_false in Hpl. }
  pose proof (load_from_file_ok file path _ m Hok Hp) as Hl. destruct (load_plugin_from_file file path m) as [m1 [[[p init] info]|]].
  - destruct Hl as (Hpl & Hn & Hl). pose proof (load_init_ok p init _ _ Hl) as Hi. destruct (load_init p init m1) as [m2 code].
    destruct Hi as (Hpl2 & Hn2 & Hi). destruct (code =? 0)%Z; cbn [fst].
    + unfold load_add. cbn [set_list pm_config]. split; destruct (pm_config m2) as [c|]; cbn [set_config set_list pm_plugins pm_plugin_count];
        rewrite ?Hpl2, ?Hpl, ?Hn2, ?Hn, ?Hc; try (by apply (ok_with_frame _ m2)); cbn [length]; rewrite Zplus_mod_idemp_l; f_equal; lia.
    + split; rewrite ?Hpl2, ?Hpl, ?Hn2, ?Hn; done.
  - destruct Hl as (Hpl & Hn & Hl). split; cbn [fst]; rewrite ?Hpl, ?Hn; done.
Qed.

Lemma replace_others a q (l : list LoadedPlugin) : (a ∉ lp_addr <$> l) -> (fun p => if Nat.eqb (lp_addr p) a then q else p) <$> l = l.
Proof.
  induction l as [|p l IH]; [done|]. rewrite fmap_cons. intros [Hn Hl]%not_elem_of_cons. rewrite fmap_cons, IH by done.
  by rewrite (proj2 (Nat.eqb_neq _ _)).
Qed.

Lemma replace_at q p l1 l2 m : pm_plugins m = l1 ++ p :: l2 -> NoDup (lp_addr <$> l1 ++ p :: l2) -> lp_addr q = lp_addr p ->
  pm_plugins (replace_plugin q m) = l1 ++ q :: l2.
Proof.
  intros E Hnd Hq. cbn [replace_plugin set_list pm_plugins]. rewrite E, fmap_app, fmap_cons, Hq, Nat.eqb_refl.
  rewrite fmap_app, fmap_cons in Hnd. apply NoDup_app in Hnd as (_ & H1 & [H2 _]%NoDup_cons).
  rewrite !replace_others; [done|done|]. intros H. apply (H1 _ H). by left.
Qed.

(** A reload is defined; unless it fails, every plugin has its library. *)
Lemma reload_ok file id m : manager_ok m ->
  exists m' code, plugin_manager_reload_plugin file id m = Some (m', code) /\
    (code = 0%Z \/ plugin_manager_get_loaded_plugin m id = None -> manager_ok m').
Proof.
  intros Hm. unfold plugin_manager_reload_plugin. destruct (plugin_manager_get_loaded_plugin m id) as [p|] eqn:Ef; [|by eexists _, _].
  apply List.find_some in Ef as [Hp _]. apply list_elem_of_In, list_elem_of_split in Hp as (l1 & l2 & E).
  destruct Hm as [Hok Hc]. rewrite E in Hok. pose proof (ow_addrs _ _ Hok) as Hnd. apply ok_front in Hok.
  pose proof (ow_addrs _ _ Hok) as Hnd'. rewrite fmap_cons in Hnd'. apply NoDup_cons in Hnd' as [Hna _].
  pose proof (ow_paths _ _ Hok) as Hpd. rewrite fmap_cons in Hpd. apply NoDup_cons in Hpd as [Hnp _].
  pose proof (ow_fresh _ _ Hok) as Hfr. apply Forall_cons in Hfr as [Hfr _].
  destruct (cleanup_ok _ _ _ Hok) as (m1 & h & Hcl & Hl & Hh & Hu & Hpl & Hn & Ha & _ & _). rewrite Hcl. cbn [mbind option_bind].
  rewrite (dlopen_new _ _ _ _ Hl Hnp). destruct (file (lp_path p)) as [lib|].
  2: { eexists _, _. split; [done|]. by intros [|]. }
  rewrite (opened_image _ lib _ _ Hl). cbn [im_lib fmap option_fmap option_map default mbind option_bind].
  unfold Datatypes.id. set (q := set_code (Some (pm_next_image m1)) (if lib_cleanup lib then Some (pm_next_image m1) else None) p).
  set (m3 := replace_plugin q (opened (lp_path p) lib m1)).
  assert (Hpl3 : pm_plugins m3 = l1 ++ q :: l2) by (apply (replace_at q p l1 l2); [by rewrite <- E|done|done]).
  assert (H3 : manager_ok m3).
  { split.
    - rewrite Hpl3. apply ok_back. apply (ok_with_frame _ (set_next_addr (pm_next_addr m1) (opened (lp_path p) lib m1))); try done.
      apply (opened_ok _ lib (l1 ++ l2) m1); try done; cbn; lia.
    - rewrite Hpl3. cbn [m3 replace_plugin set_list pm_plugin_count set_images]. rewrite Hn, Hc, E, !length_app. done. }
  destruct (lib_init lib) as [prog|]; [|by eexists _, _].
  pose proof (run_init_same prog (lp_addr p) (pm_next_image m1) m3) as Hs. destruct (run_init prog (lp_addr p) (pm_next_image m1) m3) as [m4 code].
  cbn [fst] in Hs. destruct (code =? 0)%Z eqn:Ecode; eexists _, _; (split; [done|]); [|by intros [|]].
  intros _. destruct H3 as [H3 Hc3]. split; [|by rewrite (sp_count _ _ Hs), (sp_plugins _ _ Hs)].
  rewrite (sp_plugins _ _ Hs). by apply (ok_with_same _ m3).
Qed.

Lemma free_plugins_ok l : forall m, ok_with l m -> exists m', free_plugins l m = Some m' /\ pm_images m' = [].
Proof.
  induction l as [|p l IH]; intros m Hok.
  - exists m. split; [done|]. pose proof (ow_same _ _ Hok) as Hs. cbn in Hs. apply Permutation_nil_r in Hs. by apply fmap_nil_inv in Hs.
  - apply (ok_with_frame _ _ (set_list l (pm_plugin_count m) m)) in Hok; [|done|cbn; lia..]. cbn [free_plugins].
    destruct (cleanup_ok _ _ _ Hok) as (m1 & h & -> & Hl & _). cbn [mbind option_bind]. by apply IH.
Qed.

(** ** The operations of the program *)

Inductive manager_step : Manager -> Manager -> Prop :=
  | step_load file path m : manager_step m (fst (plugin_manager_load_plugin file path m))
  | step_unload id p m m' : plugin_manager_get_loaded_plugin m id = Some p -> plugin_manager_unload_plugin p m = Some m' -> manager_step m m'
  | step_reload file id m m' : plugin_manager_reload_plugin file id m = Some (m', 0%Z) -> manager_step m m'
  | step_register c m : manager_step m (fst (register c None None m)).

Lemma loaded_in m id p : plugin_manager_get_loaded_plugin m id = Some p -> p ∈ pm_plugins m.
Proof. intros H. apply List.find_some in H as [H _]. by apply list_elem_of_In. Qed.

Lemma manager_step_ok m m' : manager_ok m -> manager_step m m' -> manager_ok m'.
Proof.
  intros Hok Hs. revert Hok. destruct Hs as [file path m0|id p m0 m1 Hp Hu|file id m0 m1 Hr|c m0]; intros Hok.
  - by apply load_plugin_ok.
  - destruct (unload_ok p m0 Hok (loaded_in _ _ _ Hp)) as (m2 & h & E & H2 & _). rewrite Hu in E. by injection E as ->.
  - destruct (reload_ok file id m0 Hok) as (m2 & code & E & H2). rewrite Hr in E. injection E as <- <-. apply H2. by left.
  - pose proof (register_same c None None m0) as Hs. destruct Hok as [Hok Hc]. split.
    + rewrite (sp_plugins _ _ Hs). by apply (ok_with_same _ m0).
    + by rewrite (sp_count _ _ Hs), (sp_plugins _ _ Hs).
Qed.

Lemma new_ok base_dir config bus tools channels registry next_addr :
  manager_ok (plugin_manager_new base_dir config bus tools channels registry next_addr).
Proof. split; [|done]. split; cbn; try constructor; try done. by intros p ?%elem_of_nil. Qed.
End Alloc.
End Manager.

Section Unmapped.
Context {W D : Type} (realloc_ok : Z -> bool).

Lemma mapped_same i (m m' : Manager W D) : pm_images m' = pm_images m -> mapped i m' = mapped i m.
Proof. unfold mapped, image_of. by intros ->. Qed.

Lemma find_some_in {A} (f : A -> bool) l x : x ∈ l -> f x = true -> is_Some (List.find f l).
Proof.
  intros Hx Hf. destruct (List.find f l) eqn:E; [by eexists|]. apply list_elem_of_In in Hx. by rewrite (List.find_none _ _ E x Hx) in Hf.
Qed.

Lemma unmapped_close i j (m : Manager W D) : mapped i m = false -> mapped i (dlclose j m) = false.
Proof.
  intros H. apply bool_decide_eq_false. intros [im Him]. apply bool_decide_eq_false in H. apply H. apply List.find_some in Him as [Hin Hi].
  apply list_elem_of_In in Hin. cbn [dlclose set_images pm_images] in Hin. apply list_elem_of_omap in Hin as (x & Hx & Hc).
  apply (find_some_in _ _ x); [done|]. unfold close_image in Hc. destruct (Nat.eqb (im_id x) j); [|by injection Hc as ->].
  destruct (im_refs x) as [|[|n]]; [done..|]. by injection Hc as <-.
Qed.

Lemma unmapped_cleanup i p (m m' : Manager W D) : mapped i m = false -> plugin_manager_cleanup_plugin realloc_ok p m = Some m' -> mapped i m' = false.
Proof.
  unfold plugin_manager_cleanup_plugin. intros H. destruct (unregister_same realloc_ok p m) as (Hs & _).
  rewrite <- (mapped_same i m (unregister_providers realloc_ok p m)) in H by apply Hs. clear Hs. set (m1 := unregister_providers realloc_ok p m) in *.
  assert (forall m2, call_cleanup (lp_cleanup p) m1 = Some m2 -> mapped i m2 = false) as Hc.
  { intros m2. unfold call_cleanup. destruct (lp_cleanup p) as [k|]; [|by intros [= <-]]. destruct (mapped k m1); [|done]. by intros [= <-]. }
  destruct (call_cleanup (lp_cleanup p) m1) as [m2|]; [|done]. cbn [mbind option_bind]. intros [= <-].
  destruct (lp_handle p) as [k|]; cbn [dlclose_handle]; [apply unmapped_close|]; by apply Hc.
Qed.

(** Cleaning up through a pointer to code that is gone. *)
Lemma free_plugins_undefined i p l : forall m : Manager W D, p ∈ l -> lp_cleanup p = Some i -> mapped i m = false -> free_plugins realloc_ok l m = None.
Proof.
  induction l as [|q l IH]; intros m Hp Hc Hm; [by apply not_elem_of_nil in Hp|]. cbn [free_plugins].
  set (m1 := set_list l (pm_plugin_count m) m).
  destruct (plugin_manager_cleanup_plugin realloc_ok q m1) as [m2|] eqn:E; [|done]. cbn [mbind option_bind].
  apply elem_of_cons in Hp as [<-|Hp]; [|by apply (IH m2 Hp Hc), (unmapped_cleanup i q m1)].
  exfalso. unfold plugin_manager_cleanup_plugin in E. destruct (unregister_same realloc_ok p m1) as (Hs & _).
  unfold call_cleanup in E. rewrite Hc, (mapped_same i m1) in E by apply Hs. change (mapped i m1) with (mapped i m) in E. by rewrite Hm in E.
Qed.
End Unmapped.

(** C33: In every state that loading, disabling, registering and successful
    reloading lead to, each loaded plugin has its own library, open once,
    with its code in memory, and the counter is the number of plugins; so
    disabling, reloading and the final release are defined, and the release
    closes every library. *)
Theorem plugin_manager_invariant {W D} realloc_ok base_dir config bus (tools : option (ToolRegistry W D)) channels registry next_addr m :
  rtc (manager_step realloc_ok) (plugin_manager_new base_dir config bus tools channels registry next_addr) m ->
  manager_ok m /\
  (forall id p, plugin_manager_get_loaded_plugin m id = Some p -> is_Some (plugin_manager_unload_plugin realloc_ok p m)) /\
  (forall file id, is_Some (plugin_manager_reload_plugin realloc_ok file id m)) /\
  exists m', plugin_manager_free realloc_ok m = Some m' /\ pm_images m' = [].
Proof.
  intros H. apply (rtc_invariant (manager_step realloc_ok) manager_ok _ _ (manager_step_ok realloc_ok)) in H; [|apply new_ok].
  split_and!; [done| | |by apply free_plugins_ok, mk_plugins].
  - intros id p Hp. destruct (unload_ok realloc_ok p m H (loaded_in _ _ _ Hp)) as (m' & h & E & _). by eexists.
  - intros file id. destruct (reload_ok realloc_ok file id m H) as (m' & code & E & _). by eexists.
Qed.

(** Disabling a plugin leaves its tools and commands registered: every
    command whose handler is in its library is still in the table although
    its code is unmapped, and its tools still refer to a plugin that is gone. *)
Theorem unloaded_registrations_dangle {W D} realloc_ok (m : Manager W D) id p : manager_ok m -> plugin_manager_get_loaded_plugin m id = Some p ->
  exists m' h, plugin_manager_unload_plugin realloc_ok p m = Some m' /\ lp_handle p = Some h /\
    (forall c, c ∈ plugin_manager_get_commands m -> cr_image c = Some h -> c ∈ plugin_manager_get_commands m' /\ mapped h m = true /\ mapped h m' = false) /\
    (forall reg t, pm_tool_registry m = Some reg -> t ∈ reg_tools reg -> t_plugin_ref t = Some (lp_addr p) ->
       (exists reg', pm_tool_registry m' = Some reg' /\ t ∈ reg_tools reg') /\ (lp_addr p ∉ lp_addr <$> pm_plugins m')).
Proof.
  intros Hm Hp. pose proof (loaded_in _ _ _ Hp) as Hin. destruct (unload_ok realloc_ok p m Hm Hin) as (m' & h & E & _ & Hh & Hu & Ha & Hc & Ht).
  exists m', h. split_and!; [done|done| |].
  - intros c Hcm _. unfold plugin_manager_get_commands in *. rewrite Hc. split_and!; [done| |done].
    apply list_elem_of_split in Hin as (l1 & l2 & El). destruct Hm as [Hok _]. rewrite El in Hok. apply ok_front in Hok.
    destruct (close_ok _ _ _ Hok) as (h' & Hh' & Hm' & _). rewrite Hh in Hh'. by injection Hh' as <-.
  - intros reg t Hr Htin Href. split; [|done]. exists reg. by rewrite Ht.
Qed.

(** When the file of a plugin with a cleanup function cannot be opened
    again, [plugin_manager_reload_plugin] reports the failure but keeps the
    plugin with a pointer into the closed library, which the next reload and
    the final release call. *)
Theorem failed_reload_undefined {W D} realloc_ok (m : Manager W D) file id p : manager_ok m ->
  plugin_manager_get_loaded_plugin m id = Some p -> is_Some (lp_cleanup p) -> file (lp_path p) = None ->
  exists m', plugin_manager_reload_plugin realloc_ok file id m = Some (m', (-1)%Z) /\ plugin_manager_free realloc_ok m' = None.
Proof.
  intros Hm Hf [i Hi] Hfile. unfold plugin_manager_reload_plugin. rewrite Hf. pose proof (loaded_in _ _ _ Hf) as Hp.
  apply list_elem_of_split in Hp as (l1 & l2 & E). destruct Hm as [Hok _]. rewrite E in Hok. pose proof (ow_addrs _ _ Hok) as Hnd. apply ok_front in Hok.
  pose proof (ow_paths _ _ Hok) as Hpd. rewrite fmap_cons in Hpd. apply NoDup_cons in Hpd as [Hnp _].
  destruct (ow_images _ _ Hok p ltac:(by left)) as (im & _ & Hh0 & _ & _ & Hc).
  destruct (cleanup_ok realloc_ok _ _ _ Hok) as (m1 & h & Hcl & Hl & Hh & Hu & Hpl & _). rewrite Hcl. cbn [mbind option_bind].
  rewrite (dlopen_new _ _ _ _ Hl Hnp), Hfile. eexists. split; [done|].
  assert (i = h) as ->. { rewrite Hh in Hh0. injection Hh0 as ->. rewrite Hi in Hc. destruct (lib_cleanup _); [by injection Hc|done]. }
  unfold plugin_manager_free. rewrite (replace_at (set_code None (lp_cleanup p) p) p l1 l2) by (by rewrite ?Hpl).
  apply (free_plugins_undefined realloc_ok h (set_code None (lp_cleanup p) p)); [apply elem_of_app; right; by left|done|done].
Qed.

(** ** Inputs on which the theorems apply *)

Definition demo_init : InitProg unit unit :=
  InitCall (RegCommand $"greet" $"Say hello" 7) (fun r => InitCall (RegTool (Some $"hello") None None (fun _ _ w => (err_ok, [], w)) None false) (fun _ => InitReturn r)).
Definition demo_library : Library unit unit := mkLibrary (Some (Some (mkInfo PLUGIN_COMMAND (Some $"Greeter") (Some $"greeter") None))) (Some demo_init) true.
Definition demo_files : cstr -> option (Library unit unit) := fun path => if str_eq path $"/p/greeter.so" then Some demo_library else None.
Definition demo_start : Manager unit unit :=
  plugin_manager_new $"/w" (Some (config_create alloc)) true (Some (mkRegistry [] 8)) (Some []) (Some llm_provider_registry_new) 0.
Definition demo_loaded : Manager unit unit := fst (plugin_manager_load_plugin (fun _ => true) demo_files $"/p/greeter.so" demo_start).

Lemma plugin_manager_invariant_witness : manager_ok demo_loaded /\
  (forall id p, plugin_manager_get_loaded_plugin demo_loaded id = Some p -> is_Some (plugin_manager_unload_plugin (fun _ => true) p demo_loaded)) /\
  (forall file id, is_Some (plugin_manager_reload_plugin (fun _ => true) file id demo_loaded)) /\
  exists m', plugin_manager_free (fun _ => true) demo_loaded = Some m' /\ pm_images m' = [].
Proof.
  apply (plugin_manager_invariant (fun _ => true) $"/w" (Some (config_create alloc)) true (Some (mkRegistry [] 8)) (Some []) (Some llm_provider_registry_new) 0).
  exact (rtc_once _ _ (step_load (fun _ => true) demo_files $"/p/greeter.so" demo_start)).
Defined.

Lemma demo_loaded_ok : manager_ok demo_loaded.
Proof. apply load_plugin_ok, new_ok. Qed.

Definition demo_plugin : LoadedPlugin := mkPlugin 0 $"greeter" $"Greeter" $"/p/greeter.so" PLUGIN_COMMAND (Some 0) (Some 0).

Lemma unloaded_registrations_dangle_witness : exists m' h,
  plugin_manager_unload_plugin (fun _ => true) demo_plugin demo_loaded = Some m' /\ lp_handle demo_plugin = Some h /\
  (forall c, c ∈ plugin_manager_get_commands demo_loaded -> cr_image c = Some h -> c ∈ plugin_manager_get_commands m' /\ mapped h demo_loaded = true /\ mapped h m' = false) /\
  (forall reg t, pm_tool_registry demo_loaded = Some reg -> t ∈ reg_tools reg -> t_plugin_ref t = Some (lp_addr demo_plugin) ->
     (exists reg', pm_tool_registry m' = Some reg' /\ t ∈ reg_tools reg') /\ (lp_addr demo_plugin ∉ lp_addr <$> pm_plugins m')).
Proof. apply (unloaded_registrations_dangle (fun _ => true) demo_loaded $"greeter" demo_plugin demo_loaded_ok). by vm_compute. Defined.

Lemma failed_reload_undefined_witness : exists m', plugin_manager_reload_plugin (fun _ => true) (fun _ => None) $"greeter" demo_loaded = Some (m', (-1)%Z) /\
  plugin_manager_free (fun _ => true) m' = None.
Proof. apply (failed_reload_undefined (fun _ => true) demo_loaded (fun _ => None) $"greeter" demo_plugin demo_loaded_ok); [by vm_compute|by eexists|done]. Defined.

(** The command of the example is in the table, in the library that goes. *)
Example demo_command : (cr_image <$> plugin_manager_get_commands demo_loaded) = [Some 0].
Proof. vm_compute. reflexivity. Qed.

(** A plugin whose initialisation fails is not loaded, but what it registered
    before stays, with its code gone. *)
Definition failing_library : Library unit unit :=
  mkLibrary (Some (Some (mkInfo PLUGIN_COMMAND None None None))) (Some (InitCall (RegCommand $"x" $"y" 1) (fun _ => InitReturn 1))) false.
Lemma failed_init_keeps_command :
  match plugin_manager_load_plugin (fun _ => true) (fun _ => Some failing_library) $"/p/x.so" demo_start with
  | (m, code) => code = (-1)%Z /\ pm_plugins m = [] /\ (cr_image <$> pm_commands m) = [Some 0] /\ mapped 0 m = false
  end.
Proof. vm_compute. done. Qed.

(** Two threads that load the same file both find it absent, since the
    initialisation runs without the lock: it is then in the list twice. *)
Definition load_end (r : option (Manager unit unit * option (LoadedPlugin * option (InitProg unit unit) * PluginInfo))) (m : Manager unit unit) : Manager unit unit :=
  match r with
  | Some (_, Some (p, init, info)) => load_add (fun _ => true) p info (fst (load_init (fun _ => true) p init m))
  | _ => m
  end.
Lemma concurrent_loads_duplicate :
  match load_begin demo_files $"/p/greeter.so" demo_start with
  | Some (m1, r1) =>
      match load_begin demo_files $"/p/greeter.so" m1 with
      | Some (m2, r2) => lp_path <$> pm_plugins (load_end (Some (m2, r2)) (load_end (Some (m1, r1)) m2))
      | None => []
      end
  | None => []
  end = [$"/p/greeter.so"; $"/p/greeter.so"].
Proof. vm_compute. reflexivity. Qed.
