(* ===== verification/BuiltinTools.v ===== *)
(** [src/tools/builtin_tools_def.h] and the registration of
    [src/agent/agent_loop.c] and [src/subagent/subagent.c]: the tables of the
    built-in tools, with the texts the model is given, and the registries made
    from them for the agent and for the subagents.

    In the texts a backquote stands for a double quote. *)
From S2P Require Import Prelude CStr Json JsonTree Common Message ToolRegistry ToolContext Tools Provider PluginManager.

(** A text of the tables: every backquote is a double quote. *)
Definition dq (s : cstr) : cstr := (fun c => if Ascii.eqb c "`"%char then ch_quote else c) <$> s.

Section BuiltinTools.
Context (services : nat -> Services) (sys : ToolSys).

Record BuiltinToolDef := mkBuiltin {
  bt_name : cstr;
  bt_desc : cstr;
  bt_params : cstr;
  bt_exec : tool_fn ToolWorld ToolContext;
}.

Definition BUILTIN_TOOLS_FULL : list BuiltinToolDef := [
  mkBuiltin $"read_file"
    (dq $"Read file content")
    (dq $"{`type`:`object`,`properties`:{`path`:{`type`:`string`}},`required`:[`path`]}")
    (tool_read_file services sys);
  mkBuiltin $"write_file"
    (dq $"Write file content")
    (dq $"{`type`:`object`,`properties`:{`path`:{`type`:`string`},`content`:{`type`:`string`}},`required`:[`path`,`content`]}")
    (tool_write_file services sys);
  mkBuiltin $"edit_file"
    (dq $"Edit file content")
    (dq $"{`type`:`object`,`properties`:{`path`:{`type`:`string`},`old_str`:{`type`:`string`},`new_str`:{`type`:`string`}},`required`:[`path`,`old_str`,`new_str`]}")
    (tool_edit_file services sys);
  mkBuiltin $"list_dir"
    (dq $"List directory contents")
    (dq $"{`type`:`object`,`properties`:{`path`:{`type`:`string`}},`required`:[`path`]}")
    (tool_list_dir services sys);
  mkBuiltin $"exec"
    (dq $"Execute shell command")
    (dq $"{`type`:`object`,`properties`:{`command`:{`type`:`string`}},`required`:[`command`]}")
    (tool_exec services sys);
  mkBuiltin $"send_message"
    (dq $"Send message to user. Optional attachments support image/audio/video uploads.")
    (dq $"{`type`:`object`,`properties`:{`content`:{`type`:`string`},`attachments`:{`type`:`array`,`items`:{`oneOf`:[{`type`:`string`},{`type`:`object`,`properties`:{`type`:{`type`:`string`,`enum`:[`image`,`audio`,`video`]},`path`:{`type`:`string`},`duration`:{`type`:`integer`,`minimum`:1},`cover_path`:{`type`:`string`}},`required`:[`type`,`path`]}]}}},`required`:[`content`]}")
    (tool_send_message services sys);
  mkBuiltin $"spawn_subagent"
    (dq $"Spawn subagent")
    (dq $"{`type`:`object`,`properties`:{`task`:{`type`:`string`},`label`:{`type`:`string`}},`required`:[`task`]}")
    (tool_spawn services sys);
  mkBuiltin $"cron"
    (dq $"Schedule a reminder or recurring task. When triggered, the payload is sent as a user message to the AI, which then generates and sends the response. The payload should be a clear instruction describing what the AI should do when triggered, NOT the final content itself. Formats: '@in N' (N seconds later, one-time), '@every N' (recurring), '@at TIMESTAMP', or 'M H * * *' (daily cron). Example: name='drink-water', payload='Remind the user to drink water', schedule='@in 1800'. Example: name='daily-news', payload='Search for today\'s top tech news and format as a daily digest', schedule='0 8 * * *'.")
    (dq $"{`type`:`object`,`properties`:{`name`:{`type`:`string`,`description`:`Unique job identifier, e.g., 'drink-water', 'daily-news'`},`payload`:{`type`:`string`,`description`:`Instruction for the AI to execute when triggered. Should describe WHAT the AI should do, not the final message content. e.g., 'Search today\'s tech news and summarize' NOT 'Here is the news: ...'`},`schedule`:{`type`:`string`,`description`:`When to trigger: '@in N' (N seconds), '@every N', '@at UNIX_TIMESTAMP', or 'M H * * *'`},`channel`:{`type`:`string`},`chat_id`:{`type`:`string`}},`required`:[`name`,`payload`,`schedule`]}")
    (tool_cron services sys);
  mkBuiltin $"skill"
    (dq $"Manage skills")
    (dq $"{`type`:`object`,`properties`:{`action`:{`type`:`string`,`enum`:[`list`,`load`,`unload`]},`name`:{`type`:`string`}},`required`:[`action`]}")
    (tool_skill services sys);
  mkBuiltin $"memory"
    (dq $"Manage long-term memory. Use this to consolidate conversation history into persistent memory. IMPORTANT: memory_update is a COMPLETE REPLACEMENT of the entire memory file. You MUST include ALL existing facts plus any new ones, or existing information will be permanently lost. If you only want to add new facts without changing existing ones, use the content parameter instead.")
    (dq $"{`type`:`object`,`properties`:{`history_entry`:{`type`:`string`,`description`:`A paragraph summarizing key events/decisions. Start with [YYYY-MM-DD HH:MM].`},`memory_update`:{`type`:`string`,`description`:`COMPLETE REPLACEMENT of the memory file. MUST include ALL existing facts plus any new/updated ones. Missing existing facts will be permanently lost. Copy all existing content first, then modify.`},`content`:{`type`:`string`,`description`:`A single fact to add (safe, won't lose existing data). Use this instead of memory_update when you only need to add new info.`}},`required`:[`history_entry`]}")
    (tool_memory services)
].

Definition BUILTIN_TOOLS_SUBAGENT : list BuiltinToolDef := [
  mkBuiltin $"read_file"
    (dq $"Read file content")
    (dq $"{`type`:`object`,`properties`:{`path`:{`type`:`string`}},`required`:[`path`]}")
    (tool_read_file services sys);
  mkBuiltin $"write_file"
    (dq $"Write file content")
    (dq $"{`type`:`object`,`properties`:{`path`:{`type`:`string`},`content`:{`type`:`string`}},`required`:[`path`,`content`]}")
    (tool_write_file services sys);
  mkBuiltin $"edit_file"
    (dq $"Edit file content")
    (dq $"{`type`:`object`,`properties`:{`path`:{`type`:`string`},`old_str`:{`type`:`string`},`new_str`:{`type`:`string`}},`required`:[`path`,`old_str`,`new_str`]}")
    (tool_edit_file services sys);
  mkBuiltin $"list_dir"
    (dq $"List directory contents")
    (dq $"{`type`:`object`,`properties`:{`path`:{`type`:`string`}},`required`:[`path`]}")
    (tool_list_dir services sys);
  mkBuiltin $"exec"
    (dq $"Execute shell command")
    (dq $"{`type`:`object`,`properties`:{`command`:{`type`:`string`}},`required`:[`command`]}")
    (tool_exec services sys);
  mkBuiltin $"send_message"
    (dq $"Send message to user. Optional attachments support image/audio/video uploads.")
    (dq $"{`type`:`object`,`properties`:{`content`:{`type`:`string`},`attachments`:{`type`:`array`,`items`:{`oneOf`:[{`type`:`string`},{`type`:`object`,`properties`:{`type`:{`type`:`string`,`enum`:[`image`,`audio`,`video`]},`path`:{`type`:`string`},`duration`:{`type`:`integer`,`minimum`:1},`cover_path`:{`type`:`string`}},`required`:[`type`,`path`]}]}}},`required`:[`content`]}")
    (tool_send_message services sys)
].

(** ** Registration *)

Section Registration.
(** [alloc_ok]: the context of the i-th tool could be allocated;
    [realloc_ok]: the table could grow. *)
Context (alloc_ok : nat -> bool) (realloc_ok : Z -> bool).

(** [agent_loop_register_builtin_tools]: each tool gets a copy of the context. *)
Fixpoint register_tools (i : nat) (defs : list BuiltinToolDef) (ctx : ToolContext) (m : Manager ToolWorld ToolContext) :
    Manager ToolWorld ToolContext :=
  match defs with
  | [] => m
  | d :: r =>
      let m' := if alloc_ok i then
                  fst (plugin_register_tool_with_destroy realloc_ok m None (Some (bt_name d)) (Some (bt_desc d)) (Some (bt_params d)) (bt_exec d) (Some ctx) true)
                else m in
      register_tools (S i) r ctx m'
  end.

Definition agent_loop_register_builtin_tools (manager : option (Manager ToolWorld ToolContext)) (ctx : option ToolContext) :
    option (Manager ToolWorld ToolContext) :=
  match manager, ctx with
  | Some m, Some c => Some (register_tools 0 BUILTIN_TOOLS_FULL c m)
  | _, _ => manager
  end.

(** [agent_loop_register_builtin_channels]: only the console, whose [init]
    always succeeds. *)
Definition agent_loop_register_builtin_channels (m : Manager ToolWorld ToolContext) : Manager ToolWorld ToolContext :=
  fst (plugin_register_channel m None $"console" (Some (Some true))).
End Registration.

(** [subagent_shared_context_create]: the registry its subagents copy. *)
Fixpoint register_shared (alloc_ok : nat -> bool) (realloc_ok : nat -> bool) (i : nat) (defs : list BuiltinToolDef) (ctx : ToolContext)
    (reg : ToolRegistry ToolWorld ToolContext) : ToolRegistry ToolWorld ToolContext :=
  match defs with
  | [] => reg
  | d :: r =>
      let reg' := if alloc_ok i then
                    fst (tool_registry_register_full (realloc_ok i) reg (Some (bt_name d)) (Some (bt_desc d)) (Some (bt_params d)) (bt_exec d) (Some ctx) None true)
                  else reg in
      register_shared alloc_ok realloc_ok (S i) r ctx reg'
  end.

Definition subagent_channel (ctx : ToolContext) : ToolContext :=
  mkToolContext (ctx_magic ctx) (ctx_services ctx) (truncate_to 128 $"subagent") (ctx_current_chat_id ctx).

(** [shared_ok], [registry_ok], [builder_ok]: the allocations of the context,
    its registry and its context builder; NULL when one fails. *)
Definition subagent_shared_context_create (shared_ok registry_ok builder_ok ctx_ok : bool) (alloc_ok realloc_ok : nat -> bool) (service_id : nat) :
    option (ToolRegistry ToolWorld ToolContext) :=
  if shared_ok then
    match tool_registry_new registry_ok true with
    | None => None
    | Some reg =>
        if builder_ok then
          match tool_context_new ctx_ok service_id with
          | Some ctx => Some (register_shared alloc_ok realloc_ok 0 BUILTIN_TOOLS_SUBAGENT (subagent_channel ctx) reg)
          | None => Some reg
          end
        else None
    end
  else None.

(** ** Facts *)

Definition builtin_tool (ctx : ToolContext) (d : BuiltinToolDef) : Tool ToolWorld ToolContext :=
  mkTool (bt_name d) (bt_desc d) (bt_params d) (bt_exec d) (Some ctx) None true.

Lemma register_tools_spec i defs ctx m reg : pm_tool_registry m = Some reg ->
  exists cap, pm_tool_registry (register_tools (fun _ => true) (fun _ => true) i defs ctx m) =
    Some (mkRegistry (reg_tools reg ++ (builtin_tool ctx <$> defs)) cap).
Proof.
  revert i m reg. induction defs as [|d r IH]; intros i m reg Hm; cbn [register_tools].
  - exists (reg_capacity reg). rewrite Hm. by destruct reg; cbn; rewrite app_nil_r.
  - unfold plugin_register_tool_with_destroy. rewrite Hm. unfold tool_registry_register_full.
    assert (forall cap, exists cap', pm_tool_registry (register_tools (fun _ => true) (fun _ => true) (S i) r ctx
      (set_tool_registry (Some (mkRegistry (reg_tools reg ++ [builtin_tool ctx d]) cap)) m)) =
      Some (mkRegistry (reg_tools reg ++ builtin_tool ctx d :: (builtin_tool ctx <$> r)) cap')) as Hr.
    { intros cap. destruct (IH (S i) (set_tool_registry (Some (mkRegistry (reg_tools reg ++ [builtin_tool ctx d]) cap)) m) _ eq_refl) as [cap' ->].
      exists cap'. cbn [reg_tools]. by rewrite <- (assoc_L app). }
    destruct (Nat.leb _ _); apply Hr.
Qed.

Lemma register_shared_spec i defs ctx reg :
  reg_tools (register_shared (fun _ => true) (fun _ => true) i defs ctx reg) = reg_tools reg ++ (builtin_tool ctx <$> defs).
Proof.
  revert i reg. induction defs as [|d r IH]; intros i reg; cbn [register_shared]; [by rewrite app_nil_r|].
  rewrite IH. unfold tool_registry_register_full. destruct (Nat.leb _ _); cbn; by rewrite <- (assoc_L app).
Qed.

(** The name under which a lookup by the full name or by its alias finds a
    tool is a name of the table. *)
Lemma tool_registry_get_name {W D} (reg : ToolRegistry W D) name t : tool_registry_get reg (Some name) = Some t -> t ∈ reg_tools reg.
Proof.
  unfold tool_registry_get. cbn. destruct (tool_registry_find reg name) as [i|]; [|done]. cbn. apply list_elem_of_lookup_2.
Qed.
End BuiltinTools.

Definition unparsed (o : option json) : bool := match o with None => true | Some _ => false end.

Lemma schema_unparsed services sys :
  Forall (fun d => bool_decide (bt_name d = $"cron") = unparsed (cJSON_Parse (bt_params d))) (BUILTIN_TOOLS_FULL services sys).
Proof. unfold BUILTIN_TOOLS_FULL. repeat (apply Forall_cons; split; [by vm_compute|]). by apply Forall_nil. Qed.

(** The schema of a built-in tool reaches the model, except that of the
    cron tool: its text has a backslash before a single quote, which is no JSON
    escape, so it does not parse and the model is told that the tool takes no
    parameters. *)
Theorem builtin_schemas services sys d t : d ∈ BUILTIN_TOOLS_FULL services sys -> t_parameters t = bt_params d ->
  match cJSON_Parse (bt_params d) with
  | Some schema => bt_name d <> $"cron" /\
      @tool_item ToolWorld ToolContext t =
        JObj [member_str $"type" $"function"; member_json $"function"
          (JObj [member_str $"name" (t_name t); member_str $"description" (t_description t); member_json $"parameters" schema])]
  | None => bt_name d = $"cron" /\
      @tool_item ToolWorld ToolContext t =
        JObj [member_str $"type" $"function"; member_json $"function"
          (JObj [member_str $"name" (t_name t); member_str $"description" (t_description t); member_json $"parameters" (JObj [])])]
  end.
Proof.
  intros Hd Ht. pose proof (proj1 (Forall_forall _ _) (schema_unparsed services sys) d Hd) as Hs. cbv beta in Hs.
  unfold tool_item. rewrite Ht. destruct (cJSON_Parse (bt_params d)) as [schema|]; cbn [unparsed] in Hs.
  - split; [|done]. by apply bool_decide_eq_false in Hs.
  - split; [|done]. by apply bool_decide_eq_true in Hs.
Qed.

Definition cron_def services sys : BuiltinToolDef := default (mkBuiltin [] [] [] (tool_memory services)) (BUILTIN_TOOLS_FULL services sys !! 7).

Lemma builtin_schemas_witness :
  match cJSON_Parse (bt_params (cron_def demo_services demo_sys)) with
  | Some schema => bt_name (cron_def demo_services demo_sys) <> $"cron" /\
      @tool_item ToolWorld ToolContext (builtin_tool (demo_ctx 1) (cron_def demo_services demo_sys)) =
        JObj [member_str $"type" $"function"; member_json $"function"
          (JObj [member_str $"name" $"cron"; member_str $"description" (bt_desc (cron_def demo_services demo_sys)); member_json $"parameters" schema])]
  | None => bt_name (cron_def demo_services demo_sys) = $"cron" /\
      @tool_item ToolWorld ToolContext (builtin_tool (demo_ctx 1) (cron_def demo_services demo_sys)) =
        JObj [member_str $"type" $"function"; member_json $"function"
          (JObj [member_str $"name" $"cron"; member_str $"description" (bt_desc (cron_def demo_services demo_sys)); member_json $"parameters" (JObj [])])]
  end.
Proof.
  apply (builtin_schemas demo_services demo_sys (cron_def demo_services demo_sys) (builtin_tool (demo_ctx 1) (cron_def demo_services demo_sys))); [|done].
  apply (list_elem_of_lookup_2 _ 7). done.
Defined.

(** The agent's registry, filled on a fresh manager, is the table in its
    order, each tool with the context it was given and the built-in function;
    a registry that had tools keeps them. *)
Theorem builtin_tools_registered services sys m reg ctx : pm_tool_registry m = Some reg ->
  exists m' cap, agent_loop_register_builtin_tools services sys (fun _ => true) (fun _ => true) (Some m) (Some ctx) = Some m' /\
    pm_tool_registry m' = Some (mkRegistry (reg_tools reg ++ (builtin_tool ctx <$> BUILTIN_TOOLS_FULL services sys)) cap).
Proof.
  intros Hm. unfold agent_loop_register_builtin_tools.
  destruct (register_tools_spec 0 (BUILTIN_TOOLS_FULL services sys) ctx m reg Hm) as [cap Hr]. by exists (register_tools (fun _ => true) (fun _ => true) 0 (BUILTIN_TOOLS_FULL services sys) ctx m), cap.
Qed.

Definition subagent_names : list cstr := [$"read_file"; $"write_file"; $"edit_file"; $"list_dir"; $"exec"; $"send_message"].

Lemma subagent_tool_names services sys : bt_name <$> BUILTIN_TOOLS_SUBAGENT services sys = subagent_names.
Proof. reflexivity. Qed.

(** Whatever name a subagent asks for, the tool its shared registry gives is
    one of the six of the table: a subagent cannot spawn another, schedule a
    job, or write the memory. Its context is routed to the subagents. *)
Theorem subagent_tools services sys service_id reg name t :
  subagent_shared_context_create services sys true true true true (fun _ => true) (fun _ => true) service_id = Some reg ->
  tool_registry_get reg (Some name) = Some t ->
  t_name t ∈ subagent_names /\ exists ctx, t_user_data t = Some ctx /\ ctx_magic ctx = TOOL_CONTEXT_MAGIC /\ ctx_current_channel ctx = $"subagent".
Proof.
  unfold subagent_shared_context_create. cbn [tool_registry_new andb tool_context_new]. intros Hreg Ht%tool_registry_get_name.
  apply (inj Some) in Hreg. subst reg. rewrite register_shared_spec in Ht. rewrite app_nil_l in Ht. apply list_elem_of_fmap in Ht as (d & -> & Hd). split.
  - rewrite <- (subagent_tool_names services sys). exact (list_elem_of_fmap_2 bt_name _ d Hd).
  - eexists. split; [done|]. by vm_compute.
Qed.

Definition demo_shared : ToolRegistry ToolWorld ToolContext :=
  default (mkRegistry [] 0) (subagent_shared_context_create demo_services demo_sys true true true true (fun _ => true) (fun _ => true) 2).

Lemma subagent_tools_witness :
  t_name (builtin_tool (subagent_channel (mkToolContext TOOL_CONTEXT_MAGIC 2 $"cli" $"current")) (default (cron_def demo_services demo_sys) (BUILTIN_TOOLS_SUBAGENT demo_services demo_sys !! 4))) ∈ subagent_names /\
  exists ctx, t_user_data (builtin_tool (subagent_channel (mkToolContext TOOL_CONTEXT_MAGIC 2 $"cli" $"current")) (default (cron_def demo_services demo_sys) (BUILTIN_TOOLS_SUBAGENT demo_services demo_sys !! 4))) = Some ctx /\
    ctx_magic ctx = TOOL_CONTEXT_MAGIC /\ ctx_current_channel ctx = $"subagent".
Proof. apply (subagent_tools demo_services demo_sys 2 demo_shared $"shell.exec"); reflexivity. Defined.

Definition demo_manager : Manager ToolWorld ToolContext :=
  plugin_manager_new $"/w" None true (Some (mkRegistry [] 8)) (Some []) None 0.

Lemma builtin_tools_registered_witness :
  exists m' cap, agent_loop_register_builtin_tools demo_services demo_sys (fun _ => true) (fun _ => true) (Some demo_manager) (Some (demo_ctx 1)) = Some m' /\
    pm_tool_registry m' = Some (mkRegistry (reg_tools (mkRegistry [] 8) ++ (builtin_tool (demo_ctx 1) <$> BUILTIN_TOOLS_FULL demo_services demo_sys)) cap).
Proof. apply (builtin_tools_registered demo_services demo_sys demo_manager (mkRegistry [] 8)). done. Defined.
