(* ===== verification/Mcp.v ===== *)
(** [src/plugins/tools/mcp_tools/mcp.c]: the clients of MCP servers, a JSON-RPC
    protocol over a transport, and [mcp_tools.c]: the tools made of what the
    servers offer.

    [T] is the state of the transports; what they do is a parameter, and the
    transport over pipes is in McpStdio.v. Allocations succeed, but for the
    array of clients. *)
From S2P Require Import Prelude CStr Json JsonTree Common ToolRegistry PluginManager.

Inductive MCPMethod :=
  | MCP_METHOD_INVALID | MCP_METHOD_INITIALIZE | MCP_METHOD_INITIALIZED | MCP_METHOD_TOOLS_LIST | MCP_METHOD_TOOLS_CALL
  | MCP_METHOD_RESOURCES_LIST | MCP_METHOD_RESOURCES_READ | MCP_METHOD_PROMPTS_LIST | MCP_METHOD_PROMPTS_GET.

#[export] Instance MCPMethod_eq_dec : EqDecision MCPMethod.
Proof. solve_decision. Defined.

Definition mcp_method_to_string (method : MCPMethod) : cstr :=
  match method with
  | MCP_METHOD_INVALID => $"invalid"
  | MCP_METHOD_INITIALIZE => $"initialize"
  | MCP_METHOD_INITIALIZED => $"notifications/initialized"
  | MCP_METHOD_TOOLS_LIST => $"tools/list"
  | MCP_METHOD_TOOLS_CALL => $"tools/call"
  | MCP_METHOD_RESOURCES_LIST => $"resources/list"
  | MCP_METHOD_RESOURCES_READ => $"resources/read"
  | MCP_METHOD_PROMPTS_LIST => $"prompts/list"
  | MCP_METHOD_PROMPTS_GET => $"prompts/get"
  end.

Definition mcp_method_from_string (str : option cstr) : MCPMethod :=
  match str with
  | None => MCP_METHOD_INVALID
  | Some s =>
      if str_eq s $"initialize" then MCP_METHOD_INITIALIZE
      else if str_eq s $"notifications/initialized" then MCP_METHOD_INITIALIZED
      else if str_eq s $"tools/list" then MCP_METHOD_TOOLS_LIST
      else if str_eq s $"tools/call" then MCP_METHOD_TOOLS_CALL
      else if str_eq s $"resources/list" then MCP_METHOD_RESOURCES_LIST
      else if str_eq s $"resources/read" then MCP_METHOD_RESOURCES_READ
      else if str_eq s $"prompts/list" then MCP_METHOD_PROMPTS_LIST
      else if str_eq s $"prompts/get" then MCP_METHOD_PROMPTS_GET
      else MCP_METHOD_INVALID
  end.

(** A [String] of a definition that was not given is empty. *)
Record MCPToolDef := mkToolDef { td_name : option cstr; td_description : option cstr; td_input_schema : cstr }.
Record MCPResource := mkResource { rs_uri : option cstr; rs_name : option cstr; rs_description : option cstr; rs_mime_type : option cstr }.
Record MCPPrompt := mkPrompt { pt_name : option cstr; pt_description : option cstr; pt_arguments : cstr }.

Record MCPClient (T : Type) := mkClient {
  mc_server_id : cstr;
  mc_transport_type : cstr;
  mc_command : option cstr;
  mc_args : list cstr;
  mc_env : list (cstr * cstr);
  mc_headers : list (cstr * cstr);
  mc_transport : T;
  mc_connected : bool;
  mc_initialized : bool;
  mc_tools : list MCPToolDef;
  mc_resources : list MCPResource;
  mc_prompts : list MCPPrompt;
}.
Arguments mkClient {T}.
Arguments mc_server_id {T}.
Arguments mc_transport_type {T}.
Arguments mc_command {T}.
Arguments mc_args {T}.
Arguments mc_env {T}.
Arguments mc_headers {T}.
Arguments mc_transport {T}.
Arguments mc_connected {T}.
Arguments mc_initialized {T}.
Arguments mc_tools {T}.
Arguments mc_resources {T}.
Arguments mc_prompts {T}.

Record MCPManager (T : Type) := mkMcpManager { mm_clients : list (MCPClient T); mm_capacity : nat; mm_workspace : cstr }.
Arguments mkMcpManager {T}.
Arguments mm_clients {T}.
Arguments mm_capacity {T}.
Arguments mm_workspace {T}.

Record MCPResponse := mkResponse { rp_id : Z; rp_result : cstr; rp_error : cstr }.

(** ** JSON-RPC *)

Definition mcp_create_request (method : MCPMethod) (id : Z) (params_json : option cstr) : option cstr :=
  let params := (p ← params_json; cJSON_Parse p) in
  cJSON_PrintUnformatted (JObj ([($"jsonrpc", JStr $"2.0"); ($"id", JNum (num_of_Z id)); ($"method", JStr (mcp_method_to_string method))] ++
    match params with Some p => [($"params", p)] | None => [] end)).

(** [string_new] of a printed value. *)
Definition printed (j : json) : cstr := str_new (cJSON_PrintUnformatted j).

(** The response, or the message. *)
Definition mcp_parse_response (text : cstr) : cstr + MCPResponse :=
  match cJSON_Parse text with
  | None => inl $"Failed to parse JSON"
  | Some root =>
      if bool_decide (is_string (get_object_item (Some root) $"jsonrpc") = Some $"2.0") then
        inr (mkResponse (match is_number (get_object_item (Some root) $"id") with Some n => valueint n | None => 0 end)
               (match get_object_item (Some root) $"result" with Some item => printed item | None => [] end)
               (match get_object_item (Some root) $"error" with Some item => printed item | None => [] end))
      else inl $"Invalid JSON-RPC version"
  end.

(** ** Transports *)

Inductive TransportKind := Stdio | Websocket | Sse | StreamableHttp.

(** [MCPTransportOps]: each acts on the client's transport and configuration. *)
Record MCPTransportOps (T : Type) := mkOps {
  tr_init : MCPClient T -> T * Error;
  tr_send : T -> cstr -> T * Error;
  tr_recv : T -> Z -> T * option cstr;
  tr_close : T -> T;
}.
Arguments mkOps {T}.
Arguments tr_init {T}.
Arguments tr_send {T}.
Arguments tr_recv {T}.
Arguments tr_close {T}.

Definition MCP_REQUEST_TIMEOUT : Z := 30000.
Definition MCP_PROTOCOL_VERSION : cstr := $"2024-11-05".

Section Client.
Context {T : Type} (ops : TransportKind -> MCPTransportOps T).

Definition set_transport (t : T) (c : MCPClient T) : MCPClient T :=
  mkClient (mc_server_id c) (mc_transport_type c) (mc_command c) (mc_args c) (mc_env c) (mc_headers c) t (mc_connected c) (mc_initialized c) (mc_tools c) (mc_resources c) (mc_prompts c).
Definition set_connected (b : bool) (c : MCPClient T) : MCPClient T :=
  mkClient (mc_server_id c) (mc_transport_type c) (mc_command c) (mc_args c) (mc_env c) (mc_headers c) (mc_transport c) b (mc_initialized c) (mc_tools c) (mc_resources c) (mc_prompts c).
Definition set_initialized (b : bool) (c : MCPClient T) : MCPClient T :=
  mkClient (mc_server_id c) (mc_transport_type c) (mc_command c) (mc_args c) (mc_env c) (mc_headers c) (mc_transport c) (mc_connected c) b (mc_tools c) (mc_resources c) (mc_prompts c).
Definition set_client_tools (l : list MCPToolDef) (c : MCPClient T) : MCPClient T :=
  mkClient (mc_server_id c) (mc_transport_type c) (mc_command c) (mc_args c) (mc_env c) (mc_headers c) (mc_transport c) (mc_connected c) (mc_initialized c) l (mc_resources c) (mc_prompts c).
Definition set_resources (l : list MCPResource) (c : MCPClient T) : MCPClient T :=
  mkClient (mc_server_id c) (mc_transport_type c) (mc_command c) (mc_args c) (mc_env c) (mc_headers c) (mc_transport c) (mc_connected c) (mc_initialized c) (mc_tools c) l (mc_prompts c).
Definition set_prompts (l : list MCPPrompt) (c : MCPClient T) : MCPClient T :=
  mkClient (mc_server_id c) (mc_transport_type c) (mc_command c) (mc_args c) (mc_env c) (mc_headers c) (mc_transport c) (mc_connected c) (mc_initialized c) (mc_tools c) (mc_resources c) l.

Definition get_transport_ops (type : cstr) : option (MCPTransportOps T) :=
  if str_eq type $"stdio" then Some (ops Stdio)
  else if str_eq type $"websocket" then Some (ops Websocket)
  else if str_eq type $"sse" then Some (ops Sse)
  else if str_eq type $"streamable_http" then Some (ops StreamableHttp)
  else None.

Definition mcp_client_connect (c : MCPClient T) : MCPClient T * Error :=
  match get_transport_ops (mc_transport_type c) with
  | None => (c, error_new ERR_INVALID_PARAM (Some $"Unknown transport type"))
  | Some o =>
      let '(t, err) := tr_init o c in
      let c1 := set_transport t c in
      (if is_err err then c1 else set_connected true c1, err)
  end.

Definition mcp_client_disconnect (c : MCPClient T) : MCPClient T :=
  let c1 := match get_transport_ops (mc_transport_type c) with Some o => set_transport (tr_close o (mc_transport c)) c | None => c end in
  set_connected false c1.

Definition mcp_client_send (c : MCPClient T) (request_json : cstr) : MCPClient T * Error :=
  match get_transport_ops (mc_transport_type c) with
  | None => (c, error_new ERR_INVALID_PARAM (Some $"Transport not available"))
  | Some o => let '(t, err) := tr_send o (mc_transport c) request_json in (set_transport t c, err)
  end.

Definition mcp_client_recv (c : MCPClient T) (timeout_ms : Z) : MCPClient T * option cstr :=
  match get_transport_ops (mc_transport_type c) with
  | None => (c, None)
  | Some o => let '(t, r) := tr_recv o (mc_transport c) timeout_ms in (set_transport t c, r)
  end.

(** ** Requests

    [id]: the next request number, shared by all clients. Each request of the
    program makes the text, sends it, waits for a text and parses it. *)
Definition mcp_exchange (c : MCPClient T) (id : Z) (method : MCPMethod) (params : option cstr) (no_request no_answer : cstr)
    : MCPClient T * Z * (Error + MCPResponse) :=
  match mcp_create_request method id params with
  | None => (c, (id + 1)%Z, inl (error_new ERR_JSON (Some no_request)))
  | Some request =>
      let '(c1, err) := mcp_client_send c request in
      if is_err err then (c1, (id + 1)%Z, inl err)
      else
        let '(c2, text) := mcp_client_recv c1 MCP_REQUEST_TIMEOUT in
        match text with
        | None => (c2, (id + 1)%Z, inl (error_new ERR_TIMEOUT (Some no_answer)))
        | Some t =>
            match mcp_parse_response t with
            | inl message => (c2, (id + 1)%Z, inl (error_new ERR_JSON (Some message)))
            | inr response => (c2, (id + 1)%Z, inr response)
            end
        end
  end.

Definition not_connected : Error := error_new ERR_TOOL (Some $"Client not connected").
Definition no_request_text : cstr := $"Failed to create request".
Definition no_answer_text : cstr := $"No response from server".

Definition initialize_params : json :=
  JObj [($"protocolVersion", JStr MCP_PROTOCOL_VERSION); ($"capabilities", JObj []);
        ($"clientInfo", JObj [($"name", JStr $"primagen"); ($"version", JStr $"0.1.0")])].
Definition initialized_notification : json :=
  JObj [($"jsonrpc", JStr $"2.0"); ($"method", JStr $"notifications/initialized"); ($"params", JObj [])].

Definition mcp_client_initialize (c : MCPClient T) (id : Z) : MCPClient T * Z * Error :=
  if negb (mc_connected c) then (c, id, not_connected)
  else if mc_initialized c then (c, id, err_ok)
  else match cJSON_PrintUnformatted initialize_params with
       | None => (c, id, error_new ERR_JSON (Some $"Failed to create initialize params"))
       | Some params =>
           match mcp_exchange c id MCP_METHOD_INITIALIZE (Some params) $"Failed to create initialize request" $"No initialize response from server" with
           | (c1, id1, inl err) => (c1, id1, err)
           | (c1, id1, inr response) =>
               match rp_error response with
               | _ :: _ => (c1, id1, error_new ERR_TOOL (Some $"Initialize failed"))
               | [] =>
                   match cJSON_PrintUnformatted initialized_notification with
                   | None => (c1, id1, error_new ERR_JSON (Some $"Failed to create initialized notification"))
                   | Some note =>
                       let '(c2, err) := mcp_client_send c1 note in
                       if is_err err then (c2, id1, err) else (set_initialized true c2, id1, err_ok)
                   end
               end
           end
       end.

Definition is_ws (c : ascii) : bool := bool_decide (c ∈ [" "%char; "009"%char; "013"%char; "010"%char]).

Definition tool_def (item : json) : MCPToolDef :=
  mkToolDef (is_string (get_object_item (Some item) $"name")) (is_string (get_object_item (Some item) $"description"))
    (match get_object_item (Some item) $"inputSchema" with Some schema => printed schema | None => [] end).
Definition resource_def (item : json) : MCPResource :=
  mkResource (is_string (get_object_item (Some item) $"uri")) (is_string (get_object_item (Some item) $"name"))
    (is_string (get_object_item (Some item) $"description")) (is_string (get_object_item (Some item) $"mimeType")).
Definition prompt_def (item : json) : MCPPrompt :=
  mkPrompt (is_string (get_object_item (Some item) $"name")) (is_string (get_object_item (Some item) $"description"))
    (match get_object_item (Some item) $"arguments" with Some args => printed args | None => [] end).

(** A list of a response: its elements, or the error. *)
Definition list_of_result {A} (result member no_array : cstr) (of_json : json -> A) : Error + list A :=
  match cJSON_Parse result with
  | None => inl (error_new ERR_JSON (Some $"Failed to parse result"))
  | Some root =>
      match is_array (get_object_item (Some root) member) with
      | None => inl (error_new ERR_JSON (Some no_array))
      | Some items => inr (of_json <$> items)
      end
  end.

(** The elements replace those of the client when there are some. *)
Definition keep_list {A} (set : list A -> MCPClient T -> MCPClient T) (l : list A) (c : MCPClient T) : MCPClient T :=
  match l with [] => c | _ => set l c end.

Definition mcp_client_list_tools (c : MCPClient T) (id : Z) : MCPClient T * Z * (Error + list MCPToolDef) :=
  if negb (mc_connected c) then (c, id, inl not_connected)
  else
    let '(c0, id0, init_err) := mcp_client_initialize c id in
    if is_err init_err then (c0, id0, inl init_err)
    else match mcp_exchange c0 id0 MCP_METHOD_TOOLS_LIST (Some $"{}") no_request_text no_answer_text with
         | (c1, id1, inl err) => (c1, id1, inl err)
         | (c1, id1, inr response) =>
             match rp_error response with
             | _ :: _ =>
                 let message := if forallb is_ws (rp_error response) then $"Server returned empty MCP error" else rp_error response in
                 (c1, id1, inl (error_new ERR_TOOL (Some (truncate_to 256 message))))
             | [] =>
                 match list_of_result (rp_result response) $"tools" $"No tools array in response" tool_def with
                 | inl err => (c1, id1, inl err)
                 | inr l => (keep_list set_client_tools l c1, id1, inr l)
                 end
             end
         end.

Definition server_error : Error := error_new ERR_TOOL (Some $"Server returned error").

(** The result of the content, which is what [content] holds if it is there. *)
Definition call_result (result : cstr) : cstr :=
  match cJSON_Parse result with
  | Some j => match get_object_item (Some j) $"content" with Some content => printed content | None => result end
  | None => result
  end.

Definition mcp_client_call_tool (c : MCPClient T) (id : Z) (name : cstr) (params : option cstr) : MCPClient T * Z * (Error + cstr) :=
  if negb (mc_connected c) then (c, id, inl not_connected)
  else match (match params with Some p => cJSON_Parse p | None => Some (JObj []) end) with
       | None => (c, id, inl (error_new ERR_JSON (Some $"Invalid params JSON")))
       | Some arguments =>
           let call_params := cJSON_PrintUnformatted (JObj [($"name", JStr name); ($"arguments", arguments)]) in
           match mcp_exchange c id MCP_METHOD_TOOLS_CALL call_params no_request_text no_answer_text with
           | (c1, id1, inl err) => (c1, id1, inl err)
           | (c1, id1, inr response) =>
               match rp_error response with
               | _ :: _ => (c1, id1, inl server_error)
               | [] => (c1, id1, inr (call_result (rp_result response)))
               end
           end
       end.

Definition mcp_client_list_resources (c : MCPClient T) (id : Z) : MCPClient T * Z * (Error + list MCPResource) :=
  if negb (mc_connected c) then (c, id, inl not_connected)
  else match mcp_exchange c id MCP_METHOD_RESOURCES_LIST (Some $"{}") no_request_text no_answer_text with
       | (c1, id1, inl err) => (c1, id1, inl err)
       | (c1, id1, inr response) =>
           match rp_error response with
           | _ :: _ => (c1, id1, inl server_error)
           | [] =>
               match list_of_result (rp_result response) $"resources" $"No resources array in response" resource_def with
               | inl err => (c1, id1, inl err)
               | inr l => (keep_list set_resources l c1, id1, inr l)
               end
           end
       end.

(** The text of the first content, or nothing. *)
Definition resource_text (result : cstr) : option cstr :=
  root ← cJSON_Parse result;
  match is_array (get_object_item (Some root) $"contents") with
  | Some (first :: _) => is_string (get_object_item (Some first) $"text")
  | _ => None
  end.

Definition mcp_client_read_resource (c : MCPClient T) (id : Z) (uri : cstr) : MCPClient T * Z * (Error + option cstr) :=
  if negb (mc_connected c) then (c, id, inl not_connected)
  else match mcp_exchange c id MCP_METHOD_RESOURCES_READ (cJSON_PrintUnformatted (JObj [($"uri", JStr uri)])) no_request_text no_answer_text with
       | (c1, id1, inl err) => (c1, id1, inl err)
       | (c1, id1, inr response) =>
           match rp_error response with
           | _ :: _ => (c1, id1, inl server_error)
           | [] => (c1, id1, inr (resource_text (rp_result response)))
           end
       end.

Definition mcp_client_list_prompts (c : MCPClient T) (id : Z) : MCPClient T * Z * (Error + list MCPPrompt) :=
  if negb (mc_connected c) then (c, id, inl not_connected)
  else match mcp_exchange c id MCP_METHOD_PROMPTS_LIST (Some $"{}") no_request_text no_answer_text with
       | (c1, id1, inl err) => (c1, id1, inl err)
       | (c1, id1, inr response) =>
           match rp_error response with
           | _ :: _ => (c1, id1, inl server_error)
           | [] =>
               match list_of_result (rp_result response) $"prompts" $"No prompts array in response" prompt_def with
               | inl err => (c1, id1, inl err)
               | inr l => (keep_list set_prompts l c1, id1, inr l)
               end
           end
       end.

Definition mcp_client_get_prompt (c : MCPClient T) (id : Z) (name : cstr) (args : option cstr) : MCPClient T * Z * (Error + cstr) :=
  if negb (mc_connected c) then (c, id, inl not_connected)
  else
    let arguments := match (a ← args; cJSON_Parse a) with Some j => [($"arguments", j)] | None => [] end in
    match mcp_exchange c id MCP_METHOD_PROMPTS_GET (cJSON_PrintUnformatted (JObj (($"name", JStr name) :: arguments))) no_request_text no_answer_text with
    | (c1, id1, inl err) => (c1, id1, inl err)
    | (c1, id1, inr response) =>
        match rp_error response with
        | _ :: _ => (c1, id1, inl server_error)
        | [] => (c1, id1, inr (rp_result response))
        end
    end.

(** ** The manager *)

Record ServerSpec := mkServer {
  sv_id : cstr; sv_transport : cstr; sv_command : option cstr; sv_args : list cstr; sv_env_vars : list (cstr * cstr); sv_headers : list (cstr * cstr);
}.

Definition mcp_manager_create (workspace : cstr) : MCPManager T := mkMcpManager [] 0 workspace.

Definition has_server_id (id : cstr) (c : MCPClient T) : bool := str_eq (mc_server_id c) id.

Definition mcp_manager_get_client (mgr : MCPManager T) (server_id : cstr) : option (MCPClient T) := List.find (has_server_id server_id) (mm_clients mgr).

(** [fresh]: a transport that is not open. The index of the client, or -1. *)
Definition mcp_manager_add_client (realloc_ok : nat -> bool) (fresh : T) (mgr : MCPManager T) (s : ServerSpec) : MCPManager T * Z :=
  if existsb (has_server_id (sv_id s)) (mm_clients mgr) then (mgr, (-1)%Z)
  else
    let put cap :=
      (mkMcpManager (mm_clients mgr ++ [mkClient (sv_id s) (sv_transport s) (sv_command s) (sv_args s) (sv_env_vars s) (sv_headers s) fresh false false [] [] []])
         cap (mm_workspace mgr), Z.of_nat (length (mm_clients mgr))) in
    if Nat.leb (mm_capacity mgr) (length (mm_clients mgr)) then
      let new_capacity := if Nat.eqb (mm_capacity mgr) 0 then 4 else mm_capacity mgr * 2 in
      if realloc_ok new_capacity then put new_capacity else (mgr, (-1)%Z)
    else put (mm_capacity mgr).

(** The first client of the name is closed, if it is connected, and removed. *)
Fixpoint remove_client (server_id : cstr) (l : list (MCPClient T)) : list (MCPClient T) * option (MCPClient T) :=
  match l with
  | [] => ([], None)
  | c :: r =>
      if has_server_id server_id c then (r, Some (if mc_connected c then mcp_client_disconnect c else c))
      else let '(r', x) := remove_client server_id r in (c :: r', x)
  end.
Definition mcp_manager_remove_client (mgr : MCPManager T) (server_id : cstr) : MCPManager T * option (MCPClient T) :=
  let '(l, x) := remove_client server_id (mm_clients mgr) in (mkMcpManager l (mm_capacity mgr) (mm_workspace mgr), x).

(** The transports that are closed. *)
Definition mcp_manager_free (mgr : MCPManager T) : list T :=
  omap (fun c => if mc_connected c then Some (mc_transport (mcp_client_disconnect c)) else None) (mm_clients mgr).

Definition mcp_parse_env_map (env_obj : option json) : list (cstr * cstr) :=
  match is_object env_obj with Some kvs => omap (fun kv => (fun s : cstr => (fst kv, s)) <$> is_string (Some (snd kv))) kvs | None => [] end.

Definition nonempty_string (j : option json) : option cstr := match is_string j with Some [] => None | o => o end.

(** A server of the configuration; [None] when it is skipped. *)
Definition server_of_json (item : json) : option ServerSpec :=
  let get := get_object_item (Some item) in
  id ← nonempty_string (get $"id");
  let transport := default $"stdio" (nonempty_string (get $"transport")) in
  let is_http := str_eq transport $"websocket" || str_eq transport $"sse" || str_eq transport $"streamable_http" in
  let request_url := if str_eq transport $"sse" || str_eq transport $"streamable_http" then option_list (nonempty_string (get $"request_url")) else [] in
  Some (mkServer id transport (Some (default [] (is_string (get (if is_http then $"url" else $"command")))))
          (request_url ++ match is_array (get $"args") with Some l => omap (fun a => is_string (Some a)) l | None => [] end)
          (mcp_parse_env_map (get $"env")) (mcp_parse_env_map (get $"headers"))).

(** ** The tools *)

(** The context of a tool: its client, and the name of a server's tool. *)
Record MCPToolContext := mkToolCtx { tx_client : cstr; tx_tool_name : option cstr }.

Definition mcp_error_contains (message needle : cstr) : bool := bool_decide (is_Some (strstr message needle)).
Definition mcp_needs_reinitialize (err : Error) : bool :=
  mcp_error_contains (err_message err) $"without mcp-session-id header" && mcp_error_contains (err_message err) $"initialize request" ||
  mcp_error_contains (err_message err) $"session" && mcp_error_contains (err_message err) $"expired".
Definition mcp_can_retry (err : Error) : bool :=
  mcp_needs_reinitialize err || bool_decide (err_code err = ERR_TIMEOUT) || bool_decide (err_code err = ERR_CONNECTION).

(** The tool of a server, with one more attempt; [output] is what is stored. *)
Definition mcp_tool_execute (c : MCPClient T) (id : Z) (tool_name params : cstr) : MCPClient T * Z * Error * cstr :=
  let '(c1, id1, r1) := mcp_client_call_tool c id tool_name (Some params) in
  let '(c2, id2, r2) :=
    match r1 with
    | inl err =>
        if mcp_can_retry err then
          let '(c0, id0) := if mcp_needs_reinitialize err
                            then let '(c', id', _) := mcp_client_list_tools (set_initialized false c1) id1 in (c', id') else (c1, id1) in
          mcp_client_call_tool c0 id0 tool_name (Some params)
        else (c1, id1, r1)
    | inr _ => (c1, id1, r1)
    end in
  match r2 with
  | inl err => (c2, id2, err, err_message err)
  | inr result => (c2, id2, err_ok, result)
  end.

Definition quoted (name : cstr) (o : option cstr) : cstr := [ch_quote] ++ name ++ [ch_quote] ++ $":" ++ [ch_quote] ++ default [] o ++ [ch_quote].

Definition listing (items : list cstr) : cstr :=
  $"[" ++ match items with [] => [] | x :: r => x ++ (r ≫= fun y => $"," ++ y) end ++ $"]".

Definition resource_line (r : MCPResource) : cstr :=
  truncate_to 1024 ($"{" ++ quoted $"uri" (rs_uri r) ++ $"," ++ quoted $"name" (rs_name r) ++ $"," ++ quoted $"description" (rs_description r) ++ $"," ++ quoted $"mimeType" (rs_mime_type r) ++ $"}").
Definition prompt_line (p : MCPPrompt) : cstr :=
  truncate_to 1024 ($"{" ++ quoted $"name" (pt_name p) ++ $"," ++ quoted $"description" (pt_description p) ++ $"}").

Definition mcp_list_resources_execute (c : MCPClient T) (id : Z) : MCPClient T * Z * Error * cstr :=
  match mcp_client_list_resources c id with
  | (c1, id1, inl err) => (c1, id1, err, err_message err)
  | (c1, id1, inr l) => (c1, id1, err_ok, listing (resource_line <$> l))
  end.

Definition mcp_list_prompts_execute (c : MCPClient T) (id : Z) : MCPClient T * Z * Error * cstr :=
  match mcp_client_list_prompts c id with
  | (c1, id1, inl err) => (c1, id1, err, err_message err)
  | (c1, id1, inr l) => (c1, id1, err_ok, listing (prompt_line <$> l))
  end.

(** [None]: the uri is read from the parameters after they were freed. *)
Definition mcp_read_resource_execute (params : cstr) : option (Error * cstr) :=
  match cJSON_Parse params with
  | None => Some (error_new ERR_JSON (Some $"Invalid JSON params"), [])
  | Some root =>
      match is_string (get_object_item (Some root) $"uri") with
      | None => Some (error_new ERR_INVALID_PARAM (Some $"Missing 'uri' parameter"), [])
      | Some _ => None
      end
  end.

Section Register.
Context {W : Type} (tool_exec list_resources_exec read_resource_exec list_prompts_exec : tool_fn W MCPToolContext) (realloc_ok : Z -> bool).

Definition mcp_full_name (name : cstr) : cstr := truncate_to 256 ($"mcp_" ++ name).

(** [None]: a tool without a name, whose NULL name is copied. *)
Fixpoint register_tool_defs (plugin : option nat) (server_id : cstr) (tools : list MCPToolDef) (m : Manager W MCPToolContext)
    : option (Manager W MCPToolContext) :=
  match tools with
  | [] => Some m
  | tool :: r =>
      name ← td_name tool;
      register_tool_defs plugin server_id r
        (fst (plugin_register_tool realloc_ok m plugin (Some (mcp_full_name name)) (td_description tool) (Some (td_input_schema tool))
                tool_exec (Some (mkToolCtx server_id (Some name)))))
  end.
Definition mcp_register_tools (plugin : option nat) (c : MCPClient T) (m : Manager W MCPToolContext) : option (Manager W MCPToolContext) :=
  register_tool_defs plugin (mc_server_id c) (mc_tools c) m.

Definition read_resource_schema : cstr :=
  let q s := [ch_quote] ++ s ++ [ch_quote] in
  $"{" ++ q $"type" ++ $":" ++ q $"object" ++ $"," ++ q $"properties" ++ $":{" ++ q $"uri" ++ $":{" ++ q $"type" ++ $":" ++ q $"string" ++ $"," ++
  q $"description" ++ $":" ++ q $"Resource URI" ++ $"}}," ++ q $"required" ++ $":[" ++ q $"uri" ++ $"]}".

Definition mcp_register_resources_prompts (plugin : option nat) (c : MCPClient T) (m : Manager W MCPToolContext) : Manager W MCPToolContext :=
  let ctx := Some (mkToolCtx (mc_server_id c) None) in
  let reg name desc schema exec m := fst (plugin_register_tool realloc_ok m plugin (Some name) (Some desc) (Some schema) exec ctx) in
  reg $"mcp_list_prompts" $"List available prompts from MCP servers" $"{}" list_prompts_exec
    (reg $"mcp_read_resource" $"Read content from an MCP resource by URI" read_resource_schema read_resource_exec
       (reg $"mcp_list_resources" $"List available resources from MCP servers" $"{}" list_resources_exec m)).

(** One client of the setup: connected, asked for its tools, registered. *)
Definition setup_client (plugin : option nat) (c : MCPClient T) (id : Z) (m : Manager W MCPToolContext)
    : option (MCPClient T * Z * Manager W MCPToolContext) :=
  let '(c1, err) := mcp_client_connect c in
  if is_err err then Some (c1, id, m)
  else
    let '(c2, id2, tools) := mcp_client_list_tools c1 id in
    m2 ← match tools with inr (_ :: _) => mcp_register_tools plugin c2 m | _ => Some m end;
    Some (c2, id2, mcp_register_resources_prompts plugin c2 m2).

Fixpoint setup_clients (plugin : option nat) (l : list (MCPClient T)) (id : Z) (m : Manager W MCPToolContext)
    : option (list (MCPClient T) * Z * Manager W MCPToolContext) :=
  match l with
  | [] => Some ([], id, m)
  | c :: r =>
      x ← setup_client plugin c id m;
      let '(c', id1, m1) := x in
      y ← setup_clients plugin r id1 m1;
      let '(r', id2, m2) := y in Some (c' :: r', id2, m2)
  end.

Definition mcp_manager_setup_from_plugin_config (fresh : T) (mgr : MCPManager T) (plugin_cfg : json) (plugin : option nat) (id : Z)
    (m : Manager W MCPToolContext) : option (MCPManager T * Z * Manager W MCPToolContext * Error) :=
  match is_array (get_object_item (Some plugin_cfg) $"servers") with
  | None => Some (mgr, id, m, error_new ERR_INVALID_PARAM (Some $"mcp_tools config.servers must be an array"))
  | Some servers =>
      let mgr1 := fold_left (fun g s => fst (mcp_manager_add_client (fun n => realloc_ok (Z.of_nat n)) fresh g s)) (omap server_of_json servers) mgr in
      x ← setup_clients plugin (mm_clients mgr1) id m;
      let '(l, id', m') := x in Some (mkMcpManager l (mm_capacity mgr1) (mm_workspace mgr1), id', m', err_ok)
  end.
End Register.
End Client.

(** ** A call and its answer *)

Definition request_json (method : MCPMethod) (id : Z) (params : json) : json :=
  JObj [($"jsonrpc", JStr $"2.0"); ($"id", JNum (num_of_Z id)); ($"method", JStr (mcp_method_to_string method)); ($"params", params)].

(** What a server answers, to whatever request. *)
Definition answer_json (id : json) (result : json) : json := JObj [($"jsonrpc", JStr $"2.0"); ($"id", id); ($"result", result)].

Lemma printed_ok j : json_ok 0 j = true -> cJSON_PrintUnformatted j = Some (printed j) /\ cJSON_Parse (printed j) = Some j.
Proof.
  intros Hj. destruct (unformatted_line j Hj) as (t & Ht & _ & _ & Hp). unfold printed. rewrite Ht. cbn [str_new default]. unfold str_new.
  cbn [default]. unfold id. split; [done|]. rewrite <- (app_nil_r t). by apply Hp.
Qed.

(** The text of a request with such parameters. *)
Lemma create_request_ok method id params : (Z.abs id < 10 ^ 15)%Z -> json_ok 1 params = true -> json_ok 0 params = true ->
  mcp_create_request method id (cJSON_PrintUnformatted params) = Some (printed (request_json method id params)) /\
  cJSON_Parse (printed (request_json method id params)) = Some (request_json method id params).
Proof.
  intros Hid Hp1 Hp0. destruct (printed_ok params Hp0) as [-> Hparse]. unfold mcp_create_request. cbn [mbind option_bind]. rewrite Hparse.
  apply printed_ok. unfold request_json. cbn [json_ok forallb fst snd].
  assert (num_ok (num_of_Z id) = true) as ->.
  { unfold num_ok, num_of_Z. cbn [n_mant n_exp]. apply orb_true_intro. left. apply andb_true_intro. split; [done|by apply Z.ltb_lt]. }
  assert (str_ok (mcp_method_to_string method) = true) as -> by (by destruct method). rewrite Hp1. vm_compute. done.
Qed.

Lemma parse_result_answer id result text : cJSON_Parse text = Some (answer_json id result) -> exists n, mcp_parse_response text = inr (mkResponse n (printed result) []).
Proof.
  intros Ht. unfold mcp_parse_response. rewrite Ht. unfold answer_json.
  change (is_string (get_object_item (Some (JObj [($"jsonrpc", JStr $"2.0"); ($"id", id); ($"result", result)])) $"jsonrpc")) with (Some $"2.0").
  rewrite bool_decide_eq_true_2 by done. by eexists.
Qed.

Lemma json_ok_weaken j : forall d, json_ok (S d) j = true -> json_ok d j = true.
Proof.
  induction j as [| | | |l IH|kvs IH] using json_ind'; intros d; cbn [json_ok]; try done; intros [Hd Hl]%andb_prop; apply Nat.ltb_lt in Hd;
    (apply andb_true_intro; split; [apply Nat.ltb_lt; lia|]); rewrite forallb_forall in Hl |- *; rewrite Forall_forall in IH; intros x Hx;
    specialize (IH x (proj2 (list_elem_of_In _ _) Hx)); specialize (Hl x Hx).
  - by apply IH.
  - apply andb_prop in Hl as [-> Hl]. by apply IH.
Qed.

Section Call.
Context {T : Type} (ops : TransportKind -> MCPTransportOps T).

(** One exchange: the request sent and the text received. *)
Lemma exchange_answered (c : MCPClient T) id method params o no_request no_answer t1 t2 answer answer_id result :
  get_transport_ops ops (mc_transport_type c) = Some o -> (Z.abs id < 10 ^ 15)%Z -> json_ok 1 params = true ->
  tr_send o (mc_transport c) (printed (request_json method id params)) = (t1, err_ok) ->
  tr_recv o t1 MCP_REQUEST_TIMEOUT = (t2, Some answer) -> cJSON_Parse answer = Some (answer_json answer_id result) ->
  exists n, mcp_exchange ops c id method (cJSON_PrintUnformatted params) no_request no_answer =
    (set_transport t2 c, (id + 1)%Z, inr (mkResponse n (printed result) [])).
Proof.
  intros Ho Hid Hp Hs Hr Ha. destruct (create_request_ok method id params Hid Hp (json_ok_weaken _ _ Hp)) as [Hreq _].
  unfold mcp_exchange. rewrite Hreq. unfold mcp_client_send. rewrite Ho, Hs. change (is_err err_ok) with false. cbv iota.
  unfold mcp_client_recv. cbn [set_transport mc_transport_type mc_transport]. rewrite Ho, Hr.
  destruct (parse_result_answer answer_id result answer Ha) as [n ->]. by exists n.
Qed.
End Call.

(** C38: A call of a tool sends a JSON-RPC request with the name and the
    arguments, and gives the content of the answer, or its whole result
    without one, whatever the number of the answer: it is not compared with
    the number of the request, so a late answer to an earlier call is taken. *)
Theorem mcp_call_answered {T} (ops : TransportKind -> MCPTransportOps T) c id name args params o :
  mc_connected c = true -> get_transport_ops ops (mc_transport_type c) = Some o ->
  str_ok name = true -> cJSON_Parse args = Some params -> json_ok 2 params = true -> (Z.abs id < 10 ^ 15)%Z ->
  exists request, cJSON_Parse request = Some (request_json MCP_METHOD_TOOLS_CALL id (JObj [($"name", JStr name); ($"arguments", params)])) /\
    forall t1 t2 answer answer_id result, tr_send o (mc_transport c) request = (t1, err_ok) ->
      tr_recv o t1 MCP_REQUEST_TIMEOUT = (t2, Some answer) -> cJSON_Parse answer = Some (answer_json answer_id result) -> json_ok 0 result = true ->
      mcp_client_call_tool ops c id name (Some args) =
        (set_transport t2 c, (id + 1)%Z, inr (match get_object_item (Some result) $"content" with Some content => printed content | None => printed result end)).
Proof.
  intros Hc Ho Hn Ha Hp Hid. set (call := JObj [($"name", JStr name); ($"arguments", params)]).
  assert (Hcall : json_ok 1 call = true).
  { unfold call. cbn [json_ok forallb fst snd]. rewrite Hn, Hp. vm_compute. done. }
  exists (printed (request_json MCP_METHOD_TOOLS_CALL id call)).
  split; [apply create_request_ok; [done|done|by apply json_ok_weaken]|]. intros t1 t2 answer answer_id result Hs Hr Hans Hres.
  unfold mcp_client_call_tool. rewrite Hc, Ha. cbn [negb].
  destruct (exchange_answered ops c id MCP_METHOD_TOOLS_CALL call o no_request_text no_answer_text t1 t2 answer answer_id result Ho Hid Hcall Hs Hr Hans) as [n E].
  fold call. rewrite E. cbn [rp_error rp_result]. unfold call_result. by rewrite (proj2 (printed_ok result Hres)).
Qed.

(** ** The tools that are registered *)

Section Registered.
Context {T W : Type} (tool_exec : tool_fn W MCPToolContext).

Definition tool_of (plugin : option nat) (server_id : cstr) (d : MCPToolDef) : Tool W MCPToolContext :=
  mkTool (mcp_full_name (default [] (td_name d))) (str_new (td_description d)) (td_input_schema d) tool_exec (Some (mkToolCtx server_id (td_name d))) plugin false.

Lemma register_tool_appends (m : Manager W MCPToolContext) reg plugin name desc params exec data : pm_tool_registry m = Some reg ->
  exists reg', pm_tool_registry (fst (plugin_register_tool (fun _ => true) m plugin name desc params exec data)) = Some reg' /\
    reg_tools reg' = reg_tools reg ++ [mkTool (str_new name) (str_new desc) (str_new params) exec data plugin false].
Proof.
  intros Hr. unfold plugin_register_tool, plugin_register_tool_with_destroy. rewrite Hr. unfold tool_registry_register_full.
  destruct (Nat.leb (reg_capacity reg) (length (reg_tools reg))); by eexists.
Qed.

Lemma register_defs_append plugin server_id tools : forall m reg m', pm_tool_registry m = Some reg ->
  register_tool_defs tool_exec (fun _ => true) plugin server_id tools m = Some m' ->
  exists reg', pm_tool_registry m' = Some reg' /\ reg_tools reg' = reg_tools reg ++ (tool_of plugin server_id <$> tools).
Proof.
  induction tools as [|d r IH]; intros m reg m' Hr; cbn [register_tool_defs].
  - intros [= <-]. exists reg. by rewrite app_nil_r.
  - destruct (td_name d) as [name|] eqn:En; [|done]. cbn [mbind option_bind]. intros H.
    destruct (register_tool_appends m reg plugin (Some (mcp_full_name name)) (td_description d) (Some (td_input_schema d)) tool_exec (Some (mkToolCtx server_id (Some name))) Hr)
      as (reg1 & Hr1 & E1). destruct (IH _ reg1 m' Hr1 H) as (reg' & Hr' & E'). exists reg'. split; [done|].
    rewrite E', E1, <- app_assoc. rewrite fmap_cons. unfold tool_of at 2. by rewrite En.
Qed.

Lemma scan_first plugin server_id tools full d : List.find (fun d => str_eq (mcp_full_name (default [] (td_name d))) full) tools = Some d ->
  exists i, tool_scan (tool_of plugin server_id <$> tools) full = Some i /\ (tool_of plugin server_id <$> tools) !! i = Some (tool_of plugin server_id d).
Proof.
  induction tools as [|x r IH]; [done|]. cbn [List.find]. rewrite fmap_cons. cbn [tool_scan tool_of t_name].
  destruct (str_eq (mcp_full_name (default [] (td_name x))) full).
  - intros [= ->]. by exists 0.
  - intros H. destruct (IH H) as (i & -> & Hi). by exists (S i).
Qed.
End Registered.

(** Registering the tools of a server makes each of them found under its
    name with the prefix, for that server; but when a tool of that name is
    there already, of another server or not, the model keeps reaching the
    other one. *)
Theorem mcp_tools_registered {T W} tool_exec plugin (c : MCPClient T) (m m' : Manager W MCPToolContext) reg name d :
  pm_tool_registry m = Some reg -> mcp_register_tools tool_exec (fun _ => true) plugin c m = Some m' ->
  List.find (fun d => str_eq (mcp_full_name (default [] (td_name d))) (mcp_full_name name)) (mc_tools c) = Some d ->
  exists reg', pm_tool_registry m' = Some reg' /\
    tool_registry_get reg' (Some (mcp_full_name name)) =
      match tool_scan (reg_tools reg) (mcp_full_name name) with
      | Some i => reg_tools reg !! i
      | None => Some (tool_of tool_exec plugin (mc_server_id c) d)
      end.
Proof.
  intros Hr Hm Hf. destruct (register_defs_append tool_exec plugin (mc_server_id c) (mc_tools c) m reg m' Hr Hm) as (reg' & Hr' & E).
  exists reg'. split; [done|]. unfold tool_registry_get. cbn [mbind option_bind]. unfold tool_registry_find. rewrite E.
  destruct (tool_scan (reg_tools reg) (mcp_full_name name)) as [i|] eqn:Es.
  - rewrite (tool_scan_app _ _ _ _ Es). cbn [mbind option_bind]. pose proof (tool_scan_spec (reg_tools reg) (mcp_full_name name)) as Hs.
    rewrite Es in Hs. destruct Hs as [(t & Ht & _) _]. rewrite Ht. by apply lookup_app_l_Some.
  - rewrite (tool_scan_app_None _ _ _ Es). destruct (scan_first tool_exec plugin (mc_server_id c) _ _ _ Hf) as (i & -> & Hi).
    cbn [fmap option_fmap option_map mbind option_bind]. rewrite lookup_app_r, Nat.add_comm, Nat.add_sub by lia. done.
Qed.

(** ** Inputs on which the theorems apply *)

(** A transport that gives the texts it holds. *)
Definition demo_ops (_ : TransportKind) : MCPTransportOps (list cstr) :=
  mkOps (fun c => (mc_transport c, err_ok)) (fun t _ => (t, err_ok)) (fun t _ => match t with x :: r => (r, Some x) | [] => ([], None) end) (fun _ => []).

Definition demo_result : json := JObj [($"content", JArr [JObj [($"type", JStr $"text"); ($"text", JStr $"42")]])].
Definition demo_answer : cstr := printed (answer_json (JNum (num_of_Z 1)) demo_result).
Definition demo_client : MCPClient (list cstr) :=
  mkClient $"calc" $"stdio" (Some $"calc-server") [] [] [] [demo_answer] true true [mkToolDef (Some $"add") (Some $"Add numbers") $"{}"] [] [].

Lemma mcp_call_answered_witness :
  exists request, cJSON_Parse request = Some (request_json MCP_METHOD_TOOLS_CALL 7 (JObj [($"name", JStr $"add"); ($"arguments", JArr [JNum (num_of_Z 2)])])) /\
    forall t1 t2 answer answer_id result, tr_send (demo_ops Stdio) (mc_transport demo_client) request = (t1, err_ok) ->
      tr_recv (demo_ops Stdio) t1 MCP_REQUEST_TIMEOUT = (t2, Some answer) -> cJSON_Parse answer = Some (answer_json answer_id result) -> json_ok 0 result = true ->
      mcp_client_call_tool demo_ops demo_client 7 $"add" (Some $"[2]") =
        (set_transport t2 demo_client, (7 + 1)%Z, inr (match get_object_item (Some result) $"content" with Some content => printed content | None => printed result end)).
Proof. apply (mcp_call_answered demo_ops demo_client 7 $"add" $"[2]" (JArr [JNum (num_of_Z 2)]) (demo_ops Stdio)); by vm_compute. Defined.

(** The answer to call 1 is what call 7 gets. *)
Example demo_stale_answer : snd (mcp_client_call_tool demo_ops demo_client 7 $"add" (Some $"[2]")) =
  inr (printed (JArr [JObj [($"type", JStr $"text"); ($"text", JStr $"42")]])).
Proof. vm_compute. reflexivity. Qed.

Definition demo_exec : tool_fn unit MCPToolContext := fun _ _ w => (err_ok, [], w).
Definition mcp_manager : Manager unit MCPToolContext := plugin_manager_new $"/w" None true (Some (mkRegistry [] 8)) None None 0.
Definition demo_registered : Manager unit MCPToolContext := default mcp_manager (mcp_register_tools demo_exec (fun _ => true) (Some 1) demo_client mcp_manager).

Lemma mcp_tools_registered_witness :
  exists reg', pm_tool_registry demo_registered = Some reg' /\
    tool_registry_get reg' (Some (mcp_full_name $"add")) = Some (tool_of demo_exec (Some 1) $"calc" (mkToolDef (Some $"add") (Some $"Add numbers") $"{}")).
Proof.
  apply (mcp_tools_registered demo_exec (Some 1) demo_client mcp_manager demo_registered (mkRegistry [] 8) $"add" (mkToolDef (Some $"add") (Some $"Add numbers") $"{}"));
    [reflexivity|vm_compute; reflexivity|vm_compute; reflexivity].
Defined.

(** The uri of a resource is always read after it was freed. *)
Lemma read_resource_uses_freed_uri uri : str_ok uri = true -> mcp_read_resource_execute (printed (JObj [($"uri", JStr uri)])) = None.
Proof.
  intros Hu. unfold mcp_read_resource_execute.
  assert (Hj : json_ok 0 (JObj [($"uri", JStr uri)]) = true).
  { cbn [json_ok forallb fst snd]. rewrite Hu. vm_compute. done. }
  by rewrite (proj2 (printed_ok _ Hj)).
Qed.
