(* ===== verification/McpStdio.v ===== *)
(** [src/plugins/tools/mcp_tools/transport_stdio.c]: the transport over the
    pipes of a child process. Its reader thread collects lines; what [read]
    gives and whether a new child can be started are arguments, and
    allocations succeed. *)
From S2P Require Import Prelude CStr Json JsonTree Common Mcp.

Definition LINE_BUFFER_SIZE : nat := 4096.
Definition MAX_RECONNECT_ATTEMPTS : nat := 5.

(** [st_line]: the bytes read that are not yet a message; [st_buffer]: the
    messages that were not received yet; [st_sent]: what was written. *)
Record MCPStdioTransport := mkStdio {
  st_running : bool;
  st_line : cstr;
  st_buffer : cstr;
  st_attempts : nat;
  st_sent : cstr;
}.

Definition started (sent : cstr) : MCPStdioTransport := mkStdio true [] [] 0 sent.

(** A message added to the buffer; a line that is not JSON is dropped. *)
Definition push_line (buffer line : cstr) : cstr :=
  match (j ← cJSON_Parse line; cJSON_PrintUnformatted j) with
  | Some text => match buffer with [] => text | _ => buffer ++ [ch_nl] ++ text end
  | None => buffer
  end.

(** [data] was read: one line at most is taken out. *)
Definition reader_data (t : MCPStdioTransport) (data : cstr) : MCPStdioTransport :=
  let line := st_line t ++ data in
  match strchr (take_while not_nul line) ch_nl with
  | Some i => mkStdio (st_running t) (take_while not_nul (drop (i + 1) line)) (push_line (st_buffer t) (take i line)) (st_attempts t) (st_sent t)
  | None => mkStdio (st_running t) line (st_buffer t) (st_attempts t) (st_sent t)
  end.

(** The end of the thread: [reconnects] says whether a new child is started,
    with a thread and buffers of its own. *)
Definition reader_end (reconnects : bool) (t : MCPStdioTransport) : MCPStdioTransport :=
  if st_running t && Nat.leb (st_attempts t + 1) MAX_RECONNECT_ATTEMPTS && reconnects
  then mkStdio true [] [] 0 (st_sent t)
  else mkStdio false (st_line t) (st_buffer t) (st_attempts t + 1) (st_sent t).

Inductive ReadResult := ReadData (data : cstr) | ReadAgain | ReadError | ReadEof.

(** How many bytes the next [read] asks for. *)
Definition room (t : MCPStdioTransport) : nat := LINE_BUFFER_SIZE - length (st_line t) - 1.

(** A read of no bytes gives no bytes, which is taken as the end of the file. *)
Definition reader_step (reconnects : bool) (t : MCPStdioTransport) (r : ReadResult) : MCPStdioTransport :=
  if Nat.eqb (room t) 0 then reader_end reconnects t
  else match r with
       | ReadData data => reader_data t (take (room t) data)
       | ReadAgain => t
       | ReadError | ReadEof => reader_end reconnects t
       end.

Definition mcp_transport_stdio_init (spawned : bool) : option MCPStdioTransport * Error :=
  if spawned then (Some (started []), err_ok) else (None, error_new ERR_CONNECTION (Some $"Failed to fork")).

(** [written]: whether the first [write] succeeds. *)
Definition mcp_transport_stdio_send (written : bool) (t : MCPStdioTransport) (data : cstr) : MCPStdioTransport * Error :=
  if negb (st_running t) then (t, error_new ERR_CONNECTION (Some $"Transport not running"))
  else if written then (mkStdio (st_running t) (st_line t) (st_buffer t) (st_attempts t) (st_sent t ++ data ++ [ch_nl]), err_ok)
  else (t, error_new ERR_CONNECTION (Some $"Failed to write to stdin")).

(** Everything in the buffer, at the end of the wait. *)
Definition mcp_transport_stdio_recv (t : MCPStdioTransport) : MCPStdioTransport * option cstr :=
  if negb (st_running t) then (t, None)
  else match st_buffer t with
       | [] => (t, None)
       | b => (mkStdio (st_running t) (st_line t) [] (st_attempts t) (st_sent t), Some b)
       end.

Definition mcp_transport_stdio_close (t : MCPStdioTransport) : MCPStdioTransport := mkStdio false (st_line t) (st_buffer t) (st_attempts t) (st_sent t).

(** The transport of a client. [before]: what the reader thread does before a
    receive ends. *)
Definition mcp_transport_stdio_ops (spawned written : bool) (before : MCPStdioTransport -> MCPStdioTransport) : MCPTransportOps (option MCPStdioTransport) :=
  mkOps (fun c => match mc_command c with
                  | None => (mc_transport c, error_new ERR_INVALID_PARAM (Some $"Invalid client or command"))
                  | Some _ => match mcp_transport_stdio_init spawned with (Some t, e) => (Some t, e) | (None, e) => (mc_transport c, e) end
                  end)
        (fun s data => match s with
                       | None => (None, error_new ERR_INVALID_PARAM (Some $"Invalid client or transport"))
                       | Some t => let '(t', e) := mcp_transport_stdio_send written t data in (Some t', e)
                       end)
        (fun s _ => match s with None => (None, None) | Some t => let '(t', r) := mcp_transport_stdio_recv (before t) in (Some t', r) end)
        (fun _ => None).

(** ** Lines *)

(** The complete lines of a text, and the rest. *)
Fixpoint split_nl (s : cstr) : list cstr * cstr :=
  match s with
  | [] => ([], [])
  | c :: r =>
      let '(l, t) := split_nl r in
      if bool_decide (c = ch_nl) then ([] :: l, t)
      else match l with [] => ([], c :: t) | x :: l' => ((c :: x) :: l', t) end
  end.

Lemma split_nl_app s t : split_nl (s ++ t) =
  (fst (split_nl s) ++ fst (split_nl (snd (split_nl s) ++ t)), snd (split_nl (snd (split_nl s) ++ t))).
Proof.
  induction s as [|c s IH]; [cbn; by destruct (split_nl t)|]. cbn [app split_nl]. rewrite IH. destruct (split_nl s) as [l u]. cbn [fst snd].
  destruct (bool_decide (c = ch_nl)) eqn:Ec; [done|]. destruct l as [|x l]; cbn [app fst snd split_nl]; [|done].
  rewrite Ec. destruct (split_nl (u ++ t)) as [[|y l'] v]; done.
Qed.

Lemma split_nl_rest s : split_nl (snd (split_nl s)) = ([], snd (split_nl s)).
Proof.
  induction s as [|c s IH]; [done|]. cbn [split_nl]. destruct (split_nl s) as [l u]. cbn [snd] in IH.
  destruct (bool_decide (c = ch_nl)) eqn:Ec; [done|]. destruct l; cbn [snd]; [|done]. cbn [split_nl]. by rewrite IH, Ec.
Qed.

Lemma split_nl_strchr s : match strchr s ch_nl with
  | Some i => split_nl s = (take i s :: fst (split_nl (drop (i + 1) s)), snd (split_nl (drop (i + 1) s)))
  | None => split_nl s = ([], s)
  end.
Proof.
  induction s as [|c s IH]; [done|]. cbn [strchr split_nl]. destruct (bool_decide (c = ch_nl)) eqn:Ec.
  - change (drop (0 + 1) (c :: s)) with s. by destruct (split_nl s).
  - destruct (strchr s ch_nl) as [i|]; cbn [fmap option_fmap option_map]; rewrite IH; done.
Qed.

(** A read that completes one line at most. *)
Definition one_line (data : cstr) : bool := Nat.leb (length (fst (split_nl data))) 1.

Lemma split_nl_no_line s t : split_nl s = ([], s) -> fst (split_nl (s ++ t)) = [] \/ length (fst (split_nl (s ++ t))) = length (fst (split_nl t)).
Proof.
  revert t. induction s as [|c s IH]; intros t; [by right|]. cbn [app split_nl]. destruct (split_nl s) as [l u] eqn:Es.
  destruct (bool_decide (c = ch_nl)); [done|]. destruct l as [|x l]; [|done]. intros [= ->]. specialize (IH t eq_refl).
  destruct (split_nl (s ++ t)) as [[|y l'] v]; [by left|]. right. destruct IH as [IH|IH]; [done|]. by rewrite <- IH.
Qed.

Lemma push_line_eq buffer line : push_line buffer line =
  match (j ← cJSON_Parse line; cJSON_PrintUnformatted j) with
  | Some text => match buffer with [] => text | _ => buffer ++ [ch_nl] ++ text end
  | None => buffer
  end.
Proof. reflexivity. Qed.

#[local] Opaque push_line.

Lemma reader_data_split t data : ("000"%char ∉ st_line t ++ data) -> split_nl (st_line t) = ([], st_line t) -> one_line data = true ->
  reader_data t data = mkStdio (st_running t) (snd (split_nl (st_line t ++ data)))
    (fold_left push_line (fst (split_nl (st_line t ++ data))) (st_buffer t)) (st_attempts t) (st_sent t).
Proof.
  intros Hnul Hline H1. unfold reader_data. rewrite take_while_not_nul by done. pose proof (split_nl_strchr (st_line t ++ data)) as Hs.
  destruct (strchr (st_line t ++ data) ch_nl) as [i|] eqn:Ei; [|by rewrite Hs].
  pose proof (split_nl_no_line (st_line t) data Hline) as Hlen. apply Nat.leb_le in H1.
  rewrite take_while_not_nul by (intros H; eapply Hnul, elem_of_sublist; [exact H|apply sublist_drop]).
  rewrite Hs in Hlen |- *. cbn [fst snd] in *. destruct Hlen as [|Hlen]; [done|]. cbn [length] in Hlen.
  pose proof (split_nl_strchr (drop (i + 1) (st_line t ++ data))) as Hr. destruct (strchr (drop (i + 1) (st_line t ++ data)) ch_nl).
  - rewrite Hr in Hlen. cbn [fst length] in Hlen. lia.
  - by rewrite Hr.
Qed.

Lemma split_nl_rest_in s x : x ∈ snd (split_nl s) -> x ∈ s.
Proof.
  induction s as [|c s IH]; [done|]. cbn [split_nl]. destruct (split_nl s) as [l u]. cbn [snd] in IH.
  destruct (bool_decide (c = ch_nl)); cbn [snd]; [intros H; right; by apply IH|]. destruct l as [|y l]; cbn [snd]; [|intros H; right; by apply IH].
  intros [->|H]%elem_of_cons; [by left|right; by apply IH].
Qed.

(** Each read gets something, and fits. *)
Fixpoint fits (t : MCPStdioTransport) (reads : list cstr) : bool :=
  match reads with
  | [] => true
  | d :: r => Nat.ltb 0 (length d) && Nat.leb (length d) (room t) && fits (reader_data t d) r
  end.

Definition run_reads (reads : list cstr) (t : MCPStdioTransport) : MCPStdioTransport :=
  fold_left (fun t d => reader_step false t (ReadData d)) reads t.

Lemma run_reads_split reads : forall t, split_nl (st_line t) = ([], st_line t) -> ("000"%char ∉ st_line t ++ concat reads) ->
  Forall (fun d => one_line d = true) reads -> fits t reads = true ->
  run_reads reads t = mkStdio (st_running t) (snd (split_nl (st_line t ++ concat reads)))
    (fold_left push_line (fst (split_nl (st_line t ++ concat reads))) (st_buffer t)) (st_attempts t) (st_sent t).
Proof.
  induction reads as [|d r IH]; intros t Hl Hnul H1 Hf.
  - cbn [concat]. rewrite app_nil_r, Hl. by destruct t.
  - apply Forall_cons in H1 as [Hd H1]. cbn [fits] in Hf. apply andb_prop in Hf as [[H0%Nat.ltb_lt Hr%Nat.leb_le]%andb_prop Hf].
    cbn [concat] in Hnul |- *. change (run_reads (d :: r) t) with (run_reads r (reader_step false t (ReadData d))).
    unfold reader_step. rewrite (proj2 (Nat.eqb_neq _ _)) by lia. rewrite take_ge by lia.
    assert (Hnd : "000"%char ∉ st_line t ++ d) by (intros H; apply Hnul; rewrite app_assoc; apply elem_of_app; by left).
    rewrite reader_data_split in Hf |- * by done. rewrite IH; [|cbn [st_line]|cbn [st_line]|done|done].
    + cbn [st_running st_line st_buffer st_attempts st_sent]. rewrite (app_assoc (st_line t) d), (split_nl_app (st_line t ++ d)).
      cbn [fst snd]. by rewrite fold_left_app.
    + apply split_nl_rest.
    + intros [H|H]%elem_of_app; apply Hnul; rewrite app_assoc; apply elem_of_app; [left; by apply split_nl_rest_in|by right].
Qed.

(** ** Messages *)

Definition message_line (j : json) : cstr := printed j ++ [ch_nl].

Lemma message_line_eq j : message_line j = printed j ++ [ch_nl].
Proof. reflexivity. Qed.

#[local] Opaque printed message_line.

(** The messages as they are received together. *)
Definition joined (js : list json) : cstr := match js with [] => [] | j :: r => printed j ++ (r ≫= fun j => ch_nl :: printed j) end.

Lemma printed_line j : json_ok 0 j = true -> (ch_nl ∉ printed j) /\ ("000"%char ∉ printed j) /\ printed j <> [].
Proof.
  intros Hj. destruct (printed_ok j Hj) as [Hp _]. destruct (unformatted_line j Hj) as (t & Ht & Hpr & Hlen & _). rewrite Ht in Hp. injection Hp as Hp.
  rewrite Hp in *. unfold printable in Hpr. rewrite Forall_forall in Hpr. split_and!.
  - intros H. apply Hpr in H. by vm_compute in H.
  - intros H. apply Hpr in H. by vm_compute in H.
  - intros E. rewrite E in Hlen. cbn in Hlen. lia.
Qed.

Lemma printed_nonempty j : json_ok 0 j = true -> printed j <> [].
Proof. intros Hj. exact (proj2 (proj2 (printed_line j Hj))). Qed.

Lemma parse_printed j : json_ok 0 j = true -> (j' ← cJSON_Parse (printed j); cJSON_PrintUnformatted j') = Some (printed j).
Proof.
  intros Hj. destruct (printed_ok j Hj) as [Hp Hparse]. rewrite Hparse. exact Hp.
Qed.

Lemma push_first j : json_ok 0 j = true -> push_line [] (printed j) = printed j.
Proof. intros Hj. rewrite push_line_eq, (parse_printed j Hj). reflexivity. Qed.

Lemma push_next j b : json_ok 0 j = true -> b <> [] -> push_line b (printed j) = b ++ [ch_nl] ++ printed j.
Proof. intros Hj Hb. rewrite push_line_eq, (parse_printed j Hj). destruct b; [by destruct Hb|reflexivity]. Qed.

Lemma split_line line s : ch_nl ∉ line -> split_nl (line ++ ch_nl :: s) = (line :: fst (split_nl s), snd (split_nl s)).
Proof.
  induction line as [|c line IH]; cbn [app split_nl].
  - intros _. destruct (split_nl s). by rewrite bool_decide_eq_true_2.
  - intros [Hc Hl]%not_elem_of_cons. rewrite IH by done. by rewrite bool_decide_eq_false_2 by congruence.
Qed.

Lemma split_messages js : Forall (fun j => json_ok 0 j = true) js -> split_nl (js ≫= message_line) = (printed <$> js, []).
Proof.
  induction js as [|j js IH]; [done|]. intros [Hj Hjs]%Forall_cons. rewrite bind_cons, fmap_cons, message_line_eq.
  rewrite <- app_assoc. cbn [app]. rewrite split_line by (by apply printed_line). by rewrite IH.
Qed.

(** Texts gathered by a function that joins them with newlines. *)
Section fold_join.
Context {A : Type} (f : cstr -> cstr -> cstr) (g : A -> cstr) (ok : A -> Prop).
Context (Hfirst : forall x, ok x -> f [] (g x) = g x) (Hnext : forall x b, ok x -> b <> [] -> f b (g x) = b ++ [ch_nl] ++ g x).
Context (Hne : forall x, ok x -> g x <> []).

Lemma fold_join l : Forall ok l -> forall b, b <> [] -> fold_left f (g <$> l) b = b ++ (l ≫= fun x => ch_nl :: g x).
Proof using Hnext.
  induction 1 as [|x l Hx Hl IH]; intros b Hb; [by rewrite app_nil_r|]. rewrite fmap_cons, bind_cons. cbn [fold_left].
  rewrite (Hnext x b Hx Hb), IH by (by destruct b). by rewrite <- !app_assoc.
Qed.

Lemma fold_join_first l : Forall ok l -> fold_left f (g <$> l) [] = match l with [] => [] | x :: r => g x ++ (r ≫= fun x => ch_nl :: g x) end.
Proof using Hfirst Hnext Hne.
  intros [|x r Hx Hr]; [done|]. rewrite fmap_cons. cbn [fold_left]. rewrite (Hfirst x Hx). apply fold_join; [done|by apply Hne].
Qed.
End fold_join.

Lemma push_messages js : Forall (fun j => json_ok 0 j = true) js -> fold_left push_line (printed <$> js) [] = joined js.
Proof.
  intros Hjs. refine (fold_join_first push_line printed (fun j => json_ok 0 j = true) _ _ _ js Hjs).
  - intros x Hx. exact (push_first x Hx).
  - intros x b Hx. exact (push_next x b Hx).
  - intros x Hx. exact (printed_nonempty x Hx).
Qed.

Lemma message_nul_free j : json_ok 0 j = true -> "000"%char ∉ message_line j.
Proof.
  intros Hj. destruct (printed_line j Hj) as (_ & H0 & _). rewrite message_line_eq, not_elem_of_app, list_elem_of_singleton. split; [exact H0|discriminate].
Qed.

Lemma messages_nul_free js : Forall (fun j => json_ok 0 j = true) js -> "000"%char ∉ js ≫= message_line.
Proof.
  induction js as [|j js IH]; [intros _; apply not_elem_of_nil|]. intros [Hj Hjs]%Forall_cons. rewrite bind_cons, not_elem_of_app. split; [by apply message_nul_free|exact (IH Hjs)].
Qed.

(** The messages a server writes, however they are cut into reads, are all
    received in order, provided no read completes two lines and the line being
    read fits the buffer. *)
Theorem stdio_messages_delivered js reads sent : Forall (fun j => json_ok 0 j = true) js -> js <> [] -> concat reads = js ≫= message_line ->
  Forall (fun d => one_line d = true) reads -> fits (started sent) reads = true ->
  run_reads reads (started sent) = mkStdio true [] (joined js) 0 sent /\
  snd (mcp_transport_stdio_recv (run_reads reads (started sent))) = Some (joined js).
Proof.
  intros Hjs Hne Hc H1 Hf.
  assert (E : run_reads reads (started sent) = mkStdio true [] (joined js) 0 sent).
  { rewrite run_reads_split; [|done| |done|done]; cbn [started st_line st_running st_buffer st_attempts st_sent app]; rewrite Hc.
    - rewrite split_messages by done. cbn [fst snd]. by rewrite push_messages.
    - by apply messages_nul_free. }
  split; [done|]. rewrite E. unfold mcp_transport_stdio_recv. cbn [st_running negb st_buffer].
  destruct js as [|j js]; [done|]. apply Forall_cons in Hjs as [Hj _]. pose proof (printed_nonempty j Hj) as Hn. cbn [joined].
  by destruct (printed j).
Qed.

(** When a server writes two messages at once, such as a notification and
    an answer, only the first is taken from the line: the second is not
    received until the server writes again, so the call that waits for it
    times out. *)
Theorem stdio_second_message_stuck j k sent : json_ok 0 j = true -> json_ok 0 k = true -> length (message_line j ++ message_line k) <= LINE_BUFFER_SIZE - 1 ->
  let t := reader_step false (started sent) (ReadData (message_line j ++ message_line k)) in
  mcp_transport_stdio_recv t = (mkStdio true (message_line k) [] 0 sent, Some (printed j)) /\
  forall n, mcp_transport_stdio_recv (Nat.iter n (fun t => reader_step false t ReadAgain) (fst (mcp_transport_stdio_recv t))) = (mkStdio true (message_line k) [] 0 sent, None).
Proof.
  intros Hj Hk Hlen. cbv zeta. destruct (printed_line j Hj) as (Hjn & Hj0 & Hjne).
  assert (E : reader_step false (started sent) (ReadData (message_line j ++ message_line k)) = mkStdio true (message_line k) (printed j) 0 sent).
  { unfold reader_step. change (room (started sent)) with (LINE_BUFFER_SIZE - 1). rewrite (proj2 (Nat.eqb_neq _ _)).
    2: { intros E. rewrite E in Hlen. rewrite !message_line_eq, !length_app in Hlen. cbn [length] in Hlen. lia. }
    rewrite take_ge by done. unfold reader_data. cbn [started st_line st_running st_buffer st_attempts st_sent app].
    rewrite take_while_not_nul.
    2: { intros [H|H]%elem_of_app; revert H; by apply message_nul_free. }
    rewrite (message_line_eq j). rewrite <- !app_assoc. cbn [app]. rewrite strchr_app by done. rewrite take_app_length, (push_first j Hj).
    rewrite (take_while_not_nul (drop _ _)).
    - rewrite drop_app_ge by lia. by replace (length (printed j) + 1 - length (printed j)) with 1 by lia.
    - rewrite drop_app_ge by lia. replace (length (printed j) + 1 - length (printed j)) with 1 by lia. cbn [drop].
      rewrite <- (app_nil_r (message_line k)). apply (messages_nul_free [k]). by repeat constructor. }
  rewrite E. split.
  - unfold mcp_transport_stdio_recv. cbn [st_running negb st_buffer]. by destruct (printed j).
  - assert (Er : fst (mcp_transport_stdio_recv (mkStdio true (message_line k) (printed j) 0 sent)) = mkStdio true (message_line k) [] 0 sent).
    { unfold mcp_transport_stdio_recv. cbn [st_running negb st_buffer]. by destruct (printed j). }
    rewrite Er. intros n. assert (Hi : Nat.iter n (fun t => reader_step false t ReadAgain) (mkStdio true (message_line k) [] 0 sent) = mkStdio true (message_line k) [] 0 sent); [|by rewrite Hi].
    induction n as [|n IH]; [done|]. cbn [Nat.iter nat_rect]. unfold Nat.iter in IH. rewrite IH. unfold reader_step. destruct (Nat.eqb _ 0) eqn:E0; [|done].
    apply Nat.eqb_eq in E0. unfold room in E0. cbn [st_line] in E0. rewrite length_app in Hlen.
    rewrite (message_line_eq j), length_app in Hlen. cbn [length] in Hlen. unfold LINE_BUFFER_SIZE in *. lia.
Qed.

(** A message of [LINE_BUFFER_SIZE - 1] bytes or more is never received:
    the line buffer fills up before the newline, the next read asks for no
    bytes, gets none, and is taken as the end of the file. The transport stops,
    or starts a new child, and what was read is lost. *)
Theorem stdio_long_line_closes reconnects chunk sent r : length chunk = LINE_BUFFER_SIZE - 1 -> ("000"%char ∉ chunk) -> (ch_nl ∉ chunk) ->
  let t := reader_step reconnects (reader_step reconnects (started sent) (ReadData chunk)) r in
  st_buffer t = [] /\ st_running t = reconnects /\ snd (mcp_transport_stdio_recv t) = None.
Proof.
  intros Hlen H0 Hnl. cbv zeta. assert (E : reader_step reconnects (started sent) (ReadData chunk) = mkStdio true chunk [] 0 sent).
  { unfold reader_step. change (room (started sent)) with (LINE_BUFFER_SIZE - 1). rewrite (proj2 (Nat.eqb_neq _ _)) by (unfold LINE_BUFFER_SIZE; lia).
    rewrite take_ge by lia. unfold reader_data. cbn [started st_line st_running st_buffer st_attempts st_sent app].
    rewrite take_while_not_nul by done. by rewrite (proj2 (strchr_None chunk ch_nl)). }
  assert (E2 : reader_step reconnects (mkStdio true chunk [] 0 sent) r = reader_end reconnects (mkStdio true chunk [] 0 sent)).
  { unfold reader_step, room. cbn [st_line]. rewrite Hlen. reflexivity. }
  rewrite E, E2. by destruct reconnects.
Qed.

Definition demo_notice : json := JObj [($"jsonrpc", JStr $"2.0"); ($"method", JStr $"notifications/progress")].

Lemma stdio_second_message_stuck_witness :
  snd (mcp_transport_stdio_recv (reader_step false (started []) (ReadData (message_line demo_notice ++ message_line demo_notice)))) = Some (printed demo_notice).
Proof.
  pose proof (stdio_second_message_stuck demo_notice demo_notice [] ltac:(by vm_compute) ltac:(by vm_compute) ltac:(apply (bool_decide_unpack _); by vm_compute)) as [H _].
  by rewrite H.
Defined.

Lemma stdio_messages_delivered_witness :
  snd (mcp_transport_stdio_recv (run_reads [take 10 (message_line demo_notice); drop 10 (message_line demo_notice); message_line demo_notice] (started [])))
  = Some (joined [demo_notice; demo_notice]).
Proof.
  refine (proj2 (stdio_messages_delivered [demo_notice; demo_notice] _ [] _ _ _ _ _)); [by repeat constructor|done| | |].
  - by vm_compute.
  - by repeat constructor.
  - by vm_compute.
Defined.

Lemma stdio_long_line_closes_witness :
  st_running (reader_step false (reader_step false (started []) (ReadData (repeat "x"%char 4095))) ReadAgain) = false.
Proof.
  refine (proj1 (proj2 (stdio_long_line_closes false (repeat "x"%char 4095) [] ReadAgain _ _ _))).
  - apply repeat_length.
  - apply (bool_decide_unpack _). by vm_compute.
  - apply (bool_decide_unpack _). by vm_compute.
Defined.
