(* ===== verification/McpHttp.v ===== *)
(** [src/plugins/tools/mcp_tools/transport_streamable_http.c] and what the
    network transports share: the queue of received messages, and the request
    that carries a message to the server. [network n r] gives the events of
    the connection of the n-th request up to its end ([mg_mgr_free] ends what
    is left), [None] when it cannot be made; [error_text] is what the library
    says of an error. Allocations succeed. *)
From S2P Require Import Prelude CStr Json Common Mcp McpStdio ProviderAsync Protobuf DingTalkWs Mongoose MongooseHttp ChannelHttp.
Open Scope nat_scope.

(** ** The queue: texts with a newline between them *)

Definition queue_append (buffer msg : cstr) : cstr :=
  match msg with
  | [] => buffer
  | _ => match buffer with [] => msg | _ => buffer ++ [ch_nl] ++ msg end
  end.

Definition queue_pop (buffer : cstr) : option (cstr * cstr) :=
  match buffer with
  | [] => None
  | _ => match strchr buffer ch_nl with
         | Some i => Some (take i buffer, drop (i + 1) buffer)
         | None => Some (buffer, [])
         end
  end.

(** A text is queued as it is printed; one that does not parse is dropped. *)
Definition enqueue_json (buffer text : cstr) : cstr :=
  match text with
  | [] => buffer
  | _ => match cJSON_Parse text with
         | None => buffer
         | Some j => queue_append buffer (default text (cJSON_PrintUnformatted j))
         end
  end.

(** ** A request *)

Definition is_reserved_http_header (key : cstr) : bool := strcasecmp_eq key $"Host" || strcasecmp_eq key $"Content-Length".
Definition custom_headers (headers : list (cstr * cstr)) : cstr :=
  headers ≫= fun '(k, v) => if is_reserved_http_header k then [] else k ++ $": " ++ v ++ crlf.

Definition line_of (l : cstr) : cstr := l ++ crlf.

(** [get_header_value_ci] into a block of 1024 bytes. *)
Definition get_header_value_ci (hm : HttpMessage) (name : cstr) : option cstr :=
  truncate_to 1024 <$> mg_http_get_header hm name.

(** [MCPSSEPostContext] and [MCPStreamableHttpPostContext]; the first has no
    content type. *)
Record PostContext := mkPost { pc_done : bool; pc_ok : bool; pc_status : Z; pc_error : cstr; pc_body : option cstr; pc_session : option cstr; pc_type : cstr }.
Definition post_start : PostContext := mkPost false false 0 [] None None [].

Definition status_ok (status : Z) : bool := (200 <=? status)%Z && (status <? 300)%Z.
Definition nonempty_or (o : option cstr) (d : option cstr) : option cstr := match o with Some (_ :: _) => o | _ => d end.

Section Post.
Context (error_text : cstr).

Definition post_event (ctx : PostContext) (ev : user_event) : PostContext :=
  match ev with
  | UeHdrs h =>
      mkPost (pc_done ctx) (pc_ok ctx) (hh_status h) (pc_error ctx) (pc_body ctx)
        (nonempty_or (c_string <$> get_header_value_ci (hh_message h) $"mcp-session-id") (pc_session ctx))
        (truncate_to 128 (default (pc_type ctx) (nonempty_or (c_string <$> get_header_value_ci (hh_message h) $"content-type") None)))
  | UeMsg h body =>
      mkPost true (status_ok (hh_status h)) (hh_status h) (pc_error ctx) (match body with [] => pc_body ctx | _ => Some (c_string body) end) (pc_session ctx) (pc_type ctx)
  | UeError => mkPost true false (pc_status ctx) (truncate_to 256 error_text) (pc_body ctx) (pc_session ctx) (pc_type ctx)
  | UeClose =>
      if pc_done ctx then ctx
      else mkPost true (status_ok (pc_status ctx)) (pc_status ctx) (pc_error ctx) (pc_body ctx) (pc_session ctx) (pc_type ctx)
  | _ => ctx
  end.

(** The connection is over when the result is looked at. *)
Definition post_result (events : list user_event) : PostContext := post_event (fold_left post_event events post_start) UeClose.

(** The message in the answer of a request that failed. *)
Definition parsed_message (body : option cstr) : cstr :=
  match body with
  | None | Some [] => []
  | Some b =>
      match cJSON_Parse b with
      | None => []
      | Some j =>
          let item name := is_string (get_object_item (Some j) name) in
          truncate_to 256 (default [] (match item $"Message" with Some m => Some m | None => item $"message" end))
      end
  end.
Definition contains (s sub : cstr) : bool := match strstr s sub with Some _ => true | None => false end.
Definition says_expired (s : cstr) : bool := contains s $"expired" && contains s $"session".
Definition session_expired (ctx : PostContext) : bool :=
  says_expired (parsed_message (pc_body ctx)) || match pc_body ctx with Some b => says_expired b | None => false end.

Definition post_error (what : cstr) (ctx : PostContext) : Error :=
  error_new ERR_CONNECTION (Some (match parsed_message (pc_body ctx), pc_error ctx with
                                  | (_ :: _) as m, _ => m
                                  | [], (_ :: _) as e => e
                                  | [], [] => truncate_to 128 (what ++ $" failed, status " ++ fmt_d (pc_status ctx))
                                  end)).

(** What differs between the two transports: the version, the name of the
    header with the session, the name in errors, and whether an address with
    /sse that refuses the method is tried again with /mcp. *)
Record PostKind := mkKind { pk_version : cstr; pk_session_header : cstr; pk_name : cstr; pk_connect_error : cstr; pk_fallback : bool }.
Definition sse_post : PostKind := mkKind $"1.0" $"Mcp-Session-Id" $"SSE POST" $"Failed to create SSE POST connection" true.
Definition streamable_post : PostKind := mkKind $"1.1" $"MCP-Session-Id" $"Streamable HTTP" $"Failed to create streamable_http connection" false.

Context (kind : PostKind) (headers : list (cstr * cstr)).

Definition mcp_post_request (url : cstr) (session : option cstr) (data : cstr) : WebRequest :=
  mkWebRequest url (mg_url_is_ssl url)
    (line_of ($"POST " ++ mg_url_uri url ++ $" HTTP/" ++ pk_version kind) ++ line_of ($"Host: " ++ mg_url_host url) ++
     line_of $"Content-Type: application/json" ++ line_of $"Accept: application/json, text/event-stream" ++
     line_of ($"MCP-Protocol-Version: " ++ MCP_PROTOCOL_VERSION) ++
     (match session with Some ((_ :: _) as s) => line_of (pk_session_header kind ++ $": " ++ s) | _ => [] end) ++
     line_of ($"Content-Length: " ++ fmt_d (wrap_s 32 (Z.of_nat (length data)))) ++ custom_headers headers ++ crlf ++ data).

(** The address with /mcp in place of the first /sse and what follows. *)
Definition fallback_url (url : cstr) : option cstr :=
  i ← strstr url $"/sse"; if Nat.ltb (i + 5) 1024 then Some (take i url ++ $"/mcp") else None.

(** The session to use from now on, how it ended, the requests. *)
Inductive post_end := PostSent (ctx : PostContext) | PostFailed (err : Error).

Section Net.
Context (network : nat -> WebRequest -> option (list user_event)).

(** The loop of [retry_send]. [None]: out of fuel. *)
Fixpoint post_loop (fuel : nat) (url : cstr) (session : option cstr) (retried_mcp retried_expired : bool) (data : cstr) (log : list WebRequest) :
    option (option cstr * post_end * list WebRequest) :=
  match fuel with
  | 0 => None
  | S f =>
      let r := mcp_post_request url session data in
      match network (length log) r with
      | None => Some (session, PostFailed (error_new ERR_CONNECTION (Some (pk_connect_error kind))), log ++ [r])
      | Some events =>
          let ctx := post_result events in
          let log := log ++ [r] in
          if pc_ok ctx then Some (nonempty_or (pc_session ctx) session, PostSent ctx, log)
          else
            match (if pk_fallback kind && negb retried_mcp && (pc_status ctx =? 405)%Z then fallback_url url else None) with
            | Some url' => post_loop f url' session true retried_expired data log
            | None =>
                if negb retried_expired && bool_decide (is_Some session) && session_expired ctx
                then post_loop f url None retried_mcp true data log
                else Some (session, PostFailed (post_error (pk_name kind) ctx), log)
            end
      end
  end.
End Net.
End Post.

(** Each kind of retry happens once: three requests at most. *)
Definition post_fuel : nat := 3.

(** ** The streamable transport *)

Record MCPStreamableHttpTransport := mkStreamable { sh_queue : cstr; sh_session : option cstr }.

Definition is_newline (c : ascii) : bool := bool_decide (c = ch_nl).
Definition drop_cr (line : cstr) : cstr := match rev line with c :: r => if bool_decide (c = ch_cr) then rev r else line | [] => [] end.
Definition strip_eol (s : cstr) : cstr := drop_tail (fun c => bool_decide (c = ch_nl) || bool_decide (c = ch_cr)) s.
Definition data_payload (line : cstr) : cstr := match drop 5 line with " "%char :: r => r | p => p end.

(** A line of the stream: the data of the event so far, the queue. *)
Definition enqueue_line (s : cstr * cstr) (line : cstr) : cstr * cstr :=
  let '(event_data, queue) := s in
  match drop_cr line with
  | [] => match event_data with
          | [] => s
          | _ => let text := strip_eol event_data in ([], if str_eq text $"[DONE]" then queue else enqueue_json queue text)
          end
  | l => if starts_with $"data:" l then (event_data ++ data_payload l ++ [ch_nl], queue) else s
  end.

(** The lines are those [strtok_r] gives. *)
Definition streamable_http_enqueue_sse (queue body : cstr) : cstr :=
  let '(event_data, queue) := fold_left enqueue_line (strtok is_newline body) ([], queue) in
  match strip_eol event_data with
  | [] => queue
  | text => if str_eq text $"[DONE]" then queue else enqueue_json queue text
  end.

Definition mcp_transport_streamable_http_init (command : option cstr) : option MCPStreamableHttpTransport * Error :=
  match command with
  | None | Some [] => (None, error_new ERR_INVALID_PARAM (Some $"Invalid streamable_http URL"))
  | Some _ => (Some (mkStreamable [] None), err_ok)
  end.

(** The address to post to: the first argument, when it is given. *)
Definition request_url (command : cstr) (args : list cstr) : cstr := match args with ((_ :: _) as a) :: _ => a | _ => command end.

Definition streamable_answer (queue : cstr) (ctx : PostContext) : cstr :=
  match pc_body ctx with
  | None | Some [] => queue
  | Some body => if contains (pc_type ctx) $"text/event-stream" then streamable_http_enqueue_sse queue body else enqueue_json queue body
  end.

Definition mcp_transport_streamable_http_send (error_text : cstr) (network : nat -> WebRequest -> option (list user_event)) (command : cstr) (args : list cstr)
    (headers : list (cstr * cstr)) (t : MCPStreamableHttpTransport) (data : cstr) (log : list WebRequest) : option (MCPStreamableHttpTransport * Error * list WebRequest) :=
  match post_loop error_text streamable_post headers network post_fuel (request_url command args) (sh_session t) false false data log with
  | None => None
  | Some (session, PostSent ctx, log) => Some (mkStreamable (streamable_answer (sh_queue t) ctx) session, err_ok, log)
  | Some (session, PostFailed err, log) => Some (mkStreamable (sh_queue t) session, err, log)
  end.

(** The oldest message, at the end of the wait. *)
Definition mcp_transport_streamable_http_recv (t : MCPStreamableHttpTransport) : MCPStreamableHttpTransport * option cstr :=
  match queue_pop (sh_queue t) with
  | Some (m, q) => (mkStreamable q (sh_session t), Some m)
  | None => (t, None)
  end.

(** ** The loop ends *)

Section Loop.
Context (error_text : cstr) (kind : PostKind) (headers : list (cstr * cstr)) (network : nat -> WebRequest -> option (list user_event)).

(** The retries that are left. *)
Definition retries (retried_mcp retried_expired : bool) : nat := (if retried_mcp then 0 else 1) + (if retried_expired then 0 else 1).

Lemma post_loop_ends fuel : forall url session rm re data log, retries rm re < fuel ->
  exists s e rs, post_loop error_text kind headers network fuel url session rm re data log = Some (s, e, log ++ rs) /\ 1 <= length rs <= S (retries rm re).
Proof.
  induction fuel as [|f IH]; intros url session rm re data log Hf; [lia|]. cbn [post_loop].
  destruct (network _ _) as [events|]; [|eexists _, _, [_]; split; [reflexivity|cbn; lia]].
  set (ctx := post_result error_text events). destruct (pc_ok ctx); [eexists _, _, [_]; split; [reflexivity|cbn; lia]|].
  destruct (if pk_fallback kind && negb rm && (pc_status ctx =? 405)%Z then fallback_url url else None) as [url'|] eqn:Ef.
  - destruct rm; [rewrite andb_false_r in Ef; done|]. destruct (IH url' session true re data (log ++ [mcp_post_request kind headers url session data])) as (s & e & rs & E & Hn); [unfold retries in *; lia|].
    eexists s, e, (_ :: rs). rewrite E, <-app_assoc. split; [reflexivity|]. cbn [length]. unfold retries in *. lia.
  - destruct (negb re && _ && _) eqn:Ee; [|eexists _, _, [_]; split; [reflexivity|cbn; lia]]. destruct re; [done|].
    destruct (IH url None rm true data (log ++ [mcp_post_request kind headers url session data])) as (s & e & rs & E & Hn); [unfold retries in *; lia|].
    eexists s, e, (_ :: rs). rewrite E, <-app_assoc. split; [reflexivity|]. cbn [length]. unfold retries in *. lia.
Qed.
End Loop.

(** A message is posted three times at most, whatever the servers answer. *)
Lemma post_loop_total error_text kind headers network url session data log : exists s e rs,
  post_loop error_text kind headers network post_fuel url session false false data log = Some (s, e, log ++ rs) /\ 1 <= length rs <= 3.
Proof. apply (post_loop_ends error_text kind headers network post_fuel url session false false data log). unfold retries, post_fuel. lia. Qed.

(** ** The queue is first in, first out *)

Definition queue_of (msgs : list cstr) : cstr := match msgs with [] => [] | m :: r => m ++ (r ≫= fun m : cstr => ch_nl :: m) end.
Definition message_ok (m : cstr) : Prop := m <> [] /\ ch_nl ∉ m.

Lemma queue_append_of msgs m : Forall message_ok msgs -> message_ok m -> queue_append (queue_of msgs) m = queue_of (msgs ++ [m]).
Proof.
  intros Hms [Hm _]. destruct msgs as [|x r]; cbn [queue_of app].
  - destruct m; [done|]. cbn. by rewrite app_nil_r.
  - apply Forall_cons in Hms as [[Hx _] _]. destruct m as [|c m]; [done|]. cbn [queue_append]. destruct x as [|a x]; [done|]. cbn [app].
    rewrite bind_app. cbn [mbind list_bind app]. rewrite app_nil_r, <-app_assoc. reflexivity.
Qed.

Lemma queue_pop_of m msgs : message_ok m -> queue_pop (queue_of (m :: msgs)) = Some (m, queue_of msgs).
Proof.
  intros [Hm Hnl]. cbn [queue_of]. unfold queue_pop. destruct msgs as [|x r].
  - cbn. rewrite app_nil_r. destruct m as [|c m]; [done|]. by rewrite (proj2 (strchr_None _ _) Hnl).
  - rewrite bind_cons. cbn [app]. destruct (m ++ ch_nl :: x ++ (r ≫= fun m : cstr => ch_nl :: m)) as [|c t] eqn:E; [by destruct m|]. rewrite <-E.
    rewrite strchr_app by done. rewrite take_app_length. do 2 f_equal. rewrite cons_middle, app_assoc. change 1 with (length [ch_nl]). by rewrite <-length_app, drop_app_length.
Qed.

(** The texts of messages. *)
Lemma printed_message j : json_ok 0 j = true -> message_ok (printed j).
Proof. intros H. destruct (printed_line j H) as (H1 & _ & H2). by split. Qed.

Lemma enqueue_printed msgs j : Forall message_ok msgs -> json_ok 0 j = true -> enqueue_json (queue_of msgs) (printed j) = queue_of (msgs ++ [printed j]).
Proof.
  intros Hms Hj. destruct (printed_ok j Hj) as [Hp Hparse]. unfold enqueue_json. destruct (printed j) as [|c t] eqn:E.
  - destruct (printed_message j Hj) as [H _]. by rewrite E in H.
  - rewrite Hparse, Hp. cbn [default]. unfold id. rewrite <-E. apply queue_append_of; [done|by apply printed_message].
Qed.

(** A text that begins with the text of a message counts as it. *)
Lemma enqueue_printed_more msgs j rest : Forall message_ok msgs -> json_ok 0 j = true -> num_stop rest ->
  enqueue_json (queue_of msgs) (printed j ++ rest) = queue_of (msgs ++ [printed j]).
Proof.
  intros Hms Hj Hr. destruct (unformatted_line j Hj) as (t & Ht & _ & Hlen & Hp). assert (printed j = t) as Ej by (unfold printed; by rewrite Ht).
  unfold enqueue_json. rewrite Ej. destruct (t ++ rest) as [|c u] eqn:E; [apply app_nil in E as [-> _]; cbn in Hlen; lia|].
  rewrite <-E, Hp, Ht by done. cbn [default]. unfold id. apply queue_append_of; [done|]. rewrite <-Ej. by apply printed_message.
Qed.

(** ** Streams of events in an answer *)

Definition eol_free (s : cstr) : Prop := Forall (fun c => bool_decide (c = ch_nl) || bool_decide (c = ch_cr) = false) s.

Lemma printed_eol_free j : json_ok 0 j = true -> eol_free (printed j).
Proof.
  intros Hj. destruct (unformatted_line j Hj) as (t & Ht & Hpr & _). unfold printed. rewrite Ht. cbn [str_new default]. unfold str_new. cbn [default]. unfold id.
  eapply Forall_impl; [exact Hpr|]. intros c Hc. apply orb_false_iff. split; apply bool_decide_eq_false; intros ->; by vm_compute in Hc.
Qed.


Lemma strip_eol_nl s : eol_free s -> strip_eol (s ++ [ch_nl]) = s.
Proof.
  intros H. unfold strip_eol, drop_tail. rewrite rev_app_distr. change (rev [ch_nl]) with [ch_nl]. cbn [app drop_while].
  rewrite bool_decide_eq_true_2 by done. cbn [orb]. assert (eol_free (rev s)) as Hr by (by apply List.Forall_rev).
  destruct (rev s) as [|a r] eqn:E; [by apply (f_equal (@rev ascii)) in E; rewrite rev_involutive in E; subst|].
  apply Forall_cons in Hr as [Ha _]. rewrite drop_while_id by done. by rewrite <-E, rev_involutive.
Qed.

Lemma drop_cr_plain s : eol_free s -> drop_cr s = s.
Proof.
  intros H. unfold drop_cr. destruct (rev s) as [|c r] eqn:E; [by apply (f_equal (@rev ascii)) in E; rewrite rev_involutive in E; subst|].
  apply List.Forall_rev in H. rewrite E in H. apply Forall_cons in H as [[_ Hc]%orb_false_iff _]. by rewrite Hc.
Qed.

Lemma drop_cr_cr s : drop_cr (s ++ [ch_cr]) = s.
Proof. unfold drop_cr. rewrite rev_app_distr. cbn. by rewrite rev_involutive. Qed.

Lemma strtok_line w s : w <> [] -> ch_nl ∉ w -> strtok is_newline (w ++ ch_nl :: s) = w :: strtok is_newline s.
Proof.
  intros Hw Hn. unfold strtok. enough (forall cur, strtok_aux is_newline cur (w ++ ch_nl :: s) = (if rev w ++ cur is [] then [] else [rev (rev w ++ cur)]) ++ strtok_aux is_newline [] s) as H.
  { rewrite H, app_nil_r, rev_involutive. destruct (rev w) eqn:E; [|done]. by apply (f_equal (@rev ascii)) in E; rewrite rev_involutive in E; subst. }
  clear Hw. induction w as [|c w IH]; intros cur; cbn [app rev strtok_aux].
  - unfold is_newline at 1. by rewrite bool_decide_eq_true_2.
  - apply not_elem_of_cons in Hn as [Hc Hn]. unfold is_newline at 1. rewrite bool_decide_eq_false_2 by congruence. rewrite IH by done. by rewrite <-app_assoc.
Qed.

Lemma strtok_blank s : strtok is_newline (ch_nl :: s) = strtok is_newline s.
Proof. unfold strtok. cbn [strtok_aux]. unfold is_newline at 1. by rewrite bool_decide_eq_true_2. Qed.

(** An event with one line of data, and a line end of the server's choice. *)
Definition sse_event (eol : cstr) (text : cstr) : cstr := $"data: " ++ text ++ eol ++ eol.
Definition lf : cstr := [ch_nl].

Lemma sse_data_line text : data_payload ($"data: " ++ text) = text.
Proof. reflexivity. Qed.

Lemma not_done j : json_ok 0 j = true -> str_eq (printed j) $"[DONE]" = false.
Proof.
  intros Hj. apply bool_decide_eq_false. intros E. destruct (printed_ok j Hj) as [_ Hp]. rewrite E in Hp.
  assert (cJSON_Parse $"[DONE]" = None) as Hn by (by vm_compute). by rewrite Hn in Hp.
Qed.

Lemma data_eol_free text : eol_free text -> eol_free ($"data: " ++ text).
Proof. intros H. apply Forall_app. split; [|done]. repeat constructor. Qed.

Lemma eol_free_nl s : eol_free s -> ch_nl ∉ s.
Proof. intros H Hin. unfold eol_free in H. rewrite Forall_forall in H. apply H in Hin. by rewrite bool_decide_eq_true_2 in Hin. Qed.

Lemma enqueue_data l text e q : drop_cr l = $"data: " ++ text -> enqueue_line (e, q) l = (e ++ text ++ [ch_nl], q).
Proof. intros H. unfold enqueue_line. by rewrite H. Qed.

Lemma enqueue_blank j msgs : json_ok 0 j = true -> Forall message_ok msgs ->
  enqueue_line (printed j ++ [ch_nl], queue_of msgs) [ch_cr] = ([], queue_of (msgs ++ [printed j])).
Proof.
  intros Hj Hms. unfold enqueue_line. change (drop_cr [ch_cr]) with (@nil ascii). destruct (printed j ++ [ch_nl]) as [|c r] eqn:E; [by destruct (printed j)|].
  rewrite <-E, strip_eol_nl by (by apply printed_eol_free). rewrite not_done by done. by rewrite enqueue_printed.
Qed.

(** The lines of an event, for each line end. *)
Lemma event_lines_crlf j s : json_ok 0 j = true ->
  strtok is_newline (sse_event crlf (printed j) ++ s) = (($"data: " ++ printed j) ++ [ch_cr]) :: [ch_cr] :: strtok is_newline s.
Proof.
  intros Hj. replace (sse_event crlf (printed j) ++ s) with ((($"data: " ++ printed j) ++ [ch_cr]) ++ ch_nl :: [ch_cr] ++ ch_nl :: s) by (unfold sse_event, crlf; by rewrite <-!app_assoc).
  rewrite strtok_line; [rewrite strtok_line; [done|done|by apply not_elem_of_cons; split; [|apply not_elem_of_nil]]|done|].
  rewrite not_elem_of_app, list_elem_of_singleton. split; [by apply eol_free_nl, data_eol_free, printed_eol_free|done].
Qed.

Lemma event_lines_lf j s : json_ok 0 j = true -> strtok is_newline (sse_event lf (printed j) ++ s) = ($"data: " ++ printed j) :: strtok is_newline s.
Proof.
  intros Hj. replace (sse_event lf (printed j) ++ s) with (($"data: " ++ printed j) ++ ch_nl :: ch_nl :: s) by (unfold sse_event, lf; by rewrite <-!app_assoc).
  rewrite strtok_line; [by rewrite strtok_blank|done|by apply eol_free_nl, data_eol_free, printed_eol_free].
Qed.

Lemma sse_lines_crlf js msgs : Forall (fun j => json_ok 0 j = true) js -> Forall message_ok msgs ->
  fold_left enqueue_line (strtok is_newline (js ≫= fun j => sse_event crlf (printed j))) ([], queue_of msgs) = ([], queue_of (msgs ++ (printed <$> js))).
Proof.
  intros Hjs. revert msgs. induction Hjs as [|j js Hj _ IH]; intros msgs Hms; [cbn; by rewrite app_nil_r|]. rewrite bind_cons, fmap_cons, event_lines_crlf by done.
  cbn [fold_left]. rewrite (enqueue_data _ (printed j)) by apply drop_cr_cr. cbn [app]. rewrite enqueue_blank by done. rewrite IH.
  - by rewrite <-app_assoc.
  - apply Forall_app. split; [done|]. apply Forall_singleton. by apply printed_message.
Qed.

Lemma sse_lines_lf js e q : Forall (fun j => json_ok 0 j = true) js ->
  fold_left enqueue_line (strtok is_newline (js ≫= fun j => sse_event lf (printed j))) (e, q) = (e ++ (js ≫= fun j => printed j ++ [ch_nl]), q).
Proof.
  intros Hjs. revert e. induction Hjs as [|j js Hj _ IH]; intros e; [cbn; by rewrite app_nil_r|]. rewrite !bind_cons, event_lines_lf by done. cbn [fold_left].
  rewrite (enqueue_data _ (printed j)) by (apply drop_cr_plain, data_eol_free; by apply printed_eol_free). rewrite IH. by rewrite <-!app_assoc.
Qed.

(** What is left of several messages begins with the first. *)
Lemma strip_first j more : json_ok 0 j = true -> exists rest, strip_eol (printed j ++ ch_nl :: more) = printed j ++ rest /\ num_stop rest.
Proof.
  intros Hj. pose proof (printed_eol_free j Hj) as He. destruct (printed_message j Hj) as [Hne _]. unfold strip_eol.
  destruct (drop_tail_prefix (fun c => bool_decide (c = ch_nl) || bool_decide (c = ch_cr)) (printed j ++ ch_nl :: more)) as (l & E & Hl).
  apply app_eq_inv in E as [(k & E1 & E2)|(k & E1 & E2)].
  - destruct k as [|c k].
    + rewrite app_nil_r in E1. exists []. rewrite app_nil_r. by split.
    + exfalso. unfold eol_free in He. rewrite E1 in He. apply Forall_app in He as [_ [Hc _]%Forall_cons]. rewrite E2 in Hl. apply Forall_cons in Hl as [Hl _]. congruence.
  - exists k. split; [exact E1|]. destruct k as [|c k]; [done|]. by injection E2 as <- _.
Qed.

Lemma not_done_more j rest : json_ok 0 j = true -> num_stop rest -> str_eq (printed j ++ rest) $"[DONE]" = false.
Proof.
  intros Hj Hr. apply bool_decide_eq_false. intros E. destruct (unformatted_line j Hj) as (t & Ht & _ & _ & Hp). specialize (Hp rest Hr).
  assert (printed j = t) as Ej by (unfold printed; by rewrite Ht). rewrite <-Ej, E in Hp. assert (cJSON_Parse $"[DONE]" = None) as Hn by (by vm_compute). by rewrite Hn in Hp.
Qed.

(** An answer with a stream of events whose lines end with carriage return
    and newline queues the message of each event, in order. When the lines end
    with a newline alone, which is as common, the blank lines that end the
    events are skipped with the line ends: the data of all events are taken
    for one text, of which only the first message is read. *)
Theorem sse_answer_queued (js : list json) (msgs : list cstr) : Forall (fun j => json_ok 0 j = true) js -> Forall message_ok msgs ->
  streamable_http_enqueue_sse (queue_of msgs) (js ≫= fun j => sse_event crlf (printed j)) = queue_of (msgs ++ (printed <$> js)) /\
  streamable_http_enqueue_sse (queue_of msgs) (js ≫= fun j => sse_event lf (printed j)) = queue_of (msgs ++ (printed <$> take 1 js)).
Proof.
  intros Hjs Hms. unfold streamable_http_enqueue_sse. split; [by rewrite sse_lines_crlf|]. rewrite sse_lines_lf by done. cbn [app].
  destruct js as [|j js]; [cbn; by rewrite app_nil_r|]. apply Forall_cons in Hjs as [Hj Hjs]. change (take 1 (j :: js)) with [j]. rewrite bind_cons.
  rewrite <-app_assoc. cbn [app]. destruct (strip_first j (js ≫= fun j => printed j ++ [ch_nl]) Hj) as (rest & -> & Hr).
  destruct (printed j ++ rest) as [|c r] eqn:E; [by apply app_nil in E as [E _]; destruct (printed_message j Hj)|].
  rewrite <-E, not_done_more by done. by rewrite enqueue_printed_more.
Qed.

(** ** A call *)

(** What the context keeps of the head of an answer. *)
Definition session_of (h : HttpHead) : option cstr := nonempty_or (c_string <$> get_header_value_ci (hh_message h) $"mcp-session-id") None.
Definition type_of (h : HttpHead) : cstr := truncate_to 128 (default [] (nonempty_or (c_string <$> get_header_value_ci (hh_message h) $"content-type") None)).

Section Call.
Context (error_text : cstr).

Definition head_seen (h : HttpHead) : PostContext := mkPost false false (hh_status h) [] None (session_of h) (type_of h).

Lemma truncate_twice n (s : cstr) : truncate_to n (truncate_to n s) = truncate_to n s.
Proof. unfold truncate_to. rewrite take_take. f_equal. lia. Qed.

Lemma nonempty_or_idem (o : option cstr) d : nonempty_or o (nonempty_or o d) = nonempty_or o d.
Proof. by destruct o as [[|]|]. Qed.

Lemma head_event h : post_event error_text post_start (UeHdrs h) = head_seen h.
Proof. reflexivity. Qed.

Lemma head_again h : post_event error_text (head_seen h) (UeHdrs h) = head_seen h.
Proof.
  unfold head_seen, post_event, session_of, type_of. cbn [pc_done pc_ok pc_status pc_error pc_body pc_session pc_type]. rewrite nonempty_or_idem.
  destruct (nonempty_or (c_string <$> get_header_value_ci (hh_message h) $"content-type") None); cbn [default]; [done|]. by rewrite truncate_twice.
Qed.

Lemma waiting_events text h evs : Forall (waiting text h) evs -> fold_left (post_event error_text) evs post_start = post_start \/ fold_left (post_event error_text) evs post_start = head_seen h.
Proof.
  intros H. rewrite <-(rev_involutive evs). apply List.Forall_rev in H. induction H as [|e r He _ IH]; [by left|]. cbn [rev]. rewrite fold_left_app. cbn [fold_left].
  destruct He as [->|(n & recv & -> & _)]; [|by destruct IH as [-> | ->]; [left|right]]. right. destruct IH as [-> | ->]; [apply head_event|apply head_again].
Qed.

Lemma post_done_rest ctx rest : pc_done ctx = true -> Forall (fun e => e = UeClose \/ e = UeOther) rest -> fold_left (post_event error_text) rest ctx = ctx.
Proof. intros Hd H. induction H as [|e r [-> | ->] _ IH]; [done| |exact IH]. cbn [fold_left post_event]. rewrite Hd. exact IH. Qed.

(** An answer with a length, however it arrives. *)
Lemma post_reads head body h pieces evs recv rest : response_head head h (length body) -> concat pieces = head ++ body -> Forall (fun p => p <> []) pieces ->
  conn_reads [] pieces = Some (evs, recv) -> Forall (fun e => e = UeClose \/ e = UeOther) rest ->
  post_result error_text (evs ++ rest) =
    mkPost true (status_ok (hh_status h)) (hh_status h) [] (match body with [] => None | _ => Some (c_string body) end) (session_of h) (type_of h).
Proof.
  intros Hh Hc Hne Hr Hrest. destruct (response_reads head body h pieces Hh Hc Hne) as (pre & n & E & Hpre & _). rewrite E in Hr. injection Hr as <- <-.
  unfold post_result. rewrite !fold_left_app. cbn [fold_left].
  assert (post_event error_text (fold_left (post_event error_text) pre post_start) (UeHdrs h) = head_seen h) as ->.
  { destruct (waiting_events _ _ _ Hpre) as [-> | ->]; [apply head_event|apply head_again]. }
  change (post_event error_text (head_seen h) (UeMsg h body)) with
    (mkPost true (status_ok (hh_status h)) (hh_status h) [] (match body with [] => None | _ => Some (c_string body) end) (session_of h) (type_of h)).
  change (post_event error_text ?c (UeRead n [])) with c. rewrite post_done_rest by done. reflexivity.
Qed.
End Call.

(** A message is posted once to the request address, with the session that
    was given before, and the JSON message in an answer whose status says
    success is received after those that were already waiting; the session in
    the answer is used from then on. *)
Theorem streamable_call (error_text : cstr) (network : nat -> WebRequest -> option (list user_event)) (command : cstr) (args : list cstr) (headers : list (cstr * cstr))
    (msgs : list cstr) (session : option cstr) (data : cstr) (log : list WebRequest) (j : json)
    (head : cstr) (h : HttpHead) (pieces : list cstr) (evs rest : list user_event) (recv : cstr) :
  Forall message_ok msgs -> json_ok 0 j = true ->
  network (length log) (mcp_post_request streamable_post headers (request_url command args) session data) = Some (evs ++ rest) ->
  response_head head h (length (printed j)) -> concat pieces = head ++ printed j -> Forall (fun p => p <> []) pieces -> conn_reads [] pieces = Some (evs, recv) ->
  Forall (fun e => e = UeClose \/ e = UeOther) rest -> status_ok (hh_status h) = true -> contains (type_of h) $"text/event-stream" = false ->
  exists t', mcp_transport_streamable_http_send error_text network command args headers (mkStreamable (queue_of msgs) session) data log =
      Some (t', err_ok, log ++ [mcp_post_request streamable_post headers (request_url command args) session data]) /\
    sh_session t' = nonempty_or (session_of h) session /\
    exists first others, msgs ++ [printed j] = first :: others /\ mcp_transport_streamable_http_recv t' = (mkStreamable (queue_of others) (sh_session t'), Some first).
Proof.
  intros Hms Hj Hnet Hh Hc Hne Hr Hrest Hok Htype. unfold mcp_transport_streamable_http_send, post_fuel. cbn [post_loop sh_session sh_queue]. rewrite Hnet.
  rewrite (post_reads error_text head (printed j) h pieces evs recv rest) by done. cbn [pc_ok pc_session]. rewrite Hok. eexists. split; [reflexivity|]. split; [reflexivity|].
  assert (streamable_answer (queue_of msgs) (mkPost true true (hh_status h) [] (match printed j with [] => None | _ => Some (c_string (printed j)) end) (session_of h) (type_of h)) =
    queue_of (msgs ++ [printed j])) as Hq.
  { destruct (printed_line j Hj) as (_ & H0 & Hpne). unfold streamable_answer. cbn [pc_body pc_type]. rewrite Htype.
    assert (c_string (printed j) = printed j) as -> by (by apply take_while_not_nul). destruct (printed j) as [|c r] eqn:E; [done|]. rewrite <-E. by apply enqueue_printed. }
  rewrite Hq. assert (Forall message_ok (msgs ++ [printed j])) as Hall by (apply Forall_app; split; [done|]; apply Forall_singleton; by apply printed_message).
  destruct (msgs ++ [printed j]) as [|m l] eqn:E; [by apply app_nil in E as [_ E]|]. exists m, l. split; [done|]. apply Forall_cons in Hall as [Hm _].
  unfold mcp_transport_streamable_http_recv. cbn [sh_queue sh_session]. by rewrite queue_pop_of.
Qed.

Definition demo_result : json := JObj [($"id", JNum (num_of_Z 1))].
Definition demo_head : cstr := response_text [($"Content-Type", $"application/json"); ($"Content-Length", $"8"); ($"Mcp-Session-Id", $"s1")].
Definition call_pieces : list cstr := [take 30 demo_head; drop 30 demo_head ++ printed demo_result].
Definition call_events : list user_event := match conn_reads [] call_pieces with Some (evs, _) => evs | None => [] end.

Lemma sse_answer_queued_witness :
  streamable_http_enqueue_sse (queue_of []) ([demo_result; JNull] ≫= fun j => sse_event crlf (printed j)) = queue_of ([] ++ (printed <$> [demo_result; JNull])) /\
  streamable_http_enqueue_sse (queue_of []) ([demo_result; JNull] ≫= fun j => sse_event lf (printed j)) = queue_of ([] ++ (printed <$> take 1 [demo_result; JNull])).
Proof. apply (sse_answer_queued [demo_result; JNull] []); repeat constructor; by vm_compute. Defined.

Lemma streamable_call_witness : exists t', mcp_transport_streamable_http_send [] (fun _ _ => Some (call_events ++ [UeClose])) $"http://localhost/mcp" [] [] (mkStreamable (queue_of []) None) $"{}" [] =
    Some (t', err_ok, [] ++ [mcp_post_request streamable_post [] $"http://localhost/mcp" None $"{}"]) /\
  sh_session t' = nonempty_or (session_of (parsed_head demo_head)) None /\
  exists first others, [] ++ [printed demo_result] = first :: others /\ mcp_transport_streamable_http_recv t' = (mkStreamable (queue_of others) (sh_session t'), Some first).
Proof.
  apply (streamable_call [] (fun _ _ => Some (call_events ++ [UeClose])) $"http://localhost/mcp" [] [] [] None $"{}" [] demo_result demo_head (parsed_head demo_head) call_pieces call_events [UeClose] []).
  - constructor.
  - by vm_compute.
  - reflexivity.
  - split; [split|..]; by vm_compute.
  - by vm_compute.
  - repeat constructor; by vm_compute.
  - by vm_compute.
  - by repeat constructor.
  - by vm_compute.
  - by vm_compute.
Defined.
