(* ===== verification/McpSse.v ===== *)
(** [transport_sse.c] and [transport_websocket.c] of
    [src/plugins/tools/mcp_tools]: the transport whose answers come as a stream
    of events over a connection that stays open, and the one over a web
    socket. Their polling threads are the events of the connection; the
    requests that carry the messages are those of McpHttp.v. Allocations
    succeed. *)
From S2P Require Import Prelude CStr Json Common Mcp McpStdio ProviderAsync Protobuf DingTalkWs Mongoose MongooseHttp ChannelHttp McpHttp.
Open Scope nat_scope.

(** Each transport has its own copy of the queue and of the handler of a
    request. *)
Definition sse_queue_append := queue_append.
Definition sse_queue_pop := queue_pop.
Definition mcp_sse_post_event_handler := post_event.
Definition ws_buffer_append := queue_append.
Definition ws_buffer_pop := queue_pop.

(** [ss_live]: the connection of the stream has not ended ([sse_conn] is set
    all the time). *)
Record MCPSSETransport := mkSse {
  ss_running : bool;
  ss_open : bool;
  ss_failed : bool;
  ss_live : bool;
  ss_error : option cstr;
  ss_queue : cstr;
  ss_recv : cstr;
  ss_event : cstr;
  ss_current : cstr;
  ss_post_url : option cstr;
  ss_session : option cstr;
}.

Definition sse_fresh : MCPSSETransport := mkSse true false false true None [] [] [] [] None None.
Definition ss_conn (running opened failed live : bool) (error : option cstr) (t : MCPSSETransport) : MCPSSETransport :=
  mkSse running opened failed live error (ss_queue t) (ss_recv t) (ss_event t) (ss_current t) (ss_post_url t) (ss_session t).
Definition ss_set_event (event current : cstr) (t : MCPSSETransport) : MCPSSETransport :=
  mkSse (ss_running t) (ss_open t) (ss_failed t) (ss_live t) (ss_error t) (ss_queue t) (ss_recv t) event current (ss_post_url t) (ss_session t).
Definition ss_set_queue (queue : cstr) (session : option cstr) (t : MCPSSETransport) : MCPSSETransport :=
  mkSse (ss_running t) (ss_open t) (ss_failed t) (ss_live t) (ss_error t) queue (ss_recv t) (ss_event t) (ss_current t) (ss_post_url t) session.
Definition ss_set_recv (recv : cstr) (t : MCPSSETransport) : MCPSSETransport :=
  mkSse (ss_running t) (ss_open t) (ss_failed t) (ss_live t) (ss_error t) (ss_queue t) recv (ss_event t) (ss_current t) (ss_post_url t) (ss_session t).
Definition ss_set_url (url : option cstr) (t : MCPSSETransport) : MCPSSETransport :=
  mkSse (ss_running t) (ss_open t) (ss_failed t) (ss_live t) (ss_error t) (ss_queue t) (ss_recv t) (ss_event t) (ss_current t) url (ss_session t).

(** ** Addresses *)

Definition sse_resolve_url (base_url : option cstr) (endpoint : cstr) : option cstr :=
  match endpoint with
  | [] => None
  | c :: _ =>
      if starts_with $"http://" endpoint || starts_with $"https://" endpoint then Some endpoint
      else
        base ← base_url;
        scheme ← strstr base $"://";
        let host_start := drop (scheme + 3) base in
        let origin_len := match strchr host_start "/"%char with Some i => scheme + 3 + i | None => length base end in
        if bool_decide (c = "/"%char) then Some (take origin_len base ++ endpoint)
        else Some (take (match strrchr base "/"%char with Some i => i + 1 | None => length base end) base ++ endpoint)
  end.

(** ** Events *)

(** [sse_emit_event_if_ready]. *)
Definition sse_emit (command : option cstr) (t : MCPSSETransport) : MCPSSETransport :=
  match ss_event t with
  | [] => t
  | _ =>
      match strip_eol (ss_event t) with
      | [] => ss_set_event [] (ss_current t) t
      | text =>
          if str_eq text $"[DONE]" then ss_set_event [] [] t
          else if str_eq (ss_current t) $"endpoint" then
            ss_set_event [] [] (match sse_resolve_url command text with Some u => ss_set_url (Some u) t | None => t end)
          else ss_set_event [] [] (ss_set_queue (enqueue_json (ss_queue t) text) (ss_session t) t)
      end
  end.

(** The text after the colon, without one blank. *)
Definition field_value (n : nat) (line : cstr) : cstr := match drop n line with " "%char :: r => r | p => p end.

Definition sse_line (command : option cstr) (t : MCPSSETransport) (line : cstr) : MCPSSETransport :=
  match drop_cr line with
  | [] => sse_emit command t
  | l =>
      if starts_with $"event:" l then ss_set_event (ss_event t) (truncate_to 64 (field_value 6 l)) t
      else if starts_with $"data:" l then ss_set_event (ss_event t ++ field_value 5 l ++ [ch_nl]) (ss_current t) t
      else t
  end.

(** [sse_process_received_data]: the lines up to the first NUL. *)
Definition sse_process (command : option cstr) (t : MCPSSETransport) (data : cstr) : MCPSSETransport :=
  let buf := ss_recv t ++ data in
  let '(lines, tail) := split_nl (take_while not_nul buf) in
  ss_set_recv (tail ++ drop_while not_nul buf) (fold_left (sse_line command) lines t).

(** ** The connection of the stream *)

Section Stream.
Context (error_text : cstr) (command : option cstr).

(** [mcp_sse_stream_event_handler], but for the poll. *)
Definition sse_event_handler (t : MCPSSETransport) (ev : user_event) : MCPSSETransport :=
  match ev with
  | UeHdrs h =>
      if status_ok (hh_status h) then ss_conn (ss_running t) true (ss_failed t) (ss_live t) (ss_error t) t
      else ss_conn (ss_running t) (ss_open t) true (ss_live t) (Some (truncate_to 128 ($"SSE HTTP status " ++ fmt_d (hh_status h)))) t
  | UeError => ss_conn false (ss_open t) true (ss_live t) (Some error_text) t
  | UeClose => ss_conn false (ss_open t) (ss_failed t) false (ss_error t) t
  | _ => t
  end.

(** The connection: the buffer of the library, which its HTTP handler looks at
    when bytes arrive, and the program's handler empties at each poll. *)
Inductive stream_step := Arrive (bytes : cstr) | PollStep | ConnError | ConnClose.

(** [None]: a request without a length, which ends nothing. What is no HTTP at
    all ends the connection. *)
Definition stream_one (s : cstr * MCPSSETransport) (e : stream_step) : option (cstr * MCPSSETransport) :=
  let '(recv, t) := s in
  match e with
  | Arrive bytes =>
      '(evs, kept) ← http_cb false (recv ++ bytes);
      let t := fold_left sse_event_handler evs t in
      Some (kept, match evs, kept, bytes with [], [], _ :: _ => sse_event_handler t UeClose | _, _, _ => t end)
  | PollStep => Some ([], match recv with [] => t | _ => sse_process command t recv end)
  | ConnError => Some (recv, sse_event_handler t UeError)
  | ConnClose => Some ([], sse_event_handler t UeClose)
  end.

Fixpoint stream_run (s : cstr * MCPSSETransport) (l : list stream_step) : option (cstr * MCPSSETransport) :=
  match l with [] => Some s | e :: r => s' ← stream_one s e; stream_run s' r end.
End Stream.

(** ** The operations *)

(** [mcp_transport_sse_close]: [None]: the connection was freed when it ended. *)
Definition mcp_transport_sse_close (t : MCPSSETransport) : option unit := if ss_live t then Some tt else None.

(** [waiting]: what the polling thread does while the call waits. *)
Definition mcp_transport_sse_init (command : option cstr) (connected started : bool) (waiting : MCPSSETransport -> MCPSSETransport) :
    option (option MCPSSETransport * Error) :=
  match command with
  | None | Some [] => Some (None, error_new ERR_INVALID_PARAM (Some $"Invalid SSE URL"))
  | Some _ =>
      if negb connected then Some (None, error_new ERR_CONNECTION (Some $"Failed to create SSE connection"))
      else if negb started then Some (None, error_new ERR_CONNECTION (Some $"Failed to start SSE poll thread"))
      else
        let t := waiting sse_fresh in
        if ss_open t && negb (ss_failed t) then Some (Some t, err_ok)
        else
          _ ← mcp_transport_sse_close t;
          Some (None, match ss_error t with Some e => error_new ERR_CONNECTION (Some e) | None => error_new ERR_TIMEOUT (Some $"SSE handshake timeout") end)
  end.

(** The headers of the stream's request. *)
Definition sse_request (command : cstr) (headers : list (cstr * cstr)) : WebRequest :=
  mkWebRequest command (mg_url_is_ssl command)
    (line_of ($"GET " ++ mg_url_uri command ++ $" HTTP/1.1") ++ line_of ($"Host: " ++ mg_url_host command) ++ line_of $"Accept: text/event-stream" ++
     line_of $"Cache-Control: no-cache" ++ line_of $"Connection: keep-alive" ++ custom_headers headers ++ crlf).

Definition sse_post_url (command : cstr) (args : list cstr) (t : MCPSSETransport) : cstr :=
  match ss_post_url t with Some ((_ :: _) as u) => u | _ => request_url command args end.

Definition mcp_transport_sse_send (error_text : cstr) (network : nat -> WebRequest -> option (list user_event)) (command : cstr) (args : list cstr)
    (headers : list (cstr * cstr)) (t : MCPSSETransport) (data : cstr) (log : list WebRequest) : option (MCPSSETransport * Error * list WebRequest) :=
  match post_loop error_text sse_post headers network post_fuel (sse_post_url command args t) (ss_session t) false false data log with
  | None => None
  | Some (session, PostSent ctx, log) => Some (ss_set_queue (match pc_body ctx with Some b => enqueue_json (ss_queue t) b | None => ss_queue t end) session t, err_ok, log)
  | Some (session, PostFailed err, log) => Some (ss_set_queue (ss_queue t) session t, err, log)
  end.

Definition mcp_transport_sse_recv (t : MCPSSETransport) : MCPSSETransport * option cstr :=
  match sse_queue_pop (ss_queue t) with
  | Some (m, q) => (ss_set_queue q (ss_session t) t, Some m)
  | None => (t, None)
  end.

(** ** The web socket *)

Record MCPWebSocketTransport := mkWs { wt_running : bool; wt_open : bool; wt_failed : bool; wt_live : bool; wt_error : option cstr; wt_queue : cstr; wt_sent : list cstr }.
Definition ws_fresh : MCPWebSocketTransport := mkWs true false false true None [] [].

Inductive mcp_ws_event := WsOpen | WsMsg (data : cstr) | WsError (text : cstr) | WsClose.
Definition mcp_websocket_event_handler (t : MCPWebSocketTransport) (ev : mcp_ws_event) : MCPWebSocketTransport :=
  match ev with
  | WsOpen => mkWs (wt_running t) true (wt_failed t) (wt_live t) (wt_error t) (wt_queue t) (wt_sent t)
  | WsMsg data => mkWs (wt_running t) (wt_open t) (wt_failed t) (wt_live t) (wt_error t) (enqueue_json (wt_queue t) (c_string data)) (wt_sent t)
  | WsError text => mkWs (wt_running t) (wt_open t) true (wt_live t) (Some text) (wt_queue t) (wt_sent t)
  | WsClose => mkWs false (wt_open t) (wt_failed t) false (wt_error t) (wt_queue t) (wt_sent t)
  end.

(** [None]: the connection was freed. *)
Definition mcp_transport_websocket_close (t : MCPWebSocketTransport) : option unit := if wt_live t then Some tt else None.

Definition mcp_transport_websocket_init (command : option cstr) (connected started : bool) (waiting : MCPWebSocketTransport -> MCPWebSocketTransport) :
    option (option MCPWebSocketTransport * Error) :=
  match command with
  | None | Some [] => Some (None, error_new ERR_INVALID_PARAM (Some $"Invalid websocket URL"))
  | Some _ =>
      if negb connected then Some (None, error_new ERR_CONNECTION (Some $"Failed to create websocket connection"))
      else if negb started then Some (None, error_new ERR_CONNECTION (Some $"Failed to start websocket poll thread"))
      else
        let t := waiting ws_fresh in
        if wt_open t && negb (wt_failed t) then Some (Some t, err_ok)
        else
          _ ← mcp_transport_websocket_close t;
          Some (None, match wt_error t with Some e => error_new ERR_CONNECTION (Some e) | None => error_new ERR_TIMEOUT (Some $"WebSocket handshake timeout") end)
  end.

(** [mg_ws_send] gives the bytes of the frame, never 0. *)
Definition mcp_transport_websocket_send (t : MCPWebSocketTransport) (data : cstr) : option (MCPWebSocketTransport * Error) :=
  if wt_running t && wt_open t
  then if wt_live t then Some (mkWs (wt_running t) (wt_open t) (wt_failed t) (wt_live t) (wt_error t) (wt_queue t) (wt_sent t ++ [data]), err_ok) else None
  else Some (t, error_new ERR_CONNECTION (Some $"WebSocket transport not connected")).

Definition mcp_transport_websocket_recv (t : MCPWebSocketTransport) : MCPWebSocketTransport * option cstr :=
  match ws_buffer_pop (wt_queue t) with
  | Some (m, q) => (mkWs (wt_running t) (wt_open t) (wt_failed t) (wt_live t) (wt_error t) q (wt_sent t), Some m)
  | None => (t, None)
  end.

(** ** The events of a stream, however they arrive *)

Section Events.
Context (command : option cstr).

#[local] Opaque enqueue_json sse_resolve_url strip_eol drop_cr str_eq starts_with truncate_to field_value.
Lemma sse_line_recv t l r : sse_line command (ss_set_recv r t) l = ss_set_recv r (sse_line command t l).
Proof.
  unfold sse_line. destruct (drop_cr l) as [|c s]; [|destruct (starts_with $"event:" (c :: s)); [reflexivity|]; destruct (starts_with $"data:" (c :: s)); reflexivity]. unfold sse_emit. destruct t as [a b c d e f g h i j k]. cbn [ss_set_recv ss_event ss_queue ss_current ss_session].
  destruct h as [|x es]; [reflexivity|]. destruct (strip_eol (x :: es)) as [|y text]; [reflexivity|].
  destruct (str_eq (y :: text) $"[DONE]"); [reflexivity|]. unfold ss_set_event, ss_set_queue, ss_set_url, ss_set_recv.
  cbn [ss_running ss_open ss_failed ss_live ss_error ss_queue ss_recv ss_event ss_current ss_post_url ss_session]. generalize (str_eq i $"endpoint"). intros []; [|reflexivity].
  destruct (sse_resolve_url command (y :: text)); reflexivity.
Qed.
#[local] Transparent enqueue_json sse_resolve_url strip_eol drop_cr str_eq starts_with truncate_to field_value.

Lemma sse_lines_recv ls : forall t r, fold_left (sse_line command) ls (ss_set_recv r t) = ss_set_recv r (fold_left (sse_line command) ls t).
Proof. induction ls as [|l ls IH]; intros t r; [done|]. cbn [fold_left]. by rewrite sse_line_recv, IH. Qed.

Lemma drop_while_all (s : cstr) : "000"%char ∉ s -> drop_while not_nul s = [].
Proof. induction s as [|c s IH]; [done|]. intros [Hc Hs]%not_elem_of_cons. cbn [drop_while]. unfold not_nul at 1. rewrite bool_decide_eq_false_2 by congruence. cbn [negb]. by apply IH. Qed.

Lemma sse_process_lines t data : "000"%char ∉ ss_recv t ++ data ->
  sse_process command t data = ss_set_recv (snd (split_nl (ss_recv t ++ data))) (fold_left (sse_line command) (fst (split_nl (ss_recv t ++ data))) t).
Proof. intros H. unfold sse_process. rewrite take_while_not_nul, drop_while_all by done. destruct (split_nl (ss_recv t ++ data)). cbn [fst snd]. by rewrite app_nil_r. Qed.

(** What arrives in pieces is processed like the whole. *)
Lemma sse_process_pieces pieces : forall t, split_nl (ss_recv t) = ([], ss_recv t) -> "000"%char ∉ ss_recv t ++ concat pieces ->
  fold_left (sse_process command) pieces t =
    ss_set_recv (snd (split_nl (ss_recv t ++ concat pieces))) (fold_left (sse_line command) (fst (split_nl (ss_recv t ++ concat pieces))) t).
Proof.
  induction pieces as [|p r IH]; intros t Ht H0.
  - cbn [concat fold_left]. rewrite app_nil_r, Ht. by destruct t.
  - cbn [concat fold_left] in H0 |- *. rewrite app_assoc in H0. assert ("000"%char ∉ ss_recv t ++ p) as H1 by (intros Hin; apply H0, elem_of_app; by left).
    rewrite sse_process_lines by done. rewrite IH; cbn [ss_set_recv ss_recv].
    + rewrite sse_lines_recv. rewrite (app_assoc (ss_recv t) p), (split_nl_app (ss_recv t ++ p)). cbn [fst snd]. rewrite fold_left_app. reflexivity.
    + apply split_nl_rest.
    + intros [Hin|Hin]%elem_of_app; apply H0, elem_of_app; [left; by apply split_nl_rest_in|by right].
Qed.

(** What a server sends: the address to post to, or a message, with or without
    a name, and with either line end. *)
Inductive served := SEndpoint (path : cstr) | SMessage (name : option cstr) (j : json).
Definition name_line (name : option cstr) (eol : cstr) : cstr := match name with Some n => $"event: " ++ n ++ eol | None => [] end.
Definition served_text (e : served * bool) : cstr :=
  let eol := if snd e then crlf else lf in
  match fst e with
  | SEndpoint path => name_line (Some $"endpoint") eol ++ $"data: " ++ path ++ eol ++ eol
  | SMessage name j => name_line name eol ++ $"data: " ++ printed j ++ eol ++ eol
  end.

Definition served_ok (e : served) : Prop :=
  match e with
  | SEndpoint path => eol_free path /\ ("000"%char ∉ path) /\ path <> [] /\ path <> $"[DONE]" /\ is_Some (sse_resolve_url command path)
  | SMessage name j => json_ok 0 j = true /\ match name with Some n => eol_free n /\ ("000"%char ∉ n) /\ length n < 64 /\ n <> $"endpoint" | None => True end
  end.

(** The messages, and the address, that are served. *)
Definition served_messages (l : list served) : list cstr := l ≫= fun e => match e with SMessage _ j => [printed j] | SEndpoint _ => [] end.
Definition served_url (url : option cstr) (e : served) : option cstr := match e with SEndpoint path => sse_resolve_url command path | SMessage _ _ => url end.

(** The lines of an event. *)
Definition with_eol (cr : bool) (s : cstr) : cstr := if cr then s ++ [ch_cr] else s.
Definition served_lines (e : served * bool) : list cstr :=
  let '(name, text) := match fst e with SEndpoint path => (Some $"endpoint", path) | SMessage name j => (name, printed j) end in
  (match name with Some n => [with_eol (snd e) ($"event: " ++ n)] | None => [] end) ++ [with_eol (snd e) ($"data: " ++ text); with_eol (snd e) []].

Lemma with_eol_line (cr : bool) (s rest : cstr) : eol_free s -> split_nl (s ++ (if cr then crlf else lf) ++ rest) = (with_eol cr s :: fst (split_nl rest), snd (split_nl rest)).
Proof.
  intros H. pose proof (eol_free_nl s H) as Hn. destruct cr; cbn [with_eol].
  - replace (s ++ crlf ++ rest) with ((s ++ [ch_cr]) ++ ch_nl :: rest) by (unfold crlf; by rewrite <-!app_assoc).
    apply split_line. rewrite not_elem_of_app, list_elem_of_singleton. by split.
  - by apply split_line.
Qed.

Lemma drop_cr_eol (cr : bool) (s : cstr) : eol_free s -> drop_cr (with_eol cr s) = s.
Proof. intros H. destruct cr; [apply drop_cr_cr|by apply drop_cr_plain]. Qed.

Lemma literal_eol_free (s : cstr) : bool_decide (eol_free s) = true -> eol_free s.
Proof. apply bool_decide_eq_true. Qed.

Lemma served_split e rest : served_ok (fst e) -> split_nl (served_text e ++ rest) = (served_lines e ++ fst (split_nl rest), snd (split_nl rest)).
Proof.
  assert (forall (cr : bool) (text rest : cstr), eol_free text ->
    split_nl ($"data: " ++ text ++ (if cr then crlf else lf) ++ (if cr then crlf else lf) ++ rest) =
      ([with_eol cr ($"data: " ++ text); with_eol cr []] ++ fst (split_nl rest), snd (split_nl rest))) as Hd.
  { intros cr text r Ht. rewrite (app_assoc $"data: "). rewrite with_eol_line by (by apply data_eol_free).
    rewrite <-(app_nil_l ((if cr then crlf else lf) ++ r)), (with_eol_line cr [] r) by constructor. done. }
  destruct e as [e cr]. cbn [fst]. intros He. unfold served_text, served_lines. cbn [fst snd].
  assert (exists name text, eol_free text /\ match name with Some n => eol_free n | None => True end /\
    match e with SEndpoint path => (Some $"endpoint", path) | SMessage name j => (name, printed j) end = (name, text) /\
    match e with SEndpoint path => name_line (Some $"endpoint") (if cr then crlf else lf) ++ $"data: " ++ path ++ (if cr then crlf else lf) ++ (if cr then crlf else lf)
      | SMessage name j => name_line name (if cr then crlf else lf) ++ $"data: " ++ printed j ++ (if cr then crlf else lf) ++ (if cr then crlf else lf) end =
    name_line name (if cr then crlf else lf) ++ $"data: " ++ text ++ (if cr then crlf else lf) ++ (if cr then crlf else lf)) as (name & text & Ht & Hname & -> & ->).
  { destruct e as [path|name j]; cbn [served_ok] in He.
    - exists (Some $"endpoint"), path. destruct He as [He _]. split_and!; [done|by apply literal_eol_free|done|done].
    - exists name, (printed j). destruct He as [Hj He]. split_and!; [by apply printed_eol_free|by destruct name; [destruct He|]|done|done]. }
  rewrite <-!app_assoc. destruct name as [n|]; cbn [name_line app]; [|by apply Hd].
  rewrite <-!app_assoc, (app_assoc $"event: "). rewrite with_eol_line, Hd; [done|done|]. apply Forall_app. split; [by apply literal_eol_free|done].
Qed.

Definition idle (t : MCPSSETransport) : Prop := ss_event t = [] /\ ss_current t = [].

(** What an event changes. *)
Definition serve (t : MCPSSETransport) (msgs : list cstr) (e : served) : MCPSSETransport :=
  ss_set_url (served_url (ss_post_url t) e) (ss_set_queue (queue_of (msgs ++ served_messages [e])) (ss_session t) t).

Lemma name_fold t n cr : eol_free n -> length n < 64 -> sse_line command t (with_eol cr ($"event: " ++ n)) = ss_set_event (ss_event t) n t.
Proof.
  intros Hn Hl. unfold sse_line. rewrite drop_cr_eol by (apply Forall_app; split; [by apply literal_eol_free|done]).
  transitivity (ss_set_event (ss_event t) (truncate_to 64 n) t); [reflexivity|]. by rewrite truncate_to_id.
Qed.

Lemma data_fold t text cr : eol_free text -> sse_line command t (with_eol cr ($"data: " ++ text)) = ss_set_event (ss_event t ++ text ++ [ch_nl]) (ss_current t) t.
Proof. intros H. unfold sse_line. rewrite drop_cr_eol by (by apply data_eol_free). reflexivity. Qed.

Lemma blank_fold t cr : sse_line command t (with_eol cr []) = sse_emit command t.
Proof. unfold sse_line. rewrite drop_cr_eol by constructor. reflexivity. Qed.

Lemma emit_text t text : eol_free text -> text <> [] -> ss_event t = text ++ [ch_nl] -> str_eq text $"[DONE]" = false ->
  sse_emit command t = if str_eq (ss_current t) $"endpoint" then
      ss_set_event [] [] (match sse_resolve_url command text with Some u => ss_set_url (Some u) t | None => t end)
    else ss_set_event [] [] (ss_set_queue (enqueue_json (ss_queue t) text) (ss_session t) t).
Proof.
  intros He Hne Ht Hd. unfold sse_emit. rewrite Ht, strip_eol_nl by done. destruct (text ++ [ch_nl]) as [|c r] eqn:E; [by destruct text|]. clear E.
  destruct text as [|x text]; [done|]. by rewrite Hd.
Qed.

Lemma served_fold e t msgs : idle t -> ss_queue t = queue_of msgs -> Forall message_ok msgs -> served_ok (fst e) ->
  fold_left (sse_line command) (served_lines e) t = serve t msgs (fst e).
Proof.
  intros [Hev Hcur] Hq Hms He. destruct t as [a b c d er q rc ev cu u se]. cbn [ss_event ss_current ss_queue] in Hev, Hcur, Hq. subst ev cu q.
  destruct e as [[path|name j] cr]; cbn [fst served_ok] in He; unfold served_lines; cbn [fst snd].
  - destruct He as (He & _ & Hne & Hdone & [u' Hu]). cbn [app fold_left]. rewrite name_fold, data_fold, blank_fold by (done || (by apply literal_eol_free) || (cbn; lia)).
    rewrite (emit_text _ path) by (done || by apply bool_decide_eq_false). unfold serve. cbn [served_url served_messages mbind list_bind]. rewrite Hu. rewrite app_nil_r. reflexivity.
  - destruct He as [Hj Hn]. pose proof (printed_eol_free j Hj) as Hp. destruct (printed_message j Hj) as [Hpne _].
    assert (forall cu, cu <> $"endpoint" -> forall t, t = mkSse a b c d er (queue_of msgs) rc [] cu u se ->
      sse_emit command (ss_set_event (ss_event t ++ printed j ++ [ch_nl]) (ss_current t) t) = ss_set_event [] [] (serve t msgs (SMessage name j))) as Hm.
    { intros cu Hcu t ->. rewrite (emit_text _ (printed j)) by (done || by apply not_done). cbn [ss_set_event ss_current ss_queue ss_event].
      rewrite (bool_decide_eq_false_2 (cu = _) Hcu : str_eq cu _ = false). rewrite enqueue_printed by done. reflexivity. }
    destruct name as [n|]; cbn [app fold_left].
    + destruct Hn as (Hn & _ & Hlen & Hnep). rewrite name_fold, data_fold, blank_fold by done. by rewrite (Hm n Hnep).
    + rewrite data_fold, blank_fold by done. rewrite (Hm [] ltac:(done)) by done. reflexivity.
Qed.
Lemma serve_idle t msgs e : idle t -> idle (serve t msgs e).
Proof. by intros [H1 H2]. Qed.

Lemma served_messages_ok l : Forall served_ok l -> Forall message_ok (served_messages l).
Proof.
  induction 1 as [|e l He _ IH]; [constructor|]. unfold served_messages in *. rewrite bind_cons. apply Forall_app. split; [|exact IH].
  destruct e as [path|name j]; [constructor|]. destruct He as [Hj _]. apply Forall_singleton. by apply printed_message.
Qed.

Lemma served_list l : forall t msgs, idle t -> ss_queue t = queue_of msgs -> Forall message_ok msgs -> Forall (fun e => served_ok (fst e)) l ->
  fold_left (sse_line command) (l ≫= served_lines) t =
    ss_set_url (fold_left served_url l.*1 (ss_post_url t)) (ss_set_queue (queue_of (msgs ++ served_messages l.*1)) (ss_session t) t).
Proof.
  induction l as [|e l IH]; intros t msgs Hi Hq Hms Hl.
  - cbn. rewrite app_nil_r, <-Hq. by destruct t.
  - apply Forall_cons in Hl as [He Hl]. rewrite bind_cons, fold_left_app, (served_fold e t msgs) by done.
    assert (Forall message_ok (msgs ++ served_messages [fst e])) as Hms' by (apply Forall_app; split; [done|apply served_messages_ok; by repeat constructor]).
    rewrite (IH _ (msgs ++ served_messages [fst e])) by (done || by apply serve_idle). rewrite fmap_cons. cbn [fold_left].
    unfold served_messages. cbn [mbind list_bind]. rewrite app_nil_r, <-app_assoc. reflexivity.
Qed.

Lemma served_nul_free e : served_ok (fst e) -> "000"%char ∉ served_text e.
Proof.
  assert (forall s : cstr, bool_decide ("000"%char ∉ s) = true -> "000"%char ∉ s) as Hlit by (intros s; apply bool_decide_eq_true).
  destruct e as [e cr]. cbn [fst]. intros He. unfold served_text. cbn [fst snd]. assert ("000"%char ∉ if cr then crlf else lf) as Hc by (destruct cr; by apply Hlit).
  assert (forall text, "000"%char ∉ text -> "000"%char ∉ $"data: " ++ text ++ (if cr then crlf else lf) ++ (if cr then crlf else lf)) as Hd.
  { intros text Ht. rewrite !not_elem_of_app. split_and!; [by apply Hlit|done..]. }
  destruct e as [path|[n|] j]; cbn [served_ok name_line app] in He |- *.
  - destruct He as (_ & H0 & _). rewrite !not_elem_of_app. split_and!; (by apply Hlit) || done.
  - destruct He as (Hj & _ & H0 & _). destruct (printed_line j Hj) as (_ & Hp & _). rewrite !not_elem_of_app. split_and!; (by apply Hlit) || done.
  - destruct He as (Hj & _). destruct (printed_line j Hj) as (_ & Hp & _). by apply Hd.
Qed.

Lemma served_texts_split l rest : Forall (fun e => served_ok (fst e)) l -> split_nl ((l ≫= served_text) ++ rest) = ((l ≫= served_lines) ++ fst (split_nl rest), snd (split_nl rest)).
Proof.
  induction 1 as [|e l He _ IH]; [cbn; by destruct (split_nl rest)|]. rewrite !bind_cons, <-!app_assoc, served_split by done. rewrite IH. cbn [fst snd]. by rewrite app_assoc.
Qed.

Lemma served_texts_nul_free l : Forall (fun e => served_ok (fst e)) l -> "000"%char ∉ l ≫= served_text.
Proof. induction 1 as [|e l He _ IH]; [apply not_elem_of_nil|]. rewrite bind_cons, not_elem_of_app. split; [by apply served_nul_free|exact IH]. Qed.
End Events.

(** Nothing in the lines of the head looks like a field of an event, and the
    last one ends. *)
Definition head_plain (head : cstr) : bool :=
  bool_decide ("000"%char ∉ head) && bool_decide (snd (split_nl head) = []) &&
  forallb (fun line => negb (starts_with $"event:" (drop_cr line)) && negb (starts_with $"data:" (drop_cr line))) (fst (split_nl head)).

(** The answer to the request for the stream. *)
Definition stream_answer (head : cstr) (h : HttpHead) : Prop :=
  is_head head h /\ hh_response h = true /\ mg_http_get_header (hh_message h) $"Transfer-Encoding" = None /\ hh_body_len h = None /\
  status_ok (hh_status h) = true /\ head_plain head = true.

Lemma sse_process_head command head t b : head_plain head = true -> idle t -> ss_recv t = [] -> sse_process command t (head ++ b) = sse_process command t b.
Proof.
  intros [[H0%bool_decide_eq_true He%bool_decide_eq_true]%andb_prop Hl]%andb_prop [Hi _] Hr.
  assert (Forall (fun c => not_nul c = true) head) as Hn.
  { apply Forall_forall. intros c Hc. unfold not_nul. destruct (Ascii.eqb_spec c "000"%char) as [->|]; [done|]. by destruct c as [[] [] [] [] [] [] [] []]. }
  unfold sse_process. rewrite Hr. cbn [app].
  assert (take_while not_nul (head ++ b) = head ++ take_while not_nul b) as ->.
  { clear -Hn. induction Hn as [|c l Hc _ IH]; [done|]. cbn. by rewrite Hc, IH. }
  assert (drop_while not_nul (head ++ b) = drop_while not_nul b) as ->.
  { clear -Hn. induction Hn as [|c l Hc _ IH]; [done|]. cbn. by rewrite Hc, IH. }
  rewrite split_nl_app, He. cbn [app]. destruct (split_nl (take_while not_nul b)) as [ls tail]. cbn [fst snd]. rewrite fold_left_app. f_equal. f_equal.
  revert Hl. clear -Hi. induction (fst (split_nl head)) as [|line r IH]; [done|]. cbn [forallb fold_left]. intros [[H1%negb_true_iff H2%negb_true_iff]%andb_prop Hr]%andb_prop.
  assert (sse_line command t line = t) as ->; [|by apply IH]. unfold sse_line, sse_emit. destruct (drop_cr line) as [|c l]; [by rewrite Hi|]. by rewrite H1, H2.
Qed.

Lemma sse_process_open command t data : ss_open (sse_process command t data) = ss_open t.
Proof.
  unfold sse_process. destruct (split_nl _) as [ls tail]. cbn [ss_set_recv ss_open]. revert t. induction ls as [|l ls IH]; intros t; [done|]. cbn [fold_left]. rewrite IH.
  unfold sse_line, sse_emit. destruct (drop_cr l); [|by repeat case_match]. destruct (ss_event t); [done|]. destruct (strip_eol _); [done|]. destruct (str_eq _ _); [done|].
  destruct (str_eq (ss_current t) _); [|done]. by destruct (sse_resolve_url _ _).
Qed.

(** What arrives with the head reaches the decoder. *)
Lemma stream_first_read error_text command head h t b : stream_answer head h -> idle t -> ss_recv t = [] ->
  stream_run error_text command ([], t) [Arrive (head ++ b); PollStep] =
    Some ([], sse_process command (ss_conn (ss_running t) true (ss_failed t) (ss_live t) (ss_error t) t) b).
Proof.
  intros (Hh & Hr & Ht & Hl & Hst & Hp) Hi Hrecv. cbn [stream_run stream_one app]. rewrite (http_cb_endless head h b Hh Hr Ht Hl). cbn [mbind option_bind fold_left sse_event_handler].
  rewrite Hst. pose proof (head_nonempty head h Hh) as Hne. destruct (head ++ b) as [|c r] eqn:E; [by destruct head|]. cbn [mbind option_bind stream_one]. rewrite <-E. by rewrite sse_process_head.
Qed.

(** What a transport has after the events of [l] came: it is idle, the address
    is the last one given, and the messages are received in order after those
    of [msgs]. *)
Definition events_received (command : option cstr) (l : list served) (msgs : list cstr) (t t' : MCPSSETransport) : Prop :=
  idle t' /\ ss_recv t' = [] /\ ss_post_url t' = fold_left (served_url command) l (ss_post_url t) /\ ss_queue t' = queue_of (msgs ++ served_messages l) /\
  match msgs ++ served_messages l with
  | [] => mcp_transport_sse_recv t' = (t', None)
  | first :: others => mcp_transport_sse_recv t' = (ss_set_queue (queue_of others) (ss_session t) t', Some first)
  end.

Lemma pieces_received command l pieces t msgs :
  idle t -> ss_recv t = [] -> ss_queue t = queue_of msgs -> Forall message_ok msgs -> Forall (fun e => served_ok command (fst e)) l ->
  concat pieces = l ≫= served_text -> events_received command l.*1 msgs t (fold_left (sse_process command) pieces t).
Proof.
  intros Hi Hr Hq Hms Hl Hc. pose proof (served_texts_nul_free command l Hl) as H0. pose proof (served_texts_split command l [] Hl) as Hsplit. rewrite !app_nil_r in Hsplit.
  assert (fold_left (sse_process command) pieces t =
    ss_set_recv [] (ss_set_url (fold_left (served_url command) l.*1 (ss_post_url t)) (ss_set_queue (queue_of (msgs ++ served_messages l.*1)) (ss_session t) t))) as Ht.
  { rewrite sse_process_pieces; rewrite Hr; [|done|by rewrite Hc]. cbn [app]. rewrite Hc, Hsplit. cbn [fst snd split_nl]. by rewrite (served_list command l t msgs). }
  rewrite Ht. split_and!; try apply Hi; try reflexivity. assert (Forall message_ok (msgs ++ served_messages l.*1)) as Hall.
  { apply Forall_app. split; [done|]. apply (served_messages_ok command). by apply Forall_fmap. }
  unfold mcp_transport_sse_recv, sse_queue_pop. cbn [ss_set_recv ss_set_url ss_set_queue ss_queue ss_session]. destruct (msgs ++ served_messages l.*1) as [|m r]; [reflexivity|].
  apply Forall_cons in Hall as [Hm _]. by rewrite queue_pop_of.
Qed.

(** C30: The events that arrive together with the head of the answer that opens
    the stream are received: the transport is open, its messages are received
    in order after those that were already waiting, and the address to post to
    is the last one it gave; names of events and both line ends are understood.
    The decoder itself does the same with the data of events in any pieces; but
    what arrives after the head was read does not reach it, the library takes
    it for HTTP ([sse_late_event_lost]). *)
Theorem sse_events_received (error_text : cstr) (command : option cstr) (head : cstr) (h : HttpHead) (l : list (served * bool)) (pieces : list cstr)
    (t : MCPSSETransport) (msgs : list cstr) :
  stream_answer head h -> idle t -> ss_recv t = [] -> ss_queue t = queue_of msgs -> Forall message_ok msgs -> Forall (fun e => served_ok command (fst e)) l ->
  concat pieces = l ≫= served_text ->
  (exists t', stream_run error_text command ([], t) [Arrive (head ++ (l ≫= served_text)); PollStep] = Some ([], t') /\
    ss_open t' = true /\ events_received command l.*1 msgs t t') /\
  events_received command l.*1 msgs t (fold_left (sse_process command) pieces t).
Proof.
  intros Hh Hi Hr Hq Hms Hl Hc. split; [|by apply pieces_received]. rewrite (stream_first_read _ _ _ h) by done. eexists. split; [reflexivity|].
  destruct (pieces_received command l [l ≫= served_text] (ss_conn (ss_running t) true (ss_failed t) (ss_live t) (ss_error t) t) msgs) as (H1 & H2 & H3 & H4 & H5); try done.
  { cbn [concat]. apply app_nil_r. }
  split; [|by split_and!]. cbn [fold_left]. by rewrite sse_process_open.
Qed.

Definition demo_served : list (served * bool) := [(SEndpoint $"/messages?s=1", false); (SMessage (Some $"message") demo_result, true)].
Definition demo_stream : cstr := demo_served ≫= served_text.
Definition stream_head : cstr := response_text [($"Content-Type", $"text/event-stream")].

Lemma sse_events_received_witness :
  (exists t', stream_run [] (Some $"http://localhost/sse") ([], sse_fresh) [Arrive (stream_head ++ (demo_served ≫= served_text)); PollStep] = Some ([], t') /\
    ss_open t' = true /\ events_received (Some $"http://localhost/sse") demo_served.*1 [] sse_fresh t') /\
  events_received (Some $"http://localhost/sse") demo_served.*1 [] sse_fresh (fold_left (sse_process (Some $"http://localhost/sse")) [take 25 demo_stream; drop 25 demo_stream] sse_fresh).
Proof.
  apply (sse_events_received [] (Some $"http://localhost/sse") stream_head (parsed_head stream_head) demo_served [take 25 demo_stream; drop 25 demo_stream] sse_fresh []);
    [split_and!; by vm_compute|done|done|done|constructor| |by vm_compute].
  unfold demo_served. repeat constructor; cbn [fst snd served_ok]; try (apply (bool_decide_unpack _); by vm_compute).
Defined.

(** ** The stream and the HTTP handler of the library

    The library still takes what arrives for HTTP: an event that does not come
    together with the head of the answer is a request to it. *)

Definition late_event : cstr := served_text (SMessage None demo_result, false).
Definition spaced_event : cstr := $"data: {" ++ [ch_quote] ++ $"id" ++ [ch_quote] ++ $": 1}" ++ [ch_nl; ch_nl].
Definition stream_of (l : list stream_step) : option (cstr * MCPSSETransport) := stream_run [] (Some $"http://localhost/sse") ([], sse_fresh) l.

(** An event that arrives with the head of the stream is received. The
    same event, when it arrives after the head was read, is taken by the
    library for an HTTP request and thrown away: it is not received, and the
    transport is marked as failed. One with a blank in its data, which is not
    even that, ends the connection. *)
Theorem sse_late_event_lost :
  (exists t, stream_of [Arrive (stream_head ++ late_event); PollStep] = Some ([], t) /\ snd (mcp_transport_sse_recv t) = Some (printed demo_result) /\ ss_running t = true) /\
  (exists t, stream_of [Arrive stream_head; PollStep; Arrive late_event; PollStep] = Some ([], t) /\ snd (mcp_transport_sse_recv t) = None /\ ss_open t = true /\ ss_failed t = true) /\
  (exists t, stream_of [Arrive stream_head; PollStep; Arrive spaced_event; PollStep] = Some ([], t) /\ snd (mcp_transport_sse_recv t) = None /\ ss_running t = false) /\
  snd (mcp_transport_sse_recv (sse_process (Some $"http://localhost/sse") sse_fresh spaced_event)) = Some (printed demo_result).
Proof. split_and!; [eexists; split; [vm_compute; reflexivity|by vm_compute]..|by vm_compute]. Qed.

(** ** The end of a connection *)

(** The stream runs only on a connection that exists. *)
Lemma sse_running_live error_text command l : forall recv t s, (ss_running t = true -> ss_live t = true) ->
  stream_run error_text command (recv, t) l = Some s -> ss_running (snd s) = true -> ss_live (snd s) = true.
Proof.
  assert (forall evs t, (ss_running t = true -> ss_live t = true) -> ss_running (fold_left (sse_event_handler error_text) evs t) = true -> ss_live (fold_left (sse_event_handler error_text) evs t) = true) as Hh.
  { induction evs as [|e evs IH]; intros t Ht; [exact Ht|]. cbn [fold_left]. apply IH. destruct e; cbn [sse_event_handler]; try done; [|done..]. case_match; exact Ht. }
  assert (forall t data, ss_running (sse_process command t data) = ss_running t /\ ss_live (sse_process command t data) = ss_live t) as Hp.
  { intros t data. unfold sse_process. destruct (split_nl _) as [ls tail]. cbn [ss_set_recv ss_running ss_live]. revert t. induction ls as [|l' ls IH]; intros t; [done|]. cbn [fold_left].
    destruct (IH (sse_line command t l')) as [-> ->]. unfold sse_line, sse_emit. destruct (drop_cr l'); [|by repeat case_match]. destruct (ss_event t); [done|].
    destruct (strip_eol _); [done|]. destruct (str_eq _ _); [done|]. destruct (str_eq (ss_current t) _); [|done]. by destruct (sse_resolve_url _ _). }
  induction l as [|e l IH]; intros recv t s Ht; cbn [stream_run]; [by intros [= <-]|]. destruct (stream_one error_text command (recv, t) e) as [[recv' t']|] eqn:E; [|done].
  cbn [mbind option_bind]. apply IH. destruct e as [bytes| | |]; cbn [stream_one] in E.
  - destruct (http_cb false (recv ++ bytes)) as [[evs kept]|]; [|done]. cbn [mbind option_bind] in E. apply (inj Some) in E. injection E as <- <-.
    destruct evs, kept, bytes; try (by apply (Hh [])); by apply Hh.
  - injection E as <- <-. destruct recv; [exact Ht|]. by destruct (Hp t (a :: recv)) as [-> ->].
  - by injection E as <- <-.
  - by injection E as <- <-.
Qed.

(** Closing a transport whose connection has ended uses the connection that was
    freed. *)
Lemma sse_close_after_end error_text command recv t s : stream_one error_text command (recv, t) ConnClose = Some s -> mcp_transport_sse_close (snd s) = None.
Proof. by intros [= <-]. Qed.
Lemma websocket_close_after_end t : mcp_transport_websocket_close (mcp_websocket_event_handler t WsClose) = None.
Proof. reflexivity. Qed.

(** The messages of a web socket are received in order, and nothing is sent
    once the connection has ended. *)
Lemma websocket_messages js : Forall (fun j => json_ok 0 j = true) js -> forall t msgs, wt_queue t = queue_of msgs -> Forall message_ok msgs ->
  wt_queue (fold_left mcp_websocket_event_handler (WsMsg <$> (printed <$> js)) t) = queue_of (msgs ++ (printed <$> js)).
Proof.
  induction 1 as [|j js Hj _ IH]; intros t msgs Hq Hms; [cbn; by rewrite app_nil_r|]. rewrite !fmap_cons. cbn [fold_left]. rewrite (IH _ (msgs ++ [printed j])).
  - by rewrite <-app_assoc.
  - destruct (printed_line j Hj) as (_ & H0 & _). cbn [mcp_websocket_event_handler wt_queue]. rewrite (take_while_not_nul _ H0 : c_string (printed j) = printed j), Hq. by apply enqueue_printed.
  - apply Forall_app. split; [done|]. apply Forall_singleton. by apply printed_message.
Qed.

Lemma websocket_send_defined evs data : is_Some (mcp_transport_websocket_send (fold_left mcp_websocket_event_handler evs ws_fresh) data).
Proof.
  assert (forall t, (wt_running t = true -> wt_live t = true) -> let t' := fold_left mcp_websocket_event_handler evs t in wt_running t' = true -> wt_live t' = true) as H.
  { induction evs as [|e evs IH]; intros t Ht; [exact Ht|]. cbn [fold_left]. apply IH. by destruct e. }
  specialize (H ws_fresh ltac:(done)). cbv zeta in H. unfold mcp_transport_websocket_send. destruct (wt_running _); [|by eexists]. rewrite H by done. cbn [andb]. case_match; by eexists.
Qed.
