(* ===== verification/ReminderJson.v ===== *)
(** The arguments that [maybe_schedule_reminder_fallback] of
    [src/agent/agent_loop.c] writes by hand for the cron tool are the JSON
    text that cJSON would print, as long as they fit their buffers. *)
From S2P Require Import Prelude CStr Json Reminder AgentCore.

(** A byte of text: no control byte other than newline, return and tab. *)
Definition text_char (c : ascii) : bool :=
  (31 <? code c)%N || bool_decide (c = ch_nl) || bool_decide (c = ch_cr) || bool_decide (c = ch_tab).

(** [json_escape_string] writes returns and tabs as spaces. *)
Definition respace (c : ascii) : ascii :=
  if bool_decide (c = ch_cr) || bool_decide (c = ch_tab) then " "%char else c.

(** The two bytes of an escape, the one byte of a blank. *)
Lemma escape_cases c (two one : cstr) : text_char c = true ->
  (if bool_decide (c = ch_quote) || bool_decide (c = ch_bs) then ch_bs :: c :: two
   else if bool_decide (c = ch_nl) then ch_bs :: "n"%char :: two
   else if bool_decide (c = ch_cr) || bool_decide (c = ch_tab) then " "%char :: one else c :: one) =
  escape_char (respace c) ++
    (if bool_decide (c = ch_quote) || bool_decide (c = ch_bs) || bool_decide (c = ch_nl) then two else one).
Proof. destruct c as [[] [] [] [] [] [] [] []]; vm_compute; done. Qed.

Lemma json_escape_fits out_size s : Forall (fun c => text_char c = true) s -> forall n, n + 2 * length s < out_size ->
  json_escape n out_size s = (respace <$> s) ≫= escape_char.
Proof.
  induction 1 as [|c s Hc _ IH]; intros n Hn; [done|]. cbn [length] in Hn. cbn [json_escape].
  rewrite (proj2 (Nat.ltb_lt (n + 1) out_size)) by lia. rewrite (proj2 (Nat.ltb_lt (n + 2) out_size)) by lia.
  rewrite !andb_true_r, escape_cases by done. cbn [fmap list_fmap mbind list_bind]. f_equal.
  rewrite !IH by lia. by destruct (_ || _).
Qed.

Lemma escape_length_two s : Forall (fun c => text_char c = true) s ->
  length ((respace <$> s) ≫= escape_char) <= 2 * length s.
Proof.
  induction 1 as [|c s Hc _ IH]; [done|]. rewrite fmap_cons, bind_cons, length_app. cbn [length].
  assert (length (escape_char (respace c)) <= 2); [|lia].
  revert Hc. clear. destruct c as [[] [] [] [] [] [] [] []]; vm_compute; auto; by intros.
Qed.

Lemma respace_str_ok s : Forall (fun c => text_char c = true) s -> str_ok (respace <$> s) = true.
Proof.
  intros H. apply bool_decide_eq_true. intros (c & Hc & Hin)%list_elem_of_fmap.
  rewrite Forall_forall in H. specialize (H _ Hin).
  revert Hc H. destruct c as [[] [] [] [] [] [] [] []]; vm_compute; done.
Qed.

(** The object the arguments stand for. *)
Definition reminder_object (name payload channel chat_id : cstr) (delay : Z) : json :=
  JObj [($"name", JStr (respace <$> name)); ($"payload", JStr (respace <$> payload));
        ($"schedule", JStr ($"@in " ++ fmt_d delay)); ($"channel", JStr (respace <$> channel));
        ($"chat_id", JStr (respace <$> chat_id))].

Definition reminder_name (parsed : ReminderParseResult) : cstr :=
  match r_name parsed with [] => $"reminder" | n => n end.

(** The text of the arguments, for escaped parts [a], [b], [d], [e] and the number [n]. *)
Definition args_text (a b n d e : cstr) : cstr :=
  $"{" ++ [ch_quote] ++ $"name" ++ [ch_quote] ++ $":" ++ [ch_quote] ++ a ++ [ch_quote] ++ $"," ++
  [ch_quote] ++ $"payload" ++ [ch_quote] ++ $":" ++ [ch_quote] ++ b ++ [ch_quote] ++ $"," ++
  [ch_quote] ++ $"schedule" ++ [ch_quote] ++ $":" ++ [ch_quote] ++ $"@in " ++ n ++ [ch_quote] ++ $"," ++
  [ch_quote] ++ $"channel" ++ [ch_quote] ++ $":" ++ [ch_quote] ++ d ++ [ch_quote] ++ $"," ++
  [ch_quote] ++ $"chat_id" ++ [ch_quote] ++ $":" ++ [ch_quote] ++ e ++ [ch_quote] ++ $"}".

Lemma args_text_length a b n d e : length (args_text a b n d e) = length a + length b + length n + length d + length e + 68.
Proof. unfold args_text. rewrite !length_app. cbn [length list_ascii_of_string]. lia. Qed.

Lemma escape_number z : fmt_d z ≫= escape_char = fmt_d z.
Proof.
  induction (fmt_d_number_chars z) as [|c s Hc _ IH]; [done|]. rewrite bind_cons, IH. revert Hc. clear.
  destruct c as [[] [] [] [] [] [] [] []]; vm_compute; done.
Qed.

Lemma print_reminder_object name payload channel chat_id delay :
  cJSON_PrintUnformatted (reminder_object name payload channel chat_id delay) =
    Some (args_text ((respace <$> name) ≫= escape_char) ((respace <$> payload) ≫= escape_char) (fmt_d delay)
            ((respace <$> channel) ≫= escape_char) ((respace <$> chat_id) ≫= escape_char)).
Proof.
  unfold reminder_object, cJSON_PrintUnformatted. cbn [print_value print_members].
  unfold print_string_ptr. rewrite bind_app, escape_number.
  generalize ((respace <$> name) ≫= escape_char), ((respace <$> payload) ≫= escape_char), (fmt_d delay),
    ((respace <$> channel) ≫= escape_char), ((respace <$> chat_id) ≫= escape_char).
  intros a b n d e. apply (f_equal Some). unfold args_text. cbn.
  repeat match goal with |- context [escape_char ?c] => change (escape_char c) with [c] end.
  repeat (progress (cbn [app]; rewrite <- ?app_assoc)). done.
Qed.

Lemma reminder_args_text parsed channel chat_id :
  let name := reminder_name parsed in
  Forall (fun c => text_char c = true) (name ++ r_payload parsed ++ channel ++ chat_id) ->
  2 * length name < 256 -> 2 * length (r_payload parsed) < 768 -> 2 * length channel < 192 -> 2 * length chat_id < 768 ->
  2 * (length name + length (r_payload parsed) + length channel + length chat_id) <= 1300 ->
  (- 2 ^ 31 <= r_delay_seconds parsed < 2 ^ 31)%Z ->
  cJSON_PrintUnformatted (reminder_object name (r_payload parsed) channel chat_id (r_delay_seconds parsed)) =
    Some (reminder_args parsed channel chat_id).
Proof.
  intros name Ht Hn Hp Hc Hi Hsum Hd. rewrite !Forall_app in Ht. destruct Ht as (Tn & Tp & Tc & Ti).
  rewrite print_reminder_object. f_equal. unfold reminder_args. fold (reminder_name parsed). fold name.
  unfold json_escape_string.
  rewrite (json_escape_fits 256 name Tn), (json_escape_fits 768 (r_payload parsed) Tp), (json_escape_fits 192 channel Tc),
    (json_escape_fits 768 chat_id Ti) by (cbn [plus]; lia).
  symmetry. apply truncate_to_id. fold (args_text ((respace <$> name) ≫= escape_char)
    ((respace <$> r_payload parsed) ≫= escape_char) (fmt_d (r_delay_seconds parsed))
    ((respace <$> channel) ≫= escape_char) ((respace <$> chat_id) ≫= escape_char)).
  rewrite args_text_length. pose proof (fmt_d_int_length _ Hd).
  pose proof (escape_length_two _ Tn). pose proof (escape_length_two _ Tp). pose proof (escape_length_two _ Tc).
  pose proof (escape_length_two _ Ti). lia.
Qed.

(** The cron tool gets what was parsed: the arguments the agent writes by
    hand are read by cJSON as the object with the name, the payload, the delay
    and the conversation (returns and tabs as spaces), for texts without other
    control bytes that fit the escape buffers and the argument buffer. *)
Theorem reminder_args_read_back parsed channel chat_id :
  let name := reminder_name parsed in
  Forall (fun c => text_char c = true) (name ++ r_payload parsed ++ channel ++ chat_id) ->
  2 * length name < 256 -> 2 * length (r_payload parsed) < 768 -> 2 * length channel < 192 -> 2 * length chat_id < 768 ->
  2 * (length name + length (r_payload parsed) + length channel + length chat_id) <= 1300 ->
  (- 2 ^ 31 <= r_delay_seconds parsed < 2 ^ 31)%Z ->
  cJSON_Parse (reminder_args parsed channel chat_id) =
    Some (reminder_object name (r_payload parsed) channel chat_id (r_delay_seconds parsed)).
Proof.
  intros name Ht Hn Hp Hc Hi Hsum Hd.
  pose proof (reminder_args_text parsed channel chat_id Ht Hn Hp Hc Hi Hsum Hd) as Hprint.
  rewrite !Forall_app in Ht. destruct Ht as (Tn & Tp & Tc & Ti).
  rewrite <- (app_nil_r (reminder_args _ _ _)). eapply (print_parse_any false); [|exact Hprint|done].
  unfold reminder_object. cbn [json_ok forallb fst snd].
  rewrite !respace_str_ok by done. rewrite !andb_true_r. cbn -[str_ok app fmt_d]. apply bool_decide_eq_true.
  intros [H|H]%elem_of_app; [by vm_compute in H; repeat (apply elem_of_cons in H as [H|H]; [discriminate|]); apply elem_of_nil in H|].
  pose proof (fmt_d_number_chars (r_delay_seconds parsed)) as Hch. rewrite Forall_forall in Hch. by specialize (Hch _ H).
Qed.

(** The escaping drops a backslash at the end of its buffer: a quote that
    meets exactly one free byte is copied bare, and ends the JSON string early. *)
Theorem json_escape_bare_quote s out_size :
  Forall (fun c => text_char c = true /\ escape_char c = [c]) s -> length s + 2 = out_size ->
  json_escape_string (s ++ [ch_quote]) out_size = s ++ [ch_quote].
Proof.
  intros Hs Hl. unfold json_escape_string.
  assert (forall n, n + length s + 2 = out_size -> json_escape n out_size (s ++ [ch_quote]) = s ++ [ch_quote]) as H;
    [|apply (H 0); lia].
  clear Hl. induction Hs as [|c s [Ht He] _ IH]; intros n Hn; cbn [app json_escape length] in *.
  - rewrite (proj2 (Nat.ltb_lt _ _)) by lia. rewrite (proj2 (Nat.ltb_ge (n + 2) _)) by lia. done.
  - rewrite (proj2 (Nat.ltb_lt (n + 1) _)) by lia. rewrite (proj2 (Nat.ltb_lt (n + 2) _)) by lia.
    rewrite (IH (n + 1)) by lia. rewrite !andb_true_r.
    generalize (json_escape (n + 2) out_size (s ++ [ch_quote])), (s ++ [ch_quote]). intros u v.
    revert Ht He. clear. destruct c as [[] [] [] [] [] [] [] []]; vm_compute; congruence.
Qed.

Lemma forallb_text s : forallb text_char s = true -> Forall (fun c => text_char c = true) s.
Proof. induction s as [|c s IH]; [constructor|]. cbn. intros [Hc Hs]%andb_prop. constructor; auto. Qed.

Definition demo_reminder : ReminderParseResult := reminder_parse_simple $"in 5 minutes remind me to drink water".

Lemma reminder_args_read_back_witness :
  cJSON_Parse (reminder_args demo_reminder $"cli" $"me") =
    Some (reminder_object (reminder_name demo_reminder) (r_payload demo_reminder) $"cli" $"me" 300).
Proof.
  apply (reminder_args_read_back demo_reminder $"cli" $"me");
    [by apply forallb_text; vm_compute|apply Nat.ltb_lt; by vm_compute..|apply Nat.leb_le; by vm_compute|].
  vm_compute. by split.
Defined.

Lemma json_escape_bare_quote_witness : json_escape_string ($"say " ++ [ch_quote]) 6 = $"say " ++ [ch_quote].
Proof. apply (json_escape_bare_quote $"say " 6); [by repeat constructor|done]. Defined.
