(* ===== verification/ReminderFlow.v ===== *)
(** A reminder from the request to its delivery: the fallback of
    [src/agent/agent_loop.c], the cron tool of [src/tools/tools_impl.c], the
    cron service of [src/cron/cron.c] and the callback of [src/main.c]. *)
From S2P Require Import Prelude CStr Json Common Message MessageBus Fs Session CronSchedule Cron CronRounds Utils Reminder ToolRegistry ToolExecutor ToolContext Orchestrator Memory Skills Tools AgentCore ReminderJson.

(** The answer of the tool never reads as a failure. *)
Lemma contains_char s p c : c ∈ p -> contains s p = true -> c ∈ s.
Proof.
  intros Hc [i Hi]%bool_decide_eq_true. apply strstr_Some in Hi as [Hi _]. rewrite Hi.
  apply elem_of_app. right. apply elem_of_app. by left.
Qed.

Lemma take_absent (c : ascii) n s : c ∉ s -> c ∉ take n s.
Proof. intros H Hin. apply H. rewrite <-(take_drop n s). apply elem_of_app. by left. Qed.

Lemma scheduled_answer now rnd :
  contains (truncate_to 256 ($"Job scheduled with ID: " ++ generated_id now rnd)) $"Failed to schedule" = false.
Proof.
  apply not_true_is_false. intros H. apply (contains_char _ _ "F"%char) in H; [|by left]. revert H.
  apply take_absent. unfold generated_id. intros [H|H]%elem_of_app; [revert H; apply (bool_decide_unpack _); by vm_compute|].
  revert H. apply take_absent. rewrite !elem_of_app. intros [H|[H|[H|H]]].
  - revert H. apply (bool_decide_unpack _). by vm_compute.
  - by apply fmt_d_absent in H.
  - revert H. apply (bool_decide_unpack _). by vm_compute.
  - by apply fmt_d_absent in H.
Qed.

Lemma placeholder_nonempty s : is_placeholder_value (Some s) = false -> s <> [].
Proof. by intros H ->. Qed.

(** The services of [agent_loop.c] from the components that provide them: the
    memory and the skills of the tools' state. Time stamps and plugins stay
    arguments. *)
Section World.
Context (loader : option SkillsLoader) (time_text : Z -> cstr).
Context (load_external : PluginManager -> ToolWorld -> Z * PluginManager * ToolWorld).
Context (external : nat -> cstr -> cstr -> cstr -> list cstr -> ToolWorld -> list cstr * ToolWorld).

Definition world_append_history (workspace_path entry : cstr) (w : ToolWorld) : Error * ToolWorld :=
  let '(fs, m, err) := Memory.memory_append_history (tw_fs w) (tw_memory w) workspace_path entry in
  (err, with_memory (with_fs w fs) m).
Definition world_consolidate (workspace_path : cstr) (w : ToolWorld) : Error * ToolWorld :=
  let '(fs, m, err) := Memory.memory_consolidate (tw_fs w) (tw_memory w) workspace_path in
  (err, with_memory (with_fs w fs) m).

Definition tool_world_env : AgentEnv ToolWorld := {|
  env_has_memory := true;
  memory_append_history := world_append_history;
  memory_consolidate := world_consolidate;
  env_has_skills := bool_decide (is_Some loader);
  skills_loader_load_skill := fun w name => l ← loader; Skills.skills_loader_load_skill (tw_fs w) l name;
  fmt_time := time_text;
  plugin_manager_load_external := load_external;
  external_command := external;
|}.
End World.

Section Flow.
Context `{AgentEnv ToolWorld}.
Context (services : nat -> Services) (sys : ToolSys).

(** The agent, the request and the conversation it came from. *)
Context (l : @AgentLoop ToolWorld) (text channel chat_id : cstr).
Context (cron_tool : Tool ToolWorld ToolContext) (ctx : ToolContext).

Abbreviation parsed := (reminder_parse_simple text).
Abbreviation cron := (tw_cron (al_world l)).
Abbreviation name := (respace <$> reminder_name parsed).

(** The cron tool is the built-in one, its service is there, and the
    conversation is one of a registered channel. *)
Hypothesis Htool : tool_registry_get (al_tools l) (Some $"cron") = Some cron_tool.
Hypothesis Hexec : t_execute cron_tool = tool_cron services sys.
Hypothesis Hctx : t_user_data cron_tool = Some ctx.
Hypothesis Hservice : sv_cron_service (svc services ctx) = true.
Hypothesis Hvalid : r_valid parsed = true.
Hypothesis Hchannel : is_placeholder_value (Some (respace <$> channel)) = false.
Hypothesis Hregistered : is_registered_channel services ctx (Some (respace <$> channel)) = true.
Hypothesis Hchat : is_placeholder_value (Some (respace <$> chat_id)) = false.

(** The texts are free of control bytes and fit the argument buffers. *)
Hypothesis Htext : Forall (fun c => text_char c = true) (reminder_name parsed ++ r_payload parsed ++ channel ++ chat_id).
Hypothesis Hname_fits : 2 * length (reminder_name parsed) < 256.
Hypothesis Hpayload_fits : 2 * length (r_payload parsed) < 768.
Hypothesis Hchannel_fits : 2 * length channel < 192.
Hypothesis Hchat_fits : 2 * length chat_id < 768.
Hypothesis Hall_fits : 2 * (length (reminder_name parsed) + length (r_payload parsed) + length channel + length chat_id) <= 1300.

Definition reminder_job : CronJob :=
  mkJob None (Some name) (Some (respace <$> r_payload parsed)) (Some (respace <$> channel)) (Some (respace <$> chat_id))
    true 0 (Some ($"@in " ++ fmt_d (r_delay_seconds parsed))) 0 0 0.

Lemma delay_range : (1 <= r_delay_seconds parsed <= INT_MAX)%Z.
Proof using Hvalid. clear -Hvalid. destruct (reminder_parse_simple_sound text _ eq_refl Hvalid) as [Hd _]. lia. Qed.

Lemma in_schedule now :
  cron_schedule_next_run (ts_utc_offset sys) (Some ($"@in " ++ fmt_d (r_delay_seconds parsed))) now =
    (CRON_SCHEDULE_ONE_TIME, Some (now + r_delay_seconds parsed)%Z).
Proof using Hvalid.
  clear -Hvalid. apply (cron_schedule_relative (ts_utc_offset sys) _ 0 now); [apply delay_range|unfold LONG_MIN, LONG_MAX; lia].
Qed.

Lemma delay_int : (- 2 ^ 31 <= r_delay_seconds parsed < 2 ^ 31)%Z.
Proof using Hvalid. clear -Hvalid. pose proof delay_range. unfold INT_MAX in *. lia. Qed.

(** What the fallback does is what the service does with the job. *)
Lemma fallback_adds_job :
  let '(fs, s, r) := cron_service_add_job (ts_utc_offset sys) (ts_now sys) (ts_rand sys) (tw_fs (al_world l)) cron reminder_job in
  let result := match r with
                | AddId id => truncate_to 256 ($"Job scheduled with ID: " ++ id)
                | _ => $"Failed to schedule job: invalid schedule format"
                end in
  maybe_schedule_reminder_fallback l text channel chat_id =
    (set_world l (with_cron (al_world l) fs s),
     if contains result $"Failed to schedule" then None
     else Some (truncate_to 256 ($"已设置提醒，" ++ fmt_d (r_delay_seconds parsed) ++ $" 秒后提醒你。"))).
Proof using All.
  pose proof (reminder_args_read_back parsed channel chat_id Htext Hname_fits Hpayload_fits Hchannel_fits Hchat_fits Hall_fits delay_int) as Hargs.
  assert (cron_job_of services ctx name (respace <$> r_payload parsed) ($"@in " ++ fmt_d (r_delay_seconds parsed))
            (Some (respace <$> channel)) (Some (respace <$> chat_id)) = reminder_job) as Hjob.
  { unfold cron_job_of, reminder_job, resolve_channel, resolve_chat_id. rewrite Hchannel, Hregistered, Hchat. cbn [negb andb].
    destruct (respace <$> channel) eqn:E1; [by destruct (placeholder_nonempty _ Hchannel)|].
    by destruct (respace <$> chat_id) eqn:E2; [destruct (placeholder_nonempty _ Hchat)|]. }
  destruct (cron_service_add_job _ _ _ _ _ reminder_job) as [[fs s] r] eqn:Eadd. cbn zeta.
  unfold maybe_schedule_reminder_fallback. cbn zeta. rewrite Hvalid, Htool, Hctx, Hexec. unfold tool_cron. rewrite Hservice. cbn [negb].
  rewrite Hargs. unfold get_json_string, reminder_object. eval_member. cbn [is_string]. rewrite Hjob, Eadd.
  unfold ok_result. cbn [is_err err_ok]. by destruct (contains _ _).
Qed.

(** The message that delivers the reminder. *)
Definition delivery : InboundMessage := cron_callback reminder_job.

(** C3: A reminder is delivered. When no job has its name and its id is not in
    the table, the fallback confirms it and adds one job to the cron service.
    After that jobs may be added and removed in any way that does not concern
    this one ([undisturbed]: other names, new ids), between any rounds of the
    worker: the job is called back exactly once, in the first round at or after
    the delay, with the message the user asked for to the conversation that
    asked, and is then gone; before the delay it waits. The section's
    hypotheses say that the tool is the built-in one with a cron service, that
    the conversation is one of a registered channel, and that the texts have no
    control bytes and fit the argument buffers. *)
Theorem reminder_delivered ops fs : store_ok cron ->
  List.find (has_name name) (cs_jobs cron) = None ->
  (Some (generated_id (ts_now sys) (ts_rand sys)) ∉ (node_id <$> cs_jobs cron)) ->
  let id := generated_id (ts_now sys) (ts_rand sys) in
  let '(l', scheduled) := maybe_schedule_reminder_fallback l text channel chat_id in
  is_Some scheduled /\
  (undisturbed (ts_utc_offset sys) id (Some name) ops fs (tw_cron (al_world l')) ->
   exists fs' s' calls, cron_history (ts_utc_offset sys) ops fs (tw_cron (al_world l')) = Some (fs', s', calls) /\
    if existsb (fun now => ts_now sys + r_delay_seconds parsed <=? now)%Z (round_times ops)
    then (cron_callback <$> calls_of id calls = [delivery]) /\ (Some id ∉ (node_id <$> cs_jobs s'))
    else calls_of id calls = [] /\ Some id ∈ (node_id <$> cs_jobs s')).
Proof using All.
  intros Hok Hfind Hid id. pose proof fallback_adds_job as Hadd.
  unfold cron_service_add_job in Hadd. cbn [reminder_job cj_name] in Hadd. rewrite Hfind in Hadd.
  unfold insert_job in Hadd. cbn zeta in Hadd. cbn [reminder_job copy_job cj_schedule cj_id default from_option] in Hadd.
  rewrite in_schedule in Hadd. rewrite scheduled_answer in Hadd. rewrite Hadd. clear Hadd. split; [by eexists|].
  cbn [al_world set_world tw_cron with_cron]. set (j := set_next_run _ _). set (n := mkNode (cs_next_addr cron) j). intros Hu.
  destruct (cron_one_time_once (ts_utc_offset sys) id n ops fs (push_job cron j)) as (fs' & s' & calls & Hr & Hc).
  - by apply (store_ok_push _ _ id).
  - by left.
  - done.
  - intros t. cbn [n jn_job j set_next_run set_id cj_schedule copy_job reminder_job]. by rewrite in_schedule.
  - exact Hu.
  - eexists _, _, _. split; [exact Hr|].
    change (existsb (fun now => due now (jn_job n)) (round_times ops)) with (existsb (fun now => ts_now sys + r_delay_seconds parsed <=? now)%Z (round_times ops)) in Hc.
    destruct (existsb _ (round_times ops)); destruct Hc as [H1 H2]; (split; [|try done]).
    + rewrite H1. reflexivity.
    + done.
    + apply list_elem_of_fmap. by exists n.
Qed.

(** A second reminder of the same name does not become a second job: the
    job it finds keeps its conversation, and gets the new text and time, so
    the earlier reminder is lost and the new one goes to the earlier
    conversation. *)
Theorem reminder_same_name_replaces n t0 r0 : List.find (has_name name) (cs_jobs cron) = Some n -> node_id n = Some (generated_id t0 r0) ->
  let '(l', scheduled) := maybe_schedule_reminder_fallback l text channel chat_id in
  is_Some scheduled /\ (jn_addr <$> cs_jobs (tw_cron (al_world l'))) = jn_addr <$> cs_jobs cron /\
  exists n', n' ∈ cs_jobs (tw_cron (al_world l')) /\ jn_addr n' = jn_addr n /\ node_id n' = node_id n /\
    cj_next_run (jn_job n') = (ts_now sys + r_delay_seconds parsed)%Z /\
    cj_payload_message (jn_job n') = cj_payload_message reminder_job /\
    cj_channel (jn_job n') = cj_channel (jn_job n) /\ cj_to (jn_job n') = cj_to (jn_job n).
Proof using All.
  intros Hfind Hid. pose proof fallback_adds_job as Hadd.
  unfold cron_service_add_job in Hadd. cbn [reminder_job cj_name] in Hadd. rewrite Hfind in Hadd.
  unfold update_job in Hadd. cbn [reminder_job cj_schedule cj_payload_message] in Hadd. rewrite in_schedule in Hadd. cbn zeta in Hadd.
  unfold node_id in Hid. cbn [cj_id] in Hadd. rewrite Hid, scheduled_answer in Hadd. rewrite Hadd. clear Hadd. split; [by eexists|].
  cbn [al_world set_world tw_cron with_cron with_jobs cs_jobs]. set (job' := mkJob _ _ _ _ _ _ _ _ _ _ _). split.
  { by apply replace_first_proj. }
  exists (mkNode (jn_addr n) job'). split_and!; [exact (replace_first_in _ (fun _ => job') _ _ Hfind)|done..].
Qed.
End Flow.

(** Every reminder written in Chinese has the same name. *)
Example chinese_reminders_share_name :
  r_name (reminder_parse_simple $"5分钟后提醒我喝水") = $"reminder" /\ r_name (reminder_parse_simple $"10分钟后提醒我开会") = $"reminder".
Proof. by vm_compute. Qed.

(** ** Witnesses *)

Definition flow_tool : Tool ToolWorld ToolContext :=
  mkTool $"cron" [] [] (tool_cron demo_services demo_sys) (Some (demo_ctx 1)) None false.
#[local] Instance flow_env : AgentEnv ToolWorld := tool_world_env None (fun _ => []) (fun p w => (0%Z, p, w)) (fun _ _ _ _ _ w => ([], w)).
Definition flow_agent (w : ToolWorld) : AgentLoop ToolWorld := {|
  al_sessions := session_manager_new $"/w"; al_fs := tw_fs w; al_orch := mkOrchestrator [] [];
  al_tools := mkRegistry [flow_tool] 8; al_executor := tool_executor_new 0; al_outbound := Fifo.empty; al_internal := Fifo.empty;
  al_world := w; al_config := None; al_has_provider := true; al_llm_calls := []; al_tool_ctxs := []; al_inbox := [];
  al_workspace_path := $"/w"; al_plugins := mkPlugins [] [] [];
|}.

Definition flow_text : cstr := $"in 5 minutes remind me to drink water".
(** The world after that reminder, and a request of the same name. *)
Definition flow_world : ToolWorld := al_world (fst (maybe_schedule_reminder_fallback (flow_agent demo_world) flow_text $"feishu" $"oc_1")).

(** Rounds of the worker, with another reminder set in between. *)
Definition flow_ops : list store_op :=
  [OpRound 1100; OpAdd 1200 3 (mkJob None (Some $"call mother") (Some $"call") (Some $"feishu") (Some $"oc_9") true 0 (Some $"@in 60") 0 0 0);
   OpRound 1400; OpRound 1500]%Z.

Lemma reminder_delivered_witness :
  let '(l', scheduled) := maybe_schedule_reminder_fallback (flow_agent demo_world) flow_text $"feishu" $"oc_1" in
  is_Some scheduled /\
  exists fs' s' calls, cron_history 28800 flow_ops (tw_fs demo_world) (tw_cron (al_world l')) = Some (fs', s', calls) /\
    (cron_callback <$> calls_of (generated_id 1000 7) calls) = [delivery flow_text $"feishu" $"oc_1"] /\
    (Some (generated_id 1000 7) ∉ (node_id <$> cs_jobs s')).
Proof.
  assert (existsb (fun now => 1000 + r_delay_seconds (reminder_parse_simple flow_text) <=? now)%Z (round_times flow_ops) = true) as E by by vm_compute.
  assert (undisturbed 28800 (generated_id 1000 7) (Some (respace <$> reminder_name (reminder_parse_simple flow_text))) flow_ops (tw_fs demo_world)
    (tw_cron flow_world)) as Hu.
  { apply (bool_decide_unpack _). by vm_compute. }
  pose proof (reminder_delivered demo_services demo_sys (flow_agent demo_world) flow_text $"feishu" $"oc_1" flow_tool (demo_ctx 1)
    eq_refl eq_refl eq_refl eq_refl ltac:(by vm_compute) ltac:(by vm_compute) ltac:(by vm_compute) ltac:(by vm_compute)
    ltac:(by apply forallb_text; vm_compute) ltac:(apply Nat.ltb_lt; by vm_compute) ltac:(apply Nat.ltb_lt; by vm_compute)
    ltac:(apply Nat.ltb_lt; by vm_compute) ltac:(apply Nat.ltb_lt; by vm_compute) ltac:(apply Nat.leb_le; by vm_compute)
    flow_ops (tw_fs demo_world) ltac:(split; [split|]; constructor) eq_refl (not_elem_of_nil _)) as H.
  revert Hu H. unfold flow_world. generalize (maybe_schedule_reminder_fallback (flow_agent demo_world) flow_text $"feishu" $"oc_1").
  intros [l' scheduled] Hu [Hs H]. split; [exact Hs|]. specialize (H Hu). change (ts_now demo_sys) with 1000%Z in H. change (ts_rand demo_sys) with 7%Z in H.
  rewrite E in H. exact H.
Defined.

(** The same request from another conversation. *)
Lemma reminder_same_name_replaces_witness :
  let '(l', scheduled) := maybe_schedule_reminder_fallback (flow_agent flow_world) flow_text $"feishu" $"oc_2" in
  is_Some scheduled /\ length (cs_jobs (tw_cron (al_world l'))) = 1 /\
  exists n', n' ∈ cs_jobs (tw_cron (al_world l')) /\ cj_to (jn_job n') = Some $"oc_1".
Proof.
  assert (exists n, List.find (has_name (respace <$> reminder_name (reminder_parse_simple flow_text))) (cs_jobs (tw_cron flow_world)) = Some n /\
    node_id n = Some (generated_id 1000 7) /\ cj_to (jn_job n) = Some $"oc_1" /\ length (jn_addr <$> cs_jobs (tw_cron flow_world)) = 1)
    as (n & Ef & Hid & Hto & Hlen) by (eexists; split; [vm_compute; reflexivity|by vm_compute]).
  pose proof (reminder_same_name_replaces demo_services demo_sys (flow_agent flow_world) flow_text $"feishu" $"oc_2" flow_tool (demo_ctx 1)
    eq_refl eq_refl eq_refl eq_refl ltac:(by vm_compute) ltac:(by vm_compute) ltac:(by vm_compute) ltac:(by vm_compute)
    ltac:(by apply forallb_text; vm_compute) ltac:(apply Nat.ltb_lt; by vm_compute) ltac:(apply Nat.ltb_lt; by vm_compute)
    ltac:(apply Nat.ltb_lt; by vm_compute) ltac:(apply Nat.ltb_lt; by vm_compute) ltac:(apply Nat.leb_le; by vm_compute) n 1000 7 Ef Hid) as H.
  revert H. generalize (maybe_schedule_reminder_fallback (flow_agent flow_world) flow_text $"feishu" $"oc_2").
  intros [l' scheduled] (H1 & H2 & n' & H3 & _ & _ & _ & _ & _ & H4). split; [exact H1|]. split.
  - rewrite <-(length_fmap jn_addr). rewrite H2. exact Hlen.
  - exists n'. split; [exact H3|]. etransitivity; [exact H4|exact Hto].
Defined.
