(* ===== verification/Acp.v ===== *)
(** [src/plugins/channels/acp_channel/acp_server.c]: the HTTP channel. A
    request is handled at once, by the one thread that polls the server, so
    the handler is a function of the state; [W] is what the tools act on.
    Allocations succeed. *)
From S2P Require Import Prelude CStr Json Common Message MessageBus Fs Session Mongoose ToolRegistry Config.

Definition ACP_DEFAULT_PORT : Z := 8080.
Definition ACP_DEFAULT_HOST : cstr := $"127.0.0.1".
Definition ACP_ROUTE_TOOLS_LIST : cstr := $"/v1/tools/list".
Definition ACP_ROUTE_TOOLS_CALL : cstr := $"/v1/tools/call".
Definition ACP_ROUTE_CHAT_COMPLETIONS : cstr := $"/v1/chat/completions".
Definition ACP_ROUTE_CHAT_RESPONSES : cstr := $"/v1/chat/responses".
Definition ACP_ROUTE_HEALTH : cstr := $"/v1/health".
Definition ACP_MAX_CONNECTIONS : Z := 100.

(** [as_listening]: there is a connection manager that listens. *)
Record ACPServer (W D : Type) := mkServer {
  as_port : Z;
  as_host : cstr;
  as_running : bool;
  as_tool_registry : option (ToolRegistry W D);
  as_agent_loop : bool;
  as_listening : bool;
  as_active_connections : Z;
}.
Arguments mkServer {W D}.
Arguments as_port {W D}.
Arguments as_host {W D}.
Arguments as_running {W D}.
Arguments as_tool_registry {W D}.
Arguments as_agent_loop {W D}.
Arguments as_listening {W D}.
Arguments as_active_connections {W D}.

(** What the handlers share with the rest of the program: the bus, the
    sessions and their files, the state of the tools, and the counter of
    response ids. *)
Record AcpWorld (W : Type) := mkAcpWorld {
  aw_bus : option MessageBus;
  aw_sessions : option SessionManager;
  aw_fs : Fs;
  aw_tools : W;
  aw_counter : N;
}.
Arguments mkAcpWorld {W}.
Arguments aw_bus {W}.
Arguments aw_sessions {W}.
Arguments aw_fs {W}.
Arguments aw_tools {W}.
Arguments aw_counter {W}.

Record Reply := mkReply { ht_status : Z; ht_headers : cstr; ht_body : cstr }.

(** ** Server *)

Section Server.
Context {W D : Type}.

Definition acp_server_new (tool_registry : option (ToolRegistry W D)) (agent_loop : bool) : ACPServer W D :=
  mkServer ACP_DEFAULT_PORT ACP_DEFAULT_HOST false tool_registry agent_loop false 0.

Definition set_running (b : bool) (s : ACPServer W D) : ACPServer W D :=
  mkServer (as_port s) (as_host s) b (as_tool_registry s) (as_agent_loop s) (as_listening s) (as_active_connections s).
Definition set_connections (n : Z) (s : ACPServer W D) : ACPServer W D :=
  mkServer (as_port s) (as_host s) (as_running s) (as_tool_registry s) (as_agent_loop s) (as_listening s) n.

(** [listens]: whether the address can be listened on. *)
Definition acp_server_start (s : ACPServer W D) (port : Z) (host : option cstr) (listens : bool) : ACPServer W D * Z :=
  if as_running s then (s, (-1)%Z)
  else
    let s1 := mkServer port (default (as_host s) host) false (as_tool_registry s) (as_agent_loop s) listens (as_active_connections s) in
    if listens then (set_running true s1, 0%Z) else (s1, (-1)%Z).

Definition acp_server_stop (s : ACPServer W D) : ACPServer W D := if as_running s then set_running false s else s.
End Server.

(** ** Texts *)

Section Handlers.
(** The environment variables, and the time. *)
Context (getenv : cstr -> option cstr) (now : Z).

Definition generate_response_id (counter : N) : cstr := truncate_to 64 ($"chatcmpl-" ++ fmt_u counter ++ $"-" ++ fmt_d now).

Definition send_json_response (status : Z) (text : option cstr) : Reply :=
  let type := $"Content-Type: application/json" ++ [ch_cr; ch_nl] in
  mkReply status
    (match getenv $"PRIMAGEN_ACP_ALLOW_ORIGIN" with
     | Some (c :: o) => truncate_to 512 (type ++ $"Access-Control-Allow-Origin: " ++ (c :: o) ++ [ch_cr; ch_nl])
     | _ => type
     end) (default [] text).

Definition acp_error_json (code : Z) (message : cstr) : option cstr :=
  cJSON_PrintUnformatted (JObj [($"error", JObj [($"code", JNum (num_of_Z code)); ($"message", JStr message)])]).

Definition acp_send_error (code : Z) (message : cstr) : Reply :=
  send_json_response (if bool_decide (code ∈ [401; 429; 404; 500]%Z) then code else 400) (acp_error_json code message).

Definition acp_request_authorized (hm : HttpMessage) : bool :=
  match getenv $"PRIMAGEN_ACP_TOKEN" with
  | None | Some [] =>
      match getenv $"PRIMAGEN_ACP_ALLOW_ANON" with Some v => str_eq v $"1" || str_eq v $"true" || str_eq v $"yes" | None => false end
  | Some token =>
      match mg_http_get_header hm $"Authorization" with
      | Some auth => Nat.ltb 7 (length auth) && starts_with $"Bearer " auth && str_eq (drop 7 auth) token
      | None => false
      end ||
      match mg_http_get_header hm $"X-API-Key" with Some key => str_eq key token | None => false end
  end.

Definition acp_tool_item {W D} (t : Tool W D) : json :=
  JObj ([($"name", JStr (t_name t)); ($"description", JStr (t_description t))] ++
    match cJSON_Parse (t_parameters t) with Some schema => [($"input_schema", schema)] | None => [] end).

Definition acp_tools_list_json {W D} (registry : ToolRegistry W D) : option cstr :=
  cJSON_PrintUnformatted (JObj [($"tools", JArr (acp_tool_item <$> reg_tools registry)); ($"success", JBool true)]).

Definition acp_tool_response_json (tool_name : cstr) (result : cstr) (error : option cstr) : option cstr :=
  cJSON_PrintUnformatted (JObj ([($"tool_name", JStr tool_name)] ++
    match error with
    | Some e => [($"error", JStr e); ($"success", JBool false)]
    | None => [($"result", default (JStr result) (cJSON_Parse result)); ($"success", JBool true)]
    end)).

Definition acp_chat_response_json (id model content finish_reason : cstr) : option cstr :=
  cJSON_PrintUnformatted (JObj [
    ($"id", JStr id); ($"object", JStr $"chat.completion"); ($"created", JNum (num_of_Z now)); ($"model", JStr model);
    ($"choices", JArr [JObj [($"index", JNum (num_of_Z 0));
                             ($"message", JObj [($"role", JStr $"assistant"); ($"content", JStr content)]);
                             ($"finish_reason", JStr finish_reason)]]);
    ($"usage", JObj [($"prompt_tokens", JNum (num_of_Z 0)); ($"completion_tokens", JNum (num_of_Z 0)); ($"total_tokens", JNum (num_of_Z 0))])]).

(** ** Handlers *)

Context {W D : Type}.

Definition acp_handle_health : Reply :=
  send_json_response 200 (Some ($"{" ++ [ch_quote] ++ $"status" ++ [ch_quote] ++ $":" ++ [ch_quote] ++ $"ok" ++ [ch_quote] ++ $"," ++
                                [ch_quote] ++ $"running" ++ [ch_quote] ++ $":true}")).

Definition acp_handle_tools_list (s : ACPServer W D) : Reply :=
  match as_tool_registry s with
  | None => acp_send_error 500 $"Tool registry not initialized"
  | Some registry =>
      match acp_tools_list_json registry with
      | Some text => send_json_response 200 (Some text)
      | None => acp_send_error 500 $"Failed to serialize tools"
      end
  end.

Definition acp_handle_tools_call (s : ACPServer W D) (body : cstr) (w : AcpWorld W) : Reply * AcpWorld W :=
  match as_tool_registry s with
  | None => (acp_send_error 500 $"Tool registry not initialized", w)
  | Some registry =>
      match cJSON_Parse body with
      | None => (acp_send_error 400 $"Invalid JSON", w)
      | Some root =>
          match is_string (get_object_item (Some root) $"tool_name") with
          | None => (acp_send_error 400 $"Missing or invalid 'tool_name'", w)
          | Some tool_name =>
              let arguments_str := match get_object_item (Some root) $"arguments" with
                                   | Some a => default [] (cJSON_PrintUnformatted a)
                                   | None => $"{}"
                                   end in
              let '(err, result, tools) := tool_registry_execute registry (Some tool_name) arguments_str (aw_tools w) in
              (send_json_response 200 (if is_err err then acp_tool_response_json tool_name [] (Some (err_message err))
                                       else acp_tool_response_json tool_name result None),
               mkAcpWorld (aw_bus w) (aw_sessions w) (aw_fs w) tools (aw_counter w))
          end
      end
  end.

(** The last message of the user: the first from the end that has the role
    and a content, which must be a string. *)
Definition is_user_message (msg : json) : bool :=
  bool_decide (is_string (get_object_item (Some msg) $"role") = Some $"user") && bool_decide (is_Some (get_object_item (Some msg) $"content")).
Definition last_user_message (messages : list json) : option cstr :=
  msg ← List.find is_user_message (rev messages); is_string (get_object_item (Some msg) $"content").

Definition queued_options (root : json) : json :=
  JObj (match is_number (get_object_item (Some root) $"temperature") with Some n => [($"temperature", JNum n)] | None => [] end ++
        match is_number (get_object_item (Some root) $"max_tokens") with Some n => [($"max_tokens", JNum (num_of_Z (valueint n)))] | None => [] end ++
        match get_object_item (Some root) $"stream" with Some (JBool b) => [($"stream", JBool b)] | _ => [] end ++
        [($"result_endpoint", JStr $"/v1/chat/responses?session_id=<session_id>")]).

Definition acp_handle_chat_completions (s : ACPServer W D) (body : cstr) (w : AcpWorld W) : Reply * AcpWorld W :=
  if negb (as_agent_loop s) then (acp_send_error 500 $"Agent loop not initialized", w)
  else match cJSON_Parse body with
  | None => (acp_send_error 400 $"Invalid JSON", w)
  | Some root =>
      match is_array (get_object_item (Some root) $"messages") with
      | None => (acp_send_error 400 $"Missing or invalid 'messages' array", w)
      | Some messages =>
          match last_user_message messages with
          | None => (acp_send_error 400 $"No user message found", w)
          | Some user_message =>
              let session_id := match is_string (get_object_item (Some root) $"session_id") with
                                | Some i => i
                                | None => truncate_to 64 ($"session_" ++ fmt_d now)
                                end in
              let bus := message_bus_send_inbound true (aw_bus w)
                           (inbound_message_new (Some $"acp") (Some session_id) (Some user_message) None) in
              let model := default $"primagen-default" (is_string (get_object_item (Some root) $"model")) in
              let response_json := acp_chat_response_json (generate_response_id (aw_counter w)) model
                (truncate_to 1024 ($"Message received and queued for processing. Session: " ++ session_id ++
                  $". Use the session ID to track responses via the outbound message bus.")) $"stop" in
              let enriched := match (text ← response_json; cJSON_Parse text) with
                              | Some (JObj kvs) => match cJSON_PrintUnformatted (JObj (kvs ++ [($"queued_options", queued_options root)])) with
                                                   | Some t => Some t | None => response_json end
                              | _ => response_json
                              end in
              (send_json_response 202 enriched,
               mkAcpWorld bus (aw_sessions w) (aw_fs w) (aw_tools w) (aw_counter w + 1))
          end
      end
  end.

(** The loop over the messages of the session. *)
Record PollState := mkPoll { po_total_assistant : nat; po_total_new : nat; po_last_index : Z; po_added : nat; po_responses : list json }.

Definition response_item (i : Z) (msg : Message) : json :=
  JObj [($"message_index", JNum (num_of_Z i)); ($"role", JStr $"assistant"); ($"content", JStr (m_content msg)); ($"timestamp", JStr (m_timestamp msg))].

Definition is_answer (msg : Message) : bool := bool_decide (m_role msg = ROLE_ASSISTANT) && negb (bool_decide (m_content msg = [])).

Definition poll_message (limit : nat) (since i : Z) (msg : Message) (st : PollState) : PollState :=
  if negb (is_answer msg) then st
  else
    let seen := S (po_total_assistant st) in
    if (i <=? since)%Z then mkPoll seen (po_total_new st) (po_last_index st) (po_added st) (po_responses st)
    else if Nat.leb limit (po_added st) then mkPoll seen (S (po_total_new st)) (po_last_index st) (po_added st) (po_responses st)
    else mkPoll seen (S (po_total_new st)) i (S (po_added st)) (po_responses st ++ [response_item i msg]).

Fixpoint poll_loop (limit : nat) (since i : Z) (msgs : list Message) (st : PollState) : PollState :=
  match msgs with [] => st | msg :: r => poll_loop limit since (i + 1) r (poll_message limit since i msg st) end.

Definition poll_session (limit : nat) (since : Z) (session : option Session) : PollState :=
  poll_loop limit since 0 (match session with Some s => s_messages s | None => [] end) (mkPoll 0 0 since 0 []).

(** The status and the members of the answer. *)
Definition poll_answer (session_id : cstr) (limit : nat) (since : Z) (session : option Session) : Z * json :=
  let st := poll_session limit since session in
  let pending := Nat.eqb (po_total_assistant st) 0 in
  (if pending then 202 else 200, JObj [
    ($"session_id", JStr session_id); ($"requested_limit", JNum (num_of_Z (Z.of_nat limit))); ($"requested_since", JNum (num_of_Z since));
    ($"status", JStr (if pending then $"pending" else $"completed"));
    ($"ready", JBool (negb pending && Nat.ltb 0 (po_added st)));
    ($"next_since", JNum (num_of_Z (if pending then since else po_last_index st)));
    ($"has_more", JBool (negb pending && Nat.ltb (po_added st) (po_total_new st)));
    ($"responses", JArr (po_responses st))])%Z.

Definition poll_limit (query : cstr) : nat :=
  let '(ret, text) := mg_http_get_var query $"limit" 32 in
  Z.to_nat (Z.min 20 (Z.max 1 (if (0 <? ret)%Z then atoi text else 1))).
Definition poll_since (query : cstr) : Z :=
  let '(ret, text) := mg_http_get_var query $"since" 32 in Z.max (-1) (if (0 <? ret)%Z then atoi text else -1).

Definition acp_handle_chat_responses (hm : HttpMessage) (w : AcpWorld W) : Reply * AcpWorld W :=
  match aw_sessions w with
  | None => (acp_send_error 500 $"Session manager not initialized", w)
  | Some mgr =>
      let '(ret, session_id) := mg_http_get_var (hm_query hm) $"session_id" 256 in
      if (ret <=? 0)%Z then (acp_send_error 400 $"Missing required query parameter: session_id", w)
      else
        let session_key := truncate_to 320 ($"acp:" ++ session_id) in
        let '(mgr1, id) := match session_manager_get mgr session_key with
                           | Some id => (mgr, Some id)
                           | None => let '(m, id, _) := session_manager_load true now (aw_fs w) mgr session_key in (m, id)
                           end in
        let '(status, root) := poll_answer session_id (poll_limit (hm_query hm)) (poll_since (hm_query hm)) (i ← id; sm_sessions mgr1 !! i) in
        (send_json_response status (cJSON_PrintUnformatted root),
         mkAcpWorld (aw_bus w) (Some mgr1) (aw_fs w) (aw_tools w) (aw_counter w))
  end.

Definition method_not_allowed : Reply := acp_send_error 405 $"Method not allowed".

(** The route of a request that may be answered. *)
Definition acp_route (s : ACPServer W D) (hm : HttpMessage) (w : AcpWorld W) : Reply * AcpWorld W :=
  let body := take_while not_nul (hm_body hm) in
  if mg_match (hm_uri hm) ACP_ROUTE_HEALTH then (acp_handle_health, w)
  else if mg_match (hm_uri hm) ACP_ROUTE_TOOLS_LIST then (acp_handle_tools_list s, w)
  else if mg_match (hm_uri hm) ACP_ROUTE_TOOLS_CALL then
    if str_eq (hm_method hm) $"POST" then acp_handle_tools_call s body w else (method_not_allowed, w)
  else if mg_match (hm_uri hm) ACP_ROUTE_CHAT_COMPLETIONS then
    if str_eq (hm_method hm) $"POST" then acp_handle_chat_completions s body w else (method_not_allowed, w)
  else if mg_match (hm_uri hm) ACP_ROUTE_CHAT_RESPONSES then
    if str_eq (hm_method hm) $"GET" then acp_handle_chat_responses hm w else (method_not_allowed, w)
  else (acp_send_error 404 $"Not found", w).

(** A request that is complete; the counter is [int]. *)
Definition acp_event_handler (s : ACPServer W D) (hm : HttpMessage) (w : AcpWorld W) : ACPServer W D * Reply * AcpWorld W :=
  let s1 := set_connections (as_active_connections s + 1) s in
  let '(reply, w') :=
    if (ACP_MAX_CONNECTIONS <? as_active_connections s1)%Z then (acp_send_error 429 $"Too many requests", w)
    else if negb (mg_match (hm_uri hm) ACP_ROUTE_HEALTH) && negb (acp_request_authorized hm) then (acp_send_error 401 $"Unauthorized", w)
    else acp_route s1 hm w in
  (set_connections (as_active_connections s1 - 1) s1, reply, w').
End Handlers.

(** ** The channel: [acp_channel.c] *)

Record ACPChannelData (W D : Type) := mkChannelData { ad_server : ACPServer W D; ad_running : bool; ad_port : Z; ad_host : cstr }.
Arguments mkChannelData {W D}.
Arguments ad_server {W D}.
Arguments ad_running {W D}.
Arguments ad_port {W D}.
Arguments ad_host {W D}.

Definition read_int_cfg (root : option json) (key : cstr) (fallback : Z) : Z :=
  match is_number (r ← root; get_object_item (Some r) key) with Some n => valueint n | None => fallback end.
Definition read_str_cfg (root : option json) (key fallback : cstr) : cstr :=
  match is_string (r ← root; get_object_item (Some r) key) with Some (c :: t) => c :: t | _ => fallback end.

Section Channel.
Context {W D : Type}.

(** [tool_registry], [agent_loop] and [session_mgr] are those of the plugin
    manager. *)
Definition acp_init (cfg : Config) (tool_registry : option (ToolRegistry W D)) (agent_loop session_mgr : bool) : option (ACPChannelData W D) :=
  match tool_registry with
  | None => None
  | Some reg =>
      if agent_loop && session_mgr then
        let root := (i ← config_get_plugin_config cfg (Some $"acp_channel"); p ← cf_plugins cfg !! i; pg_config p) in
        let cfg_port := read_int_cfg root $"port" ACP_DEFAULT_PORT in
        Some (mkChannelData (acp_server_new (Some reg) true) false
                (if (0 <? cfg_port)%Z && (cfg_port <? 65536)%Z then cfg_port else ACP_DEFAULT_PORT) (read_str_cfg root $"host" ACP_DEFAULT_HOST))
      else None
  end.

Definition set_server (s : ACPServer W D) (b : bool) (d : ACPChannelData W D) : ACPChannelData W D := mkChannelData s b (ad_port d) (ad_host d).

(** [listens] and [thread_ok]: whether the address can be listened on, and the
    thread that polls the server be made. *)
Definition acp_start (listens thread_ok : bool) (d : ACPChannelData W D) : ACPChannelData W D :=
  if ad_running d then d
  else
    let '(s, r) := acp_server_start (ad_server d) (ad_port d) (Some (ad_host d)) listens in
    if negb (r =? 0)%Z then set_server s false d
    else if thread_ok then set_server s true d
    else set_server (acp_server_stop s) false d.

(** The thread that polls has ended when this returns. *)
Definition acp_stop (d : ACPChannelData W D) : ACPChannelData W D := set_server (acp_server_stop (ad_server d)) false d.

(** The thread that polls goes on while both flags are set. *)
Definition acp_server_thread (d : ACPChannelData W D) : bool := ad_running d && as_running (ad_server d).

(** The channel and its server run together, on the port and host of the
    configuration, whatever the starts and stops; a server that runs listens. *)
Lemma acp_channel_consistent (ops : list (option (bool * bool))) cfg reg d0 :
  acp_init cfg (Some reg) true true = Some d0 ->
  let d := fold_left (fun d op => match op with Some (l, t) => acp_start l t d | None => acp_stop d end) ops d0 in
  (0 < ad_port d < 65536)%Z /\ ad_running d = as_running (ad_server d) /\
  (as_running (ad_server d) = true -> as_listening (ad_server d) = true /\ as_port (ad_server d) = ad_port d /\ as_host (ad_server d) = ad_host d).
Proof.
  intros Hi. cbv zeta. set (ok (d : ACPChannelData W D) := (0 < ad_port d < 65536)%Z /\ ad_running d = as_running (ad_server d) /\
    (as_running (ad_server d) = true -> as_listening (ad_server d) = true /\ as_port (ad_server d) = ad_port d /\ as_host (ad_server d) = ad_host d)).
  change (ok (fold_left (fun d op => match op with Some (l, t) => acp_start l t d | None => acp_stop d end) ops d0)).
  assert (H0 : ok d0).
  { unfold acp_init in Hi. cbn [andb] in Hi. injection Hi as <-. unfold ok. cbn. split; [|by split].
    unfold ACP_DEFAULT_PORT. destruct (0 <? _)%Z eqn:E1; cbn [andb]; [|lia]. destruct (_ <? 65536)%Z eqn:E2; lia. }
  clear Hi. revert d0 H0. induction ops as [|op ops IH]; intros d H; [done|]. cbn [fold_left]. apply IH. clear IH.
  pose proof H as Hok. destruct H as (Hp & Hr & Hs). destruct op as [[l t]|].
  - unfold acp_start. destruct (ad_running d) eqn:E; [exact Hok|]. unfold acp_server_start. rewrite <- Hr. destruct l.
    + cbn. destruct t; unfold ok; cbn; (split; [done|split; [done|]]); by intros _.
    + unfold ok. cbn. by split; [|split].
  - unfold acp_stop, acp_server_stop, ok. destruct (as_running (ad_server d)) eqn:E; cbn; rewrite ?E; by split; [|split].
Qed.
End Channel.

(** ** Access *)

Definition has_token (hm : HttpMessage) (token : cstr) : Prop :=
  mg_http_get_header hm $"Authorization" = Some ($"Bearer " ++ token) \/ mg_http_get_header hm $"X-API-Key" = Some token.

Lemma authorized_spec getenv hm token : getenv $"PRIMAGEN_ACP_TOKEN" = Some token -> token <> [] ->
  acp_request_authorized getenv hm = true <-> has_token hm token.
Proof.
  intros He Hne. unfold acp_request_authorized, has_token. rewrite He. destruct token as [|c token]; [done|]. rewrite orb_true_iff. f_equiv.
  - destruct (mg_http_get_header hm $"Authorization") as [auth|]; [|by split]. rewrite !andb_true_iff. split.
    + intros [[_ Hs] Ht%bool_decide_eq_true]. apply starts_with_true in Hs as [r ->]. f_equal. rewrite drop_app_ge in Ht by (cbn; lia).
      change (drop 0 r = c :: token) in Ht. rewrite drop_0 in Ht. by rewrite Ht.
    + intros [= ->]. split_and!; [done|by vm_compute|]. by apply bool_decide_eq_true.
  - destruct (mg_http_get_header hm $"X-API-Key") as [key|]; [|by split]. split; [by intros ->%bool_decide_eq_true|intros [= ->]; by apply bool_decide_eq_true].
Qed.

(** C35: With a token set, a request changes something and learns something only
    if it has the token, or asks for the health of the server: any other
    request is answered with 401. A request leaves the server as it was, so
    that the count of connections stays right. *)
Theorem acp_token_required {W D} getenv now (s : ACPServer W D) hm w token :
  getenv $"PRIMAGEN_ACP_TOKEN" = Some token -> token <> [] -> (0 <= as_active_connections s < ACP_MAX_CONNECTIONS)%Z ->
  exists reply w', acp_event_handler getenv now s hm w = (s, reply, w') /\
  (hm_uri hm = ACP_ROUTE_HEALTH -> reply = acp_handle_health getenv /\ w' = w) /\
  (hm_uri hm <> ACP_ROUTE_HEALTH -> has_token hm token -> (reply, w') = acp_route getenv now s hm w) /\
  (hm_uri hm <> ACP_ROUTE_HEALTH -> ~ has_token hm token -> reply = acp_send_error getenv 401 $"Unauthorized" /\ w' = w).
Proof.
  intros He Hne Hc. unfold acp_event_handler. cbn [as_active_connections set_connections].
  rewrite (proj2 (Z.ltb_ge _ _)) by lia. rewrite mg_match_literal by by vm_compute.
  assert (Hs : set_connections (as_active_connections s + 1 - 1) (set_connections (as_active_connections s + 1) s) = s).
  { destruct s as [p h r t a l n]. unfold set_connections. cbn. by replace (n + 1 - 1)%Z with n by lia. }
  assert (Hr : acp_route getenv now (set_connections (as_active_connections s + 1) s) hm w = acp_route getenv now s hm w) by by destruct s.
  destruct (decide (hm_uri hm = ACP_ROUTE_HEALTH)) as [Hu|Hu].
  - rewrite Hu. change (str_eq ACP_ROUTE_HEALTH ACP_ROUTE_HEALTH) with true. cbn [negb andb].
    unfold acp_route. rewrite Hu. change (mg_match ACP_ROUTE_HEALTH ACP_ROUTE_HEALTH) with true. cbn iota.
    rewrite Hs. exists (acp_handle_health getenv), w. by split_and!.
  - replace (str_eq (hm_uri hm) ACP_ROUTE_HEALTH) with false by (symmetry; by apply bool_decide_eq_false). cbn [negb andb]. rewrite Hr.
    destruct (acp_request_authorized getenv hm) eqn:Ea; cbn [negb].
    + destruct (acp_route getenv now s hm w) as [reply w'] eqn:E. rewrite Hs. exists reply, w'. split_and!; [done|done|done|].
      intros _ []. by eapply authorized_spec.
    + rewrite Hs. eexists _, w. split_and!; [done|done| |done]. intros _ Ht%(authorized_spec getenv hm token He Hne). congruence.
Qed.

(** The status of a method that is not allowed is 400. *)
Lemma method_not_allowed_is_400 getenv : ht_status (method_not_allowed getenv) = 400%Z.
Proof. reflexivity. Qed.

(** ** The query of a poll *)

Definition poll_query (id : cstr) (limit : nat) (since : Z) : cstr :=
  $"session_id=" ++ mg_url_encode id ++ $"&limit=" ++ fmt_d (Z.of_nat limit) ++ $"&since=" ++ fmt_d since.
Definition poll_request (id : cstr) (limit : nat) (since : Z) : HttpMessage :=
  mkHttp $"GET" ACP_ROUTE_CHAT_RESPONSES (poll_query id limit since) [] [].

Lemma split_on_free sep s : (sep ∉ s) -> split_on sep s = [s].
Proof.
  induction s as [|c s IH]; [done|]. intros [Hc Hs]%not_elem_of_cons. cbn [split_on]. rewrite bool_decide_eq_false_2 by congruence. by rewrite IH.
Qed.

Lemma split_on_app sep s r : (sep ∉ s) -> split_on sep (s ++ sep :: r) = s :: split_on sep r.
Proof.
  induction s as [|c s IH]; [intros _; cbn [app split_on]; by rewrite bool_decide_eq_true_2|]. intros [Hc Hs]%not_elem_of_cons.
  cbn [app split_on]. rewrite bool_decide_eq_false_2 by congruence. by rewrite IH.
Qed.

Lemma url_safe_free (c : ascii) s : c <> "%"%char -> isdigit c = false -> (code c < 97 \/ 102 < code c)%N -> is_url_safe c = false -> c ∉ mg_url_encode s.
Proof.
  intros Hp Hd Hx Hs Hin. unfold mg_url_encode in Hin. apply list_elem_of_bind in Hin as (x & Hin & _). unfold url_encode_char in Hin.
  destruct (is_url_safe x) eqn:E; [apply list_elem_of_singleton in Hin as ->; congruence|].
  assert (Hh : forall n, (n < 16)%N -> c <> digit_char false n).
  { intros n Hn ->. destruct (N.lt_ge_cases n 10) as [Hl|Hl]; [by rewrite isdigit_digit_char in Hd|].
    unfold digit_char in Hx. rewrite (proj2 (N.ltb_ge n 10)) in Hx by done. rewrite code_ascii_of_N in Hx by lia. lia. }
  apply elem_of_cons in Hin as [Hin|Hin]; [done|]. pose proof (N.mod_lt (code x) 16 ltac:(done)) as Hm.
  assert (code x < 256)%N by apply N_ascii_bounded.
  assert (Hq : (code x / 16 < 16)%N) by (apply N.Div0.div_lt_upper_bound; lia).
  apply elem_of_cons in Hin as [Hin|Hin]; [exact (Hh _ Hq Hin)|]. apply list_elem_of_singleton in Hin. exact (Hh _ Hm Hin).
Qed.

Lemma entry_parts name value : ("="%char ∉ name) -> entry_name (name ++ "="%char :: value) = name /\ entry_value (name ++ "="%char :: value) = value.
Proof.
  unfold entry_name, entry_value. induction name as [|c name IH]; [done|]. intros [Hc Hn]%not_elem_of_cons. cbn [app take_while drop_while].
  rewrite bool_decide_eq_false_2 by congruence. cbn [negb]. destruct (IH Hn) as [-> ->]. done.
Qed.

Lemma url_decode_plain form s : ("%"%char ∉ s) -> ("+"%char ∉ s) -> forall room, length s <= room -> url_decode room form s = Some s.
Proof.
  induction s as [|c s IH]; intros Hp Ha room Hr; [by destruct room|]. apply not_elem_of_cons in Hp as [Hp1 Hp], Ha as [Ha1 Ha].
  destruct room as [|room]; [cbn in Hr; lia|]. cbn [url_decode]. rewrite (bool_decide_eq_false_2 (c = "%"%char)) by congruence.
  rewrite (bool_decide_eq_false_2 (c = "+"%char)) by congruence. rewrite andb_false_r, IH; [done..|cbn in Hr; lia].
Qed.

(** The three entries of a query. *)
Lemma poll_query_entries id limit since :
  split_on "&"%char (poll_query id limit since) =
  [$"session_id=" ++ mg_url_encode id; $"limit=" ++ fmt_d (Z.of_nat limit); $"since=" ++ fmt_d since].
Proof.
  unfold poll_query.
  assert (Hs : "&"%char ∉ fmt_d since) by by apply fmt_d_absent. assert (Hl : "&"%char ∉ fmt_d (Z.of_nat limit)) by by apply fmt_d_absent.
  assert (Hi : "&"%char ∉ mg_url_encode id) by (apply url_safe_free; [done|done|left; by vm_compute|done]).
  change ($"&limit=" ++ ?x) with ("&"%char :: $"limit=" ++ x). change ($"&since=" ++ ?x) with ("&"%char :: $"since=" ++ x).
  rewrite (app_assoc $"session_id="), split_on_app.
  2: { rewrite not_elem_of_app. split; [apply (bool_decide_unpack _); by vm_compute|done]. }
  rewrite (app_assoc $"limit="), split_on_app.
  2: { rewrite not_elem_of_app. split; [apply (bool_decide_unpack _); by vm_compute|done]. }
  rewrite split_on_free; [done|]. rewrite not_elem_of_app. split; [apply (bool_decide_unpack _); by vm_compute|done].
Qed.

Lemma named_entry name value : ("="%char ∉ name) -> name <> [] -> forall e, e = name ++ "="%char :: value ->
  forall n, (negb (bool_decide (e = [])) && strcasecmp_eq n (entry_name e)) = strcasecmp_eq n name /\ entry_value e = value.
Proof.
  intros Hn Hne e -> n. destruct (entry_parts name value Hn) as [-> ->]. rewrite bool_decide_eq_false_2 by (by destruct name). done.
Qed.

(** The variables of a poll are read back. *)
Lemma poll_query_vars id limit since :
  mg_http_var (poll_query id limit since) $"session_id" = Some (mg_url_encode id) /\
  mg_http_var (poll_query id limit since) $"limit" = Some (fmt_d (Z.of_nat limit)) /\
  mg_http_var (poll_query id limit since) $"since" = Some (fmt_d since).
Proof.
  unfold mg_http_var. rewrite poll_query_entries.
  assert (H : forall name value, name = $"session_id" \/ name = $"limit" \/ name = $"since" -> forall n,
    (negb (bool_decide (name ++ "="%char :: value = [])) && strcasecmp_eq n (entry_name (name ++ "="%char :: value))) = strcasecmp_eq n name /\
    entry_value (name ++ "="%char :: value) = value).
  { intros name value Hn n. apply named_entry; [|by destruct Hn as [->|[->| ->]]|done].
    destruct Hn as [->|[->| ->]]; apply (bool_decide_unpack _); by vm_compute. }
  change ($"session_id=" ++ ?v) with ($"session_id" ++ "="%char :: v). change ($"limit=" ++ ?v) with ($"limit" ++ "="%char :: v).
  change ($"since=" ++ ?v) with ($"since" ++ "="%char :: v).
  pose proof (fun n : cstr => H $"session_id" (mg_url_encode id) ltac:(by left) n) as Hi.
  pose proof (fun n : cstr => H $"limit" (fmt_d (Z.of_nat limit)) ltac:(right; by left) n) as Hl.
  pose proof (fun n : cstr => H $"since" (fmt_d since) ltac:(right; by right) n) as Hs.
  cbn [List.find]. rewrite !(proj1 (Hi _)), !(proj1 (Hl _)), !(proj1 (Hs _)).
  split_and!; cbn [fmap option_fmap option_map].
  - change (strcasecmp_eq $"session_id" $"session_id") with true. cbn iota. cbn [fmap option_fmap option_map]. by rewrite (proj2 (Hi [])).
  - change (strcasecmp_eq $"limit" $"session_id") with false. change (strcasecmp_eq $"limit" $"limit") with true. cbn iota. cbn [fmap option_fmap option_map]. by rewrite (proj2 (Hl [])).
  - change (strcasecmp_eq $"since" $"session_id") with false. change (strcasecmp_eq $"since" $"limit") with false.
    change (strcasecmp_eq $"since" $"since") with true. cbn iota. cbn [fmap option_fmap option_map]. by rewrite (proj2 (Hs [])).
Qed.

Lemma get_var_some buf name n v d : buf <> [] -> mg_http_var buf name = Some v -> url_decode (n - 1) true v = Some d ->
  mg_http_get_var buf name n = (Z.of_nat (length d), take_while not_nul d).
Proof. intros Hb Hv Hd. unfold mg_http_get_var, mg_url_decode. rewrite Hv, Hd. by destruct buf. Qed.

Lemma fmt_d_plus z : "+"%char ∉ fmt_d z.
Proof.
  assert (H : forall n, "+"%char ∉ fmt_u n).
  { intros n Hin. pose proof (fmt_u_digits n) as Hd. rewrite Forall_forall in Hd. apply Hd in Hin. by vm_compute in Hin. }
  unfold fmt_d. destruct (z <? 0)%Z; [|apply H]. apply not_elem_of_cons. by split.
Qed.

Lemma get_number_var buf name z : buf <> [] -> mg_http_var buf name = Some (fmt_d z) -> (- 2 ^ 31 <= z < 2 ^ 31)%Z ->
  exists n, (0 < n)%Z /\ mg_http_get_var buf name 32 = (n, fmt_d z).
Proof.
  intros Hb Hv Hz. pose proof (fmt_d_int_length z Hz) as Hl. exists (Z.of_nat (length (fmt_d z))). split.
  - destruct (fmt_d_head z) as (d & t & -> & _). cbn [length]. lia.
  - rewrite (get_var_some buf name 32 _ (fmt_d z) Hb Hv); [|apply url_decode_plain; [by apply fmt_d_absent|apply fmt_d_plus|lia]].
    by rewrite take_while_not_nul by (by apply fmt_d_absent).
Qed.

(** The identifier of a session that a client can poll for. *)
Definition id_ok (id : cstr) : bool := negb (bool_decide (id = [])) && str_ok id && Nat.ltb (length id) 256.

Lemma poll_query_read id limit since : id_ok id = true -> 1 <= limit <= 20 -> (-1 <= since < 2 ^ 31)%Z ->
  (exists n, (0 < n)%Z /\ mg_http_get_var (poll_query id limit since) $"session_id" 256 = (n, id)) /\
  poll_limit (poll_query id limit since) = limit /\ poll_since (poll_query id limit since) = since.
Proof.
  intros [[Hne%negb_true_iff%bool_decide_eq_false Hnul%bool_decide_eq_true]%andb_prop Hlen%Nat.ltb_lt]%andb_prop Hl Hs.
  destruct (poll_query_vars id limit since) as (Hi & Hlv & Hsv). assert (Hq : poll_query id limit since <> []) by done. split_and!.
  - exists (Z.of_nat (length id)). split; [destruct id; [done|cbn; lia]|].
    rewrite (get_var_some _ _ 256 _ id Hq Hi) by (apply url_decode_encode; lia). by rewrite take_while_not_nul.
  - unfold poll_limit. destruct (get_number_var _ _ _ Hq Hlv) as (n & Hn & ->); [lia|]. rewrite (proj2 (Z.ltb_lt _ _)) by done.
    rewrite atoi_fmt_d by (unfold INT_MAX; lia). lia.
  - unfold poll_since. destruct (get_number_var _ _ _ Hq Hsv) as (n & Hn & ->); [lia|]. rewrite (proj2 (Z.ltb_lt _ _)) by done.
    rewrite atoi_fmt_d by (unfold INT_MAX; lia). lia.
Qed.

(** ** The answers of a session *)

(** With their places in the session. *)
Fixpoint answers_from (i : Z) (msgs : list Message) : list (Z * Message) :=
  match msgs with [] => [] | m :: r => (if is_answer m then [(i, m)] else []) ++ answers_from (i + 1) r end.
Definition after (since : Z) (a : Z * Message) : bool := (since <? fst a)%Z.
Definition fresh (since : Z) (l : list (Z * Message)) : list (Z * Message) := List.filter (after since) l.

Lemma last_cons_default {A} (x : A) l d : default d (last (x :: l)) = default x (last l).
Proof. destruct l as [|y l]; [done|]. rewrite last_cons_cons. destruct (last (y :: l)) eqn:E; [done|]. by apply last_None in E. Qed.

Lemma fresh_cons since a l : fresh since (a :: l) = if (since <? fst a)%Z then a :: fresh since l else fresh since l.
Proof. reflexivity. Qed.

Lemma poll_loop_spec limit since msgs : forall i st, po_added st <= limit ->
  let taken := take (limit - po_added st) (fresh since (answers_from i msgs)) in
  poll_loop limit since i msgs st =
  mkPoll (po_total_assistant st + length (answers_from i msgs)) (po_total_new st + length (fresh since (answers_from i msgs)))
    (default (po_last_index st) (last (fst <$> taken))) (po_added st + length taken) (po_responses st ++ ((fun a => response_item (fst a) (snd a)) <$> taken)).
Proof.
  induction msgs as [|m msgs IH]; intros i st Ha; cbv zeta.
  { cbn [answers_from fresh List.filter length]. rewrite take_nil. cbn. rewrite !Nat.add_0_r, app_nil_r. by destruct st. }
  cbn [poll_loop answers_from]. unfold poll_message. destruct (is_answer m); cbn [negb]; [|rewrite IH by done; reflexivity].
  cbn [app length]. rewrite fresh_cons. cbn [fst]. rewrite Z.leb_antisym. destruct (since <? i)%Z eqn:Es; cbn [negb].
  - destruct (Nat.leb limit (po_added st)) eqn:El.
    + apply Nat.leb_le in El. rewrite IH by (cbn; lia). cbn [po_total_assistant po_total_new po_last_index po_added po_responses].
      replace (limit - po_added st) with 0 by lia. cbn. rewrite ?app_nil_r. f_equal; lia.
    + apply Nat.leb_gt in El. rewrite IH by (cbn; lia). cbn [po_total_assistant po_total_new po_last_index po_added po_responses].
      replace (limit - po_added st) with (S (limit - S (po_added st))) by lia. cbn [take]. rewrite !fmap_cons. cbn [fst snd].
      rewrite last_cons_default. cbn [length]. f_equal; [lia|lia|lia|]. by rewrite <- app_assoc.
  - rewrite IH by done. cbn [po_total_assistant po_total_new po_last_index po_added po_responses]. f_equal; lia.
Qed.

Lemma answers_range msgs : forall i a, a ∈ answers_from i msgs -> (i <= fst a < i + Z.of_nat (length msgs))%Z /\ snd a ∈ msgs.
Proof.
  induction msgs as [|m msgs IH]; intros i a; [by intros ?%elem_of_nil|]. cbn [answers_from length]. intros [H|H]%elem_of_app.
  - destruct (is_answer m); [|by apply elem_of_nil in H]. apply list_elem_of_singleton in H as ->. cbn. split; [lia|by left].
  - apply IH in H as [H ?]. split; [lia|by right].
Qed.

Lemma answers_app a b : forall i, answers_from i (a ++ b) = answers_from i a ++ answers_from (i + Z.of_nat (length a)) b.
Proof.
  induction a as [|m a IH]; intros i; cbn [app answers_from length]; [by rewrite Z.add_0_r|]. rewrite IH, <- app_assoc. f_equal. f_equal. by replace (i + 1 + Z.of_nat (length a))%Z with (i + Z.of_nat (S (length a)))%Z by lia.
Qed.

Lemma fresh_all since l : (forall a, a ∈ l -> (since < fst a)%Z) -> fresh since l = l.
Proof.
  induction l as [|a l IH]; [done|]. intros H. rewrite fresh_cons, (proj2 (Z.ltb_lt _ _)) by (apply H; by left).
  f_equal. apply IH. intros b Hb. apply H. by right.
Qed.

(** The answers after one of them. *)
Lemma fresh_after msgs : forall i n a, answers_from i msgs !! n = Some a -> fresh (fst a) (answers_from i msgs) = drop (S n) (answers_from i msgs).
Proof.
  induction msgs as [|m msgs IH]; intros i n a Ha; [done|]. cbn [answers_from] in *. destruct (is_answer m); [|by apply IH].
  cbn [app] in *. rewrite fresh_cons. cbn [fst]. destruct n as [|n].
  - injection Ha as <-. cbn [fst]. rewrite Z.ltb_irrefl. cbn [drop]. apply fresh_all. intros b Hb. apply answers_range in Hb as [Hb _]. lia.
  - cbn in Ha. pose proof (list_elem_of_lookup_2 _ _ _ Ha) as Hin. apply answers_range in Hin as [Hin _].
    rewrite (proj2 (Z.ltb_ge _ _)) by lia. by apply IH.
Qed.

(** ** A client that polls *)

Definition read_item (j : json) : option (Z * cstr) :=
  n ← is_number (get_object_item (Some j) $"message_index"); c ← is_string (get_object_item (Some j) $"content"); Some (valueint n, c).

Definition reply_flag (root : json) (name : cstr) : option bool :=
  match get_object_item (Some root) name with Some (JBool b) => Some b | _ => None end.

(** What a client takes from a reply: the items, where to go on, whether there
    is more. *)
Definition read_reply (r : Reply) : option (list (Z * cstr) * Z * bool) :=
  match cJSON_Parse (ht_body r) with
  | None => None
  | Some root =>
      match is_array (get_object_item (Some root) $"responses"), is_number (get_object_item (Some root) $"next_since"), reply_flag root $"has_more" with
      | Some items, Some next, Some more => Some (omap read_item items, valueint next, more)
      | _, _, _ => None
      end
  end.

Section Client.
Context {W : Type} (getenv : cstr -> option cstr) (now : Z) (id : cstr).

Definition poll_once (limit : nat) (since : Z) (w : AcpWorld W) : option (list (Z * cstr) * Z * bool) :=
  read_reply (fst (acp_handle_chat_responses getenv now (poll_request id limit since) w)).

(** A client that goes on from each reply to the next poll: all it got, and
    whether the last reply said that there is more. *)
Fixpoint poll_all (polls : list (nat * AcpWorld W)) (since : Z) (more : bool) : option (list (Z * cstr) * bool) :=
  match polls with
  | [] => Some ([], more)
  | (limit, w) :: r =>
      x ← poll_once limit since w;
      let '(items, next, more1) := x in
      y ← poll_all r next more1; Some (items ++ fst y, snd y)
  end.

(** The session that is polled has the messages. *)
Definition world_has (w : AcpWorld W) (msgs : list Message) : Prop :=
  exists mgr i s, aw_sessions w = Some mgr /\ session_manager_get mgr ($"acp:" ++ id) = Some i /\ sm_sessions mgr !! i = Some s /\ s_messages s = msgs.

Definition text_ok (m : Message) : bool := str_ok (m_content m) && str_ok (m_timestamp m).
Definition msgs_ok (msgs : list Message) : Prop := forallb text_ok msgs = true /\ (Z.of_nat (length msgs) < 2 ^ 31)%Z.

Definition view (a : Z * Message) : Z * cstr := (fst a, m_content (snd a)).

(** The answers of a session with the messages. *)
Definition answers (msgs : list Message) : list (Z * Message) := answers_from 0 msgs.

Lemma num_Z_ok z : (Z.abs z < 10 ^ 15)%Z -> num_ok (num_of_Z z) = true.
Proof. intros Hz. unfold num_ok, num_of_Z. cbn [n_exp n_mant]. by rewrite (proj2 (Z.ltb_lt _ _)). Qed.

Lemma valueint_Z z : (- 2 ^ 31 <= z < 2 ^ 31)%Z -> valueint (num_of_Z z) = z.
Proof. intros Hz. unfold valueint. rewrite num_trunc_Z. unfold INT_MAX. lia. Qed.

Lemma response_item_ok msgs a : msgs_ok msgs -> a ∈ answers msgs -> json_ok 2 (response_item (fst a) (snd a)) = true.
Proof.
  intros [Hm Hl] Ha. apply answers_range in Ha as [Hr Hin]. rewrite forallb_forall in Hm.
  specialize (Hm _ (proj1 (list_elem_of_In _ _) Hin)). apply andb_prop in Hm as [Hc Ht].
  pose proof (num_Z_ok (fst a) ltac:(lia)) as Hn. unfold response_item. cbn [json_ok forallb fst snd]. rewrite Hc, Ht, Hn. by vm_compute.
Qed.

Lemma read_response_item msgs a : msgs_ok msgs -> a ∈ answers msgs -> read_item (response_item (fst a) (snd a)) = Some (view a).
Proof.
  intros [_ Hl] Ha. apply answers_range in Ha as [Hr _].
  change (read_item (response_item (fst a) (snd a))) with (Some (valueint (num_of_Z (fst a)), m_content (snd a))).
  rewrite valueint_Z by lia. done.
Qed.

Lemma read_response_items msgs (l : list (Z * Message)) : msgs_ok msgs -> (forall a, a ∈ l -> a ∈ answers msgs) ->
  omap read_item ((fun a => response_item (fst a) (snd a)) <$> l) = view <$> l.
Proof.
  intros Hok. induction l as [|a l IH]; intros Hl; [done|]. rewrite !fmap_cons. cbn [omap list_omap].
  rewrite (read_response_item msgs a Hok) by (apply Hl; by left). f_equal. apply IH. intros b Hb. apply Hl. by right.
Qed.

(** What is new, and how far a poll gets. *)
Definition taken (limit : nat) (since : Z) (msgs : list Message) : list (Z * Message) := take limit (fresh since (answers msgs)).
Definition next_since (limit : nat) (since : Z) (msgs : list Message) : Z := default since (last (fst <$> taken limit since msgs)).

Lemma taken_in limit since msgs a : a ∈ taken limit since msgs -> a ∈ answers msgs.
Proof.
  unfold taken, fresh. intros H. assert (Hin : a ∈ List.filter (after since) (answers msgs)).
  { rewrite <- (take_drop limit (List.filter _ _)). apply elem_of_app. by left. }
  apply list_elem_of_In, List.filter_In in Hin as [Hin _]. by apply list_elem_of_In.
Qed.

Lemma next_since_range limit since msgs : (-1 <= since < 2 ^ 31)%Z -> msgs_ok msgs -> (-1 <= next_since limit since msgs < 2 ^ 31)%Z.
Proof.
  intros Hs [_ Hl]. unfold next_since. destruct (last (fst <$> taken limit since msgs)) as [z|] eqn:E; [|done]. cbn.
  assert (Hz : z ∈ fst <$> taken limit since msgs) by (apply last_Some_elem_of in E; done).
  apply list_elem_of_fmap in Hz as (a & -> & Ha). apply taken_in, answers_range in Ha as [Ha _]. lia.
Qed.

Lemma poll_answer_spec limit since s msgs : s_messages s = msgs -> (-1 <= since < 2 ^ 31)%Z -> 1 <= limit <= 20 -> msgs_ok msgs -> str_ok id = true ->
  let root := snd (poll_answer id limit since (Some s)) in
  json_ok 0 root = true /\
  get_object_item (Some root) $"responses" = Some (JArr ((fun a => response_item (fst a) (snd a)) <$> taken limit since msgs)) /\
  get_object_item (Some root) $"next_since" = Some (JNum (num_of_Z (next_since limit since msgs))) /\
  get_object_item (Some root) $"has_more" = Some (JBool (Nat.ltb limit (length (fresh since (answers msgs))))).
Proof.
  intros Hmsgs Hs Hl Hok Hid. cbv zeta. unfold poll_answer, poll_session. rewrite Hmsgs.
  pose proof (poll_loop_spec limit since msgs 0 (mkPoll 0 0 since 0 []) ltac:(cbn; lia)) as Hp.
  cbv zeta in Hp. cbn [po_total_assistant po_total_new po_last_index po_added po_responses] in Hp. rewrite Nat.sub_0_r in Hp.
  fold (answers msgs) in Hp. fold (taken limit since msgs) in Hp. fold (next_since limit since msgs) in Hp. rewrite Hp. clear Hp.
  cbn [po_total_assistant po_total_new po_last_index po_added po_responses snd app Nat.add].
  set (items := (fun a => response_item (fst a) (snd a)) <$> taken limit since msgs).
  assert (Hitems : forallb (json_ok 2) items = true).
  { apply forallb_forall. intros x [a [-> Ha]]%list_elem_of_In%list_elem_of_fmap. apply (response_item_ok msgs a Hok). by eapply taken_in. }
  assert (Hnext : (if Nat.eqb (length (answers msgs)) 0 then since else next_since limit since msgs) = next_since limit since msgs).
  { destruct (answers msgs) eqn:E; [|done]. unfold next_since, taken. rewrite E. cbn. by rewrite take_nil. }
  assert (Hmore : negb (Nat.eqb (length (answers msgs)) 0) && Nat.ltb (length (taken limit since msgs)) (length (fresh since (answers msgs))) =
    Nat.ltb limit (length (fresh since (answers msgs)))).
  { destruct (answers msgs) eqn:E; [by destruct limit|]. cbn [length Nat.eqb negb andb]. unfold taken. rewrite E, length_take.
    apply eq_true_iff_eq. rewrite !Nat.ltb_lt. lia. }
  rewrite Hnext, Hmore. pose proof (next_since_range limit since msgs Hs Hok) as Hr. split_and!.
  - pose proof (num_Z_ok (next_since limit since msgs) ltac:(lia)) as H1. pose proof (num_Z_ok since ltac:(lia)) as H2.
    pose proof (num_Z_ok (Z.of_nat limit) ltac:(lia)) as H3. clearbody items. cbn [json_ok forallb fst snd].
    rewrite Hid, H1, H2, H3, Hitems. destruct (Nat.eqb (length (answers msgs)) 0); by vm_compute.
  - reflexivity.
  - reflexivity.
  - reflexivity.
Qed.

Lemma poll_once_spec limit since w msgs : world_has w msgs -> msgs_ok msgs -> id_ok id = true ->
  1 <= limit <= 20 -> (-1 <= since < 2 ^ 31)%Z ->
  poll_once limit since w = Some (view <$> taken limit since msgs, next_since limit since msgs, Nat.ltb limit (length (fresh since (answers msgs)))).
Proof.
  intros (mgr & i & s & Hw & Hg & Hi & Hmsgs) Hok Hid Hl Hs.
  assert (Hstr : str_ok id = true) by (unfold id_ok in Hid; by apply andb_prop in Hid as [[_ ?]%andb_prop _]).
  destruct (poll_query_read id limit since Hid Hl Hs) as ((n & Hn & Hvar) & Hlim & Hsince).
  assert (Hkey : truncate_to 320 ($"acp:" ++ id) = $"acp:" ++ id).
  { apply truncate_to_id. unfold id_ok in Hid. apply andb_prop in Hid as [_ Hlen%Nat.ltb_lt]. cbn. lia. }
  unfold poll_once, acp_handle_chat_responses. rewrite Hw. cbn [poll_request hm_query]. rewrite Hvar, Hlim, Hsince.
  rewrite (proj2 (Z.leb_gt _ _)) by done. rewrite Hkey, Hg. cbn [mbind option_bind]. rewrite Hi.
  pose proof (poll_answer_spec limit since s msgs Hmsgs Hs Hl Hok Hstr) as (Hjson & Hr & Hnx & Hm).
  destruct (poll_answer id limit since (Some s)) as [status root]. cbn [snd] in *.
  destruct (print_parse_back root Hjson) as (t & Ht & Hp). unfold read_reply. cbn [fst send_json_response ht_body]. rewrite Ht. cbn [default from_option].
  unfold Datatypes.id. rewrite Hp, Hr, Hnx. unfold reply_flag. rewrite Hm. cbn [is_array is_number].
  rewrite (read_response_items msgs _ Hok) by (intros a Ha; by eapply taken_in).
  pose proof (next_since_range limit since msgs Hs Hok). by rewrite valueint_Z by lia.
Qed.

(** Polls of a session, and the messages it has at each of them: in between it
    may grow, and be cut back ([session_rollback_messages]), but what the client
    has been shown, up to [since], stays. [m]: the session before; [msgs]: at
    the last poll. *)
Inductive polls_of : Z -> list Message -> list (nat * AcpWorld W) -> list (list Message) -> list Message -> Prop :=
  | polls_nil since m : polls_of since m [] [] m
  | polls_cons since m m' sessions msgs limit w r : take (Z.to_nat (since + 1)) m `prefix_of` m' -> 1 <= limit <= 20 -> world_has w m' -> msgs_ok m' ->
      polls_of (next_since limit since m') m' r sessions msgs -> polls_of since m ((limit, w) :: r) (m' :: sessions) msgs.

(** The session is not cut back at all. *)
Fixpoint only_grows (m : list Message) (sessions : list (list Message)) : Prop :=
  match sessions with [] => True | m' :: r => m `prefix_of` m' /\ only_grows m' r end.

Lemma answers_prefix m m' : m `prefix_of` m' -> exists l, answers m' = answers m ++ l /\ forall a, a ∈ l -> (Z.of_nat (length m) <= fst a)%Z.
Proof.
  intros [ext ->]. exists (answers_from (0 + Z.of_nat (length m)) ext). split; [apply answers_app|].
  intros a Ha. apply answers_range in Ha as [Ha _]. lia.
Qed.

Lemma fresh_app since l l' : fresh since (l ++ l') = fresh since l ++ fresh since l'.
Proof. apply List.filter_app. Qed.

(** [k] answers were received, the last of them at [since]. *)
Record received (k : nat) (since : Z) (msgs : list Message) : Prop := {
  received_count : k <= length (answers msgs);
  received_rest : fresh since (answers msgs) = drop k (answers msgs);
  received_since : (-1 <= since < Z.of_nat (length msgs) \/ since = -1)%Z;
}.

Lemma received_poll k since msgs limit : received k since msgs -> 1 <= limit ->
  taken limit since msgs = take limit (drop k (answers msgs)) /\
  received (Nat.min (k + limit) (length (answers msgs))) (next_since limit since msgs) msgs.
Proof.
  intros [Hk Hf Hs] Hl. unfold next_since, taken. rewrite Hf. split; [done|]. set (k' := Nat.min (k + limit) (length (answers msgs))).
  destruct (decide (k' = k)) as [E|E].
  - assert (drop k (answers msgs) = []) as Hd by (apply drop_ge; lia). rewrite Hd, take_nil, E. cbn. split; [done|by rewrite Hf|done].
  - assert (Hlast : take limit (drop k (answers msgs)) = drop k (take k' (answers msgs))).
    { rewrite take_drop_commute. f_equal. unfold k'. destruct (Nat.min_spec (k + limit) (length (answers msgs))) as [[_ ->]|[Hle ->]]; [done|].
      by rewrite !take_ge by lia. }
    rewrite Hlast. destruct (lookup_lt_is_Some_2 (answers msgs) (k' - 1)) as [a Ha]; [lia|].
    assert (Ht : drop k (take k' (answers msgs)) = drop k (take (k' - 1) (answers msgs)) ++ [a]).
    { replace k' with (S (k' - 1)) at 1 by lia. rewrite (take_S_r _ _ a) by done. apply drop_app_le. rewrite length_take. lia. }
    rewrite Ht, fmap_app. change (fst <$> [a]) with [fst a]. rewrite last_snoc. cbn [default from_option]. unfold Datatypes.id.
    pose proof (answers_range msgs 0 a (list_elem_of_lookup_2 _ _ _ Ha)) as [Hr _].
    split; [lia| |left; lia]. unfold answers in *. rewrite (fresh_after msgs 0 (k' - 1) a Ha). f_equal. lia.
Qed.

Lemma received_since_31 k since m : received k since m -> msgs_ok m -> (-1 <= since < 2 ^ 31)%Z.
Proof. intros [_ _ Hs] [_ Hl]. lia. Qed.

(** What was received stays received when the messages up to it stay. *)
Lemma received_keep k since m m' : take (Z.to_nat (since + 1)) m `prefix_of` m' -> received k since m ->
  received k since m' /\ take k (answers m') = take k (answers m).
Proof.
  intros Hp Hr. destruct (answers_prefix (take (Z.to_nat (since + 1)) m) m) as (l & Ha & Hl). { by apply prefix_take. }
  destruct (answers_prefix _ m' Hp) as (l' & Ha' & Hl'). pose proof (prefix_length _ _ Hp) as Hlen. destruct Hr as [Hk Hf Hs].
  assert (Z.of_nat (length (take (Z.to_nat (since + 1)) m)) = since + 1)%Z as Ht by (rewrite length_take; lia).
  set (a0 := answers (take (Z.to_nat (since + 1)) m)) in *.
  assert (fresh since a0 = []) as H0.
  { unfold fresh. destruct (List.filter (after since) a0) as [|x r] eqn:E; [done|]. assert (x ∈ List.filter (after since) a0) as Hx by (rewrite E; by left).
    apply list_elem_of_In, List.filter_In in Hx as [Hx Haft]. apply list_elem_of_In in Hx. apply answers_range in Hx as [Hx _]. unfold after in Haft. lia. }
  assert (fresh since l = l) as Hfl by (apply fresh_all; intros a Hin; apply Hl in Hin; lia).
  assert (fresh since l' = l') as Hfl' by (apply fresh_all; intros a Hin; apply Hl' in Hin; lia).
  rewrite Ha, fresh_app, H0, Hfl in Hf. cbn [app] in Hf. rewrite Ha, length_app in Hk.
  assert (k = length a0) as ->. { apply (f_equal length) in Hf. rewrite length_drop, length_app in Hf. lia. }
  split; [split|].
  - rewrite Ha', length_app. lia.
  - rewrite Ha', fresh_app, H0, Hfl'. cbn [app]. by rewrite drop_app_length.
  - lia.
  - by rewrite Ha, Ha', !take_app_length.
Qed.

Lemma polls_keep since m polls sessions msgs k : polls_of since m polls sessions msgs -> received k since m -> take k (answers msgs) = take k (answers m).
Proof.
  intros H. revert k. induction H as [|since m m' sessions msgs limit w r Hp Hlim Hw Hok Hpolls IH]; intros k Hr; [done|].
  destruct (received_keep k since m m' Hp Hr) as [Hr' <-]. destruct (received_poll k since m' limit Hr') as [_ Hr2]; [lia|].
  specialize (IH _ Hr2). pose proof (received_count _ _ _ Hr') as Hk. apply (f_equal (take k)) in IH. rewrite !take_take, !Nat.min_l in IH by lia. done.
Qed.

Lemma polls_count since m polls sessions msgs k : polls_of since m polls sessions msgs -> received k since m -> k <= length (answers msgs).
Proof.
  intros H. revert k. induction H as [|since m m' sessions msgs limit w r Hp Hlim Hw Hok Hpolls IH]; intros k Hr; [apply Hr|].
  destruct (received_keep k since m m' Hp Hr) as [Hr' _]. destruct (received_poll k since m' limit Hr') as [_ Hr2]; [lia|].
  specialize (IH _ Hr2). pose proof (received_count _ _ _ Hr'). lia.
Qed.

Lemma poll_all_from since m polls sessions msgs : id_ok id = true -> polls_of since m polls sessions msgs -> forall k more, received k since m -> (since < 2 ^ 31)%Z ->
  exists got more' k', poll_all polls since more = Some (got, more') /\ got = view <$> drop k (take k' (answers msgs)) /\
  k <= k' <= length (answers msgs) /\ (only_grows m sessions -> Nat.min (k + length polls) (length (answers m)) <= k') /\
  (polls <> [] -> more' = false -> k' = length (answers msgs)).
Proof.
  intros Hid. induction 1 as [since m|since m m' sessions msgs limit w r Hp Hlim Hw Hok Hpolls IH]; intros k more Hrec Hs31.
  - exists [], more, k. cbn [poll_all length]. pose proof (received_count _ _ _ Hrec). split_and!; [done| |lia..|done].
    by rewrite drop_ge by (rewrite length_take; lia).
  - destruct (received_keep k since m m' Hp Hrec) as [Hrec' _]. destruct (received_poll k since m' limit Hrec') as [Ht Hrec2]; [lia|].
    assert (Hs : (-1 <= since < 2 ^ 31)%Z) by (destruct (received_since _ _ _ Hrec); lia).
    cbn [poll_all]. rewrite (poll_once_spec limit since w m') by done. cbn [mbind option_bind].
    pose proof (next_since_range limit since m' Hs Hok) as Hn.
    destruct (IH _ (Nat.ltb limit (length (fresh since (answers m')))) Hrec2 (proj2 Hn)) as (got & more' & k' & Hall & Hgot & Hk' & Hmin & Hmore).
    rewrite Hall. cbn [mbind option_bind fst snd]. exists ((view <$> taken limit since m') ++ got), more', k'.
    pose proof (polls_keep _ _ _ _ _ _ Hpolls Hrec2) as Hkeep. pose proof (polls_count _ _ _ _ _ _ Hpolls Hrec2) as Hcount.
    pose proof (received_count _ _ _ Hrec') as Hk. split_and!; [done| |lia|lia| |].
    + rewrite Hgot, <- fmap_app. f_equal. rewrite Ht. set (k1 := Nat.min (k + limit) (length (answers m'))) in *.
      assert (Hk1 : take limit (drop k (answers m')) = drop k (take k1 (answers msgs))).
      { rewrite Hkeep, take_drop_commute. f_equal. unfold k1.
        destruct (Nat.min_spec (k + limit) (length (answers m'))) as [[_ ->]|[Hle ->]]; [done|]. by rewrite !take_ge by lia. }
      rewrite Hk1. rewrite <- (take_drop k1 (take k' (answers msgs))) at 2. rewrite take_take, Nat.min_l by lia.
      rewrite drop_app_le; [done|]. rewrite length_take. lia.
    + intros [Hg1 Hg2]. specialize (Hmin Hg2). destruct (answers_prefix m m' Hg1) as (l0 & Ha0 & _). cbn [length]. rewrite Ha0 in *. rewrite length_app in *. lia.
    + intros _ Hm. destruct r as [|p r]; [|by apply Hmore]. cbn [poll_all] in Hall. injection Hall as <- <-.
      inversion Hpolls; subst. apply Nat.ltb_ge in Hm. rewrite (received_rest _ _ _ Hrec'), length_drop in Hm. lia.
Qed.
End Client.

(** C37: A client that polls a session, going on from each reply, gets the
    answers of the session in order, none twice and none left out, however the
    polls and the work of the agent interleave, while no answer that the client
    was shown is rolled back ([polls_of]): then an answer that takes its place
    is missed ([rolled_back_answer_missed]). When a reply says that there is no
    more the client has all the answers there are; and if the session was not
    cut back at all it has, after as many polls as there were answers at first,
    all of those. *)
Theorem acp_polling_complete {W} getenv now id m (polls : list (nat * AcpWorld W)) sessions msgs : id_ok id = true -> polls_of id (-1) m polls sessions msgs ->
  exists got more, poll_all getenv now id polls (-1) true = Some (got, more) /\
  got = take (length got) (view <$> answers msgs) /\ (only_grows m sessions -> Nat.min (length polls) (length (answers m)) <= length got) /\
  (more = false -> got = view <$> answers msgs).
Proof.
  intros Hid Hpolls. assert (Hrec : received 0 (-1) m).
  { split; [lia| |by right]. apply fresh_all. intros a Ha. apply answers_range in Ha as [Ha _]. lia. }
  destruct (poll_all_from getenv now id (-1) m polls sessions msgs Hid Hpolls 0 true Hrec ltac:(lia)) as (got & more & k & Hall & Hgot & Hk & Hmin & Hmore).
  rewrite drop_0 in Hgot. assert (Hlen : length got = k) by (rewrite Hgot, length_fmap, length_take; lia).
  exists got, more. split_and!; [done| |by rewrite Hlen|].
  - rewrite Hlen, Hgot. by rewrite fmap_take.
  - intros Hm. rewrite Hgot. f_equal. apply take_ge. destruct polls as [|p polls].
    + cbn [poll_all] in Hall. by injection Hall as <- <-.
    + rewrite (Hmore ltac:(done) Hm). lia.
Qed.

(** ** Inputs on which the theorems apply *)

Definition demo_env (name : cstr) : option cstr := if str_eq name $"PRIMAGEN_ACP_TOKEN" then Some $"t0k" else None.
Definition demo_server : ACPServer unit unit := acp_server_new (Some (mkRegistry [] 8)) true.
Definition demo_sessions (msgs : list Message) : SessionManager :=
  let '(mgr, id) := session_manager_create true 1 (session_manager_new $"/w") $"acp:c1" in
  update_session mgr (default 0 id) (fold_left (session_add_message 2) msgs (session_new $"acp:c1" 1)).
Definition demo_world (msgs : list Message) : AcpWorld unit := mkAcpWorld None (Some (demo_sessions msgs)) demo_fs tt 0.
Definition demo_question : Message := message_new ROLE_USER (Some $"hi").
Definition demo_reply (text : cstr) : Message := message_new ROLE_ASSISTANT (Some text).
Definition demo_talk : list Message := [demo_question; demo_reply $"hello"; demo_question; demo_reply $"again"].
Definition demo_lost : list Message := [demo_question; demo_reply $"hello"; message_new ROLE_USER (Some $"never mind")].
Definition demo_polls : list (nat * AcpWorld unit) := [(1, demo_world (take 2 demo_talk)); (1, demo_world demo_lost); (1, demo_world demo_talk)].

Lemma acp_token_required_witness : exists reply w',
  acp_event_handler demo_env 0 demo_server (poll_request $"c1" 1 (-1)) (demo_world demo_talk) = (demo_server, reply, w') /\
  reply = acp_send_error demo_env 401 $"Unauthorized" /\ w' = demo_world demo_talk.
Proof.
  destruct (acp_token_required demo_env 0 demo_server (poll_request $"c1" 1 (-1)) (demo_world demo_talk) $"t0k" eq_refl ltac:(done) ltac:(done))
    as (reply & w' & H & _ & _ & Hno).
  exists reply, w'. split; [exact H|]. apply Hno; [done|]. by intros [H1|H1].
Defined.

Lemma demo_world_has msgs : msgs ∈ [take 2 demo_talk; demo_lost; demo_talk] -> world_has $"c1" (demo_world msgs) msgs.
Proof.
  intros H. assert (forall l, l ∈ [take 2 demo_talk; demo_lost; demo_talk] -> session_manager_get (demo_sessions l) ($"acp:" ++ $"c1") = Some 0 /\
    (s_messages <$> sm_sessions (demo_sessions l) !! 0) = Some l) as Ha.
  { intros l Hl. rewrite !elem_of_cons in Hl. destruct Hl as [->|[->|[->|Hl]]]; [by vm_compute..|by apply not_elem_of_nil in Hl]. }
  destruct (Ha msgs H) as [H1 H2]. destruct (sm_sessions (demo_sessions msgs) !! 0) as [s|] eqn:E; [|done]. injection H2 as H2.
  by exists (demo_sessions msgs), 0, s.
Qed.

(** A question after the first answer was rolled back before the third poll. *)
Lemma demo_polls_of : polls_of $"c1" (-1) [] demo_polls [take 2 demo_talk; demo_lost; demo_talk] demo_talk.
Proof.
  apply polls_cons; [by apply prefix_nil|lia|apply demo_world_has; set_solver|by split|].
  apply polls_cons; [by exists (drop 2 demo_lost)|lia|apply demo_world_has; set_solver|by split|].
  apply polls_cons; [by exists (drop 2 demo_talk)|lia|apply demo_world_has; set_solver|by split|]. apply polls_nil.
Qed.

Lemma acp_polling_complete_witness : exists got more, poll_all demo_env 0 $"c1" demo_polls (-1) true = Some (got, more) /\
  got = take (length got) [(1%Z, $"hello"); (3%Z, $"again")] /\ (only_grows [] [take 2 demo_talk; demo_lost; demo_talk] -> 0 <= length got) /\
  (more = false -> got = [(1%Z, $"hello"); (3%Z, $"again")]).
Proof. exact (acp_polling_complete demo_env 0 $"c1" [] demo_polls [take 2 demo_talk; demo_lost; demo_talk] demo_talk ltac:(by vm_compute) demo_polls_of). Defined.

(** A scheduled message is answered in the session, the client polls, and the
    message and its answer are rolled back ([remove_active_task] of a task without
    record): the answer to the next question has the number of the one that was
    taken away, and the client, which goes on after it, never gets it. *)
Lemma rolled_back_answer_missed :
  poll_all demo_env 0 $"c1" [(20, demo_world [demo_question; demo_reply $"reminder"]); (20, demo_world [demo_question; demo_reply $"hello"])] (-1) true =
    Some ([(1%Z, $"reminder")], false).
Proof. by vm_compute. Qed.
