(* ===== verification/Commands.v ===== *)
(** [src/agent/command_dispatcher.c], [tool_router.c], [agent_common.h]: slash
    commands. A message that starts with a slash is a command of the plugin
    manager, or else the name of a tool, or else the name of a skill. *)
From S2P Require Import Prelude CStr Common Message MessageBus Json Fs Session Utils ToolRegistry ToolExecutor ToolContext Orchestrator AgentCore.

(** [parse_slash_command]: the name, cut to the buffer, and the text after the
    first space; an empty name when the text is not a command. *)
Definition parse_slash_command (full_content : cstr) (cmd_name_size : nat) : cstr * option cstr :=
  match drop_while isspace full_content with
  | "/"%char :: cmd_start =>
      match strchr cmd_start " "%char with
      | Some cmd_len => (truncate_to cmd_name_size (take cmd_len cmd_start), Some (drop (cmd_len + 1) cmd_start))
      | None => (truncate_to cmd_name_size cmd_start, None)
      end
  | _ => ([], None)
  end.

(** Parsing gives back the name and the arguments of a command that was
    written as blanks, a slash, the name and, after one space, the arguments. *)
Theorem parse_slash_command_correct blanks name args size :
  Forall (fun c => isspace c = true) blanks -> (" "%char ∉ name) -> length name < size ->
  parse_slash_command (blanks ++ $"/" ++ name ++ $" " ++ args) size = (name, Some args) /\
  parse_slash_command (blanks ++ $"/" ++ name) size = (name, None).
Proof.
  intros Hb Hn Hl.
  assert (forall r, drop_while isspace (blanks ++ $"/" ++ r) = "/"%char :: r) as Hd.
  { intros r. induction Hb as [|c b Hc _ IH]; [done|]. cbn. by rewrite Hc. }
  unfold parse_slash_command. rewrite !Hd. split.
  - cbn [list_ascii_of_string app]. rewrite strchr_app by done. rewrite take_app_length, truncate_to_id by done.
    do 2 f_equal. by rewrite drop_app_add.
  - apply strchr_None in Hn. by rewrite Hn, truncate_to_id.
Qed.

Lemma parse_slash_command_correct_witness :
  parse_slash_command $"  /stop now please" 64 = ($"stop", Some $"now please") /\
  parse_slash_command $"  /stop" 64 = ($"stop", None).
Proof.
  apply (parse_slash_command_correct $"  " $"stop" $"now please" 64); [by repeat constructor| |cbn; lia].
  intros H. by vm_compute in H; repeat (apply elem_of_cons in H as [H|H]; [discriminate|]); apply elem_of_nil in H.
Defined.

Section Commands.
Context {W : Type} `{AgentEnv W}.
Implicit Types l : AgentLoop W.

(** ** What a handler can do *)

Definition command_ctx_send_response (l : AgentLoop W) (channel chat_id message : cstr) : AgentLoop W :=
  send_outbound l channel chat_id message.

Definition command_ctx_stop_active_tasks (l : AgentLoop W) (session_key : cstr) : AgentLoop W * nat :=
  match session_key with
  | [] => (set_orch l (session_orchestrator_cancel_all_tasks (al_orch l)), 0)
  | _ => let '(o', n) := session_orchestrator_cancel_tasks_by_session (al_orch l) session_key in (set_orch l o', n)
  end.

(** The reset only logs. *)
Definition command_ctx_reset_session (l : AgentLoop W) (session_key : cstr) : AgentLoop W * Z := (l, 0%Z).

(** ** The built-in handlers *)

Fixpoint help_lines (cmds : list CommandPluginDef) : cstr :=
  match cmds with
  | [] => []
  | c :: r => $"/" ++ c_name c ++ $" - " ++ c_description c ++ (if r is [] then [] else $"  " ++ [ch_nl]) ++ help_lines r
  end.

Definition help_text (cmds : list CommandPluginDef) : cstr :=
  [ch_nl] ++ $"      Primagen(Primitive Genesis) - AI Agent Framework  " ++ [ch_nl] ++
  $"===================================================================  " ++ [ch_nl] ++
  $"Primagen commands:  " ++ [ch_nl] ++
  match cmds with [] => $"No commands registered." | _ => help_lines cmds end.

Definition cmd_help (l : AgentLoop W) (channel chat_id : cstr) : AgentLoop W * Z :=
  (command_ctx_send_response l channel chat_id (help_text (pm_commands (al_plugins l))), 0%Z).

Definition cmd_stop (l : AgentLoop W) (channel chat_id session_key : cstr) : AgentLoop W * Z :=
  let '(l1, cancelled) := command_ctx_stop_active_tasks l session_key in
  let response := if Nat.ltb 0 cancelled then $"Stopped " ++ fmt_zu cancelled ++ $" task(s)." else $"No active task to stop." in
  (command_ctx_send_response l1 channel chat_id (truncate_to 256 response), Z.of_nat cancelled).

Definition cmd_restart (l : AgentLoop W) (channel chat_id : cstr) : AgentLoop W * Z :=
  (command_ctx_send_response l channel chat_id $"Restarting...", 0%Z).

Definition cmd_new (l : AgentLoop W) (channel chat_id session_key : cstr) : AgentLoop W * Z :=
  let '(l1, r) := command_ctx_reset_session l session_key in
  if (r =? 0)%Z then (command_ctx_send_response l1 channel chat_id $"New session started.", 0%Z) else (l1, (-1)%Z).

(** The three groups of [cmd_tools]. *)
Inductive tool_group := GroupBuiltin | GroupPlugin | GroupMcp.

Definition group_of (t : Tool W ToolContext) : tool_group :=
  if starts_with $"primagen_" (t_name t) || starts_with $"mcp_" (t_name t) then GroupMcp
  else match t_plugin_ref t with Some _ => GroupPlugin | None => GroupBuiltin end.

Definition group_eqb (a b : tool_group) : bool :=
  match a, b with GroupBuiltin, GroupBuiltin | GroupPlugin, GroupPlugin | GroupMcp, GroupMcp => true | _, _ => false end.

Definition in_group (g : tool_group) (tools : list (Tool W ToolContext)) : list (Tool W ToolContext) :=
  List.filter (fun t => group_eqb (group_of t) g) tools.

Definition tool_line (names : list cstr) (g : tool_group) (t : Tool W ToolContext) : cstr :=
  $"- " ++ t_name t ++
  (match g, t_plugin_ref t with
   | GroupPlugin, Some p => match names !! p with Some n => $" (" ++ n ++ $")" | None => [] end
   | _, _ => []
   end) ++ [ch_nl].

Definition group_section (names : list cstr) (g : tool_group) (title : cstr) (tools : list (Tool W ToolContext)) : cstr :=
  match in_group g tools with
  | [] => []
  | ts => [ch_nl] ++ title ++ [ch_nl] ++ (ts ≫= tool_line names g)
  end.

Definition tools_text (names : list cstr) (tools : list (Tool W ToolContext)) : cstr :=
  [ch_nl] ++ $"Available tools:" ++ [ch_nl] ++
  truncate_to 128 ($"Total: " ++ fmt_zu (length tools) ++ $" (builtin: " ++ fmt_zu (length (in_group GroupBuiltin tools)) ++
    $", plugin: " ++ fmt_zu (length (in_group GroupPlugin tools)) ++ $", mcp: " ++ fmt_zu (length (in_group GroupMcp tools)) ++
    $")" ++ [ch_nl]) ++
  group_section names GroupBuiltin $"[builtin]" tools ++ group_section names GroupPlugin $"[plugin]" tools ++
  group_section names GroupMcp $"[mcp]" tools.

Definition cmd_tools (l : AgentLoop W) (channel chat_id : cstr) : AgentLoop W * Z :=
  (command_ctx_send_response l channel chat_id
     (tools_text (pm_plugin_names (al_plugins l)) (reg_tools (al_tools l))), 0%Z).

Definition cmd_reload_plugins (l : AgentLoop W) (channel chat_id : cstr) : AgentLoop W * Z :=
  let '(reloaded, pm', w') := plugin_manager_load_external (al_plugins l) (al_world l) in
  let l1 := set_world (set_plugins l pm') w' in
  (command_ctx_send_response l1 channel chat_id
     (truncate_to 512 ([ch_nl] ++ $"Plugin reload complete." ++ [ch_nl] ++ $"External dir: " ++ pm_external_dir pm' ++
        [ch_nl] ++ $"New/reloaded plugins: " ++ fmt_d reloaded ++ [ch_nl] ++ $"Total loaded: " ++
        fmt_zu (length (pm_plugin_names pm')))), 0%Z).

Definition command_dispatcher_register_builtin_commands (pm : PluginManager) : PluginManager :=
  mkPlugins (pm_commands pm ++
    [mkCommand $"stop" $"Stop active tasks" cmd_stop_h;
     mkCommand $"restart" $"Restart the bot" cmd_restart_h;
     mkCommand $"new" $"Start a new conversation" cmd_new_h;
     mkCommand $"help" $"Show available commands" cmd_help_h;
     mkCommand $"tools" $"Show available tools (builtin/plugin/mcp)" cmd_tools_h;
     mkCommand $"reload-plugins" $"Reload all plugins from the plugins directory" cmd_reload_plugins_h])
    (pm_external_dir pm) (pm_plugin_names pm).

Definition run_command (h : CommandHandler) (l : AgentLoop W) (channel chat_id session_key : cstr) (argv : list cstr) : AgentLoop W * Z :=
  match h with
  | cmd_stop_h => cmd_stop l channel chat_id session_key
  | cmd_restart_h => cmd_restart l channel chat_id
  | cmd_new_h => cmd_new l channel chat_id session_key
  | cmd_help_h => cmd_help l channel chat_id
  | cmd_tools_h => cmd_tools l channel chat_id
  | cmd_reload_plugins_h => cmd_reload_plugins l channel chat_id
  | external_command_h n =>
      let '(responses, w') := external_command n channel chat_id session_key argv (al_world l) in
      (fold_left (fun l r => command_ctx_send_response l channel chat_id r) responses (set_world l w'), 0%Z)
  end.

(** ** The three stages *)

Definition is_blank_char (c : ascii) : bool := bool_decide (c = " "%char).

(** At most 15 arguments are passed on. *)
Definition handle_plugin_command (l : AgentLoop W) (channel chat_id session_key full_content : cstr) : AgentLoop W * bool :=
  let '(cmd_name, args_start) := parse_slash_command full_content 64 in
  match List.find (fun c => str_eq (c_name c) cmd_name) (pm_commands (al_plugins l)) with
  | None => (l, false)
  | Some c =>
      let argv := match args_start with Some a => take 15 (strtok is_blank_char a) | None => [] end in
      (fst (run_command (c_handler c) l channel chat_id session_key argv), true)
  end.

(** [tool_router_get_tool] and [tool_router_execute]. *)
Definition tool_router_get_tool (reg : ToolRegistry W ToolContext) (tool_name : cstr) : option (Tool W ToolContext) :=
  List.find (fun t => str_eq (t_name t) tool_name) (reg_tools reg).

Definition tool_router_execute (l : AgentLoop W) (tool_name args_json : cstr) : AgentLoop W * Error * cstr :=
  match tool_router_get_tool (al_tools l) tool_name with
  | None => (l, error_new ERR_TOOL (Some $"Tool not found"), [])
  | Some _ =>
      let '(err, result, w') := tool_registry_execute (al_tools l) (Some tool_name) args_json (al_world l) in
      (set_world l w', err, result)
  end.

Definition fallback_args (args_start : option cstr) : cstr :=
  default ($"{" ++ [ch_quote] ++ $"args" ++ [ch_quote] ++ $":" ++ [ch_quote; ch_quote] ++ $"}")
    (cJSON_PrintUnformatted (JObj [($"args", JStr (default [] args_start))])).

Definition tool_router_handle_fallback_command (l : AgentLoop W) (inbound : InboundMessage) (full_content : cstr) : AgentLoop W * bool :=
  let '(tool_name, args_start) := parse_slash_command full_content 64 in
  match List.find (fun t => str_eq (t_name t) tool_name) (reg_tools (al_tools l)) with
  | None => (l, false)
  | Some _ =>
      let '(l1, err, result) := tool_router_execute l tool_name (fallback_args args_start) in
      let response := if is_err err then truncate_to 256 ($"Error executing tool: " ++ err_message err) else result in
      (send_outbound l1 (in_channel inbound) (in_chat_id inbound) response, true)
  end.

(** The key of the conversation, in a 256-byte buffer. *)
Definition conversation_key (inbound : InboundMessage) : cstr :=
  truncate_to 256 (in_channel inbound ++ $":" ++ in_chat_id inbound).

(** The clock and the random number give the id of the task. *)
Definition handle_skill_fallback_command (now rnd : Z) (l : AgentLoop W) (inbound : InboundMessage) (sid : nat)
    (full_content : cstr) : AgentLoop W * bool :=
  let '(skill_name, _) := parse_slash_command full_content 64 in
  if env_has_skills then
    match skills_loader_load_skill (al_world l) skill_name with
    | Some (_ :: _) =>
        let l1 := loop_add_message now l sid (message_new ROLE_USER (Some full_content)) in
        let key := conversation_key inbound in
        let l2 := set_orch l1 (session_orchestrator_set_current_session_key (al_orch l1) key) in
        let l3 := refresh_tool_routes l2 (in_channel inbound) (in_chat_id inbound) in
        let task_id := truncate_to 32 ($"task_" ++ fmt_d now ++ $"_" ++ fmt_d (Z.rem rnd 10000)) in
        let l4 := add_active_task l3 task_id key inbound (session_count l3 sid) in
        let l5 := set_orch l4 (session_orchestrator_update_task_state (al_orch l4) key SESSION_STATE_WAITING_LLM) in
        let l6 := set_orch l5 (session_orchestrator_increment_task_turn (al_orch l5) key) in
        (trigger_llm_async l6 key, true)
    | _ => (l, false)
    end
  else (l, false).

Definition unknown_command (trimmed : cstr) : cstr :=
  truncate_to 256 ($"Unknown command: " ++ trimmed ++ $". Type /help for available commands.").

Definition command_dispatcher_handle_message (now rnd : Z) (l : AgentLoop W) (inbound : InboundMessage) (sid : nat)
    (session_key content : cstr) : AgentLoop W * bool :=
  let trimmed := str_trim_left content in
  match trimmed with
  | "/"%char :: _ =>
      let '(l1, h1) := handle_plugin_command l (in_channel inbound) (in_chat_id inbound) session_key trimmed in
      if h1 then (l1, true) else
      let '(l2, h2) := tool_router_handle_fallback_command l1 inbound trimmed in
      if h2 then (l2, true) else
      let '(l3, h3) := handle_skill_fallback_command now rnd l2 inbound sid trimmed in
      if h3 then (l3, true)
      else (send_outbound l3 (in_channel inbound) (in_chat_id inbound) (unknown_command trimmed), true)
  | _ => (l, false)
  end.

(** ** What the dispatcher promises *)

(** The texts [ts] were sent to the conversation, and nothing else. *)
Definition sent (l l' : AgentLoop W) (channel chat_id : cstr) (ts : list cstr) : Prop :=
  al_outbound l' = Fifo.mkFifo
    (Fifo.pending (al_outbound l) ++ ((fun t => outbound_message_new (Some channel) (Some chat_id) (Some t)) <$> ts)) false.

(** What answers a command: a command of the plugin manager, else a tool, else
    a skill that can be loaded, else nothing. *)
Inductive stage := StCommand (h : CommandHandler) | StTool (t : Tool W ToolContext) | StSkill | StUnknown.

Definition skill_text (l : AgentLoop W) (name : cstr) : option cstr :=
  if env_has_skills then match skills_loader_load_skill (al_world l) name with Some [] => None | t => t end else None.

Definition stage_of (l : AgentLoop W) (name : cstr) : stage :=
  match List.find (fun c => str_eq (c_name c) name) (pm_commands (al_plugins l)) with
  | Some c => StCommand (c_handler c)
  | None =>
      match List.find (fun t => str_eq (t_name t) name) (reg_tools (al_tools l)) with
      | Some t => StTool t
      | None => match skill_text l name with Some _ => StSkill | None => StUnknown end
      end
  end.

(** What a command does to the tasks: [stop] marks those of the conversation
    as cancelled (all of them for an empty key), the others do nothing. *)
Definition stops (h : CommandHandler) (key : cstr) (t : ActiveTask) : Prop :=
  h = cmd_stop_h /\ (key = [] \/ at_session_key t = key).
#[export] Instance handler_eq_dec : EqDecision CommandHandler.
Proof. solve_decision. Defined.
#[export] Instance stops_dec h key t : Decision (stops h key t).
Proof. unfold stops. apply _. Defined.
Definition tasks_after (h : CommandHandler) (key : cstr) (ts : list ActiveTask) : list ActiveTask :=
  (fun t => if decide (stops h key t) then set_cancelled t else t) <$> ts.

Lemma sent_one l l1 channel chat_id t : Fifo.is_closed (al_outbound l) = false -> al_outbound l1 = al_outbound l ->
  sent l (send_outbound l1 channel chat_id t) channel chat_id [t].
Proof. intros Hc E. unfold sent, send_outbound, Fifo.send. cbn [set_outbound_q al_outbound]. by rewrite E, Hc. Qed.

Definition builtin (h : CommandHandler) : bool := match h with external_command_h _ => false | _ => true end.

Lemma cancelled_again t : at_cancelled t = true -> set_cancelled t = t.
Proof. destruct t. cbn. by intros ->. Qed.

Lemma tasks_after_same h key ts : h <> cmd_stop_h -> tasks_after h key ts = ts.
Proof. intros Hh. unfold tasks_after. rewrite <-(list_fmap_id ts) at 2. apply list_fmap_ext. intros i t _. rewrite decide_False; [done|]. by intros [? _]. Qed.

Lemma run_command_sends h l channel chat_id key argv : builtin h = true -> Fifo.is_closed (al_outbound l) = false ->
  (exists t, sent l (fst (run_command h l channel chat_id key argv)) channel chat_id [t]) /\
  so_active_tasks (al_orch (fst (run_command h l channel chat_id key argv))) = tasks_after h key (so_active_tasks (al_orch l)).
Proof.
  intros Hb Hc. destruct h; try discriminate Hb; cbn [run_command]; rewrite ?tasks_after_same by done.
  - unfold cmd_stop, command_ctx_stop_active_tasks. destruct key as [|a key]; cbn [fst].
    + split; [eexists; by apply sent_one|]. cbn. unfold tasks_after. apply list_fmap_ext. intros i t _. rewrite decide_True; [done|]. split; auto.
    + split; [eexists; by apply sent_one|]. cbn. unfold tasks_after. apply list_fmap_ext. intros i t _.
      destruct (has_key (a :: key) t) eqn:Ek.
      * apply has_key_true in Ek. rewrite decide_True by (split; auto). cbn [andb]. destruct (at_cancelled t) eqn:Ec; [|done]. cbn. by rewrite cancelled_again.
      * cbn [andb]. rewrite decide_False; [done|]. intros [_ [?|Ht]]; [done|]. by apply has_key_true in Ht; congruence.
  - split; [eexists; by apply sent_one|done].
  - split; [eexists; by apply sent_one|done].
  - split; [eexists; by apply sent_one|done].
  - split; [eexists; by apply sent_one|done].
  - unfold cmd_reload_plugins. destruct (plugin_manager_load_external _ _) as [[n pm'] w'].
    split; [eexists; by apply sent_one|done].
Qed.

Definition count_before (t : ActiveTask) : nat := cx_session_msg_count_before (at_ctx t).

Lemma skill_starts_task now rnd l inbound sid content : env_has_skills = true ->
  (exists c t, skills_loader_load_skill (al_world l) (fst (parse_slash_command content 64)) = Some (c :: t)) ->
  let r := handle_skill_fallback_command now rnd l inbound sid content in
  snd r = true /\ al_outbound (fst r) = al_outbound l /\
  count_before <$> so_active_tasks (al_orch (fst r)) = (count_before <$> so_active_tasks (al_orch l)) ++
    [session_count (loop_add_message now l sid (message_new ROLE_USER (Some content))) sid] /\
  at_session_key <$> so_active_tasks (al_orch (fst r)) =
    (at_session_key <$> so_active_tasks (al_orch l)) ++ [truncate_to SESSION_KEY_MAX (conversation_key inbound)].
Proof.
  intros He (c & t & Hs) r. unfold r, handle_skill_fallback_command.
  destruct (parse_slash_command content 64) as [name args]. cbn [fst] in Hs. rewrite He, Hs. cbn [fst snd].
  set (l1 := loop_add_message _ _ _ _).
  assert (al_outbound l1 = al_outbound l /\ al_orch l1 = al_orch l) as [Ho Hq].
  { unfold l1, loop_add_message. by destruct (sm_sessions (al_sessions l) !! sid). }
  unfold trigger_llm_async. remember (set_orch _ _) as l6 eqn:E6.
  assert (forall (b : bool) (x y : AgentLoop W), al_orch x = al_orch l6 -> al_orch y = al_orch l6 ->
    al_orch (if b then x else y) = al_orch l6) as Hif by (by intros [] x y Hx Hy).
  split_and!; [done| | |].
  - rewrite E6 in *. by destruct (al_has_provider _).
  - rewrite Hif by done. rewrite E6. cbn [set_orch al_orch session_orchestrator_increment_task_turn with_tasks so_active_tasks].
    rewrite update_first_proj by done. cbn. rewrite update_first_proj by done. rewrite fmap_app. f_equal. by rewrite Hq.
  - rewrite Hif by done. rewrite E6. cbn [set_orch al_orch session_orchestrator_increment_task_turn with_tasks so_active_tasks].
    rewrite update_first_keys by done. cbn. rewrite update_first_keys by done. by rewrite Hq, fmap_app.
Qed.

Lemma skill_found now rnd l inbound sid content : snd (handle_skill_fallback_command now rnd l inbound sid content) = true ->
  env_has_skills = true /\
  exists c t, skills_loader_load_skill (al_world l) (fst (parse_slash_command content 64)) = Some (c :: t).
Proof.
  unfold handle_skill_fallback_command. destruct (parse_slash_command content 64) as [name args]. cbn [fst].
  destruct env_has_skills; [|done]. destruct (skills_loader_load_skill (al_world l) name) as [[|c t]|]; try done.
  intros _. split; [done|by exists c, t].
Qed.

Lemma skill_not_found now rnd l inbound sid content l' :
  handle_skill_fallback_command now rnd l inbound sid content = (l', false) -> l' = l.
Proof.
  unfold handle_skill_fallback_command. destruct (parse_slash_command content 64) as [name args].
  destruct env_has_skills; [|congruence].
  destruct (skills_loader_load_skill (al_world l) name) as [[|c t]|]; congruence.
Qed.

(** C19: Every slash command is handled, by the one stage its name stands for
    ([stage_of]). With built-in commands only and an open outbound queue: a
    command sends exactly one reply to the chat it came from and leaves the
    tasks as they are, but for stop, which marks those of the conversation as
    cancelled; a tool is run once, on the arguments as text, and its result, or
    its error, is the one reply; a skill sends nothing and starts one task of
    the conversation; and any other name gets the answer that it is unknown,
    and changes nothing else. *)
Theorem slash_command_answered now rnd l inbound sid key content rest :
  Fifo.is_closed (al_outbound l) = false ->
  Forall (fun c => builtin (c_handler c) = true) (pm_commands (al_plugins l)) ->
  str_trim_left content = "/"%char :: rest ->
  let '(name, args) := parse_slash_command ("/"%char :: rest) 64 in
  let r := command_dispatcher_handle_message now rnd l inbound sid key content in
  snd r = true /\
  match stage_of l name with
  | StCommand h => (exists t, sent l (fst r) (in_channel inbound) (in_chat_id inbound) [t]) /\
      so_active_tasks (al_orch (fst r)) = tasks_after h key (so_active_tasks (al_orch l))
  | StTool t =>
      let '(err, result, w') := tool_registry_execute (al_tools l) (Some (t_name t)) (fallback_args args) (al_world l) in
      fst r = send_outbound (set_world l w') (in_channel inbound) (in_chat_id inbound)
                (if is_err err then truncate_to 256 ($"Error executing tool: " ++ err_message err) else result)
  | StSkill => al_outbound (fst r) = al_outbound l /\
      at_session_key <$> so_active_tasks (al_orch (fst r)) =
        (at_session_key <$> so_active_tasks (al_orch l)) ++ [truncate_to SESSION_KEY_MAX (conversation_key inbound)]
  | StUnknown => fst r = send_outbound l (in_channel inbound) (in_chat_id inbound) (unknown_command ("/"%char :: rest))
  end.
Proof.
  intros Hc Hb Htrim. destruct (parse_slash_command ("/"%char :: rest) 64) as [name args] eqn:Ep. cbn zeta.
  unfold command_dispatcher_handle_message. rewrite Htrim. unfold handle_plugin_command, stage_of. rewrite Ep.
  destruct (List.find _ (pm_commands (al_plugins l))) as [c|] eqn:Ef.
  { split; [done|]. cbn [fst]. apply run_command_sends; [|done].
    apply List.find_some in Ef as [Hin _]. rewrite Forall_forall in Hb. by apply Hb, list_elem_of_In. }
  unfold tool_router_handle_fallback_command. rewrite Ep.
  destruct (List.find _ (reg_tools (al_tools l))) as [t|] eqn:Et.
  { unfold tool_router_execute, tool_router_get_tool. rewrite Et.
    assert (name = t_name t) as -> by (apply List.find_some in Et as [_ Et]; by apply bool_decide_eq_true in Et).
    by destruct (tool_registry_execute _ _ _ _) as [[err result] w']. }
  destruct (handle_skill_fallback_command now rnd l inbound sid _) as [l3 h3] eqn:Es. destruct h3.
  - destruct (skill_found now rnd l inbound sid ("/"%char :: rest)) as [He Hs]; [by rewrite Es|].
    pose proof (skill_starts_task now rnd l inbound sid ("/"%char :: rest) He Hs) as (_ & Ho & _ & Hk). rewrite Es in Ho, Hk.
    rewrite Ep in Hs. cbn [fst] in Hs. destruct Hs as (c & t & Hs). unfold skill_text. rewrite He, Hs. by split.
  - assert (skill_text l name = None) as ->; [|by rewrite (skill_not_found _ _ _ _ _ _ _ Es)].
    unfold handle_skill_fallback_command in Es. rewrite Ep in Es. unfold skill_text. destruct env_has_skills; [|done].
    by destruct (skills_loader_load_skill (al_world l) name) as [[|c t]|].
Qed.

(** A skill command starts a task whatever the conversation is doing, so
    a conversation that is being processed gets a second task with its key;
    and the message count it keeps for the rollback is taken after the
    command was added, so the rollback keeps the command. *)
Theorem skill_command_ignores_busy now rnd l inbound sid s content :
  env_has_skills = true ->
  (exists c t, skills_loader_load_skill (al_world l) (fst (parse_slash_command content 64)) = Some (c :: t)) ->
  sm_sessions (al_sessions l) !! sid = Some s ->
  truncate_to SESSION_KEY_MAX (conversation_key inbound) ∈ (at_session_key <$> so_active_tasks (al_orch l)) ->
  let l' := fst (handle_skill_fallback_command now rnd l inbound sid content) in
  ~ NoDup (at_session_key <$> so_active_tasks (al_orch l')) /\
  last (count_before <$> so_active_tasks (al_orch l')) = Some (S (length (s_messages s))).
Proof.
  intros He Hs Hsid Hbusy l'.
  destruct (skill_starts_task now rnd l inbound sid content He Hs) as (_ & _ & Hn & Hk).
  split.
  - unfold l'. rewrite Hk. intros (_ & Hno & _)%NoDup_app. by apply (Hno _ Hbusy), list_elem_of_singleton.
  - unfold l'. rewrite Hn, last_snoc. f_equal. unfold session_count, loop_add_message. rewrite Hsid. cbn [set_sessions al_sessions update_session sm_sessions].
    rewrite list_lookup_insert_eq by (by eapply lookup_lt_Some). cbn. rewrite length_app. cbn. lia.
Qed.

(** The command /new answers that a new session was started, but changes nothing
    other than the outbound queue: the session keeps all its messages. *)
Theorem new_command_resets_nothing l channel chat_id key :
  let l' := fst (cmd_new l channel chat_id key) in
  l' = send_outbound l channel chat_id $"New session started." /\
  al_sessions l' = al_sessions l /\ al_orch l' = al_orch l /\ al_fs l' = al_fs l.
Proof. done. Qed.
End Commands.

(** ** Two runs: a built-in command, and a skill for a busy conversation *)

Definition demo_skill_env : AgentEnv unit := {|
  env_has_memory := false;
  memory_append_history _ _ w := (err_ok, w);
  memory_consolidate _ w := (err_ok, w);
  env_has_skills := true;
  skills_loader_load_skill _ name := Some $"Do it.";
  fmt_time _ := [];
  plugin_manager_load_external pm w := (0%Z, pm, w);
  external_command _ _ _ _ _ w := ([], w);
|}.

Definition demo_agent (ts : list ActiveTask) : AgentLoop unit := {|
  al_sessions := fst (session_manager_create true 1 (session_manager_new $"/w") $"cli:me");
  al_fs := mkFs ∅ (fun _ => true) (fun _ _ => true); al_orch := mkOrchestrator ts [];
  al_tools := mkRegistry [] 8; al_executor := tool_executor_new 0; al_outbound := Fifo.empty; al_internal := Fifo.empty;
  al_world := tt; al_config := None; al_has_provider := true; al_llm_calls := []; al_tool_ctxs := []; al_inbox := [];
  al_workspace_path := $"/w"; al_plugins := command_dispatcher_register_builtin_commands (mkPlugins [] [] []);
|}.

Definition demo_command (text : cstr) : InboundMessage := inbound_message_new (Some $"cli") (Some $"me") (Some text) None.

Definition demo_busy : AgentLoop unit :=
  demo_agent [new_task $"task_1" $"cli:me" (demo_command $"hello") 0].

Lemma slash_command_answered_witness :
  let r := command_dispatcher_handle_message (H := demo_skill_env) 5 7 demo_busy (demo_command $" /stop") 0 $"cli:me" $" /stop" in
  snd r = true /\ (exists t, sent demo_busy (fst r) $"cli" $"me" [t]) /\
  so_active_tasks (al_orch (fst r)) = tasks_after cmd_stop_h $"cli:me" (so_active_tasks (al_orch demo_busy)).
Proof.
  apply (slash_command_answered (H := demo_skill_env) 5 7 demo_busy (demo_command $" /stop") 0 $"cli:me" $" /stop" $"stop");
    [done|by repeat constructor|by vm_compute].
Defined.

Lemma skill_command_ignores_busy_witness :
  let l' := fst (handle_skill_fallback_command (H := demo_skill_env) 5 7 demo_busy (demo_command $"/weather") 0 $"/weather") in
  ~ NoDup (at_session_key <$> so_active_tasks (al_orch l')) /\
  last (count_before <$> so_active_tasks (al_orch l')) = Some 1.
Proof.
  apply (skill_command_ignores_busy (H := demo_skill_env) 5 7 demo_busy (demo_command $"/weather") 0 (session_new $"cli:me" 1) $"/weather");
    [done|by eexists _, _|by vm_compute|by vm_compute; left].
Defined.
