(* ===== verification/AgentLoop.v ===== *)
(** [src/agent/agent_loop.c], second part: inbound messages, the inbox, the
    processing worker, and the agent as a transition system whose steps are
    the handlers and the answers of the model and of the tools.

    The specification is an abstract machine with one phase per conversation;
    the agent refines it (Theorem agent_refines_conversations). *)
From S2P Require Import Prelude CStr Common Message MessageBus Fs Session Utils ToolRegistry ToolExecutor ToolContext Orchestrator AgentCore Commands.

Section Loop.
Context {W : Type} `{AgentEnv W}.

(** [agent_loop_new]: the executor gets the default number of workers, and the
    built-in commands are registered. *)
Definition agent_loop_new (mgr : SessionManager) (fs : Fs) (tools : ToolRegistry W ToolContext) (config : option AgentConfig)
    (plugins : PluginManager) (workspace_path : cstr) (w : W) : AgentLoop W :=
  {| al_sessions := mgr; al_fs := fs; al_orch := session_orchestrator_new; al_tools := tools;
     al_executor := tool_executor_new 0; al_outbound := Fifo.empty; al_internal := Fifo.empty; al_world := w;
     al_config := config; al_has_provider := false; al_llm_calls := []; al_tool_ctxs := []; al_inbox := [];
     al_workspace_path := truncate_to 512 workspace_path;
     al_plugins := command_dispatcher_register_builtin_commands plugins |}.

Definition agent_loop_set_llm_provider (l : AgentLoop W) (provider : bool) : AgentLoop W := set_has_provider l provider.

(** ** Inbound messages *)

Definition busy_text : cstr :=
  $"Session is busy processing the previous request. Please wait for it to finish.".

(** The text stored for the user: prefixed by the sender when there is one. *)
Definition formatted_content (inbound : InboundMessage) : cstr :=
  match in_sender_name inbound with
  | [] => in_content inbound
  | name => $"[" ++ name ++ $"]: " ++ in_content inbound
  end.

(** [process_message_async]. *)
Definition process_message_async (l : AgentLoop W) (inbound : InboundMessage) : AgentLoop W :=
  let key := conversation_key inbound in
  let l1 := set_orch l (session_orchestrator_set_current_session_key (al_orch l) key) in
  let l2 := set_orch l1 (session_orchestrator_update_task_state (al_orch l1) key SESSION_STATE_WAITING_LLM) in
  let l3 := set_orch l2 (session_orchestrator_increment_task_turn (al_orch l2) key) in
  trigger_llm_async l3 key.

Definition inbound_task_id (sec rand_val : Z) : cstr :=
  truncate_to 64 ($"task_" ++ fmt_d sec ++ $"_" ++ fmt_d (Z.rem rand_val 1000000)).

(** The session of a message: the one in the table, or the one loaded. *)
Definition find_session (now : Z) (l : AgentLoop W) (key : cstr) : AgentLoop W * option nat :=
  match session_manager_get (al_sessions l) key with
  | Some sid => (l, Some sid)
  | None =>
      let '(mgr', sid, _) := session_manager_load true now (al_fs l) (al_sessions l) key in
      (set_sessions l mgr', sid)
  end.

(** [now], [sec] and [rnd] are what the clocks and the random generator give. *)
Definition process_inbound_message (now sec rnd : Z) (l : AgentLoop W) (inbound : InboundMessage) : AgentLoop W :=
  match in_content inbound with
  | [] => l
  | _ =>
      let key := conversation_key inbound in
      let '(l1, session) := find_session now l key in
      match session with
      | None => send_outbound l1 (in_channel inbound) (in_chat_id inbound) $"Session unavailable."
      | Some sid =>
          match str_trim_left (in_content inbound) with
          | "/"%char :: _ =>
              fst (command_dispatcher_handle_message now rnd l1 inbound sid key (str_trim_left (in_content inbound)))
          | _ =>
              let existing := session_orchestrator_snapshot_task (al_orch l1) key in
              if ts_valid existing && negb (bool_decide (ts_state existing = SESSION_STATE_IDLE)) then
                send_outbound l1 (in_channel inbound) (in_chat_id inbound) busy_text
              else
                let msg_content := formatted_content inbound in
                let session_msg_count_before := session_count l1 sid in
                let l2 := loop_add_message now l1 sid (message_new ROLE_USER (Some msg_content)) in
                let l3 := maybe_auto_consolidate_memory now l2 sid key msg_content in
                let l4 := add_active_task l3 (inbound_task_id sec rnd) key inbound session_msg_count_before in
                process_message_async l4 inbound
          end
      end
  end.

(** ** The inbox: a linked list with a tail, under [inbox_mutex] *)

Definition enqueue_inbound_task (l : AgentLoop W) (inbound : InboundMessage) : AgentLoop W :=
  set_inbox l (al_inbox l ++ [inbound]).

Definition dequeue_inbound_task (l : AgentLoop W) : AgentLoop W * option InboundMessage :=
  match al_inbox l with
  | [] => (l, None)
  | m :: rest => (set_inbox l rest, Some m)
  end.

(** One round of the processing worker: an internal event first, else an
    inbound message. *)
Definition worker_round (now sec rnd : Z) (l : AgentLoop W) : AgentLoop W :=
  match Fifo.pending (al_internal l) with
  | ev :: rest => handle_event now (set_internal_q l (Fifo.mkFifo rest (Fifo.is_closed (al_internal l)))) ev
  | [] =>
      match dequeue_inbound_task l with
      | (l1, Some m) => process_inbound_message now sec rnd l1 m
      | (l1, None) => l1
      end
  end.

(** One message of [agent_loop_run]'s loop; the exit message ends it. *)
Definition is_system_exit (m : InboundMessage) : bool :=
  str_eq (in_channel m) $"system" && str_eq (in_content m) $"exit".

Definition run_receive (l : AgentLoop W) (m : InboundMessage) : AgentLoop W * bool :=
  if is_system_exit m then (l, false) else (enqueue_inbound_task l m, true).

(** ** The agent and its environment *)

(** The message is answered by a skill: a command that is neither a plugin
    command nor a tool. *)
Definition starts_skill (l : AgentLoop W) (m : InboundMessage) : bool :=
  match str_trim_left (in_content m) with
  | "/"%char :: _ =>
      let name := fst (parse_slash_command (str_trim_left (in_content m)) 64) in
      negb (existsb (fun c => str_eq (c_name c) name) (pm_commands (al_plugins l))) &&
      negb (existsb (fun t => str_eq (t_name t) name) (reg_tools (al_tools l)))
  | _ => false
  end.

Definition idle_for (l : AgentLoop W) (key : cstr) : Prop :=
  List.find (has_key key) (so_active_tasks (al_orch l)) = None.

(** The id of a task the message may start is not in use, and no skill is
    started in a busy conversation. *)
Definition inbound_ok (now sec rnd : Z) (l : AgentLoop W) (m : InboundMessage) : Prop :=
  (starts_skill l m = true -> idle_for l (conversation_key m)) /\
  (truncate_to 32 (inbound_task_id sec rnd) ∉ (at_id <$> so_active_tasks (al_orch l))) /\
  (truncate_to 32 (truncate_to 32 ($"task_" ++ fmt_d now ++ $"_" ++ fmt_d (Z.rem rnd 10000))) ∉
    (at_id <$> so_active_tasks (al_orch l))).

Inductive agent_step : AgentLoop W -> AgentLoop W -> Prop :=
  | agent_receive l m :
      agent_step l (fst (run_receive l m))
  | agent_worker now sec rnd l :
      (Fifo.pending (al_internal l) = [] -> forall m rest, al_inbox l = m :: rest -> inbound_ok now sec rnd l m) ->
      agent_step l (worker_round now sec rnd l)
  | agent_model_answers l i key err response calls :
      al_llm_calls l !! i = Some key ->
      agent_step l (handle_llm_callback (set_llm_calls l (delete i (al_llm_calls l))) err response calls key)
  | agent_tool_starts l i r ex' :
      ex_workers (al_executor l) !! i = Some Waiting -> worker_take (al_executor l) = TakeRequest r ex' ->
      agent_step l (set_executor l (set_worker ex' i (Running r)))
  | agent_tool_ends l i r call freed w' ctx :
      ex_workers (al_executor l) !! i = Some (Running r) ->
      worker_execute (al_tools l) r (al_world l) = (call, freed, w') ->
      al_tool_ctxs l !! rq_context r = Some ctx ->
      agent_step l (tool_executor_callback (set_world (set_executor l (set_worker (al_executor l) i Waiting)) w')
                      (cb_error call) (cb_result call) ctx).

(** ** The specification: one phase per busy conversation *)

Inductive phase :=
  | AwaitModel (turn : Z)                  (* one model call is outstanding *)
  | AwaitTools (turn : Z) (pending : nat). (* that many tool calls are outstanding *)

Abbreviation conversations := (gmap cstr phase).

Inductive conv_step (max : Z) : conversations -> conversations -> Prop :=
  | conv_start σ k : σ !! k = None -> conv_step max σ (<[k := AwaitModel 1]> σ)
  | conv_answer σ k t : σ !! k = Some (AwaitModel t) -> conv_step max σ (delete k σ)
  | conv_call_tools σ k t n : σ !! k = Some (AwaitModel t) -> conv_step max σ (<[k := AwaitTools t (S n)]> σ)
  | conv_tool_result σ k t n : σ !! k = Some (AwaitTools t (S (S n))) -> conv_step max σ (<[k := AwaitTools t (S n)]> σ)
  | conv_next_turn σ k t : σ !! k = Some (AwaitTools t 1) -> (t < max)%Z ->
      conv_step max σ (<[k := AwaitModel (t + 1)]> σ)
  | conv_give_up σ k t : σ !! k = Some (AwaitTools t 1) -> (max <= t)%Z -> conv_step max σ (delete k σ).

(** ** The refinement relation *)

Definition occ (k : cstr) (l : list cstr) : nat := length (List.filter (fun x => str_eq x k) l).

Definition ev_llm_key (ev : InternalEvent) : option cstr :=
  match ev with EVENT_LLM_RESULT k _ _ _ => Some k | _ => None end.
Definition ev_tool_key (ev : InternalEvent) : option cstr :=
  match ev with EVENT_TOOL_RESULT k _ _ _ _ => Some k | _ => None end.

(** The conversations a model call, or a tool call, is outstanding for. *)
Definition out_llm (l : AgentLoop W) : list cstr :=
  al_llm_calls l ++ omap ev_llm_key (Fifo.pending (al_internal l)).

Definition request_key (ctxs : list ToolAsyncContext) (r : Request ToolContext) : option cstr :=
  ta_session_key <$> ctxs !! rq_context r.
Definition requests (ex : @ToolExecutor ToolContext) : list (Request ToolContext) :=
  ex_queue ex ++ running (ex_workers ex).
Definition out_tool (l : AgentLoop W) : list cstr :=
  omap (request_key (al_tool_ctxs l)) (requests (al_executor l)) ++
  omap ev_tool_key (Fifo.pending (al_internal l)).

Definition llm_of (ph : option phase) : nat := match ph with Some (AwaitModel _) => 1 | _ => 0 end.
Definition tool_of (ph : option phase) : nat := match ph with Some (AwaitTools _ n) => n | _ => 0 end.

(** The task of a conversation shows its phase. *)
Definition shows (t : ActiveTask) (ph : phase) : Prop :=
  match ph with
  | AwaitModel n => cx_state (at_ctx t) = SESSION_STATE_WAITING_LLM /\ cx_turn (at_ctx t) = n
  | AwaitTools n p => cx_state (at_ctx t) = SESSION_STATE_WAITING_TOOL /\ cx_turn (at_ctx t) = n /\
                      at_pending_tool_count t = Z.of_nat p
  end.

Definition occs (L T : list cstr) (σ : conversations) : Prop :=
  forall k, occ k L = llm_of (σ !! k) /\ occ k T = tool_of (σ !! k).

Definition tasks_show (ts : list ActiveTask) (σ : conversations) : Prop :=
  forall k, match σ !! k with
            | None => List.find (has_key k) ts = None
            | Some ph => exists t, List.find (has_key k) ts = Some t /\ shows t ph
            end.

Record base (l : AgentLoop W) (σ : conversations) : Prop := {
  b_ids : NoDup (at_id <$> so_active_tasks (al_orch l));
  b_keys : NoDup (at_session_key <$> so_active_tasks (al_orch l));
  b_short : Forall (fun t => length (at_id t) < 32 /\ length (at_session_key t) < 256) (so_active_tasks (al_orch l));
  b_show : tasks_show (so_active_tasks (al_orch l)) σ;
  b_turns : forall k t n, σ !! k = Some (AwaitModel t) \/ σ !! k = Some (AwaitTools t n) -> (1 <= t <= max_turns l)%Z;
  b_pos : forall k t, σ !! k <> Some (AwaitTools t 0);
  b_open : Fifo.is_closed (al_internal l) = false;
  b_tail : ex_tail (al_executor l) = negb (bool_decide (length (ex_queue (al_executor l)) = 0));
  b_ctxs : Forall (fun r => rq_context r < length (al_tool_ctxs l)) (requests (al_executor l));
  b_sessions : forall k, is_Some (σ !! k) -> is_Some (session_manager_get (al_sessions l) k);
  b_table : sm_wf (al_sessions l);
}.

Definition sim (l : AgentLoop W) (σ : conversations) : Prop := base l σ /\ occs (out_llm l) (out_tool l) σ.
End Loop.
