(* ===== verification/Console.v ===== *)
(** [src/channels/console.c]: the terminal as a channel. Its input thread reads
    lines with [fgets] into a buffer of 1024 bytes and sends them as inbound
    messages; the line [exit] becomes the system message that ends the agent. *)
From S2P Require Import Prelude CStr Json Common Message AgentLoop.

Record ConsoleData := mkConsole { co_running : bool; co_thread_started : bool }.

(** [console_init], [console_start] ([thread_ok] is the answer of
    [pthread_create]), [console_stop]. *)
Definition console_init : ConsoleData := mkConsole false false.
Definition console_start (thread_ok : bool) (d : ConsoleData) : ConsoleData :=
  if thread_ok then mkConsole true true else mkConsole false (co_thread_started d).
Definition console_stop (d : ConsoleData) : ConsoleData := mkConsole false (co_thread_started d).
(** [console_destroy]: whether the thread is detached. *)
Definition console_destroy (d : option ConsoleData) : bool := match d with Some d => co_thread_started d | None => false end.

(** [console_send]: what is written to the terminal. *)
Definition console_send (msg : OutboundMessage) : cstr :=
  if str_eq (out_channel msg) $"console" || str_eq (out_channel msg) $"cli"
  then [ch_nl] ++ $"Assistant: " ++ out_content msg ++ [ch_nl] ++ $"> " else [].

Definition CONSOLE_BUFFER : nat := 1024.

(** The bytes up to and with the first newline, at most [n]. *)
Fixpoint take_line (n : nat) (input : cstr) : cstr * cstr :=
  match n, input with
  | O, _ => ([], input)
  | _, [] => ([], [])
  | S k, c :: r => if Ascii.eqb c ch_nl then ([c], r) else let '(l, rest) := take_line k r in (c :: l, rest)
  end.

(** [fgets]: NULL at the end of the input. *)
Definition fgets (size : nat) (input : cstr) : option (cstr * cstr) :=
  match input with [] => None | _ => Some (take_line (size - 1) input) end.

(** The buffer as a C string: up to a NUL byte, then up to the newline. *)
Definition line_text (line : cstr) : cstr := take_while (fun c => negb (Ascii.eqb c ch_nl)) (take_while not_nul line).

Definition console_message (text : cstr) : InboundMessage := inbound_message_new (Some $"console") (Some $"local_user") (Some text) None.
Definition exit_message : InboundMessage := inbound_message_new (Some $"system") (Some $"local_user") (Some $"exit") None.

(** [console_input_loop]: the messages it sends. [running] is what it reads
    of the flag at each round; it waits when there are no rounds left. *)
Fixpoint console_input_loop (running : list bool) (input : cstr) : list InboundMessage :=
  match running with
  | true :: rest =>
      match fgets CONSOLE_BUFFER input with
      | None => []
      | Some (line, input') =>
          let buffer := line_text line in
          if str_eq buffer $"exit" then [exit_message]
          else match buffer with
               | [] => console_input_loop rest input'
               | _ => console_message buffer :: console_input_loop rest input'
               end
      end
  | _ => []
  end.

(** ** Facts *)

Definition line_ok (l : cstr) : Prop := Forall (fun c => c <> ch_nl /\ not_nul c = true) l.

Lemma take_line_line n l rest : Forall (fun c => c <> ch_nl) l -> length l < n -> take_line n (l ++ ch_nl :: rest) = (l ++ [ch_nl], rest).
Proof.
  revert n. induction l as [|c l IH]; intros [|n] Hl Hn; cbn in Hn; try lia; cbn; [done|].
  apply Forall_cons in Hl as [Hc Hl]. destruct (Ascii.eqb_spec c ch_nl); [done|]. by rewrite (IH n Hl) by lia.
Qed.

Lemma take_while_app (p : ascii -> bool) (l rest : cstr) : Forall (fun c => p c = true) l -> take_while p (l ++ rest) = l ++ take_while p rest.
Proof. induction 1 as [|c l Hc _ IH]; cbn; [done|]. by rewrite Hc, IH. Qed.

Lemma line_text_line l rest : line_ok l -> line_text (l ++ ch_nl :: rest) = l.
Proof.
  intros Hl. unfold line_text. rewrite (take_while_app not_nul l) by (eapply Forall_impl; [exact Hl|]; by intros c []). cbn.
  rewrite take_while_app; [cbn; by rewrite app_nil_r|]. eapply Forall_impl; [exact Hl|]. intros c [Hc _]. by destruct (Ascii.eqb_spec c ch_nl).
Qed.

Lemma line_text_full l : line_ok l -> line_text l = l.
Proof.
  intros Hl. rewrite <- (app_nil_r l) at 1. unfold line_text. rewrite (take_while_app not_nul l) by (eapply Forall_impl; [exact Hl|]; by intros c []). cbn.
  rewrite take_while_app; [cbn; by rewrite app_nil_r|]. eapply Forall_impl; [exact Hl|]. intros c [Hc _]. by destruct (Ascii.eqb_spec c ch_nl).
Qed.

(** One round: a line that fits. *)
Lemma console_round l rest input : line_ok l -> length l < 1023 ->
  console_input_loop (true :: rest) (l ++ ch_nl :: input) =
  if str_eq l $"exit" then [exit_message]
  else match l with [] => console_input_loop rest input | _ => console_message l :: console_input_loop rest input end.
Proof.
  intros Hl Hn. cbn [console_input_loop]. unfold fgets. assert (exists c t, l ++ ch_nl :: input = c :: t) as (c & t & E) by (destruct l; by eexists _, _).
  rewrite E, <- E. rewrite take_line_line; [|eapply Forall_impl; [exact Hl|]; by intros ? []|unfold CONSOLE_BUFFER; lia].
  rewrite (line_text_line l [] Hl). done.
Qed.

(** A line of 1023 bytes or more is cut: the rest is a line of its own. *)
Lemma console_long_round l rest input : line_ok l -> length l = 1023 -> l <> $"exit" ->
  console_input_loop (true :: rest) (l ++ input) = console_message l :: console_input_loop rest input.
Proof.
  intros Hl Hn He. cbn [console_input_loop]. unfold fgets.
  assert (forall n l, Forall (fun c => c <> ch_nl) l -> length l = n -> forall input, take_line n (l ++ input) = (l, input)) as Ht.
  { clear. induction n as [|n IH]; intros [|c l] Hl Hn input; cbn in *; try lia; [done|]. apply Forall_cons in Hl as [Hc Hl].
    destruct (Ascii.eqb_spec c ch_nl); [done|]. by rewrite (IH l Hl) by lia. }
  destruct l as [|c l]; [done|]. cbn [app]. change (c :: l ++ input) with ((c :: l) ++ input).
  rewrite (Ht (CONSOLE_BUFFER - 1) (c :: l)) by (done || (eapply Forall_impl; [exact Hl|]; by intros ? [])).
  rewrite (line_text_full (c :: l) Hl). unfold str_eq. by rewrite bool_decide_eq_false_2.
Qed.

Definition console_input (lines : list cstr) : cstr := lines ≫= (fun l => l ++ [ch_nl]).
Definition nonempty_line (l : cstr) : bool := match l with [] => false | _ => true end.

(** What is typed before the line [exit] reaches the agent: one message for
    each line that is not empty, in order, none of which ends the agent loop,
    then the message that does; what is typed after it is not read. *)
Theorem console_session lines rest :
  Forall (fun l => line_ok l /\ length l < 1023 /\ l <> $"exit") lines ->
  let msgs := console_message <$> List.filter nonempty_line lines in
  console_input_loop (replicate (S (length lines)) true) (console_input lines ++ $"exit" ++ ch_nl :: rest) = msgs ++ [exit_message] /\
  Forall (fun m => is_system_exit m = false) msgs /\ is_system_exit exit_message = true.
Proof.
  intros Hl msgs. split_and!; [|apply Forall_fmap, Forall_true; by intros|done]. subst msgs.
  induction Hl as [|l lines (Hok & Hn & He) _ IH].
  - rewrite app_nil_l. cbn [length replicate]. rewrite console_round; [done| |cbn; lia]. by repeat constructor.
  - cbn [length replicate]. unfold console_input. cbn [mbind list_bind]. rewrite <- !(assoc_L app). cbn [app].
    rewrite (console_round l _ _ Hok Hn). unfold str_eq. rewrite bool_decide_eq_false_2 by done. cbn [List.filter].
    destruct l; cbn [nonempty_line]; [exact IH|]. rewrite fmap_cons. cbn [app]. f_equal. exact IH.
Qed.

Lemma console_session_witness :
  let msgs := console_message <$> List.filter nonempty_line [$"hello"; []; $"how are you"] in
  console_input_loop (replicate 4 true) (console_input [$"hello"; []; $"how are you"] ++ $"exit" ++ [ch_nl]) = msgs ++ [exit_message] /\
  Forall (fun m => is_system_exit m = false) msgs /\ is_system_exit exit_message = true.
Proof. apply (console_session [$"hello"; []; $"how are you"] []). by repeat constructor. Defined.

(** A line whose bytes after the first 1023 are [exit] ends the agent. *)
Theorem console_tail_exits l rest : line_ok l -> length l = 1023 -> l <> $"exit" ->
  console_input_loop [true; true] (l ++ $"exit" ++ ch_nl :: rest) = [console_message l; exit_message].
Proof. intros Hl Hn He. rewrite (console_long_round l _ _ Hl Hn He). rewrite console_round; [done| |cbn; lia]. by repeat constructor. Qed.

Lemma console_tail_exits_witness :
  console_input_loop [true; true] (replicate 1023 "a"%char ++ $"exit" ++ [ch_nl]) = [console_message (replicate 1023 "a"%char); exit_message].
Proof. apply (console_tail_exits (replicate 1023 "a"%char) []); [by apply Forall_replicate|done|done]. Defined.
