(* ===== verification/Lifecycle.v ===== *)
(** [src/agent/agent_loop.c], control part: the two threads of an agent loop
    (the receiver that runs [agent_loop_run] and its processing worker), how
    they are started and stopped, and the thread of [src/subagent/subagent.c]
    that runs an agent loop of its own and relays its answers.

    Every access to a queue, to the inbox or to the [running] flag is one
    step; a schedule is the list of the actors that take the steps. What the
    handlers of the worker compute is in AgentLoop.v; here they only take
    time, and what they send arrives as a step of the outside. *)
From S2P Require Import Prelude CStr Message MessageBus AgentLoop Subagent.

(** ** Schedules: a deterministic machine driven by a list of actors *)
Section Schedules.
Context {S A : Type} (step : S -> A -> option S).

(** The state after a schedule; [None] when an actor could not move. *)
Fixpoint run_steps (sched : list A) (s : S) : option S :=
  match sched with
  | [] => Some s
  | a :: r => s' ← step s a; run_steps r s'
  end.

Lemma run_steps_app l1 l2 s : run_steps (l1 ++ l2) s = (s' ← run_steps l1 s; run_steps l2 s').
Proof. revert s. induction l1 as [|a l1 IH]; intros s; cbn; [done|]. destruct (step s a); cbn; [apply IH|done]. Qed.

(** A property every step keeps, with a potential that pays for the steps. *)
Lemma run_steps_potential (P : S -> Prop) (ok : A -> Prop) (cost : A -> nat) (f : S -> nat) :
  (forall s a s', P s -> ok a -> step s a = Some s' -> P s' /\ cost a + f s' <= f s) ->
  forall sched s s', Forall ok sched -> P s -> run_steps sched s = Some s' -> P s' /\ sum_list (cost <$> sched) + f s' <= f s.
Proof.
  intros Hstep sched. induction sched as [|a r IH]; intros s s' Hok HP Hrun.
  - injection Hrun as <-. split; [done|cbn; lia].
  - apply Forall_cons in Hok as [Ha Hr]. cbn in Hrun. destruct (step s a) as [s1|] eqn:E; [|done]. cbn in Hrun.
    destruct (Hstep _ _ _ HP Ha E) as [HP1 Hc]. destruct (IH _ _ Hr HP1 Hrun) as [? ?]. split; [done|]. cbn. lia.
Qed.

Lemma run_steps_invariant (P : S -> Prop) (ok : A -> Prop) :
  (forall s a s', P s -> ok a -> step s a = Some s' -> P s') ->
  forall sched s s', Forall ok sched -> P s -> run_steps sched s = Some s' -> P s'.
Proof.
  intros Hstep sched s s' Hok HP Hrun.
  apply (run_steps_potential P ok (fun _ => 0) (fun _ => 0)) with (2 := Hok) (3 := HP) (4 := Hrun). eauto.
Qed.
End Schedules.

(** ** The state *)

Inductive QueueId := QInbound | QOutbound | QInternal.

#[export] Instance QueueId_eq_dec : EqDecision QueueId.
Proof. solve_decision. Defined.

(** The order in which [message_bus_close] closes the queues. *)
Definition bus_queues : list QueueId := [QInbound; QOutbound; QInternal].

(** Where the thread in [agent_loop_run] is. *)
Inductive RunnerPc :=
  | RunEntry                       (* before [agent_loop_set_running(loop, true)] *)
  | RunCreate                      (* before [pthread_create] *)
  | RunCheck                       (* the loop condition *)
  | RunReceive                     (* in [message_bus_receive_inbound_timed] *)
  | RunGot (m : InboundMessage)
  | RunEnqueue (m : InboundMessage)
  | RunClose (l : list QueueId)    (* closing the bus: the queues left *)
  | RunJoin
  | RunDone.

(** Where the processing worker is. *)
Inductive WorkerPc :=
  | WorkNone                       (* not created *)
  | WorkPoll                       (* in [message_bus_receive_internal_timed] *)
  | WorkEvent (e : InternalEvent)  (* in a handler *)
  | WorkDequeue
  | WorkMessage (m : InboundMessage)
  | WorkIdle                       (* the dequeue gave NULL *)
  | WorkExited.

(** [ls_stops]: the calls of [agent_loop_stop] that are closing the bus, with
    the queues each has left. The last three fields are the history of the
    inbound messages: accepted by the bus, processed by the worker, and taken
    by the receiver without being put into the inbox. *)
Record LoopState := mkLoop {
  ls_running : bool;
  ls_inbound : Fifo.fifo InboundMessage;
  ls_outbound : Fifo.fifo OutboundMessage;
  ls_internal : Fifo.fifo InternalEvent;
  ls_inbox : list InboundMessage;
  ls_runner : RunnerPc;
  ls_worker : WorkerPc;
  ls_thread_started : bool;
  ls_stops : list (list QueueId);
  ls_accepted : list InboundMessage;
  ls_processed : list InboundMessage;
  ls_dropped : list InboundMessage;
}.

Definition loop_new : LoopState :=
  mkLoop false Fifo.empty Fifo.empty Fifo.empty [] RunEntry WorkNone false [] [] [] [].

Definition set_running (b : bool) (s : LoopState) : LoopState :=
  mkLoop b (ls_inbound s) (ls_outbound s) (ls_internal s) (ls_inbox s) (ls_runner s) (ls_worker s) (ls_thread_started s) (ls_stops s) (ls_accepted s) (ls_processed s) (ls_dropped s).
Definition set_runner (p : RunnerPc) (s : LoopState) : LoopState :=
  mkLoop (ls_running s) (ls_inbound s) (ls_outbound s) (ls_internal s) (ls_inbox s) p (ls_worker s) (ls_thread_started s) (ls_stops s) (ls_accepted s) (ls_processed s) (ls_dropped s).
Definition set_worker (p : WorkerPc) (s : LoopState) : LoopState :=
  mkLoop (ls_running s) (ls_inbound s) (ls_outbound s) (ls_internal s) (ls_inbox s) (ls_runner s) p (ls_thread_started s) (ls_stops s) (ls_accepted s) (ls_processed s) (ls_dropped s).
Definition set_started (b : bool) (s : LoopState) : LoopState :=
  mkLoop (ls_running s) (ls_inbound s) (ls_outbound s) (ls_internal s) (ls_inbox s) (ls_runner s) (ls_worker s) b (ls_stops s) (ls_accepted s) (ls_processed s) (ls_dropped s).
Definition set_inbound (q : Fifo.fifo InboundMessage) (accepted : list InboundMessage) (s : LoopState) : LoopState :=
  mkLoop (ls_running s) q (ls_outbound s) (ls_internal s) (ls_inbox s) (ls_runner s) (ls_worker s) (ls_thread_started s) (ls_stops s) accepted (ls_processed s) (ls_dropped s).
Definition set_outbound (q : Fifo.fifo OutboundMessage) (s : LoopState) : LoopState :=
  mkLoop (ls_running s) (ls_inbound s) q (ls_internal s) (ls_inbox s) (ls_runner s) (ls_worker s) (ls_thread_started s) (ls_stops s) (ls_accepted s) (ls_processed s) (ls_dropped s).
Definition set_internal (q : Fifo.fifo InternalEvent) (s : LoopState) : LoopState :=
  mkLoop (ls_running s) (ls_inbound s) (ls_outbound s) q (ls_inbox s) (ls_runner s) (ls_worker s) (ls_thread_started s) (ls_stops s) (ls_accepted s) (ls_processed s) (ls_dropped s).
Definition set_inbox (l : list InboundMessage) (s : LoopState) : LoopState :=
  mkLoop (ls_running s) (ls_inbound s) (ls_outbound s) (ls_internal s) l (ls_runner s) (ls_worker s) (ls_thread_started s) (ls_stops s) (ls_accepted s) (ls_processed s) (ls_dropped s).
Definition set_stops (l : list (list QueueId)) (s : LoopState) : LoopState :=
  mkLoop (ls_running s) (ls_inbound s) (ls_outbound s) (ls_internal s) (ls_inbox s) (ls_runner s) (ls_worker s) (ls_thread_started s) l (ls_accepted s) (ls_processed s) (ls_dropped s).
Definition add_processed (m : InboundMessage) (s : LoopState) : LoopState :=
  mkLoop (ls_running s) (ls_inbound s) (ls_outbound s) (ls_internal s) (ls_inbox s) (ls_runner s) (ls_worker s) (ls_thread_started s) (ls_stops s) (ls_accepted s) (ls_processed s ++ [m]) (ls_dropped s).
Definition add_dropped (m : InboundMessage) (s : LoopState) : LoopState :=
  mkLoop (ls_running s) (ls_inbound s) (ls_outbound s) (ls_internal s) (ls_inbox s) (ls_runner s) (ls_worker s) (ls_thread_started s) (ls_stops s) (ls_accepted s) (ls_processed s) (ls_dropped s ++ [m]).

Definition close_queue (q : QueueId) (s : LoopState) : LoopState :=
  match q with
  | QInbound => set_inbound (Fifo.close (ls_inbound s)) (ls_accepted s) s
  | QOutbound => set_outbound (Fifo.close (ls_outbound s)) s
  | QInternal => set_internal (Fifo.close (ls_internal s)) s
  end.

(** A timed receive comes back with the first message, or with NULL when the
    queue is still empty. *)
Definition timed_receive {A} (q : Fifo.fifo A) : option A * Fifo.fifo A :=
  match Fifo.pending q with
  | m :: l => (Some m, Fifo.mkFifo l (Fifo.is_closed q))
  | [] => (None, q)
  end.

(** ** The receiver thread: [agent_loop_run]

    [created]: the answer of [pthread_create]. [None]: the thread waits (in
    [pthread_join]) or has ended. *)
Definition runner_step (created : bool) (s : LoopState) : option LoopState :=
  match ls_runner s with
  | RunEntry => Some (set_runner RunCreate (set_running true s))
  | RunCreate =>
      if created then Some (set_runner RunCheck (set_worker WorkPoll (set_started true s)))
      else Some (set_runner RunDone (set_running false s))
  | RunCheck => Some (set_runner (if ls_running s then RunReceive else RunClose bus_queues) s)
  | RunReceive =>
      match timed_receive (ls_inbound s) with
      | (Some m, q) => Some (set_runner (RunGot m) (set_inbound q (ls_accepted s) s))
      | (None, _) => Some (set_runner RunCheck s)
      end
  | RunGot m =>
      if is_system_exit m then Some (set_runner (RunClose bus_queues) (add_dropped m (set_running false s)))
      else if negb (ls_running s) then Some (set_runner (RunClose bus_queues) (add_dropped m s))
      else Some (set_runner (RunEnqueue m) s)
  | RunEnqueue m => Some (set_runner RunCheck (set_inbox (ls_inbox s ++ [m]) s))
  | RunClose (q :: l) => Some (set_runner (RunClose l) (close_queue q s))
  | RunClose [] => Some (set_runner RunJoin s)
  | RunJoin =>
      match ls_worker s with
      | WorkExited => Some (set_runner RunDone (set_started false s))
      | _ => None
      end
  | RunDone => None
  end.

(** ** The worker thread: [agent_loop_processing_worker] *)
Definition worker_step (s : LoopState) : option LoopState :=
  match ls_worker s with
  | WorkNone | WorkExited => None
  | WorkPoll =>
      match timed_receive (ls_internal s) with
      | (Some e, q) => Some (set_worker (WorkEvent e) (set_internal q s))
      | (None, _) => Some (set_worker WorkDequeue s)
      end
  | WorkEvent _ => Some (set_worker WorkPoll s)
  | WorkDequeue =>
      match ls_inbox s with
      | m :: l => Some (set_worker (WorkMessage m) (set_inbox l s))
      | [] => Some (set_worker WorkIdle s)
      end
  | WorkMessage m => Some (set_worker WorkPoll (add_processed m s))
  | WorkIdle => Some (set_worker (if ls_running s then WorkPoll else WorkExited) s)
  end.

(** ** Everything else: senders, the reader of the answers, and stops *)
Inductive outside :=
  | SendInbound (m : InboundMessage)
  | SendOutbound (m : OutboundMessage)
  | SendInternal (e : InternalEvent)
  | ReadOutbound
  | RequestStop                    (* [agent_loop_request_stop] *)
  | StopCall                       (* [agent_loop_stop], up to its lock *)
  | StopClose (i : nat).           (* call [i] closes its next queue *)

Definition agent_loop_request_stop (s : LoopState) : LoopState := set_running false s.

(** The first part of [agent_loop_stop]; its closes are steps of their own. *)
Definition agent_loop_stop (s : LoopState) : LoopState :=
  set_stops (ls_stops s ++ [bus_queues]) (set_running false s).

Definition outside_step (o : outside) (s : LoopState) : LoopState :=
  match o with
  | SendInbound m =>
      let '(q, ok) := Fifo.send (ls_inbound s) m in
      set_inbound q (if ok then ls_accepted s ++ [m] else ls_accepted s) s
  | SendOutbound m => set_outbound (fst (Fifo.send (ls_outbound s) m)) s
  | SendInternal e => set_internal (fst (Fifo.send (ls_internal s) e)) s
  | ReadOutbound => set_outbound (snd (timed_receive (ls_outbound s))) s
  | RequestStop => agent_loop_request_stop s
  | StopCall => agent_loop_stop s
  | StopClose i =>
      match ls_stops s !! i with
      | Some (q :: l) => set_stops (<[i := l]> (ls_stops s)) (close_queue q s)
      | _ => s
      end
  end.

Inductive actor := Runner (created : bool) | Worker | Outside (o : outside).

Definition loop_step (s : LoopState) (a : actor) : option LoopState :=
  match a with
  | Runner created => runner_step created s
  | Worker => worker_step s
  | Outside o => Some (outside_step o s)
  end.

Abbreviation run_schedule := (run_steps loop_step).

Definition loop_reachable (s : LoopState) : Prop := exists sched, run_schedule sched loop_new = Some s.

(** [agent_loop_free], once nothing runs any more: whether it has to join the
    worker, and the messages of the inbox that it frees. *)
Definition agent_loop_free (s : LoopState) : LoopState * bool * list InboundMessage :=
  let s1 := if ls_running s || ls_thread_started s
            then foldl (fun s q => close_queue q s) (set_running false s) bus_queues else s in
  (set_inbox [] s1, ls_thread_started s1, ls_inbox s1).

(** ** Invariants of every schedule *)

Definition queue_closed (q : QueueId) (s : LoopState) : bool :=
  match q with
  | QInbound => Fifo.is_closed (ls_inbound s)
  | QOutbound => Fifo.is_closed (ls_outbound s)
  | QInternal => Fifo.is_closed (ls_internal s)
  end.

Definition bus_closed (s : LoopState) : Prop := forall q, queue_closed q s = true.

Definition in_worker (s : LoopState) : list InboundMessage :=
  match ls_worker s with WorkMessage m => [m] | _ => [] end.
Definition in_runner (s : LoopState) : list InboundMessage :=
  match ls_runner s with RunGot m | RunEnqueue m => [m] | _ => [] end.

(** The receiver is past its loop. *)
Definition leaving (s : LoopState) : bool :=
  match ls_runner s with RunClose _ | RunJoin | RunDone => true | _ => false end.

(** The queues the receiver still has to close. *)
Definition to_close (s : LoopState) : list QueueId :=
  match ls_runner s with RunClose l => l | RunJoin | RunDone => [] | _ => bus_queues end.

(** Where the worker can be, by the place of the receiver. *)
Definition threads_ok (s : LoopState) : Prop :=
  match ls_runner s with
  | RunEntry | RunCreate => ls_worker s = WorkNone /\ ls_inbox s = []
  | RunDone => ls_worker s = WorkNone \/ ls_worker s = WorkExited
  | _ => ls_worker s <> WorkNone
  end.

Record loop_wf (s : LoopState) : Prop := {
  lw_threads : threads_ok s;
  lw_closed : ls_worker s <> WorkNone -> forall q, q ∈ bus_queues -> q ∈ to_close s \/ queue_closed q s = true;
  lw_order : ls_accepted s = ls_processed s ++ in_worker s ++ ls_inbox s ++ in_runner s ++ ls_dropped s ++ Fifo.pending (ls_inbound s);
  lw_dropped : length (ls_dropped s) <= (if leaving s then 1 else 0);
}.

Lemma queue_closed_close q q' s : queue_closed q (close_queue q' s) = queue_closed q s || bool_decide (q = q').
Proof. by destruct q, q'; cbn; rewrite ?orb_false_r, ?orb_true_r. Qed.

Lemma timed_receive_spec {A} (q : Fifo.fifo A) :
  (exists m l, Fifo.pending q = m :: l /\ timed_receive q = (Some m, Fifo.mkFifo l (Fifo.is_closed q))) \/
  (Fifo.pending q = [] /\ timed_receive q = (None, q)).
Proof. unfold timed_receive. destruct q as [[|m l] c]; cbn; eauto 6. Qed.

Lemma closed_mono q q' s : queue_closed q s = true -> queue_closed q (close_queue q' s) = true.
Proof. intros H. by rewrite queue_closed_close, H. Qed.

Ltac unpack H := destruct H as [Ht Hc Ho Hd]; unfold threads_ok, to_close, in_worker, in_runner, leaving in Ht, Hc, Ho, Hd.

Lemma runner_step_wf created s s' : loop_wf s -> runner_step created s = Some s' -> loop_wf s'.
Proof.
  intros Hwf Hs. unpack Hwf. unfold runner_step in Hs.
  destruct (ls_runner s) as [| | | |m|m|l| |] eqn:Er.
  - injection Hs as <-. split; unfold threads_ok, to_close, in_worker, in_runner, leaving; cbn; done.
  - destruct Ht as [Hw Hi]. destruct created; injection Hs as <-; split; unfold threads_ok, to_close, in_worker, in_runner, leaving; cbn; rewrite ?Hw, ?Hi in *; auto; try done; try lia.
  - injection Hs as <-. split; unfold threads_ok, to_close, in_worker, in_runner, leaving; cbn; destruct (ls_running s); auto; lia.
  - destruct (timed_receive_spec (ls_inbound s)) as [(m & l & Hp & E)|[Hp E]]; rewrite E in Hs; injection Hs as <-;
      split; unfold threads_ok, to_close, in_worker, in_runner, leaving; cbn; auto.
    rewrite Ho, Hp. destruct (ls_dropped s); [done|cbn in Hd; lia].
  - destruct (is_system_exit m); [|destruct (ls_running s); cbn in Hs]; injection Hs as <-;
      split; unfold threads_ok, to_close, in_worker, in_runner, leaving; cbn; auto; rewrite ?length_app; cbn; try lia.
    + rewrite Ho. destruct (ls_dropped s); [|cbn in Hd; lia]. by rewrite <- !(assoc_L app).
    + rewrite Ho. destruct (ls_dropped s); [|cbn in Hd; lia]. by rewrite <- !(assoc_L app).
  - injection Hs as <-. split; unfold threads_ok, to_close, in_worker, in_runner, leaving; cbn; auto. by rewrite Ho, <- !(assoc_L app).
  - destruct l as [|q l]; injection Hs as <-; split; unfold threads_ok, to_close, in_worker, in_runner, leaving; cbn; auto.
    + by destruct q.
    + intros Hn q' Hq'. assert (ls_worker s <> WorkNone) as Hn' by (by destruct q).
      destruct (Hc Hn' q' Hq') as [[->|?]%elem_of_cons|?]; [right| by left|right].
      * by destruct q.
      * by destruct q', q.
    + by destruct q.
    + by destruct q.
  - destruct (ls_worker s) eqn:Ew; try done. injection Hs as <-; split; unfold threads_ok, to_close, in_worker, in_runner, leaving; cbn; rewrite ?Ew; auto.
  - done.
Qed.

Lemma worker_step_wf s s' : loop_wf s -> worker_step s = Some s' -> loop_wf s'.
Proof.
  intros Hwf Hs. unpack Hwf. unfold worker_step in Hs.
  assert (ls_worker s <> WorkNone -> ls_worker s <> WorkExited ->
    match ls_runner s with RunEntry | RunCreate | RunDone => False | _ => True end) as Hr.
  { intros H1 H2. destruct (ls_runner s); try done; [by destruct Ht|by destruct Ht|by destruct Ht]. }
  destruct (ls_worker s) as [| |e| |m| |] eqn:Ew; try done; specialize (Hr ltac:(done) ltac:(done)); specialize (Hc ltac:(done)).
  - destruct (timed_receive_spec (ls_internal s)) as [(m & l & Hp & E)|[Hp E]]; rewrite E in Hs; injection Hs as <-;
      split; unfold threads_ok, to_close, in_worker, in_runner, leaving; cbn; auto; by destruct (ls_runner s).
  - injection Hs as <-. split; unfold threads_ok, to_close, in_worker, in_runner, leaving; cbn; auto; by destruct (ls_runner s).
  - destruct (ls_inbox s) as [|m l] eqn:Ei; injection Hs as <-; split; unfold threads_ok, to_close, in_worker, in_runner, leaving; cbn; rewrite ?Ei; auto; by destruct (ls_runner s).
  - injection Hs as <-. split; unfold threads_ok, to_close, in_worker, in_runner, leaving; cbn; auto; [by destruct (ls_runner s)|].
    by rewrite Ho, <- !(assoc_L app).
  - injection Hs as <-. split; unfold threads_ok, to_close, in_worker, in_runner, leaving; cbn; auto; destruct (ls_running s); by destruct (ls_runner s).
Qed.

Lemma close_queue_wf q s : loop_wf s -> loop_wf (close_queue q s).
Proof.
  intros Hwf. unpack Hwf.
  split; unfold threads_ok, to_close, in_worker, in_runner, leaving; [by destruct q| |by destruct q|by destruct q].
  intros Hn q' Hq'. assert (ls_worker s <> WorkNone) as Hn' by (by destruct q).
  destruct (Hc Hn' q' Hq') as [?|Hq2]; [left; by destruct q|right].
  pose proof (closed_mono q' q s Hq2) as H3. by destruct q'.
Qed.

Lemma outside_step_wf o s : loop_wf s -> loop_wf (outside_step o s).
Proof.
  intros Hwf. pose proof Hwf as Hkeep. unpack Hwf. destruct o as [m|m|e| | | |i]; cbn [outside_step].
  - unfold Fifo.send. destruct (Fifo.is_closed (ls_inbound s)) eqn:E; split; unfold threads_ok, to_close, in_worker, in_runner, leaving; cbn; auto.
    + intros Hn q Hq. destruct (Hc Hn q Hq) as [?|Hq']; [by left|]. destruct q; cbn in Hq'; [congruence|by right|by right].
    + by rewrite Ho, <- !(assoc_L app).
  - unfold Fifo.send. destruct (Fifo.is_closed (ls_outbound s)) eqn:E; split; unfold threads_ok, to_close, in_worker, in_runner, leaving; cbn; auto.
    intros Hn q Hq. destruct (Hc Hn q Hq) as [?|Hq']; [by left|]. destruct q; cbn in Hq'; [by right|congruence|by right].
  - unfold Fifo.send. destruct (Fifo.is_closed (ls_internal s)) eqn:E; split; unfold threads_ok, to_close, in_worker, in_runner, leaving; cbn; auto.
    intros Hn q Hq. destruct (Hc Hn q Hq) as [?|Hq']; [by left|]. destruct q; cbn in Hq'; [by right|by right|congruence].
  - destruct (timed_receive_spec (ls_outbound s)) as [(m & l & Hp & E)|[Hp E]]; rewrite E;
      split; unfold threads_ok, to_close, in_worker, in_runner, leaving; cbn; auto.
  - by split.
  - by split.
  - destruct (ls_stops s !! i) as [[|q l]|]; [by split| |by split].
    by destruct (close_queue_wf q s Hkeep).
Qed.

Lemma loop_step_wf s a s' : loop_wf s -> True -> loop_step s a = Some s' -> loop_wf s'.
Proof.
  intros Hwf _ Hs. destruct a as [created| |o].
  - by eapply runner_step_wf.
  - by eapply worker_step_wf.
  - injection Hs as <-. by apply outside_step_wf.
Qed.

Lemma loop_new_wf : loop_wf loop_new.
Proof. split; unfold threads_ok; cbn; auto; done. Qed.

Lemma reachable_wf s : loop_reachable s -> loop_wf s.
Proof.
  intros [sched Hs]. by eapply (run_steps_invariant loop_step loop_wf (fun _ => True) loop_step_wf sched loop_new s);
    [apply Forall_true|apply loop_new_wf|].
Qed.

(** ** Order: nothing the bus accepted is lost, doubled or overtaken on its way
    to the handlers, except the one message the receiver holds when it leaves *)

(** C25: In every reachable state the messages the bus accepted are, in order, those
    processed, the one being processed, the inbox, the one the receiver holds,
    the one it dropped, and those still in the bus; a message is dropped only
    when the receiver has left its loop. *)
Theorem inbound_in_order s : loop_reachable s ->
  ls_accepted s = ls_processed s ++ in_worker s ++ ls_inbox s ++ in_runner s ++ ls_dropped s ++ Fifo.pending (ls_inbound s) /\
  length (ls_dropped s) <= (if leaving s then 1 else 0).
Proof. intros H. apply reachable_wf in H as [_ _ Ho Hd]. by split. Qed.

(** ** Termination of the two threads *)

(** How many steps the receiver still needs once the flag is down. *)
Definition runner_rank (s : LoopState) : nat :=
  match ls_runner s with
  | RunEntry => 0 | RunCreate => 7 | RunCheck => 6 | RunReceive => 9 | RunGot _ => 8 | RunEnqueue _ => 7
  | RunClose l => 2 + length l | RunJoin => 1 | RunDone => 0
  end.

Definition worker_rank (s : LoopState) : nat :=
  match ls_worker s with
  | WorkNone | WorkExited => 0
  | WorkPoll => 3 | WorkEvent _ => 4 | WorkDequeue => 2 | WorkMessage _ => 4 | WorkIdle => 1
  end.

(** The receiver is about to give the worker something. *)
Definition gift (s : LoopState) : nat := match ls_runner s with RunCreate | RunEnqueue _ => 3 | _ => 0 end.

Definition shutdown_measure (s : LoopState) : nat :=
  runner_rank s + gift s + worker_rank s + 2 * length (Fifo.pending (ls_internal s)) + 3 * length (ls_inbox s).

Definition stopping (s : LoopState) : Prop := ls_running s = false /\ ls_runner s <> RunEntry.
Definition closing (s : LoopState) : Prop := stopping s /\ queue_closed QInternal s = true.

Definition runner_cost (a : actor) : nat := match a with Runner _ => 1 | _ => 0 end.
Definition thread_cost (a : actor) : nat := match a with Outside _ => 0 | _ => 1 end.

Lemma stopping_step s a s' : stopping s -> True -> loop_step s a = Some s' ->
  stopping s' /\ runner_cost a + runner_rank s' <= runner_rank s.
Proof.
  intros [Hr Hn] _ Hs. unfold stopping, runner_rank. destruct a as [created| |o]; cbn [loop_step runner_cost] in *.
  - unfold runner_step in Hs. destruct (ls_runner s) as [| | | |m|m|l| |] eqn:Er; try done.
    + destruct created; injection Hs as <-; cbn; (split; [by split|lia]).
    + rewrite Hr in Hs. injection Hs as <-. cbn. split; [by split|lia].
    + destruct (timed_receive_spec (ls_inbound s)) as [(m & l & Hp & E)|[Hp E]]; rewrite E in Hs; injection Hs as <-; cbn; (split; [by split|lia]).
    + rewrite Hr in Hs. destruct (is_system_exit m); injection Hs as <-; cbn; (split; [by split|lia]).
    + injection Hs as <-. cbn. split; [by split|lia].
    + destruct l as [|q l]; injection Hs as <-; [cbn; split; [by split|lia]|]. destruct q; cbn; (split; [by split|lia]).
    + destruct (ls_worker s); try done. injection Hs as <-. cbn. split; [by split|lia].
  - unfold worker_step in Hs. destruct (ls_worker s) as [| |e| |m| |]; try done.
    + destruct (timed_receive_spec (ls_internal s)) as [(m & l & Hp & E)|[Hp E]]; rewrite E in Hs; injection Hs as <-; by cbn.
    + injection Hs as <-. by cbn.
    + destruct (ls_inbox s); injection Hs as <-; by cbn.
    + injection Hs as <-. by cbn.
    + injection Hs as <-. by cbn.
  - injection Hs as <-. destruct o as [m|m|e| | | |i]; try by cbn.
    + unfold outside_step. by destruct (Fifo.send _ _).
    + unfold outside_step. destruct (ls_stops s !! i) as [[|[] l]|]; by cbn.
Qed.

Lemma closing_step s a s' : closing s -> True -> loop_step s a = Some s' ->
  closing s' /\ thread_cost a + shutdown_measure s' <= shutdown_measure s.
Proof.
  intros [Hst Hc] _ Hs. pose proof (stopping_step s a s' Hst I Hs) as [Hst' _]. destruct Hst as [Hr Hn].
  cut (queue_closed QInternal s' = true /\ thread_cost a + shutdown_measure s' <= shutdown_measure s); [intros [? ?]; by split|].
  clear Hst'. unfold shutdown_measure, runner_rank, worker_rank, gift.
  destruct a as [created| |o]; cbn [loop_step thread_cost] in *.
  - unfold runner_step in Hs. destruct (ls_runner s) as [| | | |m|m|l| |] eqn:Er; try done.
    + destruct created; injection Hs as <-; cbn; (split; [done|lia]).
    + rewrite Hr in Hs. injection Hs as <-. cbn. split; [done|lia].
    + destruct (timed_receive_spec (ls_inbound s)) as [(m & l & Hp & E)|[Hp E]]; rewrite E in Hs; injection Hs as <-; cbn; (split; [done|lia]).
    + rewrite Hr in Hs. destruct (is_system_exit m); injection Hs as <-; cbn; (split; [done|lia]).
    + injection Hs as <-. cbn. rewrite length_app. cbn. split; [done|lia].
    + destruct l as [|q l]; injection Hs as <-; [cbn; split; [done|lia]|]. destruct q; cbn; (split; [done|lia]).
    + destruct (ls_worker s) eqn:Ew; try done. injection Hs as <-. cbn. rewrite Ew. split; [done|lia].
  - unfold worker_step in Hs. destruct (ls_worker s) as [| |e| |m| |]; try done.
    + destruct (timed_receive_spec (ls_internal s)) as [(m & l & Hp & E)|[Hp E]]; rewrite E in Hs; injection Hs as <-; cbn; rewrite Hp; cbn; (split; [done|lia]).
    + injection Hs as <-. cbn. split; [done|lia].
    + destruct (ls_inbox s) as [|m l] eqn:Ei; injection Hs as <-; cbn; rewrite ?Ei; cbn; (split; [done|lia]).
    + injection Hs as <-. cbn. split; [done|lia].
    + injection Hs as <-. rewrite Hr. cbn. split; [done|lia].
  - injection Hs as <-. cbn in Hc. destruct o as [m|m|e| | | |i]; cbn [outside_step].
    + unfold Fifo.send. by destruct (Fifo.is_closed (ls_inbound s)); cbn.
    + by cbn.
    + unfold Fifo.send. rewrite Hc. by cbn.
    + by cbn.
    + by cbn.
    + by cbn.
    + destruct (ls_stops s !! i) as [[|[] l]|]; by cbn.
Qed.

(** A closed queue stays closed, and its content only shrinks. *)
Lemma closed_step q s a s' : queue_closed q s = true -> loop_step s a = Some s' -> queue_closed q s' = true.
Proof.
  intros Hc Hs. destruct a as [created| |o]; cbn [loop_step] in Hs.
  - unfold runner_step in Hs. destruct (ls_runner s) as [| | | |m|m|[|q' l]| |]; try done.
    + injection Hs as <-. by destruct q.
    + destruct created; injection Hs as <-; by destruct q.
    + injection Hs as <-. by destruct q.
    + destruct (timed_receive_spec (ls_inbound s)) as [(m & l & Hp' & E)|[Hp' E]]; rewrite E in Hs; injection Hs as <-; by destruct q.
    + destruct (is_system_exit m), (negb (ls_running s)); injection Hs as <-; by destruct q.
    + injection Hs as <-. by destruct q.
    + injection Hs as <-. by destruct q.
    + injection Hs as <-. pose proof (closed_mono q q' s Hc). by destruct q.
    + destruct (ls_worker s); try done. injection Hs as <-. by destruct q.
  - unfold worker_step in Hs. destruct (ls_worker s) as [| |e| |m| |]; try done; [|injection Hs as <-; by destruct q| |injection Hs as <-; by destruct q|injection Hs as <-; by destruct q].
    + destruct (timed_receive_spec (ls_internal s)) as [(m & l & Hp' & E)|[Hp' E]]; rewrite E in Hs; injection Hs as <-; by destruct q.
    + destruct (ls_inbox s); injection Hs as <-; by destruct q.
  - injection Hs as <-. destruct o as [m|m|e| | | |i]; cbn [outside_step].
    + unfold Fifo.send. destruct (Fifo.is_closed (ls_inbound s)) eqn:E; destruct q; cbn in *; congruence.
    + unfold Fifo.send. destruct (Fifo.is_closed (ls_outbound s)) eqn:E; destruct q; cbn in *; congruence.
    + unfold Fifo.send. destruct (Fifo.is_closed (ls_internal s)) eqn:E; destruct q; cbn in *; congruence.
    + destruct (timed_receive_spec (ls_outbound s)) as [(m & l & Hp' & E)|[Hp' E]]; rewrite E; by destruct q.
    + by destruct q.
    + by destruct q.
    + destruct (ls_stops s !! i) as [[|q' l]|]; [done| |done]. pose proof (closed_mono q q' s Hc). by destruct q.
Qed.

Lemma outbound_shrinks s a s' : queue_closed QOutbound s = true -> loop_step s a = Some s' ->
  length (Fifo.pending (ls_outbound s')) <= length (Fifo.pending (ls_outbound s)).
Proof.
  intros Hc Hs. destruct a as [created| |o]; cbn [loop_step] in Hs.
  - unfold runner_step in Hs. destruct (ls_runner s) as [| | | |m|m|[|q' l]| |]; try done; try (by injection Hs as <-).
    + destruct created; by injection Hs as <-.
    + destruct (timed_receive (ls_inbound s)) as [[]]; by injection Hs as <-.
    + destruct (is_system_exit m), (negb (ls_running s)); by injection Hs as <-.
    + injection Hs as <-. by destruct q'.
    + destruct (ls_worker s); try done. by injection Hs as <-.
  - unfold worker_step in Hs. destruct (ls_worker s) as [| |e| |m| |]; try done; try (by injection Hs as <-).
    + destruct (timed_receive (ls_internal s)) as [[]]; by injection Hs as <-.
    + destruct (ls_inbox s); by injection Hs as <-.
  - injection Hs as <-. destruct o as [m|m|e| | | |i]; cbn [outside_step]; try done.
    + by destruct (Fifo.send _ _).
    + unfold Fifo.send. cbn in Hc. by rewrite Hc.
    + cbn. destruct (timed_receive_spec (ls_outbound s)) as [(m & l & Hp' & E)|[Hp' E]]; rewrite E; cbn; rewrite ?Hp'; cbn; lia.
    + by destruct (ls_stops s !! i) as [[|[] l]|].
Qed.

(** No thread of the loop can move. *)
Definition threads_idle (s : LoopState) : Prop := (forall created, runner_step created s = None) /\ worker_step s = None.

Lemma runner_idle s : runner_step true s = None -> ls_runner s = RunDone \/ (ls_runner s = RunJoin /\ ls_worker s <> WorkExited).
Proof.
  unfold runner_step. destruct (ls_runner s) as [| | | |m|m|[|q l]| |]; try done; [| | |by left].
  - by destruct (timed_receive _) as [[]].
  - by destruct (is_system_exit m), (negb (ls_running s)).
  - destruct (ls_worker s) eqn:E; try done; intros _; right; by split.
Qed.

Lemma worker_idle s : worker_step s = None -> ls_worker s = WorkNone \/ ls_worker s = WorkExited.
Proof.
  unfold worker_step. destruct (ls_worker s); auto; try done; [by destruct (timed_receive _) as [[]]|by destruct (ls_inbox s)].
Qed.

Lemma threads_idle_ended s : loop_wf s -> threads_idle s ->
  ls_runner s = RunDone /\ (ls_worker s = WorkNone \/ ls_worker s = WorkExited /\ bus_closed s).
Proof.
  intros [Ht Hc _ _] [Hr Hw%worker_idle]. specialize (Hr true). unfold threads_ok in Ht. unfold to_close in Hc.
  destruct (runner_idle s Hr) as [E|[E Hj]]; rewrite E in Ht, Hc.
  - split; [done|]. destruct Hw as [Hw|Hw]; [by left|right]. split; [done|]. rewrite Hw in Hc. intros q.
    destruct (Hc ltac:(done) q) as [Hq|?]; [by destruct q; set_solver|by apply elem_of_nil in Hq|done].
  - by destruct Hw.
Qed.

(** C22: Stopping: once [running] is down and [agent_loop_run] has set it, under
    every schedule the receiver takes only as many more steps as its rank says;
    when the internal queue is closed too (which the receiver itself does), both
    threads together take at most as many steps as the measure says; and the
    threads only rest when the receiver has returned from [agent_loop_run] and
    the worker has exited with the bus closed (or was never created). *)
Theorem agent_loop_stops s sched s' : loop_reachable s -> ls_running s = false -> ls_runner s <> RunEntry ->
  run_schedule sched s = Some s' ->
  sum_list (runner_cost <$> sched) + runner_rank s' <= runner_rank s /\
  (queue_closed QInternal s = true -> sum_list (thread_cost <$> sched) + shutdown_measure s' <= shutdown_measure s) /\
  (threads_idle s' -> ls_runner s' = RunDone /\ (ls_worker s' = WorkNone \/ ls_worker s' = WorkExited /\ bus_closed s')).
Proof.
  intros [sched0 H0] Hr Hn Hs. assert (stopping s) as Hst by done. pose proof (Forall_true (fun _ : actor => True) sched (fun _ => I)) as Hall.
  split_and!.
  - by apply (run_steps_potential loop_step stopping _ runner_cost runner_rank stopping_step sched s s' Hall).
  - intros Hc. by apply (run_steps_potential loop_step closing _ thread_cost shutdown_measure closing_step sched s s' Hall (conj Hst Hc)).
  - apply threads_idle_ended, reachable_wf. exists (sched0 ++ sched). by rewrite run_steps_app, H0.
Qed.

(** A message is received, queued and processed while a signal stops the loop. *)
Definition demo_message : InboundMessage := inbound_message_new (Some $"cli") (Some $"me") (Some $"hello") None.
Definition demo_start : list actor :=
  [Runner true; Outside (SendInbound demo_message); Runner true; Worker; Runner true; Runner true; Worker; Worker; Runner true; Runner true; Runner true].
Definition demo_stop : list actor :=
  Outside RequestStop :: replicate 6 (Runner true) ++ replicate 9 Worker.
Definition demo_started : LoopState := default loop_new (run_schedule (demo_start ++ [Outside RequestStop]) loop_new).

Lemma inbound_in_order_witness :
  ls_accepted demo_started = ls_processed demo_started ++ in_worker demo_started ++ ls_inbox demo_started ++ in_runner demo_started ++
    ls_dropped demo_started ++ Fifo.pending (ls_inbound demo_started) /\
  length (ls_dropped demo_started) <= (if leaving demo_started then 1 else 0).
Proof. apply inbound_in_order. exists (demo_start ++ [Outside RequestStop]). by vm_compute. Defined.

Definition demo_end : list actor := replicate 6 (Runner true) ++ replicate 6 Worker ++ [Runner true].
Definition demo_stopped : LoopState := default loop_new (run_schedule demo_end demo_started).

Example demo_stopped_ended : ls_runner demo_stopped = RunDone /\ ls_worker demo_stopped = WorkExited /\ ls_processed demo_stopped = [demo_message].
Proof. by vm_compute. Qed.

Lemma agent_loop_stops_witness :
  sum_list (runner_cost <$> demo_end) + runner_rank demo_stopped <= runner_rank demo_started /\
  (queue_closed QInternal demo_started = true -> sum_list (thread_cost <$> demo_end) + shutdown_measure demo_stopped <= shutdown_measure demo_started) /\
  (threads_idle demo_stopped -> ls_runner demo_stopped = RunDone /\ (ls_worker demo_stopped = WorkNone \/ ls_worker demo_stopped = WorkExited /\ bus_closed demo_stopped)).
Proof.
  apply agent_loop_stops.
  - exists (demo_start ++ [Outside RequestStop]). by vm_compute.
  - by vm_compute.
  - by vm_compute.
  - by vm_compute.
Defined.

(** ** A stop before the start *)

(** The actor is not a stop, and the worker can be created. *)
Definition no_stop (a : actor) : Prop :=
  match a with
  | Outside RequestStop | Outside StopCall => False
  | Runner created => created = true
  | _ => True
  end.

(** The receiver goes round its loop on a closed, empty bus, and the worker
    has no message to process. *)
Definition spinning (acc proc : list InboundMessage) (s : LoopState) : Prop :=
  ls_running s = true /\
  match ls_runner s with RunCreate | RunCheck | RunReceive => True | _ => False end /\
  Fifo.is_closed (ls_inbound s) = true /\ Fifo.pending (ls_inbound s) = [] /\ ls_inbox s = [] /\ in_worker s = [] /\
  ls_accepted s = acc /\ ls_processed s = proc.

Lemma spinning_step acc proc s a s' : spinning acc proc s -> no_stop a -> loop_step s a = Some s' -> spinning acc proc s'.
Proof.
  intros (Hrun & Hr & Hc & Hp & Hi & Hw & Hacc & Hproc) Ha Hs. unfold spinning, in_worker in *. destruct a as [created| |o]; cbn in Hs.
  - cbn in Ha. subst created. unfold runner_step in Hs. destruct (ls_runner s) as [| | | |m|m|l| |]; try done.
    + by injection Hs as <-.
    + rewrite Hrun in Hs. by injection Hs as <-.
    + unfold timed_receive in Hs. rewrite Hp in Hs. by injection Hs as <-.
  - unfold worker_step in Hs. destruct (ls_worker s) as [| |e| |m| |] eqn:Ew; try done.
    + destruct (timed_receive_spec (ls_internal s)) as [(m & l & Hp' & E)|[Hp' E]]; rewrite E in Hs; by injection Hs as <-.
    + by injection Hs as <-.
    + rewrite Hi in Hs. by injection Hs as <-.
    + rewrite Hrun in Hs. by injection Hs as <-.
  - injection Hs as <-. destruct o as [m|m|e| | | |i]; try done.
    + unfold outside_step, Fifo.send. by rewrite Hc.
    + unfold outside_step. destruct (ls_stops s !! i) as [[|[] l]|]; by cbn.
Qed.

(** A stop that is complete before [agent_loop_run] raises the flag is lost:
    the flag is raised again, the bus stays closed, and whatever is scheduled,
    as long as nobody stops the loop a second time, [agent_loop_run] neither
    returns nor receives anything. *)
Theorem early_stop_is_lost s sched s' :
  loop_reachable s -> ls_runner s = RunEntry -> queue_closed QInbound s = true -> Fifo.pending (ls_inbound s) = [] ->
  Forall no_stop sched -> run_schedule (Runner true :: sched) s = Some s' ->
  ls_running s' = true /\ (ls_runner s' = RunCreate \/ ls_runner s' = RunCheck \/ ls_runner s' = RunReceive) /\
  ls_accepted s' = ls_accepted s /\ ls_processed s' = ls_processed s.
Proof.
  intros Hreach%reachable_wf He Hc Hp Hok Hs. destruct Hreach as [Ht _ _ _]. unfold threads_ok in Ht. rewrite He in Ht.
  destruct Ht as [Hw Hi]. cbn in Hs. unfold runner_step in Hs. rewrite He in Hs. cbn in Hs.
  assert (spinning (ls_accepted s) (ls_processed s) s') as (H1 & H2 & _ & _ & _ & _ & H7 & H8).
  { eapply (run_steps_invariant loop_step (spinning (ls_accepted s) (ls_processed s)) no_stop (spinning_step _ _)); [exact Hok| |exact Hs].
    unfold spinning, in_worker. cbn. by rewrite Hw. }
  split_and!; [done| |done|done]. destruct (ls_runner s'); auto; done.
Qed.

Definition demo_early_stop : LoopState :=
  default loop_new (run_schedule (Outside StopCall :: replicate 3 (Outside (StopClose 0))) loop_new).
Definition demo_spin : list actor := replicate 40 (Runner true) ++ replicate 9 Worker.

Lemma early_stop_is_lost_witness :
  let s' := default loop_new (run_schedule (Runner true :: demo_spin) demo_early_stop) in
  ls_running s' = true /\ (ls_runner s' = RunCreate \/ ls_runner s' = RunCheck \/ ls_runner s' = RunReceive) /\
  ls_accepted s' = ls_accepted demo_early_stop /\ ls_processed s' = ls_processed demo_early_stop.
Proof.
  apply (early_stop_is_lost demo_early_stop demo_spin).
  - exists (Outside StopCall :: replicate 3 (Outside (StopClose 0))). by vm_compute.
  - by vm_compute.
  - by vm_compute.
  - by vm_compute.
  - unfold demo_spin. cbn. repeat constructor.
  - by vm_compute.
Defined.
