(* ===== verification/SubagentRun.v ===== *)
(** [src/subagent/subagent.c], the thread of one subagent: it builds an agent
    loop with a bus and tools of its own, starts [agent_loop_run] in a second
    thread, sends it the task and relays its answers until the loop ends or
    the time is up; and the shutdown of the manager. *)
From S2P Require Import Prelude CStr Common Message MessageBus ToolRegistry ToolContext AgentLoop Subagent Lifecycle.

(** ** The tools of a subagent: a registry of its own, each built-in tool with a
    private context routed to the subagent *)
Section SubTools.
Context {W : Type}.

(** [clone_ok]: the contexts could be allocated. *)
Definition sub_tool (clone_ok : bool) (task_id : cstr) (src : Tool W ToolContext) : option (option ToolContext * option nat * bool) :=
  match t_user_data src, t_plugin_ref src with
  | Some base_ctx, None =>
      if (ctx_magic base_ctx =? TOOL_CONTEXT_MAGIC)%Z then
        match tool_context_clone_with_route clone_ok base_ctx (Some $"subagent") (Some task_id) with
        | Some c => Some (Some c, None, true)
        | None => None
        end
      else Some (t_user_data src, t_plugin_ref src, false)
  | _, _ => Some (t_user_data src, t_plugin_ref src, false)
  end.

Fixpoint copy_tools (clone_ok realloc_ok : bool) (task_id : cstr) (tools : list (Tool W ToolContext)) (reg : ToolRegistry W ToolContext) :
    ToolRegistry W ToolContext :=
  match tools with
  | [] => reg
  | src :: r =>
      let reg' := match sub_tool clone_ok task_id src with
                  | Some (user_data, plugin_ref, destroy) =>
                      fst (tool_registry_register_full realloc_ok reg (Some (t_name src)) (Some (t_description src)) (Some (t_parameters src))
                             (t_execute src) user_data plugin_ref destroy)
                  | None => reg
                  end in
      copy_tools clone_ok realloc_ok task_id r reg'
  end.

(** The registry of the subagent's loop: the copy, or the shared one when
    there is no memory for it. *)
Definition sub_tool_registry (reg_ok clone_ok realloc_ok : bool) (task_id : cstr) (shared : ToolRegistry W ToolContext) : ToolRegistry W ToolContext :=
  match tool_registry_new reg_ok true with
  | Some reg => copy_tools clone_ok realloc_ok task_id (reg_tools shared) reg
  | None => shared
  end.

Definition routed (task_id : cstr) (t : Tool W ToolContext) : Tool W ToolContext :=
  match t_user_data t, t_plugin_ref t with
  | Some c, None =>
      if (ctx_magic c =? TOOL_CONTEXT_MAGIC)%Z
      then mkTool (t_name t) (t_description t) (t_parameters t) (t_execute t)
             (Some (tool_context_set_route c (Some $"subagent") (Some task_id))) None true
      else mkTool (t_name t) (t_description t) (t_parameters t) (t_execute t) (t_user_data t) (t_plugin_ref t) false
  | _, _ => mkTool (t_name t) (t_description t) (t_parameters t) (t_execute t) (t_user_data t) (t_plugin_ref t) false
  end.

Lemma register_full_tools (reg : ToolRegistry W ToolContext) name desc params exec user_data plugin_ref destroy :
  reg_tools (fst (tool_registry_register_full true reg name desc params exec user_data plugin_ref destroy)) =
  reg_tools reg ++ [mkTool (str_new name) (str_new desc) (str_new params) exec user_data plugin_ref destroy].
Proof. unfold tool_registry_register_full. by destruct (Nat.leb _ _). Qed.

Lemma copy_tools_spec task_id tools reg :
  reg_tools (copy_tools true true task_id tools reg) = reg_tools reg ++ (routed task_id <$> tools).
Proof.
  revert reg. induction tools as [|t r IH]; intros reg; cbn [copy_tools fmap list_fmap]; [by rewrite app_nil_r|].
  rewrite IH. replace (reg_tools reg ++ _) with ((reg_tools reg ++ [routed task_id t]) ++ (routed task_id <$> r)) by by rewrite <- (assoc_L app).
  f_equal. unfold sub_tool, routed. destruct (t_user_data t) as [c|] eqn:Eu, (t_plugin_ref t) as [i|] eqn:Ep; try by rewrite register_full_tools.
  destruct (ctx_magic c =? TOOL_CONTEXT_MAGIC)%Z eqn:Em; [|by rewrite register_full_tools].
  unfold tool_context_clone_with_route. rewrite Em. cbn [andb]. rewrite register_full_tools. do 3 f_equal.
  unfold tool_context_set_route. rewrite Em. cbn. apply Z.eqb_eq in Em. by rewrite Em.
Qed.
End SubTools.

(** The tools a subagent runs with are those of the shared registry, in
    their order, with the same functions; each built-in one has a context of
    its own whose answers are routed to the subagent, and a context with a
    wrong stamp is passed on unchanged. *)
Theorem sub_tools_routed {W} task_id (shared : ToolRegistry W ToolContext) :
  reg_tools (sub_tool_registry true true true task_id shared) = routed task_id <$> reg_tools shared /\
  Forall (fun t => forall c, t_user_data t = Some c -> t_plugin_ref t = None -> ctx_magic c = TOOL_CONTEXT_MAGIC ->
    ctx_current_channel c = $"subagent" /\ ctx_current_chat_id c = truncate_to 512 task_id)
    (reg_tools (sub_tool_registry true true true task_id shared)).
Proof.
  unfold sub_tool_registry. cbn [tool_registry_new andb]. rewrite copy_tools_spec. cbn [reg_tools app]. split; [done|].
  apply Forall_fmap, Forall_forall. intros t _ c. cbn. unfold routed.
  destruct (t_user_data t) as [c0|], (t_plugin_ref t) as [i|]; cbn; try done.
  destruct (ctx_magic c0 =? TOOL_CONTEXT_MAGIC)%Z eqn:Em; cbn.
  - intros [= <-] _ _. unfold tool_context_set_route. rewrite Em. by cbn.
  - intros [= <-] _ Hc. apply Z.eqb_neq in Em. done.
Qed.

(** ** The thread of one subagent *)

Inductive RelayPc :=
  | RelaySend                      (* the task message is not sent yet *)
  | RelayCheck                     (* phase 1: the [running] flag *)
  | RelayReceive
  | RelayClock
  | RelayStop (l : list QueueId)   (* in [agent_loop_stop] *)
  | RelayDrain (attempts : nat)    (* phase 2 *)
  | RelayJoin
  | RelayDone.

Record SubState := mkSub {
  su_loop : LoopState;
  su_pc : RelayPc;
  su_start_ms : Z;
  su_now_ms : Z;
  su_relayed : list OutboundMessage;
}.

Definition sub_new (now : Z) : SubState := mkSub loop_new RelaySend 0 now [].

Section Relay.
Context (t : SubagentTask).

Definition goto (p : RelayPc) (s : SubState) : SubState := mkSub (su_loop s) p (su_start_ms s) (su_now_ms s) (su_relayed s).
Definition with_loop (l : LoopState) (s : SubState) : SubState := mkSub l (su_pc s) (su_start_ms s) (su_now_ms s) (su_relayed s).
Definition relay_out (m : OutboundMessage) (s : SubState) : SubState :=
  mkSub (su_loop s) (su_pc s) (su_start_ms s) (su_now_ms s) (su_relayed s ++ [relay t m]).

(** One step of the relaying thread; [None]: it waits in [pthread_join], or
    has ended. *)
Definition relay_step (s : SubState) : option SubState :=
  match su_pc s with
  | RelaySend =>
      Some (mkSub (outside_step (SendInbound (task_message t)) (su_loop s)) RelayCheck (su_now_ms s) (su_now_ms s) (su_relayed s))
  | RelayCheck => Some (goto (if ls_running (su_loop s) then RelayReceive else RelayDrain 0) s)
  | RelayReceive =>
      match timed_receive (ls_outbound (su_loop s)) with
      | (Some m, q) => Some (goto RelayClock (relay_out m (with_loop (set_outbound q (su_loop s)) s)))
      | (None, _) => Some (goto RelayClock s)
      end
  | RelayClock =>
      if (TIMEOUT_MS <? elapsed_ms (su_start_ms s) (su_now_ms s))%Z
      then Some (goto (RelayStop bus_queues) (with_loop (set_running false (su_loop s)) s))
      else Some (goto RelayCheck s)
  | RelayStop (q :: l) => Some (goto (RelayStop l) (with_loop (close_queue q (su_loop s)) s))
  | RelayStop [] => Some (goto (RelayDrain 0) s)
  | RelayDrain n =>
      if Nat.leb max_drain_attempts n then Some (goto RelayJoin s)
      else match timed_receive (ls_outbound (su_loop s)) with
           | (Some m, q) => Some (goto (RelayDrain 0) (relay_out m (with_loop (set_outbound q (su_loop s)) s)))
           | (None, _) => Some (goto (RelayDrain (S n)) s)
           end
  | RelayJoin => match ls_runner (su_loop s) with RunDone => Some (goto RelayDone s) | _ => None end
  | RelayDone => None
  end.

(** The actors: the threads of the loop and their outside (the handlers'
    sends, a cancellation), the relaying thread, and the clock. *)
Inductive sub_actor := LoopActor (a : actor) | Relay | Clock (now : Z).

Definition sub_thread_step (s : SubState) (a : sub_actor) : option SubState :=
  match a with
  | LoopActor a => l ← loop_step (su_loop s) a; Some (with_loop l s)
  | Relay => relay_step s
  | Clock now => Some (mkSub (su_loop s) (su_pc s) (su_start_ms s) now (su_relayed s))
  end.
End Relay.

(** ** The relaying thread can miss the start of the loop *)

(** Actors of an undisturbed run: no stop from outside, no exit message, the
    worker can be created. *)
Definition undisturbed (a : sub_actor) : Prop :=
  match a with
  | LoopActor (Outside (SendInbound m)) => is_system_exit m = false
  | LoopActor (Outside ReadOutbound) => False
  | LoopActor a => no_stop a
  | _ => True
  end.

(** The loop runs, and no message that could end it is on its way. *)
Definition running_on (s : LoopState) : Prop :=
  ls_running s = true /\ Forall (fun m => is_system_exit m = false) (Fifo.pending (ls_inbound s)) /\
  match ls_runner s with
  | RunCreate | RunCheck | RunReceive | RunEnqueue _ => True
  | RunGot m => is_system_exit m = false
  | _ => False
  end.

Lemma running_on_step s a s' : running_on s -> undisturbed (LoopActor a) -> loop_step s a = Some s' -> running_on s'.
Proof.
  intros (Hrun & Hp & Hr) Ha Hs. unfold running_on. destruct a as [created| |o]; cbn [loop_step] in Hs.
  - cbn in Ha. subst created. unfold runner_step in Hs. destruct (ls_runner s) as [| | | |m|m|l| |]; try done.
    + by injection Hs as <-.
    + rewrite Hrun in Hs. by injection Hs as <-.
    + destruct (timed_receive_spec (ls_inbound s)) as [(m & l & Hp' & E)|[Hp' E]]; rewrite E in Hs; injection Hs as <-; [|done].
      rewrite Hp' in Hp. apply Forall_cons in Hp as [? ?]. by cbn.
    + rewrite Hr, Hrun in Hs. by injection Hs as <-.
    + by injection Hs as <-.
  - unfold worker_step in Hs. destruct (ls_worker s) as [| |e| |m| |]; try done.
    + destruct (timed_receive_spec (ls_internal s)) as [(m & l & Hp' & E)|[Hp' E]]; rewrite E in Hs; by injection Hs as <-.
    + by injection Hs as <-.
    + destruct (ls_inbox s); by injection Hs as <-.
    + by injection Hs as <-.
    + rewrite Hrun in Hs. by injection Hs as <-.
  - injection Hs as <-. destruct o as [m|m|e| | | |i]; try done.
    + unfold outside_step, Fifo.send. destruct (Fifo.is_closed (ls_inbound s)); cbn; split_and!; try done.
      apply Forall_app. split; [done|]. by repeat constructor.
    + unfold outside_step. destruct (ls_stops s !! i) as [[|[] l]|]; by cbn.
Qed.

Section RelayFacts.
Context (t : SubagentTask).

(** The thread waits for a loop that nothing will end. *)
Definition deaf (relayed : list OutboundMessage) (s : SubState) : Prop :=
  running_on (su_loop s) /\ su_pc s = RelayJoin /\ su_relayed s = relayed.

Lemma deaf_step relayed s a s' : deaf relayed s -> undisturbed a -> sub_thread_step t s a = Some s' -> deaf relayed s'.
Proof.
  intros (Hl & Hp & Hr) Ha Hs. destruct a as [a| |now].
  - cbn in Hs. destruct (loop_step (su_loop s) a) as [l|] eqn:E; [|done]. injection Hs as <-.
    split; [by eapply running_on_step|done].
  - cbn in Hs. unfold relay_step in Hs. rewrite Hp in Hs. destruct Hl as (_ & _ & Hl). by destruct (ls_runner (su_loop s)).
  - injection Hs as <-. by split.
Qed.
End RelayFacts.

(** The schedule in which the relaying thread is first: it looks at the flag
    before [agent_loop_run] raised it, drains five times, and waits. *)
Definition race_schedule : list sub_actor := replicate 8 Relay ++ [LoopActor (Runner true)].

(** The relay loop takes a loop that has not started for one that has ended:
    after the race schedule the thread is in [pthread_join], and from there,
    whatever is scheduled without a cancellation, however long it takes, it
    neither relays an answer nor ends; the time-out of five minutes is no
    longer looked at. *)
Theorem subagent_answers_lost t now : exists s,
  run_steps (sub_thread_step t) race_schedule (sub_new now) = Some s /\ su_relayed s = [] /\
  forall sched s', Forall undisturbed sched -> run_steps (sub_thread_step t) sched s = Some s' ->
    su_pc s' = RelayJoin /\ su_relayed s' = [] /\ ls_running (su_loop s') = true.
Proof.
  eexists. split; [reflexivity|]. split; [done|]. intros sched s' Hok Hs.
  cut (deaf [] s'); [intros ((? & _) & ? & ?); by split_and!|].
  eapply (run_steps_invariant (sub_thread_step t) (deaf []) undisturbed (deaf_step t [])); [exact Hok| |exact Hs].
  split; [|by split]. split; [done|]. split; [|done]. cbn. by repeat constructor.
Qed.

(** ** Ending *)

(** How many steps the relaying thread still needs, apart from the messages. *)
Definition relay_rank (s : SubState) : nat :=
  match su_pc s with
  | RelaySend => 13 | RelayCheck => 12 | RelayReceive => 14 | RelayClock => 13
  | RelayStop l => 8 + length l | RelayDrain n => 2 + (max_drain_attempts - n) | RelayJoin => 1 | RelayDone => 0
  end.

Definition sub_measure (s : SubState) : nat :=
  relay_rank s + 6 * length (Fifo.pending (ls_outbound (su_loop s))) + shutdown_measure (su_loop s).

Definition sub_cost (a : sub_actor) : nat :=
  match a with LoopActor a => thread_cost a | Relay => 1 | Clock _ => 0 end.

Definition sub_closing (s : SubState) : Prop :=
  closing (su_loop s) /\ queue_closed QOutbound (su_loop s) = true /\ loop_wf (su_loop s).

(** What the relaying thread does to the loop, as steps of the loop's outside. *)
Lemma set_running_wf b s : loop_wf s -> loop_wf (set_running b s).
Proof. by intros [? ? ? ?]. Qed.

Lemma relay_loop_closing l q : closing l -> queue_closed QOutbound l = true ->
  closing (close_queue q l) /\ queue_closed QOutbound (close_queue q l) = true /\
  shutdown_measure (close_queue q l) = shutdown_measure l /\
  length (Fifo.pending (ls_outbound (close_queue q l))) = length (Fifo.pending (ls_outbound l)).
Proof. intros [[? ?] ?] ?. by destruct q. Qed.

Lemma relay_receive_closing l m rest : closing l -> queue_closed QOutbound l = true -> loop_wf l -> Fifo.pending (ls_outbound l) = m :: rest ->
  let l' := set_outbound (Fifo.mkFifo rest (Fifo.is_closed (ls_outbound l))) l in
  closing l' /\ queue_closed QOutbound l' = true /\ loop_wf l' /\ shutdown_measure l' = shutdown_measure l.
Proof.
  intros [[? ?] ?] ? Hwf Hp. split_and!; try done.
  pose proof (outside_step_wf ReadOutbound l Hwf) as H'. unfold outside_step, timed_receive in H'. by rewrite Hp in H'.
Qed.

Lemma relay_step_closing t s s' : sub_closing s -> relay_step t s = Some s' -> sub_closing s' /\ 1 + sub_measure s' <= sub_measure s.
Proof.
  intros (Hcl & Ho & Hwf) Hs. unfold relay_step in Hs. unfold sub_closing, sub_measure, relay_rank, max_drain_attempts in *.
  destruct (su_pc s) as [| | | |[|q l]|n| |] eqn:Ep; try done.
  - apply (inj Some) in Hs. subst s'. cbn [su_loop su_pc].
    pose proof (closing_step (su_loop s) (Outside (SendInbound (task_message t))) _ Hcl I eq_refl) as [Hcl' Hm]. cbn [thread_cost] in Hm.
    pose proof (closed_step QOutbound _ (Outside (SendInbound (task_message t))) _ Ho eq_refl) as Ho'.
    pose proof (outbound_shrinks _ (Outside (SendInbound (task_message t))) _ Ho eq_refl) as Hl.
    pose proof (outside_step_wf (SendInbound (task_message t)) (su_loop s) Hwf). split; [by split_and!|lia].
  - destruct Hcl as [[Hr Hn] Hc]. rewrite Hr in Hs. injection Hs as <-. cbn. split; [by split_and!|lia].
  - destruct (timed_receive_spec (ls_outbound (su_loop s))) as [(m & l & Hp & E)|[Hp E]]; rewrite E in Hs; injection Hs as <-; cbn [goto relay_out with_loop su_loop su_pc].
    + destruct (relay_receive_closing (su_loop s) m l Hcl Ho Hwf Hp) as (? & ? & ? & ->). split; [by split_and!|]. rewrite Hp. cbn. lia.
    + split; [by split_and!|lia].
  - destruct (TIMEOUT_MS <? _)%Z; injection Hs as <-; cbn [goto with_loop su_loop su_pc]; [|split; [by split_and!|lia]].
    destruct Hcl as [[Hr Hn] Hc]. split; [split_and!; [by split|done|by apply set_running_wf]|].
    change (shutdown_measure (set_running false (su_loop s))) with (shutdown_measure (su_loop s)). cbn [set_running ls_outbound bus_queues length]. lia.
  - injection Hs as <-. cbn. split; [by split_and!|lia].
  - injection Hs as <-. cbn [goto with_loop su_loop su_pc]. destruct (relay_loop_closing (su_loop s) q Hcl Ho) as (? & ? & -> & ->).
    split; [split_and!; [done|done|by apply close_queue_wf]|cbn; lia].
  - destruct (Nat.leb 5 n) eqn:En; [injection Hs as <-; cbn; split; [by split_and!|lia]|]. apply Nat.leb_gt in En.
    destruct (timed_receive_spec (ls_outbound (su_loop s))) as [(m & l & Hp & E)|[Hp E]]; rewrite E in Hs; injection Hs as <-; cbn [goto relay_out with_loop su_loop su_pc].
    + destruct (relay_receive_closing (su_loop s) m l Hcl Ho Hwf Hp) as (? & ? & ? & ->). split; [by split_and!|]. rewrite Hp. cbn [ls_outbound set_outbound Fifo.pending length]. lia.
    + split; [by split_and!|lia].
  - destruct (ls_runner (su_loop s)); try done. injection Hs as <-. cbn. split; [by split_and!|lia].
Qed.

Lemma sub_closing_step t s a s' : sub_closing s -> True -> sub_thread_step t s a = Some s' ->
  sub_closing s' /\ sub_cost a + sub_measure s' <= sub_measure s.
Proof.
  intros Hc _ Hs. destruct a as [a| |now]; cbn [sub_thread_step sub_cost] in *.
  - destruct (loop_step (su_loop s) a) as [l|] eqn:E; [|done]. injection Hs as <-. destruct Hc as (Hcl & Ho & Hwf).
    pose proof (closing_step _ _ _ Hcl I E) as [? ?]. pose proof (closed_step _ _ _ _ Ho E). pose proof (outbound_shrinks _ _ _ Ho E).
    split; [split_and!; [done|done|by eapply loop_step_wf]|]. unfold sub_measure, relay_rank. cbn [with_loop su_loop su_pc]. lia.
  - by eapply relay_step_closing.
  - injection Hs as <-. split; [done|]. unfold sub_measure, relay_rank. cbn. lia.
Qed.

Lemma sub_thread_step_wf t s a s' : loop_wf (su_loop s) -> True -> sub_thread_step t s a = Some s' -> loop_wf (su_loop s').
Proof.
  intros Hwf _ Hs. destruct a as [a| |now]; cbn [sub_thread_step] in Hs; [|unfold relay_step in Hs|by injection Hs as <-].
  - destruct (loop_step (su_loop s) a) as [l|] eqn:E; [|done]. injection Hs as <-. by eapply loop_step_wf.
  - pose proof (outside_step_wf ReadOutbound (su_loop s) Hwf) as Hread. unfold outside_step in Hread.
    destruct (su_pc s) as [| | | |[|q l]|n| |]; try done.
    + injection Hs as <-. by apply (outside_step_wf (SendInbound (task_message t))).
    + by injection Hs as <-.
    + destruct (timed_receive (ls_outbound (su_loop s))) as [[m|] q]; by injection Hs as <-.
    + destruct (TIMEOUT_MS <? _)%Z; injection Hs as <-; [by apply set_running_wf|done].
    + by injection Hs as <-.
    + injection Hs as <-. by apply close_queue_wf.
    + destruct (Nat.leb _ _); [by injection Hs as <-|]. destruct (timed_receive (ls_outbound (su_loop s))) as [[m|] q]; by injection Hs as <-.
    + destruct (ls_runner (su_loop s)); try done. by injection Hs as <-.
Qed.

Definition sub_idle (t : SubagentTask) (s : SubState) : Prop := relay_step t s = None /\ threads_idle (su_loop s).

(** C34: A subagent whose started loop was stopped (by the time-out, by a
    cancellation) ends: from there all its threads together take at most as
    many steps as the measure says, under every schedule, and they only rest
    when the relaying thread has ended and [agent_loop_run] has returned. *)
Theorem subagent_ends t now sched0 s sched s' :
  run_steps (sub_thread_step t) sched0 (sub_new now) = Some s ->
  ls_running (su_loop s) = false -> ls_runner (su_loop s) <> RunEntry -> bus_closed (su_loop s) ->
  run_steps (sub_thread_step t) sched s = Some s' ->
  sum_list (sub_cost <$> sched) + sub_measure s' <= sub_measure s /\
  (sub_idle t s' -> su_pc s' = RelayDone /\ ls_runner (su_loop s') = RunDone).
Proof.
  intros H0 Hr Hn Hc Hs.
  assert (loop_wf (su_loop s)) as Hwf.
  { eapply (run_steps_invariant (sub_thread_step t) (fun s => loop_wf (su_loop s)) (fun _ => True) (sub_thread_step_wf t) sched0 (sub_new now));
      [by apply Forall_true|apply loop_new_wf|done]. }
  destruct (run_steps_potential (sub_thread_step t) sub_closing (fun _ => True) sub_cost sub_measure (sub_closing_step t) sched s s') as [(Hcl & Ho & Hwf') Hm];
    [by apply Forall_true|by split_and!; [split|..]|done|].
  split; [done|]. intros [Hrel Hidle]. destruct (threads_idle_ended _ Hwf' Hidle) as [Hd _]. split; [|done].
  unfold relay_step in Hrel. destruct (su_pc s') as [| | | |[|q l]|n| |]; try done.
  - by destruct (timed_receive _) as [[]].
  - by destruct (TIMEOUT_MS <? _)%Z.
  - destruct (Nat.leb _ _); [done|]. by destruct (timed_receive _) as [[]].
  - by rewrite Hd in Hrel.
Qed.

Definition demo_task : SubagentTask := new_subagent_task 7 (mkSpawn $"look it up" None $"cli" $"me").

(** The loop is started, the relaying thread waits for an answer, and the
    subagent is cancelled. *)
Definition demo_cancelled : list sub_actor :=
  [Relay; LoopActor (Runner true); LoopActor (Runner true); Relay; LoopActor (Outside (SendOutbound (outbound_message_new (Some $"subagent") (Some $"7") (Some $"found it"))));
   LoopActor (Outside StopCall)] ++ replicate 3 (LoopActor (Outside (StopClose 0))).
Definition demo_finish : list sub_actor :=
  replicate 3 Relay ++ replicate 5 (LoopActor (Runner true)) ++ replicate 3 (LoopActor Worker) ++ [LoopActor (Runner true)] ++ replicate 7 Relay.
Definition demo_sub : SubState := default (sub_new 0) (run_steps (sub_thread_step demo_task) demo_cancelled (sub_new 0)).
Definition demo_sub_end : SubState := default (sub_new 0) (run_steps (sub_thread_step demo_task) demo_finish demo_sub).

Example demo_sub_ended : su_pc demo_sub_end = RelayDone /\ out_content <$> su_relayed demo_sub_end = [$"[Subagent look it up]: found it"].
Proof. by vm_compute. Qed.

Lemma subagent_ends_witness :
  sum_list (sub_cost <$> demo_finish) + sub_measure demo_sub_end <= sub_measure demo_sub /\
  (sub_idle demo_task demo_sub_end -> su_pc demo_sub_end = RelayDone /\ ls_runner (su_loop demo_sub_end) = RunDone).
Proof. apply (subagent_ends demo_task 0 demo_cancelled); try (by vm_compute). by intros []. Defined.

(** ** The end of the manager *)

Definition stop_node (n : SubagentTaskNode) : SubagentTaskNode :=
  mkSubNode (sn_task_id n) (sn_session_key n) (sn_origin_channel n) (sn_origin_chat_id n) (sn_has_loop n)
    (sn_has_loop n || sn_stopped n) (sn_cancelling n).

(** [subagent_manager_destroy], first the loops are stopped; ... *)
Definition destroy_stop (m : SubagentManager) : SubagentManager := mkSubManager (stop_node <$> sg_active_tasks m) (sg_active_count m).

Definition WAIT_ATTEMPTS : nat := 100.

(** ... then the counter is looked at every 100 ms: how often it slept, and
    whether the counter reached zero; [count i] is the counter at look [i]; ... *)
Fixpoint destroy_wait (attempts_left wait_attempts : nat) (count : nat -> Z) : nat * bool :=
  match attempts_left with
  | O => (wait_attempts, false)
  | S k => if (count wait_attempts =? 0)%Z then (wait_attempts, true) else destroy_wait k (S wait_attempts) count
  end.

(** ... then the nodes still in the list are freed, and the manager. *)
Definition destroy_free (m : SubagentManager) : list SubagentTaskNode := sg_active_tasks m.

(** The wait ends within a hundred looks; when it saw the counter at zero,
    which is the length of the list in every reachable state, no node of a
    running task is freed; otherwise every look saw a running task. *)
Theorem destroy_wait_spec w count : sub_ok w ->
  match destroy_wait WAIT_ATTEMPTS 0 count with
  | (n, true) => n < WAIT_ATTEMPTS /\ (forall i, i < n -> count i <> 0%Z) /\
      (count n = sg_active_count (sw_manager w) -> destroy_free (destroy_stop (sw_manager w)) = [])
  | (n, false) => n = WAIT_ATTEMPTS /\ forall i, i < WAIT_ATTEMPTS -> count i <> 0%Z
  end.
Proof.
  intros [Hc _ _].
  assert (forall k n, (forall i, i < n -> count i <> 0%Z) -> let '(r, b) := destroy_wait k n count in
    if b then n <= r < n + k /\ (forall i, i < r -> count i <> 0%Z) /\ count r = 0%Z else r = n + k /\ forall i, i < n + k -> count i <> 0%Z) as Hw.
  { induction k as [|k IH]; intros n Hn; cbn [destroy_wait]; [rewrite Nat.add_0_r; by split|].
    destruct (count n =? 0)%Z eqn:E; [apply Z.eqb_eq in E; split_and!; [lia|lia|done|done]|]. apply Z.eqb_neq in E.
    assert (forall i, i < S n -> count i <> 0%Z) as Hn' by (intros i Hi; destruct (decide (i = n)) as [->|]; [done|apply Hn; lia]).
    specialize (IH (S n) Hn'). destruct (destroy_wait k (S n) count) as [r []]; [destruct IH as (? & ? & ?); split_and!; [lia|lia|done|done]|].
    rewrite Nat.add_succ_r, <- Nat.add_succ_l. done. }
  specialize (Hw WAIT_ATTEMPTS 0 ltac:(lia)). destruct (destroy_wait WAIT_ATTEMPTS 0 count) as [n []]; [|done].
  destruct Hw as (Hn & Hb & Hz). split_and!; [unfold WAIT_ATTEMPTS in *; lia|done|]. rewrite Hz, Hc. unfold destroy_free, destroy_stop. cbn.
  destruct (sg_active_tasks (sw_manager w)); [done|cbn; lia].
Qed.

(** A thread that was spawned and has not entered the list is not counted:
    right after a spawn the wait ends at its first look, and the manager is
    freed under the thread. *)
Theorem destroy_misses_pending : exists w,
  rtc sub_step (mkSubWorld subagent_manager_create []) w /\ sw_pending w <> [] /\
  destroy_wait WAIT_ATTEMPTS 0 (fun _ => sg_active_count (sw_manager w)) = (0, true).
Proof.
  exists (mkSubWorld subagent_manager_create [demo_task]). split; [|by split].
  exact (rtc_once _ _ (sub_spawn 7 true (mkSpawn $"look it up" None $"cli" $"me") (mkSubWorld subagent_manager_create []) (Some demo_task) _ eq_refl)).
Qed.

Lemma destroy_wait_spec_witness :
  match destroy_wait WAIT_ATTEMPTS 0 (fun i => if Nat.ltb i 3 then 1 else 0)%Z with
  | (n, true) => n < WAIT_ATTEMPTS /\ (forall i, i < n -> (if Nat.ltb i 3 then 1 else 0)%Z <> 0%Z) /\
      ((if Nat.ltb n 3 then 1 else 0)%Z = sg_active_count (sw_manager (mkSubWorld subagent_manager_create [])) -> destroy_free (destroy_stop subagent_manager_create) = [])
  | (n, false) => n = WAIT_ATTEMPTS /\ forall i, i < WAIT_ATTEMPTS -> (if Nat.ltb i 3 then 1 else 0)%Z <> 0%Z
  end.
Proof. apply (destroy_wait_spec (mkSubWorld subagent_manager_create []) (fun i => if Nat.ltb i 3 then 1 else 0)%Z). by split. Defined.
