(* ===== verification/Dispatcher.v ===== *)
(** [src/include/channel.h] and the thread of [src/main.c] that hands the
    outbound messages to the channels. [W] is the state the channels act on.
    The outbound queue is the abstract FIFO of MessageBus.v. *)
From S2P Require Import Prelude CStr Message MessageBus Lifecycle Console.

(** A channel as the dispatcher sees it. *)
Record Channel (W : Type) := mkChannel { chn_name : cstr; chn_send : option (OutboundMessage -> W -> W) }.
Arguments mkChannel {W}.
Arguments chn_name {W}.
Arguments chn_send {W}.

(** What the plugins promise: a channel leaves alone what is not addressed to
    one of its names. *)
Class Selective {W} (ch : Channel W) (names : list cstr) : Prop :=
  selective : forall send m w, chn_send ch = Some send -> out_channel m ∉ names -> send m w = w.

Section Dispatch.
Context {W : Type}.
Implicit Types (m : OutboundMessage) (w : W) (ch : Channel W) (channels : list (Channel W)).

Definition is_broadcast m : bool := str_eq (out_channel m) $"*" || str_eq (out_channel m) $"all".

Definition addressed m ch : bool :=
  is_broadcast m || str_eq (chn_name ch) (out_channel m) || (str_eq (out_channel m) $"cli" && str_eq (chn_name ch) $"console").

(** The loop over the channels: the state and how many were sent to. *)
Fixpoint dispatch channels m w (sent : nat) : W * nat :=
  match channels with
  | [] => (w, sent)
  | ch :: r =>
      match chn_send ch with
      | None => dispatch r m w sent
      | Some send => if addressed m ch then dispatch r m (send m w) (S sent) else dispatch r m w sent
      end
  end.

Definition deliver channels w m : W := fst (dispatch channels m w 0).

(** Where the thread is: in the receive, at the test of the closed queue, with
    a message in hand, ended. *)
Inductive OutboundPc := ObReceive | ObCheck | ObSend (m : OutboundMessage) | ObEnded.

(** [ob_accepted] and [ob_sent]: the history of the messages. *)
Record OutboundState := mkOutbound {
  ob_queue : Fifo.fifo OutboundMessage;
  ob_pc : OutboundPc;
  ob_world : W;
  ob_accepted : list OutboundMessage;
  ob_sent : list OutboundMessage;
}.

Definition ob_initial w : OutboundState := mkOutbound Fifo.empty ObReceive w [] [].

(** [outbound_thread], a step at a time; [None]: it waits for a message. *)
Definition dispatcher_step channels (s : OutboundState) : option OutboundState :=
  match ob_pc s with
  | ObReceive =>
      match Fifo.receive (ob_queue s) with
      | None => None
      | Some (Some m, q) => Some (mkOutbound q (ObSend m) (ob_world s) (ob_accepted s) (ob_sent s))
      | Some (None, q) => Some (mkOutbound q ObCheck (ob_world s) (ob_accepted s) (ob_sent s))
      end
  | ObCheck => Some (mkOutbound (ob_queue s) (if Fifo.is_closed (ob_queue s) then ObEnded else ObReceive) (ob_world s) (ob_accepted s) (ob_sent s))
  | ObSend m => Some (mkOutbound (ob_queue s) ObReceive (deliver channels (ob_world s) m) (ob_accepted s) (ob_sent s ++ [m]))
  | ObEnded => None
  end.

(** What other threads do to the queue. *)
Inductive ob_actor := Dispatcher | Sender (m : OutboundMessage) | Closer.

Definition outbound_actor_step channels (s : OutboundState) (a : ob_actor) : option OutboundState :=
  match a with
  | Dispatcher => dispatcher_step channels s
  | Sender m =>
      let '(q, ok) := Fifo.send (ob_queue s) m in
      Some (mkOutbound q (ob_pc s) (ob_world s) (if ok then ob_accepted s ++ [m] else ob_accepted s) (ob_sent s))
  | Closer => Some (mkOutbound (Fifo.close (ob_queue s)) (ob_pc s) (ob_world s) (ob_accepted s) (ob_sent s))
  end.

(** ** Facts *)

Lemma dispatch_sent channels m w n : dispatch channels m w n = (deliver channels w m, n + snd (dispatch channels m w 0)).
Proof.
  unfold deliver. revert w n. induction channels as [|ch r IH]; intros w n; cbn [dispatch]; [cbn; by rewrite Nat.add_0_r|].
  destruct (chn_send ch) as [send|]; [|apply IH]. destruct (addressed m ch); [|apply IH].
  rewrite IH. rewrite (IH (send m w) 1). cbn. f_equal. lia.
Qed.

Lemma deliver_cons ch r m w : deliver (ch :: r) w m =
  deliver r (match chn_send ch with Some send => if addressed m ch then send m w else w | None => w end) m.
Proof.
  unfold deliver at 1. cbn [dispatch]. destruct (chn_send ch) as [send|]; [|done]. destruct (addressed m ch); [|done].
  by rewrite dispatch_sent.
Qed.

(** What is promised of a message: it goes to a channel that can send when it
    is for all channels, or for the channel's name, or for the terminal under
    its other name. *)
Definition wants m ch : Prop :=
  is_Some (chn_send ch) /\
  (out_channel m = $"*" \/ out_channel m = $"all" \/ out_channel m = chn_name ch \/
   (out_channel m = $"cli" /\ chn_name ch = $"console")).
#[export] Instance wants_dec m ch : Decision (wants m ch).
Proof. unfold wants. apply _. Defined.

Definition call_send m w ch : W := match chn_send ch with Some send => send m w | None => w end.

(** The message given to each channel that wants it, once, in their order. *)
Definition send_to_all channels w m : W := fold_left (call_send m) (filter (wants m) channels) w.

Lemma addressed_wants m ch : is_Some (chn_send ch) -> addressed m ch = true <-> wants m ch.
Proof.
  intros Hs. unfold addressed, is_broadcast, wants, str_eq. rewrite !orb_true_iff, andb_true_iff, !bool_decide_eq_true.
  split; [intros [[[H|H]|H]|H]; split; auto|intros [_ [H|[H|[H|H]]]]; auto].
Qed.

Lemma deliver_send_to_all channels w m : deliver channels w m = send_to_all channels w m.
Proof.
  unfold send_to_all. revert w. induction channels as [|ch r IH]; intros w; [done|]. rewrite deliver_cons, filter_cons, IH. clear IH.
  destruct (chn_send ch) as [send|] eqn:E.
  - pose proof (addressed_wants m ch) as Ha. rewrite E in Ha. specialize (Ha ltac:(by eexists)). case_decide as Hw.
    + apply Ha in Hw as ->. cbn [fold_left]. assert (call_send m w ch = send m w) as -> by (unfold call_send; by rewrite E). done.
    + destruct (addressed m ch) eqn:Ead; [|done]. by destruct Hw; apply Ha.
  - rewrite decide_False; [done|]. unfold wants. rewrite E. by intros [[? ?] _].
Qed.

(** The message in the dispatcher's hand. *)
Definition in_hand (s : OutboundState) : list OutboundMessage := match ob_pc s with ObSend m => [m] | _ => [] end.

Record ob_wf channels w0 (s : OutboundState) : Prop := {
  obw_order : ob_accepted s = ob_sent s ++ in_hand s ++ Fifo.pending (ob_queue s);
  obw_world : ob_world s = fold_left (deliver channels) (ob_sent s) w0;
  obw_ended : match ob_pc s with ObCheck | ObEnded => Fifo.pending (ob_queue s) = [] /\ Fifo.is_closed (ob_queue s) = true | _ => True end;
}.

Lemma ob_step_wf channels w0 s a s' : ob_wf channels w0 s -> outbound_actor_step channels s a = Some s' -> ob_wf channels w0 s'.
Proof.
  intros [H1 H2 H3] Hs. unfold in_hand in H1. destruct a as [|m|]; cbn [outbound_actor_step] in Hs.
  - unfold dispatcher_step in Hs. destruct (ob_pc s) as [| |m|] eqn:E; [| | |done].
    + unfold Fifo.receive in Hs. destruct (Fifo.pending (ob_queue s)) as [|m l] eqn:Ep; cbn in H1.
      * destruct (Fifo.is_closed (ob_queue s)) eqn:Ec; [|done]. apply (inj Some) in Hs. subst s'. split; cbn; [by rewrite Ep|done|done].
      * apply (inj Some) in Hs. subst s'. by split.
    + apply (inj Some) in Hs. subst s'. destruct H3 as [H3 H4]. rewrite H4. split; unfold in_hand; cbn; [by rewrite H1|done|done].
    + apply (inj Some) in Hs. subst s'. split; unfold in_hand; cbn; [by rewrite H1, <-app_assoc|by rewrite fold_left_app, <-H2|done].
  - unfold Fifo.send in Hs. destruct (Fifo.is_closed (ob_queue s)) eqn:Ec; apply (inj Some) in Hs; subst s'; split; unfold in_hand; cbn; try done.
    + by rewrite Ec.
    + rewrite H1. by rewrite <-!app_assoc.
    + destruct (ob_pc s); [done|by destruct H3|done|by destruct H3].
  - apply (inj Some) in Hs. subst s'. split; unfold in_hand; cbn; [done|done|]. destruct (ob_pc s); [done|by destruct H3|done|by destruct H3].
Qed.

Lemma ob_run_wf channels w0 sched s s' : ob_wf channels w0 s -> run_steps (outbound_actor_step channels) sched s = Some s' -> ob_wf channels w0 s'.
Proof.
  intros Hw Hr. eapply (run_steps_invariant (outbound_actor_step channels) (ob_wf channels w0) (fun _ => True)); [|by apply Forall_true|exact Hw|exact Hr].
  intros s1 a s2 H1 _ Hs. by apply (ob_step_wf channels w0 s1 a).
Qed.

Lemma ob_reachable_wf channels w0 sched s : run_steps (outbound_actor_step channels) sched (ob_initial w0) = Some s -> ob_wf channels w0 s.
Proof. apply ob_run_wf. by split. Qed.

(** With the queue closed the thread takes two steps for each message. *)
Lemma dispatcher_drains channels w0 s : ob_wf channels w0 s -> Fifo.is_closed (ob_queue s) = true -> ob_pc s = ObReceive ->
  exists s', run_steps (outbound_actor_step channels) (replicate (2 * length (Fifo.pending (ob_queue s)) + 2) Dispatcher) s = Some s' /\
    ob_pc s' = ObEnded /\ ob_sent s' = ob_accepted s /\ ob_accepted s' = ob_accepted s.
Proof.
  destruct s as [[l c] pc w acc sent]. cbn. intros Hw -> ->. revert w sent Hw. induction l as [|m l IH]; intros w sent Hw.
  - cbn. eexists. split; [done|]. cbn. split_and!; [done| |done]. destruct Hw as [H _ _]. cbn in H. by rewrite app_nil_r in H.
  - replace (length (m :: l) + (length (m :: l) + 0) + 2) with (S (S (length l + (length l + 0) + 2))) by (cbn; lia). cbn [replicate run_steps outbound_actor_step dispatcher_step ob_pc Fifo.receive Fifo.pending Fifo.is_closed ob_queue mbind option_bind].
    apply IH. apply (ob_step_wf channels w0 (mkOutbound (Fifo.mkFifo l true) (ObSend m) w acc sent) Dispatcher); [|done].
    destruct Hw as [H1 H2 _]. by split.
Qed.
End Dispatch.
Arguments OutboundState : clear implicits.

(** ** The property *)

Section Spec.
Context {W : Type}.

(** C18: Under every interleaving of the senders, of the closing of the bus and
    of the dispatcher, the messages the outbound queue accepted are, in order,
    those handed over, the one in hand and those in the queue; the channels are
    in the state that giving each of the former, in order, once to every
    channel that wants it and to no other makes ([send_to_all], with [wants]:
    all channels for a broadcast, else the channel of that name, the console
    for the name cli); and once the queue is closed the thread ends after two
    steps per message, with every accepted message handed over. *)
Theorem outbound_dispatched (channels : list (Channel W)) (w0 : W) (sched : list ob_actor) (s : OutboundState W) :
  run_steps (outbound_actor_step channels) sched (ob_initial w0) = Some s ->
  ob_accepted s = ob_sent s ++ in_hand s ++ Fifo.pending (ob_queue s) /\ ob_world s = fold_left (send_to_all channels) (ob_sent s) w0 /\
  (Fifo.is_closed (ob_queue s) = true -> exists n s', n <= 2 * length (Fifo.pending (ob_queue s)) + 3 /\
     run_steps (outbound_actor_step channels) (replicate n Dispatcher) s = Some s' /\ ob_pc s' = ObEnded /\ ob_sent s' = ob_accepted s /\
     ob_world s' = fold_left (send_to_all channels) (ob_accepted s) w0).
Proof.
  intros Hr. pose proof (ob_reachable_wf channels w0 sched s Hr) as Hw. pose proof Hw as [H1 H2 H3].
  assert (forall (w : W) ms, fold_left (deliver channels) ms w = fold_left (send_to_all channels) ms w) as Hall.
  { intros w ms. revert w. induction ms as [|m ms IH]; intros w; [done|]. cbn [fold_left]. by rewrite deliver_send_to_all. }
  split_and!; [done|by rewrite <-Hall|].
  enough (Fifo.is_closed (ob_queue s) = true -> exists n s', n <= 2 * length (Fifo.pending (ob_queue s)) + 3 /\
     run_steps (outbound_actor_step channels) (replicate n Dispatcher) s = Some s' /\ ob_pc s' = ObEnded /\ ob_sent s' = ob_accepted s) as He.
  { intros Hc. destruct (He Hc) as (n & s' & Hn & Hs & Hp & Hsent). exists n, s'. split_and!; [done..|]. rewrite <-Hall, <-Hsent.
    apply (obw_world _ _ _ (ob_run_wf channels w0 _ _ _ Hw Hs)). }
  intros Hc. destruct (ob_pc s) as [| |m|] eqn:E.
  - destruct (dispatcher_drains channels w0 s Hw Hc E) as (s' & Hs & A & B & _). exists (2 * length (Fifo.pending (ob_queue s)) + 2), s'. split_and!; [lia|done..].
  - exists 1. eexists. cbn. unfold dispatcher_step. rewrite E, Hc. cbn. split_and!; [lia|done|done|]. destruct H3 as [H3 _]. rewrite H1, H3. unfold in_hand. rewrite E. cbn. by rewrite app_nil_r.
  - destruct (dispatcher_step channels s) as [s1|] eqn:Es; [|unfold dispatcher_step in Es; by rewrite E in Es].
    pose proof (ob_step_wf channels w0 s Dispatcher s1 Hw Es) as Hw1. unfold dispatcher_step in Es. rewrite E in Es. apply (inj Some) in Es.
    destruct (dispatcher_drains channels w0 s1 Hw1) as (s' & Hs & A & B & _); [by subst s1|by subst s1|].
    exists (S (2 * length (Fifo.pending (ob_queue s)) + 2)), s'. split; [lia|]. cbn [replicate run_steps outbound_actor_step]. unfold dispatcher_step at 1. rewrite E. cbn [mbind option_bind].
    subst s1. by split_and!.
  - exists 0, s. cbn. split_and!; [lia|done|done|]. destruct H3 as [H3 _]. rewrite H1, H3. unfold in_hand. rewrite E. cbn. by rewrite app_nil_r.
Qed.

(** A list of channels that promise to be selective. *)
Definition all_selective (l : list (Channel W * list cstr)) : Prop := Forall (fun '(ch, names) => Selective ch names) l.

(** A message for a channel reaches that channel alone: with selective
    channels of different names only the one whose name it has is sent to and
    can act, and the alias cli goes to the console. A broadcast, which is sent
    to every channel, is ignored by all of them. *)
Theorem dispatch_targets (l : list (Channel W * list cstr)) (m : OutboundMessage) (w : W) : all_selective l ->
  NoDup (chn_name <$> l.*1) ->
  (Forall (fun '(_, names) => out_channel m ∉ names) l -> deliver l.*1 w m = w) /\
  (forall ch send, is_broadcast m = false -> out_channel m <> $"cli" -> ch ∈ l.*1 -> chn_name ch = out_channel m -> chn_send ch = Some send -> dispatch l.*1 m w 0 = (send m w, 1)).
Proof.
  intros Hs Hnd. split.
  - intros Hf. revert w. induction l as [|[ch names] l IH]; intros w; [done|]. apply Forall_cons in Hs as [Hs1 Hs], Hf as [Hf1 Hf].
    rewrite fmap_cons, deliver_cons. cbn [fst]. rewrite fmap_cons in Hnd. apply NoDup_cons in Hnd as [_ Hnd].
    assert (match chn_send ch with Some send => if addressed m ch then send m w else w | None => w end = w) as ->; [|by apply IH].
    destruct (chn_send ch) as [send|] eqn:E; [|done]. destruct (addressed m ch); [|done]. by apply (Hs1 send).
  - intros ch send Hb Hcli Hin Hn Hsend. clear Hs. set (cs := l.*1) in *. clearbody cs. clear l.
    assert (forall c : Channel W, addressed m c = str_eq (chn_name c) (out_channel m)) as Ha.
    { intros c. unfold addressed. rewrite Hb. cbn [orb]. unfold str_eq at 2. rewrite bool_decide_eq_false_2 by done. cbn. by rewrite orb_false_r. }
    assert (forall (cs : list (Channel W)) w n, out_channel m ∉ (chn_name <$> cs) -> dispatch cs m w n = (w, n)) as Hskip.
    { induction cs0 as [|c r IH]; intros w1 n Hni; [done|]. rewrite fmap_cons in Hni. apply not_elem_of_cons in Hni as [Hne Hni]. cbn [dispatch].
      rewrite Ha. unfold str_eq. rewrite bool_decide_eq_false_2 by congruence. destruct (chn_send c); by apply IH. }
    induction cs as [|c r IH]; [by apply not_elem_of_nil in Hin|]. rewrite fmap_cons in Hnd. apply NoDup_cons in Hnd as [Hni Hnd].
    apply elem_of_cons in Hin as [->|Hin].
    + cbn [dispatch]. rewrite Hsend, Ha. unfold str_eq. rewrite bool_decide_eq_true_2 by done. apply Hskip. by rewrite <-Hn.
    + cbn [dispatch]. rewrite Ha. unfold str_eq. rewrite bool_decide_eq_false_2; [destruct (chn_send c); by apply IH|].
      intros E. apply Hni. rewrite E, <-Hn. by apply list_elem_of_fmap_2.
Qed.
End Spec.

(** ** The console as a channel: it writes to the terminal *)

Definition console_channel : Channel cstr := mkChannel $"console" (Some (fun m w => w ++ console_send m)).

#[export] Instance console_selective : Selective console_channel [ $"console"; $"cli" ].
Proof.
  intros send m w [= <-] Hm. unfold console_send, str_eq. rewrite !not_elem_of_cons in Hm. destruct Hm as (H1 & H2 & _).
  rewrite !bool_decide_eq_false_2 by done. apply app_nil_r.
Qed.

Definition demo_out (channel content : cstr) : OutboundMessage := outbound_message_new (Some channel) (Some $"local_user") (Some content).
Definition quiet_channel : Channel cstr := mkChannel $"quiet" (Some (fun m w => if str_eq (out_channel m) $"quiet" then w ++ $"!" else w)).

#[export] Instance quiet_selective : Selective quiet_channel [ $"quiet" ].
Proof.
  intros send m w [= <-] Hm. unfold str_eq. rewrite not_elem_of_cons in Hm. destruct Hm as (H1 & _). by rewrite bool_decide_eq_false_2.
Qed.

Definition demo_channels : list (Channel cstr * list cstr) := [(console_channel, [ $"console"; $"cli" ]); (quiet_channel, [ $"quiet" ])].

Lemma demo_selective : all_selective demo_channels.
Proof. repeat constructor; apply _. Qed.

Lemma dispatch_targets_witness :
  deliver demo_channels.*1 [] (demo_out $"*" $"hello") = [] /\ dispatch demo_channels.*1 (demo_out $"quiet" $"x") [] 0 = ($"!", 1).
Proof.
  split.
  - apply (dispatch_targets demo_channels (demo_out $"*" $"hello") [] demo_selective); [|repeat constructor]; apply (bool_decide_unpack _); by vm_compute.
  - refine (proj2 (dispatch_targets demo_channels (demo_out $"quiet" $"x") [] demo_selective _) quiet_channel _ _ _ _ _ eq_refl);
      [apply (bool_decide_unpack _); by vm_compute|done|by vm_compute|by right; left|done].
Defined.

Definition demo_schedule : list ob_actor := [Sender (demo_out $"quiet" $"x"); Dispatcher; Sender (demo_out $"cli" $"hi"); Closer; Sender (demo_out $"cli" $"late"); Dispatcher].

Lemma outbound_dispatched_witness : exists s, run_steps (outbound_actor_step demo_channels.*1) demo_schedule (ob_initial []) = Some s /\
  ob_accepted s = [demo_out $"quiet" $"x"; demo_out $"cli" $"hi"] /\ ob_accepted s = ob_sent s ++ in_hand s ++ Fifo.pending (ob_queue s) /\
  ob_world s = fold_left (send_to_all demo_channels.*1) (ob_sent s) [] /\
  (Fifo.is_closed (ob_queue s) = true -> exists n s', n <= 2 * length (Fifo.pending (ob_queue s)) + 3 /\
     run_steps (outbound_actor_step demo_channels.*1) (replicate n Dispatcher) s = Some s' /\ ob_pc s' = ObEnded /\ ob_sent s' = ob_accepted s /\
     ob_world s' = fold_left (send_to_all demo_channels.*1) (ob_accepted s) []).
Proof.
  eexists. split; [by vm_compute|]. split; [by vm_compute|]. apply (outbound_dispatched demo_channels.*1 [] demo_schedule). by vm_compute.
Defined.
