(* ===== verification/ChatChannels.v ===== *)
(** The small channel plugins: telegram, slack, discord, email and stdout of
    [src/plugins/channels]. [answer] is the network: what the connection of
    the n-th attempt gives ([None]: it cannot be made). An operation of a
    channel gives the requests tried so far; [None] is a thread that waits for
    ever. Allocations succeed. *)
From Stdlib Require Import Sorting.Sorted.
From S2P Require Import Prelude CStr Json Config Message ProviderAsync Protobuf DingTalkWs Mongoose MongooseHttp ChannelHttp Dispatcher.
Open Scope nat_scope.

Definition lines (l : list cstr) : cstr := l ≫= fun s => s ++ crlf.

(** [valuestring] of any item; [%s] writes NULL as (null). *)
Definition item_valuestring (j : json) : option cstr := match j with JStr s => Some s | _ => None end.

Section Net.
Context (answer : nat -> WebRequest -> option (list poll)).

(** Connect, send, wait: [Some None] when the connection cannot be made. The
    log has the requests that were tried. *)
Definition exchange (r : WebRequest) (log : list WebRequest) : option (option HttpChunk * list WebRequest) :=
  match answer (length log) r with
  | None => Some (None, log ++ [r])
  | Some polls => ms ← poll_until_done (http_fn alloc_ok) polls empty_chunk; Some (Some ms, log ++ [r])
  end.

(** ** Telegram *)

Record TelegramChannelData := mkTelegram { tg_running : bool; tg_thread : bool; tg_last_update_id : Z; tg_token : cstr; tg_dns : ChannelDns }.

(** [telegram_init]; [None] is [false]. *)
Definition telegram_init (config : Config) : option TelegramChannelData :=
  match plugin_section config $"telegram_channel" with
  | None => None
  | Some s => match section_text s $"token" with [] => None | t => Some (mkTelegram false false 0 t (channel_dns config)) end
  end.

Definition telegram_start (d : TelegramChannelData) : TelegramChannelData := mkTelegram true true (tg_last_update_id d) (tg_token d) (tg_dns d).
(** [telegram_stop] waits for the thread. *)
Definition telegram_stop (d : TelegramChannelData) : TelegramChannelData := mkTelegram false false (tg_last_update_id d) (tg_token d) (tg_dns d).
Definition set_last_update (id : Z) (d : TelegramChannelData) : TelegramChannelData := mkTelegram (tg_running d) (tg_thread d) id (tg_token d) (tg_dns d).

Definition telegram_url (d : TelegramChannelData) (method : cstr) : cstr :=
  truncate_to 512 ($"https://api.telegram.org/bot" ++ tg_token d ++ $"/" ++ method).
Definition updates_url (d : TelegramChannelData) : cstr :=
  telegram_url d ($"getUpdates?offset=" ++ fmt_d (tg_last_update_id d + 1) ++ $"&timeout=30").

Definition get_request (url : cstr) : WebRequest :=
  mkWebRequest url false (lines [$"GET " ++ mg_url_uri url ++ $" HTTP/1.0"; $"Host: " ++ mg_url_host url; []]).

(** The text of a chat id; [None]: a number outside of [long long]. *)
Definition chat_id_text (j : json) : option cstr :=
  match j with
  | JNum n => z ← int64_of_num n; Some (truncate_to 64 (fmt_d z))
  | _ => Some (truncate_to 64 (default $"(null)" (item_valuestring j)))
  end.

(** One item of the result: the new last id, and the message. *)
Definition telegram_update (last_id : Z) (item : json) : option (Z * option InboundMessage) :=
  let last_id := match get_object_item (Some item) $"update_id" with Some u => item_valueint u | None => last_id end in
  match get_object_item (Some item) $"message" with
  | None => Some (last_id, None)
  | Some message =>
      match get_object_item (Some message) $"text", get_object_item (get_object_item (Some message) $"chat") $"id" with
      | Some text, Some id => chat ← chat_id_text id; Some (last_id, Some (inbound_message_new (Some $"telegram") (Some chat) (item_valuestring text) None))
      | _, _ => Some (last_id, None)
      end
  end.

Fixpoint telegram_updates (last_id : Z) (items : list json) : option (Z * list InboundMessage) :=
  match items with
  | [] => Some (last_id, [])
  | i :: r =>
      '(id, m) ← telegram_update last_id i;
      '(id', ms) ← telegram_updates id r;
      Some (id', (match m with Some m => [m] | None => [] end) ++ ms)
  end.

(** One round of [telegram_poller]: the messages it sends to the bus. *)
Definition telegram_round (d : TelegramChannelData) (log : list WebRequest) : option (TelegramChannelData * list InboundMessage * list WebRequest) :=
  '(r, log1) ← exchange (get_request (updates_url d)) log;
  match r with
  | None => Some (d, [], log1)
  | Some ms =>
      match (match hc_memory ms with [] => None | m => cJSON_Parse (c_string m) end) with
      | None => Some (d, [], log1)
      | Some j =>
          match is_array (get_object_item (Some j) $"result") with
          | None => Some (d, [], log1)
          | Some items => '(id, msgs) ← telegram_updates (tg_last_update_id d) items; Some (set_last_update id d, msgs, log1)
          end
      end
  end.

Definition post_request (url : cstr) (headers : list cstr) (json_str : cstr) : WebRequest :=
  mkWebRequest url false
    (lines ([$"POST " ++ mg_url_uri url ++ $" HTTP/1.0"; $"Host: " ++ mg_url_host url] ++ headers ++
            [$"Content-Length: " ++ fmt_d (wrap_s 32 (Z.of_nat (length json_str))); []]) ++ json_str).

Definition printed_body (kvs : list (cstr * json)) : cstr := default [] (cJSON_PrintUnformatted (JObj kvs)).

Definition telegram_send (d : TelegramChannelData) (msg : OutboundMessage) (log : list WebRequest) : option (list WebRequest) :=
  if str_eq (out_channel msg) $"telegram"
  then snd <$> exchange (post_request (telegram_url d $"sendMessage") [$"Content-Type: application/json"]
                 (printed_body [($"chat_id", JStr (out_chat_id msg)); ($"text", JStr (out_content msg))])) log
  else Some log.

(** ** Slack *)

Record SlackChannelData := mkSlack { sk_running : bool; sk_bot_token : option cstr; sk_dns : ChannelDns }.

Definition slack_init (config : Config) : SlackChannelData :=
  mkSlack false ((fun s => section_text s $"bot_token") <$> plugin_section config $"slack_channel") (channel_dns config).
Definition slack_start (d : SlackChannelData) : SlackChannelData :=
  match sk_bot_token d with None | Some [] => d | _ => mkSlack true (sk_bot_token d) (sk_dns d) end.
Definition slack_stop (d : SlackChannelData) : SlackChannelData := mkSlack false (sk_bot_token d) (sk_dns d).

Definition slack_send (d : SlackChannelData) (msg : OutboundMessage) (log : list WebRequest) : option (list WebRequest) :=
  match sk_bot_token d with
  | None | Some [] => Some log
  | Some token =>
      if str_eq (out_channel msg) $"slack"
      then snd <$> exchange (post_request $"https://slack.com/api/chat.postMessage"
                     [$"Authorization: Bearer " ++ token; $"Content-Type: application/json; charset=utf-8"]
                     (printed_body [($"channel", JStr (out_chat_id msg)); ($"text", JStr (out_content msg))])) log
      else Some log
  end.

(** ** Discord *)

Record DiscordChannelData := mkDiscord { dc_running : bool; dc_token : option cstr; dc_channel_id : option cstr; dc_dns : ChannelDns }.

Definition discord_init (config : Config) : DiscordChannelData :=
  let s := plugin_section config $"discord_channel" in
  mkDiscord false ((fun s => section_text s $"token") <$> s) ((fun s => section_text s $"channel_id") <$> s) (channel_dns config).
Definition discord_start (d : DiscordChannelData) : DiscordChannelData :=
  match dc_token d with None | Some [] => d | _ => mkDiscord true (dc_token d) (dc_channel_id d) (dc_dns d) end.
Definition discord_stop (d : DiscordChannelData) : DiscordChannelData := mkDiscord false (dc_token d) (dc_channel_id d) (dc_dns d).

Definition discord_send (d : DiscordChannelData) (msg : OutboundMessage) (log : list WebRequest) : option (list WebRequest) :=
  match dc_token d with
  | None | Some [] => Some log
  | Some token =>
      if str_eq (out_channel msg) $"discord"
      then snd <$> exchange (post_request (truncate_to 512 ($"https://discord.com/api/v10/channels/" ++ out_chat_id msg ++ $"/messages"))
                     [$"Authorization: Bot " ++ token; $"Content-Type: application/json"; $"User-Agent: Primagen/1.0"]
                     (printed_body [($"content", JStr (out_content msg))])) log
      else Some log
  end.
End Net.

(** ** Email: nothing is sent or received yet *)

Record EmailChannelData := mkEmail { em_running : bool; em_thread : bool; em_imap : option (cstr * cstr * cstr); em_smtp : option (cstr * cstr * cstr) }.

Definition email_init (config : Config) : EmailChannelData :=
  let s := plugin_section config $"email_channel" in
  mkEmail false false ((fun s => (section_text s $"imap_host", section_text s $"imap_user", section_text s $"imap_pass")) <$> s)
    ((fun s => (section_text s $"smtp_host", section_text s $"smtp_user", section_text s $"smtp_pass")) <$> s).
Definition imap_host (d : EmailChannelData) : cstr := match em_imap d with Some (h, _, _) => h | None => [] end.
Definition email_start (d : EmailChannelData) : EmailChannelData :=
  if bool_decide (imap_host d = []) then d else mkEmail true true (em_imap d) (em_smtp d).
(** [email_stop] joins the thread whenever there is a host; [None]: the thread
    was never started, so what is joined is not a thread. *)
Definition email_stop (d : EmailChannelData) : option EmailChannelData :=
  let d' := mkEmail false (em_thread d) (em_imap d) (em_smtp d) in
  if bool_decide (imap_host d = []) then Some d'
  else if em_thread d then Some (mkEmail false false (em_imap d) (em_smtp d)) else None.
(** [email_poll_thread]: sleeps of a minute while [running]. *)
Fixpoint email_poll_thread (running : list bool) : nat := match running with true :: r => S (email_poll_thread r) | _ => 0 end.
(** Whether an error is logged; nothing is sent. *)
Definition email_send (d : EmailChannelData) (msg : OutboundMessage) : bool :=
  match em_smtp d with
  | None | Some ([], _, _) => false
  | Some _ => str_eq (out_channel msg) $"email"
  end.

(** ** Stdout *)

Record StdoutChannelData := mkStdout { so_running : bool; so_prefix : option cstr }.
Definition stdout_init : StdoutChannelData := mkStdout false (Some $"[Primagen]").
Definition stdout_start (d : StdoutChannelData) : StdoutChannelData := mkStdout true (so_prefix d).
Definition stdout_stop (d : StdoutChannelData) : StdoutChannelData := mkStdout false (so_prefix d).
Definition stdout_send (d : StdoutChannelData) (msg : OutboundMessage) : cstr :=
  if str_eq (out_channel msg) $"stdout" then [ch_nl] ++ default $"[Stdout]" (so_prefix d) ++ out_content msg ++ [ch_nl] else [].

(** ** The channels and the dispatcher *)

Section Channels.
Context (answer : nat -> WebRequest -> option (list poll)).

Definition web_channel (name : cstr) (send : OutboundMessage -> list WebRequest -> option (list WebRequest)) : Channel (option (list WebRequest)) :=
  mkChannel name (Some (fun m w => log ← w; send m log)).

Definition telegram_channel d := web_channel $"telegram" (telegram_send answer d).
Definition slack_channel d := web_channel $"slack" (slack_send answer d).
Definition discord_channel d := web_channel $"discord" (discord_send answer d).

Lemma web_selective name send : (forall m log, out_channel m <> name -> send m log = Some log) -> Selective (web_channel name send) [name].
Proof.
  intros H s m w [= <-] Hm. rewrite not_elem_of_cons in Hm. destruct Hm as [Hm _]. destruct w as [log|]; [|done]. cbn. by apply H.
Qed.

#[export] Instance telegram_selective d : Selective (telegram_channel d) [ $"telegram" ].
Proof. apply web_selective. intros m log H. unfold telegram_send, str_eq. by rewrite bool_decide_eq_false_2. Qed.
#[export] Instance slack_selective d : Selective (slack_channel d) [ $"slack" ].
Proof. apply web_selective. intros m log H. unfold slack_send, str_eq. rewrite bool_decide_eq_false_2 by done. by destruct (sk_bot_token d) as [[|]|]. Qed.
#[export] Instance discord_selective d : Selective (discord_channel d) [ $"discord" ].
Proof. apply web_selective. intros m log H. unfold discord_send, str_eq. rewrite bool_decide_eq_false_2 by done. by destruct (dc_token d) as [[|]|]. Qed.
End Channels.

Definition stdout_channel (d : StdoutChannelData) : Channel cstr := mkChannel $"stdout" (Some (fun m w => w ++ stdout_send d m)).
#[export] Instance stdout_selective d : Selective (stdout_channel d) [ $"stdout" ].
Proof.
  intros send m w [= <-] Hm. rewrite not_elem_of_cons in Hm. destruct Hm as [Hm _]. unfold stdout_send, str_eq. rewrite bool_decide_eq_false_2 by done. apply app_nil_r.
Qed.

(** ** Telegram: every update is delivered once *)

Record Update := mkUpdate { up_id : Z; up_chat : Z; up_text : cstr }.

Definition update_json (u : Update) : json :=
  JObj [($"update_id", JNum (num_of_Z (up_id u)));
        ($"message", JObj [($"chat", JObj [($"id", JNum (num_of_Z (up_chat u)))]); ($"text", JStr (up_text u))])].
Definition updates_json (l : list Update) : list (cstr * json) := [($"ok", JBool true); ($"result", JArr (update_json <$> l))].

Definition update_ok (u : Update) : Prop := (0 < up_id u <= INT_MAX)%Z /\ (Z.abs (up_chat u) < 10 ^ 15)%Z /\ str_ok (up_text u) = true.
Definition update_message (u : Update) : InboundMessage := inbound_message_new (Some $"telegram") (Some (fmt_d (up_chat u))) (Some (up_text u)) None.

(** The Bot API: an update is sent again until a request asks for a later one;
    at most [batch] of those not yet confirmed, the oldest first. *)
Definition server_batch (offset : Z) (batch : nat) (l : list Update) : list Update := take batch (List.filter (fun u => offset <=? up_id u)%Z l).

(** What the service reads in the address: the number after [?offset=]. *)
Definition request_offset (r : WebRequest) : Z :=
  match strchr (wr_url r) "?"%char with Some i => fst (strtol (drop (i + 8) (wr_url r))) | None => 0 end.

(** A token that leaves the address whole. *)
Definition token_ok (t : cstr) : Prop := length t <= 300 /\ "?"%char ∉ t.

Lemma num_ok_small z : (Z.abs z < 10 ^ 15)%Z -> num_ok (num_of_Z z) = true.
Proof. intros H. unfold num_ok. cbn [n_exp n_mant num_of_Z]. apply orb_true_iff. left. apply andb_true_iff. split; [done|by apply Z.ltb_lt]. Qed.

Lemma fmt_d_long_length z : (Z.abs z < 10 ^ 15)%Z -> length (fmt_d z) < 63.
Proof.
  intros H. change (10 ^ 15)%Z with 1000000000000000%Z in H. assert (forall n, (n < 1000000000000000)%N -> length (fmt_u n) <= 15) as Hu.
  { intros n Hn. apply (fmt_u_length n 14). change (10 ^ N.of_nat 15)%N with 1000000000000000%N. lia. }
  unfold fmt_d. destruct (z <? 0)%Z.
  - cbn [length]. specialize (Hu (Z.to_N (- z))). lia.
  - specialize (Hu (Z.to_N z)). lia.
Qed.

Lemma updates_offset d : token_ok (tg_token d) -> (0 <= tg_last_update_id d <= INT_MAX)%Z -> request_offset (get_request (updates_url d)) = (tg_last_update_id d + 1)%Z.
Proof.
  intros [Hlen Hq] Hid. unfold request_offset, get_request, updates_url, telegram_url. cbn [wr_url].
  assert (length (fmt_d (tg_last_update_id d + 1)) < 63) as Hn by (apply fmt_d_long_length; change (10 ^ 15)%Z with 1000000000000000%Z; unfold INT_MAX in Hid; lia).
  rewrite truncate_to_id by (rewrite !length_app; change (length $"https://api.telegram.org/bot") with 28; change (length $"getUpdates?offset=") with 18; change (length $"/") with 1; change (length $"&timeout=30") with 11; lia).
  set (a := $"https://api.telegram.org/bot" ++ tg_token d ++ $"/getUpdates").
  assert ($"https://api.telegram.org/bot" ++ tg_token d ++ $"/" ++ $"getUpdates?offset=" ++ fmt_d (tg_last_update_id d + 1) ++ $"&timeout=30" =
    a ++ "?"%char :: $"offset=" ++ fmt_d (tg_last_update_id d + 1) ++ $"&timeout=30") as -> by (unfold a; by rewrite <-!app_assoc).
  rewrite strchr_app.
  - change 8 with (length $"?offset="). rewrite <-length_app.
    change ("?"%char :: $"offset=" ++ fmt_d (tg_last_update_id d + 1) ++ $"&timeout=30") with ($"?offset=" ++ fmt_d (tg_last_update_id d + 1) ++ $"&timeout=30").
    rewrite app_assoc, drop_app_length, strtol_fmt_d; [done| |]; unfold INT_MAX, LONG_MIN, LONG_MAX in *; [lia|done].
  - unfold a. rewrite !elem_of_app. intros [H|[H|H]]; [|done|]; revert H; apply (bool_decide_unpack (_ ∉ _)); by vm_compute.
Qed.

Lemma updates_json_ok l : Forall update_ok l -> json_ok 0 (JObj (updates_json l)) = true.
Proof.
  intros H. unfold updates_json. cbn [json_ok forallb andb fst snd]. assert (forallb (json_ok 2) (update_json <$> l) = true) as ->; [|by vm_compute].
  induction H as [|u l (Hi & Hc & Ht) _ IH]; [done|]. rewrite fmap_cons. cbn [forallb]. rewrite IH, andb_true_r. unfold update_json.
  cbn -[str_ok num_ok num_of_Z]. rewrite (num_ok_small (up_id u)), (num_ok_small (up_chat u) Hc), Ht; [by vm_compute|]. change (10 ^ 15)%Z with 1000000000000000%Z. unfold INT_MAX in Hi. lia.
Qed.

Lemma telegram_update_json last_id u : update_ok u -> telegram_update last_id (update_json u) = Some (up_id u, Some (update_message u)).
Proof.
  intros (Hi & Hc & Ht). unfold telegram_update, update_json. eval_member. cbn [option_bind mbind]. eval_member. unfold chat_id_text. rewrite (int64_expires _ Hc). cbn [mbind option_bind].
  rewrite truncate_to_id by (pose proof (fmt_d_long_length _ Hc); lia). unfold item_valueint, valueint. rewrite num_trunc_Z. unfold INT_MAX in *.
  rewrite Z.min_r, Z.max_r by lia. reflexivity.
Qed.

(** The id after a batch. *)
Definition last_of (d : Z) (l : list Update) : Z := default d (up_id <$> last l).

Lemma telegram_updates_json l last_id : Forall update_ok l -> telegram_updates last_id (update_json <$> l) = Some (last_of last_id l, update_message <$> l).
Proof.
  intros H. revert last_id. induction H as [|u l Hu _ IH]; intros last_id; [done|]. rewrite fmap_cons. cbn [telegram_updates]. rewrite telegram_update_json by done.
  cbn [mbind option_bind]. rewrite IH. cbn. unfold last_of. f_equal. f_equal. destruct l as [|v l]; [done|]. by rewrite last_cons_cons; destruct (last (v :: l)) eqn:E; [|by apply last_None in E].
Qed.

Section Telegram.
Context (answer : nat -> WebRequest -> option (list poll)).

(** One round that gets its answer. *)
Lemma telegram_round_answered d log polls l : answer (length log) (get_request (updates_url d)) = Some polls -> Forall update_ok l ->
  answers_with polls (printed_body (updates_json l)) ->
  telegram_round answer d log = Some (set_last_update (last_of (tg_last_update_id d) l) d, update_message <$> l, log ++ [get_request (updates_url d)]).
Proof.
  intros Ha Hl Hp. destruct (poll_answer _ _ Hp) as (ms & Hm & Hb). unfold telegram_round, exchange. rewrite Ha, Hm. cbn [mbind option_bind].
  destruct (printed_object _ (updates_json_ok l Hl)) as (t & Ht & _ & Hcs & Hparse). unfold printed_body in Hb. rewrite Ht in Hb. cbn [default] in Hb. unfold id in Hb.
  rewrite Hb, Hcs, Hparse. unfold updates_json. eval_member. cbn [is_array]. by rewrite telegram_updates_json.
Qed.

(** A connection that gives no message: it failed ([UeError] among the events),
    or it was closed, or nothing comes any more. *)
Definition silent (polls : list poll) : Prop := Forall (fun e => match e with UeMsg _ _ => False | _ => True end) (concat polls).

Definition failed (evs : list user_event) : bool := existsb (fun e => match e with UeError => true | _ => false end) evs.

Lemma fold_silent evs b : Forall (fun e => match e with UeMsg _ _ => False | _ => True end) evs ->
  fold_left (http_fn alloc_ok) evs (mkHttpChunk [] b) = mkHttpChunk [] (b || failed evs).
Proof.
  intros H. revert b. induction H as [|e evs He _ IH]; intros b; [by rewrite orb_false_r|]. cbn [fold_left failed existsb]. fold (failed evs).
  destruct e; try done; cbn [http_fn hc_memory]; rewrite IH; by destruct b.
Qed.

Lemma poll_silent (polls : list poll) : silent polls ->
  poll_until_done (http_fn alloc_ok) polls empty_chunk = if failed (concat polls) then Some (mkHttpChunk [] true) else None.
Proof.
  unfold silent, failed. induction polls as [|evs polls IH]; [done|]. cbn [concat]. intros [H1 H2]%Forall_app. cbn [poll_until_done hc_done empty_chunk].
  rewrite existsb_app. change empty_chunk with (mkHttpChunk [] false). rewrite fold_silent by done. cbn [orb]. fold (failed evs).
  destruct (failed evs); [by destruct polls|by apply IH].
Qed.

(** The answer is no list of updates: an error of the service, say. *)
Definition no_updates (body : cstr) : Prop :=
  match (match body with [] => None | m => cJSON_Parse (c_string m) end) with
  | Some j => is_array (get_object_item (Some j) $"result") = None
  | None => True
  end.

Lemma telegram_round_failed d log polls : answer (length log) (get_request (updates_url d)) = Some polls -> silent polls ->
  telegram_round answer d log = if failed (concat polls) then Some (d, [], log ++ [get_request (updates_url d)]) else None.
Proof. intros Ha Hs. unfold telegram_round, exchange. rewrite Ha, (poll_silent polls Hs). by destruct (failed _). Qed.

Lemma telegram_round_refused d log polls body : answer (length log) (get_request (updates_url d)) = Some polls -> answers_with polls body -> no_updates body ->
  telegram_round answer d log = Some (d, [], log ++ [get_request (updates_url d)]).
Proof.
  intros Ha Hp Hn. destruct (poll_answer _ _ Hp) as (ms & Hm & Hb). unfold telegram_round, exchange. rewrite Ha, Hm. cbn [mbind option_bind]. rewrite Hb. unfold no_updates in Hn.
  destruct body as [|b body]; [done|]. destruct (cJSON_Parse _) as [j|]; [|done]. by rewrite Hn.
Qed.

(** The channel and the service: updates arrive with growing ids, and a round
    that returns either got the batch the offset asks for, or another answer, or
    a connection that failed or gave no message, or none. *)
Inductive telegram_run (d0 : TelegramChannelData) : list Update -> TelegramChannelData -> list InboundMessage -> list WebRequest -> Prop :=
  | tr_start : telegram_run d0 [] d0 [] []
  | tr_arrive all d msgs log u : telegram_run d0 all d msgs log -> update_ok u -> Forall (fun v => up_id v < up_id u)%Z all -> telegram_run d0 (all ++ [u]) d msgs log
  | tr_round all d msgs log batch polls d' ms log' : telegram_run d0 all d msgs log -> answer (length log) (get_request (updates_url d)) = Some polls ->
      answers_with polls (printed_body (updates_json (server_batch (request_offset (get_request (updates_url d))) batch all))) ->
      telegram_round answer d log = Some (d', ms, log') -> telegram_run d0 all d' (msgs ++ ms) log'
  | tr_refused all d msgs log body polls d' ms log' : telegram_run d0 all d msgs log -> answer (length log) (get_request (updates_url d)) = Some polls ->
      answers_with polls body -> no_updates body -> telegram_round answer d log = Some (d', ms, log') -> telegram_run d0 all d' (msgs ++ ms) log'
  | tr_silent all d msgs log polls d' ms log' : telegram_run d0 all d msgs log -> answer (length log) (get_request (updates_url d)) = Some polls ->
      silent polls -> telegram_round answer d log = Some (d', ms, log') -> telegram_run d0 all d' (msgs ++ ms) log'
  | tr_fail all d msgs log d' ms log' : telegram_run d0 all d msgs log -> answer (length log) (get_request (updates_url d)) = None ->
      telegram_round answer d log = Some (d', ms, log') -> telegram_run d0 all d' (msgs ++ ms) log'.

(** The updates of [p] were delivered, those of [c] were not. *)
Record run_inv (p c : list Update) (d : TelegramChannelData) (msgs : list InboundMessage) : Prop := {
  ri_ok : Forall update_ok (p ++ c);
  ri_token : token_ok (tg_token d);
  ri_msgs : msgs = update_message <$> p;
  ri_last : tg_last_update_id d = last_of 0 p;
  ri_old : Forall (fun u => up_id u <= tg_last_update_id d)%Z p;
  ri_new : Forall (fun u => tg_last_update_id d < up_id u)%Z c;
  ri_sorted : StronglySorted (fun u v => up_id u < up_id v)%Z c;
}.

Lemma last_of_range p : Forall update_ok p -> (0 <= last_of 0 p <= INT_MAX)%Z.
Proof.
  intros H. unfold last_of. destruct (last p) as [u|] eqn:E; [|unfold INT_MAX; cbn; lia].
  apply last_Some in E as [q ->]. apply Forall_app in H as [_ [(Hi & _) _]%Forall_cons]. cbn. lia.
Qed.

Lemma server_batch_next p c d msgs batch : run_inv p c d msgs -> server_batch (request_offset (get_request (updates_url d))) batch (p ++ c) = take batch c.
Proof.
  intros [[Hok _]%Forall_app Htok _ Hl Ho Hn _]. rewrite updates_offset; [|done|rewrite Hl; by apply last_of_range]. clear Hok Hl. unfold server_batch. f_equal. rewrite List.filter_app.
  assert (List.filter (fun u => tg_last_update_id d + 1 <=? up_id u)%Z p = []) as ->.
  { induction Ho as [|u l Hu _ IH]; [done|]. cbn [List.filter]. destruct (Z.leb_spec (tg_last_update_id d + 1) (up_id u)); [lia|done]. }
  induction Hn as [|u l Hu _ IH]; [done|]. cbn [List.filter app] in IH |- *. rewrite (proj2 (Z.leb_le _ _)) by lia. by f_equal.
Qed.

Lemma last_of_app d l1 l2 : last_of d (l1 ++ l2) = last_of (last_of d l1) l2.
Proof. unfold last_of. rewrite last_app. destruct (last l2); cbn; [done|]. reflexivity. Qed.

Lemma last_of_sorted d (b c : list Update) : StronglySorted (fun u v => up_id u < up_id v)%Z (b ++ c) -> Forall (fun u => d < up_id u)%Z (b ++ c) ->
  (d <= last_of d b)%Z /\ Forall (fun u => up_id u <= last_of d b)%Z b /\ Forall (fun u => last_of d b < up_id u)%Z c /\ StronglySorted (fun u v => up_id u < up_id v)%Z c.
Proof.
  revert d. induction b as [|u b IH]; intros d Hs Hn; [cbn; split_and!; [lia|constructor|done|done]|]. cbn [app] in Hs, Hn. apply StronglySorted_inv in Hs as [Hs Hu]. apply Forall_cons in Hn as [Hd Hn].
  change (last_of d (u :: b)) with (last_of d ([u] ++ b)). rewrite last_of_app. change (last_of d [u]) with (up_id u).
  destruct (IH (up_id u) Hs Hu) as (H1 & H2 & H3 & H4). split_and!; [lia| |done|done]. constructor; [done|exact H2].
Qed.

Lemma run_inv_round p c d msgs batch : run_inv p c d msgs ->
  run_inv (p ++ take batch c) (drop batch c) (set_last_update (last_of (tg_last_update_id d) (take batch c)) d) (msgs ++ (update_message <$> take batch c)).
Proof.
  intros [Hok Htok -> Hl Ho Hn Hs]. rewrite <-(take_drop batch c) in Hn, Hs. destruct (last_of_sorted _ _ _ Hs Hn) as (H1 & H2 & H3 & H4). split; cbn.
  - by rewrite <-app_assoc, take_drop.
  - done.
  - by rewrite fmap_app.
  - by rewrite last_of_app, <-Hl.
  - apply Forall_app. split; [|done]. eapply Forall_impl; [exact Ho|]. cbn. intros u Hu. lia.
  - done.
  - done.
Qed.

Lemma telegram_run_inv d0 all d msgs log : tg_last_update_id d0 = 0%Z -> token_ok (tg_token d0) -> telegram_run d0 all d msgs log -> exists p c, all = p ++ c /\ run_inv p c d msgs.
Proof.
  intros H0 Htok0. induction 1 as [|all d msgs log u Hr (p & c & -> & Hi) Hu Hlt|all d msgs log batch polls d' ms log' Hr (p & c & -> & Hi) Ha Hp Ht|
    all d msgs log body polls d' ms log' Hr IH Ha Hp Hn Ht|all d msgs log polls d' ms log' Hr IH Ha Hp Ht|all d msgs log d' ms log' Hr IH Ha Ht].
  - exists [], []. split; [done|]. split; try done; constructor.
  - exists p, (c ++ [u]). split; [by rewrite app_assoc|]. destruct Hi as [Hok Htok Hm Hl Ho Hn Hs]. split; [|done|done|done|done| |].
    + rewrite app_assoc. apply Forall_app. split; [done|]. by apply Forall_singleton.
    + apply Forall_app. split; [done|]. apply Forall_singleton. rewrite Hl. unfold last_of. destruct (last p) as [v|] eqn:E; cbn; [|apply Hu].
      apply last_Some in E as [p' ->]. rewrite Forall_forall in Hlt. apply Hlt. rewrite !elem_of_app. left. right. by left.
    + apply Forall_app in Hlt as [_ Hlt]. clear Hn Hok Hr. induction Hs as [|v c Hs IH Hv]; [repeat constructor|]. apply Forall_cons in Hlt as [Hv1 Hlt]. cbn. constructor; [by apply IH|].
      apply Forall_app. split; [done|]. by apply Forall_singleton.
  - rewrite (server_batch_next _ _ _ _ _ Hi) in Hp. pose proof (ri_ok _ _ _ _ Hi) as Hok. apply Forall_app in Hok as [_ Hok].
    rewrite (telegram_round_answered d log polls (take batch c) Ha) in Ht; [|by apply Forall_take|done]. apply (inj Some) in Ht. injection Ht as <- <- _.
    exists (p ++ take batch c), (drop batch c). split; [by rewrite <-app_assoc, take_drop|]. by apply run_inv_round.
  - rewrite (telegram_round_refused d log polls body) in Ht by done. injection Ht as <- <- _. by rewrite app_nil_r.
  - rewrite (telegram_round_failed d log polls) in Ht by done. destruct (failed _); [|done]. injection Ht as <- <- _. by rewrite app_nil_r.
  - unfold telegram_round, exchange in Ht. rewrite Ha in Ht. cbn in Ht. injection Ht as <- <- _. by rewrite app_nil_r.
Qed.

Lemma telegram_round_log d log d' ms log' : telegram_round answer d log = Some (d', ms, log') -> log' = log ++ [get_request (updates_url d)].
Proof.
  unfold telegram_round, exchange. destruct (answer _ _) as [polls|]; cbn [mbind option_bind]; [|by intros [= _ _ <-]].
  destruct (poll_until_done _ _ _) as [c|]; cbn [mbind option_bind]; [|done].
  destruct (match hc_memory c with [] => None | m => cJSON_Parse (c_string m) end) as [j|]; [|by intros [= _ _ <-]].
  destruct (is_array _) as [items|]; [|by intros [= _ _ <-]]. destruct (telegram_updates _ _) as [[? ?]|]; cbn [mbind option_bind]; [by intros [= _ _ <-]|done].
Qed.

(** All requests go out over plain connections. *)
Lemma telegram_run_plain d0 all d msgs log : telegram_run d0 all d msgs log -> Forall (fun r => wr_tls r = false) log.
Proof.
  induction 1; [constructor|done|..]; (match goal with H : telegram_round _ _ _ = _ |- _ => apply telegram_round_log in H as -> end);
    (apply Forall_app; split; [assumption|apply Forall_singleton; reflexivity]).
Qed.
End Telegram.


(** ** What is sent *)

(** A send tries one request to [url] whose body is the text of [kvs]; it
    returns when the connection cannot be made, and otherwise only when the
    wait ends. *)
Definition posts (send : (nat -> WebRequest -> option (list poll)) -> list WebRequest -> option (list WebRequest)) (url : cstr) (kvs : list (cstr * json)) : Prop :=
  exists r head body, wr_url r = url /\ wr_text r = head ++ body /\ cJSON_Parse body = Some (JObj kvs) /\
    (forall answer log, answer (length log) r = None -> send answer log = Some (log ++ [r])) /\
    (forall answer log polls reply, answer (length log) r = Some polls -> answers_with polls reply -> send answer log = Some (log ++ [r])) /\
    (forall answer log polls, answer (length log) r = Some polls -> Forall (fun e => e = UeClose \/ e = UeOther) (concat polls) -> send answer log = None).

Lemma post_request_posts url headers kvs : json_ok 0 (JObj kvs) = true ->
  posts (fun answer log => snd <$> exchange answer (post_request url headers (printed_body kvs)) log) url kvs.
Proof.
  intros H. destruct (printed_object _ H) as (t & Ht & _ & _ & Hparse). unfold printed_body. rewrite Ht. cbn [default]. unfold id.
  eexists (post_request url headers ("{"%char :: t)), _, ("{"%char :: t). split_and!; [done|reflexivity|done|..]; intros answer log; unfold exchange.
  - by intros ->.
  - intros polls reply -> (ms & -> & _)%poll_answer. done.
  - intros polls -> H0. by rewrite (poll_closed _ H0).
Qed.

Lemma two_texts_ok k1 k2 v1 v2 : str_ok k1 = true -> str_ok k2 = true -> str_ok v1 = true -> str_ok v2 = true ->
  json_ok 0 (JObj [(k1, JStr v1); (k2, JStr v2)]) = true.
Proof. intros H1 H2 H3 H4. cbn [json_ok forallb fst snd]. rewrite H1, H2, H3, H4. by vm_compute. Qed.

(** A message for Telegram, Slack or Discord is posted to the address of
    the service, once, as the JSON object of its chat and its text, whatever
    characters they have; but the call only returns when the service answers
    or the connection reports an error: when it just closes, the thread that
    delivers the messages waits for ever. A message for another channel is
    not sent. *)
Theorem chat_sends_post (dt : TelegramChannelData) (dk : SlackChannelData) (dd : DiscordChannelData) (msg : OutboundMessage) (slack_token discord_token : cstr) :
  str_ok (out_chat_id msg) = true -> str_ok (out_content msg) = true ->
  sk_bot_token dk = Some slack_token -> slack_token <> [] -> dc_token dd = Some discord_token -> discord_token <> [] ->
  (out_channel msg = $"telegram" ->
     posts (fun answer => telegram_send answer dt msg) (telegram_url dt $"sendMessage") [($"chat_id", JStr (out_chat_id msg)); ($"text", JStr (out_content msg))]) /\
  (out_channel msg = $"slack" ->
     posts (fun answer => slack_send answer dk msg) $"https://slack.com/api/chat.postMessage" [($"channel", JStr (out_chat_id msg)); ($"text", JStr (out_content msg))]) /\
  (out_channel msg = $"discord" ->
     posts (fun answer => discord_send answer dd msg) (truncate_to 512 ($"https://discord.com/api/v10/channels/" ++ out_chat_id msg ++ $"/messages"))
       [($"content", JStr (out_content msg))]) /\
  (out_channel msg ∉ [$"telegram"; $"slack"; $"discord"] -> forall answer log,
     telegram_send answer dt msg log = Some log /\ slack_send answer dk msg log = Some log /\ discord_send answer dd msg log = Some log).
Proof.
  intros Hc Ht Hk Hk0 Hd Hd0. unfold telegram_send, slack_send, discord_send. rewrite Hk, Hd. destruct slack_token as [|k ks]; [done|]. destruct discord_token as [|t ts]; [done|].
  split; [|split; [|split]].
  - intros ->. by apply post_request_posts, two_texts_ok.
  - intros ->. by apply post_request_posts, two_texts_ok.
  - intros ->. apply post_request_posts. cbn [json_ok forallb fst snd]. rewrite Ht. by vm_compute.
  - rewrite !not_elem_of_cons. intros (H1 & H2 & H3 & _) answer log. unfold str_eq. by rewrite !bool_decide_eq_false_2 by done.
Qed.

Definition demo_telegram : TelegramChannelData := mkTelegram false false 0 $"123:abc" (mkChannelDns None None 0 false).
Definition demo_chat (channel : cstr) : OutboundMessage := outbound_message_new (Some channel) (Some $"42") (Some $"hello").

Lemma chat_sends_post_witness : posts (fun answer => telegram_send answer demo_telegram (demo_chat $"telegram")) $"https://api.telegram.org/bot123:abc/sendMessage"
  [($"chat_id", JStr $"42"); ($"text", JStr $"hello")].
Proof.
  refine (proj1 (chat_sends_post demo_telegram (mkSlack true (Some $"x") (mkChannelDns None None 0 false)) (mkDiscord true (Some $"y") None (mkChannelDns None None 0 false))
    (demo_chat $"telegram") $"x" $"y" _ _ _ _ _ _) _); by vm_compute.
Defined.

(** Two updates arrive, the first connection fails, and the service sends one
    update at a time. *)
Definition demo_updates : list Update := [mkUpdate 7 42 $"one"; mkUpdate 8 42 $"two"].
Definition telegram_answer (n : nat) (r : WebRequest) : option (list poll) :=
  match n with
  | 0 => Some [[UeOther]; [UeError; UeClose]]
  | S n => Some [[UeMsg (mkHead 0 (mkHttp [] [] [] [] []) [] false None 0) (printed_body (updates_json (take 1 (drop n demo_updates))))]]
  end.
Definition demo_log : list WebRequest := [get_request (updates_url demo_telegram); get_request (updates_url demo_telegram)].

Lemma telegram_demo_run : telegram_run telegram_answer demo_telegram demo_updates (set_last_update 7 demo_telegram) [update_message (mkUpdate 7 42 $"one")] demo_log.
Proof.
  eapply (tr_round telegram_answer demo_telegram demo_updates demo_telegram [] [get_request (updates_url demo_telegram)] 1).
  - apply (tr_arrive telegram_answer demo_telegram [mkUpdate 7 42 $"one"]).
    + eapply (tr_silent telegram_answer demo_telegram _ demo_telegram [] []); [|by vm_compute|by repeat constructor|by vm_compute].
      apply (tr_arrive telegram_answer demo_telegram []); [constructor|by vm_compute|constructor].
    + by vm_compute.
    + repeat constructor.
  - reflexivity.
  - eexists [], _, _, []. split; [reflexivity|]. split; [constructor|]. split; [by vm_compute|constructor].
  - by vm_compute.
Qed.

