(* ===== verification/DingTalkChannel.v ===== *)
(** [src/plugins/channels/dingtalk_channel/dingtalk_channel.c]: the access
    token, the three ways a reply is sent, the attachments, and the loop that
    keeps the connection of DingTalkWs.v open. [network n r] is what the
    connection of the n-th request gives: for each poll the time since the
    request and the events; [None]: it cannot be made. An operation gives its
    requests; [None] is undefined behaviour (the connection is used after it
    was freed) or a wait without end. Allocations succeed. *)
From S2P Require Import Prelude CStr Json Common Config Message Fs ChannelCommon ProviderAsync Protobuf DingTalkWs Mongoose MongooseHttp ChannelHttp ChatChannels Dispatcher.
Open Scope nat_scope.

Record DingTalkChannelData := mkDingData {
  dd_running : bool;
  dd_access_token : option cstr;
  dd_token_expiry : Z;
  dd_thread : bool;
  dd_client_id : cstr;
  dd_client_secret : cstr;
  dd_dns : ChannelDns;
}.

Definition set_dd_token (token : cstr) (expiry : Z) (d : DingTalkChannelData) : DingTalkChannelData :=
  mkDingData (dd_running d) (Some token) expiry (dd_thread d) (dd_client_id d) (dd_client_secret d) (dd_dns d).
Definition set_dd_running (running : bool) (d : DingTalkChannelData) : DingTalkChannelData :=
  mkDingData running (dd_access_token d) (dd_token_expiry d) (dd_thread d) (dd_client_id d) (dd_client_secret d) (dd_dns d).

Definition dingtalk_init (config : Config) : DingTalkChannelData :=
  let text key := match plugin_section config $"dingtalk_channel" with Some s => section_text s key | None => [] end in
  mkDingData false None 0 false (text $"clientId") (text $"clientSecret") (channel_dns config).

(** ** The handlers of a connection *)

(** Whether the connection ended: it is freed after that event. *)
Definition closes (evs : poll) : bool := existsb (fun e => match e with UeClose => true | _ => false end) evs.

(** [webhook_fn]: a body that is not empty ends the wait; bytes that are still
    in the buffer of the connection are added as they are; the end of the
    connection ends the wait too. *)
Definition webhook_fn (ms : HttpChunk) (ev : user_event) : HttpChunk :=
  match ev with
  | UeMsg _ [] => ms
  | UeMsg _ body => mkHttpChunk (hc_memory (fst (memory_append_chunk alloc_ok ms body))) true
  | UeRead 0 _ => ms
  | UeRead n recv => if Nat.leb n (length recv) then fst (memory_append_chunk alloc_ok ms (drop (length recv - n) recv)) else ms
  | UeClose | UeError => mkHttpChunk (hc_memory ms) true
  | _ => ms
  end.

(** The wait of [refresh_token]: when the time is over the connection is
    written to, whether it is still there or not. After the polls nothing
    happens until the time is over. *)
Fixpoint poll_until_time (limit : Z) (polls : list (Z * poll)) (ms : HttpChunk) (live : bool) : option HttpChunk :=
  if hc_done ms then Some ms
  else match polls with
       | [] => if live then Some ms else None
       | (t, evs) :: r =>
           let ms := fold_left (http_fn alloc_ok) evs ms in
           let live := live && negb (closes evs) in
           if (limit <? t)%Z then if live then Some ms else None
           else poll_until_time limit r ms live
       end.

(** The wait of a webhook: the same after thirty calls of the poll. *)
Definition webhook_wait (polls : list poll) : option HttpChunk :=
  let '(ms, over) := poll_at_most webhook_fn 30 polls empty_chunk in
  if over && closes (concat (take 30 polls)) then None else Some ms.

(** ** Attachments *)

Record DingTalkAttachment := mkDingAttachment { da_type : cstr; da_path : cstr; da_url : cstr; da_duration : Z }.

Definition type_extensions : list (cstr * list cstr) :=
  [($"image", [$"jpg"; $"jpeg"; $"png"; $"gif"; $"webp"; $"bmp"]);
   ($"audio", [$"mp3"; $"wav"; $"opus"; $"amr"; $"aac"; $"m4a"; $"ogg"]);
   ($"video", [$"mp4"; $"mov"; $"mkv"; $"avi"; $"webm"])].

Definition infer_attachment_type (path : cstr) : option cstr :=
  match strrchr path "."%char with
  | None => None
  | Some i =>
      match drop (i + 1) path with
      | [] => None
      | ext => fst <$> List.find (fun p => existsb (strcasecmp_eq ext) (snd p)) type_extensions
      end
  end.

(** [None] is [false]. *)
Definition parse_attachment_spec (raw : cstr) : option DingTalkAttachment :=
  match raw with
  | "{"%char :: _ =>
      json ← cJSON_Parse raw;
      let item name := get_object_item (Some json) name in
      type ← is_string (item $"type");
      path ← is_string (item $"path");
      let duration := match is_number (item $"duration") with Some n => valueint n | None => 0%Z end in
      Some (mkDingAttachment (truncate_to 16 type) (truncate_to 1024 path) (truncate_to 2048 (default [] (is_string (item $"url"))))
              (if (0 <? duration)%Z then duration else 0%Z))
  | _ => t ← infer_attachment_type raw; Some (mkDingAttachment (truncate_to 16 t) (truncate_to 1024 raw) [] 0)
  end.

Definition boundary : cstr := $"----PrimagenDingTalkBoundary".
Definition line2k (s : cstr) : cstr := truncate_to 2048 s.
Definition quote : ascii := ascii_of_N 34.

(** [build_upload_body]; a file that is empty counts as none. *)
Definition build_upload_body (fs : Fs) (file_path : cstr) : option cstr :=
  match fs_read fs file_path with
  | None | Some [] => None
  | Some bytes =>
      Some (line2k ($"--" ++ boundary ++ crlf) ++
            line2k ($"Content-Disposition: form-data; name=" ++ [quote] ++ $"media" ++ [quote] ++ $"; filename=" ++ [quote] ++
                    channel_file_basename (Some file_path) ++ [quote] ++ crlf ++ $"Content-Type: application/octet-stream" ++ crlf ++ crlf) ++
            bytes ++ crlf ++ line2k ($"--" ++ boundary ++ $"--" ++ crlf))
  end.

(** What a text with its attachments becomes: a line for each address; a file
    without one is not sent. *)
Definition merge_attachment (acc : option cstr * bool) (content raw : cstr) : option cstr * bool :=
  match parse_attachment_spec raw with
  | Some a =>
      match da_url a with
      | [] => acc
      | url => (Some (default (if snd acc then content else []) (fst acc) ++ [ch_nl; ch_nl] ++ truncate_to 4096 ($"![image](" ++ url ++ $")")), true)
      end
  | None => acc
  end.

Definition merge_attachments (content : cstr) (attachments : list cstr) : option cstr * bool :=
  fold_left (fun acc raw => merge_attachment acc content raw) attachments (None, negb (bool_decide (content = []))).

(** ** Requests *)

Definition content_length (body : cstr) : cstr := $"Content-Length: " ++ fmt_d (wrap_s 32 (Z.of_nat (length body))).
Definition json_type : cstr := $"Content-Type: application/json".

(** A request over a connection that is encrypted when the address asks for
    it. *)
Definition tls_request (version url : cstr) (headers : list cstr) (body : cstr) : WebRequest :=
  mkWebRequest url (mg_url_is_ssl url)
    (lines ([$"POST " ++ mg_url_uri url ++ $" HTTP/" ++ version; $"Host: " ++ mg_url_host url] ++ headers ++ [[]]) ++ body).

Definition token_url : cstr := $"https://api.dingtalk.com/v1.0/oauth2/accessToken".
Definition token_request (d : DingTalkChannelData) : WebRequest :=
  let body := printed_body [($"appKey", JStr (dd_client_id d)); ($"appSecret", JStr (dd_client_secret d))] in
  tls_request $"1.1" token_url [json_type; content_length body; $"Connection: close"] body.

(** The token in the answer. *)
Definition token_answer (memory : cstr) : option cstr :=
  match memory with
  | [] => None
  | m => resp ← cJSON_Parse (c_string m); is_string (get_object_item (Some resp) $"accessToken")
  end.

Definition is_token_valid (now : Z) (d : DingTalkChannelData) : bool :=
  match dd_access_token d with Some _ => (now <? dd_token_expiry d - 300)%Z | None => false end.

(** A text in the markdown of a webhook; the blanks at its start are left out. *)
Definition webhook_body (text : cstr) : cstr :=
  let text := drop_while (fun c => bool_decide (c = " "%char) || bool_decide (c = ch_nl) || bool_decide (c = ch_cr)) text in
  printed_body [($"msgtype", JStr $"markdown"); ($"markdown", JObj [($"title", JStr $"Primagen"); ($"text", JStr text)])].
Definition webhook_request (webhook text : cstr) : WebRequest :=
  let body := webhook_body text in
  tls_request $"1.1" webhook [json_type; $"Accept: */*"; $"Connection: close"; content_length body] body.

(** Whether the webhook took the message. *)
Definition webhook_success (memory : cstr) : bool :=
  match memory with
  | [] => false
  | m =>
      match cJSON_Parse (c_string m) with
      | None => false
      | Some resp => match is_number (get_object_item (Some resp) $"errcode") with Some n => (valueint n =? 0)%Z | None => true end
      end
  end.

Definition message_param (text : cstr) : cstr := printed_body [($"text", JStr text); ($"title", JStr $"Primagen")].
Definition token_header (d : DingTalkChannelData) : cstr := $"x-acs-dingtalk-access-token: " ++ default $"(null)" (dd_access_token d).
Definition api_request (d : DingTalkChannelData) (url body : cstr) : WebRequest :=
  tls_request $"1.0" url [token_header d; json_type; content_length body] body.

Definition group_request (d : DingTalkChannelData) (conversation_id text : cstr) : WebRequest :=
  api_request d $"https://api.dingtalk.com/v1.0/robot/groupMessages/send"
    (printed_body [($"robotCode", JStr (dd_client_id d)); ($"openConversationId", JStr conversation_id);
                   ($"msgKey", JStr $"sampleMarkdown"); ($"msgParam", JStr (message_param text))]).
Definition batch_request (d : DingTalkChannelData) (user_id text : cstr) : WebRequest :=
  api_request d $"https://api.dingtalk.com/v1.0/robot/oToMessages/batchSend"
    (printed_body [($"robotCode", JStr (dd_client_id d)); ($"userIds", JArr [JStr user_id]);
                   ($"msgKey", JStr $"sampleMarkdown"); ($"msgParam", JStr (message_param text))]).

Definition code_is_zero (resp : json) (key : cstr) : bool :=
  match get_object_item (Some resp) key with Some c => (item_valueint c =? 0)%Z | None => false end.
Definition answer_object (memory : cstr) : option json := match memory with [] => None | m => cJSON_Parse (c_string m) end.
Definition group_success (memory : cstr) : bool :=
  match answer_object memory with
  | Some resp => match is_string (get_object_item (Some resp) $"processQueryKey") with Some _ => true | None => code_is_zero resp $"code" end
  | None => false
  end.
Definition batch_success (memory : cstr) : bool := match answer_object memory with Some resp => code_is_zero resp $"code" | None => false end.

(** The upload of a file and the message with it; nothing calls them. *)
Definition media_type (type : cstr) : cstr := if str_eq type $"video" then $"video" else if str_eq type $"audio" then $"voice" else $"image".
Definition upload_request (d : DingTalkChannelData) (type body : cstr) : WebRequest :=
  let url := truncate_to 1024 ($"https://oapi.dingtalk.com/media/upload?access_token=" ++ default $"(null)" (dd_access_token d) ++ $"&type=" ++ media_type type) in
  tls_request $"1.0" url [$"Content-Type: multipart/form-data; boundary=" ++ boundary; content_length body] body.
Definition no_error (resp : json) : bool := match get_object_item (Some resp) $"errcode" with Some c => (item_valueint c =? 0)%Z | None => true end.
Definition upload_media_id (memory : cstr) : option cstr :=
  resp ← answer_object memory; if no_error resp then is_string (get_object_item (Some resp) $"media_id") else None.
Definition attachment_object (a : DingTalkAttachment) (media_id : cstr) : json :=
  if str_eq (da_type a) $"image" then JObj [($"msgtype", JStr $"image"); ($"image", JObj [($"media_id", JStr media_id)])]
  else if str_eq (da_type a) $"audio" then
    JObj [($"msgtype", JStr $"voice");
          ($"voice", JObj (($"media_id", JStr media_id) :: if (0 <? da_duration a)%Z then [($"duration", JNum (num_of_Z (da_duration a)))] else []))]
  else JObj [($"msgtype", JStr $"video"); ($"video", JObj [($"media_id", JStr media_id)])].
Definition attachment_request (d : DingTalkChannelData) (conversation_id : cstr) (a : DingTalkAttachment) (media_id : cstr) : WebRequest :=
  let url := truncate_to 1024 ($"https://oapi.dingtalk.com/chat/send?access_token=" ++ default $"(null)" (dd_access_token d)) in
  let body := printed_body [($"chatid", JStr conversation_id); ($"msg", attachment_object a media_id)] in
  tls_request $"1.0" url [json_type; content_length body] body.

(** ** The address of a reply *)

(** [on_dingtalk_message]: the chat id carries the webhook, the conversation,
    the sender and the time until which the webhook can be used. *)
Definition routing_info (conversation_id : cstr) (sender_id session_webhook : option cstr) (expired : Z) : cstr :=
  match session_webhook with
  | None | Some [] => conversation_id
  | Some w => truncate_to (length w + length conversation_id + length (default [] sender_id) + 24)
                (w ++ $"|" ++ conversation_id ++ $"|" ++ default [] sender_id ++ $"|" ++ fmt_d expired)
  end.
Definition on_dingtalk_message (conversation_id content : cstr) (sender_id sender_name session_webhook : option cstr) (expired : Z) : InboundMessage :=
  inbound_message_new (Some $"dingtalk") (Some (routing_info conversation_id sender_id session_webhook expired)) (Some content) sender_name.

Record Route := mkRoute { rt_webhook : option cstr; rt_conversation : option cstr; rt_sender : option cstr; rt_expired : Z }.

Definition parse_chat_id (s : cstr) : Route :=
  match strchr s "|"%char with
  | None => mkRoute None (Some s) None 0
  | Some i =>
      let after1 := drop (i + 1) s in
      match strchr after1 "|"%char with
      | None => mkRoute (Some (take i s)) (Some after1) None 0
      | Some j =>
          let after2 := drop (j + 1) after1 in
          match strchr after2 "|"%char with
          | None => mkRoute (Some (take i s)) (Some (take j after1)) (Some after2) 0
          | Some k => mkRoute (Some (take i s)) (Some (take j after1)) (Some (take k after2)) (fst (strtol (drop (k + 1) after2)))
          end
      end
  end.

Section Net.
Context (network : nat -> WebRequest -> option (list (Z * poll))).

(** The network, without its times. *)
Definition untimed (n : nat) (r : WebRequest) : option (list poll) := match network n r with Some polls => Some polls.*2 | None => None end.

(** [now]: the time at the end. *)
Definition refresh_token (now : Z) (d : DingTalkChannelData) (log : list WebRequest) : option (DingTalkChannelData * list WebRequest) :=
  let r := token_request d in
  match network (length log) r with
  | None => Some (d, log ++ [r])
  | Some polls =>
      ms ← poll_until_time 10000 polls empty_chunk true;
      Some (match token_answer (hc_memory ms) with Some t => set_dd_token t (now + 7200) d | None => d end, log ++ [r])
  end.

(** A request whose answer is waited for without a limit; its success. *)
Definition ask (r : WebRequest) (success : cstr -> bool) (log : list WebRequest) : option (bool * list WebRequest) :=
  match exchange untimed r log with
  | None => None
  | Some (ms, log) => Some (match ms with Some ms => success (hc_memory ms) | None => false end, log)
  end.

Definition dingtalk_send_via_webhook (webhook text : cstr) (log : list WebRequest) : option (bool * list WebRequest) :=
  let r := webhook_request webhook text in
  match network (length log) r with
  | None => Some (false, log ++ [r])
  | Some polls => ms ← webhook_wait polls.*2; Some (webhook_success (hc_memory ms), log ++ [r])
  end.
Definition dingtalk_send_via_group (d : DingTalkChannelData) (conversation_id text : cstr) (log : list WebRequest) : option (bool * list WebRequest) :=
  if bool_decide (conversation_id = []) then Some (false, log) else ask (group_request d conversation_id text) group_success log.
Definition dingtalk_send_via_batch (d : DingTalkChannelData) (user_id text : cstr) (log : list WebRequest) : option (bool * list WebRequest) :=
  if bool_decide (user_id = []) then Some (false, log) else ask (batch_request d user_id text) batch_success log.

Definition dingtalk_upload_attachment (fs : Fs) (d : DingTalkChannelData) (a : DingTalkAttachment) (log : list WebRequest) : option (option cstr * list WebRequest) :=
  match build_upload_body fs (da_path a) with
  | None => Some (None, log)
  | Some body =>
      match exchange untimed (upload_request d (da_type a) body) log with
      | None => None
      | Some (ms, log) => Some (ms ← ms; upload_media_id (hc_memory ms), log)
      end
  end.
Definition dingtalk_send_attachment_message (fs : Fs) (d : DingTalkChannelData) (conversation_id : cstr) (a : DingTalkAttachment) (log : list WebRequest) : option (bool * list WebRequest) :=
  match dingtalk_upload_attachment fs d a log with
  | None => None
  | Some (None, log) => Some (false, log)
  | Some (Some media_id, log) => ask (attachment_request d conversation_id a media_id) (fun m => match answer_object m with Some resp => no_error resp | None => false end) log
  end.

(** The next way, when the message was not sent yet. *)
Definition or_else (first : option (bool * list WebRequest)) (next : list WebRequest -> option (bool * list WebRequest)) : option (bool * list WebRequest) :=
  match first with Some (false, log) => next log | x => x end.

Definition send_text (now_ms : Z) (d : DingTalkChannelData) (rt : Route) (text : cstr) (log : list WebRequest) : option (bool * list WebRequest) :=
  let expired := (0 <? rt_expired rt)%Z && (rt_expired rt <=? now_ms)%Z in
  or_else
    (or_else
      (match rt_webhook rt with
       | Some w => if negb expired && starts_with $"http" w then dingtalk_send_via_webhook w text log else Some (false, log)
       | None => Some (false, log)
       end)
      (fun log => match rt_conversation rt with Some c => dingtalk_send_via_group d c text log | None => Some (false, log) end))
    (fun log => match rt_sender rt with Some u => dingtalk_send_via_batch d u text log | None => Some (false, log) end).

(** [now] in seconds, [now_ms] in milliseconds. *)
Definition dingtalk_send (now now_ms : Z) (d : DingTalkChannelData) (msg : OutboundMessage) (log : list WebRequest) : option (DingTalkChannelData * list WebRequest) :=
  if bool_decide (dd_client_id d = []) || bool_decide (dd_client_secret d = []) then Some (d, log)
  else if negb (str_eq (out_channel msg) $"dingtalk") then Some (d, log)
  else
    match (if is_token_valid now d then Some (d, log) else refresh_token now d log) with
    | None => None
    | Some (d, log) =>
        match dd_access_token d with
        | None => Some (d, log)
        | Some _ =>
            let '(merged, has_text) := merge_attachments (out_content msg) (out_attachments msg) in
            if has_text : bool
            then match send_text now_ms d (parse_chat_id (out_chat_id msg)) (default (out_content msg) merged) log with
                 | None => None
                 | Some (_, log) => Some (d, log)
                 end
            else Some (d, log)
        end
    end.

Definition dingtalk_start (now : Z) (d : DingTalkChannelData) (log : list WebRequest) : option (DingTalkChannelData * list WebRequest) :=
  if dd_running d then Some (d, log)
  else if bool_decide (dd_client_id d = []) || bool_decide (dd_client_secret d = []) then Some (d, log)
  else
    match refresh_token now (set_dd_running true d) log with
    | None => None
    | Some (d, log) =>
        Some (mkDingData (dd_running d) (dd_access_token d) (dd_token_expiry d) true (dd_client_id d) (dd_client_secret d) (dd_dns d), log)
    end.
End Net.

(** [dingtalk_stop]: the thread is joined when there is one. *)
Definition dingtalk_stop (d : DingTalkChannelData) : DingTalkChannelData :=
  mkDingData false (dd_access_token d) (dd_token_expiry d) false (dd_client_id d) (dd_client_secret d) (dd_dns d).

(** ** The loop that receives *)

(** How a round of [dingtalk_receive_loop] goes: the connection that was made
    ends, and whether the channel was stopped meanwhile. *)
Inductive Outcome := NoToken | NoUrl | NoConnection | Disconnected (stopped : bool).

(** What the rest of the world does in a round: the time, the answers of
    [dingtalk_get_ws_url] and [dingtalk_ws_connect], how the run ends. *)
Record Round := mkRound { ro_now : Z; ro_url : option cstr; ro_connects : bool; ro_stopped : bool }.

Definition max_reconnect_attempts : nat := 10.
Definition reconnect_delay (attempt : nat) : Z := if Nat.ltb attempt 6 then Z.min 60 (2 ^ Z.of_nat attempt) else 60.

(** The number of attempts and the seconds to sleep; [None]: the channel gives
    up. *)
Definition after_outcome (o : Outcome) (attempt : nat) : option (nat * Z) :=
  let retry a := if Nat.leb max_reconnect_attempts (S a) then None else Some (S a, reconnect_delay (S a)) in
  match o with
  | NoToken | NoUrl | NoConnection => retry attempt
  | Disconnected false => retry 0
  | Disconnected true => Some (0, 0%Z)
  end.

Definition round_outcome (r : Round) (d : DingTalkChannelData) : Outcome :=
  match dd_access_token d with
  | None | Some [] => NoToken
  | Some _ => match ro_url r with None => NoUrl | Some _ => if ro_connects r then Disconnected (ro_stopped r) else NoConnection end
  end.

(** One round: the channel, the attempts and the sleep, or the end. *)
Definition receive_round (network : nat -> WebRequest -> option (list (Z * poll))) (r : Round) (d : DingTalkChannelData) (attempt : nat) (log : list WebRequest) :
    option (DingTalkChannelData * option (nat * Z) * list WebRequest) :=
  if negb (dd_running d) then Some (d, None, log)
  else
    match (if is_token_valid (ro_now r) d then Some (d, log) else refresh_token network (ro_now r) d log) with
    | None => None
    | Some (d, log) =>
        let o := round_outcome r d in
        match after_outcome o attempt with
        | None => Some (set_dd_running false d, None, log)
        | next =>
            match o with
            | NoUrl => match refresh_token network (ro_now r) d log with None => None | Some (d, log) => Some (d, next, log) end
            | Disconnected true => Some (set_dd_running false d, next, log)
            | _ => Some (d, next, log)
            end
        end
    end.

(** Rounds one after the other: the seconds slept, and whether the loop still
    goes on. *)
Fixpoint outcomes (l : list Outcome) (attempt : nat) : list Z * option nat :=
  match l with
  | [] => ([], Some attempt)
  | o :: r => match after_outcome o attempt with None => ([], None) | Some (a, s) => let '(ss, e) := outcomes r a in (s :: ss, e) end
  end.

Definition round_failed (o : Outcome) : bool := match o with Disconnected _ => false | _ => true end.

Lemma outcomes_failed l a : forallb round_failed l = true -> outcomes l a = outcomes (replicate (length l) NoToken) a.
Proof.
  revert a. induction l as [|o l IH]; intros a H; [done|]. cbn [forallb] in H. apply andb_prop in H as [Ho H]. cbn [length replicate outcomes].
  assert (after_outcome o a = after_outcome NoToken a) as -> by (by destruct o). destruct (after_outcome NoToken a) as [[a' s]|]; [|done]. by rewrite (IH a' H).
Qed.

(** Ten rounds in a row without a connection end the channel, after sleeps that
    double up to a minute. *)
Lemma failures_end (l : list Outcome) : forallb round_failed l = true ->
  outcomes l 0 = (take (Nat.min (length l) 9) [2; 4; 8; 16; 32; 60; 60; 60; 60]%Z, if Nat.leb 10 (length l) then None else Some (length l)).
Proof. intros H. rewrite (outcomes_failed l 0 H). generalize (length l). intros n. do 10 (destruct n as [|n]; [reflexivity|]). reflexivity. Qed.

(** A connection that is lost starts the count again: a server that takes
    connections and drops them is tried every two seconds for ever. *)
Lemma drops_go_on n a : outcomes (replicate (S n) (Disconnected false)) a = (replicate (S n) 2%Z, Some 1).
Proof. revert a. induction n as [|n IH]; intros a; [done|]. rewrite replicate_S. cbn [outcomes after_outcome Nat.leb max_reconnect_attempts]. by rewrite (IH 1). Qed.

(** ** A reply goes back to where its message came from *)

Lemma fmt_d_int64_length z : (- 2 ^ 63 <= z < 2 ^ 63)%Z -> length (fmt_d z) <= 20.
Proof.
  change (2 ^ 63)%Z with 9223372036854775808%Z. intros H. assert (forall n, (n <= 9223372036854775808)%N -> length (fmt_u n) <= 19) as Hu.
  { intros n Hn. apply (fmt_u_length n 18). change (10 ^ N.of_nat 19)%N with 10000000000000000000%N. lia. }
  unfold fmt_d. destruct (z <? 0)%Z.
  - cbn [length]. specialize (Hu (Z.to_N (- z))). lia.
  - specialize (Hu (Z.to_N z)). lia.
Qed.

Lemma parse_routing (webhook conversation sender : cstr) (expired : Z) : webhook <> [] -> "|"%char ∉ webhook -> "|"%char ∉ conversation -> "|"%char ∉ sender ->
  (- 2 ^ 63 <= expired < 2 ^ 63)%Z ->
  parse_chat_id (routing_info conversation (Some sender) (Some webhook) expired) = mkRoute (Some webhook) (Some conversation) (Some sender) expired.
Proof.
  intros Hne Hw Hc Hs He. unfold routing_info. destruct webhook as [|b w]; [done|]. set (webhook := b :: w) in *. pose proof (fmt_d_int64_length _ He) as Hl.
  rewrite truncate_to_id by (rewrite !length_app; cbn [default id]; change (length $"|") with 1; lia). cbn [default]. unfold id.
  unfold parse_chat_id. change ($"|") with ["|"%char]. cbn [app]. rewrite (strchr_app webhook) by done. cbn zeta.
  rewrite (take_app_length webhook), <-Nat.add_1_r. assert (forall (x y : cstr), drop (length x + 1) (x ++ "|"%char :: y) = y) as Hd.
  { intros x y. rewrite cons_middle, app_assoc. change 1 with (length ["|"%char]). by rewrite <-length_app, drop_app_length. }
  rewrite Hd, (strchr_app conversation), Hd, (strchr_app sender), Hd, !take_app_length by done.
  rewrite <-(app_nil_r (fmt_d expired)), strtol_fmt_d; [done| |done]. unfold LONG_MIN, LONG_MAX. lia.
Qed.

(** The ways to send a text. *)
Inductive Way := Webhook (url : cstr) | Group (conversation : cstr) | Batch (user : cstr).

Section Reply.
Context (network : nat -> WebRequest -> option (list (Z * poll))).

Definition send_by (d : DingTalkChannelData) (w : Way) (text : cstr) (log : list WebRequest) : option (bool * list WebRequest) :=
  match w with
  | Webhook url => dingtalk_send_via_webhook network url text log
  | Group c => dingtalk_send_via_group network d c text log
  | Batch u => dingtalk_send_via_batch network d u text log
  end.

(** The first that succeeds, in order. *)
Fixpoint try_ways (d : DingTalkChannelData) (ways : list Way) (text : cstr) (log : list WebRequest) : option (bool * list WebRequest) :=
  match ways with
  | [] => Some (false, log)
  | w :: r => or_else (send_by d w text log) (try_ways d r text)
  end.

Definition reply_ways (now_ms : Z) (webhook conversation sender : cstr) (expired : Z) : list Way :=
  (if (now_ms <? expired)%Z || (expired <=? 0)%Z then if starts_with $"http" webhook then [Webhook webhook] else [] else []) ++ [Group conversation; Batch sender].

Lemma or_else_false f : or_else f (fun log => Some (false, log)) = f.
Proof. by destruct f as [[[|] log]|]. Qed.

Lemma or_else_assoc f g h : or_else (or_else f g) h = or_else f (fun log => or_else (g log) h).
Proof. by destruct f as [[[|] log]|]. Qed.

Lemma send_text_ways now_ms d webhook conversation sender expired text log :
  send_text network now_ms d (mkRoute (Some webhook) (Some conversation) (Some sender) expired) text log = try_ways d (reply_ways now_ms webhook conversation sender expired) text log.
Proof.
  unfold send_text, reply_ways. cbn [rt_webhook rt_conversation rt_sender rt_expired]. rewrite or_else_assoc.
  assert (negb ((0 <? expired) && (expired <=? now_ms)) = (now_ms <? expired) || (expired <=? 0))%Z as ->.
  { destruct (Z.ltb_spec 0 expired), (Z.leb_spec expired now_ms), (Z.ltb_spec now_ms expired), (Z.leb_spec expired 0); cbn; lia || done. }
  assert (forall log, or_else (dingtalk_send_via_group network d conversation text log) (fun log => dingtalk_send_via_batch network d sender text log) =
    try_ways d [Group conversation; Batch sender] text log) as H.
  { intros l. cbn [try_ways send_by]. destruct (dingtalk_send_via_group network d conversation text l) as [[[|] l']|]; [done| |done]. cbn [or_else]. by rewrite or_else_false. }
  destruct (_ || _); cbn [andb]; [|apply H]. destruct (starts_with _ _); [|apply H]. cbn [app try_ways send_by].
  destruct (dingtalk_send_via_webhook network webhook text log) as [[[|] l]|]; [done|apply H|done].
Qed.

(** *** What is sent, request by request *)

Definition no_target (w : Way) : bool := match w with Webhook _ => false | Group c => bool_decide (c = []) | Batch u => bool_decide (u = []) end.
Definition way_request (d : DingTalkChannelData) (w : Way) (text : cstr) : WebRequest :=
  match w with Webhook url => webhook_request url text | Group c => group_request d c text | Batch u => batch_request d u text end.

(** Whether the channel finds in the answer to the [n]-th request that the
    message was taken. [None]: it waits for the answer for ever. *)
Definition found_taken (n : nat) (w : Way) (r : WebRequest) : option bool :=
  match network n r with
  | None => Some false
  | Some polls =>
      match w with
      | Webhook _ => ms ← webhook_wait polls.*2; Some (webhook_success (hc_memory ms))
      | Group _ => ms ← poll_until_done (http_fn alloc_ok) polls.*2 empty_chunk; Some (group_success (hc_memory ms))
      | Batch _ => ms ← poll_until_done (http_fn alloc_ok) polls.*2 empty_chunk; Some (batch_success (hc_memory ms))
      end
  end.

(** Along the ways, a request for each until one finds the message taken. *)
Fixpoint reply_requests (d : DingTalkChannelData) (ways : list Way) (text : cstr) (log : list WebRequest) : option (list WebRequest) :=
  match ways with
  | [] => Some log
  | w :: r =>
      if no_target w then reply_requests d r text log
      else
        taken ← found_taken (length log) w (way_request d w text);
        if taken : bool then Some (log ++ [way_request d w text]) else reply_requests d r text (log ++ [way_request d w text])
  end.

Lemma send_by_requests d w text log :
  send_by d w text log =
    if no_target w then Some (false, log)
    else taken ← found_taken (length log) w (way_request d w text); Some (taken, log ++ [way_request d w text]).
Proof.
  destruct w as [url|c|u]; cbn [send_by no_target]; unfold found_taken, dingtalk_send_via_webhook, dingtalk_send_via_group, dingtalk_send_via_batch, ask, exchange, untimed; cbn [way_request].
  - destruct (network _ _) as [polls|]; [|done]. by destruct (webhook_wait _).
  - destruct (bool_decide _); [done|]. destruct (network _ _) as [polls|]; [|done]. by destruct (poll_until_done _ _ _).
  - destruct (bool_decide _); [done|]. destruct (network _ _) as [polls|]; [|done]. by destruct (poll_until_done _ _ _).
Qed.

Lemma try_ways_requests d ways text : forall log, snd <$> try_ways d ways text log = reply_requests d ways text log.
Proof.
  induction ways as [|w r IH]; intros log; [done|]. cbn [try_ways reply_requests]. rewrite send_by_requests.
  destruct (no_target w); [apply IH|]. destruct (found_taken _ _ _) as [[]|]; [done|apply IH|done].
Qed.

(** The token in the answer to a request for one, or none. *)
Definition token_received (n : nat) (r : WebRequest) : option (option cstr) :=
  match network n r with
  | None => Some None
  | Some polls => ms ← poll_until_time 10000 polls empty_chunk true; Some (token_answer (hc_memory ms))
  end.

(** The token the channel goes on with: its own while it can be used, and else
    one it asks for, or its old one when it gets none. *)
Definition token_step (now : Z) (d : DingTalkChannelData) (log : list WebRequest) : option (DingTalkChannelData * list WebRequest) :=
  if is_token_valid now d then Some (d, log)
  else
    answer ← token_received (length log) (token_request d);
    Some (match answer with Some t => set_dd_token t (now + 7200) d | None => d end, log ++ [token_request d]).

Lemma token_step_correct now d log : (if is_token_valid now d then Some (d, log) else refresh_token network now d log) = token_step now d log.
Proof.
  unfold token_step, refresh_token, token_received. destruct (is_token_valid now d); [done|]. destruct (network _ _) as [polls|]; [|done].
  by destruct (poll_until_time _ _ _ _).
Qed.
End Reply.

(** C40: A reply to a message, that is, an outbound message with the chat id the
    message came in with, is sent through the webhook of that very message as
    long as it can be used, and else to its conversation, and else to its
    sender: each way is tried, once, only after the channel found in the
    answers to those before it that they had not taken the message. (That can
    be wrong for a webhook whose answer comes in pieces,
    [webhook_answer_pieces]: the message is then sent twice.) When the token
    of the channel can no longer be used it first asks for a new one; with none
    at all nothing is sent. *)
Theorem dingtalk_reply_routed (network : nat -> WebRequest -> option (list (Z * poll))) (now now_ms : Z) (d : DingTalkChannelData)
    (conversation content sender webhook text : cstr) (name : option cstr) (expired : Z) (log : list WebRequest) :
  dd_client_id d <> [] -> dd_client_secret d <> [] -> text <> [] ->
  webhook <> [] -> "|"%char ∉ webhook -> "|"%char ∉ conversation -> "|"%char ∉ sender -> (- 2 ^ 63 <= expired < 2 ^ 63)%Z ->
  let m := on_dingtalk_message conversation content (Some sender) name (Some webhook) expired in
  dingtalk_send network now now_ms d (outbound_message_new (Some (in_channel m)) (Some (in_chat_id m)) (Some text)) log =
  '(d1, log1) ← token_step network now d log;
  match dd_access_token d1 with
  | None => Some (d1, log1)
  | Some _ => log2 ← reply_requests network d1 (reply_ways now_ms webhook conversation sender expired) text log1; Some (d1, log2)
  end.
Proof.
  intros Hi Hs Ht Hne Hw Hc Hse He m. unfold dingtalk_send. rewrite !bool_decide_eq_false_2 by done. cbn [orb].
  assert (in_chat_id m = routing_info conversation (Some sender) (Some webhook) expired) as Hm by reflexivity.
  cbn [outbound_message_new out_channel out_attachments out_chat_id out_content]. rewrite Hm. unfold merge_attachments, fold_left.
  change (str_eq (str_new (Some (in_channel m))) $"dingtalk") with true. cbn [negb]. change (str_new (Some text)) with text. rewrite bool_decide_eq_false_2 by done. cbn [negb default].
  change (str_new (Some (routing_info conversation (Some sender) (Some webhook) expired))) with (routing_info conversation (Some sender) (Some webhook) expired).
  rewrite parse_routing by done. rewrite token_step_correct. destruct (token_step network now d log) as [[d1 log1]|]; [|done]. cbn [mbind option_bind].
  destruct (dd_access_token d1); [|done]. rewrite send_text_ways, <-try_ways_requests. by destruct (try_ways _ _ _ _ _) as [[? ?]|].
Qed.

(** ** What a webhook makes of its answer *)

(** A wait that ends before its limit stops after some of the events. *)
Lemma poll_at_most_prefix fn polls ms limit : length polls < limit -> hc_done (fold_left fn (concat polls) ms) = true ->
  exists seen rest, concat polls = seen ++ rest /\ poll_at_most fn limit polls ms = (fold_left fn seen ms, false) /\ hc_done (fold_left fn seen ms) = true.
Proof.
  revert ms limit. induction polls as [|evs polls IH]; intros ms limit Hl Hd; (destruct limit as [|limit]; [cbn in Hl; lia|]); cbn [poll_at_most].
  - cbn in Hd. rewrite Hd. by exists [], [].
  - destruct (hc_done ms) eqn:E; [by exists [], (concat (evs :: polls))|]. cbn [tail head default concat] in Hd |- *. rewrite fold_left_app in Hd. unfold id.
    destruct (IH (fold_left fn evs ms) limit) as (seen & rest & Hc & Hp & Hs); [cbn in Hl; lia|done|].
    exists (evs ++ seen), rest. rewrite Hc, fold_left_app. split; [by rewrite app_assoc|done].
Qed.

(** The handler only adds to the memory. *)
Lemma webhook_fn_grows evs ms : hc_memory ms `prefix_of` hc_memory (fold_left webhook_fn evs ms).
Proof.
  assert (forall ms (d : cstr), hc_memory ms `prefix_of` hc_memory (fst (memory_append_chunk alloc_ok ms d))) as Ha.
  { intros m d. unfold memory_append_chunk. case_match; [done|]. cbn. by eexists. }
  revert ms. induction evs as [|e evs IH]; intros ms; [done|]. cbn [fold_left]. etrans; [|apply IH].
  destruct e as [h|h [|b body]|[|n] recv| | |]; cbn [webhook_fn]; try done; [apply (Ha ms)|]. case_match; [apply Ha|done].
Qed.

Lemma webhook_fn_heads h evs ms : Forall (fun e => e = UeHdrs h) evs -> fold_left webhook_fn evs ms = ms.
Proof. induction 1 as [|e evs -> _ IH]; [done|exact IH]. Qed.

(** After the body, what still comes changes nothing. *)
Definition tail_event (e : user_event) : Prop := e = UeClose \/ e = UeOther \/ exists n, e = UeRead n [].
Lemma webhook_fn_tail evs m : Forall tail_event evs -> fold_left webhook_fn evs (mkHttpChunk m true) = mkHttpChunk m true.
Proof. induction 1 as [|e evs [-> |[-> |(n & ->)]] _ IH]; [done|exact IH|exact IH|]. by destruct n. Qed.

Lemma parse_h s : cJSON_Parse ("H"%char :: s) = None.
Proof. unfold cJSON_Parse. generalize CJSON_NESTING_LIMIT. intros [|n]; reflexivity. Qed.

Section Webhook.
Context (head body : cstr) (h : HttpHead) (pieces : list cstr) (evs : list user_event) (recv : cstr) (rest : list user_event) (polls : list poll).
Hypothesis Hhead : response_head head h (length body).
Hypothesis Hpieces : concat pieces = head ++ body.
Hypothesis Hnonempty : Forall (fun p => p <> []) pieces.
Hypothesis Hreads : conn_reads [] pieces = Some (evs, recv).
Hypothesis Hpolls : concat polls = evs ++ rest.
Hypothesis Hrest : Forall (fun e => e = UeClose \/ e = UeOther) rest.
Hypothesis Hfew : length polls < 30.
Hypothesis Hbody : body <> [].
Hypothesis Hsmall : (N.of_nat (length head + length body + length body) < SIZE_T_MAX)%N.

Lemma rest_tail : Forall tail_event rest.
Proof. eapply Forall_impl; [exact Hrest|]. intros e [-> | ->]; [by left|by right; left]. Qed.

Lemma message_event m : exists x, webhook_fn m (UeMsg h body) = mkHttpChunk x true.
Proof. destruct body as [|b r]; [done|]. by eexists. Qed.

Lemma webhook_waits : exists seen after ms, evs ++ rest = seen ++ after /\ webhook_wait polls = Some ms /\ ms = fold_left webhook_fn seen empty_chunk /\ hc_done ms = true.
Proof.
  destruct (response_reads head body h pieces Hhead Hpieces Hnonempty) as (pre & n & E & _ & _). rewrite E in Hreads. injection Hreads as <- <-.
  assert (hc_done (fold_left webhook_fn (concat polls) empty_chunk) = true) as Hd.
  { rewrite Hpolls, !fold_left_app. cbn [fold_left]. generalize (fold_left webhook_fn pre empty_chunk). intros m.
    change (webhook_fn m (UeHdrs h)) with m. destruct (message_event m) as [x ->]. destruct n as [|n]; cbn [webhook_fn Nat.leb length]; by rewrite (webhook_fn_tail _ _ rest_tail). }
  destruct (poll_at_most_prefix webhook_fn polls empty_chunk 30 Hfew Hd) as (seen & after & Hc & Hp & Hs). rewrite Hpolls in Hc.
  exists seen, after, (fold_left webhook_fn seen empty_chunk). split; [exact Hc|]. split; [|done]. unfold webhook_wait. by rewrite Hp.
Qed.

(** An answer in one piece is taken as it is. *)
Lemma webhook_whole : length pieces = 1 -> webhook_wait polls = Some (mkHttpChunk body true).
Proof.
  intros H1. destruct webhook_waits as (seen & after & ms & Hc & -> & Hms & Hd).
  destruct (response_reads head body h pieces Hhead Hpieces Hnonempty) as (pre & n & E & _ & [_ Hpre]). rewrite E in Hreads. injection Hreads as Hevs _. specialize (Hpre H1). subst pre evs.
  cbn [app] in Hc. destruct seen as [|e1 seen]; [by rewrite Hms in Hd|]. injection Hc as <- Hc.
  destruct seen as [|e2 seen]; [by rewrite Hms in Hd|]. injection Hc as <- Hc. rewrite Hms. f_equal. cbn [fold_left]. change (webhook_fn empty_chunk (UeHdrs h)) with empty_chunk.
  assert (webhook_fn empty_chunk (UeMsg h body) = mkHttpChunk body true) as ->.
  { destruct body as [|b r]; [done|]. cbn [webhook_fn]. rewrite append_small; [done|]. cbn [hc_memory empty_chunk length Nat.add] in Hsmall |- *. lia. }
  apply webhook_fn_tail. assert (Forall tail_event (UeRead n [] :: rest)) as Ht by (constructor; [right; right; by eexists|apply rest_tail]).
  rewrite Hc in Ht. by apply Forall_app in Ht as [? _].
Qed.

(** Of an answer in several pieces the first one, with the head of the answer,
    is where the body should be. *)
Lemma webhook_parts p q r : pieces = p :: q :: r -> exists ms, webhook_wait polls = Some ms /\ p `prefix_of` hc_memory ms.
Proof.
  intros Hp. destruct webhook_waits as (seen & after & ms & Hc & -> & Hms & Hd). exists ms. split; [done|].
  assert (concat (q :: r) <> []) as Hqr. { rewrite Hp in Hnonempty. apply Forall_cons in Hnonempty as [_ [Hq _]%Forall_cons]. cbn. by destruct q. }
  assert (conn_reads [] (p :: q :: r) = Some (evs, recv)) as Hr by (by rewrite <-Hp). assert (p ++ concat (q :: r) = head ++ body) as Hcat by (by rewrite <-Hpieces, Hp).
  destruct (first_read head body h p (q :: r) evs recv Hhead Hcat Hqr Hr) as (hs & more & -> & Hhs).
  rewrite <-app_assoc in Hc. apply app_eq_inv in Hc as [(k & E1 & E2)|(k & E1 & E2)].
  - rewrite E1 in Hhs. apply Forall_app in Hhs as [Hseen _]. rewrite Hms, (webhook_fn_heads h) in Hd by done. done.
  - destruct k as [|e k]; [rewrite app_nil_r in E1; subst seen; by rewrite Hms, (webhook_fn_heads h) in Hd|]. injection E2 as <- E2.
    subst seen. rewrite Hms, fold_left_app, (webhook_fn_heads h hs) by done. cbn [fold_left].
    assert (hc_memory (webhook_fn empty_chunk (UeRead (length p) p)) = p) as Hm.
    { destruct p as [|c p']; [done|]. cbn [webhook_fn length]. rewrite Nat.leb_refl, Nat.sub_diag. cbn [drop]. rewrite append_small; [done|].
      apply (f_equal length) in Hcat. rewrite !length_app in Hcat. cbn [length hc_memory empty_chunk] in Hcat |- *. lia. }
    etrans; [|apply webhook_fn_grows]. by rewrite Hm.
Qed.
End Webhook.

(** A webhook that answers in one piece is believed. When the very same
    answer comes in several pieces, the bytes of its head are taken for its
    beginning: it does not parse, the webhook counts as failed although it
    took the message, and the message is sent again. *)
Theorem webhook_answer_pieces (network : nat -> WebRequest -> option (list (Z * poll))) (d : DingTalkChannelData) (url text conversation sender : cstr) (log : list WebRequest)
    (head body : cstr) (h : HttpHead) (pieces : list cstr) (evs rest : list user_event) (recv : cstr) (polls : list (Z * poll)) :
  response_head head h (length body) -> concat pieces = head ++ body -> Forall (fun p => p <> []) pieces -> conn_reads [] pieces = Some (evs, recv) ->
  concat polls.*2 = evs ++ rest -> Forall (fun e => e = UeClose \/ e = UeOther) rest -> length polls < 30 -> (N.of_nat (length head + length body + length body) < SIZE_T_MAX)%N ->
  webhook_success body = true -> (exists t, head = "H"%char :: t) -> network (length log) (webhook_request url text) = Some polls ->
  try_ways network d [Webhook url; Group conversation; Batch sender] text log =
    if Nat.eqb (length pieces) 1 then Some (true, log ++ [webhook_request url text])
    else try_ways network d [Group conversation; Batch sender] text (log ++ [webhook_request url text]).
Proof.
  intros Hh Hc Hne Hr Hp Hrest Hfew Hsmall Hok [t Ht] Hnet. assert (body <> []) as Hb by (by intros ->). assert (length polls.*2 < 30) as Hfew2 by (by rewrite length_fmap).
  destruct (Nat.eqb_spec (length pieces) 1) as [H1|H1].
  - cbn [try_ways send_by]. unfold dingtalk_send_via_webhook. rewrite Hnet, (webhook_whole head body h pieces evs recv rest polls.*2) by done. cbn [mbind option_bind hc_memory]. by rewrite Hok.
  - destruct pieces as [|p [|q r]]; [subst head; done|done|]. cbn [try_ways send_by]. unfold dingtalk_send_via_webhook at 1. rewrite Hnet.
    destruct (webhook_parts head body h _ evs recv rest polls.*2 Hh Hc Hne Hr Hp Hrest Hfew2 Hb Hsmall p q r eq_refl) as (ms & -> & [x Hx]). cbn [mbind option_bind].
    apply Forall_cons in Hne as [Hp0 _]. destruct p as [|c p]; [done|]. rewrite Ht in Hc. injection Hc as -> _. rewrite Hx. cbn [webhook_success app].
    change (c_string ("H"%char :: (p ++ x))) with ("H"%char :: c_string (p ++ x)). by rewrite parse_h.
Qed.

(** The handler is meant for answers without a length, which end with their
    connection: they never count as a success either. *)
Lemma webhook_without_length (head b : cstr) (h : HttpHead) : is_head head h -> hh_response h = true ->
  mg_http_get_header (hh_message h) $"Transfer-Encoding" = None -> hh_body_len h = None -> (exists t, head = "H"%char :: t) ->
  (N.of_nat (length head + length b) < SIZE_T_MAX)%N ->
  exists evs recv evs', conn_read [] (head ++ b) = Some (evs, recv) /\ conn_close recv = Some evs' /\
    forall polls, concat polls = evs ++ evs' -> length polls < 30 -> exists ms, webhook_wait polls = Some ms /\ webhook_success (hc_memory ms) = false.
Proof.
  intros Hh Hr Ht Hl [t Hhead] Hsmall. unfold conn_read, conn_close. cbn [app]. rewrite (http_cb_endless head h b Hh Hr Ht Hl). cbn [mbind option_bind].
  eexists _, _, _. split; [reflexivity|]. rewrite (http_cb_close head h b Hh Hr Ht). split; [reflexivity|].
  intros polls Hp Hfew. set (text := head ++ b) in *. cbn [app] in Hp.
  assert (text = "H"%char :: (t ++ b)) as Htext by (unfold text; by rewrite Hhead).
  assert (webhook_fn empty_chunk (UeRead (length text) text) = mkHttpChunk text false) as Hread.
  { rewrite Htext. cbn [webhook_fn length]. rewrite Nat.leb_refl, Nat.sub_diag. cbn [drop]. rewrite append_small; [done|].
    rewrite <-Htext. unfold text. cbn [hc_memory empty_chunk length]. rewrite length_app. cbn [Nat.add]. lia. }
  assert (forall seen, text `prefix_of` hc_memory (fold_left webhook_fn seen (mkHttpChunk text false))) as Hgrow by (intros seen; apply (webhook_fn_grows seen (mkHttpChunk text false))).
  destruct (poll_at_most_prefix webhook_fn polls empty_chunk 30 Hfew) as (seen & rest & Hc & Hw & Hd).
  { rewrite Hp. cbn [fold_left]. change (webhook_fn empty_chunk (UeHdrs h)) with empty_chunk. by rewrite Hread. }
  unfold webhook_wait. rewrite Hw. eexists. split; [reflexivity|]. rewrite Hp in Hc.
  destruct seen as [|e1 [|e2 seen]]; [done|by injection Hc as <- _|]. injection Hc as <- <- _. cbn [fold_left] in Hd |- *.
  change (webhook_fn empty_chunk (UeHdrs h)) with empty_chunk. rewrite Hread. destruct (Hgrow seen) as [x ->]. rewrite Htext. cbn [webhook_success app].
  change (c_string ("H"%char :: ((t ++ b) ++ x))) with ("H"%char :: c_string ((t ++ b) ++ x)). by rewrite parse_h.
Qed.

Definition demo_ding : DingTalkChannelData := mkDingData true (Some $"token") 10000 true $"id" $"secret" (mkChannelDns None None 0 false).
Definition webhook_demo : cstr := $"https://oapi.dingtalk.com/robot/sendBySession?session=abc".

(** The answer is in two pieces, and the group takes no message. *)
Definition demo_pieces : list cstr := [take 20 demo_response; drop 20 demo_response ++ $"{}"].
Definition demo_events : list user_event := match conn_reads [] demo_pieces with Some (evs, _) => evs | None => [] end.
Definition demo_network (n : nat) (r : WebRequest) : option (list (Z * poll)) :=
  match n with 0 => Some [(0%Z, demo_events)] | 1 => Some [(0%Z, [UeError])] | _ => None end.

Lemma webhook_answer_pieces_witness :
  try_ways demo_network demo_ding [Webhook webhook_demo; Group $"cid1"; Batch $"u1"] $"hello" [] =
    try_ways demo_network demo_ding [Group $"cid1"; Batch $"u1"] $"hello" ([] ++ [webhook_request webhook_demo $"hello"]).
Proof.
  apply (webhook_answer_pieces demo_network demo_ding webhook_demo $"hello" $"cid1" $"u1" [] demo_response $"{}" (parsed_head demo_response) demo_pieces demo_events [] [] [(0%Z, demo_events)]).
  - exact demo_response_head.
  - by vm_compute.
  - repeat constructor; by vm_compute.
  - by vm_compute.
  - cbn [concat fmap list_fmap snd]. by rewrite !app_nil_r.
  - constructor.
  - cbn. lia.
  - by vm_compute.
  - by vm_compute.
  - by eexists.
  - reflexivity.
Defined.

(** The token has run out: a new one is asked for, and its answer does not
    come. The reply goes out with the old token. *)
Lemma dingtalk_reply_routed_witness :
  dingtalk_send (fun n r => match n with 0 => None | S n => demo_network n r end) 9900 5000 demo_ding
    (outbound_message_new (Some $"dingtalk") (Some (in_chat_id (on_dingtalk_message $"cid1" $"hi" (Some $"u1") None (Some webhook_demo) 9000))) (Some $"hello")) [] =
  '(d1, log1) ← token_step (fun n r => match n with 0 => None | S n => demo_network n r end) 9900 demo_ding [];
  match dd_access_token d1 with
  | None => Some (d1, log1)
  | Some _ => log2 ← reply_requests (fun n r => match n with 0 => None | S n => demo_network n r end) d1 [Webhook webhook_demo; Group $"cid1"; Batch $"u1"] $"hello" log1; Some (d1, log2)
  end.
Proof.
  apply (dingtalk_reply_routed (fun n r => match n with 0 => None | S n => demo_network n r end) 9900 5000 demo_ding $"cid1" $"hi" $"u1" webhook_demo $"hello" None 9000 []); try (by vm_compute); try (apply (bool_decide_unpack _); by vm_compute).
Defined.

(** It makes four requests: for the token, and for each of the three ways. *)
Example demo_reply_requests :
  (r ← token_step (fun n r => match n with 0 => None | S n => demo_network n r end) 9900 demo_ding [];
   reply_requests (fun n r => match n with 0 => None | S n => demo_network n r end) (fst r) [Webhook webhook_demo; Group $"cid1"; Batch $"u1"] $"hello" (snd r)) =
  Some [token_request demo_ding; webhook_request webhook_demo $"hello"; group_request demo_ding $"cid1" $"hello"; batch_request demo_ding $"u1" $"hello"].
Proof. by vm_compute. Qed.
