(* ===== verification/WebUiReplies.v ===== *)
(** The replies of [src/plugins/channels/webui_channel/webui_channel.c]: the
    queue of replies, the requests that wait for one, and the two threads that
    share them. A step is what a thread does while it holds the lock, so
    [enqueue_reply] and [handle_chat_poll] are two and three steps. What a
    browser was answered is kept in the order of the answers. Allocations
    succeed, and the time-out of a request comes as an event. *)
From S2P Require Import Prelude CStr Json.

Record ReplyNode := mkReplyNode { rn_chat_id : cstr; rn_content : cstr; rn_created_at : Z }.
(** A connection is known by a number. *)
Record LongPollWaiter := mkWaiter { lw_conn : nat; lw_chat_id : cstr }.

#[export] Instance LongPollWaiter_eq_dec : EqDecision LongPollWaiter.
Proof. solve_decision. Defined.

Inductive Answer := AnswerReply (chat_id content : cstr) | AnswerNothing.

(** Where the thread that sends is, and where the server's is: in a poll, or
    in the callback of a timer, before it has the lock. *)
Inductive SenderPc := SendIdle | SendChecked (chat_id content : cstr) (has_waiter : bool).
Inductive ServerPc := ServerIdle | PollCleaned (conn : nat) (chat_id : cstr) | PollMissed (conn : nat) (chat_id : cstr) | TimeoutBegun (w : LongPollWaiter).

Record Replies := mkReplies {
  ws_replies : list ReplyNode;
  ws_waiters : list LongPollWaiter;
  ws_sender : SenderPc;
  ws_server : ServerPc;
  ws_answers : list (nat * Answer);
  ws_freed_twice : bool;
}.
Definition no_replies : Replies := mkReplies [] [] SendIdle ServerIdle [] false.

(** The body of the answer. *)
Definition reply_json (chat_id content : cstr) : json := JObj [($"chat_id", JStr chat_id); ($"message", JStr content)].

(** ** The operations under the lock *)

Definition waits_for (chat_id : cstr) (w : LongPollWaiter) : bool := str_eq (lw_chat_id w) chat_id.
Definition has_waiter (chat_id : cstr) (s : Replies) : bool := existsb (waits_for chat_id) (ws_waiters s).

Definition wake_long_poll_waiters (chat_id content : cstr) (s : Replies) : Replies :=
  mkReplies (ws_replies s) (List.filter (fun w => negb (waits_for chat_id w)) (ws_waiters s)) (ws_sender s) (ws_server s)
    (ws_answers s ++ ((fun w => (lw_conn w, AnswerReply chat_id content)) <$> List.filter (waits_for chat_id) (ws_waiters s))) (ws_freed_twice s).

Fixpoint take_reply (chat_id : cstr) (l : list ReplyNode) : option (ReplyNode * list ReplyNode) :=
  match l with
  | [] => None
  | n :: r => if str_eq (rn_chat_id n) chat_id then Some (n, r) else '(m, r) ← take_reply chat_id r; Some (m, n :: r)
  end.

Definition keep_reply (now : Z) (n : ReplyNode) : bool := negb (600 <? now - rn_created_at n)%Z.
Definition cleanup_old_replies (now : Z) (l : list ReplyNode) : list ReplyNode := List.filter (keep_reply now) l.

Definition set_sender (pc : SenderPc) (s : Replies) : Replies := mkReplies (ws_replies s) (ws_waiters s) pc (ws_server s) (ws_answers s) (ws_freed_twice s).
Definition set_server (pc : ServerPc) (s : Replies) : Replies := mkReplies (ws_replies s) (ws_waiters s) (ws_sender s) pc (ws_answers s) (ws_freed_twice s).
Definition set_replies (l : list ReplyNode) (s : Replies) : Replies := mkReplies l (ws_waiters s) (ws_sender s) (ws_server s) (ws_answers s) (ws_freed_twice s).
Definition set_waiters (l : list LongPollWaiter) (s : Replies) : Replies := mkReplies (ws_replies s) l (ws_sender s) (ws_server s) (ws_answers s) (ws_freed_twice s).
Definition free_twice (s : Replies) : Replies := mkReplies (ws_replies s) (ws_waiters s) (ws_sender s) (ws_server s) (ws_answers s) true.
Definition answer (conn : nat) (a : Answer) (s : Replies) : Replies :=
  mkReplies (ws_replies s) (ws_waiters s) (ws_sender s) (ws_server s) (ws_answers s ++ [(conn, a)]) (ws_freed_twice s).

(** The first waiter of a connection is taken out of the list. *)
Fixpoint forget_conn (conn : nat) (l : list LongPollWaiter) : list LongPollWaiter :=
  match l with [] => [] | w :: r => if Nat.eqb (lw_conn w) conn then r else w :: forget_conn conn r end.

(** The one a timer was made for, if it is there. *)
Fixpoint remove_waiter (w : LongPollWaiter) (l : list LongPollWaiter) : option (list LongPollWaiter) :=
  match l with [] => None | v :: r => if decide (v = w) then Some r else cons v <$> remove_waiter w r end.

(** ** The steps *)

Inductive ReplyEvent :=
  (** [enqueue_reply] up to its first unlock, and from there. *)
  | EvCheck (chat_id content : cstr) | EvEnqueue (now : Z)
  (** [handle_chat_poll]: the old replies are dropped, one is taken, the
      request is put among those that wait. *)
  | EvPoll (conn : nat) (chat_id : cstr) (now : Z) | EvTake | EvWait
  (** [long_poll_timeout_cb] is called for the waiter at an index, and gets
      the lock; a connection ends. *)
  | EvExpire (i : nat) | EvTimeout | EvClose (conn : nat).

Definition enqueue_reply_check (chat_id content : cstr) (s : Replies) : option Replies :=
  match ws_sender s with SendIdle => Some (set_sender (SendChecked chat_id content (has_waiter chat_id s)) s) | _ => None end.
Definition enqueue_reply_end (now : Z) (s : Replies) : option Replies :=
  match ws_sender s with
  | SendChecked chat_id content true => Some (set_sender SendIdle (wake_long_poll_waiters chat_id content s))
  | SendChecked chat_id content false => Some (set_sender SendIdle (set_replies (ws_replies s ++ [mkReplyNode chat_id content now]) s))
  | SendIdle => None
  end.

Definition poll_begin (conn : nat) (chat_id : cstr) (now : Z) (s : Replies) : option Replies :=
  match ws_server s with
  | ServerIdle => Some (set_server (PollCleaned conn chat_id) (set_replies (cleanup_old_replies now (ws_replies s)) s))
  | _ => None
  end.
Definition poll_take (s : Replies) : option Replies :=
  match ws_server s with
  | PollCleaned conn chat_id =>
      Some match take_reply chat_id (ws_replies s) with
           | Some (n, r) => set_server ServerIdle (answer conn (AnswerReply (rn_chat_id n) (rn_content n)) (set_replies r s))
           | None => set_server (PollMissed conn chat_id) s
           end
  | _ => None
  end.
Definition poll_wait (s : Replies) : option Replies :=
  match ws_server s with
  | PollMissed conn chat_id => Some (set_server ServerIdle (set_waiters (mkWaiter conn chat_id :: ws_waiters s) s))
  | _ => None
  end.

Definition timer_expired (i : nat) (s : Replies) : option Replies :=
  match ws_server s, ws_waiters s !! i with ServerIdle, Some w => Some (set_server (TimeoutBegun w) s) | _, _ => None end.
(** A waiter that is not in the list any more was freed already. *)
Definition long_poll_timeout_cb (s : Replies) : option Replies :=
  match ws_server s with
  | TimeoutBegun w =>
      Some (set_server ServerIdle match remove_waiter w (ws_waiters s) with
                                  | Some l => answer (lw_conn w) AnswerNothing (set_waiters l s)
                                  | None => free_twice s
                                  end)
  | _ => None
  end.
(** [webui_http_handler] at [MG_EV_CLOSE]. *)
Definition waiter_closed (conn : nat) (s : Replies) : option Replies :=
  match ws_server s with ServerIdle => Some (set_waiters (forget_conn conn (ws_waiters s)) s) | _ => None end.

(** [None]: the thread is elsewhere. *)
Definition reply_step (e : ReplyEvent) (s : Replies) : option Replies :=
  match e with
  | EvCheck chat_id content => enqueue_reply_check chat_id content s
  | EvEnqueue now => enqueue_reply_end now s
  | EvPoll conn chat_id now => poll_begin conn chat_id now s
  | EvTake => poll_take s
  | EvWait => poll_wait s
  | EvExpire i => timer_expired i s
  | EvTimeout => long_poll_timeout_cb s
  | EvClose conn => waiter_closed conn s
  end.

Fixpoint reply_steps (evs : list ReplyEvent) (s : Replies) : option Replies :=
  match evs with [] => Some s | e :: r => s ← reply_step e s; reply_steps r s end.

(** ** What a browser gets was sent to its chat *)

Definition sent_in (evs : list ReplyEvent) : list (cstr * cstr) := omap (fun e => match e with EvCheck ch m => Some (ch, m) | _ => None end) evs.
Definition polled_in (evs : list ReplyEvent) : list (nat * cstr) := omap (fun e => match e with EvPoll c ch _ => Some (c, ch) | _ => None end) evs.

Record replies_ok (sent : list (cstr * cstr)) (polled : list (nat * cstr)) (s : Replies) : Prop := {
  ro_replies : Forall (fun n => (rn_chat_id n, rn_content n) ∈ sent) (ws_replies s);
  ro_waiters : Forall (fun w => (lw_conn w, lw_chat_id w) ∈ polled) (ws_waiters s);
  ro_sender : match ws_sender s with SendIdle => True | SendChecked ch m _ => (ch, m) ∈ sent end;
  ro_server : match ws_server s with ServerIdle | TimeoutBegun _ => True | PollCleaned c ch | PollMissed c ch => (c, ch) ∈ polled end;
  ro_answers : Forall (fun p => match snd p with AnswerReply ch m => (ch, m) ∈ sent /\ (fst p, ch) ∈ polled | AnswerNothing => True end) (ws_answers s);
}.

Lemma replies_ok_mono sent sent' polled polled' s : sent ⊆ sent' -> polled ⊆ polled' -> replies_ok sent polled s -> replies_ok sent' polled' s.
Proof.
  intros Hs Hp [H1 H2 H3 H4 H5]. constructor.
  - apply (Forall_impl _ _ _ H1). intros n. apply Hs.
  - apply (Forall_impl _ _ _ H2). intros w. apply Hp.
  - destruct (ws_sender s); [done|by apply Hs].
  - destruct (ws_server s); [done|by apply Hp..|done].
  - apply (Forall_impl _ _ _ H5). intros [c []]; cbn; naive_solver.
Qed.

Lemma Forall_lfilter {A} (P : A -> Prop) (f : A -> bool) l : Forall P l -> Forall P (List.filter f l).
Proof. induction 1; cbn; [done|]. case_match; [by constructor|done]. Qed.

Lemma take_reply_mid ch l n r : take_reply ch l = Some (n, r) ->
  exists l1 l2, l = l1 ++ n :: l2 /\ r = l1 ++ l2 /\ rn_chat_id n = ch /\ Forall (fun m => rn_chat_id m <> ch) l1.
Proof.
  revert r. induction l as [|m l IH]; intros r; cbn [take_reply]; [done|]. unfold str_eq at 1. case_bool_decide as E.
  - intros [= <- <-]. exists [], l. repeat split; [done|constructor].
  - destruct (take_reply ch l) as [[n' r']|]; cbn [mbind option_bind]; [|done]. intros [= -> <-].
    destruct (IH r' eq_refl) as (l1 & l2 & -> & -> & Hn & H). exists (m :: l1), l2. repeat split; [done|by constructor].
Qed.

Lemma take_reply_none ch l : take_reply ch l = None -> Forall (fun m => rn_chat_id m <> ch) l.
Proof.
  induction l as [|m l IH]; cbn [take_reply]; [constructor|]. unfold str_eq at 1. case_bool_decide as E; [done|].
  destruct (take_reply ch l) as [[]|]; [done|]. constructor; auto.
Qed.

Lemma forget_conn_sublist c l : sublist (forget_conn c l) l.
Proof. induction l as [|w l IH]; cbn; [constructor|]. case_match; [by apply sublist_cons|by apply sublist_skip]. Qed.

Lemma last_in {A} (l : list A) x : x ∈ l ++ [x].
Proof. apply elem_of_app. right. constructor. Qed.

Lemma remove_waiter_sublist w l l' : remove_waiter w l = Some l' -> sublist l' l.
Proof.
  revert l'. induction l as [|v l IH]; intros l' H; cbn in H; [done|]. destruct (decide (v = w)); [simplify_eq; by apply sublist_cons|].
  destruct (remove_waiter w l) as [r|]; simplify_eq/=. apply sublist_skip. by apply IH.
Qed.

Lemma replies_ok_step sent polled e s s' : reply_step e s = Some s' -> replies_ok sent polled s ->
  replies_ok (sent ++ sent_in [e]) (polled ++ polled_in [e]) s'.
Proof.
  intros H Hok. apply (replies_ok_mono _ (sent ++ sent_in [e]) _ (polled ++ polled_in [e])) in Hok; [|set_solver..].
  destruct Hok as [H1 H2 H3 H4 H5].
  destruct e; cbn [reply_step] in H.
  - unfold enqueue_reply_check in H. destruct (ws_sender s); simplify_eq. constructor; try done. apply last_in.
  - unfold enqueue_reply_end in H. destruct (ws_sender s) as [|ch m w] eqn:E; [done|]. destruct w; simplify_eq; constructor; try done; cbn.
    + by apply Forall_lfilter.
    + rewrite Forall_app, Forall_fmap. split; [done|]. rewrite List.Forall_forall in H2 |- *. intros w Hw. apply filter_In in Hw as [Hw Hc].
      cbn. split; [done|]. apply bool_decide_eq_true in Hc. rewrite <-Hc. by apply H2.
    + rewrite Forall_app. split; [done|]. by repeat constructor.
  - unfold poll_begin in H. destruct (ws_server s); simplify_eq. constructor; try done; cbn; [by apply Forall_lfilter|apply last_in].
  - unfold poll_take in H. destruct (ws_server s) as [|c ch| |] eqn:E; simplify_eq. destruct (take_reply ch (ws_replies s)) as [[n r]|] eqn:Et.
    + destruct (take_reply_mid _ _ _ _ Et) as (l1 & l2 & Hl & -> & Hn & _). rewrite Hl, Forall_app, Forall_cons in H1. destruct H1 as (? & ? & ?).
      constructor; try done; cbn; [rewrite Forall_app; by split|]. rewrite Forall_app, Forall_singleton. split; [done|]. cbn. by rewrite Hn in *.
    + constructor; done.
  - unfold poll_wait in H. destruct (ws_server s) as [| |c ch|]; simplify_eq. constructor; try done; cbn. by constructor.
  - unfold timer_expired in H. destruct (ws_server s) eqn:E; try done. destruct (ws_waiters s !! i); simplify_eq. by constructor.
  - unfold long_poll_timeout_cb in H. destruct (ws_server s) as [| | |w] eqn:E; try done. simplify_eq. destruct (remove_waiter w _) as [l|] eqn:Er; [|by constructor].
    constructor; cbn; try done; [exact (sublist_Forall _ _ _ (remove_waiter_sublist _ _ _ Er) H2)|]. rewrite Forall_app. split; [done|]. by repeat constructor.
  - unfold waiter_closed in H. destruct (ws_server s) eqn:E; try done. simplify_eq. constructor; cbn; rewrite ?E; try done. eapply sublist_Forall; [apply forget_conn_sublist|done].
Qed.

Lemma replies_ok_steps evs s s' sent polled : reply_steps evs s = Some s' -> replies_ok sent polled s ->
  replies_ok (sent ++ sent_in evs) (polled ++ polled_in evs) s'.
Proof.
  revert s sent polled. induction evs as [|e evs IH]; intros s sent polled H Hok; cbn [reply_steps] in H.
  - simplify_eq. by rewrite !app_nil_r.
  - destruct (reply_step e s) as [s1|] eqn:E; [|done]. pose proof (replies_ok_step _ _ _ _ _ E Hok) as Hok1.
    pose proof (IH _ _ _ H Hok1) as Hok2. eapply replies_ok_mono; [| |exact Hok2]; rewrite <-app_assoc; unfold sent_in, polled_in; by rewrite <-omap_app.
Qed.

(** Under every interleaving of the two threads, what a browser is answered
    was sent to the chat its request named. *)
Lemma replies_reach_their_chat evs s conn ch m : reply_steps evs no_replies = Some s -> (conn, AnswerReply ch m) ∈ ws_answers s ->
  (ch, m) ∈ sent_in evs /\ (conn, ch) ∈ polled_in evs.
Proof.
  intros H Ha. assert (replies_ok [] [] no_replies) as H0 by (constructor; constructor).
  apply (replies_ok_steps _ _ _ _ _ H) in H0. pose proof (ro_answers _ _ _ H0) as Hall. rewrite Forall_forall in Hall. exact (Hall _ Ha).
Qed.

(** ** One page for each chat, and no step between two of another *)

Inductive Action := ActSend (chat_id content : cstr) (now : Z) | ActPoll (conn : nat) (chat_id : cstr) (now : Z) | ActTimeout (i : nat) | ActClose (conn : nat).

Definition act_poll (conn : nat) (chat_id : cstr) (now : Z) (s : Replies) : option Replies :=
  s ← reply_steps [EvPoll conn chat_id now; EvTake] s; match ws_server s with ServerIdle => Some s | _ => poll_wait s end.
Definition act (a : Action) (s : Replies) : option Replies :=
  match a with
  | ActSend chat_id content now => reply_steps [EvCheck chat_id content; EvEnqueue now] s
  | ActPoll conn chat_id now => if has_waiter chat_id s then None else act_poll conn chat_id now s
  | ActTimeout i => reply_steps [EvExpire i; EvTimeout] s
  | ActClose conn => waiter_closed conn s
  end.
Fixpoint acts (l : list Action) (s : Replies) : option Replies := match l with [] => Some s | a :: r => s ← act a s; acts r s end.

Definition sent_to (chat_id : cstr) (l : list Action) : list cstr :=
  omap (fun a => match a with ActSend ch m _ => if str_eq ch chat_id then Some m else None | _ => None end) l.
Definition act_time (a : Action) : option Z := match a with ActSend _ _ t | ActPoll _ _ t => Some t | _ => None end.

Definition delivered_to (chat_id : cstr) (s : Replies) : list cstr :=
  omap (fun p => match snd p with AnswerReply ch m => if str_eq ch chat_id then Some m else None | AnswerNothing => None end) (ws_answers s).
Definition queued_of (chat_id : cstr) (l : list ReplyNode) : list cstr := omap (fun n => if str_eq (rn_chat_id n) chat_id then Some (rn_content n) else None) l.
#[global] Arguments queued_of : simpl never.
Lemma queued_of_cons c n l : queued_of c (n :: l) = (if str_eq (rn_chat_id n) c then [rn_content n] else []) ++ queued_of c l.
Proof. unfold queued_of. cbn. by destruct (str_eq _ c). Qed.
Definition queued_for (chat_id : cstr) (s : Replies) : list cstr := queued_of chat_id (ws_replies s).

Record paged (s : Replies) : Prop := {
  pg_sender : ws_sender s = SendIdle;
  pg_server : ws_server s = ServerIdle;
  pg_once : NoDup (lw_chat_id <$> ws_waiters s);
  pg_none : forall w, w ∈ ws_waiters s -> queued_for (lw_chat_id w) s = [];
  pg_freed : ws_freed_twice s = false;
}.

Lemma has_waiter_true ch s : has_waiter ch s = true <-> exists w, w ∈ ws_waiters s /\ lw_chat_id w = ch.
Proof.
  unfold has_waiter. rewrite existsb_exists. unfold waits_for, str_eq. split; intros (w & Hw & Hc); exists w; rewrite list_elem_of_In in *; split; try done;
    [by apply bool_decide_eq_true in Hc|by apply bool_decide_eq_true].
Qed.

Lemma filter_waits ch l : NoDup (lw_chat_id <$> l) -> existsb (waits_for ch) l = true ->
  exists w, List.filter (waits_for ch) l = [w] /\ lw_chat_id w = ch.
Proof.
  induction l as [|w l IH]; intros Hn H; [done|]. rewrite fmap_cons, NoDup_cons in Hn. destruct Hn as [Hw Hn]. cbn [existsb List.filter] in *.
  unfold waits_for in H at 1 |- * at 1. unfold str_eq in *. case_bool_decide as E; [|by apply IH].
  exists w. split; [|done]. f_equal. clear IH H Hn. induction l as [|v l IH]; [done|]. rewrite fmap_cons, not_elem_of_cons in Hw. destruct Hw as [Hv Hw].
  cbn [List.filter]. unfold waits_for at 1, str_eq. rewrite bool_decide_false by congruence. by apply IH.
Qed.

Lemma queued_of_app c l l' : queued_of c (l ++ l') = queued_of c l ++ queued_of c l'.
Proof. apply omap_app. Qed.

Lemma queued_of_other c l : Forall (fun n => rn_chat_id n <> c) l -> queued_of c l = [].
Proof. induction 1 as [|n l H _ IH]; [done|]. unfold queued_of in *. cbn. unfold str_eq at 1. by rewrite bool_decide_false. Qed.

Lemma queued_of_sublist c l l' : sublist l l' -> sublist (queued_of c l) (queued_of c l').
Proof. apply sublist_omap. Qed.

Lemma delivered_answer c conn a s : delivered_to c (answer conn a s) =
  delivered_to c s ++ match a with AnswerReply ch m => if str_eq ch c then [m] else [] | AnswerNothing => [] end.
Proof. unfold delivered_to. cbn. rewrite omap_app. f_equal. cbn. destruct a as [ch m|]; [|done]. by destruct (str_eq ch c). Qed.

Lemma filter_sublist {A} (f : A -> bool) l : sublist (List.filter f l) l.
Proof. induction l as [|x l IH]; cbn; [done|]. destruct (f x); [by apply sublist_skip|by apply sublist_cons]. Qed.

Lemma keep_all now l : Forall (fun n => now - rn_created_at n <= 600)%Z l -> cleanup_old_replies now l = l.
Proof.
  induction 1 as [|n l H _ IH]; [done|]. cbn [cleanup_old_replies List.filter]. unfold keep_reply at 1.
  destruct (Z.ltb_spec 600 (now - rn_created_at n)); [lia|]. cbn [negb]. by rewrite <-IH at 2.
Qed.

(** What an action does to the messages of a chat: [q] is what is left of its
    queue. *)
Definition moves (a : Action) (s s' : Replies) : Prop := forall c, exists q,
  sublist q (queued_for c s) /\
  (Forall (fun n => forall now, act_time a = Some now -> now - rn_created_at n <= 600)%Z (ws_replies s) -> q = queued_for c s) /\
  delivered_to c s' ++ queued_for c s' = delivered_to c s ++ q ++ sent_to c [a].

Lemma send_moves ch m now s s' : paged s -> act (ActSend ch m now) s = Some s' -> paged s' /\ moves (ActSend ch m now) s s'.
Proof.
  intros [Hp1 Hp2 Hp3 Hp4 Hp5] H. unfold act in H. cbn [reply_steps reply_step] in H. unfold enqueue_reply_check in H. rewrite Hp1 in H.
  unfold enqueue_reply_end in H. cbn [mbind option_bind set_sender ws_sender] in H. destruct (has_waiter ch s) eqn:Ew; cbn [mbind option_bind] in H; simplify_eq.
  - destruct (filter_waits ch _ Hp3 Ew) as (w & Hf & Hw).
    assert (sublist (List.filter (fun w => negb (waits_for ch w)) (ws_waiters s)) (ws_waiters s)) as Hs by apply filter_sublist. split.
    + constructor; try done; cbn.
      * apply (sublist_NoDup _ _ Hp3). by apply fmap_sublist.
      * intros v Hv. apply Hp4. exact (elem_of_sublist _ _ _ Hv Hs).
    + intros c. exists (queued_for c s). split; [done|]. split; [done|]. unfold delivered_to, queued_for. cbn.
      rewrite Hf, omap_app. cbn. unfold str_eq. case_bool_decide as Hc; [|by rewrite !app_nil_r]. subst c.
      assert (queued_of ch (ws_replies s) = []) as -> by (rewrite <-Hw; apply Hp4; apply list_elem_of_In, (proj1 (filter_In (waits_for ch) _ _)); rewrite Hf; by left).
      by rewrite app_nil_r.
  - split.
    + constructor; try done. cbn. intros v Hv. unfold queued_for in *. cbn. rewrite queued_of_app, Hp4 by done. rewrite queued_of_cons. cbn. unfold str_eq.
      rewrite bool_decide_false; [done|]. intros Hc. apply not_true_iff_false in Ew. apply Ew, has_waiter_true. by exists v.
    + intros c. exists (queued_for c s). split; [done|]. split; [done|]. unfold queued_for. cbn. rewrite queued_of_app, queued_of_cons.
      change (delivered_to c _) with (delivered_to c s) at 1. f_equal. f_equal. cbn. by destruct (str_eq ch c).
Qed.

Lemma poll_moves conn ch now s s' : paged s -> act (ActPoll conn ch now) s = Some s' -> paged s' /\ moves (ActPoll conn ch now) s s'.
Proof.
  intros [Hp1 Hp2 Hp3 Hp4 Hp5] H. unfold act in H. destruct (has_waiter ch s) eqn:Ew; [done|]. unfold act_poll in H.
  cbn [reply_steps reply_step] in H. unfold poll_begin in H. rewrite Hp2 in H. cbn [mbind option_bind] in H. unfold poll_take in H. cbn [set_server ws_server set_replies ws_replies] in H.
  set (kept := cleanup_old_replies now (ws_replies s)) in *.
  assert (sublist kept (ws_replies s)) as Hk by apply filter_sublist.
  assert (forall c, queued_for c s = [] -> queued_of c kept = []) as Hnil.
  { intros c Hc. apply (queued_of_sublist c) in Hk. unfold queued_for in Hc. rewrite Hc in Hk. by apply sublist_nil_r in Hk. }
  assert (forall c, sublist (queued_of c kept) (queued_for c s) /\
    (Forall (fun n => forall t, act_time (ActPoll conn ch now) = Some t -> t - rn_created_at n <= 600)%Z (ws_replies s) -> queued_of c kept = queued_for c s)) as Hq.
  { intros c. split; [by apply queued_of_sublist|]. intros Hf. unfold queued_for. f_equal. apply keep_all. apply (Forall_impl _ _ _ Hf). auto. }
  destruct (take_reply ch kept) as [[n r]|] eqn:Et; cbn [mbind option_bind set_server ws_server answer poll_wait] in H; simplify_eq.
  - destruct (take_reply_mid _ _ _ _ Et) as (l1 & l2 & Hl & -> & Hn & Ho). split.
    + constructor; try done. cbn. intros w Hw. unfold queued_for. cbn. specialize (Hnil _ (Hp4 w Hw)). rewrite Hl in Hnil.
      rewrite queued_of_app, queued_of_cons in Hnil. apply app_nil in Hnil as [H1 [_ H2]%app_nil]. by rewrite queued_of_app, H1.
    + intros c. exists (queued_of c kept). destruct (Hq c). split_and!; [done..|].
      change (delivered_to c (set_server ServerIdle ?x)) with (delivered_to c x). rewrite delivered_answer. unfold queued_for. cbn. rewrite Hl, !queued_of_app, queued_of_cons, app_nil_r, <-!app_assoc.
      change (delivered_to c _) with (delivered_to c s) at 1. f_equal. cbn. rewrite Hn. unfold str_eq. case_bool_decide as Hc; [|done]. subst c.
      by rewrite (queued_of_other _ _ Ho).
  - pose proof (take_reply_none _ _ Et) as Hnone. split.
    + constructor; try done; cbn.
      * constructor; [|done]. intros (w & Hw & Hin)%list_elem_of_fmap. apply not_true_iff_false in Ew. apply Ew, has_waiter_true. by exists w.
      * intros w [->|Hw]%elem_of_cons; unfold queued_for; cbn; [by apply queued_of_other|]. apply Hnil, Hp4, Hw.
    + intros c. exists (queued_of c kept). destruct (Hq c). split_and!; [done..|]. cbn. by rewrite app_nil_r.
Qed.

Lemma remove_waiter_in w l : w ∈ l -> is_Some (remove_waiter w l).
Proof.
  induction l as [|v l IH]; intros H; [by apply not_elem_of_nil in H|]. cbn. destruct (decide (v = w)) as [|Hv]; [by eexists|].
  apply elem_of_cons in H as [->|H]; [done|]. destruct (IH H) as [r ->]. by eexists.
Qed.

Lemma fewer_waiters l s : sublist l (ws_waiters s) -> paged s -> paged (set_waiters l s).
Proof.
  intros Hl [Hp1 Hp2 Hp3 Hp4 Hp5]. constructor; try done; cbn; [apply (sublist_NoDup _ _ Hp3); by apply fmap_sublist|].
  intros w Hw. apply (Hp4 w). exact (elem_of_sublist _ _ _ Hw Hl).
Qed.

Lemma delete_sublist {A} i (l : list A) : sublist (delete i l) l.
Proof. revert i. induction l as [|x l IH]; intros [|i]; cbn; [done..|by apply sublist_cons|by apply sublist_skip]. Qed.

Lemma act_moves a s s' : paged s -> act a s = Some s' -> paged s' /\ moves a s s'.
Proof.
  intros Hp H. destruct a as [ch m now|conn ch now|i|conn]; [by apply send_moves|by apply poll_moves|..]; cbn [act] in H.
  - cbn [reply_steps reply_step] in H. unfold timer_expired in H. destruct (ws_server s) eqn:Es; try done. destruct (ws_waiters s !! i) as [w|] eqn:Ew; [|done].
    cbn [mbind option_bind] in H. unfold long_poll_timeout_cb in H. cbn [set_server ws_server ws_waiters] in H.
    destruct (remove_waiter_in w (ws_waiters s) (list_elem_of_lookup_2 _ _ _ Ew)) as [l Hl]. rewrite Hl in H. cbn [mbind option_bind] in H. simplify_eq. split.
    + destruct (fewer_waiters l s (remove_waiter_sublist _ _ _ Hl) Hp). by constructor.
    + intros c. exists (queued_for c s). split_and!; [done..|]. unfold delivered_to, queued_for. cbn. rewrite omap_app. cbn. by rewrite !app_nil_r.
  - unfold waiter_closed in H. destruct (ws_server s); simplify_eq. split; [apply fewer_waiters; [apply forget_conn_sublist|done]|].
    intros c. exists (queued_for c s). split_and!; [done..|]. cbn. by rewrite app_nil_r.
Qed.

Lemma act_created a s s' (P : Z -> Prop) : act a s = Some s' -> (forall t, act_time a = Some t -> P t) ->
  Forall (fun n => P (rn_created_at n)) (ws_replies s) -> Forall (fun n => P (rn_created_at n)) (ws_replies s').
Proof.
  intros H Ht Hf. destruct a as [ch m now|conn ch now|i|conn]; cbn [act] in H.
  - cbn [reply_steps reply_step] in H. unfold enqueue_reply_check in H. destruct (ws_sender s); cbn [mbind option_bind] in H; [|done].
    unfold enqueue_reply_end in H. cbn in H. destruct (has_waiter ch s); cbn in H; simplify_eq; cbn; [done|]. rewrite Forall_app. split; [done|]. repeat constructor. by apply Ht.
  - destruct (has_waiter ch s); [done|]. unfold act_poll in H. cbn [reply_steps reply_step] in H. unfold poll_begin in H. destruct (ws_server s); cbn [mbind option_bind] in H; try done.
    unfold poll_take in H. cbn in H. assert (Forall (fun n => P (rn_created_at n)) (cleanup_old_replies now (ws_replies s))) as Hk by (by apply Forall_lfilter).
    destruct (take_reply ch _) as [[n r]|] eqn:Et; cbn in H; simplify_eq; cbn; [|done].
    destruct (take_reply_mid _ _ _ _ Et) as (l1 & l2 & Hl & -> & _). rewrite Hl, Forall_app, Forall_cons in Hk. rewrite Forall_app. naive_solver.
  - cbn [reply_steps reply_step] in H. unfold timer_expired in H. destruct (ws_server s) eqn:Es; try done. destruct (ws_waiters s !! i) as [w|]; [|done].
    cbn [mbind option_bind] in H. unfold long_poll_timeout_cb in H. cbn [set_server ws_server ws_waiters] in H. destruct (remove_waiter w _); cbn in H; by simplify_eq.
  - unfold waiter_closed in H. by destruct (ws_server s); simplify_eq.
Qed.

(** The times at which something was sent or asked for. *)
Definition act_times (l : list Action) : list Z := omap act_time l.
Definition close_times (l : list Action) : Prop := forall t t', t ∈ act_times l -> t' ∈ act_times l -> (t - t' <= 600)%Z.

Record delivery (l done_ : list Action) (s : Replies) : Prop := {
  dl_paged : paged s;
  dl_created : Forall (fun n => rn_created_at n ∈ act_times l) (ws_replies s);
  dl_part : forall c, sublist (delivered_to c s ++ queued_for c s) (sent_to c done_);
  dl_all : close_times l -> forall c, delivered_to c s ++ queued_for c s = sent_to c done_;
}.

Lemma delivery_act l d a s s' : (forall t, act_time a = Some t -> t ∈ act_times l) -> act a s = Some s' -> delivery l d s -> delivery l (d ++ [a]) s'.
Proof.
  intros Ht H [H1 H2 H3 H4]. destruct (act_moves a s s' H1 H) as [Hp Hm]. constructor.
  - done.
  - by apply (act_created _ _ _ (fun t => t ∈ act_times l) H).
  - intros c. destruct (Hm c) as (q & Hq & _ & ->). unfold sent_to. rewrite omap_app, app_assoc. apply sublist_app; [|done].
    etrans; [|apply H3]. by apply sublist_app.
  - intros Hc c. destruct (Hm c) as (q & Hq & Hall & ->). unfold sent_to. rewrite omap_app, app_assoc. f_equal. rewrite Hall; [by apply H4|].
    apply (Forall_impl _ _ _ H2). intros n Hn now Hnow. apply Hc; auto.
Qed.

Lemma delivery_acts l todo d s s' : (forall t, t ∈ act_times todo -> t ∈ act_times l) -> acts todo s = Some s' -> delivery l d s -> delivery l (d ++ todo) s'.
Proof.
  revert d s. induction todo as [|a todo IH]; intros d s Ht H Hd; cbn [acts] in H; [simplify_eq; by rewrite app_nil_r|].
  destruct (act a s) as [s1|] eqn:E; [|done]. cbn [mbind option_bind] in H. replace (d ++ a :: todo) with ((d ++ [a]) ++ todo) by (by rewrite <-app_assoc).
  apply (IH _ s1); [|done|].
  - intros t Hin. apply Ht. unfold act_times. cbn. destruct (act_time a); [by right|done].
  - eapply delivery_act; [|exact E|done]. intros t Hin. apply Ht. unfold act_times. cbn. rewrite Hin. by left.
Qed.

(** C39: When each chat has one page and no step comes between those of another
    thread, a chat gets its replies in the order they were sent, each at most
    once, and no waiter is freed twice; when nothing is older than ten minutes,
    each reply is delivered or still in the queue. *)
Theorem webui_replies_in_order l s : acts l no_replies = Some s ->
  ws_freed_twice s = false /\
  forall c, sublist (delivered_to c s ++ queued_for c s) (sent_to c l) /\ (close_times l -> delivered_to c s ++ queued_for c s = sent_to c l).
Proof.
  intros H. assert (delivery l [] no_replies) as H0.
  { constructor; [constructor; cbn; [done..|constructor| |done]|constructor|done|done]. intros w Hw. by apply not_elem_of_nil in Hw. }
  destruct (delivery_acts l l [] no_replies s (fun _ x => x) H H0) as [Hg _ Hp Ha]. split; [apply Hg|]. intros c. split; [apply Hp|]. intros Hc. by apply Ha.
Qed.

Definition demo_acts : list Action :=
  [ActSend $"a" $"one" 10; ActSend $"b" $"two" 11; ActPoll 1 $"a" 12; ActPoll 2 $"a" 13; ActSend $"a" $"three" 14; ActPoll 3 $"a" 15; ActTimeout 0; ActSend $"a" $"four" 16].
Lemma webui_replies_in_order_witness :
  exists s, acts demo_acts no_replies = Some s /\ delivered_to $"a" s = [$"one"; $"three"] /\ queued_for $"a" s = [$"four"] /\
    delivered_to $"a" s ++ queued_for $"a" s = sent_to $"a" demo_acts.
Proof.
  eexists. split; [vm_compute; reflexivity|]. split; [vm_compute; reflexivity|]. split; [vm_compute; reflexivity|].
  refine (proj2 (proj2 (webui_replies_in_order demo_acts _ _) $"a") _); [vm_compute; reflexivity|].
  intros t t' Ht Ht'. assert (act_times demo_acts = [10; 11; 12; 13; 14; 15; 16]%Z) as E by (vm_compute; reflexivity). rewrite E in Ht, Ht'.
  assert (forall u, u ∈ [10; 11; 12; 13; 14; 15; 16]%Z -> (10 <= u <= 16)%Z) as Hb by (intros u Hu; repeat (apply elem_of_cons in Hu as [->|Hu]; [lia|]); by apply not_elem_of_nil in Hu).
  pose proof (Hb t Ht). pose proof (Hb t' Ht'). lia.
Defined.

(** ** What the steps between two locks allow *)

Definition page_waits : list ReplyEvent := [EvPoll 1 $"a" 0; EvTake; EvWait].

(** The request times out after the sender saw it wait: the reply is neither
    delivered nor kept. *)
Lemma webui_reply_lost : exists s, reply_steps (page_waits ++ [EvCheck $"a" $"hello"; EvExpire 0; EvTimeout; EvEnqueue 1]) no_replies = Some s /\
  ws_answers s = [(1, AnswerNothing)] /\ ws_replies s = [] /\ ws_sender s = SendIdle.
Proof. eexists. split; [vm_compute; reflexivity|]. by vm_compute. Qed.

(** A reply that is queued between the look into the queue and the wait stays
    there while the request waits, and the next reply is delivered before. *)
Lemma webui_reply_overtaken : exists s,
  reply_steps [EvPoll 1 $"a" 0; EvTake; EvCheck $"a" $"first"; EvEnqueue 1; EvWait; EvCheck $"a" $"second"; EvEnqueue 2] no_replies = Some s /\
  ws_answers s = [(1, AnswerReply $"a" $"second")] /\ queued_for $"a" s = [$"first"].
Proof. eexists. split; [vm_compute; reflexivity|]. by vm_compute. Qed.

(** Two pages on one chat get the same reply. *)
Lemma webui_reply_twice : exists s,
  reply_steps ([EvPoll 1 $"a" 0; EvTake; EvWait; EvPoll 2 $"a" 0; EvTake; EvWait] ++ [EvCheck $"a" $"hello"; EvEnqueue 1]) no_replies = Some s /\
  delivered_to $"a" s = [$"hello"; $"hello"].
Proof. eexists. split; [vm_compute; reflexivity|]. by vm_compute. Qed.

(** The timer of a request fires while the sender answers it: the waiter is
    freed by both. *)
Lemma webui_waiter_freed_twice : exists s, reply_steps (page_waits ++ [EvExpire 0; EvCheck $"a" $"hello"; EvEnqueue 1; EvTimeout]) no_replies = Some s /\
  ws_freed_twice s = true.
Proof. eexists. split; [vm_compute; reflexivity|]. by vm_compute. Qed.
