(* ===== verification/WebUi.v ===== *)
(** [src/plugins/channels/webui_channel/webui_channel.c]: the data of the
    channel, the paths it works with, what it sends, the chat and the
    configuration. The thread of the server handles one request at a time.
    Files are known by their paths, directories among them; symbolic links are
    not modelled. Allocations succeed. The page itself is a parameter. *)
From S2P Require Import Prelude CStr Json Common Message MessageBus Mongoose Config ChannelCommon Base64 WebUiReplies Dispatcher.
Open Scope nat_scope.

Inductive Entry := EFile (text : cstr) | EDir.
Record WebFs := mkWebFs { wf_entries : gmap cstr Entry; wf_mkdir_ok : cstr -> bool; wf_writable : cstr -> bool }.

Definition put_entry (path : cstr) (e : Entry) (fs : WebFs) : WebFs := mkWebFs (<[path := e]> (wf_entries fs)) (wf_mkdir_ok fs) (wf_writable fs).
Definition is_dir (fs : WebFs) (path : cstr) : bool := match wf_entries fs !! path with Some EDir => true | _ => false end.
Definition entry_text (fs : WebFs) (path : cstr) : option cstr := match wf_entries fs !! path with Some (EFile t) => Some t | _ => None end.
(** [fopen(path, "wb")], the text, [fclose]. *)
Definition put_file (path text : cstr) (fs : WebFs) : option WebFs :=
  if wf_writable fs path && negb (is_dir fs path) then Some (put_entry path (EFile text) fs) else None.
Definition make_dir (path : cstr) (fs : WebFs) : option WebFs :=
  match wf_entries fs !! path with
  | Some _ => None
  | None => if wf_mkdir_ok fs path then Some (put_entry path EDir fs) else None
  end.

(** [wu_plugin_path]: the path of the plugin, when it is known;
    [wu_external_dir]: that of the manager; [wu_plugin_cfg]: where in the
    configuration the channel has its part. *)
Record WebUIChannelData := mkWebUi {
  wu_bus : option MessageBus;
  wu_cfg : Config;
  wu_plugin_cfg : option nat;
  wu_plugin_path : option cstr;
  wu_external_dir : option cstr;
  wu_running : bool;
  wu_port : Z;
  wu_config_path : cstr;
  wu_replies : Replies;
}.

Definition set_wu_bus (b : option MessageBus) (d : WebUIChannelData) : WebUIChannelData :=
  mkWebUi b (wu_cfg d) (wu_plugin_cfg d) (wu_plugin_path d) (wu_external_dir d) (wu_running d) (wu_port d) (wu_config_path d) (wu_replies d).
Definition set_wu_cfg (c : Config) (d : WebUIChannelData) : WebUIChannelData :=
  mkWebUi (wu_bus d) c (wu_plugin_cfg d) (wu_plugin_path d) (wu_external_dir d) (wu_running d) (wu_port d) (wu_config_path d) (wu_replies d).
Definition set_wu_running (b : bool) (d : WebUIChannelData) : WebUIChannelData :=
  mkWebUi (wu_bus d) (wu_cfg d) (wu_plugin_cfg d) (wu_plugin_path d) (wu_external_dir d) b (wu_port d) (wu_config_path d) (wu_replies d).
Definition set_wu_port (p : Z) (d : WebUIChannelData) : WebUIChannelData :=
  mkWebUi (wu_bus d) (wu_cfg d) (wu_plugin_cfg d) (wu_plugin_path d) (wu_external_dir d) (wu_running d) p (wu_config_path d) (wu_replies d).
Definition set_wu_replies (r : Replies) (d : WebUIChannelData) : WebUIChannelData :=
  mkWebUi (wu_bus d) (wu_cfg d) (wu_plugin_cfg d) (wu_plugin_path d) (wu_external_dir d) (wu_running d) (wu_port d) (wu_config_path d) r.

(** ** Paths *)

Definition FILE_PATH_MAX : nat := 4096.
Definition ends_with (suffix s : cstr) : bool := Nat.leb (length suffix) (length s) && str_eq (drop (length s - length suffix) s) suffix.
Definition before (suffix s : cstr) : cstr := take (length s - length suffix) s.

Definition plugins_part : cstr := $"/.primagen/plugins/".
Definition relative_part : cstr := $".primagen/plugins/".

(** The empty string: it is not known. *)
Definition resolve_config_path (external_dir plugin_path : option cstr) : cstr :=
  let from_dir := match external_dir with
    | Some dir =>
        if ends_with $"/plugins" dir && Nat.ltb (length (before $"/plugins" dir) + length $"/config.json" + 1) FILE_PATH_MAX
        then Some (before $"/plugins" dir ++ $"/config.json") else None
    | None => None
    end in
  match from_dir, plugin_path with
  | Some path, _ => path
  | None, None => []
  | None, Some path =>
      let marked := match strstr path plugins_part with
        | Some i => if Nat.ltb (i + length $"/.primagen/config.json" + 1) FILE_PATH_MAX then Some (take i path ++ $"/.primagen/config.json") else None
        | None => None
        end in
      match marked with
      | Some p => p
      | None => if starts_with relative_part path then $".primagen/config.json" else []
      end
  end.

Section Dir.
(** The working directory, where it fits into 1024 bytes. *)
Context (cwd : option cstr) (fs : WebFs).

Definition get_primagen_dir (d : WebUIChannelData) (out_len : nat) : option cstr :=
  let suffix := $"/config.json" in
  let path := wu_config_path d in
  if Nat.ltb (length suffix) (length path) && ends_with suffix path && Nat.ltb (length (before suffix path) + 1) out_len
  then Some (before suffix path)
  else
    let marked := match wu_plugin_path d with
      | Some p => match strstr p plugins_part with
                  | Some i => if Nat.ltb (i + length $"/.primagen" + 1) out_len then Some (take i p ++ $"/.primagen") else None
                  | None => None
                  end
      | None => None
      end in
    match marked, cwd with
    | Some p, _ => Some p
    | None, Some c => let p := c ++ $"/.primagen" in if Nat.ltb (length p) out_len && is_dir fs p then Some p else None
    | None, None => None
    end.
End Dir.

Definition ensure_dir_exists (path : cstr) (fs : WebFs) : option WebFs :=
  match path, wf_entries fs !! path with
  | [], _ => None
  | _, Some e => match e with EDir => Some fs | EFile _ => None end
  | _, None => make_dir path fs
  end.

(** ** Answers *)

Record WebReply := mkWebReply { wr_status : Z; wr_headers : cstr; wr_body : cstr }.
Definition send_json (status : Z) (json : cstr) : WebReply := mkWebReply status ($"Content-Type: application/json" ++ [ch_cr; ch_nl]) json.
Definition send_html (html : cstr) : WebReply := mkWebReply 200 ($"Content-Type: text/html; charset=utf-8" ++ [ch_cr; ch_nl]) html.

Definition quoted (s : cstr) : cstr := [ch_quote] ++ s ++ [ch_quote].
(** The bodies that are written out. *)
Definition error_body (what : cstr) : cstr := $"{" ++ quoted $"error" ++ $":" ++ quoted what ++ $"}".
Definition send_error (status : Z) (what : cstr) : WebReply := send_json status (error_body what).
(** A tree that cannot be printed gives an error. *)
Definition send_printed (s : option cstr) : WebReply := match s with Some s => send_json 200 s | None => send_error 500 $"encode_failed" end.

Definition handle_health (d : WebUIChannelData) : WebReply :=
  send_json 200 (truncate_to 256 ($"{" ++ quoted $"ok" ++ $":true," ++ quoted $"channel" ++ $":" ++ quoted $"webui" ++ $"," ++ quoted $"port" ++ $":" ++ fmt_d (wu_port d) ++ $"}")).

(** What is answered to a request that took a reply or waited for one. *)
Definition answer_reply (a : Answer) : WebReply :=
  match a with
  | AnswerReply chat_id content => send_printed (cJSON_PrintUnformatted (reply_json chat_id content))
  | AnswerNothing => mkWebReply 204 [] []
  end.

(** ** The part of the configuration that is the channel's *)

Definition plugin_json_of (d : WebUIChannelData) : option json := i ← wu_plugin_cfg d; p ← cf_plugins (wu_cfg d) !! i; pg_config p.
Definition read_int_from_plugin_cfg (root : option json) (key : cstr) (default_val : Z) : Z :=
  match is_number (r ← root; get_object_item (Some r) key) with Some n => valueint n | None => default_val end.
Definition write_int_to_plugin_cfg (key : cstr) (value : Z) (d : WebUIChannelData) : WebUIChannelData :=
  match wu_plugin_cfg d with
  | Some i =>
      let c := wu_cfg d in
      set_wu_cfg (set_plugins (alter (fun p => mkPluginConfig (pg_id p) (pg_enabled p)
                    ((fun j => add_item key (JNum (num_of_Z value)) (delete_item key j)) <$> pg_config p)) i (cf_plugins c)) (cf_plugins_capacity c) c) d
  | None => d
  end.

Definition port_ok (port : Z) : bool := (0 <? port)%Z && (port <? 65536)%Z.

Definition webui_init (cfg : Config) (bus : option MessageBus) (plugin_path external_dir : option cstr) : WebUIChannelData :=
  let at_ := config_get_plugin_config cfg (Some $"webui_channel") in
  let root := (i ← at_; p ← cf_plugins cfg !! i; pg_config p) in
  let port := read_int_from_plugin_cfg root $"port" 16714 in
  mkWebUi bus cfg at_ plugin_path external_dir false (if port_ok port then port else 16714) (resolve_config_path external_dir plugin_path) no_replies.

(** [thread_ok]: the thread could be made. *)
Definition webui_start (thread_ok : bool) (d : WebUIChannelData) : WebUIChannelData := if wu_running d then d else set_wu_running thread_ok d.
(** The thread, when [running] is false at once or after the polls. *)
Definition webui_server_thread (listens : bool) (d : WebUIChannelData) : WebUIChannelData := if listens then d else set_wu_running false d.
Definition webui_stop (d : WebUIChannelData) : WebUIChannelData := if wu_running d then set_wu_running false d else d.

(** ** What is sent *)

Definition is_link (src : cstr) : bool := starts_with $"http://" src || starts_with $"https://" src || starts_with $"data:image/" src.

(** The lower-case extension, when it has 1 to 15 bytes. *)
Definition extension (path : cstr) : option cstr :=
  match strrchr path "."%char with
  | Some i => let e := drop (i + 1) path in if Nat.eqb (length e) 0 || Nat.leb 16 (length e) then None else Some (tolower <$> e)
  | None => None
  end.
Definition has_image_suffix (path : cstr) : bool :=
  match extension path with Some e => existsb (str_eq e) [$"png"; $"jpg"; $"jpeg"; $"gif"; $"webp"] | None => false end.
Definition guess_image_mime (path : cstr) : cstr :=
  match extension path with
  | Some e => if str_eq e $"jpg" || str_eq e $"jpeg" then $"image/jpeg" else if str_eq e $"gif" then $"image/gif" else if str_eq e $"webp" then $"image/webp" else $"image/png"
  | None => $"image/png"
  end.

Definition MAX_IMAGE : Z := 5 * 1024 * 1024.
Definition file_to_data_url (fs : WebFs) (path : cstr) : option cstr :=
  if negb (has_image_suffix path) then None
  else match entry_text fs path with
       | None => None
       | Some raw =>
           if Nat.eqb (length raw) 0 || (MAX_IMAGE <? Z.of_nat (length raw))%Z then None
           else
             let b64_cap := length raw * 2 + 8 in
             match mg_base64_encode raw b64_cap with
             | None | Some [] => None
             | Some b64 => if Nat.leb b64_cap (length b64 + 1) then None else Some ($"data:" ++ guess_image_mime path ++ $";base64," ++ b64)
             end
       end.

Definition append_markdown_line (content line : cstr) : cstr := match content with [] => line | _ => content ++ [ch_nl; ch_nl] ++ line end.

Definition attachment_to_markdown (fs : WebFs) (raw : cstr) : option cstr :=
  match raw with
  | [] => None
  | _ =>
      let src := match cJSON_Parse raw with
        | Some parsed =>
            match is_string (get_object_item (Some parsed) $"type"), is_string (get_object_item (Some parsed) $"path") with
            | Some type, Some path => if str_eq type $"image" then Some path else None
            | _, _ => None
            end
        | None => if is_link raw || has_image_suffix raw then Some raw else None
        end in
      src ← src; resolved ← (if is_link src then Some src else file_to_data_url fs src); Some ($"![](" ++ resolved ++ $")")
  end.

Definition merge_markdown (fs : WebFs) (merged raw : cstr) : cstr := match attachment_to_markdown fs raw with Some md => append_markdown_line merged md | None => merged end.
Definition merged_content (fs : WebFs) (msg : OutboundMessage) : cstr := fold_left (merge_markdown fs) (out_attachments msg) (out_content msg).

(** The steps of the thread that sends. *)
Definition webui_send (fs : WebFs) (now : Z) (msg : OutboundMessage) : list ReplyEvent :=
  if str_eq (out_channel msg) $"webui" then [EvCheck (out_chat_id msg) (merged_content fs msg); EvEnqueue now] else [].

(** The channel, when no step of the server comes between. *)
Definition webui_channel (fs : WebFs) (now : Z) : Channel (option Replies) :=
  mkChannel $"webui" (Some (fun m w => s ← w; reply_steps (webui_send fs now m) s)).
#[export] Instance webui_selective fs now : Selective (webui_channel fs now) [ $"webui" ].
Proof.
  intros send m w [= <-] Hm. rewrite not_elem_of_cons in Hm. destruct Hm as [Hm _]. unfold webui_send, str_eq. rewrite bool_decide_eq_false_2 by done. by destruct w.
Qed.

(** ** The chat *)

Definition handle_chat_send (hm : HttpMessage) (d : WebUIChannelData) : WebReply * WebUIChannelData :=
  match cJSON_Parse (hm_body hm) with
  | None => (send_error 400 $"invalid_json", d)
  | Some req =>
      match is_string (get_object_item (Some req) $"chat_id"), is_string (get_object_item (Some req) $"message") with
      | Some chat_id, Some message =>
          if Nat.eqb (length message) 0 || (8192 <? Z.of_nat (length message))%Z then (send_error 400 $"message_length_invalid", d)
          else (send_json 200 ($"{" ++ quoted $"queued" ++ $":true}"),
                set_wu_bus (message_bus_send_inbound true (wu_bus d) (inbound_message_new (Some $"webui") (Some chat_id) (Some message) None)) d)
      | _, _ => (send_error 400 $"invalid_params", d)
      end
  end.

Definition poll_chat_id (hm : HttpMessage) : option cstr :=
  let '(n, chat_id) := mg_http_get_var (hm_query hm) $"chat_id" 256 in if (n <=? 0)%Z then None else Some chat_id.

(** An answer at once, or one that [answer_reply] gives of what is in
    [ws_answers]. *)
Definition handle_chat_poll (hm : HttpMessage) (conn : nat) (now : Z) (d : WebUIChannelData) : option WebReply * WebUIChannelData :=
  match poll_chat_id hm with
  | None => (Some (send_error 400 $"chat_id_required"), d)
  | Some chat_id =>
      match act_poll conn chat_id now (wu_replies d) with
      | Some r => (None, set_wu_replies r d)
      | None => (None, d)
      end
  end.

(** ** The configuration *)

Definition handle_get_config (d : WebUIChannelData) : WebReply :=
  let cfg := wu_cfg d in
  let pc := config_get_active_provider cfg in
  let text {A} (f : A -> option cstr) (o : option A) (fallback : cstr) := default fallback (a ← o; f a) in
  let agent :=
    [($"model", JStr (text pc_model pc [])); ($"apiBase", JStr (text pc_api_base pc []))] ++
    add_num $"temperature" (match pc with Some p => pc_temperature p | None => Some (mkNum 1 (-1)) end) ++
    add_int $"max_tokens" (match pc with Some p => pc_max_tokens p | None => 4096%Z end) ++
    add_int $"max_tool_iterations" (ac_max_tool_iterations (cf_agent cfg)) ++
    add_int $"memory_window" (ac_memory_window (cf_agent cfg)) ++
    [($"reasoning_effort", JStr (text pc_reasoning_effort pc $"medium"))] in
  let log := [($"level", JStr (default $"INFO" (lg_level (cf_log cfg))))] ++ add_bool $"consoleOutput" (lg_console_output (cf_log cfg)) in
  send_printed (cJSON_Print (JObj [($"agent", JObj agent); ($"log", JObj log); ($"webui", JObj (add_int $"port" (wu_port d) ++ add_bool $"enabled" true))])).

(** [if (cJSON_IsString(item)) ...] and the like. *)
Definition on_string {A} (req : json) (name : cstr) (f : cstr -> A -> A) (x : A) : A :=
  match is_string (get_object_item (Some req) name) with Some s => f s x | None => x end.
Definition on_number {A} (req : json) (name : cstr) (f : num -> A -> A) (x : A) : A :=
  match is_number (get_object_item (Some req) name) with Some n => f n x | None => x end.
Definition on_bool {A} (req : json) (name : cstr) (f : bool -> A -> A) (x : A) : A :=
  match is_bool (get_object_item (Some req) name) with Some b => f b x | None => x end.

(** The provider that is changed: the active one, or one with the name
    "default". *)
Definition update_target (cfg : Config) : Config * option nat :=
  match config_get_provider cfg (ac_provider (cf_agent cfg)) with Some i => (cfg, Some i) | None => config_add_provider (fun _ => true) cfg $"default" end.

Definition update_provider_fields (req : json) (p : ProviderConfig) : ProviderConfig :=
  on_string req $"reasoning_effort" (fun s => set_reasoning_effort (Some s))
    (on_number req $"max_tokens" (fun n => set_max_tokens (valueint n))
      (on_number req $"temperature" (fun n => set_temperature (Some n))
        (on_string req $"apiBase" (fun s => set_api_base (Some s))
          (on_string req $"model" (fun s => set_model (Some s)) p)))).

Definition update_agent_fields (req : json) (a : AgentConfig) : AgentConfig :=
  on_number req $"memory_window" (fun n a => mkAgentConfig (ac_provider a) (ac_max_tool_iterations a) (valueint n) (ac_memory_max_tokens a) (ac_memory_consolidation_threshold a))
    (on_number req $"max_tool_iterations" (fun n a => mkAgentConfig (ac_provider a) (valueint n) (ac_memory_window a) (ac_memory_max_tokens a) (ac_memory_consolidation_threshold a)) a).

Definition update_log_fields (req : json) (l : LogConfig) : LogConfig :=
  on_bool req $"console_output" (fun b l => mkLogConfig (lg_level l) b) (on_string req $"log_level" (fun s l => mkLogConfig (Some s) (lg_console_output l)) l).

Definition update_port (req : json) (d : WebUIChannelData) : WebUIChannelData :=
  on_number req $"port" (fun n d => if port_ok (valueint n) then write_int_to_plugin_cfg $"port" (valueint n) (set_wu_port (valueint n) d) else d) d.

Definition updated_config (req : json) (i : nat) (cfg : Config) : Config :=
  set_log (update_log_fields req (cf_log cfg))
    (set_agent (update_agent_fields req (cf_agent cfg)) (set_providers (alter (update_provider_fields req) i (cf_providers cfg)) (cf_providers_capacity cfg) cfg)).

(** The configuration in its file, when the path is known. *)
Definition save_config (d : WebUIChannelData) (fs : WebFs) : WebFs * bool :=
  match wu_config_path d with
  | [] => (fs, false)
  | path =>
      let opens := wf_writable fs path && negb (is_dir fs path) in
      match config_save_to_file opens (wu_cfg d) with
      | (Some text, ok) => (default fs (put_file path text fs), ok)
      | (None, ok) => (fs, ok)
      end
  end.

Definition save_warning : list (cstr * json) := [($"warning", JStr $"save_failed_restart_required")].

Definition handle_update_config (hm : HttpMessage) (d : WebUIChannelData) (fs : WebFs) : WebReply * WebUIChannelData * WebFs :=
  match cJSON_Parse (hm_body hm) with
  | None => (send_error 400 $"invalid_json", d, fs)
  | Some req =>
      match update_target (wu_cfg d) with
      | (cfg, None) => (send_error 500 $"provider_failed", set_wu_cfg cfg d, fs)
      | (cfg, Some i) =>
          let d1 := update_port req (set_wu_cfg (updated_config req i cfg) d) in
          let should_save := on_bool req $"save" (fun b _ => b) true in
          let '(fs1, saved) := if should_save then save_config d1 fs else (fs, false) in
          (send_printed (cJSON_Print (JObj (add_bool $"ok" true ++ add_int $"port" (wu_port d1) ++ add_bool $"saved" saved ++
             (if negb saved && should_save then save_warning else [])))), d1, fs1)
      end
  end.

(** ** Properties *)

Lemma ends_with_app suffix s : ends_with suffix (s ++ suffix) = true.
Proof.
  unfold ends_with. rewrite length_app. destruct (Nat.leb_spec (length suffix) (length s + length suffix)); [|lia].
  replace (length s + length suffix - length suffix) with (length s) by lia. rewrite drop_app_length. by apply bool_decide_eq_true.
Qed.
Lemma before_app suffix s : before suffix (s ++ suffix) = s.
Proof. unfold before. rewrite length_app. replace (length s + length suffix - length suffix) with (length s) by lia. apply take_app_length. Qed.

(** The directory of the program is the one the plugins' directory is in. *)
Lemma primagen_dir_found cwd fs cfg bus plugin_path base : base <> [] -> length base + 1 < 1024 ->
  let d := webui_init cfg bus plugin_path (Some (base ++ $"/plugins")) in
  wu_config_path d = base ++ $"/config.json" /\ get_primagen_dir cwd fs d 1024 = Some base.
Proof.
  intros Hb Hl d. assert (wu_config_path d = base ++ $"/config.json") as Hp.
  { unfold d, webui_init, resolve_config_path. cbn [wu_config_path]. rewrite ends_with_app, before_app.
    destruct (Nat.ltb_spec (length base + length $"/config.json" + 1) FILE_PATH_MAX) as [|H]; [done|]. unfold FILE_PATH_MAX in H. cbn in H. lia. }
  split; [done|]. unfold get_primagen_dir. rewrite Hp, ends_with_app, before_app, length_app.
  destruct (Nat.ltb_spec (length $"/config.json") (length base + length $"/config.json")) as [|H]; [|destruct base; [done|cbn in H; lia]].
  destruct (Nat.ltb_spec (length base + 1) 1024); [done|lia].
Qed.

Lemma base64_length p : length (base64 p) <= 2 * length p + 2.
Proof. induction p as [|a|a b|a b c r IH] using triples; cbn [base64 length]; lia. Qed.

(** The files that can be shown are shown: the block for the text is large
    enough, and what the page gets holds the bytes of the file. *)
Theorem webui_image_shown fs path raw :
  has_image_suffix path = true -> is_link path = false -> cJSON_Parse path = None -> entry_text fs path = Some raw ->
  raw <> [] -> (Z.of_nat (length raw) <= MAX_IMAGE)%Z ->
  exists b64, attachment_to_markdown fs path = Some ($"![](data:" ++ guess_image_mime path ++ $";base64," ++ b64 ++ $")") /\
    mg_base64_decode b64 (length b64 + 1) = raw.
Proof.
  intros Hs Hl Hj Hf Hr Hm. exists (base64 raw). split.
  - unfold attachment_to_markdown. destruct path as [|c path]; [done|]. rewrite Hj, Hl, Hs. cbn [orb mbind option_bind]. rewrite Hl.
    unfold file_to_data_url. rewrite Hs, Hf. cbn [negb]. destruct (Nat.eqb_spec (length raw) 0) as [H|_]; [by apply length_zero_iff_nil in H|].
    destruct (Z.ltb_spec MAX_IMAGE (Z.of_nat (length raw))); [lia|]. cbn [orb]. rewrite mg_base64_encode_spec. pose proof (base64_length raw) as Hb.
    destruct (Nat.ltb_spec (length raw * 2 + 8) (length (base64 raw) + 1)); [lia|].
    destruct (base64 raw) as [|x t] eqn:E; [destruct raw as [|? [|? [|]]]; done|]. rewrite <-E in *.
    destruct (Nat.leb_spec (length raw * 2 + 8) (length (base64 raw) + 1)); [lia|]. cbn [mbind option_bind]. by rewrite <-!app_assoc.
  - apply (base64_roundtrip raw (length (base64 raw) + 1)).
    + rewrite mg_base64_encode_spec. destruct (Nat.ltb_spec (length (base64 raw) + 1) (length (base64 raw) + 1)); [lia|done].
    + pose proof (Nat.div_mod_eq (length (base64 raw)) 4). lia.
Qed.

Definition demo_files : WebFs := mkWebFs {[ $"/a/cat.PNG" := EFile $"picture"; $"1.png" := EFile $"picture" ]} (fun _ => true) (fun _ => true).
Lemma webui_image_shown_witness : exists b64, attachment_to_markdown demo_files $"/a/cat.PNG" = Some ($"![](data:image/png;base64," ++ b64 ++ $")") /\
  mg_base64_decode b64 (length b64 + 1) = $"picture".
Proof. refine (webui_image_shown demo_files $"/a/cat.PNG" $"picture" _ _ _ _ _ _); by vm_compute. Defined.

(** A name that begins as a number does is taken for JSON, and the picture is
    left out. *)
Lemma webui_image_dropped : attachment_to_markdown demo_files $"1.png" = None /\ merged_content demo_files (Message.mkOutbound $"webui" $"c" $"text" [ $"1.png" ]) = $"text".
Proof. by vm_compute. Qed.

(** A message is queued when it has 1 to 8192 bytes, as one of this channel. *)
Lemma chat_send_queues hm d q chat_id message :
  cJSON_Parse (hm_body hm) = Some q -> is_string (get_object_item (Some q) $"chat_id") = Some chat_id ->
  is_string (get_object_item (Some q) $"message") = Some message -> 0 < length message -> (Z.of_nat (length message) <= 8192)%Z ->
  wr_status (fst (handle_chat_send hm d)) = 200%Z /\
  wu_bus (snd (handle_chat_send hm d)) = message_bus_send_inbound true (wu_bus d) (mkInbound $"webui" chat_id message [] [] false).
Proof.
  intros Hq Hc Hm H1 H2. unfold handle_chat_send. rewrite Hq, Hc, Hm. destruct (Nat.eqb_spec (length message) 0); [lia|].
  destruct (Z.ltb_spec 8192 (Z.of_nat (length message))); [lia|]. done.
Qed.

(** When no provider is active the changes go to one that is not active
    either. *)
Lemma update_without_provider :
  let cfg := set_agent (mkAgentConfig (Some $"other") 15 100 4000 (mkNum 8 (-1))) (config_create (fun _ => true)) in
  let hm := mkHttp $"POST" $"/api/config" [] [] (default [] (cJSON_PrintUnformatted (JObj [($"model", JStr $"new-model")]))) in
  let d := snd (fst (handle_update_config hm (webui_init cfg None None None) demo_files)) in
  config_get_active_provider (wu_cfg d) = None /\ pc_model <$> cf_providers (wu_cfg d) = [Some $"gpt-4"; Some $"new-model"].
Proof. by vm_compute. Qed.
