(* ===== verification/WebUiControl.v ===== *)
(** The pages of [src/plugins/channels/webui_channel/webui_channel.c] that show
    and change plugins, skills and files, and its table of routes. What the
    kernel and other programs do are parameters: the order of the entries of a
    directory, what [unzip] makes of an archive, what a shared object says of
    itself. *)
From S2P Require Import Prelude CStr Json JsonTree Common Message MessageBus Mongoose Config ToolRegistry PluginManager Protobuf Base64 WebUiReplies WebUi.
Open Scope nat_scope.

(** ** Names *)

Definition so_char (c : ascii) : bool := isalnum c || bool_decide (c ∈ ["_"; "-"; "."]%char).
Definition is_valid_so_filename (filename : cstr) : bool :=
  match filename with
  | [] => false
  | _ =>
      match strchr filename "/"%char, strchr filename ch_bs, strstr filename $".." with
      | None, None, None => Nat.ltb 3 (length filename) && ends_with $".so" filename && forallb so_char filename
      | _, _, _ => false
      end
  end.

Definition kind_subdir (kind : cstr) : option cstr :=
  if str_eq kind $"channel" then Some $"channels" else if str_eq kind $"tool" then Some $"tools" else if str_eq kind $"command" then Some $"commands" else None.
Definition kind_tag (kind : cstr) : option cstr :=
  if str_eq kind $"channel" then Some $"_channel" else if str_eq kind $"tool" then Some $"_tool" else if str_eq kind $"command" then Some $"_command" else None.

Definition is_valid_skill_name (name : cstr) : bool :=
  negb (Nat.eqb (length name) 0) && Nat.leb (length name) 128 && forallb (fun c => isalnum c || bool_decide (c = "-"%char) || bool_decide (c = "_"%char)) name.
Definition is_blank_text (s : cstr) : bool := forallb isspace s.

(** ** The texts of skills *)

Definition skip_key (key p : cstr) : cstr :=
  let p := drop_while (fun c => bool_decide (c = " "%char) || bool_decide (c = ch_tab)) (drop (length key) p) in
  match p with c :: r => if bool_decide (c = ch_quote) then r else p | [] => [] end.
Definition until_end (p : cstr) : cstr := take_while (fun c => negb (bool_decide (c = ch_nl)) && negb (bool_decide (c = ch_quote))) p.

Definition extract_description_from_skill_md (content : cstr) : cstr :=
  let key := $"description:" in match strstr content key with Some i => until_end (skip_key key (drop i content)) | None => [] end.

Definition rule : cstr := ch_nl :: $"---".
Definition is_line_end (c : ascii) : bool := bool_decide (c = ch_cr) || bool_decide (c = ch_nl).
Definition extract_body_from_skill_md (content : cstr) : cstr :=
  match strstr content rule with Some i => drop_while is_line_end (drop (i + 4) content) | None => content end.

(** What [handle_control_skill_import] reads of the file: at most 255 bytes. *)
Definition imported_name (md : cstr) : cstr :=
  let key := $"name:" in match strstr md key with Some i => take 255 (until_end (skip_key key (drop i md))) | None => [] end.

Definition skill_md (name description body : cstr) : cstr :=
  $"---" ++ [ch_nl] ++ $"name: " ++ quoted name ++ [ch_nl] ++ $"description: " ++ quoted description ++ [ch_nl] ++ $"---" ++ [ch_nl; ch_nl] ++ body ++ [ch_nl].
Definition write_skill_md (path name description body : cstr) (fs : WebFs) : option WebFs := put_file path (skill_md name description body) fs.

Definition read_file_to_string (fs : WebFs) (path : cstr) (max_len : Z) : option cstr :=
  match entry_text fs path with
  | Some t => if (max_len <? Z.of_nat (length t))%Z then None else Some (c_string t)
  | None => None
  end.
Definition MEBI : Z := 1024 * 1024.

(** ** What is listed *)

Definition builtin_channel_description (name : cstr) : cstr := if str_eq name $"console" then $"Local console input and output channel" else $"-".
Definition builtin_tools : list (cstr * cstr) :=
  [($"read_file", $"Read file contents from disk"); ($"write_file", $"Write content to a file"); ($"edit_file", $"Apply targeted edits to a file");
   ($"list_dir", $"List directory entries"); ($"exec", $"Execute a shell command"); ($"send_message", $"Send message through channels");
   ($"skill", $"Run and manage skill workflows"); ($"cron", $"Schedule delayed or periodic tasks")].
Definition builtin_commands : list (cstr * cstr) :=
  [($"stop", $"Stop active tasks"); ($"restart", $"Restart the bot"); ($"new", $"Start a new conversation"); ($"help", $"Show available commands");
   ($"tools", $"Show available tools (builtin/plugin/mcp)"); ($"reload-plugins", $"Reload all plugins from the plugins directory")].
Definition description_in (table : list (cstr * cstr)) (name : cstr) : cstr := default $"-" (snd <$> List.find (fun p => str_eq (fst p) name) table).
Definition builtin_tool_description (name : cstr) : cstr := description_in builtin_tools name.
Definition builtin_command_description (name : cstr) : cstr := description_in builtin_commands name.

Definition builtin_item (name description : cstr) : json :=
  JObj ([($"name", JStr name); ($"source", JStr $"builtin"); ($"description", JStr description)] ++ add_bool $"enabled" true).

Definition send_items_response (items : list json) : WebReply := send_printed (cJSON_Print (JObj [($"items", JArr items)])).

Section Control.
(** The working directory; the entries of a directory, in some order; the
    size [stat] gives a directory. *)
Context (cwd : option cstr) (list_dir : WebFs -> cstr -> option (list cstr)) (dir_size : cstr -> Z).
(** What a shared object that can be opened says: its description, and the
    name of its command. *)
Context (so_description so_command : cstr -> option cstr).

Definition stat_entry (fs : WebFs) (filter_mode : nat) (full_path name : cstr) : option json :=
  match wf_entries fs !! full_path with
  | None => None
  | Some e =>
      let dir := match e with EDir => true | EFile _ => false end in
      if (Nat.eqb filter_mode 1 && negb dir) || (Nat.eqb filter_mode 2 && dir) then None
      else Some (JObj [($"name", JStr name); ($"path", JStr full_path); ($"type", JStr (if dir then $"dir" else $"file"));
                       ($"size", JNum (num_of_Z (match e with EFile t => Z.of_nat (length t) | EDir => dir_size full_path end)))])
  end.
Definition is_dots (name : cstr) : bool := str_eq name $"." || str_eq name $"..".
Definition add_dir_entries (fs : WebFs) (dir_path : cstr) (filter_mode : nat) : list json :=
  omap (fun name => if is_dots name then None else stat_entry fs filter_mode (truncate_to 1024 (dir_path ++ $"/" ++ name)) name) (default [] (list_dir fs dir_path)).

Definition get_plugin_so_path (fs : WebFs) (d : WebUIChannelData) (kind plugin_id : cstr) (out_len : nat) : option cstr :=
  primagen_dir ← get_primagen_dir cwd fs d 1024;
  subdir ← kind_subdir kind;
  let out := primagen_dir ++ $"/plugins/" ++ subdir ++ $"/" ++ plugin_id ++ $".so" in
  if Nat.leb out_len (length out) then None else match wf_entries fs !! out with Some (EFile _) => Some out | _ => None end.

Definition nonempty (o : option cstr) : option cstr := match o with Some [] => None | o => o end.
Definition load_plugin_description_from_so (so_path : cstr) : option cstr := nonempty (so_description so_path).
Definition plugin_item_description (fs : WebFs) (d : WebUIChannelData) (kind plugin_id : cstr) : option cstr :=
  so_path ← get_plugin_so_path fs d kind plugin_id 1600; load_plugin_description_from_so so_path.
Definition plugin_command_name (fs : WebFs) (d : WebUIChannelData) (plugin_id : cstr) : option cstr :=
  so_path ← get_plugin_so_path fs d $"command" plugin_id 1600; nonempty (so_command so_path).

(** The plugins of a kind; [name_of]: how one is called. *)
Definition plugin_items (fs : WebFs) (d : WebUIChannelData) (kind tag : cstr) (name_of : cstr -> cstr) : list json :=
  omap (fun pc => id ← pg_id pc; _ ← strstr id tag;
          Some (JObj ([($"name", JStr (name_of id)); ($"plugin_id", JStr id); ($"source", JStr $"plugin");
                       ($"description", JStr (default $"-" (plugin_item_description fs d kind id)))] ++ add_bool $"enabled" (pg_enabled pc))))
       (cf_plugins (wu_cfg d)).

Definition handle_control_channels (d : WebUIChannelData) (fs : WebFs) : WebReply :=
  send_items_response (builtin_item $"console" (builtin_channel_description $"console") :: plugin_items fs d $"channel" $"_channel" id).
Definition handle_control_tools (d : WebUIChannelData) (fs : WebFs) : WebReply :=
  send_items_response (((fun n => builtin_item n (builtin_tool_description n)) <$> (fst <$> builtin_tools)) ++ plugin_items fs d $"tool" $"_tool" id).
Definition handle_control_commands (d : WebUIChannelData) (fs : WebFs) : WebReply :=
  send_items_response (((fun n => builtin_item n (builtin_command_description n)) <$> (fst <$> builtin_commands)) ++
    plugin_items fs d $"command" $"_command" (fun id => default id (plugin_command_name fs d id))).

Definition dir_items (d : WebUIChannelData) (fs : WebFs) (part : cstr) : list json :=
  match get_primagen_dir cwd fs d 1024 with Some dir => add_dir_entries fs (truncate_to 1024 (dir ++ part)) 2 | None => [] end.
Definition handle_control_sessions (d : WebUIChannelData) (fs : WebFs) : WebReply := send_items_response (dir_items d fs $"/sessions").
Definition handle_settings_logs (d : WebUIChannelData) (fs : WebFs) : WebReply := send_items_response (dir_items d fs $"/log").
Definition handle_settings_docs (d : WebUIChannelData) (fs : WebFs) : WebReply := send_items_response (dir_items d fs [] ++ dir_items d fs $"/memory").

Definition handle_control_usage (d : WebUIChannelData) : WebReply :=
  let pc := config_get_active_provider (wu_cfg d) in
  send_items_response
    [JObj [($"name", JStr $"plugin_count"); ($"value", JNum (num_of_Z (Z.of_nat (length (cf_plugins (wu_cfg d))))))];
     JObj [($"name", JStr $"model"); ($"value", JStr (default [] (p ← pc; pc_model p)))];
     JObj [($"name", JStr $"webui_port"); ($"value", JNum (num_of_Z (wu_port d)))]].

Definition cron_items (text : cstr) : list json :=
  if Nat.eqb (length text) 0 || (4 * MEBI <=? Z.of_nat (length text))%Z then []
  else match cJSON_Parse (c_string text) with
       | None => []
       | Some root =>
           match is_array (get_object_item (Some root) $"jobs"), is_array (Some root) with
           | Some jobs, _ => omap cJSON_Duplicate jobs
           | None, Some jobs => omap cJSON_Duplicate jobs
           | None, None => []
           end
       end.
Definition handle_control_cron (d : WebUIChannelData) (fs : WebFs) : WebReply :=
  send_items_response (match get_primagen_dir cwd fs d 1024 with
                       | Some dir => match entry_text fs (truncate_to 1024 (dir ++ $"/cron_store.json")) with Some text => cron_items text | None => [] end
                       | None => []
                       end).

(** ** Uploads *)

(** The directory, when it is there, and the files with the directories that
    were made. *)
Definition get_plugin_upload_dir (d : WebUIChannelData) (kind : cstr) (out_len : nat) (fs : WebFs) : option cstr * WebFs :=
  match get_primagen_dir cwd fs d 1024, kind_subdir kind with
  | Some primagen_dir, Some subdir =>
      let plugins_root := primagen_dir ++ $"/plugins" in
      if Nat.leb 1200 (length plugins_root) then (None, fs)
      else match ensure_dir_exists plugins_root fs with
           | None => (None, fs)
           | Some fs1 =>
               let out := plugins_root ++ $"/" ++ subdir in
               if Nat.leb out_len (length out) then (None, fs1)
               else match ensure_dir_exists out fs1 with None => (None, fs1) | Some fs2 => (Some out, fs2) end
           end
  | _, _ => (None, fs)
  end.

(** What is left to do when the request is a good one, with the sizes of the
    two buffers. [None] for the answer: the file is written, and the answer is
    made of the freed request, which is undefined behaviour. *)
Definition upload_failed (status : Z) (what : cstr) (fs : WebFs) : option WebReply * WebFs := (Some (send_error status what), fs).
Definition store_upload (dir_len path_len : nat) (kind filename b64 : cstr) (d : WebUIChannelData) (fs : WebFs) : option WebReply * WebFs :=
  match get_plugin_upload_dir d kind dir_len fs with
  | (None, fs1) => upload_failed 500 $"plugin_dir_unavailable" fs1
  | (Some target_dir, fs1) =>
      let target_path := target_dir ++ $"/" ++ filename in
      if Nat.leb path_len (length target_path) then upload_failed 400 $"path_too_long" fs1
      else match mg_base64_decode b64 (length b64 + 3) with
           | [] => upload_failed 400 $"base64_decode_failed" fs1
           | decoded => match put_file target_path decoded fs1 with
                        | None => upload_failed 500 $"open_failed" fs1
                        | Some fs2 => (None, fs2)
                        end
           end
  end.
Definition checked_upload (req : json) (d : WebUIChannelData) (fs : WebFs) : option WebReply * WebFs :=
  match is_string (get_object_item (Some req) $"kind"), is_string (get_object_item (Some req) $"filename"), is_string (get_object_item (Some req) $"data_base64") with
  | Some kind, Some filename, Some b64 =>
      if negb (bool_decide (is_Some (kind_subdir kind))) then upload_failed 400 $"invalid_kind" fs
      else if negb (is_valid_so_filename filename) then upload_failed 400 $"invalid_filename" fs
      else if Nat.eqb (length b64) 0 || (24 * MEBI <? Z.of_nat (length b64))%Z then upload_failed 400 $"invalid_size" fs
      else store_upload 1400 1800 kind filename b64 d fs
  | _, _, _ => upload_failed 400 $"invalid_params" fs
  end.
Definition handle_control_plugin_upload (hm : HttpMessage) (d : WebUIChannelData) (fs : WebFs) : option WebReply * WebFs :=
  match cJSON_Parse (hm_body hm) with Some req => checked_upload req d fs | None => upload_failed 400 $"invalid_json" fs end.

(** ** Skills *)

Definition get_skills_dir (d : WebUIChannelData) (out_len : nat) (fs : WebFs) : option cstr * WebFs :=
  match get_primagen_dir cwd fs d 1024 with
  | None => (None, fs)
  | Some primagen_dir =>
      let out := primagen_dir ++ $"/skills" in
      if Nat.leb out_len (length out) then (None, fs)
      else match wf_entries fs !! out with
           | None => match make_dir out fs with Some fs1 => (Some out, fs1) | None => (None, fs) end
           | Some EDir => (Some out, fs)
           | Some (EFile _) => (None, fs)
           end
  end.

Definition skill_item (fs : WebFs) (skills_dir name : cstr) : option json :=
  let path := truncate_to 1200 (skills_dir ++ $"/" ++ name) in
  if is_dots name || negb (is_dir fs path) then None
  else Some (JObj [($"name", JStr name); ($"path", JStr path);
                   ($"description", JStr (default [] (extract_description_from_skill_md <$> read_file_to_string fs (truncate_to 1400 (path ++ $"/SKILL.md")) MEBI)))]).
Definition handle_control_skills (d : WebUIChannelData) (fs : WebFs) : WebReply * WebFs :=
  match get_skills_dir d 1024 fs with
  | (None, fs1) => (send_items_response [], fs1)
  | (Some dir, fs1) => (send_items_response (omap (skill_item fs1 dir) (default [] (list_dir fs1 dir))), fs1)
  end.

Definition skill_path (size : nat) (dir name : cstr) : cstr := truncate_to size (dir ++ $"/" ++ name ++ $"/SKILL.md").

Definition handle_control_skill_content (hm : HttpMessage) (d : WebUIChannelData) (fs : WebFs) : WebReply * WebFs :=
  let '(n, name) := mg_http_get_var (hm_query hm) $"name" 256 in
  if (n <=? 0)%Z || negb (is_valid_skill_name name) then (send_error 400 $"invalid_skill_name", fs)
  else match get_skills_dir d 1024 fs with
       | (None, fs1) => (send_error 500 $"skills_dir_unavailable", fs1)
       | (Some dir, fs1) =>
           match read_file_to_string fs1 (skill_path 1400 dir name) MEBI with
           | None => (send_error 404 $"skill_not_found", fs1)
           | Some md => (send_printed (cJSON_Print (JObj [($"name", JStr name); ($"description", JStr (extract_description_from_skill_md md));
                                                          ($"content", JStr (extract_body_from_skill_md md))])), fs1)
           end
       end.

(** A directory that is not there is made. *)
Definition ensure_skill_dir (path : cstr) (fs : WebFs) : option WebFs := match wf_entries fs !! path with Some _ => Some fs | None => make_dir path fs end.

Definition handle_control_skill_save (hm : HttpMessage) (d : WebUIChannelData) (fs : WebFs) : WebReply * WebFs :=
  match cJSON_Parse (hm_body hm) with
  | None => (send_error 400 $"invalid_json", fs)
  | Some req =>
      let text name := is_string (get_object_item (Some req) name) in
      match text $"name", text $"description", text $"content" with
      | Some name, Some description, Some content =>
          if negb (is_valid_skill_name name) then (send_error 400 $"invalid_params", fs)
          else if is_blank_text description then (send_error 400 $"description_required", fs)
          else if is_blank_text content then (send_error 400 $"content_required", fs)
          else match get_skills_dir d 1024 fs with
               | (None, fs1) => (send_error 500 $"skills_dir_unavailable", fs1)
               | (Some dir, fs1) =>
                   let skill_dir := truncate_to 1400 (dir ++ $"/" ++ name) in
                   match ensure_skill_dir skill_dir fs1 with
                   | None => (send_error 500 $"mkdir_failed", fs1)
                   | Some fs2 =>
                       match write_skill_md (truncate_to 1500 (skill_dir ++ $"/SKILL.md")) name description content fs2 with
                       | None => (send_error 500 $"write_failed", fs2)
                       | Some fs3 => (send_json 200 ($"{" ++ quoted $"ok" ++ $":true}"), fs3)
                       end
                   end
               end
      | _, _, _ => (send_error 400 $"invalid_params", fs)
      end
  end.

(** What the archive leaves in the directory, and whether [unzip] succeeds;
    whether a temporary file can be made, and opened. *)
Context (unzip : cstr -> cstr -> WebFs -> WebFs * bool) (tmp_made tmp_opened : bool).

(** [rename]: into a directory that is there. *)
Definition move_file (from to dir : cstr) (fs : WebFs) : WebFs :=
  match wf_entries fs !! from with
  | Some (EFile t) => if wf_writable fs to && is_dir fs dir && negb (is_dir fs to) then mkWebFs (<[to := EFile t]> (delete from (wf_entries fs))) (wf_mkdir_ok fs) (wf_writable fs) else fs
  | _ => fs
  end.

Definition place_skill (skills_dir name : cstr) (fs : WebFs) : WebFs :=
  let dir := truncate_to 1500 (skills_dir ++ $"/" ++ name) in
  let fs1 := default fs (ensure_skill_dir dir fs) in
  move_file (truncate_to 1400 (skills_dir ++ $"/SKILL.md")) (truncate_to 1700 (dir ++ $"/SKILL.md")) dir fs1.

Definition handle_control_skill_import (hm : HttpMessage) (d : WebUIChannelData) (fs : WebFs) : WebReply * WebFs :=
  match cJSON_Parse (hm_body hm) with
  | None => (send_error 400 $"invalid_json", fs)
  | Some req =>
      match is_string (get_object_item (Some req) $"filename"), is_string (get_object_item (Some req) $"data_base64") with
      | Some filename, Some b64 =>
          if negb (ends_with $".zip" filename) then (send_error 400 $"zip_required", fs)
          else match get_skills_dir d 1024 fs with
               | (None, fs1) => (send_error 500 $"skills_dir_unavailable", fs1)
               | (Some dir, fs1) =>
                   match mg_base64_decode b64 (length b64 + 3) with
                   | [] => (send_error 400 $"base64_decode_failed", fs1)
                   | decoded =>
                       if negb tmp_made then (send_error 500 $"tmp_create_failed", fs1)
                       else if negb tmp_opened then (send_error 500 $"tmp_open_failed", fs1)
                       else match unzip decoded dir fs1 with
                            | (fs2, false) => (send_error 500 $"unzip_failed", fs2)
                            | (fs2, true) =>
                                let name := match read_file_to_string fs2 (truncate_to 1400 (dir ++ $"/SKILL.md")) MEBI with Some md => imported_name md | None => [] end in
                                let ok := is_valid_skill_name name in
                                (send_printed (cJSON_PrintUnformatted (JObj (add_bool $"ok" true ++ (if ok then [($"imported_name", JStr name)] else [])))),
                                 if ok then place_skill dir name fs2 else fs2)
                            end
                   end
               end
      | _, _ => (send_error 400 $"invalid_params", fs)
      end
  end.

(** ** Plugins that are switched on and off *)

Context {W D : Type}.
(** Whether an array can be allocated; what a file holds; the reference to a
    plugin in a channel; where the next two copies of a plugin are put. *)
Context (realloc_ok : Z -> bool) (file : cstr -> option (Library W D)) (plugin_ref : nat -> option nat) (copy1 copy2 : nat).
Abbreviation Manager := (PluginManager.Manager W D).

Inductive ChannelCall := ChannelStarted (addr : nat) | ChannelStopped (addr : nat).

(** With the depth of the tree as fuel. *)
Fixpoint find_so_path (fuel : nat) (fs : WebFs) (plugin_id dir : cstr) : option cstr :=
  match fuel with
  | 0 => None
  | S f =>
      (fix entries (names : list cstr) : option cstr :=
         match names with
         | [] => None
         | name :: r =>
             match name with
             | "."%char :: _ => entries r
             | _ =>
                 let full_path := truncate_to FILE_PATH_MAX (dir ++ $"/" ++ name) in
                 match wf_entries fs !! full_path with
                 | None => entries r
                 | Some EDir => match find_so_path f fs plugin_id full_path with Some p => Some p | None => entries r end
                 | Some (EFile _) => if str_eq name (plugin_id ++ $".so") then Some full_path else entries r
                 end
             end
         end) (default [] (list_dir fs dir))
  end.

Definition refers_to (p : LoadedPlugin) (c : ChannelReg) : bool := bool_decide (plugin_ref (ch_addr c) = Some (lp_addr p)).

(** A plugin that is not loaded is loaded; the channel that refers to the copy
    of it that [plugin_manager_find_plugin] makes is started. *)
Definition switch_on (fs : WebFs) (id : cstr) (m : Manager) : Manager * list ChannelCall :=
  match plugin_manager_find_plugin m id copy1 with
  | Some _ => (m, [])
  | None =>
      match find_so_path FILE_PATH_MAX fs id (pm_external_dir m) with
      | None => (m, [])
      | Some so_path =>
          match plugin_manager_load_plugin realloc_ok file so_path m with
          | (m1, ret) =>
              (m1, if (ret =? 0)%Z then
                     match plugin_manager_find_plugin m1 id copy2, pm_channels m1 with
                     | Some loaded, Some channels =>
                         if bool_decide (lp_type loaded = PLUGIN_CHANNEL) then
                           match List.find (refers_to loaded) channels with Some c => [ChannelStarted (ch_addr c)] | None => [] end
                         else []
                     | _, _ => []
                     end
                   else [])
          end
      end
  end.

(** [None]: code is called that is not there any more. *)
Definition switch_off (id : cstr) (m : Manager) : option (Manager * list ChannelCall) :=
  match plugin_manager_get_loaded_plugin m id with
  | None => Some (m, [])
  | Some existing =>
      let stopped := match pm_channels m with
        | Some channels => if bool_decide (lp_type existing = PLUGIN_CHANNEL) then List.find (refers_to existing) channels else None
        | None => None
        end in
      let m1 := match stopped, pm_channels m with
        | Some c, Some channels => add_events [EvChannelDestroy (ch_addr c)] (set_channels (Some (List.filter (fun c' => negb (Nat.eqb (ch_addr c') (ch_addr c))) channels)) (pm_channel_names m) m)
        | _, _ => m
        end in
      m2 ← plugin_manager_unload_plugin realloc_ok existing m1;
      Some (m2, match stopped with Some c => [ChannelStopped (ch_addr c)] | None => [] end)
  end.

Definition enable_entry (id : cstr) (b : bool) (cfg : Config) : option Config :=
  i ← config_get_plugin_config cfg (Some id);
  Some (set_plugins (alter (fun p => mkPluginConfig (pg_id p) b (pg_config p)) i (cf_plugins cfg)) (cf_plugins_capacity cfg) cfg).

(** The channel's configuration is the manager's. *)
Definition handle_control_plugin_enable (hm : HttpMessage) (d : WebUIChannelData) (fs : WebFs) (m : Manager)
    : option (WebReply * WebUIChannelData * WebFs * Manager * list ChannelCall) :=
  let fail status what := Some (send_error status what, d, fs, m, []) in
  match cJSON_Parse (hm_body hm) with
  | None => fail 400%Z $"invalid_json"
  | Some req =>
      match is_string (get_object_item (Some req) $"kind"), is_string (get_object_item (Some req) $"plugin_id"), is_bool (get_object_item (Some req) $"enabled") with
      | Some kind, Some id, Some enabled =>
          match kind_tag kind with
          | None => fail 400%Z $"invalid_kind"
          | Some tag =>
              if negb (bool_decide (is_Some (strstr id tag))) then fail 400%Z $"invalid_plugin_id"
              else match enable_entry id enabled (wu_cfg d) with
                   | None => fail 404%Z $"plugin_not_found"
                   | Some cfg =>
                       let d1 := set_wu_cfg cfg d in
                       let '(fs1, saved) := save_config d1 fs in
                       let m0 := set_config (Some cfg) m in
                       '(m1, calls) ← (if enabled then Some (switch_on fs1 id m0) else switch_off id m0);
                       let d2 := set_wu_cfg (default cfg (pm_config m1)) d1 in
                       Some (send_printed (cJSON_PrintUnformatted (JObj (add_bool $"ok" true ++ add_bool $"enabled" enabled ++ add_bool $"saved" saved ++
                               (if saved then [] else save_warning)))), d2, fs1, m1, calls)
                   end
          end
      | _, _, _ => fail 400%Z $"invalid_params"
      end
  end.

(** ** The table of routes *)

(** The page. *)
Context (WEBUI_HTML : cstr).

Record WebWorld := mkWebWorld { ww_data : WebUIChannelData; ww_fs : WebFs; ww_manager : Manager; ww_calls : list ChannelCall }.
Definition with_fs (fs : WebFs) (w : WebWorld) : WebWorld := mkWebWorld (ww_data w) fs (ww_manager w) (ww_calls w).
Definition with_data (d : WebUIChannelData) (w : WebWorld) : WebWorld := mkWebWorld d (ww_fs w) (ww_manager w) (ww_calls w).

(** What a request does: the answer and the new state; no answer yet, or one
    through the queue; undefined behaviour. *)
Inductive Outcome := Answered (r : WebReply) (w : WebWorld) | Waits (w : WebWorld) | Undefined.

Definition reads (f : WebUIChannelData -> WebFs -> WebReply) (w : WebWorld) : Outcome := Answered (f (ww_data w) (ww_fs w)) w.
Definition on_files (f : WebUIChannelData -> WebFs -> WebReply * WebFs) (w : WebWorld) : Outcome :=
  let '(r, fs) := f (ww_data w) (ww_fs w) in Answered r (with_fs fs w).
(** Only one method is allowed. *)
Definition only (method : cstr) (hm : HttpMessage) (f : WebWorld -> Outcome) (w : WebWorld) : Outcome :=
  if str_eq (hm_method hm) method then f w else Answered (send_error 405 $"method_not_allowed") w.

Definition serve_send (hm : HttpMessage) (w : WebWorld) : Outcome := let '(r, d) := handle_chat_send hm (ww_data w) in Answered r (with_data d w).
Definition serve_poll (hm : HttpMessage) (conn : nat) (now : Z) (w : WebWorld) : Outcome :=
  match handle_chat_poll hm conn now (ww_data w) with (Some r, d) => Answered r (with_data d w) | (None, d) => Waits (with_data d w) end.
Definition serve_update (hm : HttpMessage) (w : WebWorld) : Outcome :=
  let '(r, d, fs) := handle_update_config hm (ww_data w) (ww_fs w) in Answered r (with_fs fs (with_data d w)).
Definition serve_upload (hm : HttpMessage) (w : WebWorld) : Outcome :=
  match handle_control_plugin_upload hm (ww_data w) (ww_fs w) with (Some r, fs) => Answered r (with_fs fs w) | (None, _) => Undefined end.
Definition serve_enable (hm : HttpMessage) (w : WebWorld) : Outcome :=
  match handle_control_plugin_enable hm (ww_data w) (ww_fs w) (ww_manager w) with
  | Some (r, d, fs, m, calls) => Answered r (mkWebWorld d fs m (ww_calls w ++ calls))
  | None => Undefined
  end.
Definition serve_config (hm : HttpMessage) (w : WebWorld) : Outcome :=
  if str_eq (hm_method hm) $"GET" then reads (fun d _ => handle_get_config d) w
  else if str_eq (hm_method hm) $"POST" then serve_update hm w else Answered (send_error 405 $"method_not_allowed") w.
Definition serve_page (w : WebWorld) : Outcome := Answered (send_html WEBUI_HTML) w.

Definition routes (hm : HttpMessage) (conn : nat) (now : Z) : list (cstr * (WebWorld -> Outcome)) :=
  [($"/api/health", reads (fun d _ => handle_health d));
   ($"/api/chat/send", only $"POST" hm (serve_send hm));
   ($"/api/chat/poll", serve_poll hm conn now);
   ($"/api/config", serve_config hm);
   ($"/api/control/channels", reads handle_control_channels);
   ($"/api/control/tools", reads handle_control_tools);
   ($"/api/control/commands", reads handle_control_commands);
   ($"/api/control/plugin-enable", only $"POST" hm (serve_enable hm));
   ($"/api/control/plugins/upload", only $"POST" hm (serve_upload hm));
   ($"/api/control/skills/content", only $"GET" hm (on_files (handle_control_skill_content hm)));
   ($"/api/control/skills/save", only $"POST" hm (on_files (handle_control_skill_save hm)));
   ($"/api/control/skills/import", only $"POST" hm (on_files (handle_control_skill_import hm)));
   ($"/api/control/skills", on_files handle_control_skills);
   ($"/api/control/sessions", reads handle_control_sessions);
   ($"/api/control/usage", reads (fun d _ => handle_control_usage d));
   ($"/api/control/cron", reads handle_control_cron);
   ($"/api/settings/logs", reads handle_settings_logs);
   ($"/api/settings/docs", reads handle_settings_docs);
   ($"/", serve_page); ($"/chat", serve_page); ($"/config", serve_page)].

(** [webui_http_handler] at [MG_EV_HTTP_MSG]: the first pattern that matches. *)
Definition webui_http_handler (hm : HttpMessage) (conn : nat) (now : Z) (w : WebWorld) : Outcome :=
  match List.find (fun r => mg_match (hm_uri hm) (fst r)) (routes hm conn now) with
  | Some (_, f) => f w
  | None => Answered (send_error 404 $"not_found") w
  end.

(** ** Properties *)

(** Nothing but directories and the replies changed. *)
Record left_alone (w w' : WebWorld) : Prop := {
  la_cfg : wu_cfg (ww_data w') = wu_cfg (ww_data w);
  la_port : wu_port (ww_data w') = wu_port (ww_data w);
  la_bus : wu_bus (ww_data w') = wu_bus (ww_data w);
  la_manager : ww_manager w' = ww_manager w;
  la_calls : ww_calls w' = ww_calls w;
  la_files : forall path, entry_text (ww_fs w') path = entry_text (ww_fs w) path;
}.
Definition harmless (w : WebWorld) (o : Outcome) : Prop :=
  match o with Answered _ w' | Waits w' => left_alone w w' | Undefined => False end.

Lemma left_alone_refl w : left_alone w w.
Proof. by constructor. Qed.
Hint Resolve left_alone_refl : core.

Lemma make_dir_texts path fs fs' p : make_dir path fs = Some fs' -> entry_text fs' p = entry_text fs p.
Proof.
  unfold make_dir. destruct (wf_entries fs !! path) eqn:E; [done|]. destruct (wf_mkdir_ok fs path); [|done]. intros [= <-].
  unfold entry_text. cbn. destruct (decide (p = path)) as [->|Hp]; [by rewrite lookup_insert_eq, E|by rewrite lookup_insert_ne by done].
Qed.

Lemma skills_dir_texts d n fs p : entry_text (snd (get_skills_dir d n fs)) p = entry_text fs p.
Proof.
  unfold get_skills_dir. destruct (get_primagen_dir cwd fs d 1024); [|done]. case_match; [done|]. destruct (wf_entries fs !! _) as [[|]|]; [done..|].
  destruct (make_dir _ fs) eqn:E; [|done]. cbn. by eapply make_dir_texts.
Qed.

Lemma on_files_harmless f w : (forall p, entry_text (snd (f (ww_data w) (ww_fs w))) p = entry_text (ww_fs w) p) -> harmless w (on_files f w).
Proof. intros H. unfold on_files. destruct (f (ww_data w) (ww_fs w)) as [r fs]. by constructor. Qed.

Lemma skills_harmless w : harmless w (on_files handle_control_skills w).
Proof.
  apply on_files_harmless. intros p. unfold handle_control_skills. rewrite <-(skills_dir_texts (ww_data w) 1024 (ww_fs w) p).
  by destruct (get_skills_dir (ww_data w) 1024 (ww_fs w)) as [[dir|] fs1].
Qed.

Lemma content_harmless hm w : harmless w (only $"GET" hm (on_files (handle_control_skill_content hm)) w).
Proof.
  unfold only. destruct (str_eq (hm_method hm) $"GET"); [|exact (left_alone_refl w)]. apply on_files_harmless. intros p. unfold handle_control_skill_content.
  destruct (mg_http_get_var _ _ _) as [n name]. destruct ((n <=? 0)%Z || _); [done|]. rewrite <-(skills_dir_texts (ww_data w) 1024 (ww_fs w) p).
  destruct (get_skills_dir (ww_data w) 1024 (ww_fs w)) as [[dir|] fs1]; [|done]. by destruct (read_file_to_string _ _ _).
Qed.

Lemma only_harmless hm f w : hm_method hm <> $"POST" -> harmless w (only $"POST" hm f w).
Proof. intros H. unfold only, str_eq. rewrite bool_decide_eq_false_2 by done. exact (left_alone_refl w). Qed.

Lemma config_harmless hm w : hm_method hm <> $"POST" -> harmless w (serve_config hm w).
Proof. intros H. unfold serve_config. destruct (str_eq (hm_method hm) $"GET"); [exact (left_alone_refl w)|]. unfold str_eq. rewrite bool_decide_eq_false_2 by done. exact (left_alone_refl w). Qed.

Lemma poll_harmless hm conn now w : harmless w (serve_poll hm conn now w).
Proof.
  unfold serve_poll, handle_chat_poll. destruct (poll_chat_id hm) as [chat|]; [|by constructor].
  destruct (act_poll conn chat now _); by constructor.
Qed.

(** C24: A request that is not a POST changes neither the configuration nor the
    plugins, queues nothing, and leaves the text of every file. *)
Theorem webui_only_post_changes hm conn now w : hm_method hm <> $"POST" -> harmless w (webui_http_handler hm conn now w).
Proof.
  intros Hm. assert (Forall (fun r => harmless w (snd r w)) (routes hm conn now)) as Hall.
  { unfold routes. repeat constructor; try exact (left_alone_refl w); cbn [snd];
      first [by apply only_harmless|apply poll_harmless|by apply config_harmless|apply content_harmless|apply skills_harmless]. }
  unfold webui_http_handler. destruct (List.find _ _) as [[p f]|] eqn:E; [|exact (left_alone_refl w)].
  apply List.find_some in E as [E _]. rewrite List.Forall_forall in Hall. exact (Hall _ E).
Qed.

Lemma so_filename_sound s : is_valid_so_filename s = true -> ("/"%char ∉ s) /\ strstr s $".." = None /\ ends_with $".so" s = true /\ Forall (fun c => so_char c = true) s.
Proof.
  unfold is_valid_so_filename. destruct s as [|a s]; [done|]. set (f := a :: s). intros H.
  destruct (strchr f "/"%char) eqn:E1; [done|]. destruct (strchr f ch_bs); [done|]. destruct (strstr f $"..") eqn:E3; [done|].
  apply andb_prop in H as [[_ H2]%andb_prop H3]. split_and!; [by apply strchr_None|done..|]. apply List.Forall_forall. by rewrite forallb_forall in H3.
Qed.

Lemma ensure_dir_entries path fs fs' p e : ensure_dir_exists path fs = Some fs' -> wf_entries fs' !! p = Some e -> e = EDir \/ wf_entries fs !! p = Some e.
Proof.
  unfold ensure_dir_exists, make_dir. destruct path as [|a path]; [done|]. destruct (wf_entries fs !! (a :: path)) as [[|]|] eqn:E; try done; [intros [= <-]; auto|].
  destruct (wf_mkdir_ok fs _); [|done]. intros [= <-]. cbn. destruct (decide (p = a :: path)) as [->|Hp].
  - rewrite lookup_insert_eq. intros [= <-]. auto.
  - rewrite lookup_insert_ne by done. auto.
Qed.

Lemma upload_dir_entries d kind n fs r fs' : get_plugin_upload_dir d kind n fs = (r, fs') ->
  (forall p e, wf_entries fs' !! p = Some e -> e = EDir \/ wf_entries fs !! p = Some e) /\
  (forall dir, r = Some dir -> exists root sub, get_primagen_dir cwd fs d 1024 = Some root /\ kind_subdir kind = Some sub /\ dir = root ++ $"/plugins/" ++ sub).
Proof.
  unfold get_plugin_upload_dir. destruct (get_primagen_dir cwd fs d 1024) as [root|] eqn:E1; [|intros [= <- <-]; split; [auto|done]].
  destruct (kind_subdir kind) as [sub|] eqn:E2; [|intros [= <- <-]; split; [auto|done]].
  destruct (Nat.leb 1200 _); [intros [= <- <-]; split; [auto|done]|].
  destruct (ensure_dir_exists _ fs) as [fs1|] eqn:E3; [|intros [= <- <-]; split; [auto|done]]. pose proof (fun p e => ensure_dir_entries _ _ _ p e E3) as H3.
  destruct (Nat.leb n _); [intros [= <- <-]; split; [auto|done]|].
  destruct (ensure_dir_exists _ fs1) as [fs2|] eqn:E4; [|intros [= <- <-]; split; [auto|done]]. pose proof (fun p e => ensure_dir_entries _ _ _ p e E4) as H4.
  intros [= <- <-]. split.
  - intros p e He. destruct (H4 p e He); auto.
  - intros dir [= <-]. exists root, sub. split_and!; [done..|]. by rewrite <-!app_assoc.
Qed.

Definition uploaded (d : WebUIChannelData) (fs : WebFs) (path : cstr) : Prop :=
  exists root sub kind name, get_primagen_dir cwd fs d 1024 = Some root /\ kind_subdir kind = Some sub /\ path = root ++ $"/plugins/" ++ sub ++ $"/" ++ name /\
    ("/"%char ∉ name) /\ strstr name $".." = None /\ ends_with $".so" name = true.

Lemma store_upload_confined n m kind name b64 d fs r fs' path e : is_valid_so_filename name = true ->
  store_upload n m kind name b64 d fs = (r, fs') -> wf_entries fs' !! path = Some e -> wf_entries fs !! path = Some e \/ e = EDir \/ uploaded d fs path.
Proof.
  intros En H He. unfold store_upload in H. destruct (get_plugin_upload_dir d kind n fs) as [dir fs1] eqn:Ed. destruct (upload_dir_entries _ _ _ _ _ _ Ed) as [H1 H2].
  assert (wf_entries fs1 !! path = Some e -> wf_entries fs !! path = Some e \/ e = EDir \/ uploaded d fs path) as H1' by (intros Hp; destruct (H1 _ _ Hp); auto).
  unfold upload_failed in H. destruct dir as [dir|]; [|injection H as <- <-; auto]. destruct (Nat.leb m _); [injection H as <- <-; auto|].
  destruct (mg_base64_decode _ _) as [|c t]; [injection H as <- <-; auto|]. unfold put_file in H.
  destruct (wf_writable fs1 _ && _); injection H as <- <-; [|auto]. cbn in He.
  destruct (decide (path = dir ++ $"/" ++ name)) as [->|Hp]; [|rewrite lookup_insert_ne in He by done; auto].
  right. right. destruct (H2 dir eq_refl) as (root & sub & Hr & Hs & ->). destruct (so_filename_sound name En) as (Hn & Hd & Ho & _).
  exists root, sub, kind, name. split_and!; try done. by rewrite <-!app_assoc.
Qed.

Lemma upload_failed_keeps status what fs r fs' : upload_failed status what fs = (r, fs') -> fs' = fs.
Proof. by intros [= _ <-]. Qed.

Lemma checked_upload_confined req d fs r fs' path e : checked_upload req d fs = (r, fs') -> wf_entries fs' !! path = Some e ->
  wf_entries fs !! path = Some e \/ e = EDir \/ uploaded d fs path.
Proof.
  unfold checked_upload. generalize 1400, 1800. intros n m H He.
  destruct (is_string _) as [kind|]; [|apply upload_failed_keeps in H as ->; auto]. destruct (is_string _) as [name|]; [|apply upload_failed_keeps in H as ->; auto].
  destruct (is_string _) as [b64|]; [|apply upload_failed_keeps in H as ->; auto]. destruct (negb (bool_decide _)); [apply upload_failed_keeps in H as ->; auto|].
  destruct (is_valid_so_filename name) eqn:En; cbn [negb] in H; [|apply upload_failed_keeps in H as ->; auto].
  destruct (Nat.eqb _ _ || _); [apply upload_failed_keeps in H as ->; auto|].
  exact (store_upload_confined _ _ _ _ _ _ _ _ _ _ _ En H He).
Qed.

#[local] Strategy expand [handle_control_plugin_upload].

(** Where an upload writes: directories, and one file, in the directory of its
    kind, whose name is a plain one that ends in ".so". *)
Theorem webui_upload_confined hm d fs r fs' path e : handle_control_plugin_upload hm d fs = (r, fs') -> wf_entries fs' !! path = Some e ->
  wf_entries fs !! path = Some e \/ e = EDir \/ uploaded d fs path.
Proof.
  intros H He. unfold handle_control_plugin_upload in H. destruct (cJSON_Parse (hm_body hm)) as [req|]; [|apply upload_failed_keeps in H as ->; auto].
  exact (checked_upload_confined _ _ _ _ _ _ _ H He).
Qed.

(** When no channel refers to the copies, none is started. *)
Lemma switch_on_starts_nothing fs id m : (forall c, plugin_ref c <> Some copy2) -> snd (switch_on fs id m) = [].
Proof.
  intros H. unfold switch_on. destruct (plugin_manager_find_plugin m id copy1); [done|]. destruct (find_so_path _ _ _ _) as [p|]; [|done].
  destruct (plugin_manager_load_plugin realloc_ok file p m) as [m1 ret]. cbn [snd]. destruct (ret =? 0)%Z; [|done].
  unfold plugin_manager_find_plugin. destruct (List.find _ (pm_plugins m1)) as [q|]; [|done]. cbn [fmap option_fmap option_map].
  destruct (pm_channels m1) as [cs|]; [|done]. case_bool_decide; [|done]. destruct (List.find _ cs) as [c|] eqn:E; [|done].
  apply List.find_some in E as [_ E]. apply bool_decide_eq_true in E. by apply H in E.
Qed.
End Control.

(** ** What is saved of a skill is read back *)

Lemma strstr_next a p s : starts_with p (a :: s) = false -> strstr (a :: s) p = S <$> strstr s p.
Proof. intros H. cbn [strstr]. by rewrite H. Qed.

Lemma strstr_here p r : strstr (p ++ r) p = Some 0.
Proof. pose proof (starts_with_app p r) as H. destruct (p ++ r); cbn [strstr]; by rewrite H. Qed.

(** Searching goes on behind a text that cannot have the start of the key, and
    behind one that lacks a byte of the key and ends at a byte not in it. *)
Lemma strstr_skip c p (l r : cstr) : (c ∉ l) -> strstr (l ++ r) (c :: p) = (fun i => length l + i) <$> strstr r (c :: p).
Proof.
  induction l as [|a l IH]; intros Hc; [cbn [app]; by destruct (strstr r (c :: p))|]. apply not_elem_of_cons in Hc as [Ha Hc].
  cbn [app]. rewrite strstr_next by (cbn [starts_with]; by rewrite bool_decide_false). rewrite IH by done. by destruct (strstr r (c :: p)).
Qed.

Lemma starts_with_until c p (l r : cstr) : (c ∉ p) -> starts_with p (l ++ c :: r) = true -> exists t, l = p ++ t.
Proof.
  revert l. induction p as [|a p IH]; intros l Hc H; [by exists l|]. apply not_elem_of_cons in Hc as [Ha Hc].
  destruct l as [|b l]; cbn [app starts_with] in H; apply andb_prop in H as [H1%bool_decide_eq_true H2]; [done|]. destruct (IH l Hc H2) as [t ->]. exists t. cbn. by f_equal.
Qed.

Lemma strstr_skip_word b c p (l r : cstr) : b ∈ p -> (b ∉ l) -> (c ∉ p) -> strstr (l ++ c :: r) p = (fun i => length l + i) <$> strstr (c :: r) p.
Proof.
  intros Hb. induction l as [|a l IH]; intros Hl Hc; [cbn [app]; by destruct (strstr (c :: r) p)|].
  assert (starts_with p ((a :: l) ++ c :: r) = false) as E.
  { apply not_true_iff_false. intros [t Ht]%(starts_with_until _ _ _ _ Hc). apply Hl. rewrite Ht. apply elem_of_app. by left. }
  apply not_elem_of_cons in Hl as [_ Hl]. cbn [app] in E |- *. rewrite strstr_next, IH by done. by destruct (strstr (c :: r) p).
Qed.

Lemma skill_name_chars name : is_valid_skill_name name = true -> (":"%char ∉ name) /\ (ch_nl ∉ name).
Proof.
  intros [_ H]%andb_prop. rewrite forallb_forall in H.
  split; intros Hin%list_elem_of_In; specialize (H _ Hin); by vm_compute in H.
Qed.

Lemma name_line_description name r : (":"%char ∉ name) ->
  strstr ($"---" ++ [ch_nl] ++ $"name: " ++ quoted name ++ [ch_nl] ++ $"description: " ++ r) $"description:" = Some (13 + length name).
Proof.
  intros Hn. change ($"---" ++ [ch_nl] ++ $"name: " ++ quoted name ++ [ch_nl] ++ $"description: " ++ r)
    with (($"---" ++ [ch_nl] ++ $"name: " ++ [ch_quote]) ++ (name ++ [ch_quote]) ++ ch_nl :: $"description: " ++ r).
  change $"description:" with ("d"%char :: $"escription:"). rewrite (strstr_skip "d"%char) by (apply (bool_decide_unpack _); by vm_compute). rewrite <-app_assoc.
  change ([ch_quote] ++ ch_nl :: $"description: " ++ r) with (ch_quote :: ch_nl :: $"description: " ++ r).
  rewrite (strstr_skip_word ":"%char); [|apply (bool_decide_unpack _); by vm_compute|done|apply (bool_decide_unpack _); by vm_compute].
  rewrite !strstr_next by done. change ($"description: " ++ r) with (("d"%char :: $"escription:") ++ " "%char :: r).
  rewrite strstr_here. cbn [fmap option_fmap option_map]. f_equal. cbn. lia.
Qed.

Lemma skip_key_at key (l r : cstr) : skip_key key (key ++ " "%char :: ch_quote :: l ++ r) = l ++ r.
Proof. unfold skip_key. rewrite drop_app_length. cbn. by destruct (l ++ r). Qed.

Lemma take_while_stop (f : ascii -> bool) s c r : (forall a, a ∈ s -> f a = true) -> f c = false -> take_while f (s ++ c :: r) = s.
Proof.
  induction s as [|a s IH]; intros H Hc; cbn; [by rewrite Hc|]. rewrite (H a) by left. f_equal. apply IH; [|done]. intros b Hb. apply H. by right.
Qed.

Lemma until_end_at (l r : cstr) : (ch_nl ∉ l) -> (ch_quote ∉ l) -> until_end (l ++ ch_quote :: r) = l.
Proof.
  intros H1 H2. apply take_while_stop; [|by vm_compute]. intros a Ha. rewrite !bool_decide_false; [done|by intros ->..].
Qed.

(** The text before the rule that ends the head. *)
Definition body_start (name description : cstr) : cstr :=
  $"---" ++ [ch_nl] ++ $"name: " ++ quoted name ++ [ch_nl] ++ $"description: " ++ quoted description.

Lemma rule_found name description r : (ch_nl ∉ name) -> (ch_nl ∉ description) ->
  strstr ($"---" ++ [ch_nl] ++ $"name: " ++ quoted name ++ [ch_nl] ++ $"description: " ++ quoted description ++ [ch_nl] ++ $"---" ++ r) rule =
  Some (length (body_start name description)).
Proof.
  intros Hn Hd. assert (forall s t : cstr, (ch_nl ∉ s) -> (ch_nl ∉ t) -> ch_nl ∉ s ++ quoted t) as Hq.
  { intros s t Hs Ht. unfold quoted. rewrite !not_elem_of_app. split_and!; [done| |done|]; apply (bool_decide_unpack _); by vm_compute. }
  unfold rule. rewrite (strstr_skip ch_nl) by (apply (bool_decide_unpack _); by vm_compute). cbn [app]. rewrite strstr_next by done.
  rewrite (app_assoc $"name: " (quoted name)), (strstr_skip ch_nl) by (apply Hq; [apply (bool_decide_unpack _); by vm_compute|done]). rewrite strstr_next by done.
  rewrite (app_assoc $"description: " (quoted description)), (strstr_skip ch_nl) by (apply Hq; [apply (bool_decide_unpack _); by vm_compute|done]).
  change (ch_nl :: $"---" ++ r) with ((ch_nl :: $"---") ++ r). rewrite strstr_here. cbn [fmap option_fmap option_map]. f_equal. unfold body_start. rewrite !length_app. cbn. rewrite !length_app. cbn. lia.
Qed.

(** A skill that was saved is shown as it was, but for a line end at the end
    of its text, when the description is one line without a quote and the text
    does not begin with a line end. *)
Theorem webui_skill_read_back name description body :
  is_valid_skill_name name = true -> (ch_nl ∉ description) -> (ch_quote ∉ description) ->
  match body with c :: _ => is_line_end c = false | [] => False end ->
  let md := skill_md name description body in
  extract_description_from_skill_md md = description /\ extract_body_from_skill_md md = body ++ [ch_nl].
Proof.
  intros Hv Hd Hq Hb md. destruct (skill_name_chars name Hv) as [Hn Hnl]. split.
  - unfold extract_description_from_skill_md, md, skill_md. rewrite name_line_description by done.
    change ($"---" ++ [ch_nl] ++ $"name: " ++ quoted name ++ [ch_nl] ++ ?r) with (($"---" ++ [ch_nl] ++ $"name: " ++ [ch_quote]) ++ (name ++ [ch_quote]) ++ ch_nl :: r).
    rewrite app_assoc, (cons_middle ch_nl), app_assoc, drop_app_length' by (rewrite !length_app; cbn; lia).
    change ($"description: " ++ quoted description ++ ?r) with ($"description:" ++ " "%char :: ch_quote :: (description ++ [ch_quote]) ++ r).
    rewrite <-app_assoc, skip_key_at. cbn [app]. by apply until_end_at.
  - unfold extract_body_from_skill_md, md, skill_md.
    rewrite rule_found by done. match goal with |- drop_while _ (drop _ ?t) = _ => replace t with ((body_start name description ++ rule) ++ [ch_nl; ch_nl] ++ body ++ [ch_nl]) by (unfold body_start, rule, quoted; by rewrite <-!app_assoc) end.
    rewrite drop_app_length' by (rewrite length_app; cbn; lia). cbn [app drop_while]. destruct body as [|c body]; [done|].
    change (is_line_end ch_nl) with true. cbn. by rewrite Hb.
Qed.

Lemma webui_skill_read_back_witness : is_valid_skill_name $"tidy-up" = true /\
  let md := skill_md $"tidy-up" $"Tidies: the desk" ($"# Steps" ++ [ch_nl] ++ $"1. look") in
  extract_description_from_skill_md md = $"Tidies: the desk" /\ extract_body_from_skill_md md = ($"# Steps" ++ [ch_nl] ++ $"1. look") ++ [ch_nl].
Proof.
  split; [by vm_compute|]. apply (webui_skill_read_back $"tidy-up" $"Tidies: the desk" ($"# Steps" ++ [ch_nl] ++ $"1. look")); [by vm_compute| | |by vm_compute];
    apply (bool_decide_unpack _); by vm_compute.
Defined.

(** A quote ends the description early, and each time a skill is saved again
    its text has one more line end. *)
Lemma webui_skill_quote : extract_description_from_skill_md (skill_md $"x" ($"the " ++ quoted $"best" ++ $" one") $"text") = $"the ".
Proof. by vm_compute. Qed.

(** ** A server at work *)

Definition demo_list (fs : WebFs) (dir : cstr) : option (list cstr) := if is_dir fs dir then Some [ $"."; $".."; $"tidy-up" ] else None.
Definition demo_web (m : Manager unit unit) : WebWorld (W := unit) (D := unit) :=
  mkWebWorld (webui_init (config_create (fun _ => true)) (Some demo_bus) None (Some $"/home/u/.primagen/plugins")) demo_files m [].
Definition demo_get (uri : cstr) : HttpMessage := mkHttp $"GET" uri [] [] [].
Definition demo_handler : HttpMessage -> nat -> Z -> WebWorld -> Outcome :=
  webui_http_handler None demo_list (fun _ => 4096%Z) (fun _ => None) (fun _ => None) (fun _ _ fs => (fs, true)) true true (fun _ => true) PluginManager.demo_files
    (fun _ => None) 100 101 $"page".

Lemma webui_only_post_changes_witness :
  let w := demo_web PluginManager.demo_start in
  harmless w (demo_handler (demo_get $"/api/control/skills") 1 0 w) /\
  match demo_handler (demo_get $"/api/control/skills") 1 0 w with Answered r w' => wr_status r = 200%Z /\ is_dir (ww_fs w') $"/home/u/.primagen/skills" = true | _ => False end.
Proof.
  split; [|by vm_compute].
  apply (webui_only_post_changes None demo_list (fun _ => 4096%Z) (fun _ => None) (fun _ => None) (fun _ _ fs => (fs, true)) true true (fun _ => true) PluginManager.demo_files
           (fun _ => None) 100 101 $"page" (demo_get $"/api/control/skills") 1 0 (demo_web PluginManager.demo_start)). done.
Defined.

Definition demo_upload (name : cstr) : HttpMessage :=
  mkHttp $"POST" $"/api/control/plugins/upload" [] [] (default [] (cJSON_PrintUnformatted (JObj [($"kind", JStr $"tool"); ($"filename", JStr name); ($"data_base64", JStr $"Y29kZQ==")]))).
Definition demo_home : WebFs := mkWebFs {[ $"/home/u/.primagen/plugins" := EDir ]} (fun _ => true) (fun _ => true).
Definition demo_data : WebUIChannelData := ww_data (demo_web PluginManager.demo_start).

(** The file is written, and the answer is made of freed memory. *)
Lemma webui_upload_undefined :
  let '(r, fs) := handle_control_plugin_upload None (demo_upload $"fetch_tool.so") demo_data demo_home in
  r = None /\ entry_text fs $"/home/u/.primagen/plugins/tools/fetch_tool.so" = Some $"code".
Proof. by vm_compute. Qed.

Lemma webui_upload_confined_witness : forall path e,
  wf_entries (snd (handle_control_plugin_upload None (demo_upload $"fetch_tool.so") demo_data demo_home)) !! path = Some e ->
  wf_entries demo_home !! path = Some e \/ e = EDir \/ uploaded None demo_data demo_home path.
Proof.
  intros path e. destruct (handle_control_plugin_upload None (demo_upload $"fetch_tool.so") demo_data demo_home) as [r fs] eqn:E.
  exact (webui_upload_confined None (demo_upload $"fetch_tool.so") demo_data demo_home r fs path e E).
Defined.

(** A name that leads out of the directory is refused. *)
Lemma webui_upload_refused : forallb (fun name => match fst (handle_control_plugin_upload None (demo_upload name) demo_data demo_home) with Some r => (wr_status r =? 400)%Z | None => false end)
  [ $"../x.so"; $"a/b.so"; $".so"; $"x.sh"; $"x..so" ] = true.
Proof. by vm_compute. Qed.
