(* ===== verification/FeishuChannel.v ===== *)
(** [src/plugins/channels/feishu_channel/feishu_channel.c]: the token, the
    names of the users, the messages and cards that are sent, the attachments,
    and the loop that keeps the connection of FeishuWs.v open. [network n r] is
    what the connection of the n-th request gives, as in DingTalkChannel.v. An
    operation gives its requests; [None] is undefined behaviour or a wait
    without end. Allocations succeed. *)
From S2P Require Import Prelude CStr Json Common Config Message Fs ChannelCommon ProviderAsync Protobuf DingTalkWs Mongoose MongooseHttp ChannelHttp ChatChannels DingTalkChannel Dispatcher.
Open Scope nat_scope.

(** [fc_cache]: [None] is the memory [malloc] gave, which [feishu_init] leaves
    as it is. *)
Record FeishuChannelData := mkFeishu {
  fc_running : bool;
  fc_access_token : option cstr;
  fc_thread : bool;
  fc_app_id : cstr;
  fc_app_secret : cstr;
  fc_use_card : bool;
  fc_dns : ChannelDns;
  fc_cache : option (list (cstr * cstr));
}.
Definition set_fc_token (t : option cstr) (d : FeishuChannelData) : FeishuChannelData :=
  mkFeishu (fc_running d) t (fc_thread d) (fc_app_id d) (fc_app_secret d) (fc_use_card d) (fc_dns d) (fc_cache d).
Definition set_fc_running (b : bool) (d : FeishuChannelData) : FeishuChannelData :=
  mkFeishu b (fc_access_token d) (fc_thread d) (fc_app_id d) (fc_app_secret d) (fc_use_card d) (fc_dns d) (fc_cache d).
Definition set_fc_cache (c : option (list (cstr * cstr))) (d : FeishuChannelData) : FeishuChannelData :=
  mkFeishu (fc_running d) (fc_access_token d) (fc_thread d) (fc_app_id d) (fc_app_secret d) (fc_use_card d) (fc_dns d) c.

Definition feishu_init (config : Config) : FeishuChannelData :=
  let section := plugin_section config $"feishu_channel" in
  let text key := match section with Some s => section_text s key | None => [] end in
  mkFeishu false None false (text $"app_id") (text $"app_secret") (default false (is_bool (get_object_item section $"use_card"))) (channel_dns config) None.

(** ** Requests *)

Definition open_api : cstr := $"https://open.feishu.cn/open-apis/".
Definition json_utf8 : cstr := $"Content-Type: application/json; charset=utf-8".
Definition bearer (d : FeishuChannelData) : cstr := $"Authorization: Bearer " ++ default [] (fc_access_token d).

Definition feishu_token_request (d : FeishuChannelData) : WebRequest :=
  let body := printed_body [($"app_id", JStr (fc_app_id d)); ($"app_secret", JStr (fc_app_secret d))] in
  tls_request $"1.1" (open_api ++ $"auth/v3/tenant_access_token/internal") [json_utf8; content_length body; $"Connection: close"] body.
Definition ws_url_request (d : FeishuChannelData) : WebRequest :=
  let body := printed_body [($"AppID", JStr (fc_app_id d)); ($"AppSecret", JStr (fc_app_secret d))] in
  tls_request $"1.0" $"https://open.feishu.cn/callback/ws/endpoint" [json_utf8; content_length body; $"locale: zh"] body.
Definition user_url (open_id : cstr) : cstr := truncate_to 512 (open_api ++ $"contact/v3/users/" ++ open_id ++ $"?user_id_type=open_id").
Definition user_request (token open_id : cstr) : WebRequest :=
  let url := user_url open_id in
  mkWebRequest url (mg_url_is_ssl url)
    (lines [$"GET " ++ mg_url_uri url ++ $" HTTP/1.1"; $"Host: " ++ mg_url_host url; $"Authorization: " ++ truncate_to 512 ($"Bearer " ++ token); $"Connection: close"; []]).
Definition json_request (d : FeishuChannelData) (url body : cstr) : WebRequest := tls_request $"1.0" url [json_utf8; bearer d; content_length body] body.

Definition streaming_card (content : cstr) : json :=
  JObj [($"schema", JStr $"2.0");
        ($"header", JObj [($"template", JStr $"blue"); ($"title", JObj [($"tag", JStr $"plain_text"); ($"content", JStr $"Primagen")])]);
        ($"config", JObj [($"streaming_mode", JBool true)]);
        ($"body", JObj [($"elements", JArr [JObj [($"tag", JStr $"markdown"); ($"element_id", JStr $"markdown_1"); ($"content", JStr content)]])])].
Definition card_request (d : FeishuChannelData) (content : cstr) : WebRequest :=
  json_request d (open_api ++ $"cardkit/v1/cards")
    (printed_body ([($"type", JStr $"card_json")] ++ match cJSON_PrintUnformatted (streaming_card content) with Some s => [($"data", JStr s)] | None => [] end)).

(** ** Answers *)

(** The value of [code], which may be of any type. *)
Definition answer_code (resp : json) : option Z := item_valueint <$> get_object_item (Some resp) $"code".
Definition answer_data (resp : json) : option json := if bool_decide (answer_code resp = Some 0%Z) then get_object_item (Some resp) $"data" else None.
Definition data_text (resp : json) (key : cstr) : option cstr := d ← answer_data resp; is_string (get_object_item (Some d) key).

Definition feishu_token_answer (memory : cstr) : option cstr :=
  resp ← answer_object memory;
  match answer_code resp with Some c => if (c =? 0)%Z then is_string (get_object_item (Some resp) $"tenant_access_token") else None
                         | None => is_string (get_object_item (Some resp) $"tenant_access_token") end.
Definition user_name_answer (memory : cstr) : option cstr :=
  resp ← answer_object memory; data ← answer_data resp; user ← get_object_item (Some data) $"user"; is_string (get_object_item (Some user) $"name").

(** ** Attachments *)

Record FeishuAttachment := mkFeishuAttachment { fa_type : cstr; fa_path : cstr; fa_cover_path : cstr; fa_duration : Z }.

Definition feishu_extensions : list (cstr * list cstr) :=
  [($"image", [$"jpg"; $"jpeg"; $"png"; $"webp"; $"gif"; $"bmp"; $"ico"; $"tiff"; $"heic"]);
   ($"audio", [$"opus"; $"mp3"; $"wav"; $"m4a"; $"aac"; $"ogg"; $"amr"]);
   ($"video", [$"mp4"; $"mov"; $"m4v"; $"avi"; $"mkv"; $"webm"])].
Definition infer_media_type_from_path (path : cstr) : option cstr :=
  match strrchr path "."%char with
  | None => None
  | Some i => match drop (i + 1) path with
              | [] => None
              | ext => fst <$> List.find (fun p => existsb (strcasecmp_eq ext) (snd p)) feishu_extensions
              end
  end.

Definition feishu_attachment_spec (raw : cstr) : option FeishuAttachment :=
  match raw with
  | "{"%char :: _ =>
      json ← cJSON_Parse raw;
      let item name := get_object_item (Some json) name in
      type ← is_string (item $"type");
      path ← is_string (item $"path");
      let duration := match is_number (item $"duration") with Some n => valueint n | None => 0%Z end in
      Some (mkFeishuAttachment (truncate_to 16 type) (truncate_to 1024 path) (truncate_to 1024 (default [] (is_string (item $"cover_path"))))
              (if (0 <? duration)%Z then duration else 0%Z))
  | _ => t ← infer_media_type_from_path raw; Some (mkFeishuAttachment (truncate_to 16 t) (truncate_to 1024 raw) [] 0)
  end.

Definition feishu_boundary : cstr := $"----PrimagenFeishuBoundary".
Definition form_field (name value : cstr) : cstr :=
  line2k ($"--" ++ feishu_boundary ++ crlf) ++ line2k ($"Content-Disposition: form-data; name=" ++ [quote] ++ name ++ [quote] ++ crlf ++ crlf ++ value ++ crlf).
Definition build_feishu_upload_body (fs : Fs) (file_field file_path : cstr) (fields : list (cstr * cstr)) : option cstr :=
  match fs_read fs file_path with
  | None | Some [] => None
  | Some bytes =>
      Some ((fields ≫= fun p => form_field (fst p) (snd p)) ++
            line2k ($"--" ++ feishu_boundary ++ crlf) ++
            line2k ($"Content-Disposition: form-data; name=" ++ [quote] ++ file_field ++ [quote] ++ $"; filename=" ++ [quote] ++
                    channel_file_basename (Some file_path) ++ [quote] ++ crlf ++ $"Content-Type: application/octet-stream" ++ crlf ++ crlf) ++
            bytes ++ crlf ++ line2k ($"--" ++ feishu_boundary ++ $"--" ++ crlf))
  end.

Definition is_image (a : FeishuAttachment) : bool := str_eq (fa_type a) $"image".
Definition upload_body (fs : Fs) (a : FeishuAttachment) : option cstr :=
  if is_image a then build_feishu_upload_body fs $"image" (fa_path a) [($"image_type", $"message")]
  else build_feishu_upload_body fs $"file" (fa_path a)
         [($"file_type", if str_eq (fa_type a) $"audio" then $"opus" else $"mp4"); ($"file_name", channel_file_basename (Some (fa_path a)))].
Definition media_request (d : FeishuChannelData) (a : FeishuAttachment) (body : cstr) : WebRequest :=
  tls_request $"1.0" (open_api ++ (if is_image a then $"im/v1/images" else $"im/v1/files"))
    [bearer d; $"Content-Type: multipart/form-data; boundary=" ++ feishu_boundary; content_length body] body.

(** The message with the key of an upload. *)
Definition attachment_content (a : FeishuAttachment) (key : cstr) : cstr * list (cstr * json) :=
  if is_image a then ($"image", [($"image_key", JStr key)])
  else if str_eq (fa_type a) $"audio" then
    ($"audio", ($"file_key", JStr key) :: if (0 <? fa_duration a)%Z then [($"duration", JNum (num_of_Z (fa_duration a)))] else [])
  else ($"file", [($"file_key", JStr key)]).
Definition attachment_message (receive_id : cstr) (a : FeishuAttachment) (key : cstr) : json :=
  let '(type, content) := attachment_content a key in
  JObj [($"receive_id", JStr receive_id); ($"msg_type", JStr type); ($"content", JStr (default $"{}" (cJSON_PrintUnformatted (JObj content))))].

(** ** Messages *)

Definition receive_id_type (chat_id : cstr) : cstr := if starts_with $"oc_" chat_id then $"chat_id" else $"open_id".
Definition messages_url (id_type : cstr) : cstr := truncate_to 512 (open_api ++ $"im/v1/messages?receive_id_type=" ++ id_type).
(** A text that cannot be printed leaves the content out. *)
Definition content_member (j : json) : list (cstr * json) := match cJSON_PrintUnformatted j with Some s => [($"content", JStr s)] | None => [] end.
Definition card_message (chat_id card_id : cstr) : json :=
  JObj ([($"receive_id", JStr chat_id); ($"msg_type", JStr $"interactive")] ++
        content_member (JObj [($"type", JStr $"card"); ($"data", JObj [($"card_id", JStr card_id)])])).
Definition post_content (text : cstr) : json :=
  JObj [($"post", JObj [($"title", JStr []); ($"content", JArr [JArr [JObj [($"tag", JStr $"text"); ($"text", JStr text)]]])])].
Definition post_message (chat_id text : cstr) : json :=
  JObj ([($"receive_id", JStr chat_id); ($"msg_type", JStr $"post")] ++ content_member (post_content text)).

(** ** The requests with the network *)

Definition user_cache_lookup (cache : list (cstr * cstr)) (open_id : cstr) : option cstr := snd <$> List.find (fun e => str_eq (fst e) open_id) cache.
Definition user_cache_store (cache : list (cstr * cstr)) (open_id name : cstr) : list (cstr * cstr) := cache ++ [(open_id, name)].

Definition token_expired (code : Z) : bool := (code =? 99991668)%Z || (code =? 99991663)%Z.

(** How an attempt ended. *)
Inductive Attempt (A : Type) := Done (a : A) | Failed | Expired.
Arguments Done {A}. Arguments Failed {A}. Arguments Expired {A}.

Section Net.
Context (network : nat -> WebRequest -> option (list (Z * poll))).
Abbreviation Log := (list WebRequest).

Definition feishu_refresh_token (d : FeishuChannelData) (log : Log) : option (FeishuChannelData * Log) :=
  let r := feishu_token_request d in
  match network (length log) r with
  | None => Some (d, log ++ [r])
  | Some polls =>
      ms ← poll_until_time 10000 polls empty_chunk true;
      Some (match feishu_token_answer (hc_memory ms) with Some t => set_fc_token (Some t) d | None => d end, log ++ [r])
  end.
Definition ensure_token (d : FeishuChannelData) (log : Log) : option (FeishuChannelData * Log) :=
  match fc_access_token d with Some _ => Some (d, log) | None => feishu_refresh_token d log end.

(** The name of a user, kept once it is known. *)
Definition feishu_get_user_name (open_id : cstr) (d : FeishuChannelData) (log : Log) : option (option cstr * FeishuChannelData * Log) :=
  cache ← fc_cache d;
  match user_cache_lookup cache open_id with
  | Some name => Some (Some name, d, log)
  | None =>
      '(d, log) ← ensure_token d log;
      match fc_access_token d with
      | None => Some (None, d, log)
      | Some token =>
          let r := user_request token open_id in
          match network (length log) r with
          | None => Some (None, d, log ++ [r])
          | Some polls =>
              ms ← poll_until_time 5000 polls empty_chunk true;
              let name := user_name_answer (hc_memory ms) in
              Some (name, match name with Some n => set_fc_cache (Some (user_cache_store cache open_id n)) d | None => d end, log ++ [r])
          end
      end
  end.

(** A request whose answer is waited for without a limit. *)
Definition wait_answer (r : WebRequest) (log : Log) : option (option cstr * Log) :=
  match exchange (untimed network) r log with Some (ms, log) => Some (hc_memory <$> ms, log) | None => None end.

Definition get_ws_url (d : FeishuChannelData) (log : Log) : option (option cstr * FeishuChannelData * Log) :=
  '(d, log) ← ensure_token d log;
  '(m, log) ← wait_answer (ws_url_request d) log;
  Some (m ← m; resp ← answer_object m; data_text resp $"URL", d, log).

Definition create_streaming_card (content : cstr) (d : FeishuChannelData) (log : Log) : option (option cstr * FeishuChannelData * Log) :=
  '(d, log) ← ensure_token d log;
  '(m, log) ← wait_answer (card_request d content) log;
  Some (m ← m; resp ← answer_object m; data_text resp $"card_id", d, log).

(** At most two attempts: after one that finds the token expired a new token
    is asked for. *)
Definition with_retry {A} (attempt : FeishuChannelData -> Log -> option (Attempt A * FeishuChannelData * Log)) (d : FeishuChannelData) (log : Log)
    : option (option A * FeishuChannelData * Log) :=
  '(r, d, log) ← attempt d log;
  match r with
  | Done a => Some (Some a, d, log)
  | Failed => Some (None, d, log)
  | Expired =>
      '(d, log) ← feishu_refresh_token (set_fc_token None d) log;
      '(r, d, log) ← attempt d log;
      Some (match r with Done a => Some a | _ => None end, d, log)
  end.

Definition post_answer (memory : cstr) : Attempt unit :=
  match answer_object memory with
  | None => Failed
  | Some resp => match answer_code resp with
                 | Some c => if (c =? 0)%Z then Done tt else if token_expired c then Expired else Failed
                 | None => Done tt
                 end
  end.
Definition post_attempt (url body : cstr) (d : FeishuChannelData) (log : Log) : option (Attempt unit * FeishuChannelData * Log) :=
  '(d, log) ← ensure_token d log;
  match fc_access_token d with
  | None => Some (Failed, d, log)
  | Some _ => '(m, log) ← wait_answer (json_request d url body) log; Some (match m with Some m => post_answer m | None => Failed end, d, log)
  end.
Definition feishu_post_json_with_retry (url body : cstr) : FeishuChannelData -> Log -> option (option unit * FeishuChannelData * Log) := with_retry (post_attempt url body).

(** [None]: the code of an answer without one is read. *)
Definition upload_answer (a : FeishuAttachment) (memory : cstr) : option (Attempt cstr) :=
  match answer_object memory with
  | None => Some Failed
  | Some resp =>
      c ← answer_code resp;
      Some (if (c =? 0)%Z then match data_text resp (if is_image a then $"image_key" else $"file_key") with Some k => Done k | None => Failed end
            else if token_expired c then Expired else Failed)
  end.
Definition upload_attempt (fs : Fs) (a : FeishuAttachment) (d : FeishuChannelData) (log : Log) : option (Attempt cstr * FeishuChannelData * Log) :=
  '(d, log) ← ensure_token d log;
  match fc_access_token d, upload_body fs a with
  | Some _, Some body =>
      '(m, log) ← wait_answer (media_request d a body) log;
      match m with None => Some (Failed, d, log) | Some m => r ← upload_answer a m; Some (r, d, log) end
  | _, _ => Some (Failed, d, log)
  end.
Definition feishu_upload_media (fs : Fs) (a : FeishuAttachment) : FeishuChannelData -> Log -> option (option cstr * FeishuChannelData * Log) := with_retry (upload_attempt fs a).

Definition feishu_send_attachment (fs : Fs) (id_type receive_id : cstr) (a : FeishuAttachment) (d : FeishuChannelData) (log : Log) : option (bool * FeishuChannelData * Log) :=
  '(key, d, log) ← feishu_upload_media fs a d log;
  match key with
  | None => Some (false, d, log)
  | Some key =>
      match cJSON_PrintUnformatted (attachment_message receive_id a key) with
      | None => Some (false, d, log)
      | Some body => '(ok, d, log) ← feishu_post_json_with_retry (messages_url id_type) body d log; Some (bool_decide (ok = Some tt), d, log)
      end
  end.

Fixpoint send_attachments (fs : Fs) (id_type chat_id : cstr) (l : list cstr) (d : FeishuChannelData) (log : Log) : option (FeishuChannelData * Log) :=
  match l with
  | [] => Some (d, log)
  | raw :: r =>
      match feishu_attachment_spec raw with
      | None => send_attachments fs id_type chat_id r d log
      | Some a => '(_, d, log) ← feishu_send_attachment fs id_type chat_id a d log; send_attachments fs id_type chat_id r d log
      end
  end.

Definition send_post (chat_id : cstr) (message : json) (d : FeishuChannelData) (log : Log) : option (FeishuChannelData * Log) :=
  match cJSON_PrintUnformatted message with
  | None => Some (d, log)
  | Some body => '(_, d, log) ← feishu_post_json_with_retry (messages_url (receive_id_type chat_id)) body d log; Some (d, log)
  end.

Definition feishu_send (fs : Fs) (msg : OutboundMessage) (d : FeishuChannelData) (log : Log) : option (FeishuChannelData * Log) :=
  let chat_id := out_chat_id msg in
  let text := out_content msg in
  if bool_decide (fc_app_id d = []) || negb (str_eq (out_channel msg) $"feishu") then Some (d, log)
  else
    '(d, log) ← ensure_token d log;
    match fc_access_token d with
    | None => Some (d, log)
    | Some _ =>
        '(d, log) ← send_attachments fs (receive_id_type chat_id) chat_id (out_attachments msg) d log;
        if bool_decide (text = []) && negb (bool_decide (out_attachments msg = [])) then Some (d, log)
        else
          '(card, d, log) ← (if fc_use_card d then create_streaming_card text d log else Some (None, d, log));
          send_post chat_id (match card with Some c => card_message chat_id c | None => post_message chat_id text end) d log
    end.

(** ** What is received *)

Definition on_feishu_message (chat_id content : cstr) (sender_id : option cstr) (d : FeishuChannelData) (log : Log) : option (InboundMessage * FeishuChannelData * Log) :=
  '(name, d, log) ← match sender_id with Some (c :: s) => feishu_get_user_name (c :: s) d log | _ => Some (None, d, log) end;
  Some (inbound_message_new (Some $"feishu") (Some chat_id) (Some content) name, d, log).

(** How a round of [feishu_receive_loop] goes, after the address: the
    connection is made or not, and the channel is stopped while it lasts. *)
Record FeishuRound := mkFeishuRound { fr_connects : bool; fr_stopped : bool }.

Definition feishu_delay (attempt : nat) : Z := if Nat.ltb attempt 6 then Z.min 60 (2 ^ Z.of_nat attempt) else 60.
(** The attempts and the seconds to sleep; [None] for these: the loop ends. *)
Definition feishu_receive_round (r : FeishuRound) (d : FeishuChannelData) (attempt : nat) (log : Log) : option (FeishuChannelData * option (nat * Z) * Log) :=
  if negb (fc_running d) then Some (d, None, log)
  else
    '(url, d, log) ← get_ws_url d log;
    let connected := match url with Some _ => fr_connects r | None => false end in
    let attempt := if connected : bool then 0 else S attempt in
    let d := if connected && fr_stopped r then set_fc_running false d else d in
    if Nat.leb max_reconnect_attempts attempt then Some (set_fc_running false d, None, log)
    else Some (d, Some (attempt, if fc_running d then feishu_delay attempt else 0%Z), log).

Definition feishu_start (d : FeishuChannelData) (log : Log) : option (FeishuChannelData * Log) :=
  if bool_decide (fc_app_id d = []) then Some (d, log)
  else
    '(d, log) ← feishu_refresh_token (set_fc_running true d) log;
    Some (mkFeishu (fc_running d) (fc_access_token d) true (fc_app_id d) (fc_app_secret d) (fc_use_card d) (fc_dns d) (fc_cache d), log).
End Net.

(** The thread is not joined. *)
Definition feishu_stop (d : FeishuChannelData) : FeishuChannelData := set_fc_running false d.

(** ** Properties *)

Section Facts.
Context (network : nat -> WebRequest -> option (list (Z * poll))).

Lemma wait_answer_ok r log polls body : network (length log) r = Some polls -> answers_with polls.*2 body ->
  wait_answer network r log = Some (Some body, log ++ [r]).
Proof.
  intros Hn Ha. destruct (poll_answer _ _ Ha) as (ms & Hp & <-). unfold wait_answer, exchange, untimed. rewrite Hn, Hp. done.
Qed.

(** An answer that comes in time is read as it is without the limit. *)
Lemma poll_in_time limit polls : forall ms live ms', Forall (fun p => fst p <= limit)%Z polls ->
  poll_until_done (http_fn alloc_ok) polls.*2 ms = Some ms' -> poll_until_time limit polls ms live = Some ms'.
Proof.
  induction polls as [|[t evs] polls IH]; intros ms live ms' Hl H; cbn [fmap list_fmap poll_until_done poll_until_time snd] in *; destruct (hc_done ms); [done..|].
  apply Forall_cons in Hl as [Ht Hl]. cbn in Ht. destruct (Z.ltb_spec limit t); [lia|]. by apply IH.
Qed.

Lemma feishu_refresh_ok d log polls body token : network (length log) (feishu_token_request d) = Some polls -> Forall (fun p => fst p <= 10000)%Z polls ->
  answers_with polls.*2 body -> feishu_token_answer body = Some token ->
  feishu_refresh_token network d log = Some (set_fc_token (Some token) d, log ++ [feishu_token_request d]).
Proof.
  intros Hn Hl Ha Ht. destruct (poll_answer _ _ Ha) as (ms & Hp & Hm). unfold feishu_refresh_token. rewrite Hn, (poll_in_time _ _ _ _ _ Hl Hp).
  cbn [mbind option_bind]. by rewrite Hm, Ht.
Qed.

Lemma post_attempt_ok url body d log token polls reply : fc_access_token d = Some token -> network (length log) (json_request d url body) = Some polls ->
  answers_with polls.*2 reply -> post_attempt network url body d log = Some (post_answer reply, d, log ++ [json_request d url body]).
Proof.
  intros Ht Hn Ha. unfold post_attempt, ensure_token. rewrite Ht. cbn [mbind option_bind]. rewrite Ht. by rewrite (wait_answer_ok _ _ _ _ Hn Ha).
Qed.

(** A text is posted once, with the token there is; when the service says that
    the token is not valid any more, a new one is asked for and the same text
    is posted once more with it. *)
Theorem feishu_text_sent fs d log token chat_id text body polls reply :
  fc_app_id d <> [] -> fc_access_token d = Some token -> fc_use_card d = false ->
  cJSON_PrintUnformatted (post_message chat_id text) = Some body ->
  let req d := json_request d (messages_url (receive_id_type chat_id)) body in
  let msg := Message.mkOutbound $"feishu" chat_id text [] in
  network (length log) (req d) = Some polls -> answers_with polls.*2 reply ->
  match post_answer reply with
  | Expired =>
      forall token' tpolls treply polls' reply', let d' := set_fc_token (Some token') d in
      network (S (length log)) (feishu_token_request d) = Some tpolls -> Forall (fun p => fst p <= 10000)%Z tpolls -> answers_with tpolls.*2 treply ->
      feishu_token_answer treply = Some token' -> network (S (S (length log))) (req d') = Some polls' -> answers_with polls'.*2 reply' ->
      feishu_send network fs msg d log = Some (d', log ++ [req d; feishu_token_request d; req d'])
  | _ => feishu_send network fs msg d log = Some (d, log ++ [req d])
  end.
Proof.
  intros Hid Ht Hcard Hb req msg Hn Ha.
  assert (forall r, with_retry network (post_attempt network (messages_url (receive_id_type chat_id)) body) d log = r ->
    feishu_send network fs msg d log = match r with Some (_, d, log) => Some (d, log) | None => None end) as Hsend.
  { intros r Hr. unfold feishu_send, msg. cbn [out_chat_id out_content out_channel out_attachments]. rewrite (bool_decide_false _ Hid).
    change (str_eq $"feishu" $"feishu") with true. cbn [negb orb]. unfold ensure_token. rewrite Ht. cbn [mbind option_bind]. rewrite Ht. cbn [send_attachments mbind option_bind].
    rewrite (bool_decide_true ([] = [])), andb_false_r, Hcard by done. cbn [mbind option_bind]. unfold send_post, feishu_post_json_with_retry. rewrite Hb, Hr.
    destruct r as [[[a d'] log']|]; done. }
  pose proof (post_attempt_ok _ body _ _ _ _ _ Ht Hn Ha) as Hp. fold (req d) in Hp.
  destruct (post_answer reply) eqn:E.
  - rewrite (Hsend _ eq_refl). unfold with_retry. by rewrite Hp.
  - rewrite (Hsend _ eq_refl). unfold with_retry. by rewrite Hp.
  - intros token' tpolls treply polls' reply' d' Hn1 Hl Ha1 Ht1 Hn2 Ha2. rewrite (Hsend _ eq_refl). unfold with_retry. rewrite Hp. cbn [mbind option_bind].
    rewrite (feishu_refresh_ok (set_fc_token None d) _ tpolls treply token'); [|by rewrite length_app, Nat.add_1_r|done..]. cbn [mbind option_bind].
    change (set_fc_token (Some token') (set_fc_token None d)) with d'.
    rewrite (post_attempt_ok _ body d' _ token' polls' reply'); [|done|by rewrite !length_app, Nat.add_1_r, Nat.add_1_r|done].
    by rewrite <-!app_assoc.
Qed.

(** After the channel was made, started and used to send, the first message
    with a sender reads the cache of names, which was never set up. *)
Lemma refresh_keeps_cache d log d' log' : feishu_refresh_token network d log = Some (d', log') -> fc_cache d' = fc_cache d.
Proof.
  unfold feishu_refresh_token. destruct (network _ _); [|by intros [= <- _]]. destruct (poll_until_time _ _ _ _); cbn [mbind option_bind]; [|done]. intros [= <- _]. by destruct (feishu_token_answer _).
Qed.
Lemma feishu_first_message_undefined config log d log' chat_id content sender : sender <> [] ->
  feishu_start network (feishu_init config) log = Some (d, log') -> on_feishu_message network chat_id content (Some sender) d log' = None.
Proof.
  intros Hs H. assert (fc_cache d = None) as Hc.
  { unfold feishu_start in H. case_bool_decide; [by injection H as <- _|].
    destruct (feishu_refresh_token network _ log) as [[d1 log1]|] eqn:E; cbn [mbind option_bind] in H; [|done]. injection H as <- _. cbn. by apply refresh_keeps_cache in E. }
  unfold on_feishu_message. destruct sender as [|c s]; [done|]. unfold feishu_get_user_name. by rewrite Hc.
Qed.

(** A connection that ends without an answer is waited for without end. *)
Lemma feishu_closed_hangs r log polls : network (length log) r = Some polls -> Forall (fun e => e = UeClose \/ e = UeOther) (concat polls.*2) ->
  wait_answer network r log = None.
Proof. intros Hn Hc. unfold wait_answer, exchange, untimed. rewrite Hn, (poll_closed _ Hc). done. Qed.
End Facts.

(** The channel as the dispatcher sees it. *)
Definition feishu_channel (network : nat -> WebRequest -> option (list (Z * poll))) (fs : Fs) : Channel (option (FeishuChannelData * list WebRequest)) :=
  mkChannel $"feishu" (Some (fun m w => '(d, log) ← w; feishu_send network fs m d log)).
#[export] Instance feishu_selective network fs : Selective (feishu_channel network fs) [ $"feishu" ].
Proof.
  intros send m w [= <-] Hm. rewrite not_elem_of_cons in Hm. destruct Hm as [Hm _]. destruct w as [[d log]|]; [|done]. cbn. unfold feishu_send, str_eq.
  rewrite (bool_decide_false _ Hm). by rewrite orb_true_r.
Qed.

(** ** A channel at work *)

Definition demo_feishu : FeishuChannelData := mkFeishu true (Some $"t1") true $"app" $"secret" false (mkChannelDns None None 0 false) (Some []).
Definition expired_reply : cstr := printed_body [($"code", JNum (num_of_Z 99991663)); ($"msg", JStr $"Invalid access token")].
Definition token_reply : cstr := printed_body [($"code", JNum (num_of_Z 0)); ($"tenant_access_token", JStr $"t2")].
Definition ok_reply : cstr := printed_body [($"code", JNum (num_of_Z 0))].
Definition demo_answer (body : cstr) : list (Z * poll) := [(0%Z, []); (100%Z, [UeMsg (parsed_head demo_response) body])].
Definition demo_feishu_network (n : nat) (r : WebRequest) : option (list (Z * poll)) :=
  demo_answer <$> ([expired_reply; token_reply; ok_reply] !! n).

Lemma demo_feishu_answers body : (N.of_nat (length body) < SIZE_T_MAX)%N -> answers_with (demo_answer body).*2 body.
Proof. intros H. exists [], (parsed_head demo_response), [], []. by repeat constructor. Qed.

Lemma feishu_text_sent_witness :
  let d' := set_fc_token (Some $"t2") demo_feishu in
  let body := default [] (cJSON_PrintUnformatted (post_message $"oc_1" $"hello")) in
  let req d := json_request d (messages_url $"chat_id") body in
  feishu_send demo_feishu_network (mkFs ∅ (fun _ => true) (fun _ _ => true)) (Message.mkOutbound $"feishu" $"oc_1" $"hello" []) demo_feishu [] =
  Some (d', [req demo_feishu; feishu_token_request demo_feishu; req d']).
Proof.
  refine (feishu_text_sent demo_feishu_network (mkFs ∅ (fun _ => true) (fun _ _ => true)) demo_feishu [] $"t1" $"oc_1" $"hello" _ _ expired_reply _ eq_refl eq_refl _ eq_refl _
            $"t2" _ token_reply _ ok_reply eq_refl _ _ _ eq_refl _); try (by vm_compute); try (apply demo_feishu_answers; by vm_compute); try (repeat constructor; by vm_compute).
Defined.
