(* ===== verification/Cli.v ===== *)
(** [src/cli/commands.c]: the commands of the command line besides the agent.
    A directory is known by the path it was made with; what the system grants
    is an oracle, and making or writing something needs its parent directory.
    A command gives its exit code and what it prints. *)
From S2P Require Import Prelude CStr Json Fs Config.

Record CliFs := mkCliFs { cl_fs : Fs; cl_dirs : list cstr; cl_mkdir_ok : cstr -> bool }.

(** The directory a path names its last component in, if it names one. *)
Definition parent_dir (path : cstr) : option cstr := match strrchr path "/"%char with Some i => Some (take i path) | None => None end.
Definition parent_ok (w : CliFs) (path : cstr) : bool :=
  match parent_dir path with None | Some [] => true | Some d => bool_decide (d ∈ cl_dirs w) end.

Definition path_exists (w : CliFs) (path : cstr) : bool := bool_decide (path ∈ cl_dirs w) || fs_exists (cl_fs w) path.

(** [mkdir] in a directory that exists, of a name that is free. *)
Definition create_dir (w : CliFs) (path : cstr) : CliFs :=
  if path_exists w path then w
  else if bool_decide (path = []) || negb (parent_ok w path && cl_mkdir_ok w path) then w
  else mkCliFs (cl_fs w) (path :: cl_dirs w) (cl_mkdir_ok w).

(** [fopen] for writing, the text, [fclose]. *)
Definition write_text (w : CliFs) (path text : cstr) : CliFs * bool :=
  if bool_decide (path ∈ cl_dirs w) || negb (parent_ok w path) then (w, false)
  else match fs_write (cl_fs w) path text with Some fs => (mkCliFs fs (cl_dirs w) (cl_mkdir_ok w), true) | None => (w, false) end.

Definition printed_line (s : cstr) : cstr := s ++ [ch_nl].

(** ** The files of a new workspace: a tilde stands for a double quote *)
Definition lines_text (lines : list cstr) : cstr :=
  (fun c => if Ascii.eqb c "~"%char then ch_quote else c) <$> (lines ≫= printed_line).

Definition agents_template : cstr := lines_text [
  $"# Primagen";
  $"";
  $"You are Primagen, a helpful AI assistant.";
  $"";
  $"## Guidelines";
  $"";
  $"- State intent before tool calls, but NEVER predict or claim results before receiving them.";
  $"- Before modifying a file, read it first. Do not assume files or directories exist.";
  $"- If a tool call fails, analyze the error before retrying with a different approach.";
  $"- Ask for clarification when the request is ambiguous.";
  $"";
  $"## Tool Usage";
  $"";
  $"- You have access to various tools (cron, memory, exec, skill, etc.).";
  $"- When user asks for something that matches a tool's purpose, CALL THAT TOOL.";
  $"- Actually call the tool - don't just talk about it.";
  $"";
  $"## Cron / Reminder Instructions";
  $"";
  $"When the user asks you to set a reminder, schedule a task, or says anything like ~remind me in N minutes~, ~remind me every day at X~, you MUST call the `cron` tool. Text-only acknowledgment is NEVER sufficient.";
  $"";
  $"1. **Always Call cron Tool**: Saying ~I've set a reminder for you~ or ~OK, I'll remind you~ WITHOUT calling the `cron` tool means NO reminder will be sent. You MUST call the tool.";
  $"2. **Convert Time Expressions**: Parse the user's time expression and convert to cron schedule format:";
  $"   - ~N minutes/seconds later~ -> `@in N*60` or `@in N`";
  $"   - ~Every day at X~ -> `0 X * * *`";
  $"   - ~Every hour~ -> `@every 3600`";
  $"3. **Cron Tool Examples**:";
  $"   - User says ~remind me to drink water in 1 minute~ -> Call `cron(name=~drink-water~, payload=~Remind the user to drink water~, schedule=~@in 60~)`";
  $"   - User says ~remind me to have a meeting every day at 8am~ -> Call `cron(name=~morning-meeting~, payload=~Remind the user to have a meeting~, schedule=~0 8 * * *~)`";
  $"";
  $"**CRITICAL**: Claiming you set a reminder WITHOUT calling the `cron` tool means the user will NEVER receive the reminder. You MUST call the tool.";
  $"";
  $"## Core Memory Instructions";
  $"";
  $"You represent a long-term companion. To maintain continuity across sessions, you MUST proactively manage your memory.";
  $"";
  $"1.  **Save Facts**: When the user provides important personal information (names, nicknames, relationships, preferences, project details), IMMEDIATELY use the `memory` tool to save it. Do NOT just acknowledge in text - you MUST call the `memory` tool.";
  $"2.  **Consolidate History**: If a conversation covers important decisions or events, use the `memory` tool with `history_entry` to save a summary.";
  $"3.  **Remember Requests**: When the user explicitly asks you to ~remember~, ~save~, ~note~ something, you MUST call the `memory` tool with `memory_update` to persist the fact. Text-only acknowledgment is NOT sufficient.";
  $"4.  **Memory Tool Examples**:";
  $"    - User says ~remember his name is Long~ -> Call `memory(history_entry=~[timestamp] User asked to remember: his name is Long~, memory_update=~<updated MEMORY.md with new fact>~)`";
  $"    - User says ~my preference is X~ -> Call `memory(history_entry=~[timestamp] User preference: X~, memory_update=~<updated>~)`";
  $"    - User shares personal info -> Call `memory(history_entry=~[timestamp] User info: ...~, memory_update=~<updated>~)`";
  $"";
  $"**CRITICAL**: Saying ~I've remembered that~ or ~Noted~ in text WITHOUT calling the `memory` tool means the information will be LOST after this session. You MUST call the tool." ].

Definition soul_template : cstr := lines_text [
  $"# Soul";
  $"";
  $"You are a lightweight AI assistant.";
  $"";
  $"## Personality";
  $"";
  $"- Helpful and friendly";
  $"- Concise and to the point";
  $"- Curious and eager to learn";
  $"";
  $"## Values";
  $"";
  $"- Accuracy over speed";
  $"- User privacy and safety";
  $"- Transparency in actions";
  $"";
  $"## Communication";
  $"";
  $"- Reply directly with text for conversations";
  $"- Only use specific channel tools (telegram, dingtalk, etc.) to send to a chat channel" ].

Definition user_template : cstr := lines_text [
  $"# User";
  $"";
  $"## About";
  $"";
  $"- Name: (user's name)";
  $"- Language: (preferred language)";
  $"- Timezone: (your timezone)";
  $"";
  $"## Preferences";
  $"";
  $"- Communication style: (casual/formal)" ].

Definition memory_template : cstr := lines_text [
  $"# Long-term Memory";
  $"";
  $"This file stores important information that should persist across sessions.";
  $"";
  $"## User Information";
  $"";
  $"(Important facts about the user)";
  $"";
  $"## Preferences";
  $"";
  $"(User preferences learned over time)";
  $"";
  $"## Important Notes";
  $"";
  $"(Things to remember)" ].

(** ** The commands *)

(** A template, written when there is no such file. *)
Definition write_template (path text : cstr) (created : cstr) (s : CliFs * list cstr) : CliFs * list cstr :=
  let '(w, out) := s in
  if path_exists w path then s
  else match write_text w path text with
       | (w1, true) => (w1, out ++ [printed_line ($"[dim]Created " ++ created ++ $"[/dim]")])
       | (w1, false) => (w1, out)
       end.

Definition check_mark : cstr := $"[green]✓[/green] ".

(** The part that makes the configuration: its directory is copied to a buffer
    of 512 bytes, without a look at its length. [None] is the overflow. *)
Definition onboard_config (config_path : cstr) (w : CliFs) : option (CliFs * list cstr) :=
  w1 ← match parent_dir config_path with
       | Some d => if Nat.leb 512 (length d) then None else Some (create_dir w d)
       | None => Some w
       end;
  Some (if path_exists w1 config_path
        then (w1, [printed_line ($"[yellow]Config already exists at " ++ config_path ++ $"[/yellow]")])
        else match fst (config_save_to_file true (config_create (fun _ => true))) with
             | Some text =>
                 match write_text w1 config_path text with
                 | (w2, true) => (w2, [printed_line (check_mark ++ $"Created config at " ++ config_path)])
                 | (w2, false) => (w2, [printed_line ($"[red]Failed to create config at " ++ config_path ++ $"[/red]")])
                 end
             | None => (w1, [printed_line ($"[red]Failed to create config at " ++ config_path ++ $"[/red]")])
             end).

Definition in_dir (dir name : cstr) : cstr := truncate_to 512 (dir ++ $"/" ++ name).

(** The workspace, its templates and the directory of the memory. *)
Definition onboard_workspace (workspace_path : cstr) (s : CliFs * list cstr) : CliFs * list cstr :=
  let '(w, out) := s in
  let s1 := (create_dir w workspace_path, out ++ [printed_line (check_mark ++ $"Workspace ready at " ++ workspace_path)]) in
  let '(w2, out2) := write_template (in_dir workspace_path $"USER.md") user_template $"USER.md"
    (write_template (in_dir workspace_path $"SOUL.md") soul_template $"SOUL.md"
      (write_template (in_dir workspace_path $"AGENTS.md") agents_template $"AGENTS.md" s1)) in
  let memory_dir := in_dir workspace_path $"memory" in
  write_template (in_dir memory_dir $"MEMORY.md") memory_template $"memory/MEMORY.md" (create_dir w2 memory_dir, out2).

Definition cmd_onboard (config_path workspace_path : cstr) (w : CliFs) : option (CliFs * list cstr * Z) :=
  s ← onboard_config config_path w;
  let '(w1, out) := onboard_workspace workspace_path s in
  Some (w1, [printed_line $"Initializing primagen configuration and workspace..."] ++ out ++
    [ [ch_nl] ++ printed_line $"Primagen is ready!"; printed_line $"Next steps:"; printed_line ($"  1. Add your API key to " ++ config_path);
      printed_line $"  2. Run: ./build/primagen agent" ], 0%Z).

Definition cmd_gateway (port : Z) (verbose : bool) : list cstr * Z :=
  ([printed_line ($"Starting primagen gateway on port " ++ fmt_d port ++ $"...")] ++ (if verbose then [printed_line $"Verbose mode enabled."] else []) ++
   [printed_line $"[yellow]Gateway mode is currently a placeholder in this C implementation.[/yellow]";
    printed_line $"In full version, this would start an HTTP/WebSocket server."], 2%Z).

(** [%s] of NULL is printed as (null). *)
Definition printed_or_null (o : option cstr) : cstr := default $"(null)" o.

Definition cmd_agent (message session_id : option cstr) : list cstr * Z :=
  let head := [printed_line $"Starting agent interaction..."; printed_line ($"Session ID: " ++ printed_or_null session_id)] in
  match message with
  | Some m => (head ++ [printed_line ($"Message: " ++ m);
      printed_line $"[yellow]Single-shot message mode not fully refactored yet. Use interactive mode.[/yellow]"], 2%Z)
  | None => (head ++ [printed_line $"Entering interactive mode..."], 0%Z)
  end.

Definition cmd_channels_status (cfg : Config) : list cstr * Z :=
  ([printed_line $"Channel Status"; printed_line $"--------------"] ++
   match cf_plugins cfg with
   | [] => [printed_line $"No channel plugins configured."]
   | l => l ≫= fun pc => match pg_id pc with
                         | Some id => [printed_line (id ++ $": " ++ (if pg_enabled pc then $"Enabled" else $"Disabled"))]
                         | None => []
                         end
   end, 0%Z).

Definition cmd_status (cfg : Config) (config_path workspace_path : cstr) (w : CliFs) : list cstr * Z :=
  let state path := if path_exists w path then $"Exists" else $"Missing" in
  ([printed_line $"Primagen Status"; printed_line $"---------------";
    printed_line ($"Config:    " ++ config_path ++ $" (" ++ state config_path ++ $")");
    printed_line ($"Workspace: " ++ workspace_path ++ $" (" ++ state workspace_path ++ $")");
    printed_line ($"Provider:  " ++ printed_or_null (ac_provider (cf_agent cfg)));
    printed_line ($"Model:     " ++ match config_get_active_provider cfg with Some pc => printed_or_null (pc_model pc) | None => $"(none)" end);
    printed_line ($"Heartbeat: " ++ (if hb_enabled (cf_heartbeat cfg) then $"Enabled" else $"Disabled") ++ $" (" ++ fmt_d (hb_interval_s (cf_heartbeat cfg)) ++ $"s)")], 0%Z).

Definition print_usage (program_name : cstr) : list cstr :=
  [printed_line ($"Usage: " ++ program_name ++ $" [command] [options]") ++ [ch_nl]; printed_line $"Commands:";
   printed_line $"  agent     - Run the agent (default)"; printed_line $"  onboard   - Initialize configuration and workspace";
   printed_line $"  gateway   - Start the gateway server"; printed_line $"  status    - Show primagen status";
   printed_line $"  channels  - Channel management" ++ [ch_nl]; printed_line $"Options:";
   printed_line $"  -c, --config <path>    Path to config file (default: .primagen/config.json)";
   printed_line $"  -w, --workspace <path> Path to workspace directory (default: .primagen)";
   printed_line $"  -m, --message <msg>    Initial message to send to agent";
   printed_line $"  -h, --help             Show this help message" ++ [ch_nl]; printed_line $"Examples:";
   printed_line ($"  " ++ program_name ++ $" agent -m " ++ [ch_quote] ++ $"Hello" ++ [ch_quote]);
   printed_line ($"  " ++ program_name ++ $" onboard"); printed_line ($"  " ++ program_name ++ $" gateway"); printed_line ($"  " ++ program_name ++ $" status")].

(** ** What [onboard] leaves *)

(** The files of a workspace and their texts. *)
Definition templates (workspace_path : cstr) : list (cstr * cstr) :=
  [(in_dir workspace_path $"AGENTS.md", agents_template); (in_dir workspace_path $"SOUL.md", soul_template); (in_dir workspace_path $"USER.md", user_template);
   (in_dir (in_dir workspace_path $"memory") $"MEMORY.md", memory_template)].

(** Nothing that was there is changed or goes away. *)
Record grows (w w' : CliFs) : Prop := {
  grows_files : forall p t, fs_files (cl_fs w) !! p = Some t -> fs_files (cl_fs w') !! p = Some t;
  grows_dirs : cl_dirs w ⊆ cl_dirs w';
  grows_write : fs_writable (cl_fs w') = fs_writable (cl_fs w);
  grows_mkdir : cl_mkdir_ok w' = cl_mkdir_ok w;
}.

#[export] Instance grows_preorder : PreOrder grows.
Proof. split; [by intros w|]. intros a b c [] []. split; [auto|set_solver|congruence|congruence]. Qed.

Lemma path_exists_spec w p : path_exists w p = true <-> p ∈ cl_dirs w \/ is_Some (fs_files (cl_fs w) !! p).
Proof. unfold path_exists, fs_exists. by rewrite orb_true_iff, !bool_decide_eq_true. Qed.

Lemma path_exists_grows w w' p : grows w w' -> path_exists w p = true -> path_exists w' p = true.
Proof. intros [Hf Hd _ _]. rewrite !path_exists_spec. intros [H|[t H]]; [left; by apply Hd|right]. exists t. by apply Hf. Qed.

Lemma parent_ok_grows w w' p : grows w w' -> parent_ok w p = true -> parent_ok w' p = true.
Proof. intros [_ Hd _ _]. unfold parent_ok. case_match; [|done]. case_match; [done|]. rewrite !bool_decide_eq_true. apply Hd. Qed.

Lemma create_dir_grows w p : grows w (create_dir w p).
Proof. unfold create_dir. case_match; [done|]. case_match; [done|]. split; cbn; [done|set_solver|done|done]. Qed.

Lemma write_text_grows w p t : path_exists w p = false -> grows w (fst (write_text w p t)).
Proof.
  intros Hx. unfold write_text. case_match; [done|]. unfold fs_write. destruct (fs_writable _ p); [|done]. split; cbn; [|done|done|done].
  intros q u Hq. rewrite lookup_insert_ne; [done|]. intros <-. assert (path_exists w p = true) as E by (apply path_exists_spec; right; by eexists). congruence.
Qed.

Lemma write_template_grows p t n w out : grows w (fst (write_template p t n (w, out))).
Proof.
  unfold write_template. destruct (path_exists w p) eqn:E; [done|]. pose proof (write_text_grows w p t E) as H.
  destruct (write_text w p t) as [w1 b]. by destruct b.
Qed.

Lemma onboard_config_grows c w w1 out : onboard_config c w = Some (w1, out) -> grows w w1.
Proof.
  unfold onboard_config. intros H.
  assert (exists w0, grows w w0 /\ (if path_exists w0 c
    then (w0, [printed_line ($"[yellow]Config already exists at " ++ c ++ $"[/yellow]")])
    else match fst (config_save_to_file true (config_create (fun _ => true))) with
         | Some text => match write_text w0 c text with
             | (w2, true) => (w2, [printed_line (check_mark ++ $"Created config at " ++ c)])
             | (w2, false) => (w2, [printed_line ($"[red]Failed to create config at " ++ c ++ $"[/red]")])
             end
         | None => (w0, [printed_line ($"[red]Failed to create config at " ++ c ++ $"[/red]")])
         end) = (w1, out)) as (w0 & Hg & E).
  { destruct (parent_dir c) as [d|]; [destruct (Nat.leb 512 (length d)); [done|]|]; cbn [mbind option_bind] in H; apply (inj Some) in H; eexists; split; [apply create_dir_grows|exact H|reflexivity|exact H]. }
  transitivity w0; [done|]. clear H Hg w. destruct (path_exists w0 c) eqn:Ex; [by injection E as <- _|].
  destruct (fst _) as [text|]; [|by injection E as <- _]. pose proof (write_text_grows w0 c text Ex) as Hg.
  destruct (write_text w0 c text) as [w2 b]. by destruct b; injection E as <- _.
Qed.

Lemma onboard_workspace_grows ws w out : grows w (fst (onboard_workspace ws (w, out))).
Proof.
  unfold onboard_workspace. set (w0 := create_dir w ws). pose proof (create_dir_grows w ws) as H0. fold w0 in H0.
  set (o0 := out ++ _). pose proof (write_template_grows (in_dir ws $"AGENTS.md") agents_template $"AGENTS.md" w0 o0) as H1.
  destruct (write_template (in_dir ws $"AGENTS.md") agents_template $"AGENTS.md" (w0, o0)) as [w1 o1]. cbn [fst] in H1.
  pose proof (write_template_grows (in_dir ws $"SOUL.md") soul_template $"SOUL.md" w1 o1) as H2.
  destruct (write_template (in_dir ws $"SOUL.md") soul_template $"SOUL.md" (w1, o1)) as [w2 o2]. cbn [fst] in H2.
  pose proof (write_template_grows (in_dir ws $"USER.md") user_template $"USER.md" w2 o2) as H3.
  destruct (write_template (in_dir ws $"USER.md") user_template $"USER.md" (w2, o2)) as [w3 o3]. cbn [fst] in H3.
  pose proof (create_dir_grows w3 (in_dir ws $"memory")) as H4. pose proof (write_template_grows (in_dir (in_dir ws $"memory") $"MEMORY.md") memory_template $"memory/MEMORY.md"
    (create_dir w3 (in_dir ws $"memory")) o3) as H5.
  do 4 (etransitivity; [eassumption|]). etransitivity; eassumption.
Qed.

(** A closed statement that a byte is not in a text. *)
Local Ltac closed_absent := apply (bool_decide_unpack _); by vm_compute.

Lemma strrchr_last s r c : c ∉ r -> strrchr (s ++ c :: r) c = Some (length s).
Proof.
  intros Hr. induction s as [|a s IH]; cbn [app strrchr length]; [|by rewrite IH].
  assert (strrchr r c = None) as ->; [|by rewrite bool_decide_eq_true_2].
  induction r as [|b r IH]; [done|]. apply not_elem_of_cons in Hr as [Hb Hr]. cbn [strrchr]. by rewrite IH, bool_decide_eq_false_2 by done.
Qed.

Lemma in_dir_short dir name : length dir + length name < 510 -> in_dir dir name = dir ++ "/"%char :: name.
Proof. intros H. unfold in_dir. apply truncate_to_id. rewrite length_app. cbn. lia. Qed.

Lemma parent_in_dir dir name : length dir + length name < 510 -> "/"%char ∉ name -> parent_dir (in_dir dir name) = Some dir.
Proof. intros Hl Hn. rewrite in_dir_short by done. unfold parent_dir. by rewrite strrchr_last, take_app_length. Qed.

Definition grants (w : CliFs) : Prop := (forall p, cl_mkdir_ok w p = true) /\ (forall p, fs_writable (cl_fs w) p = true).

Lemma create_dir_spec w p : grants w -> p <> [] -> parent_ok w p = true -> fs_files (cl_fs w) !! p = None ->
  cl_fs (create_dir w p) = cl_fs w /\ p ∈ cl_dirs (create_dir w p) /\ forall q, q ∈ cl_dirs (create_dir w p) -> q = p \/ q ∈ cl_dirs w.
Proof.
  intros [Hm _] Hne Hp Hf. unfold create_dir. destruct (path_exists w p) eqn:E.
  - apply path_exists_spec in E as [E|[t E]]; [|congruence]. split_and!; [done|done|auto].
  - rewrite Hp, Hm, bool_decide_eq_false_2 by done. cbn. split_and!; [done|set_solver|]. intros q. rewrite elem_of_cons. tauto.
Qed.

Lemma write_template_spec w p t n out : grants w -> parent_ok w p = true -> p ∉ cl_dirs w ->
  let w' := fst (write_template p t n (w, out)) in
  cl_dirs w' = cl_dirs w /\ fs_files (cl_fs w') !! p = Some (default t (fs_files (cl_fs w) !! p)) /\
  forall q, q <> p -> fs_files (cl_fs w') !! q = fs_files (cl_fs w) !! q.
Proof.
  intros [_ Hw] Hp Hd. cbn zeta. unfold write_template. destruct (path_exists w p) eqn:E.
  - apply path_exists_spec in E as [E|[u E]]; [done|]. cbn [fst]. by rewrite E.
  - unfold write_text. rewrite bool_decide_eq_false_2, Hp by done. unfold fs_write. rewrite Hw. cbn [negb orb fst cl_fs cl_dirs fs_set fs_files].
    assert (fs_files (cl_fs w) !! p = None) as ->.
    { apply eq_None_not_Some. intros Hs. assert (path_exists w p = true) as Ht by (apply path_exists_spec; auto). congruence. }
    rewrite lookup_insert_eq. split_and!; [done|done|]. intros q Hq. by rewrite lookup_insert_ne.
Qed.

(** What the workspace needs to be made: its parent, no file in the place of a
    directory, no directory in the place of a file. *)
Record room_for (w : CliFs) (ws : cstr) : Prop := {
  room_name : ws <> [] /\ length ws < 480;
  room_parent : parent_ok w ws = true;
  room_dirs : Forall (fun p => fs_files (cl_fs w) !! p = None) [ws; in_dir ws $"memory"];
  room_files : Forall (fun p => p ∉ cl_dirs w) (fst <$> templates ws);
}.

(** Templates written one after another. *)
Lemma write_templates_spec w out l : grants w -> Forall (fun '(p, t, n) => parent_ok w p = true /\ p ∉ cl_dirs w) l -> NoDup ((fun x => x.1.1) <$> l) ->
  let w' := fst (fold_left (fun s '(p, t, n) => write_template p t n s) l (w, out)) in
  grants w' /\ grows w w' /\ cl_dirs w' = cl_dirs w /\
  Forall (fun '(p, t, n) => fs_files (cl_fs w') !! p = Some (default t (fs_files (cl_fs w) !! p))) l /\
  forall q, q ∉ ((fun x => x.1.1) <$> l) -> fs_files (cl_fs w') !! q = fs_files (cl_fs w) !! q.
Proof.
  cbn zeta. intros Hg Hl Hnd. revert w out Hg Hl. induction l as [|[[p t] n] l IH]; intros w out Hg Hl; [by split_and!|].
  apply Forall_cons in Hl as [[Hp Hd] Hl]. rewrite fmap_cons in Hnd. apply NoDup_cons in Hnd as [Hni Hnd]. cbn [fold_left].
  destruct (write_template_spec w p t n out Hg Hp Hd) as (D1 & F1 & O1). pose proof (write_template_grows p t n w out) as G1.
  destruct (write_template p t n (w, out)) as [w1 o1]. cbn [fst] in D1, F1, O1, G1.
  assert (grants w1) as Hg1. { destruct G1 as [_ _ E1 E2], Hg as [A B]. split; intros q; [by rewrite E2|by rewrite E1]. }
  destruct (IH Hnd w1 o1 Hg1) as (Hg2 & G2 & D2 & F2 & O2).
  { eapply Forall_impl; [exact Hl|]. intros [[q u] m] [Hq Hqd]. split; [by apply (parent_ok_grows w)|by rewrite D1]. }
  split_and!; [done|by etransitivity|by rewrite D2| |].
  - constructor; [rewrite O2; [done|exact Hni]|]. rewrite Forall_forall in F2 |- *. intros [[q u] m] Hq. specialize (F2 _ Hq). cbn in F2 |- *. rewrite F2, O1; [done|].
    intros ->. apply Hni. apply (list_elem_of_fmap_2 (fun x : cstr * cstr * cstr => x.1.1)) in Hq. exact Hq.
  - intros q. rewrite fmap_cons. intros [Hq1 Hq2]%not_elem_of_cons. rewrite O2 by done. by apply O1.
Qed.

Lemma workspace_paths ws : length ws < 480 ->
  in_dir ws $"memory" = ws ++ $"/memory" /\ in_dir ws $"AGENTS.md" = ws ++ $"/AGENTS.md" /\ in_dir ws $"SOUL.md" = ws ++ $"/SOUL.md" /\
  in_dir ws $"USER.md" = ws ++ $"/USER.md" /\ in_dir (ws ++ $"/memory") $"MEMORY.md" = ws ++ $"/memory/MEMORY.md".
Proof.
  intros H. split_and!; rewrite in_dir_short by (rewrite ?length_app; cbn; lia); [done..|]. by rewrite <-app_assoc.
Qed.

Lemma parent_in ws n : "/"%char ∉ n -> parent_dir (ws ++ "/"%char :: n) = Some ws.
Proof. intros Hn. unfold parent_dir. by rewrite strrchr_last, take_app_length. Qed.

Lemma parent_made w ws n : ws <> [] -> ws ∈ cl_dirs w -> "/"%char ∉ n -> parent_ok w (ws ++ "/"%char :: n) = true.
Proof. intros Hne Hin Hn. unfold parent_ok. rewrite parent_in by done. destruct ws; [done|]. by apply bool_decide_eq_true. Qed.

Lemma onboard_workspace_spec w ws out : grants w -> room_for w ws ->
  Forall (fun '(p, t) => fs_files (cl_fs (fst (onboard_workspace ws (w, out)))) !! p = Some (default t (fs_files (cl_fs w) !! p))) (templates ws) /\
  Forall (fun d => d ∈ cl_dirs (fst (onboard_workspace ws (w, out)))) [ws; in_dir ws $"memory"].
Proof.
  intros Hg [[Hne Hlen] Hp Hd Hf]. destruct (workspace_paths ws Hlen) as (Em & E1 & E2 & E3 & E4). unfold onboard_workspace, templates in *.
  rewrite Em, E1, E2, E3, E4 in *. rewrite Forall_fmap, !Forall_cons in Hf. unfold compose in Hf. cbn [fst] in Hf. rewrite !Forall_cons in Hd. destruct Hd as (Hd1 & Hd2 & _), Hf as (F1 & F2 & F3 & F4 & _).
  destruct (create_dir_spec w ws Hg Hne Hp Hd1) as (C1 & C2 & C3). pose proof (create_dir_grows w ws) as G0. set (w0 := create_dir w ws) in *. set (o0 := out ++ _).
  assert (forall w1 w2, grows w1 w2 -> grants w1 -> grants w2) as Hgr.
  { intros w1 w2 [_ _ A1 A2] [B1 B2]. split; intros p; [by rewrite A2|by rewrite A1]. }
  assert (forall n, n <> [] -> ws ++ n <> ws) as Hown by (intros n Hn E; apply (f_equal length) in E; rewrite length_app in E; destruct n; [done|cbn in E; lia]).
  set (l := [(ws ++ $"/AGENTS.md", agents_template, $"AGENTS.md"); (ws ++ $"/SOUL.md", soul_template, $"SOUL.md"); (ws ++ $"/USER.md", user_template, $"USER.md")]).
  destruct (write_templates_spec w0 o0 l) as (Hg1 & G1 & D1 & W1 & O1).
  { by apply (Hgr w). }
  { assert (forall n, "/"%char ∉ n -> ws ++ "/"%char :: n ∉ cl_dirs w -> parent_ok w0 (ws ++ "/"%char :: n) = true /\ ws ++ "/"%char :: n ∉ cl_dirs w0) as Hn.
    { intros n Hs Hn. split; [by apply parent_made|]. intros [Hin|Hin]%C3; [by apply Hown in Hin|done]. }
    unfold l. rewrite !Forall_cons. split; [|split; [|split; [|constructor]]]; [apply (Hn $"AGENTS.md")|apply (Hn $"SOUL.md")|apply (Hn $"USER.md")]; [closed_absent|exact F1|closed_absent|exact F2|closed_absent|exact F3]. }
  { unfold l. cbn [fmap list_fmap fst]. repeat (apply NoDup_cons; split; [rewrite ?elem_of_cons; intros Hin; repeat (destruct Hin as [Hin|Hin]; [by apply app_inv_head in Hin|]); by apply not_elem_of_nil in Hin|]). constructor. }
  cbn [l fold_left] in Hg1, G1, D1, W1, O1. fold l in O1. destruct (write_template _ user_template _ _) as [w3 o3]. cbn [fst] in *.
  assert (forall n, n ∉ [$"/AGENTS.md"; $"/SOUL.md"; $"/USER.md"] -> fs_files (cl_fs w3) !! (ws ++ n) = fs_files (cl_fs w) !! (ws ++ n)) as O2.
  { intros n Hn. rewrite O1, C1; [done|]. unfold l. cbn [fmap list_fmap fst]. rewrite !elem_of_cons in Hn |- *. intros H. apply Hn. destruct_or!; try (by apply app_inv_head in H; auto). by apply not_elem_of_nil in H. }
  destruct (create_dir_spec w3 (ws ++ $"/memory") Hg1) as (M1 & M2 & M3).
  { by destruct ws. } { apply (parent_made _ ws $"memory"); [done|by rewrite D1|closed_absent]. } { rewrite O2 by closed_absent. exact Hd2. }
  destruct (write_template_spec (create_dir w3 (ws ++ $"/memory")) (ws ++ $"/memory/MEMORY.md") memory_template $"memory/MEMORY.md" o3) as (DM & FM & OM).
  { apply (Hgr w3); [apply create_dir_grows|done]. }
  { change (ws ++ $"/memory/MEMORY.md") with (ws ++ $"/memory" ++ "/"%char :: $"MEMORY.md"). rewrite app_assoc. apply (parent_made _ _ $"MEMORY.md"); [by destruct ws|done|closed_absent]. }
  { intros Hin. apply M3 in Hin as [Hin|Hin]; [by apply app_inv_head in Hin|]. rewrite D1 in Hin. apply C3 in Hin as [Hin|Hin]; [by apply Hown in Hin|done]. }
  unfold l in W1. rewrite !Forall_cons in W1. destruct W1 as (W1 & W2 & W3 & _). rewrite C1 in W1, W2, W3.
  split; [repeat constructor; [rewrite OM, M1; [done|by intros ?%app_inv_head]..|]; rewrite FM, M1; by rewrite O2 by closed_absent|].
  rewrite DM. assert (ws ∈ cl_dirs w3) as Hw3 by by rewrite D1. pose proof (grows_dirs _ _ (create_dir_grows w3 (ws ++ $"/memory")) _ Hw3). by repeat constructor.
Qed.

(** The text of the default configuration. *)
Definition default_config_text : cstr := default [] (fst (config_save_to_file true (config_create (fun _ => true)))).

(** What the configuration needs to be made. *)
Record room_for_config (w : CliFs) (c : cstr) : Prop := {
  config_file : (c ∉ cl_dirs w) /\ parent_dir c <> Some c;
  config_dir : match parent_dir c with
               | None | Some [] => True
               | Some d => length d < 512 /\ parent_ok w d = true /\ fs_files (cl_fs w) !! d = None
               end;
}.

Lemma onboard_config_spec c w : grants w -> room_for_config w c ->
  exists w1 out, onboard_config c w = Some (w1, out) /\ grants w1 /\ fs_files (cl_fs w1) !! c = Some (default default_config_text (fs_files (cl_fs w) !! c)) /\
    (forall q, q <> c -> fs_files (cl_fs w1) !! q = fs_files (cl_fs w) !! q) /\ (forall q, q ∈ cl_dirs w1 -> Some q = parent_dir c \/ q ∈ cl_dirs w) /\
    (match parent_dir c with None | Some [] => True | Some d => d ∈ cl_dirs w1 end).
Proof.
  intros Hg [[Hc Hcd] Hd].
  assert (exists w0, (match parent_dir c with Some d => if Nat.leb 512 (length d) then None else Some (create_dir w d) | None => Some w end) = Some w0 /\
    grants w0 /\ cl_fs w0 = cl_fs w /\ (forall q, q ∈ cl_dirs w0 -> Some q = parent_dir c \/ q ∈ cl_dirs w) /\ parent_ok w0 c = true /\
    (match parent_dir c with None | Some [] => True | Some d => d ∈ cl_dirs w0 end)) as (w0 & E0 & G0 & F0 & D0 & P0 & M0).
  { unfold parent_ok. destruct (parent_dir c) as [[|a d]|] eqn:Ep; [|destruct Hd as (Hl & Hp & Hf)|exists w; by split_and!; auto].
    - exists w. unfold create_dir. rewrite (bool_decide_eq_true_2 ([] = [])) by done. cbn [orb]. split_and!; auto. by destruct (path_exists w []).
    - rewrite (proj2 (Nat.leb_gt _ _)) by done. destruct (create_dir_spec w (a :: d) Hg ltac:(done) Hp Hf) as (C1 & C2 & C3).
      eexists. split; [done|]. destruct (create_dir_grows w (a :: d)) as [_ _ A1 A2]. destruct Hg as [B1 B2].
      split_and!; [split; intros p; [by rewrite A2|by rewrite A1]|done| |by apply bool_decide_eq_true|done]. intros q [->|Hq]%C3; auto. }
  unfold onboard_config. rewrite E0. cbn [mbind option_bind].
  assert (c ∉ cl_dirs w0) as Hc0 by (intros [Hq|Hq]%D0; [by rewrite <-Hq in Hcd|done]).
  destruct (path_exists w0 c) eqn:Ex.
  - apply path_exists_spec in Ex as [Ex|[t Ht]]; [done|]. rewrite F0 in Ht. eexists _, _. split; [done|]. rewrite F0, Ht. by split_and!.
  - assert (fst (config_save_to_file true (config_create (fun _ => true))) = Some default_config_text) as -> by by vm_compute.
    unfold write_text. rewrite bool_decide_eq_false_2, P0 by done. unfold fs_write. rewrite (proj2 G0). cbn [negb orb].
    assert (fs_files (cl_fs w0) !! c = None) as Hn.
    { apply eq_None_not_Some. intros Hs. assert (path_exists w0 c = true) as Ht by (apply path_exists_spec; auto). congruence. }
    eexists _, _. split; [done|]. cbn [cl_fs fs_set fs_files cl_dirs]. rewrite F0 in Hn |- *. rewrite lookup_insert_eq, Hn. split_and!; [split; [exact (proj1 G0)|intros p; cbn; rewrite <-F0; exact (proj2 G0 p)]|done| |done|done].
    intros q Hq. by rewrite lookup_insert_ne.
Qed.

(** ** Once everything is there, nothing is done *)

Lemma create_dir_done w p : path_exists w p = true -> create_dir w p = w.
Proof. intros H. unfold create_dir. by rewrite H. Qed.

Lemma write_template_done p t n w out : path_exists w p = true -> write_template p t n (w, out) = (w, out).
Proof. intros H. unfold write_template. by rewrite H. Qed.

Lemma onboard_done c ws w : path_exists w c = true -> (match parent_dir c with None | Some [] => True | Some d => path_exists w d = true /\ length d < 512 end) ->
  Forall (fun p => path_exists w p = true) ([ws; in_dir ws $"memory"] ++ (fst <$> templates ws)) -> exists out, cmd_onboard c ws w = Some (w, out, 0%Z).
Proof.
  intros Hc Hd Hp. rewrite Forall_app, Forall_fmap in Hp. destruct Hp as [Hp Ht]. unfold templates, compose in Ht. rewrite !Forall_cons in Hp. rewrite !Forall_cons in Ht. cbn [fst] in Ht.
  destruct Hp as (H1 & H2 & _), Ht as (H3 & H4 & H5 & H6 & _). unfold cmd_onboard, onboard_config.
  assert ((match parent_dir c with Some d => if Nat.leb 512 (length d) then None else Some (create_dir w d) | None => Some w end) = Some w) as ->.
  { destruct (parent_dir c) as [[|a d]|]; [|destruct Hd as [Hd Hl]|done].
    - unfold create_dir. rewrite (bool_decide_eq_true_2 ([] = [])) by done. cbn. by destruct (path_exists w []).
    - by rewrite (proj2 (Nat.leb_gt _ _)), create_dir_done. }
  cbn [mbind option_bind]. rewrite Hc. unfold onboard_workspace. rewrite create_dir_done by done. rewrite !write_template_done by done.
  rewrite create_dir_done by done. rewrite write_template_done by done. by eexists.
Qed.

(** The command onboard changes no file that was there, makes the default
    configuration, which is loaded as such, and the four files of the
    workspace, when they are missing, and running it again changes nothing; as
    long as the paths name different things and the system grants what the
    command asks for. *)
Theorem onboard_correct c ws w : grants w -> room_for w ws -> room_for_config w c ->
  Forall (fun p => p <> c) ([ws; in_dir ws $"memory"] ++ (fst <$> templates ws)) -> Forall (fun p => Some p <> parent_dir c) (fst <$> templates ws) ->
  exists w' out, cmd_onboard c ws w = Some (w', out, 0%Z) /\ grows w w' /\
    Forall (fun '(p, t) => fs_files (cl_fs w') !! p = Some (default t (fs_files (cl_fs w) !! p))) ((c, default_config_text) :: templates ws) /\
    config_load_from_file (fun _ => true) (Some default_config_text) (fun _ => None) (config_create (fun _ => true)) = Some (config_create (fun _ => true), true) /\
    exists out', cmd_onboard c ws w' = Some (w', out', 0%Z).
Proof.
  intros Hg Hr Hc Hne Hpd. destruct (onboard_config_spec c w Hg Hc) as (w1 & out & E1 & G1 & F1 & O1 & D1 & M1). pose proof (onboard_config_grows _ _ _ _ E1) as Hg1.
  apply Forall_app in Hne as [Hne Hnt]. assert (room_for w1 ws) as Hr1.
  { destruct Hr as [Hn Hp Hd Hf]. split; [done|by apply (parent_ok_grows w)| |].
    - rewrite !Forall_cons in Hd. rewrite !Forall_cons in Hne. destruct Hd as (? & ? & _), Hne as (? & ? & _). repeat constructor; by rewrite O1.
    - rewrite Forall_forall in Hf |- *. rewrite Forall_forall in Hpd. intros p Hp1 [Hq|Hq]%D1; [by apply (Hpd p)|by apply (Hf p)]. }
  destruct (onboard_workspace_spec w1 ws out G1 Hr1) as [W1 W2]. pose proof (onboard_workspace_grows ws w1 out) as Hg2.
  unfold cmd_onboard at 1. rewrite E1. cbn [mbind option_bind]. destruct (onboard_workspace ws (w1, out)) as [w' out']. cbn [fst] in *.
  eexists w', _. split; [done|]. assert (fs_files (cl_fs w') !! c = Some (default default_config_text (fs_files (cl_fs w) !! c))) as Hcf by by apply (grows_files _ _ Hg2).
  split_and!; [by etransitivity| |by vm_compute|].
  - constructor; [done|]. rewrite Forall_forall in W1 |- *. intros [p t] Hp. specialize (W1 _ Hp). cbn in W1. rewrite W1, O1; [done|].
    rewrite Forall_forall in Hnt. apply Hnt. by apply (list_elem_of_fmap_2 fst) in Hp.
  - apply onboard_done.
    + apply path_exists_spec. right. by eexists.
    + destruct Hc as [_ Hd]. destruct (parent_dir c) as [[|a d]|]; [done| |done]. destruct Hd as (Hl & _). split; [|done]. apply path_exists_spec. left. by apply (grows_dirs _ _ Hg2).
    + apply Forall_app. split; (eapply Forall_impl; [|intros p Hp; apply path_exists_spec; exact Hp]).
      * eapply Forall_impl; [exact W2|]. by left.
      * apply Forall_fmap. eapply Forall_impl; [exact W1|]. intros [p t] Hp. right. cbn. rewrite Hp. by eexists.
Qed.

Definition demo_cli_fs : CliFs := mkCliFs (mkFs ∅ (fun _ => true) (fun _ _ => true)) [] (fun _ => true).

Lemma onboard_correct_witness : exists w' out, cmd_onboard $".primagen/config.json" $".primagen" demo_cli_fs = Some (w', out, 0%Z) /\ grows demo_cli_fs w' /\
  Forall (fun '(p, t) => fs_files (cl_fs w') !! p = Some (default t (fs_files (cl_fs demo_cli_fs) !! p))) (($".primagen/config.json", default_config_text) :: templates $".primagen") /\
  config_load_from_file (fun _ => true) (Some default_config_text) (fun _ => None) (config_create (fun _ => true)) = Some (config_create (fun _ => true), true) /\
  exists out', cmd_onboard $".primagen/config.json" $".primagen" w' = Some (w', out', 0%Z).
Proof.
  apply (onboard_correct $".primagen/config.json" $".primagen" demo_cli_fs).
  - done.
  - split; [split; [done|cbn; lia]|by vm_compute|repeat constructor; by vm_compute|repeat constructor; apply not_elem_of_nil].
  - split; [split; [apply not_elem_of_nil|by vm_compute]|]. vm_compute. split_and!; [lia|done|done].
  - repeat constructor; by vm_compute.
  - repeat constructor; by vm_compute.
Defined.
