(* ===== verification/Main.v ===== *)
(** [src/main.c]: the command line, the start of the agent and its end, and
    the signal handler. (The cron callback is in CronRounds.v, the thread of
    the outbound messages in Dispatcher.v.) [getopt_long] is that of the C
    library, for the options of the program. *)
From S2P Require Import Prelude CStr Json Fs Message ContextBuilder Config Lifecycle Cli.

(** ** The options *)

(** [long_options]: the name, whether there is an argument, the letter. *)
Definition long_options : list (cstr * bool * ascii) :=
  [($"config", true, "c"%char); ($"workspace", true, "w"%char); ($"message", true, "m"%char); ($"help", false, "h"%char)].

(** The letter takes an argument, by the string "c:w:m:h". *)
Definition short_option (c : ascii) : option bool :=
  if Ascii.eqb c "h" then Some false else if existsb (Ascii.eqb c) ["c"%char; "w"%char; "m"%char] then Some true else None.

(** What one call of [getopt_long] answers: an option with its argument, or a
    question mark. *)
Inductive getopt_answer := GotOption (c : ascii) (optarg : option cstr) | GotError.

(** The letters of one argument after its dash: the answers, and whether the
    next argument is taken, for the last letter. *)
Fixpoint short_cluster (letters : cstr) (next : option cstr) : list getopt_answer * bool :=
  match letters with
  | [] => ([], false)
  | c :: r =>
      match short_option c with
      | None => let '(l, b) := short_cluster r next in (GotError :: l, b)
      | Some false => let '(l, b) := short_cluster r next in (GotOption c None :: l, b)
      | Some true =>
          match r, next with
          | _ :: _, _ => ([GotOption c (Some r)], false)
          | [], Some a => ([GotOption c (Some a)], true)
          | [], None => ([GotError], false)
          end
      end
  end.

(** The text after two dashes: a name, or the beginning of one, and a value. *)
Definition long_name (s : cstr) : cstr * option cstr :=
  match strchr s "="%char with Some i => (take i s, Some (drop (i + 1) s)) | None => (s, None) end.

Definition find_long (name : cstr) : option (bool * ascii) :=
  match name with
  | [] => None
  | _ => '(_, b, c) ← List.find (fun o => starts_with name o.1.1) long_options; Some (b, c)
  end.

Definition long_option (s : cstr) (next : option cstr) : getopt_answer * bool :=
  let '(name, value) := long_name s in
  match find_long name, value, next with
  | None, _, _ => (GotError, false)
  | Some (false, _), Some _, _ => (GotError, false)
  | Some (false, c), None, _ => (GotOption c None, false)
  | Some (true, c), Some v, _ => (GotOption c (Some v), false)
  | Some (true, c), None, Some a => (GotOption c (Some a), true)
  | Some (true, _), None, None => (GotError, false)
  end.

(** The answers of the calls in turn. Arguments that are no options are passed
    over; two dashes alone end the options. *)
Fixpoint getopt_long (args : list cstr) : list getopt_answer :=
  match args with
  | [] => []
  | a :: r =>
      let next := head r in
      match a with
      | "-"%char :: "-"%char :: [] => []
      | "-"%char :: "-"%char :: s =>
          match long_option s next, r with
          | (x, true), _ :: r' => x :: getopt_long r'
          | (x, _), _ => x :: getopt_long r
          end
      | "-"%char :: _ :: _ =>
          match short_cluster (tail a) next, r with
          | (l, true), _ :: r' => l ++ getopt_long r'
          | (l, _), _ => l ++ getopt_long r
          end
      | _ => getopt_long r
      end
  end.

Record Options := mkOptions { op_config : cstr; op_workspace : cstr; op_message : option cstr }.

Definition default_options : Options := mkOptions $".primagen/config.json" $".primagen" None.

(** The loop over the options; [None]: the help was asked for. *)
Fixpoint take_options (l : list getopt_answer) (o : Options) : option Options :=
  match l with
  | [] => Some o
  | GotOption "c"%char (Some v) :: r => take_options r (mkOptions v (op_workspace o) (op_message o))
  | GotOption "w"%char (Some v) :: r => take_options r (mkOptions (op_config o) v (op_message o))
  | GotOption "m"%char (Some v) :: r => take_options r (mkOptions (op_config o) (op_workspace o) (Some v))
  | GotOption "h"%char _ :: _ => None
  | _ :: r => take_options r o
  end.

(** The first argument is a command unless it starts with a dash. *)
Definition command_of (argv : list cstr) : option cstr :=
  match argv with
  | _ :: ("-"%char :: _) :: _ => None
  | _ :: a :: _ => Some a
  | _ => None
  end.

Definition parse_options (argv : list cstr) : option Options :=
  take_options (getopt_long (drop (match command_of argv with Some _ => 2 | None => 1 end) argv)) default_options.

(** ** The start and the end of the agent *)

Definition bootstrap_files : list cstr := [$"AGENTS.md"; $"SOUL.md"; $"USER.md"; $"TOOLS.md"].

(** The loop that reads them. *)
Definition load_bootstrap (fs : Fs) (workspace_path : cstr) (cb : ContextBuilder) : ContextBuilder :=
  fold_left (fun cb name =>
    match fs_read fs (truncate_to 512 (workspace_path ++ $"/" ++ name)) with
    | None | Some [] => cb
    | Some bytes =>
        let content := take_while not_nul bytes in
        if str_eq name $"AGENTS.md" then context_builder_set_identity cb content else context_builder_add_bootstrap cb content
    end) bootstrap_files cb.

(** [if (ch->start)] and the like. *)
Record ChannelOps := mkOps { has_start : bool; has_stop : bool; has_destroy : bool }.

(** What [run_agent_loop] makes and frees. (The bus, the session manager, the
    context builder and the registries are left to the end of the process.) *)
Inductive part :=
  | ChannelList | MemoryPart | Plugins | SubagentShared | Subagents | CronPart | Skills | ToolContextPart | LoopPart.

(** What [run_agent_loop] does, one entry per call that matters to the
    threads and to the memory they share. What a call finds is part of it:
    [EvStopLoop seen]: the loop had raised its flag, so that the stop is seen;
    [EvJoinAgent tool_left]: a tool is still at work in the executor when the
    agent's thread has ended; [EvFree Subagents] waits ten seconds for the
    subagents, [EvSubagentsLeft] says that not all ended. *)
Inductive run_event :=
  | EvMake (p : part) | EvStartCron
  | EvStartChannel (i : nat) | EvAgentThread | EvAllocArgs | EvOutboundThread | EvInject (msg : InboundMessage)
  | EvStopLoop (seen : bool) | EvJoinAgent (tool_left : bool) | EvCloseBus | EvJoinOutbound
  | EvStopChannel (i : nat) | EvDestroyChannel (i : nat) | EvFreeArgs
  | EvStopCron | EvSubagentsLeft | EvFree (p : part).

(** What the system grants, in the order in which it is asked for: the
    memories and the threads; and what happens meanwhile, as in the events.
    What the code does not check is granted. The executor of the tools and its
    threads come and go with the loop ([LoopPart]). *)
Record RunEnv := mkRunEnv {
  re_memory : bool; re_plugins : bool; re_shared : bool; re_subagents : bool; re_cron : bool; re_cron_thread : bool; re_skills : bool;
  re_tool_context : bool; re_loop : bool; re_agent_thread : bool; re_args : bool; re_outbound_thread : bool;
  re_stop_seen : bool; re_tool_left : bool; re_subagents_end : bool }.

Definition when (b : bool) (l : list run_event) : list run_event := if b then l else [].

Definition start_channels (channels : list ChannelOps) : list run_event :=
  concat (imap (fun i ch => if has_start ch then [EvStartChannel i] else []) channels).
Definition close_channels (channels : list ChannelOps) : list run_event :=
  concat (imap (fun i ch => (if has_stop ch then [EvStopChannel i] else []) ++ (if has_destroy ch then [EvDestroyChannel i] else [])) channels).

(** The components, up to the agent loop. The thread of the cron service is
    started with it. *)
Definition make_services (env : RunEnv) : list run_event :=
  [EvMake ChannelList] ++ when (re_memory env) [EvMake MemoryPart] ++ when (re_plugins env) [EvMake Plugins] ++
  when (re_shared env) [EvMake SubagentShared] ++ when (re_subagents env) [EvMake Subagents] ++
  when (re_cron env) (EvMake CronPart :: when (re_cron_thread env) [EvStartCron]) ++ when (re_skills env) [EvMake Skills].

(** The calls after the threads have ended and the channels were closed. A
    pointer that is NULL is passed over. *)
Definition free_services (env : RunEnv) (tool_ctx loop : bool) : list run_event :=
  [EvFreeArgs] ++ when (re_cron env) (when (re_cron_thread env) [EvStopCron] ++ [EvFree CronPart]) ++
  when (re_subagents env) (when (negb (re_subagents_end env)) [EvSubagentsLeft] ++ [EvFree Subagents]) ++
  when (re_shared env) [EvFree SubagentShared] ++ when (re_skills env) [EvFree Skills] ++ when (re_memory env) [EvFree MemoryPart] ++
  when tool_ctx [EvFree ToolContextPart] ++ when (re_plugins env) [EvFree Plugins] ++ when loop [EvFree LoopPart].

(** From the label [cleanup]. *)
Definition cleanup (env : RunEnv) (channels : list ChannelOps) (rc : Z) (tool_ctx loop agent_thread_started outbound_thread_started : bool) : list run_event :=
  when (negb (rc =? 0)%Z && loop && agent_thread_started) [EvStopLoop (re_stop_seen env)] ++
  when agent_thread_started [EvJoinAgent (re_tool_left env)] ++
  when outbound_thread_started [EvCloseBus; EvJoinOutbound] ++
  close_channels channels ++ [EvFree ChannelList] ++ free_services env tool_ctx loop.

Definition initial_inbound (message : cstr) : InboundMessage := inbound_message_new (Some $"cli") (Some $"local_user") (Some message) None.

(** [channels]: those the plugins registered, which takes a plugin manager;
    the built-in one is added with the tools. *)
Definition run_agent_loop (env : RunEnv) (channels : list ChannelOps) (console : ChannelOps) (initial_message : option cstr) : list run_event * Z :=
  let services := make_services env in
  let own := if re_plugins env then channels else [] in
  if negb (re_tool_context env) then (services ++ cleanup env own 1 false false false false, 1%Z) else
  let tool_ctx := services ++ [EvMake ToolContextPart] in
  let all := if re_plugins env then channels ++ [console] else [] in
  if negb (re_loop env) then (tool_ctx ++ cleanup env all 1 true false false false, 1%Z) else
  let started := tool_ctx ++ [EvMake LoopPart] ++ start_channels all in
  if negb (re_agent_thread env) then (started ++ cleanup env all 1 true true false false, 1%Z) else
  let agent := started ++ [EvAgentThread] in
  if negb (re_args env) then (agent ++ cleanup env all 1 true true true false, 1%Z) else
  let args := agent ++ [EvAllocArgs] in
  if negb (re_outbound_thread env) then (args ++ [EvFreeArgs] ++ cleanup env all 1 true true true false, 1%Z) else
  (args ++ [EvOutboundThread] ++ (match initial_message with Some s => [EvInject (initial_inbound s)] | None => [] end) ++
   [EvJoinAgent (re_tool_left env); EvCloseBus; EvJoinOutbound] ++ cleanup env all 0 true true false false, 0%Z).

(** [handle_signal]: [g_loop] is NULL until the loop was made. *)
Definition handle_signal (g_loop : option LoopState) : option LoopState := agent_loop_request_stop <$> g_loop.

(** ** The commands *)

Definition esc : ascii := Ascii.ascii_of_nat 27.
Definition banner : list cstr := printed_line <$> [
  esc :: $"[1;34m";
  $"_____________________________  _________________________________   __";
  $"___  __ \__  __ \___  _/__   |/  /__    |___  ____/__  ____/__  | / /";
  $"__  /_/ /_  /_/ /__  / __  /|_/ /__  /| |__  / __ __  __/  __   |/ / ";
  $"_  ____/_  _, _/__/ /  _  /  / / _  ___ | / /_/ / _  /___  _  /|  /  ";
  $"/_/     /_/ |_| /___/  /_/  /_/  /_/  |_| \____/  /_____/  /_/ |_/   ";
  esc :: $"[0m" ].

(** [main]: [run] is [run_agent_loop], which gives the exit code and does what
    the other files show. [None]: a command, or the loading of the
    configuration, is undefined. *)
Definition main (run : Config -> cstr -> option cstr -> Z) (env : cstr -> option cstr) (argv : list cstr) (w : CliFs) : option (CliFs * list cstr * Z) :=
  let program := default [] (head argv) in
  match parse_options argv with
  | None => Some (w, print_usage program, 0%Z)
  | Some o =>
      let command := command_of argv in
      let called s := match command with Some c => str_eq c s | None => false end in
      let cfg0 := config_create (fun _ => true) in
      match (if called $"onboard" then Some (cfg0, false)
             else config_load_from_file (fun _ => true) (fs_read (cl_fs w) (op_config o)) env cfg0) with
      | None => None
      | Some (cfg, config_loaded) =>
      let warning := if config_loaded : bool then [] else [printed_line $"Warning: Could not load config, using defaults."] in
      let answer (r : list cstr * Z) := let '(out, rc) := r in Some (w, banner ++ out, rc) in
      match command with
      | None => answer (warning, run cfg (op_workspace o) (op_message o))
      | Some c =>
          if str_eq c $"agent"
          then answer (warning, run cfg (op_workspace o) (op_message o))
          else if str_eq c $"onboard"
          then match cmd_onboard (op_config o) (op_workspace o) w with Some (w', out, rc) => Some (w', banner ++ out, rc) | None => None end
          else if str_eq c $"gateway" then answer (cmd_gateway 18790 false)
          else if str_eq c $"status" then answer (cmd_status cfg (op_config o) (op_workspace o) w)
          else if str_eq c $"channels"
          then match argv with
               | _ :: _ :: a :: _ => if str_eq a $"status" then answer (cmd_channels_status cfg)
                                     else answer ([printed_line $"Unknown channels command. Try: channels status"], 1%Z)
               | _ => answer ([printed_line $"Unknown channels command. Try: channels status"], 1%Z)
               end
          else answer (printed_line ($"Unknown command: " ++ c) :: print_usage program, 1%Z)
      end
      end
  end.

(** ** What the options mean, however they are spelled *)

(** [SpellLong k]: the first [k] letters of the long name. *)
Inductive spelling := SpellShort | SpellAttached | SpellLong (k : nat) | SpellEquals (k : nat).
Inductive option_name := OptConfig | OptWorkspace | OptMessage.
Inductive argument := ArgOption (n : option_name) (sp : spelling) (v : cstr) | ArgWord (w : cstr).

Definition letter_of (n : option_name) : ascii := match n with OptConfig => "c" | OptWorkspace => "w" | OptMessage => "m" end.
Definition long_of (n : option_name) : cstr := match n with OptConfig => $"config" | OptWorkspace => $"workspace" | OptMessage => $"message" end.

Definition spell (a : argument) : list cstr :=
  match a with
  | ArgWord w => [w]
  | ArgOption n SpellShort v => [["-"%char; letter_of n]; v]
  | ArgOption n SpellAttached v => ["-"%char :: letter_of n :: v]
  | ArgOption n (SpellLong k) v => ["-"%char :: "-"%char :: take (S k) (long_of n); v]
  | ArgOption n (SpellEquals k) v => ["-"%char :: "-"%char :: take (S k) (long_of n) ++ "="%char :: v]
  end.

Definition argument_ok (a : argument) : Prop :=
  match a with
  | ArgWord ("-"%char :: _) => False
  | ArgOption _ SpellAttached [] => False
  | _ => True
  end.

Definition set_option (o : Options) (a : argument) : Options :=
  match a with
  | ArgWord _ => o
  | ArgOption OptConfig _ v => mkOptions v (op_workspace o) (op_message o)
  | ArgOption OptWorkspace _ v => mkOptions (op_config o) v (op_message o)
  | ArgOption OptMessage _ v => mkOptions (op_config o) (op_workspace o) (Some v)
  end.

Definition answers (a : argument) : list getopt_answer :=
  match a with ArgWord _ => [] | ArgOption n _ v => [GotOption (letter_of n) (Some v)] end.

Lemma getopt_word w r : argument_ok (ArgWord w) -> getopt_long (w :: r) = getopt_long r.
Proof. destruct w as [|c w]; [done|]. intros H. cbn [getopt_long]. destruct c as [[] [] [] [] [] [] [] []]; done. Qed.

Lemma long_spelled n k v r : getopt_long (("-"%char :: "-"%char :: take (S k) (long_of n)) :: v :: r) = GotOption (letter_of n) (Some v) :: getopt_long r.
Proof.
  assert (exists j, j <= 8 /\ take (S k) (long_of n) = take (S j) (long_of n)) as (j & Hj & ->).
  { destruct (le_gt_dec k 8) as [H|H]; [by exists k|]. exists 8. split; [done|]. destruct n; by rewrite !take_ge by (cbn; lia). }
  destruct n; do 9 (destruct j as [|j]; [reflexivity|]); lia.
Qed.

Lemma equals_spelled n k v r : getopt_long (("-"%char :: "-"%char :: take (S k) (long_of n) ++ "="%char :: v) :: r) = GotOption (letter_of n) (Some v) :: getopt_long r.
Proof.
  assert (exists j, j <= 8 /\ take (S k) (long_of n) = take (S j) (long_of n)) as (j & Hj & ->).
  { destruct (le_gt_dec k 8) as [H|H]; [by exists k|]. exists 8. split; [done|]. destruct n; by rewrite !take_ge by (cbn; lia). }
  destruct n; do 9 (destruct j as [|j]; [by destruct r|]); lia.
Qed.

Lemma getopt_spelled a r : argument_ok a -> getopt_long (spell a ++ r) = answers a ++ getopt_long r.
Proof.
  destruct a as [n sp v|w]; [|apply getopt_word]. destruct sp as [| |k|k]; cbn [spell answers app]; intros Hok.
  - by destruct n.
  - destruct v as [|c v]; [done|]. destruct n; by destruct r.
  - apply long_spelled.
  - apply equals_spelled.
Qed.

Definition command_words (command : option cstr) : list cstr := match command with Some c => [c] | None => [] end.

(** However the options of the command line are spelled (short with the
    argument attached or apart, long, cut to a prefix, with an equals sign)
    and mixed with other words, each takes the last value given to it, and
    what follows two dashes is not looked at. *)
Theorem options_parsed (program : cstr) (command : option cstr) (l : list argument) (rest : list cstr) :
  (match command with Some c => argument_ok (ArgWord c) | None => match l with ArgWord _ :: _ => False | _ => True end end) ->
  Forall argument_ok l -> rest = [] \/ head rest = Some $"--" -> (command = None -> l <> []) ->
  parse_options (program :: command_words command ++ (l ≫= spell) ++ rest) = Some (fold_left set_option l default_options).
Proof.
  intros Hc Hl Hr Hne.
  assert (getopt_long ((l ≫= spell) ++ rest) = l ≫= answers) as Hg.
  { clear Hc Hne. induction Hl as [|a l Ha _ IH].
    - destruct Hr as [->|Hr]; [done|]. destruct rest as [|s rest]; [done|]. injection Hr as ->. done.
    - change ((a :: l) ≫= spell) with (spell a ++ (l ≫= spell)). rewrite <-app_assoc, getopt_spelled by done. by rewrite IH. }
  assert (forall o, take_options (l ≫= answers) o = Some (fold_left set_option l o)) as Ht.
  { clear. induction l as [|a l IH]; intros o; [done|]. change ((a :: l) ≫= answers) with (answers a ++ (l ≫= answers)).
    destruct a as [n sp v|w]; [|apply IH]. destruct n; apply IH. }
  assert (forall b, (match command with Some _ => True | None => b = ["-"%char] end) ->
    command_of (program :: command_words command ++ (l ≫= spell) ++ rest) = command) as Hcmd.
  { intros b _. unfold command_of. destruct command as [c|]; cbn [command_words app].
    - destruct c as [|x c]; [done|]. destruct x as [[] [] [] [] [] [] [] []]; done.
    - destruct l as [|[n sp v|w] l]; [by destruct (Hne eq_refl)| |done]. by destruct sp. }
  unfold parse_options. rewrite (Hcmd ["-"%char]) by by destruct command. trans (take_options (getopt_long ((l ≫= spell) ++ rest)) default_options); [by destruct command|].
  rewrite Hg. apply Ht.
Qed.

Lemma options_parsed_witness :
  parse_options [$"primagen"; $"agent"; $"-cA"; $"--mes"; $"-hi"; $"word"; $"--workspace=W"; $"-c"; $"B"; $"--"; $"-h"] = Some (mkOptions $"B" $"W" (Some $"-hi")).
Proof.
  apply (options_parsed $"primagen" (Some $"agent") [ArgOption OptConfig SpellAttached $"A"; ArgOption OptMessage (SpellLong 2) $"-hi"; ArgWord $"word";
    ArgOption OptWorkspace (SpellEquals 8) $"W"; ArgOption OptConfig SpellShort $"B"] [$"--"; $"-h"]); [done|by repeat constructor|by right|done].
Defined.

(** ** The end of the agent is in order *)

#[local] Instance part_eq_dec : EqDecision part.
Proof. solve_decision. Defined.

(** What is alive: the threads of the agent, of the outbound messages and of
    the cron service, whether a tool is at work in the executor, whether the
    agent was told to end and the bus is closed; the arguments of the outbound
    thread (never made, allocated or freed), the channels that were stopped
    and destroyed, and the parts in memory. *)
Record Alive := mkAlive {
  al_agent : bool;
  al_outbound : bool;
  al_cron : bool;
  al_busy : bool;
  al_stopped : bool;
  al_bus_closed : bool;
  al_args : option bool;
  al_quiet : list nat;
  al_closed : list nat;
  al_parts : list part;
}.

Definition at_start : Alive := mkAlive false false false false false false None [] [] [].

Definition set_agent b tool_left (a : Alive) := mkAlive b (al_outbound a) (al_cron a) tool_left (al_stopped a) (al_bus_closed a) (al_args a) (al_quiet a) (al_closed a) (al_parts a).
Definition set_outbound b (a : Alive) := mkAlive (al_agent a) b (al_cron a) (al_busy a) (al_stopped a) (al_bus_closed a) (al_args a) (al_quiet a) (al_closed a) (al_parts a).
Definition set_cron b (a : Alive) := mkAlive (al_agent a) (al_outbound a) b (al_busy a) (al_stopped a) (al_bus_closed a) (al_args a) (al_quiet a) (al_closed a) (al_parts a).
Definition set_stopped s c (a : Alive) := mkAlive (al_agent a) (al_outbound a) (al_cron a) (al_busy a) s c (al_args a) (al_quiet a) (al_closed a) (al_parts a).
Definition set_args x (a : Alive) := mkAlive (al_agent a) (al_outbound a) (al_cron a) (al_busy a) (al_stopped a) (al_bus_closed a) x (al_quiet a) (al_closed a) (al_parts a).
Definition set_channels q c (a : Alive) := mkAlive (al_agent a) (al_outbound a) (al_cron a) (al_busy a) (al_stopped a) (al_bus_closed a) (al_args a) q c (al_parts a).
Definition set_parts l (a : Alive) := mkAlive (al_agent a) (al_outbound a) (al_cron a) (al_busy a) (al_stopped a) (al_bus_closed a) (al_args a) (al_quiet a) (al_closed a) l.

Definition has (p : part) (a : Alive) : bool := bool_decide (p ∈ al_parts a).

(** What a tool may use, by its context, or because it is its code. *)
Definition used_by_tools (p : part) : bool := match p with MemoryPart | Plugins | Subagents | CronPart | Skills => true | _ => false end.

(** The rules of the memory and of the threads: [None] when an event breaks
    one, or never ends. A thread is joined once, and only when it will end: the
    outbound thread when the bus is closed, the agent's when it was told to
    end, or when the system is complete and its user can end it. Nothing is
    used before it was made or after it was freed, and nothing is freed twice
    or while a thread uses it: the cron service while its thread runs, what
    tools use while a tool is at work, anything while the agent or the outbound
    thread runs, and channels while their code, the plugins, is not there. The
    end of the loop waits for the executor. *)
Definition check_event (a : Alive) (e : run_event) : option Alive :=
  let threads := al_agent a || al_outbound a in
  match e with
  | EvMake p => if has p a then None else Some (set_parts (p :: al_parts a) a)
  | EvStartCron => if has CronPart a && negb (al_cron a) then Some (set_cron true a) else None
  | EvStartChannel i => if has Plugins a && negb (bool_decide (i ∈ al_closed a)) then Some a else None
  | EvAgentThread => if has LoopPart a && negb (al_agent a) then Some (set_agent true (al_busy a) a) else None
  | EvAllocArgs => if al_args a is None then Some (set_args (Some true) a) else None
  | EvOutboundThread => match al_args a with Some true => if al_outbound a then None else Some (set_outbound true a) | _ => None end
  | EvInject _ => if al_bus_closed a then None else Some a
  | EvStopLoop seen => if has LoopPart a then Some (set_stopped seen true a) else None
  | EvJoinAgent tool_left => if al_agent a && (al_stopped a || al_outbound a) then Some (set_agent false tool_left a) else None
  | EvCloseBus => Some (set_stopped (al_stopped a) true a)
  | EvJoinOutbound => if al_outbound a && al_bus_closed a then Some (set_outbound false a) else None
  | EvStopChannel i =>
      if negb threads && has Plugins a && negb (bool_decide (i ∈ al_closed a)) then Some (set_channels (i :: al_quiet a) (al_closed a) a) else None
  | EvDestroyChannel i =>
      if negb threads && has Plugins a && negb (bool_decide (i ∈ al_closed a)) then Some (set_channels (al_quiet a) (i :: al_closed a) a) else None
  | EvFreeArgs =>
      match al_args a with
      | None => Some a
      | Some true => if al_outbound a then None else Some (set_args (Some false) a)
      | Some false => None
      end
  | EvStopCron => if al_cron a then Some (set_cron false a) else None
  | EvSubagentsLeft => None
  | EvFree p =>
      if negb threads && has p a && negb (bool_decide (p = CronPart) && al_cron a) && negb (used_by_tools p && al_busy a)
      then Some (set_agent (al_agent a) (al_busy a && negb (bool_decide (p = LoopPart))) (set_parts (filter (.≠ p) (al_parts a)) a))
      else None
  end.

Fixpoint check_events (l : list run_event) (a : Alive) : option Alive :=
  match l with [] => Some a | e :: r => a' ← check_event a e; check_events r a' end.

(** No thread is left, no tool is at work, all that was made is freed, and each
    channel that can be stopped or destroyed was. *)
Definition all_ended (channels : list ChannelOps) (a : Alive) : Prop :=
  (al_agent a = false /\ al_outbound a = false /\ al_cron a = false /\ al_busy a = false) /\
  (al_args a <> Some true /\ al_parts a = []) /\
  (forall i ch, channels !! i = Some ch -> (has_stop ch = true -> i ∈ al_quiet a) /\ (has_destroy ch = true -> i ∈ al_closed a)).

Lemma check_events_app l1 l2 a : check_events (l1 ++ l2) a = (a' ← check_events l1 a; check_events l2 a').
Proof. revert a. induction l1 as [|e l IH]; intros a; [done|]. cbn [app check_events]. destruct (check_event a e); cbn; [apply IH|done]. Qed.

(** The parts [make_services] leaves. *)
Definition services (env : RunEnv) : list part :=
  (if re_skills env then [Skills] else []) ++ (if re_cron env then [CronPart] else []) ++ (if re_subagents env then [Subagents] else []) ++
  (if re_shared env then [SubagentShared] else []) ++ (if re_plugins env then [Plugins] else []) ++ (if re_memory env then [MemoryPart] else []) ++ [ChannelList].

Definition made (env : RunEnv) (tool_ctx loop : bool) : list part :=
  (if loop then [LoopPart] else []) ++ (if tool_ctx then [ToolContextPart] else []) ++ services env.

Lemma check_makes env : check_events (make_services env) at_start =
  Some (mkAlive false false (re_cron env && re_cron_thread env) false false false None [] [] (services env)).
Proof. destruct env as [[] [] [] [] [] [] [] ? ? ? ? ? ? ? ?]; by vm_compute. Qed.

Lemma check_starts channels a : al_closed a = [] -> (channels <> [] -> has Plugins a = true) -> check_events (start_channels channels) a = Some a.
Proof.
  intros Ha Hp. unfold start_channels.
  enough (forall k, check_events (concat (imap (fun i ch => if has_start ch then [EvStartChannel (k + i)] else []) channels)) a = Some a) as H by exact (H 0).
  induction channels as [|ch r IH]; intros k; [done|]. cbn [imap concat]. rewrite check_events_app.
  assert (check_events (if has_start ch then [EvStartChannel (k + 0)] else []) a = Some a) as ->.
  { destruct (has_start ch); [|done]. cbn. rewrite Ha, Hp by done. done. }
  cbn [mbind option_bind]. erewrite imap_ext; [apply (IH (fun _ => Hp ltac:(done)) (S k))|]. intros i x _. cbn. by rewrite Nat.add_succ_r.
Qed.

(** Closing the channels, once the threads have ended. *)
Lemma check_closes channels a : al_agent a = false -> al_outbound a = false -> al_closed a = [] -> (channels <> [] -> has Plugins a = true) ->
  exists q c, check_events (close_channels channels) a = Some (set_channels q c a) /\
    forall i ch, channels !! i = Some ch -> (has_stop ch = true -> i ∈ q) /\ (has_destroy ch = true -> i ∈ c).
Proof.
  intros H1 H2 H3 Hp. unfold close_channels.
  enough (forall k a, al_agent a = false -> al_outbound a = false -> Forall (fun i => i < k) (al_closed a) -> (channels <> [] -> has Plugins a = true) ->
    exists q c, check_events (concat (imap (fun i ch => (if has_stop ch then [EvStopChannel (k + i)] else []) ++ (if has_destroy ch then [EvDestroyChannel (k + i)] else [])) channels)) a =
      Some (set_channels (q ++ al_quiet a) (c ++ al_closed a) a) /\
    forall i ch, channels !! i = Some ch -> (has_stop ch = true -> k + i ∈ q) /\ (has_destroy ch = true -> k + i ∈ c)) as H.
  { destruct (H 0 a H1 H2) as (q & c & Hc & Hin); [by rewrite H3|done|]. eexists _, _. split; [exact Hc|].
    intros i ch Hi. destruct (Hin i ch Hi). rewrite !elem_of_app. tauto. }
  clear a H1 H2 H3 Hp. induction channels as [|ch r IH]; intros k a H1 H2 H3 Hp; [exists [], []; by destruct a|].
  cbn [imap concat]. rewrite check_events_app. rewrite Nat.add_0_r.
  assert (k ∉ al_closed a) as Hk by (intros Hin; rewrite Forall_forall in H3; specialize (H3 _ Hin); lia).
  set (q0 := if has_stop ch then [k] else []). set (c0 := if has_destroy ch then [k] else []).
  assert (check_events ((if has_stop ch then [EvStopChannel k] else []) ++ (if has_destroy ch then [EvDestroyChannel k] else [])) a =
    Some (set_channels (q0 ++ al_quiet a) (c0 ++ al_closed a) a)) as ->.
  { subst q0 c0. specialize (Hp ltac:(done)). unfold has in Hp. destruct a. cbn in H1, H2, Hp, Hk. subst.
    destruct (has_stop ch), (has_destroy ch); cbn; unfold has, set_channels; cbn; rewrite ?Hp, ?bool_decide_eq_false_2 by done; cbn;
      unfold has, set_channels; cbn; rewrite ?Hp, ?bool_decide_eq_false_2 by done; done. }
  cbn [mbind option_bind].
  destruct (IH (S k) (set_channels (q0 ++ al_quiet a) (c0 ++ al_closed a) a) H1 H2) as (q & c & Hc & Hin).
  { cbn. subst c0. destruct (has_destroy ch); cbn; [constructor; [lia|]|]; (eapply Forall_impl; [exact H3|]; cbn; lia). }
  { intros _. by apply Hp. }
  exists (q ++ q0), (c ++ c0). split.
  - rewrite <-!app_assoc. erewrite imap_ext; [exact Hc|]. intros i x _. cbn. by rewrite Nat.add_succ_r.
  - intros [|i] x Hx; cbn in Hx.
    + injection Hx as ->. subst q0 c0. rewrite Nat.add_0_r. split; intros ->; apply elem_of_app; right; by left.
    + destruct (Hin i x Hx) as [Hq Hd]. rewrite Nat.add_succ_r. rewrite !elem_of_app. split; auto.
Qed.

(** The frees, when nothing is at work. *)
Lemma check_frees env tool_ctx loop st bc args q c : re_subagents_end env = true -> args <> Some false ->
  check_events ([EvFree ChannelList] ++ free_services env tool_ctx loop)
    (mkAlive false false (re_cron env && re_cron_thread env) false st bc args q c (made env tool_ctx loop)) =
  Some (mkAlive false false false false st bc (match args with Some _ => Some false | None => None end) q c []).
Proof.
  destruct env as [[] [] [] [] [] [] [] ? ? ? ? ? ? ? e]; cbn [re_subagents_end]; intros -> Hargs;
    destruct tool_ctx, loop, args as [[]|]; try done; reflexivity.
Qed.

Lemma check_cleanup env channels tool_ctx loop st bc args : re_subagents_end env = true -> args <> Some false -> (channels <> [] -> re_plugins env = true) ->
  exists a, check_events (close_channels channels ++ [EvFree ChannelList] ++ free_services env tool_ctx loop)
    (mkAlive false false (re_cron env && re_cron_thread env) false st bc args [] [] (made env tool_ctx loop)) = Some a /\ all_ended channels a.
Proof.
  intros He Hargs Hp. destruct (check_closes channels (mkAlive false false (re_cron env && re_cron_thread env) false st bc args [] [] (made env tool_ctx loop))) as (q & c & Hc & Hin); [done..| |].
  { intros Hne. unfold has. cbn. apply bool_decide_eq_true. unfold made, services. rewrite (Hp Hne). set_solver. }
  rewrite check_events_app, Hc. cbn [mbind option_bind]. unfold set_channels. cbn [al_agent al_outbound al_cron al_busy al_stopped al_bus_closed al_args al_parts].
  rewrite check_frees by done. eexists. split; [done|]. split_and!; try done; cbn. by destruct args.
Qed.

(** The run before the channels are closed. *)
Lemma has_plugins env tool_ctx loop st bc args (channels : list ChannelOps) : (channels <> [] -> re_plugins env = true) ->
  channels <> [] -> has Plugins (mkAlive false false (re_cron env && re_cron_thread env) false st bc args [] [] (made env tool_ctx loop)) = true.
Proof. intros Hp Hne. unfold has. apply bool_decide_eq_true. cbn. unfold made, services. rewrite (Hp Hne). set_solver. Qed.

(** The state before the threads are started. *)
Definition ready (env : RunEnv) (tool_ctx loop : bool) : Alive :=
  mkAlive false false (re_cron env && re_cron_thread env) false false false None [] [] (made env tool_ctx loop).

Lemma check_tool_context env : check_event (ready env false false) (EvMake ToolContextPart) = Some (ready env true false).
Proof. destruct env as [[] [] [] [] [] [] [] ? ? ? ? ? ? ? ?]; by vm_compute. Qed.
Lemma check_loop env : check_event (ready env true false) (EvMake LoopPart) = Some (ready env true true).
Proof. destruct env as [[] [] [] [] [] [] [] ? ? ? ? ? ? ? ?]; by vm_compute. Qed.

(** Up to the threads. *)
Lemma check_started env channels rest : (channels <> [] -> re_plugins env = true) ->
  check_events (make_services env ++ [EvMake ToolContextPart] ++ [EvMake LoopPart] ++ start_channels channels ++ rest) at_start =
    check_events rest (ready env true true).
Proof.
  intros Hp. rewrite check_events_app, check_makes. cbn [mbind option_bind app check_events].
  change (mkAlive false false (re_cron env && re_cron_thread env) false false false None [] [] (services env)) with (ready env false false).
  rewrite check_tool_context. cbn [mbind option_bind]. rewrite check_loop. cbn [mbind option_bind]. rewrite check_events_app, check_starts; [done|done|].
  by apply has_plugins.
Qed.

(** The channels there are: none without a plugin manager, and the built-in one
    only after the tool context was made. *)
Definition channels_of (env : RunEnv) (channels : list ChannelOps) (console : ChannelOps) : list ChannelOps :=
  if re_plugins env then channels ++ (if re_tool_context env then [console] else []) else [].

Lemma channels_plugins env channels console : channels_of env channels console <> [] -> re_plugins env = true.
Proof. unfold channels_of. by destruct (re_plugins env). Qed.

(** What the order needs: when the agent's thread has ended no tool is still at
    work; the subagents end within ten seconds; if the arguments of the outbound
    thread cannot be allocated, the agent's thread had raised its flag before it
    is told to end; and the outbound thread, if it is asked for, can be
    started. *)
Definition in_order (env : RunEnv) : Prop :=
  let agent := re_tool_context env && re_loop env && re_agent_thread env in
  (agent = true -> re_tool_left env = false) /\ re_subagents_end env = true /\
  (agent = true -> re_args env = false -> re_stop_seen env = true) /\
  (agent = true -> re_args env = true -> re_outbound_thread env = true).


(** ** The cases that are not in order *)

Definition all_granted (outbound_thread stop_seen tool_left subagents_end : bool) : RunEnv :=
  mkRunEnv true true true true true true true true true true true outbound_thread stop_seen tool_left subagents_end.
Definition demo_console : ChannelOps := mkOps true true true.

(** The arguments of the outbound thread are freed twice. *)
Lemma outbound_thread_refused : check_events (fst (run_agent_loop (all_granted false true false true) [] demo_console None)) at_start = None.
Proof. by vm_compute. Qed.

(** A tool that is still at work when the agent ends uses the services after
    they were freed: the executor is waited for last. *)
Lemma tool_left_at_work channels : check_events (fst (run_agent_loop (all_granted true true true true) channels demo_console None)) at_start = None.
Proof.
  unfold run_agent_loop, cleanup. cbn [all_granted re_tool_context re_loop re_agent_thread re_args re_outbound_thread re_plugins re_tool_left negb andb Z.eqb when fst app].
  rewrite <-?app_assoc. pose proof (check_started (all_granted true true true true) (channels ++ [demo_console])) as Hs. cbn [app] in *. rewrite Hs by done.
  trans (check_events (close_channels (channels ++ [demo_console]) ++ [EvFree ChannelList] ++ free_services (all_granted true true true true) true true)
    (mkAlive false false true true false true (Some true) [] [] (made (all_granted true true true true) true true))); [done|].
  destruct (check_closes (channels ++ [demo_console]) (mkAlive false false true true false true (Some true) [] [] (made (all_granted true true true true) true true))) as (q & c & Hc & _); [done..|].
  by rewrite check_events_app, Hc.
Qed.

(** A stop that comes before the agent's thread raised its flag is lost, so
    that the join of the thread waits for ever. *)
Lemma lost_stop_hangs : check_events (fst (run_agent_loop (mkRunEnv true true true true true true true true true true false true false false true) [] demo_console None)) at_start = None.
Proof. by vm_compute. Qed.

