(* ===== verification/AgentRefinement.v ===== *)
(** The agent of AgentCore.v and AgentLoop.v refines the abstract machine of
    one phase per conversation: the proof that no answer is lost, awaited
    twice or counted for the wrong conversation. *)
From S2P Require Import Prelude CStr Common Message MessageBus Fs Session Utils Reminder ToolRegistry ToolExecutor ToolContext Orchestrator AgentCore Commands AgentLoop.

Section Refinement.
Context {W : Type} `{AgentEnv W}.
Implicit Types l : AgentLoop W.

(** ** Steps that leave the tasks and the outstanding calls alone *)

Definition sess_le (m m' : SessionManager) : Prop :=
  sm_wf m -> sm_wf m' /\ forall k, is_Some (session_manager_get m k) -> is_Some (session_manager_get m' k).

Record core_le l l' : Prop := {
  cl_tasks : so_active_tasks (al_orch l') = so_active_tasks (al_orch l);
  cl_internal : al_internal l' = al_internal l;
  cl_executor : al_executor l' = al_executor l;
  cl_llm : al_llm_calls l' = al_llm_calls l;
  cl_ctxs : al_tool_ctxs l' = al_tool_ctxs l;
  cl_config : al_config l' = al_config l;
  cl_sess : sess_le (al_sessions l) (al_sessions l');
}.

Lemma sess_le_refl m : sess_le m m.
Proof. done. Qed.

Lemma sess_le_trans a b c : sess_le a b -> sess_le b c -> sess_le a c.
Proof. intros H1 H2 Hw. destruct (H1 Hw) as [Hb Hg]. destruct (H2 Hb) as [Hc Hg']. split; [done|eauto]. Qed.

Lemma core_le_refl l : core_le l l.
Proof. by split. Qed.

Lemma core_le_trans l1 l2 l3 : core_le l1 l2 -> core_le l2 l3 -> core_le l1 l3.
Proof. intros [] []. split; try congruence. by eapply sess_le_trans. Qed.

Lemma sess_le_update mgr id s s' : sm_sessions mgr !! id = Some s -> s_key s' = s_key s ->
  sess_le mgr (update_session mgr id s').
Proof.
  intros Hs Hk Hw. split; [by eapply update_session_wf|]. intros k.
  assert (sm_wf (update_session mgr id s')) as Hw' by (by eapply update_session_wf).
  rewrite !session_manager_get_latest by done. by rewrite (update_session_keys _ _ _ _ Hs Hk).
Qed.

Lemma sess_le_create ok now mgr key : sess_le mgr (fst (session_manager_create ok now mgr key)).
Proof.
  intros Hw. pose proof (session_manager_create_wf ok now mgr key Hw) as Hw'. split; [done|]. intros k.
  rewrite !session_manager_get_latest by done.
  unfold session_manager_create, session_manager_create_unlocked. destruct ok; [|done].
  unfold session_keys at 2. cbn [fst sm_sessions]. rewrite session_keys_create. cbn [latest].
  by destruct (str_eq key k); [eexists|].
Qed.

Lemma create_key ok now mgr key : sm_wf mgr -> ok = true ->
  is_Some (session_manager_get (fst (session_manager_create ok now mgr key)) key).
Proof.
  intros Hw ->. pose proof (session_manager_create_wf true now mgr key Hw) as Hw'.
  rewrite session_manager_get_latest by done. unfold session_keys. cbn [fst sm_sessions session_manager_create session_manager_create_unlocked].
  rewrite session_keys_create. cbn [latest]. unfold str_eq. rewrite bool_decide_true by done. by eexists.
Qed.

Lemma core_le_sessions l m : sess_le (al_sessions l) m -> core_le l (set_sessions l m).
Proof. by split. Qed.

Lemma core_le_send_outbound l c d t : core_le l (send_outbound l c d t).
Proof. by split. Qed.

Lemma core_le_world l w : core_le l (set_world l w).
Proof. by split. Qed.

Lemma core_le_add_message now l sid m : core_le l (loop_add_message now l sid m).
Proof.
  unfold loop_add_message. destruct (sm_sessions (al_sessions l) !! sid) as [s|] eqn:E; [|apply core_le_refl].
  apply core_le_sessions. by eapply sess_le_update.
Qed.

Lemma core_le_save l sid : core_le l (loop_save_session l sid).
Proof.
  unfold loop_save_session, session_manager_save.
  destruct (sm_sessions (al_sessions l) !! sid) as [s|] eqn:E; [|by split].
  destruct (build_session_file_path _ _ _) as [p|]; [|by split].
  pose proof (save_to_key (al_fs l) p s) as Hk. destruct (save_to (al_fs l) p s) as [[fs' s'] err].
  split; try done. by eapply sess_le_update.
Qed.

Lemma core_le_save_unless (b : bool) l0 l sid : core_le l0 l -> core_le l0 (if b then l else loop_save_session l sid).
Proof. intros Hl. destruct b; [done|]. eapply core_le_trans; [exact Hl|apply core_le_save]. Qed.

Lemma core_le_refresh l c d : core_le l (refresh_tool_routes l c d).
Proof. by split. Qed.

Lemma core_le_set_key l k :
  core_le l (set_orch l (session_orchestrator_set_current_session_key (al_orch l) k)).
Proof. by split. Qed.

Lemma core_le_fallback l u c d : core_le l (fst (maybe_schedule_reminder_fallback l u c d)).
Proof.
  unfold maybe_schedule_reminder_fallback. destruct (r_valid _); [|apply core_le_refl].
  destruct (tool_registry_get _ _) as [t|]; [|apply core_le_refl].
  destruct (t_user_data t) as [ud|]; [|apply core_le_refl].
  destruct (t_execute t _ _ _) as [[e r] w']. destruct (is_err e || _); apply core_le_world.
Qed.

Lemma core_le_consolidate now l sid k u : core_le l (maybe_auto_consolidate_memory now l sid k u).
Proof.
  unfold maybe_auto_consolidate_memory. destruct env_has_memory; [|apply core_le_refl].
  destruct (sm_sessions (al_sessions l) !! sid) as [s0|] eqn:E; [|apply core_le_refl].
  set (s := if (_ <? _)%Z then _ else s0). assert (s_key s = s_key s0) as Hk by (unfold s; by case_match).
  clearbody s. cbv zeta.
  assert (core_le l (set_sessions l (update_session (al_sessions l) sid s))) as H1
    by (apply core_le_sessions; by eapply sess_le_update).
  destruct (_ <? _)%Z; [done|]. destruct (memory_append_history _ _ _) as [e1 w1].
  destruct (is_err e1); [by eapply core_le_trans; [exact H1|apply core_le_world]|].
  destruct (memory_consolidate _ _) as [e2 w2].
  destruct (is_err e2); [eapply core_le_trans; [exact H1|]; eapply core_le_trans; [apply (core_le_world _ w1)|apply (core_le_world _ w2)]|].
  eapply core_le_trans; [|apply core_le_save]. eapply core_le_trans; [exact H1|].
  eapply core_le_trans; [apply (core_le_world _ w1)|]. eapply core_le_trans; [apply (core_le_world _ w2)|].
  apply core_le_sessions. apply (sess_le_update _ _ s); [|done]. cbn. apply list_lookup_insert_eq. by eapply lookup_lt_Some.
Qed.

Lemma core_le_rollback now l sid s n : sm_sessions (al_sessions l) !! sid = Some s ->
  core_le l (set_sessions l (update_session (al_sessions l) sid (session_rollback_messages now s n))).
Proof. intros E. apply core_le_sessions. eapply sess_le_update; [exact E|apply rollback_key]. Qed.

(** Removing a task: the rollback changes only sessions. *)
Lemma remove_active_task_core now l id : exists l1, core_le l l1 /\
  remove_active_task now l id = set_orch l1 (session_orchestrator_remove_task (al_orch l1) id).
Proof.
  unfold remove_active_task. destruct (List.find _ _) as [t|]; [|by exists l].
  destruct (cx_no_session_record (at_ctx t) && _); [|by exists l].
  destruct (session_manager_get _ _) as [sid|]; [|by exists l].
  destruct (sm_sessions (al_sessions l) !! sid) as [s|] eqn:E; [|by exists l].
  eexists. split; [by eapply core_le_rollback|done].
Qed.

(** ** Counting *)

Lemma occ_app k L1 L2 : occ k (L1 ++ L2) = occ k L1 + occ k L2.
Proof. unfold occ. by rewrite List.filter_app, length_app. Qed.

Lemma occ_cons k x L : occ k (x :: L) = (if decide (x = k) then 1 else 0) + occ k L.
Proof. unfold occ. cbn. unfold str_eq. case_bool_decide; case_decide; done. Qed.

Lemma occ_perm k L1 L2 : L1 ≡ₚ L2 -> occ k L1 = occ k L2.
Proof.
  induction 1; [done| | |congruence]; rewrite !occ_cons; lia.
Qed.

Lemma occs_perm L L' T T' σ : L ≡ₚ L' -> T ≡ₚ T' -> occs L T σ -> occs L' T' σ.
Proof. intros HL HT Ho k. destruct (Ho k) as [H1 H2]. by rewrite <-(occ_perm k _ _ HL), <-(occ_perm k _ _ HT). Qed.

Lemma occs_lookup_llm L T σ k : occs (k :: L) T σ -> exists t, σ !! k = Some (AwaitModel t).
Proof.
  intros Ho. destruct (Ho k) as [H1 _]. rewrite occ_cons in H1. rewrite decide_True in H1 by done.
  destruct (σ !! k) as [[t|]|]; cbn in H1; [eauto|lia|lia].
Qed.

Lemma occs_lookup_tool L T σ k : occs L (k :: T) σ -> exists t n, σ !! k = Some (AwaitTools t (S n)).
Proof.
  intros Ho. destruct (Ho k) as [_ H1]. rewrite occ_cons in H1. rewrite decide_True in H1 by done.
  destruct (σ !! k) as [[t|t [|n]]|]; cbn in H1; [lia|lia|eauto|lia].
Qed.

Lemma occ_nil k : occ k [] = 0.
Proof. done. Qed.

(** Solves a goal on counts after an update of the phases at one key. *)
Ltac occs_at k :=
  let k' := fresh "k" in intros k';
  match goal with Ho : occs _ _ _ |- _ =>
    pose proof (Ho k') as [? ?]; pose proof (Ho k) as [? ?]; clear Ho end;
  rewrite ?occ_app, ?occ_cons, ?occ_nil in *;
  destruct (decide (k = k')) as [<-|?];
  [rewrite ?lookup_delete_eq, ?lookup_insert_eq|rewrite ?lookup_delete_ne, ?lookup_insert_ne by done];
  repeat match goal with E : ?x !! ?y = _, H : context [?x !! ?y] |- _ => rewrite E in H end;
  cbn [llm_of tool_of] in *; repeat case_decide; try congruence; lia.

Lemma occs_start L T σ k : σ !! k = None -> occs L T σ -> occs (L ++ [k]) T (<[k := AwaitModel 1]> σ).
Proof. intros E Ho. occs_at k. Qed.

Lemma occs_answer L T σ k t : σ !! k = Some (AwaitModel t) -> occs (k :: L) T σ -> occs L T (delete k σ).
Proof. intros E Ho. occs_at k. Qed.

Lemma occ_replicate k k' n : occ k' (replicate n k) = if decide (k = k') then n else 0.
Proof. induction n as [|n IH]; cbn [replicate]; [by destruct (decide _)|]. rewrite occ_cons, IH. by case_decide. Qed.

Lemma occs_call_tools L T σ k t n : σ !! k = Some (AwaitModel t) -> occs (k :: L) T σ ->
  occs L (T ++ replicate n k) (<[k := AwaitTools t n]> σ).
Proof.
  intros E Ho k'. pose proof (Ho k') as [H1 H2]. pose proof (Ho k) as [H3 H4].
  rewrite occ_app, occ_replicate. rewrite occ_cons in H1, H3. rewrite E in H3, H4. cbn in H3, H4.
  rewrite decide_True in H3 by done. destruct (decide (k = k')) as [<-|].
  - rewrite lookup_insert_eq. cbn. lia.
  - rewrite lookup_insert_ne by done. lia.
Qed.

Lemma occs_tool_result L T σ k t n : σ !! k = Some (AwaitTools t (S n)) -> occs L (k :: T) σ ->
  occs L T (<[k := AwaitTools t n]> σ).
Proof. intros E Ho. occs_at k. Qed.

Lemma occs_next_turn L T σ k t t' : σ !! k = Some (AwaitTools t 1) -> occs L (k :: T) σ ->
  occs (L ++ [k]) T (<[k := AwaitModel t']> σ).
Proof. intros E Ho. occs_at k. Qed.

Lemma occs_give_up L T σ k t : σ !! k = Some (AwaitTools t 1) -> occs L (k :: T) σ -> occs L T (delete k σ).
Proof. intros E Ho. occs_at k. Qed.

(** ** The task list *)

Lemma remove_first_split id (ts : list ActiveTask) t : NoDup (at_id <$> ts) -> t ∈ ts -> at_id t = id ->
  exists l1 l2 : list ActiveTask, ts = l1 ++ t :: l2 /\ remove_first (has_id id) ts = l1 ++ l2.
Proof.
  intros Hnd Ht <-. induction ts as [|x ts IH]; [by apply elem_of_nil in Ht|].
  cbn [fmap list_fmap] in Hnd. apply NoDup_cons in Hnd as [Hx Hnd]. cbn [remove_first].
  destruct (has_id (at_id t) x) eqn:E.
  - apply has_id_true in E. apply elem_of_cons in Ht as [-> |Ht]; [by exists [], ts|].
    exfalso. apply Hx. rewrite E. by apply list_elem_of_fmap_2.
  - apply elem_of_cons in Ht as [-> |Ht].
    + unfold has_id, str_eq in E. by rewrite bool_decide_true in E by done.
    + destruct (IH Hnd Ht) as (l1 & l2 & -> & ->). by exists (x :: l1), l2.
Qed.

Lemma find_app k (l1 l2 : list ActiveTask) :
  List.find (has_key k) (l1 ++ l2) =
  match List.find (has_key k) l1 with Some t => Some t | None => List.find (has_key k) l2 end.
Proof. induction l1 as [|x l1 IH]; [done|]. cbn. by destruct (has_key k x). Qed.

Lemma update_first_app k f (ts : list ActiveTask) t : List.find (has_key k) ts = None -> at_session_key t = k ->
  update_first (has_key k) f (ts ++ [t]) = ts ++ [f t].
Proof.
  intros Hn Hk. induction ts as [|x ts IH]; cbn in *.
  - by rewrite (proj2 (has_key_true k t) Hk).
  - destruct (has_key k x); [done|]. by rewrite IH.
Qed.

Lemma update_first_forall (P : ActiveTask -> Prop) q f ts :
  (forall t, P t -> P (f t)) -> Forall P ts -> Forall P (update_first q f ts).
Proof. intros Hf. induction 1 as [|t ts Ht Hts IH]; cbn; [constructor|]. case_match; constructor; auto. Qed.

Lemma has_key_self k t : at_session_key t = k -> has_key k t = true.
Proof. apply has_key_true. Qed.
Lemma has_key_other k t : at_session_key t <> k -> has_key k t = false.
Proof. intros Hk. unfold has_key, str_eq. by rewrite bool_decide_false. Qed.

(** ** The relation under each kind of change *)

Lemma base_core_le l l' σ : core_le l l' -> base l σ -> base l' σ.
Proof.
  intros [Ht Hi He Hl Hc Hcfg Hs] [].
  destruct (Hs b_table) as [Hw Hg]. unfold max_turns in *.
  split; unfold max_turns; rewrite ?Ht, ?Hi, ?He, ?Hc, ?Hcfg; eauto.
Qed.

Lemma out_core_le l l' : core_le l l' -> out_llm l' = out_llm l /\ out_tool l' = out_tool l.
Proof. intros [Ht Hi He Hl Hc _ _]. unfold out_llm, out_tool. by rewrite Hi, He, Hl, Hc. Qed.

(** Replacing the tasks of one conversation. *)
Lemma base_tasks l σ σ' o : base l σ ->
  NoDup (at_id <$> so_active_tasks o) -> NoDup (at_session_key <$> so_active_tasks o) ->
  Forall (fun t => length (at_id t) < 32 /\ length (at_session_key t) < 256) (so_active_tasks o) ->
  tasks_show (so_active_tasks o) σ' ->
  (forall k t n, σ' !! k = Some (AwaitModel t) \/ σ' !! k = Some (AwaitTools t n) -> (1 <= t <= max_turns l)%Z) ->
  (forall k t, σ' !! k <> Some (AwaitTools t 0)) ->
  (forall k, is_Some (σ' !! k) -> is_Some (session_manager_get (al_sessions l) k)) ->
  base (set_orch l o) σ'.
Proof. intros [] ???? Hturns Hpos Hs. by split. Qed.

Lemma find_show l σ k t : base l σ -> List.find (has_key k) (so_active_tasks (al_orch l)) = Some t ->
  exists ph, σ !! k = Some ph /\ shows t ph.
Proof.
  intros Hb Hf. pose proof (b_show _ _ Hb k) as Hk. destruct (σ !! k) as [ph|].
  - destruct Hk as (t' & Ht' & Hs). simplify_eq. eauto.
  - congruence.
Qed.

Lemma show_find l σ k ph : base l σ -> σ !! k = Some ph ->
  exists t, List.find (has_key k) (so_active_tasks (al_orch l)) = Some t /\ shows t ph /\
  length (at_id t) < 32 /\ length k < 256.
Proof.
  intros Hb Hk. pose proof (b_show _ _ Hb k) as Hs. rewrite Hk in Hs. destruct Hs as (t & Ht & Hs).
  exists t. split_and!; [done..| |]; pose proof (find_key_Some _ _ _ Ht) as [Hin Hkey];
    pose proof (b_short _ _ Hb) as Hsh; rewrite Forall_forall in Hsh; apply Hsh in Hin; [|subst]; by apply Hin.
Qed.

Lemma base_remove l σ k t : base l σ -> List.find (has_key k) (so_active_tasks (al_orch l)) = Some t ->
  base (set_orch l (session_orchestrator_remove_task (al_orch l) (at_id t))) (delete k σ).
Proof.
  intros Hb Hf. destruct (find_key_Some _ _ _ Hf) as [Hin Hk].
  destruct (remove_first_split (at_id t) _ _ (b_ids _ _ Hb) Hin eq_refl) as (l1 & l2 & Hts & Hrm).
  pose proof (b_ids _ _ Hb) as Hids. pose proof (b_keys _ _ Hb) as Hkeys. pose proof (b_short _ _ Hb) as Hsh.
  pose proof (b_show _ _ Hb) as Hshow. rewrite Hts in Hids, Hkeys, Hsh, Hshow.
  rewrite fmap_app, fmap_cons in Hids, Hkeys.
  apply (base_tasks l σ); [done|..]; cbn [session_orchestrator_remove_task with_tasks so_active_tasks]; rewrite ?Hrm, ?fmap_app.
  - apply (NoDup_app (at_id <$> l1)) in Hids as (? & Hd & Hnd). apply NoDup_cons in Hnd as [? ?].
    apply NoDup_app. split_and!; [done| |done]. intros x Hx1 Hx2. apply (Hd x Hx1). by right.
  - apply (NoDup_app (at_session_key <$> l1)) in Hkeys as (? & Hd & Hnd). apply NoDup_cons in Hnd as [? ?].
    apply NoDup_app. split_and!; [done| |done]. intros x Hx1 Hx2. apply (Hd x Hx1). by right.
  - apply Forall_app in Hsh as [? Hsh]. inversion Hsh. by apply Forall_app.
  - intros k'. specialize (Hshow k'). destruct (decide (k = k')) as [<-|Hne].
    + rewrite lookup_delete_eq. apply find_key_None. rewrite fmap_app. rewrite <-Hk.
      intros [Hx|Hx]%elem_of_app; apply (NoDup_app (at_session_key <$> l1)) in Hkeys as (_ & Hd & Hnd).
      * apply (Hd _ Hx). by left.
      * apply NoDup_cons in Hnd as [Hn _]. done.
    + rewrite lookup_delete_ne by done. rewrite find_app in Hshow |- *. cbn [List.find] in Hshow.
      rewrite (has_key_other k' t) in Hshow by congruence. exact Hshow.
  - intros k' t' n. destruct (decide (k = k')) as [<-|]; [rewrite lookup_delete_eq; by intros [?|?]|].
    rewrite lookup_delete_ne by done. apply (b_turns _ _ Hb).
  - intros k' t'. destruct (decide (k = k')) as [<-|]; [by rewrite lookup_delete_eq|].
    rewrite lookup_delete_ne by done. apply (b_pos _ _ Hb).
  - intros k' [ph Hph]. apply lookup_delete_Some in Hph as [_ Hph]. apply (b_sessions _ _ Hb). by exists ph.
Qed.

Lemma base_insert_facts l σ k ph : base l σ ->
  (match ph with AwaitModel t => (1 <= t <= max_turns l)%Z | AwaitTools t n => (1 <= t <= max_turns l)%Z /\ 0 < n end) ->
  (forall k' t n, (<[k := ph]> σ : gmap cstr phase) !! k' = Some (AwaitModel t) \/ (<[k := ph]> σ : gmap cstr phase) !! k' = Some (AwaitTools t n) -> (1 <= t <= max_turns l)%Z) /\
  (forall k' t, (<[k := ph]> σ : gmap cstr phase) !! k' <> Some (AwaitTools t 0)).
Proof.
  intros Hb Hph. split.
  - intros k' t n. destruct (decide (k = k')) as [<-|].
    + rewrite lookup_insert_eq. intros [[= ->]|[= ->]]; [done|by destruct Hph].
    + rewrite lookup_insert_ne by done. apply (b_turns _ _ Hb).
  - intros k' t. destruct (decide (k = k')) as [<-|].
    + rewrite lookup_insert_eq. intros [= ->]. lia.
    + rewrite lookup_insert_ne by done. apply (b_pos _ _ Hb).
Qed.

Lemma base_update l σ k t f ph : base l σ -> List.find (has_key k) (so_active_tasks (al_orch l)) = Some t ->
  (forall x, at_id (f x) = at_id x /\ at_session_key (f x) = at_session_key x) -> shows (f t) ph ->
  (match ph with AwaitModel t => (1 <= t <= max_turns l)%Z | AwaitTools t n => (1 <= t <= max_turns l)%Z /\ 0 < n end) ->
  base (set_orch l (with_tasks (al_orch l) (update_first (has_key k) f (so_active_tasks (al_orch l))))) (<[k := ph]> σ).
Proof.
  intros Hb Hf Hpres Hsh Hph. destruct (base_insert_facts l σ k ph Hb Hph) as [Ht Hp].
  apply (base_tasks l σ); [done|..]; cbn [with_tasks so_active_tasks].
  - rewrite update_first_ids by (intros x; apply Hpres). apply (b_ids _ _ Hb).
  - rewrite update_first_keys by (intros x; apply Hpres). apply (b_keys _ _ Hb).
  - apply update_first_forall; [|apply (b_short _ _ Hb)]. intros x. by destruct (Hpres x) as [-> ->].
  - intros k'. pose proof (b_show _ _ Hb k') as Hk'. destruct (decide (k = k')) as [<-|].
    + rewrite lookup_insert_eq. exists (f t). rewrite find_update_same, Hf by (intros x; apply Hpres). done.
    + rewrite lookup_insert_ne by done. rewrite find_update_other by (done || (intros x; apply Hpres)). done.
  - exact Ht.
  - exact Hp.
  - intros k' Hk'. apply (b_sessions _ _ Hb). destruct (decide (k = k')) as [<-|]; [|by rewrite lookup_insert_ne in Hk' by done].
    destruct (find_show _ _ _ _ Hb Hf) as (ph' & -> & _). by eexists.
Qed.

Lemma base_add l σ k t ph o : base l σ -> σ !! k = None -> so_active_tasks o = so_active_tasks (al_orch l) ++ [t] ->
  at_session_key t = k -> at_id t ∉ (at_id <$> so_active_tasks (al_orch l)) -> length (at_id t) < 32 -> length k < 256 ->
  shows t ph -> is_Some (session_manager_get (al_sessions l) k) ->
  (match ph with AwaitModel t => (1 <= t <= max_turns l)%Z | AwaitTools t n => (1 <= t <= max_turns l)%Z /\ 0 < n end) ->
  base (set_orch l o) (<[k := ph]> σ).
Proof.
  intros Hb Hn Ho Hk Hid Hlen Hlenk Hsh Hs Hph. destruct (base_insert_facts l σ k ph Hb Hph) as [Ht Hp].
  pose proof (b_show _ _ Hb k) as Hnone. rewrite Hn in Hnone.
  apply (base_tasks l σ); [done|..]; rewrite ?Ho, ?fmap_app.
  - apply NoDup_app. split_and!; [apply (b_ids _ _ Hb)| |apply NoDup_singleton].
    intros x Hx ->%list_elem_of_singleton. done.
  - apply NoDup_app. split_and!; [apply (b_keys _ _ Hb)| |apply NoDup_singleton].
    intros x Hx ->%list_elem_of_singleton. rewrite Hk in Hx. by apply find_key_None in Hnone.
  - apply Forall_app. split; [apply (b_short _ _ Hb)|]. constructor; [|constructor]. by rewrite Hk.
  - intros k'. rewrite find_app. pose proof (b_show _ _ Hb k') as Hk'. destruct (decide (k = k')) as [<-|Hne].
    + rewrite lookup_insert_eq, Hnone. cbn [List.find]. rewrite has_key_self by done. eauto.
    + rewrite lookup_insert_ne by done. cbn [List.find]. rewrite has_key_other by congruence.
      destruct (σ !! k'); [destruct Hk' as (t' & -> & ?); eauto|by rewrite Hk'].
  - exact Ht.
  - exact Hp.
  - intros k' Hk'. destruct (decide (k = k')) as [<-|]; [done|]. rewrite lookup_insert_ne in Hk' by done.
    by apply (b_sessions _ _ Hb).
Qed.

Lemma remove_first_update k t f (ts : list ActiveTask) : NoDup (at_id <$> ts) ->
  List.find (has_key k) ts = Some t -> (forall x, at_id (f x) = at_id x) ->
  remove_first (has_id (at_id t)) (update_first (has_key k) f ts) = remove_first (has_id (at_id t)) ts.
Proof.
  intros Hnd Hf Hid. induction ts as [|x ts IH]; [done|].
  rewrite fmap_cons in Hnd. apply NoDup_cons in Hnd as [Hx Hnd].
  cbn [List.find update_first] in *. destruct (has_key k x).
  - injection Hf as ->. cbn [remove_first]. unfold has_id. rewrite Hid.
    unfold str_eq. by rewrite bool_decide_true by done.
  - cbn [remove_first]. destruct (has_id (at_id t) x) eqn:E.
    + exfalso. apply has_id_true in E. apply Hx. rewrite E. apply list_elem_of_fmap_2.
      by apply find_key_Some in Hf as [? _].
    + by rewrite IH.
Qed.

(** ** Outstanding calls under the primitive changes *)

Lemma snapshot_find l k t : List.find (has_key k) (so_active_tasks (al_orch l)) = Some t -> length (at_id t) < 32 ->
  let snap := session_orchestrator_snapshot_task (al_orch l) k in
  ts_valid snap = true /\ ts_cancelled snap = false /\ ts_task_id snap = at_id t /\
  ts_turn snap = cx_turn (at_ctx t) /\ ts_state snap = cx_state (at_ctx t).
Proof.
  intros Hf Hl. unfold session_orchestrator_snapshot_task. rewrite Hf. cbn.
  split_and!; try done. by apply truncate_to_id.
Qed.

Lemma snapshot_none l k : List.find (has_key k) (so_active_tasks (al_orch l)) = None ->
  session_orchestrator_snapshot_task (al_orch l) k = no_task.
Proof. intros Hf. unfold session_orchestrator_snapshot_task. by rewrite Hf. Qed.

(** The step stays within the relation, by one step of the specification or by
    none, and keeps the configuration. *)
Definition refines l (σ : gmap cstr phase) l' : Prop :=
  exists σ', (conv_step (max_turns l) σ σ' \/ σ' = σ) /\ sim l' σ' /\ al_config l' = al_config l.

Lemma base_send_internal l ev σ : base l σ -> base (send_internal l ev) σ.
Proof.
  intros Hb. pose proof (b_open _ _ Hb) as Ho. unfold send_internal, Fifo.send. rewrite Ho.
  by destruct Hb; split.
Qed.

Lemma pending_send_internal l ev : Fifo.is_closed (al_internal l) = false ->
  Fifo.pending (al_internal (send_internal l ev)) = Fifo.pending (al_internal l) ++ [ev].
Proof. intros Ho. unfold send_internal, Fifo.send. by rewrite Ho. Qed.

Lemma trigger_spec l k σ : base l σ -> length k < 512 ->
  base (trigger_llm_async l k) σ /\ out_llm (trigger_llm_async l k) ≡ₚ out_llm l ++ [k] /\
  out_tool (trigger_llm_async l k) = out_tool l /\ al_config (trigger_llm_async l k) = al_config l.
Proof.
  intros Hb Hk. unfold trigger_llm_async. rewrite truncate_to_id by exact Hk. destruct (al_has_provider l).
  - split_and!; [by destruct Hb; split| |done|done].
    unfold out_llm. cbn [set_llm_calls al_llm_calls al_internal]. rewrite <-!app_assoc. f_equiv. apply Permutation_app_comm.
  - unfold handle_llm_callback. split_and!; [by apply base_send_internal| | |done].
    + unfold out_llm. rewrite pending_send_internal by apply (b_open _ _ Hb). cbn [send_internal set_internal_q al_llm_calls].
      by rewrite omap_app, app_assoc.
    + unfold out_tool. rewrite pending_send_internal by apply (b_open _ _ Hb). cbn [send_internal set_internal_q al_executor al_tool_ctxs].
      rewrite omap_app. cbn [omap list_omap ev_tool_key]. by rewrite app_nil_r.
Qed.

Lemma end_task now l l2 k σ t : base l σ -> List.find (has_key k) (so_active_tasks (al_orch l)) = Some t ->
  core_le l l2 ->
  let l' := remove_active_task now l2 (at_id t) in
  base l' (delete k σ) /\ out_llm l' = out_llm l /\ out_tool l' = out_tool l /\ al_config l' = al_config l.
Proof.
  intros Hb Hf Hle. destruct (remove_active_task_core now l2 (at_id t)) as (l3 & Hle3 & Hrm). cbv zeta.
  rewrite Hrm. assert (core_le l l3) as Hle' by (by eapply core_le_trans).
  destruct (out_core_le _ _ Hle') as [H1 H2]. split_and!; [|exact H1|exact H2|exact (cl_config _ _ Hle')].
  apply base_remove; [by eapply base_core_le|]. by rewrite (cl_tasks _ _ Hle').
Qed.

(** ** Submitting the calls of an answer *)

Lemma requests_enqueue (ex : @ToolExecutor ToolContext) r :
  ex_tail ex = negb (bool_decide (length (ex_queue ex) = 0)) ->
  requests (enqueue ex r) ≡ₚ requests ex ++ [r] /\
  ex_tail (enqueue ex r) = negb (bool_decide (length (ex_queue (enqueue ex r)) = 0)).
Proof.
  intros Ht. unfold requests, enqueue. cbn [ex_queue ex_workers ex_tail]. destruct (ex_tail ex).
  - split; [rewrite <-!app_assoc; f_equiv; apply Permutation_app_comm|]. by destruct (ex_queue ex).
  - symmetry in Ht. apply negb_false_iff, bool_decide_eq_true, nil_length_inv in Ht. rewrite Ht.
    split; [cbn [app]; apply Permutation_cons_append|done].
Qed.

Lemma omap_perm {A B} (f : A -> option B) (xs ys : list A) : xs ≡ₚ ys -> omap f xs ≡ₚ omap f ys.
Proof.
  induction 1 as [|x xs ys _ IH|x y xs|xs ys zs _ IH1 _ IH2];
    [done| | |by etransitivity].
  - cbn. destruct (f x); [by apply perm_skip|exact IH].
  - cbn. destruct (f x), (f y); try done. apply perm_swap.
Qed.

Lemma omap_request_key_ext ctxs ctx (rs : list (Request ToolContext)) :
  Forall (fun r => rq_context r < length ctxs) rs ->
  omap (request_key (ctxs ++ [ctx])) rs = omap (request_key ctxs) rs.
Proof.
  induction 1 as [|r rs Hr Hrs IH]; [done|]. cbn. rewrite IH. unfold request_key at 1 3.
  by rewrite lookup_app_l by done.
Qed.

Lemma submit_call_spec snap k σ l tc : base l σ -> length k < 512 ->
  base (submit_call snap k l tc) σ /\ out_llm (submit_call snap k l tc) = out_llm l /\
  out_tool (submit_call snap k l tc) ≡ₚ out_tool l ++ [k] /\ al_config (submit_call snap k l tc) = al_config l.
Proof.
  intros Hb Hk. unfold submit_call, tool_executor_submit_async_with_user_data, tool_executor_submit_with_user_data.
  cbn [Z.eqb]. rewrite (truncate_to_id SESSION_KEY_MAX k) by exact Hk.
  set (r := mkRequest _ _ _ _ _). set (ctx := mkToolAsync _ _ _).
  destruct (requests_enqueue (al_executor l) r (b_tail _ _ Hb)) as [Hreq Htail].
  pose proof (b_ctxs _ _ Hb) as Hctx.
  split_and!; [|done| |done].
  - destruct Hb. split; try done. cbn [al_executor al_tool_ctxs set_tool_ctxs set_executor].
    rewrite Hreq. apply Forall_app. rewrite length_app. split.
    + eapply Forall_impl; [exact Hctx|]. cbn. intros. lia.
    + constructor; [cbn; lia|constructor].
  - unfold out_tool. cbn [al_executor al_tool_ctxs set_tool_ctxs set_executor al_internal].
    rewrite (omap_perm _ _ _ Hreq), omap_app, omap_request_key_ext by done.
    cbn [omap list_omap]. unfold request_key at 2. rewrite lookup_app_r by (cbn; lia).
    cbn [rq_context r]. rewrite Nat.sub_diag. cbn. rewrite <-!app_assoc. f_equiv. apply Permutation_app_comm.
Qed.

Lemma submit_calls_spec snap k σ tcs l : base l σ -> length k < 512 ->
  let l' := fold_left (submit_call snap k) tcs l in
  base l' σ /\ out_llm l' = out_llm l /\ out_tool l' ≡ₚ out_tool l ++ replicate (length tcs) k /\
  al_config l' = al_config l.
Proof.
  cbv zeta. revert l. induction tcs as [|tc tcs IH]; intros l Hb Hk; cbn [fold_left length replicate].
  - rewrite app_nil_r. done.
  - destruct (submit_call_spec snap k σ l tc Hb Hk) as (Hb1 & Hl1 & Ht1 & Hc1).
    destruct (IH _ Hb1 Hk) as (Hb2 & Hl2 & Ht2 & Hc2). split_and!; [done|congruence| |congruence].
    rewrite Ht2, Ht1. by rewrite <-app_assoc.
Qed.

(** ** The handlers *)

Lemma text_response_core now l resp sid snap clean : exists l2, core_le l l2 /\
  handle_llm_text_response now l resp sid snap clean = remove_active_task now l2 (ts_task_id snap).
Proof.
  unfold handle_llm_text_response.
  set (p := if reminder_should_fallback_schedule _ _ then _ else _).
  assert (core_le l (fst p)) as Hp by (unfold p; case_match; [apply core_le_fallback|apply core_le_refl]).
  destruct p as [l1 sched]. cbn [fst] in Hp. eexists. split; [|done].
  eapply core_le_trans; [|apply core_le_send_outbound].
  destruct (match sched with Some c => c | None => _ end); [done|].
  apply core_le_save_unless. eapply core_le_trans; [exact Hp|apply core_le_add_message].
Qed.

Lemma tool_calls_before_core now l k resp tcs sid snap clean : exists l3, core_le l l3 /\
  handle_llm_tool_calls now l k resp tcs sid snap clean =
    (let calls := rewrite_call (al_tools l) <$> tcs in
     let l4 := set_orch l3 (session_orchestrator_update_task_state (al_orch l3) k SESSION_STATE_WAITING_TOOL) in
     let l5 := set_orch l4 (session_orchestrator_update_task_pending_tools (al_orch l4) k (Z.of_nat (length calls))) in
     fold_left (submit_call snap k) calls (refresh_tool_routes l5 (ts_channel snap) (ts_chat_id snap))).
Proof.
  unfold handle_llm_tool_calls. eexists. split; [|reflexivity].
  apply core_le_save_unless. eapply core_le_trans; [|apply core_le_add_message].
  destruct clean as [[|c t]|]; [apply core_le_refl|apply core_le_send_outbound|apply core_le_refl].
Qed.

Lemma update_twice k f g (ts : list ActiveTask) : (forall x, at_session_key (f x) = at_session_key x) ->
  update_first (has_key k) g (update_first (has_key k) f ts) = update_first (has_key k) (fun x => g (f x)) ts.
Proof.
  intros Hf. induction ts as [|t ts IH]; [done|]. cbn. destruct (has_key k t) eqn:E; cbn.
  - unfold has_key in *. by rewrite Hf, E.
  - by rewrite E, IH.
Qed.

Lemma llm_event_refines now l σ k err resp tcs :
  base l σ -> occs (k :: out_llm l) (out_tool l) σ ->
  refines l σ (handle_event_llm_result now l k err resp tcs).
Proof.
  intros Hb Ho. destruct (occs_lookup_llm _ _ _ _ Ho) as [n Hn].
  destruct (show_find _ _ _ _ Hb Hn) as (t & Hf & Hsh & Hid & Hk).
  destruct (snapshot_find _ _ _ Hf Hid) as (Hv & Hc & Htid & Hturn & _).
  assert (forall l2, core_le l l2 -> refines l σ (remove_active_task now l2 (at_id t))) as Hend.
  { intros l2 Hle. destruct (end_task now l l2 k σ t Hb Hf Hle) as (Hb' & Hl' & Ht' & Hcfg).
    exists (delete k σ). split; [left; by eapply conv_answer|]. split; [|done]. split; [done|].
    rewrite Hl', Ht'. by eapply occs_answer. }
  unfold handle_event_llm_result. rewrite Hv, Hc, Htid. cbn [negb].
  destruct (session_manager_get (al_sessions l) k) as [sid|] eqn:Es; [|apply Hend, core_le_refl].
  destruct (is_err err).
  { apply Hend. eapply core_le_trans; [|apply core_le_send_outbound].
    apply core_le_save_unless. apply core_le_add_message. }
  destruct tcs as [|tc tcs].
  { destruct (text_response_core now l resp sid (session_orchestrator_snapshot_task (al_orch l) k) (strip_think_tags resp))
      as (l2 & Hle & ->). rewrite Htid. by apply Hend. }
  destruct (tool_calls_before_core now l k resp (tc :: tcs) sid (session_orchestrator_snapshot_task (al_orch l) k)
    (strip_think_tags resp)) as (l3 & Hle & ->). cbv zeta.
  set (snap := session_orchestrator_snapshot_task (al_orch l) k).
  set (calls := rewrite_call (al_tools l) <$> tc :: tcs).
  assert (Hlen : length calls = S (length tcs)) by (unfold calls; by rewrite length_fmap).
  set (l5 := set_orch _ _).
  assert (Hb3 : base l3 σ) by (by eapply base_core_le).
  assert (Hb5 : base l5 (<[k := AwaitTools n (length calls)]> σ)).
  { assert (l5 = set_orch l3 (with_tasks (al_orch l3) (update_first (has_key k)
      (fun x => set_pending (Z.of_nat (length calls)) (set_state SESSION_STATE_WAITING_TOOL x))
      (so_active_tasks (al_orch l3))))) as ->.
    { unfold l5, set_orch, session_orchestrator_update_task_pending_tools, session_orchestrator_update_task_state, with_tasks.
      cbn. by rewrite update_twice. }
    apply (base_update l3 σ k t (fun x => set_pending (Z.of_nat (length calls)) (set_state SESSION_STATE_WAITING_TOOL x)));
      [done|by rewrite (cl_tasks _ _ Hle)|done| |].
    - destruct Hsh as [_ Hsh]. done.
    - rewrite Hlen. split; [|lia]. apply (b_turns _ _ Hb3 k n 0). left. done. }
  destruct (submit_calls_spec snap k (<[k := AwaitTools n (length calls)]> σ) calls
    (refresh_tool_routes l5 (ts_channel snap) (ts_chat_id snap))) as (Hb6 & Hl6 & Ht6 & Hc6);
    [eapply base_core_le; [apply core_le_refresh|done]|lia|].
  exists (<[k := AwaitTools n (length calls)]> σ).
  destruct (out_core_le _ _ Hle) as [Ho1 Ho2].
  split; [left; rewrite Hlen; by apply conv_call_tools|]. split; [|rewrite Hc6; by apply (cl_config _ _ Hle)].
  change (out_tool (refresh_tool_routes l5 (ts_channel snap) (ts_chat_id snap))) with (out_tool l3) in Ht6.
  rewrite Ho2 in Ht6.
  split; [done|]. eapply occs_perm; [|symmetry; exact Ht6|apply occs_call_tools; [exact Hn|exact Ho]].
  - rewrite Hl6. change (out_llm l ≡ₚ out_llm l3). by rewrite Ho1.
Qed.

Lemma tool_event_refines now l σ k id name result err :
  base l σ -> occs (out_llm l) (k :: out_tool l) σ ->
  refines l σ (handle_event_tool_result now l k id name result err).
Proof.
  intros Hb Ho. destruct (occs_lookup_tool _ _ _ _ Ho) as (n & p & Hn).
  destruct (show_find _ _ _ _ Hb Hn) as (t & Hf & Hsh & Hid & Hk).
  destruct (snapshot_find _ _ _ Hf Hid) as (Hv & Hc & Htid & Hturn & _).
  destruct (b_sessions _ _ Hb k) as [sid Hs]; [by eexists|].
  unfold handle_event_tool_result. rewrite Hv, Hc, Htid, Hs. cbn [negb].
  set (snap := session_orchestrator_snapshot_task (al_orch l) k) in *.
  set (msg := {| m_role := ROLE_TOOL; m_content := _ |}).
  set (l2 := if ts_no_session_record snap then _ else _).
  assert (core_le l l2) as Hle by (apply core_le_save_unless, core_le_add_message).
  clearbody l2 msg. assert (Hb2 : base l2 σ) by (by eapply base_core_le).
  destruct (out_core_le _ _ Hle) as [Ho1 Ho2].
  assert (Hf2 : List.find (has_key k) (so_active_tasks (al_orch l2)) = Some t) by (by rewrite (cl_tasks _ _ Hle)).
  unfold session_orchestrator_decrement_task_pending_tools. rewrite Hf2. cbv zeta.
  destruct Hsh as (Hst & Htn & Hpend).
  set (l3 := set_orch l2 _).
  assert (length k < 512) as Hk512 by lia.
  destruct (Z.ltb_spec 0 (at_pending_tool_count t - 1)) as [Hpos|Hpos].
  - (* more results to come *)
    destruct p as [|p]; [lia|]. exists (<[k := AwaitTools n (S p)]> σ).
    split; [left; by apply conv_tool_result|]. split; [|exact (cl_config _ _ Hle)]. split.
    + apply (base_update l2 σ k t (set_pending (at_pending_tool_count t - 1))); [done|done|done| |].
      * split_and!; [done|done|cbn; lia].
      * split; [|lia]. apply (b_turns _ _ Hb2 k n (S (S p))). by right.
    + eapply occs_perm; [| |apply (occs_tool_result _ _ _ _ _ (S p)); [exact Hn|exact Ho]].
      * change (out_llm l ≡ₚ out_llm l2). by rewrite Ho1.
      * change (out_tool l ≡ₚ out_tool l2). by rewrite Ho2.
  - assert (p = 0) as -> by lia. change (max_turns l3) with (max_turns l2).
    assert (max_turns l2 = max_turns l) as Hmax by (unfold max_turns; by rewrite (cl_config _ _ Hle)).
    rewrite Hmax, Hturn, Htn. destruct (Z.leb_spec (max_turns l) n) as [Hm|Hm].
    + (* the turns are used up *)
      set (l3' := send_error_response l3 _ _ _).
      assert (core_le (set_orch l2 (session_orchestrator_remove_task (al_orch l2) (at_id t)))
                      (remove_active_task now l3' (at_id t))) as Hrm.
      { destruct (remove_active_task_core now l3' (at_id t)) as (l4 & Hle4 & ->).
        destruct Hle4 as [Ht4 Hi4 He4 Hl4 Hc4 Hg4 Hs4]. split; [|done..]. cbn. rewrite Ht4.
        apply remove_first_update; [apply (b_ids _ _ Hb2)|exact Hf2|done]. }
      exists (delete k σ). split; [left; by eapply conv_give_up|].
      split; [|rewrite (cl_config _ _ Hrm); exact (cl_config _ _ Hle)]. split.
      * eapply base_core_le; [exact Hrm|by apply base_remove].
      * destruct (out_core_le _ _ Hrm) as [-> ->].
        change (occs (out_llm l2) (out_tool l2) (delete k σ)). rewrite Ho1, Ho2. by eapply occs_give_up.
    + (* the next model call *)
      set (f := fun x => set_state SESSION_STATE_WAITING_LLM (next_turn (set_pending (at_pending_tool_count t - 1) x))).
      match goal with |- refines _ _ (trigger_llm_async ?x _) => assert (x = set_orch l2
        (with_tasks (al_orch l2) (update_first (has_key k) f (so_active_tasks (al_orch l2))))) as -> end.
      { unfold l3, f, set_orch, session_orchestrator_update_task_state, session_orchestrator_increment_task_turn, with_tasks.
        cbn. by rewrite !update_twice. }
      destruct (b_turns _ _ Hb2 k n 1 ltac:(by right)) as [Ht1 Ht2].
      assert (base (set_orch l2 (with_tasks (al_orch l2) (update_first (has_key k) f (so_active_tasks (al_orch l2)))))
        (<[k := AwaitModel (n + 1)]> σ)) as Hb5.
      { apply (base_update l2 σ k t f); [done|done|done| |lia]. split; [done|cbn; lia]. }
      destruct (trigger_spec _ k _ Hb5 Hk512) as (Hb6 & Hl6 & Ht6 & Hc6).
      exists (<[k := AwaitModel (n + 1)]> σ). split; [left; by apply conv_next_turn|].
      split; [|rewrite Hc6; exact (cl_config _ _ Hle)]. split; [done|].
      eapply occs_perm; [symmetry; exact Hl6|rewrite Ht6; reflexivity|].
      change (occs (out_llm l2 ++ [k]) (out_tool l2) (<[k:=AwaitModel (n + 1)]> σ)).
      rewrite Ho1, Ho2. by eapply occs_next_turn.
Qed.

(** ** Commands *)

(** A change that leaves phases and outstanding calls alone, whatever they are. *)
Record keeps l l' : Prop := {
  k_config : al_config l' = al_config l;
  k_llm : out_llm l' = out_llm l;
  k_tool : out_tool l' = out_tool l;
  k_base : forall σ, base l σ -> base l' σ;
}.

Lemma keeps_core_le l l' : core_le l l' -> keeps l l'.
Proof.
  intros Hle. destruct (out_core_le _ _ Hle) as [H1 H2].
  split; [exact (cl_config _ _ Hle)|done|done|]. intros σ Hb. by eapply base_core_le.
Qed.

Lemma keeps_trans l1 l2 l3 : keeps l1 l2 -> keeps l2 l3 -> keeps l1 l3.
Proof. intros [] []. split; try congruence. eauto. Qed.

Lemma keeps_refines l l' σ : sim l σ -> keeps l l' -> refines l σ l'.
Proof.
  intros [Hb Ho] [Hc Hl Ht Hk]. exists σ. split; [by right|]. split; [|done]. split; [by apply Hk|].
  by rewrite Hl, Ht.
Qed.

Lemma find_map_flags k f (ts : list ActiveTask) : (forall t, f t = t \/ f t = set_cancelled t) ->
  List.find (has_key k) (f <$> ts) = f <$> List.find (has_key k) ts.
Proof.
  intros Hf. induction ts as [|t ts IH]; [done|]. rewrite fmap_cons. cbn [List.find].
  assert (has_key k (f t) = has_key k t) as -> by (unfold has_key; by destruct (Hf t) as [-> | ->]).
  by destruct (has_key k t).
Qed.

Lemma keeps_flags l f : (forall t, f t = t \/ f t = set_cancelled t) ->
  keeps l (set_orch l (with_tasks (al_orch l) (f <$> so_active_tasks (al_orch l)))).
Proof.
  intros Hf. assert (forall t, at_id (f t) = at_id t /\ at_session_key (f t) = at_session_key t) as Hpres
    by (intros t; by destruct (Hf t) as [-> | ->]).
  split; [done..|]. intros σ Hb.
  apply (base_tasks l σ σ); [done|..]; cbn [with_tasks so_active_tasks].
  - rewrite <-list_fmap_compose. erewrite list_fmap_ext; [apply (b_ids _ _ Hb)|]. intros i t _. apply Hpres.
  - rewrite <-list_fmap_compose. erewrite list_fmap_ext; [apply (b_keys _ _ Hb)|]. intros i t _. apply Hpres.
  - apply Forall_fmap. eapply Forall_impl; [apply (b_short _ _ Hb)|]. intros t. cbn.
    by destruct (Hpres t) as [-> ->].
  - intros k. pose proof (b_show _ _ Hb k) as Hk. rewrite find_map_flags by done.
    destruct (σ !! k) as [ph|]; [|by rewrite Hk]. destruct Hk as (t & -> & Hsh). exists (f t). split; [done|].
    by destruct (Hf t) as [-> | ->], ph.
  - apply (b_turns _ _ Hb).
  - apply (b_pos _ _ Hb).
  - apply (b_sessions _ _ Hb).
Qed.

Lemma core_le_sends l c d rs : core_le l (fold_left (fun l r => command_ctx_send_response l c d r) rs l).
Proof.
  revert l. induction rs as [|r rs IH]; intros l; [apply core_le_refl|]. cbn [fold_left].
  eapply core_le_trans; [apply (core_le_send_outbound _ c d r)|apply IH].
Qed.

Lemma run_command_keeps h l c d k argv : keeps l (fst (run_command h l c d k argv)).
Proof.
  destruct h; cbn [run_command].
  - unfold cmd_stop, command_ctx_stop_active_tasks. destruct k as [|x k].
    + eapply keeps_trans; [|apply keeps_core_le, core_le_send_outbound]. apply keeps_flags. auto.
    + unfold session_orchestrator_cancel_tasks_by_session.
      eapply keeps_trans; [|apply keeps_core_le, core_le_send_outbound]. apply keeps_flags.
      intros t. cbn. case_match; auto.
  - apply keeps_core_le, core_le_send_outbound.
  - apply keeps_core_le, core_le_send_outbound.
  - apply keeps_core_le, core_le_send_outbound.
  - apply keeps_core_le, core_le_send_outbound.
  - unfold cmd_reload_plugins. destruct (plugin_manager_load_external _ _) as [[r pm] w'].
    apply keeps_core_le. by split.
  - destruct (external_command _ _ _ _ _ _) as [rs w']. apply keeps_core_le.
    eapply core_le_trans; [apply (core_le_world _ w')|apply core_le_sends].
Qed.

Lemma plugin_command_keeps l c d k txt : keeps l (fst (handle_plugin_command l c d k txt)) /\
  (snd (handle_plugin_command l c d k txt) = false -> fst (handle_plugin_command l c d k txt) = l /\
   existsb (fun c => str_eq (c_name c) (fst (parse_slash_command txt 64))) (pm_commands (al_plugins l)) = false).
Proof.
  unfold handle_plugin_command. destruct (parse_slash_command txt 64) as [name args]. cbn [fst].
  destruct (List.find _ _) as [cmd|] eqn:E.
  - split; [apply run_command_keeps|done].
  - split; [apply keeps_core_le, core_le_refl|]. intros _. split; [done|].
    apply not_true_is_false. intros (c' & Hin & Hc)%existsb_exists. by pose proof (find_none _ _ E c' Hin); congruence.
Qed.

Lemma tool_command_keeps l m txt : keeps l (fst (tool_router_handle_fallback_command l m txt)) /\
  (snd (tool_router_handle_fallback_command l m txt) = false -> fst (tool_router_handle_fallback_command l m txt) = l /\
   existsb (fun t => str_eq (t_name t) (fst (parse_slash_command txt 64))) (reg_tools (al_tools l)) = false).
Proof.
  unfold tool_router_handle_fallback_command. destruct (parse_slash_command txt 64) as [name args]. cbn [fst].
  destruct (List.find _ _) as [tool|] eqn:E.
  - split; [|by destruct (tool_router_execute _ _ _) as [[? ?] ?]]. apply keeps_core_le.
    unfold tool_router_execute. destruct (tool_router_get_tool _ _); [|by apply core_le_send_outbound].
    destruct (tool_registry_execute _ _ _ _) as [[e r] w']. by split.
  - split; [apply keeps_core_le, core_le_refl|]. intros _. split; [done|].
    apply not_true_is_false. intros (c' & Hin & Hc)%existsb_exists. by pose proof (find_none _ _ E c' Hin); congruence.
Qed.

(** ** Inbound messages *)

Lemma find_session_spec now l k : sm_wf (al_sessions l) ->
  core_le l (fst (find_session now l k)) /\ al_orch (fst (find_session now l k)) = al_orch l /\
  al_plugins (fst (find_session now l k)) = al_plugins l /\ al_tools (fst (find_session now l k)) = al_tools l /\
  (is_Some (snd (find_session now l k)) -> is_Some (session_manager_get (al_sessions (fst (find_session now l k))) k)).
Proof.
  intros Hw. unfold find_session. destruct (session_manager_get (al_sessions l) k) as [sid|] eqn:E.
  { cbn. split_and!; [apply core_le_refl|done..|]. intros _. by rewrite E. }
  unfold session_manager_load. destruct (build_session_file_path _ _ _) as [path|];
    [|cbn; split_and!; [by split|done..|by intros [? ?]]].
  pose proof (sess_le_create true now (al_sessions l) k) as Hle.
  pose proof (create_key true now (al_sessions l) k Hw eq_refl) as Hk.
  pose proof (session_manager_create_wf true now (al_sessions l) k Hw) as Hw1.
  set (cr := session_manager_create true now (al_sessions l) k) in *.
  assert (Hcr : snd cr = Some (length (sm_sessions (al_sessions l))) /\
    sm_sessions (fst cr) !! length (sm_sessions (al_sessions l)) = Some (session_new k now)).
  { split; [done|]. cbn. by rewrite lookup_app_r, Nat.sub_diag by lia. }
  destruct cr as [mgr1 [id|]]; [|destruct Hcr as [Hcr _]; done].
  cbn [fst snd] in *. destruct Hcr as [[= ->] Hnew].
  destruct (match fs_read _ _ with Some t => Some t | None => _ end) as [text|]; cbn [fst snd].
  - assert (sess_le mgr1 (update_session mgr1 (length (sm_sessions (al_sessions l))) (load_text now (session_new k now) text))) as Hup.
    { eapply sess_le_update; [exact Hnew|apply load_text_key]. }
    split_and!; [apply core_le_sessions; by eapply sess_le_trans|done..|]. intros _.
    cbn [set_sessions al_sessions]. by apply (Hup Hw1).
  - split_and!; [by apply core_le_sessions|done..|]. by intros _.
Qed.

Lemma conversation_key_length m : length (conversation_key m) < 256.
Proof. unfold conversation_key. rewrite truncate_to_length. lia. Qed.

Lemma idle_phase l σ k : base l σ -> List.find (has_key k) (so_active_tasks (al_orch l)) = None -> σ !! k = None.
Proof.
  intros Hb Hf. pose proof (b_show _ _ Hb k) as Hk. destruct (σ !! k); [|done].
  destruct Hk as (t & Ht & _). congruence.
Qed.

Lemma max_turns_pos l : (1 <= max_turns l)%Z.
Proof. unfold max_turns. destruct (al_config l) as [c|]; [|lia]. destruct (Z.ltb_spec 0 (cfg_max_tool_iterations c)); lia. Qed.

(** Starting a conversation: a new task, and its first model call. *)
Lemma start_refines l l3 σ k o t : sim l σ -> core_le l l3 -> σ !! k = None -> length k < 256 ->
  so_active_tasks o = so_active_tasks (al_orch l3) ++ [t] -> at_session_key t = k ->
  (at_id t ∉ (at_id <$> so_active_tasks (al_orch l3))) -> length (at_id t) < 32 -> shows t (AwaitModel 1) ->
  is_Some (session_manager_get (al_sessions l3) k) -> refines l σ (trigger_llm_async (set_orch l3 o) k).
Proof.
  intros [Hb Hoc] Hle Hn Hk Ho Hkey Hid Hlen Hsh Hs. assert (Hb3 : base l3 σ) by (by eapply base_core_le).
  assert (Hb4 : base (set_orch l3 o) (<[k := AwaitModel 1]> σ)).
  { eapply base_add; try done. pose proof (max_turns_pos l3). lia. }
  destruct (trigger_spec _ k _ Hb4 ltac:(lia)) as (Hb5 & Hl5 & Ht5 & Hc5).
  exists (<[k := AwaitModel 1]> σ). split; [left; by apply conv_start|].
  split; [|rewrite Hc5; exact (cl_config _ _ Hle)]. split; [done|].
  destruct (out_core_le _ _ Hle) as [Ho1 Ho2].
  eapply occs_perm; [symmetry; exact Hl5|rewrite Ht5; reflexivity|].
  change (occs (out_llm l3 ++ [k]) (out_tool l3) (<[k:=AwaitModel 1]> σ)). rewrite Ho1, Ho2. by apply occs_start.
Qed.

Lemma refines_core_le l l' σ : sim l σ -> core_le l l' -> refines l σ l'.
Proof. intros Hs Hle. apply keeps_refines; [done|by apply keeps_core_le]. Qed.

(** The state in which [trigger_llm_async] is called for a new task. *)
Lemma started_tasks l k id m n :
  List.find (has_key k) (so_active_tasks (al_orch l)) = None -> truncate_to SESSION_KEY_MAX k = k ->
  so_active_tasks (session_orchestrator_increment_task_turn
    (session_orchestrator_update_task_state (al_orch (add_active_task l id k m n)) k SESSION_STATE_WAITING_LLM) k) =
  so_active_tasks (al_orch l) ++ [next_turn (set_state SESSION_STATE_WAITING_LLM (new_task id k m n))].
Proof.
  intros Hn Hk. unfold add_active_task, session_orchestrator_increment_task_turn, session_orchestrator_update_task_state.
  cbn [set_orch al_orch session_orchestrator_add_task with_tasks so_active_tasks].
  rewrite update_twice by done. rewrite update_first_app; [done..|]. exact Hk.
Qed.

Lemma new_task_shows id k m n : truncate_to SESSION_KEY_MAX k = k ->
  let t := next_turn (set_state SESSION_STATE_WAITING_LLM (new_task id k m n)) in
  at_session_key t = k /\ at_id t = truncate_to 32 id /\ length (at_id t) < 32 /\ shows t (AwaitModel 1).
Proof. intros Hk. cbn. split_and!; [done|done| |done|done]. rewrite truncate_to_length. lia. Qed.

Lemma key_short m : truncate_to SESSION_KEY_MAX (conversation_key m) = conversation_key m.
Proof. apply truncate_to_id. pose proof (conversation_key_length m). unfold SESSION_KEY_MAX. lia. Qed.

Lemma skill_command_refines now rnd l0 l σ m sid txt :
  sim l0 σ -> core_le l0 l -> List.find (has_key (conversation_key m)) (so_active_tasks (al_orch l)) = None ->
  (truncate_to 32 (truncate_to 32 ($"task_" ++ fmt_d now ++ $"_" ++ fmt_d (Z.rem rnd 10000))) ∉ (at_id <$> so_active_tasks (al_orch l))) ->
  is_Some (session_manager_get (al_sessions l) (conversation_key m)) ->
  let r := handle_skill_fallback_command now rnd l m sid txt in
  if snd r then refines l0 σ (fst r) else fst r = l.
Proof.
  intros Hs Hle Hidle Hid Hsess. cbv zeta. unfold handle_skill_fallback_command.
  destruct (parse_slash_command txt 64) as [name args]. destruct env_has_skills; [|done].
  destruct (skills_loader_load_skill (al_world l) name) as [[|c t]|]; [done| |done]. cbn [fst snd].
  set (l1 := loop_add_message _ _ _ _). assert (core_le l l1) as Hl1 by apply core_le_add_message. clearbody l1.
  set (k := conversation_key m) in *.
  set (l2 := set_orch l1 (session_orchestrator_set_current_session_key (al_orch l1) k)).
  set (l3 := refresh_tool_routes l2 _ _).
  assert (core_le l l3) as Hl3 by (by eapply core_le_trans; [exact Hl1|]; split).
  assert (core_le l0 l3) as Hl03 by (by eapply core_le_trans).
  assert (List.find (has_key k) (so_active_tasks (al_orch l3)) = None) as Hidle3 by (by rewrite (cl_tasks _ _ Hl3)).
  destruct (new_task_shows (truncate_to 32 ($"task_" ++ fmt_d now ++ $"_" ++ fmt_d (Z.rem rnd 10000))) k m (session_count l3 sid)
    (key_short m)) as (Hk & Hi & Hlen & Hsh).
  eapply (start_refines l0 l3 σ k).
  - exact Hs.
  - exact Hl03.
  - eapply idle_phase; [eapply base_core_le; [exact Hl03|apply Hs]|done].
  - apply conversation_key_length.
  - apply (started_tasks l3 k _ m (session_count l3 sid) Hidle3 (key_short m)).
  - exact Hk.
  - rewrite Hi, (cl_tasks _ _ Hl3). exact Hid.
  - exact Hlen.
  - exact Hsh.
  - destruct (cl_sess _ _ Hl3) as [_ Hg]; [|by apply Hg]. apply b_table with σ. eapply base_core_le; [exact Hle|apply Hs].
Qed.

Lemma sim_core_le l l' σ : sim l σ -> core_le l l' -> sim l' σ.
Proof.
  intros [Hb Ho] Hle. destruct (out_core_le _ _ Hle) as [H1 H2]. split; [by eapply base_core_le|]. by rewrite H1, H2.
Qed.

Lemma dispatcher_refines now rnd l0 l σ m sid content :
  sim l0 σ -> core_le l0 l -> (starts_skill l m = true -> idle_for l (conversation_key m)) ->
  (truncate_to 32 (truncate_to 32 ($"task_" ++ fmt_d now ++ $"_" ++ fmt_d (Z.rem rnd 10000))) ∉ (at_id <$> so_active_tasks (al_orch l))) ->
  is_Some (session_manager_get (al_sessions l) (conversation_key m)) -> content = str_trim_left (in_content m) ->
  refines l0 σ (fst (command_dispatcher_handle_message now rnd l m sid (conversation_key m) content)).
Proof.
  intros Hs Hle Hskill Hid Hsess ->. unfold command_dispatcher_handle_message.
  unfold str_trim_left at 1 2. rewrite drop_while_idemp. fold (str_trim_left (in_content m)).
  assert (forall l', keeps l l' -> refines l0 σ l') as Hkeep.
  { intros l' Hk. apply keeps_refines; [done|]. eapply keeps_trans; [by apply keeps_core_le|done]. }
  destruct (str_trim_left (in_content m)) as [|c txt] eqn:Etxt; [by apply Hkeep, keeps_core_le, core_le_refl|].
  destruct (decide (c = "/"%char)) as [-> |Hc];
    [|by destruct c as [[] [] [] [] [] [] [] []]; first [apply Hkeep, keeps_core_le, core_le_refl|done]].
  destruct (plugin_command_keeps l (in_channel m) (in_chat_id m) (conversation_key m) ("/"%char :: txt)) as [Hk1 Hf1].
  destruct (handle_plugin_command _ _ _ _ _) as [l1 [|]]; [by apply Hkeep|].
  cbn [fst snd] in *. destruct (Hf1 eq_refl) as [-> He1].
  destruct (tool_command_keeps l m ("/"%char :: txt)) as [Hk2 Hf2].
  destruct (tool_router_handle_fallback_command _ _ _) as [l2 [|]]; [by apply Hkeep|].
  cbn [fst snd] in *. destruct (Hf2 eq_refl) as [-> He2].
  assert (idle_for l (conversation_key m)) as Hidle.
  { apply Hskill. unfold starts_skill. by rewrite Etxt, He1, He2. }
  pose proof (skill_command_refines now rnd l0 l σ m sid ("/"%char :: txt) Hs Hle Hidle Hid Hsess) as Hsk.
  destruct (handle_skill_fallback_command _ _ _ _ _ _) as [l3 [|]]; [done|]. cbn [fst snd] in *. subst l3.
  apply Hkeep, keeps_core_le, core_le_send_outbound.
Qed.

Lemma inbound_refines now sec rnd l σ m : sim l σ -> inbound_ok now sec rnd l m ->
  refines l σ (process_inbound_message now sec rnd l m).
Proof.
  intros Hs (Hskill & Hid1 & Hid2). unfold process_inbound_message.
  destruct (in_content m) as [|c0 t0] eqn:Econtent; [apply refines_core_le; [done|apply core_le_refl]|]. rewrite <-Econtent.
  set (k := conversation_key m) in *.
  destruct (find_session_spec now l k (b_table _ _ (proj1 Hs))) as (Hle & Horch & Hplug & Htools & Hsess).
  destruct (find_session now l k) as [l1 session]. cbn [fst snd] in *.
  destruct session as [sid|];
    [|apply refines_core_le; [done|]; eapply core_le_trans; [exact Hle|apply core_le_send_outbound]].
  specialize (Hsess ltac:(by eexists)).
  assert (refines l σ (fst (command_dispatcher_handle_message now rnd l1 m sid k (str_trim_left (in_content m))))) as Hcmd.
  { apply dispatcher_refines; [done|done| |by rewrite Horch|done|done].
    unfold starts_skill, idle_for. rewrite Hplug, Htools, Horch. exact Hskill. }
  assert (refines l σ (let existing := session_orchestrator_snapshot_task (al_orch l1) k in
    if ts_valid existing && negb (bool_decide (ts_state existing = SESSION_STATE_IDLE)) then
      send_outbound l1 (in_channel m) (in_chat_id m) busy_text
    else process_message_async (add_active_task
      (maybe_auto_consolidate_memory now (loop_add_message now l1 sid (message_new ROLE_USER (Some (formatted_content m)))) sid k
        (formatted_content m)) (inbound_task_id sec rnd) k m (session_count l1 sid)) m)) as Htext.
  { cbv zeta. destruct (List.find (has_key k) (so_active_tasks (al_orch l1))) as [t|] eqn:Ef.
    - pose proof (base_core_le _ _ _ Hle (proj1 Hs)) as Hb1.
      destruct (find_show _ _ _ _ Hb1 Ef) as (ph & Hph & Hsh).
      destruct (show_find _ _ _ _ Hb1 Hph) as (t' & Ef' & _ & Hlen & _). rewrite Ef in Ef'. injection Ef' as <-.
      destruct (snapshot_find _ _ _ Ef Hlen) as (Hv & _ & _ & _ & Hst). rewrite Hv, Hst.
      assert (bool_decide (cx_state (at_ctx t) = SESSION_STATE_IDLE) = false) as ->.
      { apply bool_decide_eq_false. destruct ph; destruct Hsh as [-> _]; done. }
      apply refines_core_le; [done|]. eapply core_le_trans; [exact Hle|apply core_le_send_outbound].
    - rewrite snapshot_none by done. cbn [ts_valid no_task andb].
      set (l3 := maybe_auto_consolidate_memory _ _ _ _ _).
      assert (core_le l1 l3) as Hl13 by (eapply core_le_trans; [apply core_le_add_message|apply core_le_consolidate]).
      clearbody l3. assert (core_le l l3) as Hl3 by (by eapply core_le_trans).
      assert (List.find (has_key k) (so_active_tasks (al_orch l3)) = None) as Ef3 by (by rewrite (cl_tasks _ _ Hl13)).
      destruct (new_task_shows (inbound_task_id sec rnd) k m (session_count l1 sid) (key_short m)) as (Hk & Hi & Hlen & Hsh).
      eapply (start_refines l l3 σ k).
      + exact Hs.
      + exact Hl3.
      + eapply idle_phase; [exact (base_core_le _ _ _ Hl3 (proj1 Hs))|exact Ef3].
      + apply conversation_key_length.
      + apply (started_tasks l3 k (inbound_task_id sec rnd) m (session_count l1 sid) Ef3 (key_short m)).
      + exact Hk.
      + rewrite Hi, (cl_tasks _ _ Hl3). exact Hid1.
      + exact Hlen.
      + exact Hsh.
      + destruct (cl_sess _ _ Hl13) as [_ Hg]; [|by apply Hg].
        apply b_table with σ. exact (base_core_le _ _ _ Hle (proj1 Hs)). }
  destruct (str_trim_left (in_content m)) as [|c txt]; [exact Htext|].
  by destruct c as [[] [] [] [] [] [] [] []].
Qed.

(** ** The worker and the environment *)

Lemma worker_refines now sec rnd l σ : sim l σ ->
  (Fifo.pending (al_internal l) = [] -> forall m rest, al_inbox l = m :: rest -> inbound_ok now sec rnd l m) ->
  refines l σ (worker_round now sec rnd l).
Proof.
  intros Hs Hin. unfold worker_round.
  destruct (Fifo.pending (al_internal l)) as [|ev rest] eqn:Ep.
  - unfold dequeue_inbound_task. destruct (al_inbox l) as [|m rest] eqn:Ei; [apply refines_core_le; [done|apply core_le_refl]|].
    assert (core_le l (set_inbox l rest)) as Hle by (by split).
    destruct (inbound_refines now sec rnd (set_inbox l rest) σ m) as (σ' & H1 & H2 & H3);
      [by eapply sim_core_le|exact (Hin eq_refl m rest eq_refl)|]. by exists σ'.
  - set (l0 := set_internal_q l (Fifo.mkFifo rest (Fifo.is_closed (al_internal l)))).
    destruct Hs as [Hb Ho]. assert (base l0 σ) as Hb0 by (by destruct Hb; split).
    unfold out_llm, out_tool in Ho. rewrite Ep in Ho.
    destruct ev as [k err resp calls|k id name result err]; cbn [omap list_omap ev_llm_key ev_tool_key handle_event] in Ho |- *.
    + destruct (llm_event_refines now l0 σ k err resp calls Hb0) as (σ' & H1 & H2 & H3); [|by exists σ'].
      eapply occs_perm; [|reflexivity|exact Ho]. symmetry. apply Permutation_middle.
    + destruct (tool_event_refines now l0 σ k id name result err Hb0) as (σ' & H1 & H2 & H3); [|by exists σ'].
      eapply occs_perm; [reflexivity| |exact Ho]. symmetry. apply Permutation_middle.
Qed.

Lemma delete_permutation {A} (xs : list A) i x : xs !! i = Some x -> xs ≡ₚ x :: delete i xs.
Proof. intros Hx. by apply delete_Permutation. Qed.

Lemma model_answers_refines l σ i k err resp calls : sim l σ -> al_llm_calls l !! i = Some k ->
  sim (handle_llm_callback (set_llm_calls l (delete i (al_llm_calls l))) err resp calls k) σ.
Proof.
  intros [Hb Ho] Hi. assert (base (set_llm_calls l (delete i (al_llm_calls l))) σ) as Hb1 by (by destruct Hb; split).
  unfold handle_llm_callback. split; [by apply base_send_internal|].
  unfold out_llm, out_tool. rewrite pending_send_internal by apply (b_open _ _ Hb).
  cbn [send_internal set_internal_q al_llm_calls set_llm_calls al_internal al_executor al_tool_ctxs].
  rewrite !omap_app. cbn [omap list_omap ev_llm_key ev_tool_key internal_event_new_llm_result str_new default from_option id].
  rewrite app_nil_r. eapply occs_perm; [|reflexivity|exact Ho]. unfold out_llm.
  etransitivity; [apply Permutation_app_tail, (delete_permutation _ _ _ Hi)|].
  cbn [app]. rewrite app_assoc. apply Permutation_cons_append.
Qed.

Lemma tool_starts_refines l σ i r ex' : sim l σ -> ex_workers (al_executor l) !! i = Some Waiting ->
  worker_take (al_executor l) = TakeRequest r ex' -> sim (set_executor l (set_worker ex' i (Running r))) σ.
Proof.
  intros [Hb Ho] Hi Htake. unfold worker_take in Htake.
  destruct (ex_queue (al_executor l)) as [|r0 rest] eqn:Eq; [by destruct (ex_shutdown (al_executor l))|].
  injection Htake as <- <-.
  set (ex2 := set_worker _ i _). assert (requests ex2 ≡ₚ requests (al_executor l)) as Hreq.
  { unfold requests, ex2. cbn [set_worker ex_queue ex_workers]. rewrite Eq.
    pose proof (running_insert _ _ _ (Running r0) Hi) as Hr. cbn [app] in Hr. rewrite app_nil_r in Hr. rewrite Hr.
    symmetry. apply Permutation_middle. }
  split.
  - destruct Hb. split; try done; cbn [set_executor al_executor al_tool_ctxs].
    + cbn. rewrite b_tail, Eq. by destruct rest.
    + by rewrite Hreq.
  - eapply occs_perm; [reflexivity| |exact Ho]. unfold out_tool. cbn [set_executor al_executor al_tool_ctxs al_internal].
    by rewrite (omap_perm _ _ _ Hreq).
Qed.

Lemma tool_ends_refines l σ i r e t w' ctx : sim l σ -> ex_workers (al_executor l) !! i = Some (Running r) ->
  al_tool_ctxs l !! rq_context r = Some ctx ->
  sim (tool_executor_callback (set_world (set_executor l (set_worker (al_executor l) i Waiting)) w') e t ctx) σ.
Proof.
  intros [Hb Ho] Hi Hctx.
  assert (requests (al_executor l) ≡ₚ requests (set_worker (al_executor l) i Waiting) ++ [r]) as Hreq.
  { unfold requests. cbn [set_worker ex_queue ex_workers]. rewrite <-app_assoc. f_equiv.
    pose proof (running_insert _ _ _ Waiting Hi) as Hr. cbn [app] in Hr. by symmetry. }
  set (l1 := set_world _ w'). assert (base l1 σ) as Hb1.
  { destruct Hb. split; try done. cbn. rewrite Hreq in b_ctxs. by apply Forall_app in b_ctxs as [? _]. }
  unfold tool_executor_callback. split; [by apply base_send_internal|].
  unfold out_llm, out_tool. rewrite pending_send_internal by apply (b_open _ _ Hb).
  cbn [send_internal set_internal_q al_llm_calls l1 set_world set_executor al_internal al_executor al_tool_ctxs].
  rewrite !omap_app. cbn [omap list_omap ev_llm_key ev_tool_key internal_event_new_tool_result str_new default from_option id].
  rewrite app_nil_r. eapply occs_perm; [reflexivity| |exact Ho]. unfold out_tool.
  rewrite (omap_perm _ _ _ Hreq), omap_app. cbn [omap list_omap]. unfold request_key at 2. rewrite Hctx. cbn [fmap option_fmap option_map].
  rewrite <-!app_assoc. f_equiv. apply Permutation_app_comm.
Qed.

Lemma agent_step_refines l l' σ : sim l σ -> agent_step l l' -> refines l σ l'.
Proof.
  intros Hs Hstep. inversion Hstep; subst; clear Hstep.
  - apply refines_core_le; [done|]. unfold run_receive. case_match; [apply core_le_refl|by split].
  - by apply worker_refines.
  - exists σ. split; [by right|]. split; [by apply model_answers_refines|done].
  - exists σ. split; [by right|]. split; [by eapply tool_starts_refines|done].
  - exists σ. split; [by right|]. split; [by apply (tool_ends_refines l σ i r)|done].
Qed.

Lemma running_waiting n : running (replicate n (@Waiting ToolContext)) = [].
Proof. induction n; [done|exact IHn]. Qed.

Lemma agent_new_sim mgr fs (tools : ToolRegistry W ToolContext) config plugins ws w provider : sm_wf mgr ->
  sim (agent_loop_set_llm_provider (agent_loop_new mgr fs tools config plugins ws w) provider) ∅.
Proof.
  intros Hw. split.
  - split; cbn; try done; try apply NoDup_nil_2; try constructor; intros; rewrite ?lookup_empty in *; try done.
    all: naive_solver.
  - intros k. by rewrite lookup_empty.
Qed.

(** The agent as it starts: made, and given its provider. *)
Definition agent_start mgr fs (tools : ToolRegistry W ToolContext) config plugins ws w provider : AgentLoop W :=
  agent_loop_set_llm_provider (agent_loop_new mgr fs tools config plugins ws w) provider.

(** The conversation [k] is in phase [ph], or idle: its task shows the phase,
    and its outstanding calls are those of the phase. *)
Definition in_phase l (k : cstr) (ph : option phase) : Prop :=
  match ph with
  | None => List.find (has_key k) (so_active_tasks (al_orch l)) = None
  | Some p => exists t, List.find (has_key k) (so_active_tasks (al_orch l)) = Some t /\ shows t p
  end /\
  occ k (out_llm l) = llm_of ph /\ occ k (out_tool l) = tool_of ph.

(** Distinct ids and conversations, a session for each task, and turns from 1
    to [max]. *)
Definition tasks_bounded l (max : Z) : Prop :=
  NoDup (at_session_key <$> so_active_tasks (al_orch l)) /\ NoDup (at_id <$> so_active_tasks (al_orch l)) /\
  Forall (fun t => is_Some (session_manager_get (al_sessions l) (at_session_key t)) /\
                   (1 <= cx_turn (at_ctx t) <= max)%Z) (so_active_tasks (al_orch l)).

(** Every reachable state is simulated by a reachable state of the machine. *)
Lemma agent_reachable_sim mgr fs (tools : ToolRegistry W ToolContext) config plugins ws w provider l :
  sm_wf mgr ->
  let l0 := agent_start mgr fs tools config plugins ws w provider in
  rtc agent_step l0 l ->
  exists σ, rtc (conv_step (max_turns l0)) ∅ σ /\ sim l σ /\ max_turns l = max_turns l0.
Proof.
  intros Hw l0 Hr.
  enough (forall x, rtc agent_step x l -> forall σ0, sim x σ0 -> rtc (conv_step (max_turns l0)) ∅ σ0 ->
    al_config x = al_config l0 ->
    exists σ, rtc (conv_step (max_turns l0)) ∅ σ /\ sim l σ /\ max_turns l = max_turns l0) as Hgen.
  { apply (Hgen l0 Hr ∅); [by apply agent_new_sim|apply rtc_refl|done]. }
  clear Hr. induction 1 as [x|x y z Hxy Hyz IH]; intros σ0 Hs Hc Hcfg.
  { exists σ0. split_and!; [done..|]. unfold max_turns. by rewrite Hcfg. }
  destruct (agent_step_refines _ _ _ Hs Hxy) as (σ1 & Hstep & Hs1 & Hcfg1).
  apply (IH σ1); [done| |congruence].
  assert (max_turns x = max_turns l0) as Hm by (unfold max_turns; by rewrite Hcfg). rewrite Hm in Hstep.
  destruct Hstep as [Hstep| ->]; [by eapply rtc_r|done].
Qed.

(** C1: The agent refines the machine that gives each conversation one phase.
    Whatever the order of messages, commands, model answers, tool runs and
    their results, the conversations of every reachable state are in phases
    the machine can reach; a conversation waiting for the model has exactly
    one model call outstanding and no tool call, one waiting for tools has
    exactly its pending count of tool calls outstanding and no model call,
    and an idle one has nothing outstanding. All this holds while no id of a
    live task is drawn again and no skill command is sent to a busy
    conversation ([inbound_ok], a premise of the worker's step): such a command
    would start a second task ([Commands.skill_command_ignores_busy]). *)
Theorem agent_refines_conversations mgr fs (tools : ToolRegistry W ToolContext) config plugins ws w provider l :
  sm_wf mgr ->
  let l0 := agent_start mgr fs tools config plugins ws w provider in
  rtc agent_step l0 l ->
  exists σ, rtc (conv_step (max_turns l0)) ∅ σ /\ forall k, in_phase l k (σ !! k).
Proof.
  intros Hw l0 Hr. destruct (agent_reachable_sim _ _ _ _ _ _ _ _ _ Hw Hr) as (σ & Hσ & [Hb Ho] & _).
  exists σ. split; [done|]. intros k. split; [apply (b_show _ _ Hb)|apply Ho].
Qed.

(** C9: In every state reachable while [inbound_ok] holds of the messages, that
    is, while no id of a live task is drawn again and no skill command is sent
    to a busy conversation (which would give it a second task,
    [Commands.skill_command_ignores_busy]), a conversation has at most one task,
    a task id names one task, every task has its session in the table, and the
    turn of every task is between 1 and the configured maximum, so no task
    makes the model call more often than that. *)
Theorem agent_tasks_bounded mgr fs (tools : ToolRegistry W ToolContext) config plugins ws w provider l :
  sm_wf mgr ->
  let l0 := agent_start mgr fs tools config plugins ws w provider in
  rtc agent_step l0 l ->
  tasks_bounded l (max_turns l0).
Proof.
  intros Hw l0 Hr. destruct (agent_reachable_sim _ _ _ _ _ _ _ _ _ Hw Hr) as (σ & _ & [Hb _] & Hm).
  split; [apply (b_keys _ _ Hb)|]. split; [apply (b_ids _ _ Hb)|]. apply Forall_forall. intros t Ht.
  pose proof (find_key_mem _ t (b_keys _ _ Hb) Ht) as Hf.
  pose proof (b_show _ _ Hb (at_session_key t)) as Hs.
  destruct (σ !! at_session_key t) as [ph|] eqn:Eph; [|congruence].
  split; [by apply (b_sessions _ _ Hb); eexists|].
  destruct Hs as (t' & Hf' & Hsh). rewrite Hf in Hf'. injection Hf' as <-. fold l0 in Hm. rewrite <- Hm.
  destruct ph as [n|n p].
  - destruct Hsh as (_ & ->). apply (b_turns _ _ Hb (at_session_key t) n 0). by left.
  - destruct Hsh as (_ & -> & _). apply (b_turns _ _ Hb (at_session_key t) n p). by right.
Qed.
End Refinement.

(** ** A run: a message, the model's answer with one tool call, the tool is started *)

Definition demo_env : AgentEnv unit := {|
  env_has_memory := false;
  memory_append_history _ _ w := (err_ok, w);
  memory_consolidate _ w := (err_ok, w);
  env_has_skills := false;
  skills_loader_load_skill _ _ := None;
  fmt_time _ := [];
  plugin_manager_load_external pm w := (0%Z, pm, w);
  external_command _ _ _ _ _ w := ([], w);
|}.

Definition demo_files : Fs := mkFs ∅ (fun _ => true) (fun _ _ => true).
Definition demo_message : InboundMessage := inbound_message_new (Some $"cli") (Some $"me") (Some $"hello") None.
Definition demo_start : AgentLoop unit :=
  agent_loop_set_llm_provider
    (agent_loop_new (session_manager_new $"/w") demo_files (mkRegistry [] 8) None (mkPlugins [] [] []) $"/w" tt) true.
Definition demo_asked : AgentLoop unit := worker_round (H := demo_env) 5 5 7 (fst (run_receive demo_start demo_message)).
Definition demo_answered : AgentLoop unit :=
  handle_llm_callback (set_llm_calls demo_asked (delete 0 (al_llm_calls demo_asked))) err_ok (Some []) (Some [mkToolCall $"c1" $"ls" $"{}"]) $"cli:me".
Definition demo_calling : AgentLoop unit := worker_round (H := demo_env) 6 6 7 demo_answered.

Lemma demo_inbound_ok m rest : al_inbox (fst (run_receive demo_start demo_message)) = m :: rest ->
  inbound_ok 5 5 7 (fst (run_receive demo_start demo_message)) m.
Proof.
  intros Hm. vm_compute in Hm. injection Hm as <- <-. split; [by vm_compute|]. split; by apply not_elem_of_nil.
Qed.

Lemma demo_asks : agent_step (H := demo_env) (fst (run_receive demo_start demo_message)) demo_asked.
Proof. exact (agent_worker 5 5 7 _ (fun _ m rest => demo_inbound_ok m rest)). Qed.

Lemma demo_answers : agent_step (H := demo_env) demo_asked demo_answered.
Proof.
  assert (al_llm_calls demo_asked !! 0 = Some $"cli:me") as E by (vm_compute; reflexivity).
  exact (agent_model_answers demo_asked 0 _ err_ok (Some []) (Some [mkToolCall $"c1" $"ls" $"{}"]) E).
Qed.

Lemma demo_calls : agent_step (H := demo_env) demo_answered demo_calling.
Proof.
  assert (Fifo.pending (al_internal demo_answered) <> []) as E by (vm_compute; discriminate).
  exact (agent_worker 6 6 7 demo_answered (fun He => False_ind _ (E He))).
Qed.

Lemma demo_run : rtc (agent_step (H := demo_env)) demo_start demo_calling.
Proof.
  refine (rtc_l _ _ _ _ (agent_receive demo_start demo_message) _).
  exact (rtc_l _ _ _ _ demo_asks (rtc_l _ _ _ _ demo_answers (rtc_l _ _ _ _ demo_calls (rtc_refl _ _)))).
Qed.

Lemma agent_refines_conversations_witness :
  exists σ, rtc (conv_step 15) ∅ σ /\ forall k, in_phase demo_calling k (σ !! k).
Proof.
  apply (agent_refines_conversations (H := demo_env) (session_manager_new $"/w") demo_files (mkRegistry [] 8) None
           (mkPlugins [] [] []) $"/w" tt true demo_calling (session_manager_new_wf _) demo_run).
Defined.

Lemma agent_tasks_bounded_witness :
  tasks_bounded demo_calling 15.
Proof.
  exact (agent_tasks_bounded (H := demo_env) (session_manager_new $"/w") demo_files (mkRegistry [] 8) None
           (mkPlugins [] [] []) $"/w" tt true demo_calling (session_manager_new_wf _) demo_run).
Defined.
